(* ===== verification/_CoqProject ===== *)
-Q . S2P
Prelude.v
ListHead.v
Hlist.v
Sha1.v
Memory.v
Hgang.v
Strpool.v
Vec.v
HttpParse.v
HttpReq.v
Os.v
Fobuf.v
Trie.v
Webroot.v
Normalize.v
Critbit.v
Rbtree.v
Vhosts.v
Mkroot.v
MkrootWrite.v
MkrootLayout.v
MkrootImage.v
MkrootServe.v
MkrootScan.v
MkrootMain.v
HttpBuf.v
HttpHead.v
Nbio.v
NbioLoop.v
NbioPump.v
NbioPoll.v
NbioEventfd.v
NbioEpoll.v
Sockets.v
NbioListener.v
Waitq.v
Httpd.v
Startup.v
NbioConnecter.v
NbioInotify.v
VhostsWatch.v
Fsck.v
Aio.v
HttpConn.v
IoModels.v
Transmit.v
Serve.v
HttpPump.v
Async.v
IoAsync.v
IoAsyncSendfile.v
Httprape.v
RapeMain.v
