(* ===== verification/Prelude.v ===== *)
(** * A verification development for ashttpd

    ashttpd is a single-threaded HTTP server. It serves files out of a
    "webroot": one file, made by the program mkroot, that holds a trie of URIs,
    tables of redirects and files, a string table and the contents. The
    development translates the C code function by function and proves what
    each component promises to its clients.

    ** How the parts interact

    - [mkroot.c] scans a directory, builds a trie ([trie.c]) and writes the
      webroot through a buffered stream ([fobuf.c] over [os.c]), with a digest
      ([sha1.c]) of each file. [fsck.c] lists what such a file holds.
    - [webroot.c] maps such a file and looks URIs up in it; [vhosts.c] keeps a
      table from host names to webroots in a crit-bit tree ([critbit.c]), up to
      date by the events of a directory ([nbio-inotify.c]).
    - [http_conn.c] reads a request into a buffer ([http_buf.c]) from a
      non-blocking socket, recognises its end ([http_parse.c]), decodes it
      ([http_req.c], [vec.c]), normalises its URI ([normalize.c]), looks it
      up, composes a header and hands the file to an I/O model ([io_sync.c],
      [io_sendfile.c], [io_async.c], [io_async_sendfile.c]).
    - [nbio.c] drives everything: its descriptors, in linked lists ([list.h]),
      are connections, listening and connecting sockets, watched directories
      and eventfds; a plugin ([nbio-poll.c], [nbio-epoll.c]) asks the kernel.
      [hgang.c] and [strpool.c] provide memory.
    - [httpd.c] puts the server together; [httprape.c] is a client of it that
      makes load.

    ** Files

    Foundations:
    - [Prelude]: outcomes, integers and bytes, automation, binary search.
    - [Memory]: bytes at addresses, for the pools.
    - [ListHead]: [list.h] on a heap of next and prev pointers, and its
      refinement of abstract sequences. The event loop is built on it.
      [Hlist]: the lists with a single head pointer of the same file.
    - [Vec], [Sha1], [Hgang], [Strpool], [Critbit], [Rbtree], [Os], [Fobuf]: one
      C file each, under its name.

    The webroot:
    - [Trie]: [trie.c] and the on-disk format; [Webroot]: the look-ups, over
      a list of bytes, each access checked.
    - [Mkroot] (the scan), [MkrootWrite] (layout and writer) are the
      definitions; [MkrootLayout], [MkrootImage], [MkrootServe] and
      [MkrootScan] prove what each phase gives, and [MkrootMain] has the
      program and its end-to-end theorem.
    - [Fsck]: what [fsck.c] prints, as data.
    - [Vhosts]: the table and the references it holds.

    Requests and connections:
    - [HttpParse], [HttpReq], [Normalize]: the parsers.
    - [HttpBuf], [HttpHead], [HttpConn]: buffers, response headers, and the
      state machine of a connection; [Transmit], [Serve] and [HttpPump] have
      its theorems: transmitting one response, answering requests, and running
      under the event loop.
    - [IoModels]: the two synchronous models; [Aio], [Async], [IoAsync],
      [IoAsyncSendfile]: the asynchronous ones. The class [AsyncFio] with its
      laws [AsyncLaws] is what the shared theorem asks of a model.

    The event loop:
    - [Nbio]: one descriptor, as a connection sees it. [NbioLoop]: the whole
      thread, with its lists, and the contract of a plugin, the class
      [Plugin]. [NbioPump]: the loop. [NbioPoll], [NbioEpoll]: the plugins,
      the latter over a kernel with the laws of the class [EpollKernel].
    - [NbioEventfd], [NbioInotify]: kinds of descriptors. [Sockets] has the
      socket calls and their laws (the classes [Sockets] and, for what becomes
      of each socket, [SockStates]) and a script that satisfies them;
      [NbioListener] and [NbioConnecter] use them.
    - [Waitq]: the queue of listeners that are out of resources, of
      [http_conn.c], in the memory of the event loop.
    - [VhostsWatch]: inotify events, through [NbioInotify], into [Vhosts].

    The programs: [Httpd], with [Startup] for what [main] calls to begin with,
    and [Httprape] (the clients) with [RapeMain] (its [main]).

    A definition has the name of the function it translates; a definition of
    another name is a part of one (the body of a loop, a branch), or the
    reading or writing of a field.

    ** Conventions

    Integers are [Z] with their width written out ([uint w], [sint w]) where
    the code can wrap; indices and lengths that the code has just checked are
    [nat]. Bytes are [Z] between 0 and 255. A function of the code that can
    stop the program returns an [outcome]: [AssertFailed] for an assertion,
    [OutOfBounds] for an access outside an object (undefined behaviour),
    [Blocked] for a system call that has not answered, [OutOfFuel] for the
    recursion budget of a definition whose recursion is not structural. What
    the kernel and the allocator answer is an input: a list of answers, one
    per call, a boolean, or a class of operations with laws. Pointers into a
    buffer are offsets; a heap of shared objects is a finite map.

    Budgets. Theorems that give one say how much is enough: the length of what
    is parsed or printed, the number of descriptors in the active list for a
    turn of the event loop, the number of entries and their lengths for the
    trie ([trie_new_total]), the number of elements for a binary search. A
    result within the budget is then proved, not assumed.

    ** Groups of theorems

    - From a directory to a response: [mkroot_roundtrip], [trie_roundtrip],
      [trie_write_exact], [trie_new_spells_entries], [trie_new_total],
      [scan_links]: what mkroot writes, the server finds, under the
      conditions on sizes of the on-disk format; [fsck_reports].
    - A connection: [exchange], [http_read_serves],
      [response_transmitted], [connection_released], [pump_keeps]:
      a request is answered once and completely, whatever pieces the kernel
      takes and gives, and everything is given back when a connection dies.
      The specification of replies, [request_reply] of [Serve], is a function
      of the request and of whether the I/O model could prepare; the theorems
      say that it could unless memory was refused, so that a 500 stands for
      that alone. Requests it has no answer for, on which the code faults
      ([no_host_faults], [n_utf8_faults]), are excluded by hypothesis; a reply
      with an empty file is covered, and the reference to the webroot it leaves
      behind ([empty_file_leaks]) is part of the theorems.
    - I/O models: [io_sync_contract], [io_sendfile_contract] (what
      a connection relies on: bytes in order, completion, and the grounds for
      giving up, [gives_up] of the class [FioSpec]), [async_streams],
      [async_sendfile_streams] (the bytes of the file in order, once, for any
      order of completions, callbacks and reported events, a full socket that
      becomes writable again included).
    - Parsers: [incremental_finds_first_blank_line],
      [incremental_chunk_independent], [http_decode_buf_safe],
      [http_req_decodes_printed], [http_req_safe], [normalize_resolves],
      [n_path_traversal], [normalize_identity], [n_hex_decodes].
    - Containers: [cb_insert_map], [cb_contains_map], [cb_delete_map] (the
      crit-bit tree is a map), [rbtree_insert_balances],
      [rbtree_walk_in_order], [list_refines], [hlist_refines], [hgang_objects],
      [strpool_strings], [sha1_standard] (the digest of the standard).
    - The event loop: [nbio_calls_refine], [nbio_pump_ok],
      [epoll_pump_delivers], [poll_pump_delivers], [ifd_read_tells],
      [listener_inet_all_or_nothing], [listener_read_accepts],
      [listeners_wait_and_wake], [http_listen_all_or_nothing],
      [http_proto_init_all_or_nothing], [vhosts_event_refines],
      [vhosts_follow_directory].
    - The load generator: [client_asks_for_page], [markov_step_total],
      [get_random_bits_bound].
    - Where the code does not do what it means to: [async_get_crashes],
      [aio_submit_leaks], [connecter_dangles], [connecter_leaks],
      [poll_pump_misses], [watch_gap_uninitialised], [nbio_pump_spins],
      [fsck_overflows], [mkroot_crash_on_full_tmp], [last_modified_month],
      [etag_collisions], [io_sync_truncates], [trie_new_loses_entries],
      [n_utf8_faults], [hgang_foreach_spec], [get_random_bits_overflows],
      [client_write_again], [client_second_read],
      [rbtree_delete_follows_null], [hlist_add_after_faults],
      [nads_strerror_spec], [client_gives_up].

    ** Not modelled

    - [http_conn.c]: the signal handler, which prints and exits; [http_buf.c]:
      the naked buffers, which nothing asks for.
    - [list.h]: the typed iterators, which are the others through a cast.
    - The arguments of [fsck.c]; what programs print about themselves; the
      release of memory at exit.
    - [markov.c], which is generated.
    - Threads: the program has one; only eventfds are written by the kernel.
    - The contents of a file that is changed while it is served. *)

From stdpp Require Export prelude list numbers strings gmap.
From Stdlib Require Export ZArith Lia.

(** ** Outcomes

    A C function either returns a value or stops the program: an [assert]
    that fails, or an access outside an object (undefined behaviour).  A
    system call that has not answered leaves the program blocked in it.  The
    model's recursion budget is a last, artificial, fault; the theorems show
    it is never reached. *)

Inductive fault :=
| AssertFailed
| OutOfBounds
| Blocked
| OutOfFuel.

Inductive outcome (A : Type) :=
| Ret (a : A)
| Fault (f : fault).
Arguments Ret {A} a.
Arguments Fault {A} f.

#[export] Instance fault_eq_dec : EqDecision fault.
Proof. solve_decision. Defined.

#[export] Instance outcome_eq_dec {A} `{EqDecision A} : EqDecision (outcome A).
Proof. solve_decision. Defined.

#[export] Instance outcome_ret : MRet outcome := fun A a => Ret a.

#[export] Instance outcome_bind : MBind outcome := fun A B f m =>
  match m with
  | Ret a => f a
  | Fault e => Fault e
  end.

Definition c_assert (b : bool) : outcome unit :=
  if b then Ret tt else Fault AssertFailed.

Definition of_option {A} (e : fault) (o : option A) : outcome A :=
  match o with
  | Some a => Ret a
  | None => Fault e
  end.

Lemma outcome_bind_ret {A B} (f : A -> outcome B) (m : outcome A) b :
  (m ≫= f) = Ret b <-> exists a, m = Ret a /\ f a = Ret b.
Proof.
  destruct m as [a|e]; cbn; split; intros H; [by exists a| |done|].
  - by destruct H as (? & [= <-] & ?).
  - by destruct H as (? & ? & ?).
Qed.

Lemma c_assert_ret b u : c_assert b = Ret u <-> b = true.
Proof. destruct b, u; cbn; split; congruence. Qed.

Lemma of_option_ret {A} e (o : option A) a : of_option e o = Ret a <-> o = Some a.
Proof. destruct o; cbn; split; congruence. Qed.

(** One step of a computation whose first action's outcome is known. *)
Ltac run := cbn [c_assert of_option mbind outcome_bind].
Tactic Notation "run_in" ident(H) := cbn [c_assert of_option mbind outcome_bind] in H.
Tactic Notation "run_all" := cbn [c_assert of_option mbind outcome_bind] in *.

Declare Scope c_scope.
Delimit Scope c_scope with C.
Notation "'assert!' b ;; e" := (mbind (fun _ : unit => e) (c_assert b))
  (at level 100, b at level 99, e at level 200, right associativity,
   format "'assert!'  b ;; '/' e") : c_scope.
Open Scope c_scope.

(** Taking a computation that has returned apart, into all the ways it can have. *)
Ltac ret_inv_step :=
  match goal with
  | H : Fault _ = Ret _ |- _ => discriminate H
  | H : Ret _ = Ret _ |- _ => injection H; clear H; intros; subst
  | H : (_ ≫= _) = Ret _ |- _ => apply outcome_bind_ret in H as (? & ? & ?)
  | H : (let (_, _) := ?x in _) = Ret _ |- _ => destruct x eqn:?
  | H : (if ?b then _ else _) = Ret _ |- _ => destruct b eqn:?
  | H : match ?x with _ => _ end = Ret _ |- _ => destruct x eqn:?
  end.
Ltac ret_inv := cbv zeta in *; repeat ret_inv_step.

(** ** Machine integers and bytes

    A [w]-bit unsigned integer is a [Z] reduced modulo [2^w]; [sint w] is the
    signed reading of the low [w] bits (gcc's conversion, and what [-fwrapv]
    makes of signed overflow). A byte is a [Z] between 0 and 255. *)

Definition uint (w : Z) (z : Z) : Z := (z mod 2 ^ w)%Z.
Definition sint (w : Z) (z : Z) : Z :=
  let u := uint w z in
  if (u <? 2 ^ (w - 1))%Z then u else (u - 2 ^ w)%Z.

Definition is_byte (b : Z) : bool := ((0 <=? b) && (b <? 256))%Z.
Abbreviation bytes_ok l := (Forall (fun b => is_byte b = true) l).

Definition lit (s : string) : list Z :=
  (fun a => Z.of_N (Ascii.N_of_ascii a)) <$> String.list_ascii_of_string s.

Definition CR : Z := 13%Z.
Definition LF : Z := 10%Z.
Definition SP : Z := 32%Z.
Definition crlf : list Z := [CR; LF].

Lemma uint_small w z : (0 <= z < 2 ^ w)%Z -> uint w z = z.
Proof. intros. by apply Z.mod_small. Qed.

Lemma uint_bound w z : (0 <= w)%Z -> (0 <= uint w z < 2 ^ w)%Z.
Proof. intros. apply Z.mod_pos_bound. lia. Qed.

Lemma sint_small w z : (0 < w)%Z -> (- 2 ^ (w - 1) <= z < 2 ^ (w - 1))%Z -> sint w z = z.
Proof.
  intros Hw Hz. unfold sint, uint.
  assert (2 ^ w = 2 * 2 ^ (w - 1))%Z as Hp.
  { rewrite <- Z.pow_succ_r by lia. f_equal. lia. }
  destruct (decide (0 <= z)%Z).
  - rewrite Z.mod_small by lia. destruct (Z.ltb_spec z (2 ^ (w - 1))); lia.
  - replace (z mod 2 ^ w)%Z with (z + 2 ^ w)%Z.
    + destruct (Z.ltb_spec (z + 2 ^ w) (2 ^ (w - 1))); lia.
    + apply (Z.mod_unique_pos _ _ (-1)); lia.
Qed.

Lemma is_byte_spec b : is_byte b = true <-> (0 <= b < 256)%Z.
Proof. unfold is_byte. rewrite andb_true_iff, Z.leb_le, Z.ltb_lt. done. Qed.

Lemma land_shiftl a b n : (0 <= n)%Z -> (0 <= b < 2 ^ n)%Z -> Z.land (Z.shiftl a n) b = 0%Z.
Proof.
  intros Hn Hb. apply Z.bits_inj'. intros i Hi. rewrite Z.land_spec, Z.bits_0.
  destruct (decide (i < n)%Z).
  - by rewrite Z.shiftl_spec_low.
  - rewrite <- (Z.mod_small b (2 ^ n)) by done. rewrite Z.mod_pow2_bits_high by lia.
    apply andb_false_r.
Qed.

(** Putting a field above another. *)
Lemma lor_shiftl a b n : (0 <= n)%Z -> (0 <= b < 2 ^ n)%Z ->
  Z.lor (Z.shiftl a n) b = (a * 2 ^ n + b)%Z.
Proof.
  intros Hn Hb. rewrite <- Z.lxor_lor by by apply land_shiftl.
  rewrite <- Z.add_nocarry_lxor by by apply land_shiftl. by rewrite Z.shiftl_mul_pow2.
Qed.

(** ** Lists of bytes *)

(** The string at the start of some memory. *)
Fixpoint cstr (m : list Z) : list Z :=
  match m with
  | [] => []
  | c :: m' => if (c =? 0)%Z then [] else c :: cstr m'
  end.

(** Re-associate and reduce concatenations; decide a closed goal; compute
    lengths of concatenations. *)
Ltac app_norm := repeat (rewrite <- app_assoc || (progress cbn [app crlf])).
Ltac by_decide := apply (bool_decide_unpack _); vm_compute; exact I.
Ltac app_len := repeat (rewrite length_app || (progress cbn [length app crlf])); lia.

(** Linear arithmetic with division and remainder by constants. *)
Ltac div_lia := Zify.zify; Z.to_euclidean_division_equations; lia.

(** Every byte, checked one by one. *)
Lemma byte_ind (P : Z -> bool) : forallb P (Z.of_nat <$> seq 0 256) = true ->
  forall c, (0 <= c < 256)%Z -> P c = true.
Proof.
  intros H c Hc. rewrite forallb_forall in H. apply H.
  replace c with (Z.of_nat (Z.to_nat c)) by lia. apply in_map, in_seq. lia.
Qed.

(** ** Little-endian integers *)

Fixpoint le_bytes (n : nat) (z : Z) : list Z :=
  match n with
  | O => []
  | S n => Z.land z 255 :: le_bytes n (Z.shiftr z 8)
  end.

Fixpoint le_val (l : list Z) : Z :=
  match l with
  | [] => 0
  | b :: l' => (b + 256 * le_val l')%Z
  end.

Lemma length_le_bytes n z : length (le_bytes n z) = n.
Proof. revert z. induction n; intros z; cbn; [done|]. by rewrite IHn. Qed.

Lemma le_bytes_val n z : (0 <= z < 256 ^ Z.of_nat n)%Z -> le_val (le_bytes n z) = z.
Proof.
  revert z. induction n as [|n IH]; intros z Hz; [cbn in *; lia|].
  cbn [le_bytes le_val]. rewrite Z.shiftr_div_pow2 by lia. change 255%Z with (Z.ones 8).
  rewrite Z.land_ones by lia. change (2 ^ 8)%Z with 256%Z.
  rewrite IH; [pose proof (Z.div_mod z 256); lia|].
  rewrite Nat2Z.inj_succ, Z.pow_succ_r in Hz by lia.
  split; [apply Z.div_pos; lia|apply Z.div_lt_upper_bound; lia].
Qed.

Lemma le_val_bound l : bytes_ok l -> (0 <= le_val l < 256 ^ Z.of_nat (length l))%Z.
Proof.
  induction 1 as [|b l Hb _ IH]; [cbn; lia|]. apply is_byte_spec in Hb.
  cbn [length le_val]. rewrite Nat2Z.inj_succ, Z.pow_succ_r; lia.
Qed.

Lemma le_bytes_bytes n z : (0 <= z)%Z -> bytes_ok (le_bytes n z).
Proof.
  revert z. induction n as [|n IH]; intros z Hz; cbn; constructor.
  - apply is_byte_spec. change 255%Z with (Z.ones 8). rewrite Z.land_ones by lia.
    apply Z.mod_pos_bound. lia.
  - apply IH. by apply Z.shiftr_nonneg.
Qed.

(** What automation knows: in [widths] that integers have their widths, and in
    [lengths] how long what the code puts together is. *)
Create HintDb widths.
#[export] Hint Resolve uint_bound le_bytes_bytes : widths.
#[export] Hint Extern 2 (_ <= _)%Z => lia : widths.

Create HintDb lengths.
#[export] Hint Rewrite @length_app @length_take @length_drop @length_replicate @length_rev @length_fmap length_le_bytes : lengths.

(** ** Binary search

    The loop [while (n) { i = n/2; c = cmp(d[i]); if (c<0) n = i; else if (c>0)
    { d += i+1; n -= i+1 } else found }], which [dispatch_hdr] and
    [trie_query] both contain. [cmp j] compares the sought key with element
    [j]; [lo] is the offset [d] has advanced by. *)

Section bsearch.
Context (cmp : nat -> outcome Z).

Fixpoint bsearch (fuel lo n : nat) : outcome (option nat) :=
  match n with
  | O => Ret None
  | _ =>
    match fuel with
    | O => Fault OutOfFuel
    | S fuel =>
      let i := Nat.div2 n in
      c ← cmp (lo + i);
      if (c <? 0)%Z then bsearch fuel lo i
      else if (0 <? c)%Z then bsearch fuel (lo + (i + 1)) (n - (i + 1))
      else Ret (Some (lo + i))
    end
  end.

(** What a comparison function must satisfy for [bsearch] to find element
    [j] of the range: it is positive before [j], zero at [j], negative
    after it. *)
Definition bsearch_at (lo n j : nat) : Prop :=
  lo <= j < lo + n /\ cmp j = Ret 0%Z /\
  (forall i, lo <= i < j -> exists c, cmp i = Ret c /\ (0 < c)%Z) /\
  (forall i, j < i < lo + n -> exists c, cmp i = Ret c /\ (c < 0)%Z).

Lemma div2_lt n : n <> 0 -> Nat.div2 n < n.
Proof. intros. apply Nat.lt_div2. lia. Qed.

Lemma bsearch_sound fuel lo n j :
  bsearch fuel lo n = Ret (Some j) -> lo <= j < lo + n /\ cmp j = Ret 0%Z.
Proof.
  revert lo n. induction fuel as [|fuel IH]; intros lo [|n] H; try done.
  cbn [bsearch] in H. pose proof (div2_lt (S n) ltac:(lia)).
  generalize dependent (Nat.div2 (S n)). intros d H Hd.
  apply outcome_bind_ret in H as (c & Hc & H).
  destruct (Z.ltb_spec c 0); [apply IH in H as [? ?]; split; [lia|done]|].
  destruct (Z.ltb_spec 0 c); [apply IH in H as [? ?]; split; [lia|done]|].
  injection H as <-. split; [lia|]. by replace 0%Z with c by lia.
Qed.

Lemma bsearch_total fuel lo n :
  n <= fuel -> (forall i, lo <= i < lo + n -> exists c, cmp i = Ret c) ->
  exists r, bsearch fuel lo n = Ret r.
Proof.
  revert lo n. induction fuel as [|fuel IH]; intros lo [|n] Hf Hc; [eauto|lia|eauto|].
  cbn [bsearch mbind outcome_bind]. pose proof (div2_lt (S n) ltac:(lia)) as Hd.
  generalize dependent (Nat.div2 (S n)). intros d Hd.
  destruct (Hc (lo + d)) as [c ->]; [lia|]; cbn [bsearch mbind outcome_bind].
  destruct (c <? 0)%Z; [apply IH; [lia|]; intros; apply Hc; lia|].
  destruct (0 <? c)%Z; [apply IH; [lia|]; intros; apply Hc; lia|eauto].
Qed.

Lemma bsearch_complete fuel lo n j :
  n <= fuel -> bsearch_at lo n j -> bsearch fuel lo n = Ret (Some j).
Proof.
  revert lo n. induction fuel as [|fuel IH]; intros lo [|n] Hf (Hj & H0 & Hlt & Hgt);
    [lia|lia|lia|].
  cbn [bsearch mbind outcome_bind]. pose proof (div2_lt (S n) ltac:(lia)) as Hd.
  generalize dependent (Nat.div2 (S n)). intros i Hd.
  destruct (decide (lo + i = j)) as [->|]; [by rewrite H0|].
  destruct (decide (j < lo + i)).
  - destruct (Hgt (lo + i)) as (c & -> & Hc); [lia|]; cbn.
    destruct (Z.ltb_spec c 0); [|lia].
    apply IH; [lia|]. repeat split; [lia|lia|done| |]; intros ??; [apply Hlt|apply Hgt]; lia.
  - destruct (Hlt (lo + i)) as (c & -> & Hc); [lia|]; cbn.
    destruct (Z.ltb_spec c 0); [lia|]. destruct (Z.ltb_spec 0 c); [|lia].
    apply IH; [lia|]. repeat split; [lia|lia|done| |]; intros ??; [apply Hlt|apply Hgt]; lia.
Qed.
End bsearch.
