(* ===== verification/ListHead.v ===== *)
(** * list.h: doubly linked lists

    Nodes are addresses; memory maps a node to its [next] and [prev] pointers, and
    every read or write of a node that is not there is a fault. A list is a ring
    through its head. The operations are proved against lists of addresses. *)

From S2P Require Import Prelude.

(** ** Memory *)

Abbreviation heap := (gmap nat (nat * nat)).

Definition next (h : heap) (a : nat) : option nat := fst <$> h !! a.
Definition prev (h : heap) (a : nat) : option nat := snd <$> h !! a.

Definition get_next (h : heap) (a : nat) : outcome nat := of_option OutOfBounds (next h a).
Definition get_prev (h : heap) (a : nat) : outcome nat := of_option OutOfBounds (prev h a).

Definition set_next (h : heap) (a v : nat) : outcome heap :=
  '(_, p) ← of_option OutOfBounds (h !! a); Ret (<[a := (v, p)]> h).
Definition set_prev (h : heap) (a v : nat) : outcome heap :=
  '(n, _) ← of_option OutOfBounds (h !! a); Ret (<[a := (n, v)]> h).

(** ** The operations *)

Definition INIT_LIST_HEAD (h : heap) (ptr : nat) : outcome heap :=
  h ← set_next h ptr ptr; set_prev h ptr ptr.

Definition _list_add (h : heap) (new prev next : nat) : outcome heap :=
  h ← set_prev h next new;
  h ← set_next h new next;
  h ← set_prev h new prev;
  set_next h prev new.

Definition list_add (h : heap) (new head : nat) : outcome heap :=
  n ← get_next h head; _list_add h new head n.

Definition list_add_tail (h : heap) (new head : nat) : outcome heap :=
  p ← get_prev h head; _list_add h new p head.

Definition list_del_internal (h : heap) (prev next : nat) : outcome heap :=
  h ← set_prev h next prev; set_next h prev next.

Definition list_del (h : heap) (entry : nat) : outcome heap :=
  p ← get_prev h entry;
  n ← get_next h entry;
  h ← list_del_internal h p n;
  INIT_LIST_HEAD h entry.

Definition list_move (h : heap) (list head : nat) : outcome heap :=
  p ← get_prev h list;
  n ← get_next h list;
  h ← list_del_internal h p n;
  list_add h list head.

Definition list_move_tail (h : heap) (list head : nat) : outcome heap :=
  p ← get_prev h list;
  n ← get_next h list;
  h ← list_del_internal h p n;
  list_add_tail h list head.

Definition list_empty (h : heap) (head : nat) : outcome bool :=
  n ← get_next h head; Ret (n =? head).

Definition list_splice (h : heap) (list head : nat) : outcome heap :=
  empty ← list_empty h list;
  if (empty : bool) then Ret h
  else
    first ← get_next h list;
    last ← get_prev h list;
    at_ ← get_next h head;
    h ← set_prev h first head;
    h ← set_next h head first;
    h ← set_next h last at_;
    h ← set_prev h at_ last;
    INIT_LIST_HEAD h list.

(** [list_for_each] with a body that may change memory: the next node is read
    after the body; in [list_for_each_safe] it is read before. *)
Section iterate.
Context {S : Type} (body : nat -> heap * S -> outcome (heap * S)).

Fixpoint for_each (fuel : nat) (pos head : nat) (st : heap * S) : outcome (heap * S) :=
  if pos =? head then Ret st
  else
    match fuel with
    | O => Fault OutOfFuel
    | Datatypes.S fuel => st ← body pos st; pos ← get_next st.1 pos; for_each fuel pos head st
    end.

Definition list_for_each (fuel head : nat) (st : heap * S) : outcome (heap * S) :=
  pos ← get_next st.1 head; for_each fuel pos head st.

Fixpoint for_each_safe (fuel : nat) (pos n head : nat) (st : heap * S) : outcome (heap * S) :=
  if pos =? head then Ret st
  else
    match fuel with
    | O => Fault OutOfFuel
    | Datatypes.S fuel => st ← body pos st; n' ← get_next st.1 n; for_each_safe fuel n n' head st
    end.

Definition list_for_each_safe (fuel head : nat) (st : heap * S) : outcome (heap * S) :=
  pos ← get_next st.1 head; n ← get_next st.1 pos; for_each_safe fuel pos n head st.
End iterate.

(** ** Rings *)

(** From [p] through [l] to [q], linked both ways. *)
Fixpoint seg (h : heap) (p : nat) (l : list nat) (q : nat) : Prop :=
  match l with
  | [] => next h p = Some q /\ prev h q = Some p
  | x :: l => next h p = Some x /\ prev h x = Some p /\ seg h x l q
  end.

Definition ring (h : heap) (head : nat) (l : list nat) : Prop := NoDup (head :: l) /\ seg h head l head.

Lemma seg_app h p l1 x l2 q : seg h p (l1 ++ x :: l2) q <-> seg h p l1 x /\ seg h x l2 q.
Proof. revert p. induction l1 as [|y l1 IH]; intros p; cbn; [tauto|]. rewrite IH. tauto. Qed.

Lemma seg_frame h h' p l q : seg h p l q -> (forall a, a ∈ p :: l -> next h' a = next h a) ->
  (forall a, a ∈ l ++ [q] -> prev h' a = prev h a) -> seg h' p l q.
Proof.
  revert p. induction l as [|x l IH]; intros p Hs Hn Hp; cbn in *.
  - rewrite Hn, Hp by set_solver. done.
  - destruct Hs as (H1 & H2 & H3). rewrite Hn, Hp by set_solver. split_and!; [done|done|]. apply IH; set_solver.
Qed.

Lemma set_next_ok h a v : is_Some (h !! a) -> exists h', set_next h a v = Ret h' /\
  next h' a = Some v /\ (forall b, b <> a -> next h' b = next h b) /\ (forall b, prev h' b = prev h b) /\
  (forall b, is_Some (h !! b) -> is_Some (h' !! b)) /\ (forall b, b <> a -> h' !! b = h !! b).
Proof.
  intros [[n p] Ha]. unfold set_next. rewrite Ha. run. eexists. split; [done|]. unfold next, prev. split_and!.
  - by rewrite lookup_insert_eq.
  - intros b Hb. by rewrite lookup_insert_ne.
  - intros b. destruct (decide (b = a)) as [->|]; [by rewrite lookup_insert_eq, Ha|by rewrite lookup_insert_ne].
  - intros b. destruct (decide (b = a)) as [->|]; [rewrite lookup_insert_eq; by eexists|by rewrite lookup_insert_ne].
  - intros b Hb. by rewrite lookup_insert_ne.
Qed.

Lemma set_prev_ok h a v : is_Some (h !! a) -> exists h', set_prev h a v = Ret h' /\
  prev h' a = Some v /\ (forall b, b <> a -> prev h' b = prev h b) /\ (forall b, next h' b = next h b) /\
  (forall b, is_Some (h !! b) -> is_Some (h' !! b)) /\ (forall b, b <> a -> h' !! b = h !! b).
Proof.
  intros [[n p] Ha]. unfold set_prev. rewrite Ha. run. eexists. split; [done|]. unfold next, prev. split_and!.
  - by rewrite lookup_insert_eq.
  - intros b Hb. by rewrite lookup_insert_ne.
  - intros b. destruct (decide (b = a)) as [->|]; [by rewrite lookup_insert_eq, Ha|by rewrite lookup_insert_ne].
  - intros b. destruct (decide (b = a)) as [->|]; [rewrite lookup_insert_eq; by eexists|by rewrite lookup_insert_ne].
  - intros b Hb. by rewrite lookup_insert_ne.
Qed.

(** Two neighbours that are made to point at each other. *)
Lemma list_del_internal_ok h p n : is_Some (h !! p) -> is_Some (h !! n) ->
  exists h', list_del_internal h p n = Ret h' /\ next h' p = Some n /\ prev h' n = Some p /\
    (forall b, b <> p -> next h' b = next h b) /\ (forall b, b <> n -> prev h' b = prev h b) /\
    (forall b, is_Some (h !! b) -> is_Some (h' !! b)) /\ (forall b, b <> p -> b <> n -> h' !! b = h !! b).
Proof.
  intros Hp Hn. unfold list_del_internal. destruct (set_prev_ok h n p Hn) as (h1 & -> & P1 & P2 & P3 & P4 & P5). run.
  destruct (set_next_ok h1 p n (P4 p Hp)) as (h2 & -> & N1 & N2 & N3 & N4 & N5).
  exists h2. split_and!; try done; intros.
  - rewrite N3. exact P1.
  - rewrite N2 by done. apply P3.
  - rewrite N3. by apply P2.
  - by apply N4, P4.
  - rewrite N5 by done. by apply P5.
Qed.

Lemma list_add_ok h new p n : is_Some (h !! p) -> is_Some (h !! n) -> is_Some (h !! new) -> new <> p -> new <> n ->
  exists h', _list_add h new p n = Ret h' /\ next h' p = Some new /\ prev h' n = Some new /\
    next h' new = Some n /\ prev h' new = Some p /\
    (forall b, b <> p -> b <> new -> next h' b = next h b) /\ (forall b, b <> n -> b <> new -> prev h' b = prev h b) /\
    (forall b, is_Some (h !! b) -> is_Some (h' !! b)) /\ (forall b, b <> p -> b <> n -> b <> new -> h' !! b = h !! b).
Proof.
  intros Hp Hn Hnew E1 E2. unfold _list_add. destruct (set_prev_ok h n new Hn) as (h1 & -> & A1 & A2 & A3 & A4 & A5). run.
  destruct (set_next_ok h1 new n (A4 _ Hnew)) as (h2 & -> & B1 & B2 & B3 & B4 & B5). run.
  destruct (set_prev_ok h2 new p (B4 _ (A4 _ Hnew))) as (h3 & -> & C1 & C2 & C3 & C4 & C5). run.
  destruct (set_next_ok h3 p new (C4 _ (B4 _ (A4 _ Hp)))) as (h4 & -> & D1 & D2 & D3 & D4 & D5).
  exists h4. split_and!; try done; intros.
  - rewrite D3, C2, B3 by done. exact A1.
  - rewrite D2, C3 by done. exact B1.
  - rewrite D3. exact C1.
  - by rewrite D2, C3, B2, A3.
  - by rewrite D3, C2, B3, A2.
  - by apply D4, C4, B4, A4.
  - by rewrite D5, C5, B5, A5.
Qed.

Lemma seg_nodes h p l q a : seg h p l q -> a ∈ p :: l ++ [q] -> is_Some (h !! a).
Proof.
  revert p. induction l as [|x l IH]; intros p Hs Ha; cbn [seg app] in *.
  - destruct Hs as [H1 H2]. unfold next, prev in *. apply fmap_Some in H1 as (? & E1 & _). apply fmap_Some in H2 as (? & E2 & _).
    apply elem_of_cons in Ha as [->| ->%list_elem_of_singleton]; by eexists.
  - destruct Hs as (H1 & _ & H3). apply elem_of_cons in Ha as [->|Ha]; [|by apply (IH x)].
    unfold next in H1. apply fmap_Some in H1 as (? & E1 & _). by eexists.
Qed.

Lemma ring_nodes h head l a : ring h head l -> a ∈ head :: l -> is_Some (h !! a).
Proof. intros [_ Hs] Ha. eapply seg_nodes; [exact Hs|]. set_solver. Qed.

(** A node and what is left of the ring around it. *)
Lemma ring_split h head l1 x l2 : ring h head (l1 ++ x :: l2) ->
  exists p n, prev h x = Some p /\ next h x = Some n /\ p ∈ head :: l1 /\ n ∈ l2 ++ [head] /\ p <> x /\ n <> x.
Proof.
  intros [Hnd Hs]. apply seg_app in Hs as [Hs1 Hs2].
  assert (x ∉ head :: l1 ++ l2) as Hx.
  { intros Hin. apply NoDup_cons in Hnd as [Hh Hnd]. apply NoDup_app in Hnd as (_ & Hd & Hnd). apply NoDup_cons in Hnd as [Hx _].
    apply elem_of_cons in Hin as [->|Hin]; [set_solver|]. apply elem_of_app in Hin as [Hin|Hin]; [|done]. apply (Hd x Hin). set_solver. }
  assert (exists n, next h x = Some n /\ n ∈ l2 ++ [head]) as (n & Hn & Hnin).
  { destruct l2 as [|y l2]; cbn in Hs2; [exists head; set_solver|exists y; set_solver]. }
  assert (exists p, prev h x = Some p /\ p ∈ head :: l1) as (p & Hp & Hpin).
  { clear -Hs1. revert head Hs1. induction l1 as [|y l1 IH]; intros head Hs1; cbn in Hs1; [exists head; set_solver|].
    destruct Hs1 as (_ & _ & Hs1). destruct (IH y Hs1) as (p & Hp & Hin). exists p. set_solver. }
  exists p, n. split_and!; try done; intros ->; set_solver.
Qed.

(** Taking a node out. *)
Lemma seg_unlink h h' x l2 q p n : prev h x = Some p -> next h x = Some n ->
  next h' p = Some n -> prev h' n = Some p -> (forall b, b <> p -> next h' b = next h b) ->
  (forall b, b <> n -> prev h' b = prev h b) -> forall l1 p0, NoDup (p0 :: l1 ++ x :: l2) -> q ∉ l1 ++ x :: l2 ->
  seg h p0 l1 x -> seg h x l2 q -> seg h' p0 (l1 ++ l2) q.
Proof.
  intros Hp Hn Hp' Hn' Fn Fp. induction l1 as [|y l1 IH]; intros p0 Hnd Hq H1 H2; cbn [app] in *.
  - destruct H1 as [N1 P1]. rewrite P1 in Hp. injection Hp as ->. apply NoDup_cons in Hnd as [Hpx Hnd].
    destruct l2 as [|y l2]; cbn [seg] in *.
    + destruct H2 as [N2 P2]. rewrite N2 in Hn. injection Hn as ->. done.
    + destruct H2 as (N2 & P2 & H2). rewrite N2 in Hn. injection Hn as ->. split_and!; [done|done|].
      apply NoDup_cons in Hnd as [_ Hnd]. apply NoDup_cons in Hnd as [Hy _].
      apply (seg_frame h); [done| |]; intros a Ha; [apply Fn|apply Fp]; intros ->; set_solver.
  - cbn [seg] in H1 |- *. destruct H1 as (N1 & P1 & H1). pose proof Hnd as [Hp0 Hnd']%NoDup_cons.
    assert (p ∈ y :: l1) as Hpin.
    { clear -Hp H1. revert y H1. induction l1 as [|z l1 IH]; intros y H1; cbn in H1; [set_solver|].
      destruct H1 as (_ & _ & H1). apply IH in H1. set_solver. }
    assert (n ∈ l2 ++ [q]) as Hnin.
    { clear -Hn H2. destruct l2 as [|z l2]; cbn in H2; set_solver. }
    pose proof Hnd' as [Hy Hnd'']%NoDup_cons.
    split_and!; [rewrite Fn; [done|intros ->; set_solver]|rewrite Fp; [done|intros ->; set_solver]|].
    apply IH; [done|set_solver|done|done].
Qed.

(** Putting a node in. *)
Lemma seg_link h h' new l2 q p n : new <> q -> next h' p = Some new -> prev h' n = Some new -> next h' new = Some n -> prev h' new = Some p ->
  (forall b, b <> p -> b <> new -> next h' b = next h b) -> (forall b, b <> n -> b <> new -> prev h' b = prev h b) ->
  next h p = Some n -> forall l1 p0, NoDup (p0 :: l1 ++ l2) -> q ∉ l1 ++ l2 -> new ∉ p0 :: l1 ++ l2 ->
  last (p0 :: l1) = Some p -> seg h p0 (l1 ++ l2) q -> seg h' p0 (l1 ++ new :: l2) q.
Proof.
  intros Hnq Hp' Hn' N P Fn Fp Hpn. induction l1 as [|y l1 IH]; intros p0 Hnd Hq Hnew Hl Hs; cbn [app] in *.
  - injection Hl as ->. apply NoDup_cons in Hnd as [Hp Hnd].
    cbn [seg]. split_and!; [done|done|]. destruct l2 as [|y l2]; cbn [seg] in *.
    + destruct Hs as [N1 P1]. rewrite N1 in Hpn. injection Hpn as ->. done.
    + destruct Hs as (N1 & P1 & Hs). rewrite N1 in Hpn. injection Hpn as ->. split_and!; [done|done|].
      apply NoDup_cons in Hnd as [Hy _].
      apply (seg_frame h); [done| |]; intros a Ha; [apply Fn|apply Fp]; try (intros ->; set_solver).
  - cbn [seg] in Hs |- *. destruct Hs as (N1 & P1 & Hs). pose proof Hnd as [Hp0 Hnd']%NoDup_cons.
    assert (p ∈ y :: l1) as Hpin by (apply last_Some_elem_of; by rewrite last_cons_cons in Hl).
    assert (n ∈ l1 ++ l2 ++ [q]) as Hnin.
    { clear -Hpn Hs Hpin. revert y Hs Hpin. induction l1 as [|z l1 IH]; intros y Hs Hpin; cbn [app seg] in Hs.
      - assert (p = y) as -> by set_solver. destruct l2 as [|z l2]; cbn in Hs; set_solver.
      - destruct Hs as (N2 & _ & Hs). apply elem_of_cons in Hpin as [->|Hpin]; [set_solver|]. apply IH in Hs; set_solver. }
    pose proof Hnd' as [Hy Hnd'']%NoDup_cons.
    split_and!; [rewrite Fn; [done|intros ->; set_solver|set_solver]|rewrite Fp; [done|intros ->; set_solver|set_solver]|].
    apply IH; [done|set_solver|set_solver|by rewrite last_cons_cons in Hl|done].
Qed.

Lemma ring_frame h h' b k : ring h b k -> (forall a, a ∈ b :: k -> h' !! a = h !! a) -> ring h' b k.
Proof.
  intros [Hnd Hs] Hf. split; [done|]. apply (seg_frame h); [done| |]; intros a Ha; unfold next, prev; rewrite Hf; set_solver.
Qed.

Lemma ring_ends h head l : ring h head l -> exists f p, next h head = Some f /\ prev h head = Some p /\ f ∈ l ++ [head] /\
  last (head :: l) = Some p /\ next h p = Some head /\ prev h f = Some head /\ (l = [] <-> f = head) /\
  (forall x l', l = x :: l' -> f = x).
Proof.
  intros [Hnd Hs]. assert (exists p, prev h head = Some p /\ last (head :: l) = Some p /\ next h p = Some head) as (p & Hp & Hl & Hn).
  { assert (forall q, seg h q l head -> exists p, prev h head = Some p /\ last (q :: l) = Some p /\ next h p = Some head) as H; [|by apply H].
    clear. induction l as [|x l IH]; intros q Hs; cbn [seg] in Hs; [exists q; naive_solver|].
    destruct Hs as (_ & _ & Hs). destruct (IH x Hs) as (p & ? & ? & ?). exists p. by rewrite last_cons_cons. }
  destruct l as [|x l]; cbn [seg] in Hs.
  - destruct Hs as [H1 H2]. exists head, p. split_and!; try done; set_solver.
  - destruct Hs as (H1 & H2 & _). exists x, p. split_and!; try done; try set_solver. split; [done|].
    intros ->. apply NoDup_cons in Hnd as [Hh _]. set_solver.
Qed.

Lemma list_add_ring h new head l : ring h head l -> is_Some (h !! new) -> new ∉ head :: l ->
  exists h', list_add h new head = Ret h' /\ ring h' head (new :: l) /\
    (forall a, a ∉ new :: head :: l -> h' !! a = h !! a) /\ (forall a, is_Some (h !! a) -> is_Some (h' !! a)).
Proof.
  intros Hr Hnew Hn. destruct (ring_ends h head l Hr) as (f & p & Hf & _ & Hfin & _ & _ & Hpf & _).
  unfold list_add, get_next. rewrite Hf. run.
  destruct (list_add_ok h new head f) as (h' & -> & A1 & A2 & A3 & A4 & A5 & A6 & A7 & A8);
    [apply (ring_nodes h head l); [done|set_solver]|apply (ring_nodes h head l); [done|set_solver]|done|set_solver|set_solver|].
  exists h'. destruct Hr as [Hnd Hs]. pose proof Hnd as [Hhl Hndl]%NoDup_cons. split_and!; try done.
  - split; [apply NoDup_cons; split; [set_solver|apply NoDup_cons; split; [set_solver|done]]|].
    eapply (seg_link h h' new l head head f) with (l1 := []); try done; set_solver.
  - intros a Ha. apply A8; set_solver.
Qed.

Lemma list_add_tail_ring h new head l : ring h head l -> is_Some (h !! new) -> new ∉ head :: l ->
  exists h', list_add_tail h new head = Ret h' /\ ring h' head (l ++ [new]) /\
    (forall a, a ∉ new :: head :: l -> h' !! a = h !! a) /\ (forall a, is_Some (h !! a) -> is_Some (h' !! a)).
Proof.
  intros Hr Hnew Hn. destruct (ring_ends h head l Hr) as (f & p & _ & Hp & _ & Hl & Hpn & _).
  assert (p ∈ head :: l) as Hpin by (by apply last_Some_elem_of).
  unfold list_add_tail, get_prev. rewrite Hp. run.
  destruct (list_add_ok h new p head) as (h' & -> & A1 & A2 & A3 & A4 & A5 & A6 & A7 & A8);
    [by apply (ring_nodes h head l)|apply (ring_nodes h head l); [done|set_solver]|done|set_solver|set_solver|].
  exists h'. destruct Hr as [Hnd Hs]. pose proof Hnd as [Hhl Hndl]%NoDup_cons. split_and!; try done.
  - split.
    + apply NoDup_cons. split; [set_solver|]. apply NoDup_app. split_and!; [done|set_solver|apply NoDup_singleton].
    + eapply (seg_link h h' new [] head p head); rewrite ?app_nil_r; try done; set_solver.
  - intros a Ha. apply A8; set_solver.
Qed.

(** What taking a node out leaves: the rest of the ring, and the node as it was. *)
Lemma unlink_ring h head l1 x l2 p n : ring h head (l1 ++ x :: l2) -> prev h x = Some p -> next h x = Some n ->
  exists h', list_del_internal h p n = Ret h' /\ ring h' head (l1 ++ l2) /\ h' !! x = h !! x /\
    (forall a, a ∉ head :: l1 ++ x :: l2 -> h' !! a = h !! a) /\ (forall a, is_Some (h !! a) -> is_Some (h' !! a)).
Proof.
  intros Hr Hp Hn. destruct (ring_split h head l1 x l2 Hr) as (p' & n' & Hp' & Hn' & Hpin & Hnin & Hpx & Hnx).
  rewrite Hp in Hp'. rewrite Hn in Hn'. injection Hp' as <-. injection Hn' as <-.
  destruct (list_del_internal_ok h p n) as (h' & -> & A1 & A2 & A3 & A4 & A5 & A6).
  { apply (ring_nodes h head _ p Hr). set_solver. } { apply (ring_nodes h head _ n Hr). set_solver. }
  exists h'. pose proof Hr as [Hnd Hs]. apply seg_app in Hs as [Hs1 Hs2]. split_and!; try done.
  - split.
    + apply NoDup_cons in Hnd as [Hh Hnd]. apply NoDup_cons. split; [set_solver|].
      apply NoDup_app in Hnd as (? & Hd & Hnd). apply NoDup_cons in Hnd as [_ Hnd]. apply NoDup_app. split_and!; [done|set_solver|done].
    + apply (seg_unlink h h' x l2 head p n); try done. apply NoDup_cons in Hnd as [Hh _]. done.
  - by apply A6.
  - intros a Ha. apply A6; set_solver.
Qed.

Lemma init_ring h a : is_Some (h !! a) -> exists h', INIT_LIST_HEAD h a = Ret h' /\ ring h' a [] /\
  (forall b, b <> a -> h' !! b = h !! b).
Proof.
  intros Ha. unfold INIT_LIST_HEAD. destruct (set_next_ok h a a Ha) as (h1 & -> & N1 & _ & _ & N4 & N5). run.
  destruct (set_prev_ok h1 a a (N4 a Ha)) as (h2 & -> & P1 & _ & P3 & _ & P5). exists h2. split_and!; [done| |].
  - split; [apply NoDup_singleton|]. split; [by rewrite P3|done].
  - intros b Hb. by rewrite P5, N5.
Qed.

(** ** All the lists of a program *)

(** Every list by its head; a node on no list is the head of an empty one. *)
Abbreviation lists := (gmap nat (list nat)).

Record repr (h : heap) (L : lists) : Prop := {
  re_ring : forall hd l, L !! hd = Some l -> ring h hd l;
  re_disj : forall hd l hd' l' a, L !! hd = Some l -> L !! hd' = Some l' -> hd <> hd' -> a ∈ hd :: l -> a ∉ hd' :: l';
}.

Definition fresh_in (L : lists) (x : nat) : Prop := forall hd l, L !! hd = Some l -> x ∉ hd :: l.

Lemma repr_frame h h' L L' (S : list nat) : repr h L -> (forall a, a ∉ S -> h' !! a = h !! a) ->
  (forall hd l, L' !! hd = Some l -> (L !! hd = Some l /\ forall a, a ∈ S -> a ∉ hd :: l) \/ ring h' hd l) ->
  (forall hd l hd' l' a, L' !! hd = Some l -> L' !! hd' = Some l' -> hd <> hd' -> a ∈ hd :: l -> a ∉ hd' :: l') -> repr h' L'.
Proof.
  intros [R D] Hf Hr Hd. split; [|exact Hd]. intros hd l Hl. destruct (Hr hd l Hl) as [[Hl' Hs]|]; [|done].
  apply (ring_frame h); [by apply R|]. intros a Ha. apply Hf. intros Hin. by apply (Hs a).
Qed.

Lemma repr_insert h h' L hd l l' x : repr h L -> L !! hd = Some l -> fresh_in L x -> l' ≡ₚ x :: l -> ring h' hd l' ->
  (forall a, a ∉ x :: hd :: l -> h' !! a = h !! a) -> repr h' (<[hd := l']> L).
Proof.
  intros HR Hl Hx Hp Hr Hf. pose proof HR as [R D].
  assert (forall b k, L !! b = Some k -> b <> hd -> forall a, a ∈ b :: k -> a ∉ x :: hd :: l) as Hdis.
  { intros b k Hb Hne a Ha. apply not_elem_of_cons. split; [intros ->; by apply (Hx b k)|]. apply (D b k); done. }
  apply (repr_frame h h' L _ (x :: hd :: l) HR Hf).
  - intros b k Hb. apply lookup_insert_Some in Hb as [[<- <-]|[Hne Hb]]; [by right|left]. split; [done|].
    intros a Ha Hin. by apply (Hdis b k Hb ltac:(done) a).
  - intros b k b' k' a Hb Hb' Hne Ha. apply lookup_insert_Some in Hb as [[<- <-]|[Hne1 Hb]];
      apply lookup_insert_Some in Hb' as [[<- <-]|[Hne2 Hb']]; [done| | |by apply (D b k b' k')].
    + intros Hin. apply (Hdis b' k' Hb' ltac:(done) a Hin). rewrite Hp in Ha. set_solver.
    + specialize (Hdis b k Hb ltac:(done) a Ha). rewrite Hp. set_solver.
Qed.

Lemma repr_init h L x : repr h L -> fresh_in L x -> is_Some (h !! x) ->
  exists h', INIT_LIST_HEAD h x = Ret h' /\ repr h' (<[x := []]> L).
Proof.
  intros HR Hx Hs. destruct (init_ring h x Hs) as (h' & E & Hr & Hf). exists h'. split; [done|]. pose proof HR as [R D].
  apply (repr_frame h h' L _ [x] HR).
  - intros a Ha. apply Hf. set_solver.
  - intros b k Hb. apply lookup_insert_Some in Hb as [[<- <-]|[Hne Hb]]; [by right|left]. split; [done|].
    intros a ->%list_elem_of_singleton. by apply (Hx b).
  - intros b k b' k' a Hb Hb' Hne Ha. apply lookup_insert_Some in Hb as [[<- <-]|[Hne1 Hb]];
      apply lookup_insert_Some in Hb' as [[<- <-]|[Hne2 Hb']]; [done| | |by apply (D b k b' k')].
    + assert (a = x) as -> by set_solver. by apply (Hx b').
    + intros Hin. assert (a = x) as -> by set_solver. by apply (Hx b k).
Qed.

(** Taking a node off whatever it is on. *)
Definition on_list (L : lists) (x : nat) : bool := existsb (fun hl : nat * list nat => bool_decide (x ∈ hl.2)) (map_to_list L).

Definition take_out (x : nat) (L : lists) : option lists :=
  match L !! x with
  | Some [] => Some (delete x L)
  | Some _ => None
  | None => if on_list L x then Some (filter (fun y => y <> x) <$> L) else None
  end.

Lemma on_list_iff L x : on_list L x = true <-> exists hd l, L !! hd = Some l /\ x ∈ l.
Proof.
  unfold on_list. rewrite existsb_exists. split.
  - intros ([hd l] & Hin & Hx%bool_decide_eq_true). exists hd, l. split; [|done]. apply elem_of_map_to_list. by apply list_elem_of_In.
  - intros (hd & l & Hl & Hx). exists (hd, l). split.
    + apply list_elem_of_In. by apply elem_of_map_to_list.
    + by apply bool_decide_eq_true_2.
Qed.

Lemma filter_absent (x : nat) (l : list nat) : x ∉ l -> filter (fun y => y <> x) l = l.
Proof. intros Hx. induction l as [|y l IH]; [done|]. rewrite filter_cons_True by set_solver. f_equal. apply IH. set_solver. Qed.

Lemma filter_out (l1 : list nat) x l2 : x ∉ l1 -> x ∉ l2 -> filter (fun y => y <> x) (l1 ++ x :: l2) = l1 ++ l2.
Proof. intros H1 H2. rewrite filter_app, filter_cons_False by (by intros ?). by rewrite !filter_absent. Qed.

Lemma take_out_ok h L x L' : repr h L -> take_out x L = Some L' ->
  exists p n h', prev h x = Some p /\ next h x = Some n /\ list_del_internal h p n = Ret h' /\ repr h' L' /\
    fresh_in L' x /\ is_Some (h' !! x).
Proof.
  intros HR Ht. pose proof HR as [R D]. unfold take_out in Ht. destruct (L !! x) as [[|]|] eqn:Ex; [|done|].
  - injection Ht as <-. pose proof (R x [] Ex) as [_ [Hn Hp]]. exists x, x.
    assert (is_Some (h !! x)) as Hs by (unfold next in Hn; apply fmap_Some in Hn as (? & -> & _); by eexists).
    destruct (list_del_internal_ok h x x Hs Hs) as (h' & E & A1 & A2 & A3 & A4 & A5 & A6).
    exists h'. split_and!; [done|done|done| | |by apply A5].
    + apply (repr_frame h h' L _ [x] HR).
      * intros a Ha. apply A6; set_solver.
      * intros b k [Hne Hb]%lookup_delete_Some. left. split; [done|]. intros a ->%list_elem_of_singleton.
        apply (D x [] b k); [done|done|done|set_solver].
      * intros b k b' k' a [? Hb]%lookup_delete_Some [? Hb']%lookup_delete_Some. by apply (D b k b' k').
    + intros b k [Hne Hb]%lookup_delete_Some. apply (D x [] b k); [done|done|done|set_solver].
  - destruct (on_list L x) eqn:Eo; [|done]. injection Ht as <-. apply on_list_iff in Eo as (hd & l & Hl & Hx).
    pose proof (R hd l Hl) as Hr. apply list_elem_of_split in Hx as (l1 & l2 & ->).
    destruct (ring_split h hd l1 x l2 Hr) as (p & n & Hp & Hn & _).
    destruct (unlink_ring h hd l1 x l2 p n Hr Hp Hn) as (h' & E & Hr' & Hhx & Hf & Hk).
    assert (x ∉ l1 /\ x ∉ l2 /\ x <> hd) as (Hx1 & Hx2 & Hxh).
    { destruct Hr as [Hnd _]. apply NoDup_cons in Hnd as [Hh Hnd]. apply NoDup_app in Hnd as (_ & Hd & Hnd).
      apply NoDup_cons in Hnd as [Hx2 _]. split_and!; [intros Hin; apply (Hd x Hin); set_solver|done|intros ->; set_solver]. }
    exists p, n, h'. split_and!; [done|done|done| | |].
    + apply (repr_frame h h' L _ (hd :: l1 ++ x :: l2) HR Hf).
      * intros b k Hb. apply lookup_fmap_Some in Hb as (k0 & <- & Hb). destruct (decide (b = hd)) as [->|Hne].
        -- rewrite Hl in Hb. injection Hb as <-. right. by rewrite filter_out.
        -- left. assert (filter (fun y => y <> x) k0 = k0) as ->.
           { apply filter_absent. intros Hin. apply (D hd (l1 ++ x :: l2) b k0 x Hl Hb ltac:(done)); set_solver. }
           split; [done|]. intros a Ha. by apply (D hd (l1 ++ x :: l2) b k0).
      * intros b k b' k' a Hb Hb' Hne Ha. apply lookup_fmap_Some in Hb as (k0 & <- & Hb). apply lookup_fmap_Some in Hb' as (k1 & <- & Hb').
        intros Hin. apply (D b k0 b' k1 a Hb Hb' Hne).
        -- apply elem_of_cons in Ha as [->|Ha]; [set_solver|]. apply list_elem_of_filter in Ha. set_solver.
        -- apply elem_of_cons in Hin as [->|Hin]; [set_solver|]. apply list_elem_of_filter in Hin. set_solver.
    + intros b k Hb. apply lookup_fmap_Some in Hb as (k0 & <- & Hb). apply not_elem_of_cons. split; [by intros ->; rewrite Ex in Hb|].
      intros Hin. apply list_elem_of_filter in Hin. naive_solver.
    + apply Hk. apply (ring_nodes h hd _ x Hr). set_solver.
Qed.

(** ** Splicing *)

(** From [p] through [l], without the link that leaves it. *)
Fixpoint inner (h : heap) (p : nat) (l : list nat) : Prop :=
  match l with
  | [] => True
  | x :: l => next h p = Some x /\ prev h x = Some p /\ inner h x l
  end.

Definition last_of (p : nat) (l : list nat) : nat := default p (last l).

Lemma last_of_cons p x l : last_of p (x :: l) = last_of x l.
Proof. unfold last_of. destruct l as [|y l]; [done|]. rewrite last_cons_cons. destruct (last (y :: l)) eqn:E; [done|]. by apply last_None in E. Qed.

Lemma last_of_app p l k : last_of p (l ++ k) = last_of (last_of p l) k.
Proof. revert p. induction l as [|x l IH]; intros p; [done|]. cbn [app]. by rewrite !last_of_cons, IH. Qed.

Lemma last_of_in p l : last_of p l ∈ p :: l.
Proof. revert p. induction l as [|x l IH]; intros p; [set_solver|]. rewrite last_of_cons. specialize (IH x). set_solver. Qed.

Lemma seg_inner h p l q : seg h p l q <-> inner h p l /\ next h (last_of p l) = Some q /\ prev h q = Some (last_of p l).
Proof. revert p. induction l as [|x l IH]; intros p; cbn [seg inner]; [tauto|]. rewrite IH, last_of_cons. tauto. Qed.

Lemma inner_app h p l k : inner h p (l ++ k) <-> inner h p l /\ inner h (last_of p l) k.
Proof. revert p. induction l as [|x l IH]; intros p; cbn [app inner]; [tauto|]. rewrite IH, last_of_cons. tauto. Qed.

Lemma inner_frame h h' p l : NoDup (p :: l) -> inner h p l -> (forall a, a ∈ p :: l -> a <> last_of p l -> next h' a = next h a) ->
  (forall a, a ∈ l -> prev h' a = prev h a) -> inner h' p l.
Proof.
  revert p. induction l as [|x l IH]; intros p Hnd Hi Hn Hp; [done|]. cbn [inner] in *. destruct Hi as (H1 & H2 & H3).
  rewrite last_of_cons in Hn. apply NoDup_cons in Hnd as [Hpx Hnd]. pose proof (last_of_in x l) as Hl. split_and!.
  - rewrite Hn; [done|set_solver|]. intros ->. done.
  - rewrite Hp; [done|set_solver].
  - apply IH; [done|done|intros a Ha; apply Hn; set_solver|intros a Ha; apply Hp; set_solver].
Qed.

Lemma ring_inner h head l : ring h head l <-> NoDup (head :: l) /\ inner h head l /\
  next h (last_of head l) = Some head /\ prev h head = Some (last_of head l).
Proof. unfold ring. by rewrite seg_inner. Qed.

Lemma rings_nodup h a b l k : ring h a l -> ring h b k -> (forall x, x ∈ a :: l -> x ∉ b :: k) -> NoDup (b :: l ++ k).
Proof.
  intros [Hl _] [Hk _] Hdis. apply NoDup_cons in Hl as [_ Hl]. apply NoDup_cons in Hk as [Hbk Hk]. apply NoDup_cons. split.
  - intros [Hin|Hin]%elem_of_app; [|done]. apply (Hdis b); set_solver.
  - apply NoDup_app. split_and!; [done| |done]. intros x Hx Hxk. apply (Hdis x); set_solver.
Qed.

(** The four links that [list_splice] changes. *)
Lemma splice_links h a f l b k : ring h a (f :: l) -> ring h b k -> (forall x, x ∈ a :: f :: l -> x ∉ b :: k) ->
  let e := last_of f l in let n := match k with [] => b | n :: _ => n end in
  exists h', (h ← set_prev h f b; h ← set_next h b f; h ← set_next h e n; set_prev h n e) = Ret h' /\
    ring h' b ((f :: l) ++ k) /\ is_Some (h' !! a) /\ (forall x, x ∉ a :: b :: f :: l ++ k -> h' !! x = h !! x).
Proof.
  intros Ha Hb Hdis e n. pose proof Ha as (Hnda & (Hi1 & Hi2 & Hi) & Hn & Hp)%ring_inner.
  pose proof Hb as (Hndb & Hj & Hbn & Hbp)%ring_inner. rewrite last_of_cons in Hn, Hp. fold e in Hn, Hp.
  assert (e ∈ f :: l) as He by apply last_of_in.
  assert (n ∈ b :: k) as Hnk by (subst n; destruct k; set_solver).
  assert (is_Some (h !! f)) as Sf by (apply (ring_nodes h a (f :: l)); [done|set_solver]).
  assert (is_Some (h !! b)) as Sb by (apply (ring_nodes h b k); [done|set_solver]).
  assert (is_Some (h !! e)) as Se by (apply (ring_nodes h a (f :: l)); [done|set_solver]).
  assert (is_Some (h !! n)) as Sn by (by apply (ring_nodes h b k)).
  assert (is_Some (h !! a)) as Sa by (apply (ring_nodes h a (f :: l)); [done|set_solver]).
  destruct (set_prev_ok h f b Sf) as (h1 & -> & A1 & A2 & A3 & A4 & A5). run.
  destruct (set_next_ok h1 b f (A4 _ Sb)) as (h2 & -> & B1 & B2 & B3 & B4 & B5). run.
  destruct (set_next_ok h2 e n (B4 _ (A4 _ Se))) as (h3 & -> & C1 & C2 & C3 & C4 & C5). run.
  destruct (set_prev_ok h3 n e (C4 _ (B4 _ (A4 _ Sn)))) as (h4 & -> & D1 & D2 & D3 & D4 & D5).
  assert (forall x, x <> b -> x <> e -> next h4 x = next h x) as Nx by (intros; by rewrite D3, C2, B2, A3).
  assert (forall x, x <> f -> x <> n -> prev h4 x = prev h x) as Px by (intros; by rewrite D2, C3, B3, A2).
  assert (b <> e) as Hbe by (intros ->; apply (Hdis e); set_solver).
  assert (f <> n) as Hfn by (intros ->; apply (Hdis n); set_solver).
  assert (NoDup (f :: l)) as Hndf by (by apply NoDup_cons in Hnda as [_ ?]).
  exists h4. split_and!; [done| |by apply D4, C4, B4, A4|].
  - apply ring_inner. split_and!.
    + by apply (rings_nodup h a b (f :: l) k).
    + apply inner_app. rewrite last_of_cons. fold e. split.
      * cbn [inner]. split_and!; [by rewrite D3, C2|by rewrite D2, C3, B3|].
        apply (inner_frame h); [done|done| |]; intros x Hx.
        -- intros Hxe. apply Nx; [|done]. intros ->. apply (Hdis b); set_solver.
        -- apply Px; [|intros ->; apply (Hdis n); set_solver]. intros ->. apply NoDup_cons in Hndf as [? _]. done.
      * subst n. destruct k as [|m k]; [done|]. cbn [inner] in Hj |- *. destruct Hj as (J1 & J2 & J3).
        split_and!; [by rewrite D3|done|]. apply NoDup_cons in Hndb as [Hbk Hndk].
        apply (inner_frame h); [done|done| |]; intros x Hx.
        -- intros _. apply Nx; [set_solver|]. intros ->. apply (Hdis e); set_solver.
        -- apply Px; [intros ->; apply (Hdis f); set_solver|]. intros ->. apply NoDup_cons in Hndk as [? _]. done.
    + rewrite last_of_app, last_of_cons. fold e. subst n. destruct k as [|m k]; [by rewrite D3|]. rewrite last_of_cons in *.
      pose proof (last_of_in m k). rewrite Nx; [done| |]; intros Hq; [apply NoDup_cons in Hndb as [? _]; set_solver|].
      apply (Hdis e); [set_solver|]. rewrite <- Hq. set_solver.
    + rewrite last_of_app, last_of_cons. fold e. subst n. destruct k as [|m k]; [done|]. rewrite last_of_cons in *.
      rewrite Px; [done| |]; intros Hq; [apply (Hdis f); set_solver|]. apply NoDup_cons in Hndb as [? _]; set_solver.
  - intros x Hx. rewrite D5, C5, B5, A5; [done|..]; intros ->; try set_solver.
Qed.

Lemma bind_chain {A} (c1 : outcome heap) (c2 c3 c4 : heap -> outcome heap) (k : heap -> outcome A) h :
  (h ← c1; h ← c2 h; h ← c3 h; c4 h) = Ret h -> (h ← c1; h ← c2 h; h ← c3 h; h ← c4 h; k h) = k h.
Proof.
  destruct c1 as [h1|]; [|done]. run. destruct (c2 h1) as [h2|]; [|done]. run.
  destruct (c3 h2) as [h3|]; [|done]. run. by intros ->.
Qed.

Lemma splice_ok h L a b f l k : repr h L -> a <> b -> L !! a = Some (f :: l) -> L !! b = Some k ->
  exists h', list_splice h a b = Ret h' /\ repr h' (<[a := []]> (<[b := (f :: l) ++ k]> L)).
Proof.
  intros HR Hab Ha Hb. pose proof HR as [R D]. pose proof (R _ _ Ha) as Ra. pose proof (R _ _ Hb) as Rb.
  destruct (splice_links h a f l b k Ra Rb) as (h1 & E1 & R1 & S1 & F1); [intros x Hx; by apply (D a (f :: l) b k)|].
  destruct (init_ring h1 a S1) as (h2 & E2 & R2 & F2). exists h2. split.
  - pose proof Ra as (Hnd & (Hn & _ & _) & _ & Hp)%ring_inner. rewrite last_of_cons in Hp.
    destruct (ring_ends h b k Rb) as (n & ? & Hbn & _ & _ & _ & _ & _ & Hk0 & Hk1).
    assert (n = match k with [] => b | m :: _ => m end) as -> by (destruct k; [by apply Hk0|by eapply Hk1]).
    unfold list_splice, list_empty, get_next, get_prev. rewrite Hn, Hp, Hbn. run.
    rewrite (proj2 (Nat.eqb_neq f a)) by (intros ->; apply NoDup_cons in Hnd as [? _]; set_solver).
    exact (eq_trans (bind_chain _ _ _ _ _ h1 E1) E2).
  - apply (repr_frame h h2 L _ (a :: b :: f :: l ++ k) HR).
    + intros x Hx. rewrite F2 by set_solver. apply F1. done.
    + intros hd m Hm. apply lookup_insert_Some in Hm as [[<- <-]|[Hne Hm]]; [by right|].
      apply lookup_insert_Some in Hm as [[<- <-]|[Hne' Hm]].
      * right. apply (ring_frame h1); [done|]. intros x Hx. apply F2. intros ->.
        apply elem_of_cons in Hx as [->|[Hx|Hx]%elem_of_app]; [done| |apply (D b k a (f :: l) a); set_solver].
        apply ring_inner in Ra as [Hnd _]. apply NoDup_cons in Hnd as [? _]. done.
      * left. split; [done|]. intros x Hx Hin. assert (x ∈ a :: f :: l \/ x ∈ b :: k) as [Hq|Hq] by set_solver.
        -- by apply (D a (f :: l) hd m x).
        -- by apply (D b k hd m x).
    + assert (a ∉ f :: l) as Hal by (apply ring_inner in Ra as [Hnd _]; by apply NoDup_cons in Hnd as [? _]).
      assert (forall x, x ∈ a :: f :: l -> x ∉ b :: k) as Hd by (intros x Hx; by apply (D a (f :: l) b k)).
      assert (forall hd m x, <[a := []]> (<[b := (f :: l) ++ k]> L) !! hd = Some m -> x ∈ hd :: m ->
        (hd = a /\ x = a) \/ (hd = b /\ x ∈ f :: l) \/ (hd = b /\ x ∈ b :: k) \/
        (hd <> a /\ hd <> b /\ L !! hd = Some m /\ x ∉ a :: f :: l /\ x ∉ b :: k)) as Hcase.
      { intros hd m x Hm Hx. apply lookup_insert_Some in Hm as [[<- <-]|[Hne Hm]]; [left; set_solver|].
        apply lookup_insert_Some in Hm as [[<- <-]|[Hne' Hm]].
        - right. apply elem_of_cons in Hx as [->|[Hx|Hx]%elem_of_app]; [right; left|left|right; left]; set_solver.
        - do 3 right. split_and!; [done|done|done|by apply (D hd m a (f :: l))|by apply (D hd m b k)]. }
      intros hd m hd' m' x Hm Hm' Hne Hx Hx'. specialize (Hd x). specialize (D hd m hd' m' x).
      generalize (Hcase hd m x Hm Hx) (Hcase hd' m' x Hm' Hx'). clear -D Hd Hal Hab Hne Hx Hx'.
      intros [[-> ->]|[[-> C]|[[-> C]|(N1 & N2 & C & C1 & C2)]]] [[-> E']|[[-> C']|[[-> C']|(N1' & N2' & C' & C1' & C2')]]];
        try congruence; try (by apply D); set_solver.
Qed.

(** ** Specification

    What each call does to the lists. A node that is added has been
    initialised and is on no list. *)

Inductive op :=
| Init (x : nat)
| Add (x head : nat)
| AddTail (x head : nat)
| Del (x : nat)
| Move (x head : nat)
| MoveTail (x head : nat)
| Splice (list head : nat).

Definition run_op (o : op) (h : heap) : outcome heap :=
  match o with
  | Init x => INIT_LIST_HEAD h x
  | Add x head => list_add h x head
  | AddTail x head => list_add_tail h x head
  | Del x => list_del h x
  | Move x head => list_move h x head
  | MoveTail x head => list_move_tail h x head
  | Splice list head => list_splice h list head
  end.

(** [x] is put into the list at [head], which is not [x]. *)
Definition put_in (f : list nat -> list nat) (head : nat) (L : lists) : option lists :=
  l ← L !! head; Some (<[head := f l]> L).

Definition lone (x : nat) (L : lists) : option lists :=
  match L !! x with Some [] => Some (delete x L) | _ => None end.

Definition spec_op (o : op) (L : lists) : option lists :=
  match o with
  | Init x => L ← lone x L; Some (<[x := []]> L)
  | Add x head => L ← lone x L; put_in (cons x) head L
  | AddTail x head => L ← lone x L; put_in (fun l => l ++ [x]) head L
  | Del x => L ← take_out x L; Some (<[x := []]> L)
  | Move x head => L ← take_out x L; put_in (cons x) head L
  | MoveTail x head => L ← take_out x L; put_in (fun l => l ++ [x]) head L
  | Splice list head =>
      l ← L !! list; k ← L !! head;
      if list =? head then None else Some (<[list := []]> (<[head := l ++ k]> L))
  end.

Lemma lone_ok h L x L' : repr h L -> lone x L = Some L' -> repr h L' /\ fresh_in L' x /\ is_Some (h !! x).
Proof.
  intros [R D] H. unfold lone in H. destruct (L !! x) as [[|]|] eqn:E; try done. injection H as <-. split_and!.
  - split; [intros b k [? ?]%lookup_delete_Some; by apply R|].
    intros b k b' k' a [? ?]%lookup_delete_Some [? ?]%lookup_delete_Some. by apply (D b k b' k').
  - intros b k [? ?]%lookup_delete_Some. apply (D x [] b k); [done|done|done|set_solver].
  - apply (ring_nodes h x []); [by apply R|set_solver].
Qed.

Lemma put_head_ok h L x head L' : repr h L -> fresh_in L x -> is_Some (h !! x) -> put_in (cons x) head L = Some L' ->
  exists h', list_add h x head = Ret h' /\ repr h' L'.
Proof.
  intros HR Hx Hs (l & Hl & [= <-])%bind_Some. pose proof HR as [R _].
  destruct (list_add_ring h x head l (R _ _ Hl) Hs (Hx _ _ Hl)) as (h' & E & Hr & Hf & _).
  exists h'. split; [done|]. by apply (repr_insert h h' L head l (x :: l) x).
Qed.

Lemma put_tail_ok h L x head L' : repr h L -> fresh_in L x -> is_Some (h !! x) ->
  put_in (fun l => l ++ [x]) head L = Some L' -> exists h', list_add_tail h x head = Ret h' /\ repr h' L'.
Proof.
  intros HR Hx Hs (l & Hl & [= <-])%bind_Some. pose proof HR as [R _].
  destruct (list_add_tail_ring h x head l (R _ _ Hl) Hs (Hx _ _ Hl)) as (h' & E & Hr & Hf & _).
  exists h'. split; [done|]. apply (repr_insert h h' L head l (l ++ [x]) x); try done. by rewrite Permutation_app_comm.
Qed.

Lemma splice_any h L a b l k : repr h L -> a <> b -> L !! a = Some l -> L !! b = Some k ->
  exists h', list_splice h a b = Ret h' /\ repr h' (<[a := []]> (<[b := l ++ k]> L)).
Proof.
  intros HR Hab Ha Hb. destruct l as [|f l]; [|by apply splice_ok]. exists h. split.
  - pose proof (re_ring _ _ HR _ _ Ha) as [_ [Hn _]]. unfold list_splice, list_empty, get_next. rewrite Hn. run.
    by rewrite Nat.eqb_refl.
  - cbn [app]. rewrite (insert_id L b k Hb), (insert_id L a [] Ha). done.
Qed.

(** The operations refine the lists: a call whose specification is defined
    returns, and leaves a memory that represents the specified lists. *)
Lemma op_refines h L o L' : repr h L -> spec_op o L = Some L' -> exists h', run_op o h = Ret h' /\ repr h' L'.
Proof.
  intros HR Ho. destruct o as [x|x head|x head|x|x head|x head|a b]; cbn [spec_op run_op] in *.
  1-3: apply bind_Some in Ho as (L1 & (HR1 & Hf & Hs)%(lone_ok _ _ _ _ HR) & Ho).
  - injection Ho as <-. by apply repr_init.
  - by apply (put_head_ok h L1).
  - by apply (put_tail_ok h L1).
  - apply bind_Some in Ho as (L1 & (p & n & h1 & Hp & Hn & E & HR1 & Hf & Hs)%(take_out_ok _ _ _ _ HR) & [= <-]).
    unfold list_del, get_prev, get_next. rewrite Hp, Hn. run. rewrite E. run. by apply repr_init.
  - apply bind_Some in Ho as (L1 & (p & n & h1 & Hp & Hn & E & HR1 & Hf & Hs)%(take_out_ok _ _ _ _ HR) & Ho).
    unfold list_move, get_prev, get_next. rewrite Hp, Hn. run. rewrite E. run. by apply (put_head_ok h1 L1).
  - apply bind_Some in Ho as (L1 & (p & n & h1 & Hp & Hn & E & HR1 & Hf & Hs)%(take_out_ok _ _ _ _ HR) & Ho).
    unfold list_move_tail, get_prev, get_next. rewrite Hp, Hn. run. rewrite E. run. by apply (put_tail_ok h1 L1).
  - apply bind_Some in Ho as (l & Ha & Ho). apply bind_Some in Ho as (k & Hb & Ho).
    destruct (Nat.eqb_spec a b) as [|Hab]; [done|]. injection Ho as <-. by apply splice_any.
Qed.

(** ** Membership

    What a client of the lists sees of a move: [x] is on the new list and
    nowhere else, and the other lists keep their nodes and their order. *)

Definition on (L : lists) (hd x : nat) : Prop := exists l, L !! hd = Some l /\ x ∈ l.

Definition is_node (L : lists) (x : nat) : Prop := L !! x = Some [] \/ (L !! x = None /\ exists hd, on L hd x).

Definition without (x : nat) (L : lists) : lists := filter (fun y => y <> x) <$> delete x L.
Definition moved (x head : nat) (L : lists) : lists := alter (fun l => l ++ [x]) head (without x L).

Lemma take_out_without h L x : repr h L -> is_node L x -> take_out x L = Some (without x L).
Proof.
  intros [R D] Hx. unfold take_out, without. destruct Hx as [E|[E [hd (l & Hl & Hin)]]]; rewrite E.
  - f_equal. apply map_eq. intros b. rewrite lookup_fmap. destruct (decide (b = x)) as [->|Hne]; [by rewrite lookup_delete_eq|].
    rewrite lookup_delete_ne by done. destruct (L !! b) as [k|] eqn:Hb; [|done]. cbn. f_equal. symmetry. apply filter_absent.
    intros Hin. apply (D x [] b k x); set_solver.
  - rewrite (proj2 (on_list_iff L x)) by (by exists hd, l). by rewrite delete_id.
Qed.

Lemma without_lookup L x b : without x L !! b = if decide (b = x) then None else filter (fun y => y <> x) <$> L !! b.
Proof.
  unfold without. rewrite lookup_fmap. destruct (decide (b = x)) as [->|Hne]; [by rewrite lookup_delete_eq|].
  by rewrite lookup_delete_ne.
Qed.

Lemma move_tail_ok h L x head : repr h L -> is_node L x -> head <> x -> is_Some (L !! head) ->
  exists h', list_move_tail h x head = Ret h' /\ repr h' (moved x head L).
Proof.
  intros HR Hx Hne [l Hl]. apply (op_refines h L (MoveTail x head) _ HR). cbn [spec_op].
  rewrite (take_out_without h L x HR Hx). cbn. unfold put_in, moved. rewrite without_lookup, decide_False by done. rewrite Hl. cbn.
  f_equal. apply map_eq. intros b. destruct (decide (b = head)) as [->|Hb].
  - by rewrite lookup_insert_eq, lookup_alter_eq, without_lookup, decide_False, Hl by done.
  - by rewrite lookup_insert_ne, lookup_alter_ne.
Qed.

Lemma moved_on L x head b y : head <> x -> is_Some (L !! head) -> is_node L x ->
  on (moved x head L) b y <-> (y = x /\ b = head) \/ (y <> x /\ on L b y).
Proof.
  intros Hne [l Hl] Hx. unfold on, moved. destruct (decide (b = head)) as [->|Hb].
  - rewrite lookup_alter_eq, without_lookup, decide_False, Hl by done. cbn. split.
    + intros (? & [= <-] & [[? ?]%list_elem_of_filter| ->%list_elem_of_singleton]%elem_of_app); [right; split; [done|by exists l]|by left].
    + intros [[-> _]|[Hy (l' & [= <-] & Hin)]]; eexists; split; try done; [set_solver|].
      apply elem_of_app. left. by apply list_elem_of_filter.
  - rewrite lookup_alter_ne, without_lookup by done. destruct (decide (b = x)) as [->|Hbx].
    + split; [intros (? & [=] & _)|]. intros [[_ ->]|[_ (k & Hk & Hin)]]; [done|].
      destruct Hx as [E|[E _]]; rewrite E in Hk; [injection Hk as <-; set_solver|done].
    + split.
      * intros (k & Hk & Hin). apply fmap_Some in Hk as (k0 & Hk & ->). apply list_elem_of_filter in Hin as [? ?]. right.
        split; [done|by exists k0].
      * intros [[_ ->]|[Hy (k & Hk & Hin)]]; [done|]. rewrite Hk. eexists. split; [done|]. by apply list_elem_of_filter.
Qed.

Lemma moved_lookup L x head b : head <> x -> is_node L x ->
  is_Some (moved x head L !! b) <-> is_Some (L !! b) /\ b <> x.
Proof.
  intros Hne Hx. unfold moved. destruct (decide (b = head)) as [->|Hb].
  - rewrite lookup_alter_eq, without_lookup, decide_False by done. rewrite !fmap_is_Some. tauto.
  - rewrite lookup_alter_ne, without_lookup by done. destruct (decide (b = x)) as [->|Hbx]; [|rewrite fmap_is_Some; tauto].
    split; [by intros [? [=]]|tauto].
Qed.

Lemma on_unique h L x hd hd' : repr h L -> on L hd x -> on L hd' x -> hd = hd'.
Proof.
  intros [_ D] (l & Hl & Hx) (l' & Hl' & Hx'). destruct (decide (hd = hd')) as [|Hne]; [done|].
  exfalso. apply (D hd l hd' l' x Hl Hl' Hne); set_solver.
Qed.

(** ** Whole programs *)

Fixpoint run_ops (os : list op) (h : heap) : outcome heap :=
  match os with [] => Ret h | o :: os => h ← run_op o h; run_ops os h end.

Fixpoint spec_ops (os : list op) (L : lists) : option lists :=
  match os with [] => Some L | o :: os => L ← spec_op o L; spec_ops os L end.

Lemma empty_iff h L head l : repr h L -> L !! head = Some l -> list_empty h head = Ret (bool_decide (l = [])).
Proof.
  intros HR Hl. pose proof (re_ring _ _ HR _ _ Hl) as Hr.
  destruct (ring_ends h head l Hr) as (f & _ & Hn & _ & _ & _ & _ & _ & He & _).
  unfold list_empty, get_next. rewrite Hn. run. f_equal.
  destruct (Nat.eqb_spec f head) as [->|Hne]; [by rewrite bool_decide_eq_true_2 by (by apply He)|].
  rewrite bool_decide_eq_false_2; [done|]. intros H%He. done.
Qed.

(** A walk whose body leaves memory alone. *)
Definition collect (x : nat) (st : heap * list nat) : outcome (heap * list nat) := Ret (st.1, st.2 ++ [x]).

Lemma for_each_step {T} (body : nat -> heap * T -> outcome (heap * T)) fuel pos q st st' : pos <> q -> body pos st = Ret st' ->
  for_each body (S fuel) pos q st = (pos ← get_next st'.1 pos; for_each body fuel pos q st').
Proof. intros Hne E. cbn [for_each]. rewrite (proj2 (Nat.eqb_neq pos q) Hne), E. done. Qed.

Lemma for_each_safe_step {T} (body : nat -> heap * T -> outcome (heap * T)) fuel pos n q st st' : pos <> q -> body pos st = Ret st' ->
  for_each_safe body (S fuel) pos n q st = (n' ← get_next st'.1 n; for_each_safe body fuel n n' q st').
Proof. intros Hne E. cbn [for_each_safe]. rewrite (proj2 (Nat.eqb_neq pos q) Hne), E. done. Qed.

Lemma for_each_end {T} (body : nat -> heap * T -> outcome (heap * T)) fuel q st : for_each body fuel q q st = Ret st.
Proof. destruct fuel; cbn [for_each]; by rewrite Nat.eqb_refl. Qed.

Lemma for_each_safe_end {T} (body : nat -> heap * T -> outcome (heap * T)) fuel n q st : for_each_safe body fuel q n q st = Ret st.
Proof. destruct fuel; cbn [for_each_safe]; by rewrite Nat.eqb_refl. Qed.

Lemma for_each_collect h q l : forall acc pos, seg h pos l q -> q ∉ pos :: l ->
  for_each collect (S (length l)) pos q (h, acc) = Ret (h, acc ++ pos :: l).
Proof.
  induction l as [|x l IH]; intros acc pos Hs Hq; rewrite (for_each_step _ _ _ _ _ (h, acc ++ [pos])) by (first [done|set_solver]);
    unfold get_next; cbn [fst].
  - destruct Hs as [-> _]. run. apply for_each_end.
  - destruct Hs as (-> & _ & Hs). run. rewrite (IH _ x Hs) by set_solver. by rewrite <- app_assoc.
Qed.

Lemma seg_next h pos l q : seg h pos l q -> exists n, next h pos = Some n.
Proof. destruct l; cbn; naive_solver. Qed.

Lemma for_each_safe_collect h q l : forall acc pos n, seg h pos l q -> q ∉ pos :: l -> next h pos = Some n -> is_Some (next h q) ->
  for_each_safe collect (S (length l)) pos n q (h, acc) = Ret (h, acc ++ pos :: l).
Proof.
  induction l as [|x l IH]; intros acc pos n Hs Hq Hn [m Hm];
    rewrite (for_each_safe_step _ _ _ _ _ _ (h, acc ++ [pos])) by (first [done|set_solver]); unfold get_next; cbn [fst].
  - destruct Hs as [E _]. rewrite Hn in E. injection E as ->. rewrite Hm. run. apply for_each_safe_end.
  - destruct Hs as (E & _ & Hs). rewrite Hn in E. injection E as ->. destruct (seg_next h x l q Hs) as [n' Hn']. rewrite Hn'. run.
    rewrite (IH _ x n' Hs) by (first [done|set_solver|by eexists]). by rewrite <- app_assoc.
Qed.

(** The lists that [list_for_each], its [_safe] variant and [list_empty] see. *)
Lemma walks_ok h L head l : repr h L -> L !! head = Some l ->
  list_for_each collect (length l) head (h, []) = Ret (h, l) /\
  list_for_each_safe collect (length l) head (h, []) = Ret (h, l).
Proof.
  intros HR Hl. pose proof (re_ring _ _ HR _ _ Hl) as [Hnd Hs]. pose proof Hnd as [Hh _]%NoDup_cons.
  unfold list_for_each, list_for_each_safe, get_next. cbn [fst snd]. destruct l as [|x l]; cbn [seg] in Hs.
  - destruct Hs as [Hn _]. rewrite Hn. run. cbn. rewrite Hn. run. rewrite Nat.eqb_refl. done.
  - destruct Hs as (Hn & _ & Hs). rewrite Hn. run.
    destruct (seg_next h x l head Hs) as [n' Hn']. rewrite Hn'. run. cbn [length]. split; [by rewrite (for_each_collect h head l [] x Hs)|].
    by rewrite (for_each_safe_collect h head l [] x n' Hs) by (first [done|by eexists]).
Qed.

Lemma ring_next h hd l : ring h hd l -> next h hd = Some (match l with [] => hd | x :: _ => x end) /\
  forall x m, l = x :: m -> x <> hd /\ next h x = Some (match m with [] => hd | y :: _ => y end).
Proof.
  intros [Hnd Hs]. apply NoDup_cons in Hnd as [Hh _]. split; [destruct l; cbn in Hs; tauto|].
  intros x m ->. split; [set_solver|]. destruct m; cbn in Hs; tauto.
Qed.

Lemma ring_mid h hd pre x l : ring h hd (pre ++ x :: l) -> x <> hd /\ next h x = Some (match l with [] => hd | y :: _ => y end).
Proof.
  intros [Hnd Hs]. apply NoDup_cons in Hnd as [Hh _]. split; [set_solver|]. apply seg_app in Hs as [_ Hs].
  destruct l; cbn in Hs; tauto.
Qed.

(** A walk with [list_for_each_safe] whose body takes its node off the list or
    leaves it where it is, and may put others at the end. [pre] is what has been
    left behind. The walk visits at least the nodes that were there, and what the
    body says of a node stays true; [G] is what the body may put at the end. *)
Section walking.
Context {T : Type} (body : nat -> heap * T -> outcome (heap * T)) (q : nat).
Context (J : list nat -> list nat -> heap * T -> Prop) (D : nat -> heap * T -> Prop) (mu : list nat -> heap * T -> nat)
  (G : list nat -> Prop).
Hypothesis G_nil : G [].
Hypothesis J_ring : forall pre l st, J pre l st -> ring st.1 q (pre ++ l).
Hypothesis J_step : forall pre x l st, J pre (x :: l) st -> exists st' pre' k, body x st = Ret st' /\
  G k /\ mu (l ++ k) st' < mu (x :: l) st /\ J pre' (l ++ k) st' /\ D x st' /\ forall z, D z st -> D z st'.

Lemma walking_from fuel : forall pre x l st n, J pre (x :: l) st -> mu (x :: l) st <= fuel -> next st.1 x = Some n ->
  exists st' pre' k, for_each_safe body fuel x n q st = Ret st' /\ G k /\ J pre' k st' /\ (forall z, z ∈ x :: l -> D z st') /\
    forall z, D z st -> D z st'.
Proof.
  induction fuel as [|fuel IH]; intros pre x l st n HJ Hf Hn; destruct (J_step pre x l st HJ) as (st1 & pre1 & k & E & HG & Hmu & HJ1 & HD & Hmono); [lia|].
  destruct (ring_mid _ _ _ _ _ (J_ring _ _ _ HJ)) as [Hxq Hn']. rewrite Hn in Hn'. injection Hn' as ->.
  rewrite (for_each_safe_step _ _ _ _ _ _ st1 Hxq E). unfold get_next. pose proof (J_ring _ _ _ HJ1) as Hr1. destruct l as [|y l].
  - destruct (ring_next _ _ _ Hr1) as [Hq1 _]. rewrite Hq1. run. rewrite for_each_safe_end. exists st1, pre1, k.
    split_and!; [done|done|done| |done]. intros z ->%list_elem_of_singleton. done.
  - destruct (ring_mid _ _ _ _ _ Hr1) as [_ Hy]. rewrite Hy. run.
    destruct (IH pre1 y (l ++ k) st1 _ HJ1 ltac:(cbn in Hmu |- *; lia) Hy) as (st' & pre' & k' & E' & HG' & HJ' & HD' & Hm').
    exists st', pre', k'. split_and!; [done|done|done| |].
    + intros z [->|Hz]%elem_of_cons; [by apply Hm'|apply HD'; set_solver].
    + intros z Hz. by apply Hm', Hmono.
Qed.

Lemma walking_rule fuel l st : J [] l st -> mu l st <= fuel ->
  exists st' pre k, list_for_each_safe body fuel q st = Ret st' /\ G k /\ J pre k st' /\ (forall z, z ∈ l -> D z st').
Proof.
  intros HJ Hf. unfold list_for_each_safe, get_next. pose proof (J_ring _ _ _ HJ) as Hr. cbn [app] in Hr. destruct (ring_next _ _ _ Hr) as [Hq _]. rewrite Hq. run.
  destruct l as [|x l].
  - rewrite Hq. run. rewrite for_each_safe_end. exists st, [], []. split_and!; [done|done|done|set_solver].
  - destruct (ring_mid _ _ [] _ _ Hr) as [_ Hn]. rewrite Hn. run.
    destruct (walking_from fuel [] x l st _ HJ Hf Hn) as (st' & pre & k & H1 & H2 & H3 & H4 & _). by exists st', pre, k.
Qed.
End walking.

(** C21: the pointer code of list.h implements lists. Starting from memory that
    represents some lists, any sequence of INIT_LIST_HEAD, list_add,
    list_add_tail, list_del, list_move, list_move_tail and list_splice calls that
    makes sense on the lists runs without touching memory that is not a node,
    and the rings it leaves are the lists that the same calls give on paper;
    list_empty, list_for_each and list_for_each_safe then report exactly them. *)
Theorem list_refines h L os L' : repr h L -> spec_ops os L = Some L' ->
  exists h', run_ops os h = Ret h' /\ repr h' L' /\
    forall head l, L' !! head = Some l -> list_empty h' head = Ret (bool_decide (l = [])) /\
      list_for_each collect (length l) head (h', []) = Ret (h', l) /\
      list_for_each_safe collect (length l) head (h', []) = Ret (h', l).
Proof.
  revert h L. induction os as [|o os IH]; intros h L HR Ho; cbn [spec_ops run_ops] in *.
  - injection Ho as <-. exists h. split_and!; [done|done|]. intros head l Hl. split; [by apply (empty_iff h L)|by apply (walks_ok h L)].
  - apply bind_Some in Ho as (L1 & Ho1 & Ho). destruct (op_refines h L o L1 HR Ho1) as (h1 & E1 & HR1). rewrite E1. run.
    by apply (IH h1 L1).
Qed.

(** Initialised nodes, each the head of an empty list. *)
Definition nodes (l : list nat) : heap := list_to_map ((fun a => (a, (a, a))) <$> l).
Definition singles (l : list nat) : lists := list_to_map ((fun a => (a, [])) <$> l).

Lemma nodes_lookup l a : a ∈ l -> nodes l !! a = Some (a, a).
Proof.
  intros Ha. induction l as [|b l IH]; [set_solver|]. unfold nodes. cbn. destruct (decide (a = b)) as [->|Hne]; [by rewrite lookup_insert_eq|].
  rewrite lookup_insert_ne by done. apply IH. set_solver.
Qed.

Lemma singles_lookup l a k : singles l !! a = Some k <-> a ∈ l /\ k = [].
Proof.
  induction l as [|b l IH]; [unfold singles; cbn; rewrite lookup_empty; set_solver|]. unfold singles. cbn. destruct (decide (a = b)) as [->|Hne].
  - rewrite lookup_insert_eq. split; [intros [= <-]; set_solver|by intros [_ ->]].
  - rewrite lookup_insert_ne by done. fold (singles l). rewrite IH. set_solver.
Qed.

Lemma nodes_repr l : repr (nodes l) (singles l).
Proof.
  split.
  - intros hd k [Hin ->]%singles_lookup. split; [apply NoDup_singleton|]. split; unfold next, prev; by rewrite nodes_lookup.
  - intros hd k hd' k' a [_ ->]%singles_lookup [_ ->]%singles_lookup. set_solver.
Qed.

Example list_refines_witness :
  let os := [AddTail 1 10; AddTail 2 10; Add 3 20; MoveTail 1 20; Splice 10 20; Del 3] in
  exists h', run_ops os (nodes [1; 2; 3; 10; 20]) = Ret h' /\ list_for_each collect 2 20 (h', []) = Ret (h', [2; 1]).
Proof.
  intros os.
  assert (spec_ops os (singles [1; 2; 3; 10; 20]) = Some (<[3 := []]> (<[10 := []]> (<[20 := [2; 1]]> ∅)))) as E by (vm_compute; reflexivity).
  destruct (list_refines _ _ os _ (nodes_repr [1; 2; 3; 10; 20]) E) as (h' & Hr & _ & Hw).
  exists h'. split; [exact Hr|]. apply (Hw 20 [2; 1]). vm_compute. reflexivity.
Defined.
