(* ===== verification/Hlist.v ===== *)
(** * list.h: lists with a single head pointer

    A node points to the next one and to the pointer that leads to itself:
    the [first] of a head or the [next] of the node before. Such a pointer to
    a pointer is a [place]. NULL is [None]. Nothing in the programs uses these
    lists. *)

From S2P Require Import Prelude.

Inductive place := First (h : nat) | Next (n : nat).

#[export] Instance place_eq_dec : EqDecision place.
Proof. solve_decision. Defined.

Record hlist_node := HlistNode { hl_next : option nat; hl_pprev : option place }.

(** The memory: the heads, each its [first], and the nodes. *)
Record hmem := Hmem { hm_heads : gmap nat (option nat); hm_nodes : gmap nat hlist_node }.

Definition get_hnode (m : hmem) (n : nat) : outcome hlist_node := of_option OutOfBounds (hm_nodes m !! n).
Definition put_hnode (m : hmem) (n : nat) (x : hlist_node) : hmem := Hmem (hm_heads m) (<[n := x]> (hm_nodes m)).

(** What is stored at a place, when there is one. *)
Definition at_place (m : hmem) (p : place) : option (option nat) :=
  match p with First h => hm_heads m !! h | Next n => hl_next <$> hm_nodes m !! n end.

Definition store (m : hmem) (p : place) (v : option nat) : outcome hmem :=
  match p with
  | First h => _ ← of_option OutOfBounds (hm_heads m !! h); Ret (Hmem (<[h := v]> (hm_heads m)) (hm_nodes m))
  | Next n => x ← get_hnode m n; Ret (put_hnode m n (HlistNode v (hl_pprev x)))
  end.

(** [*pprev = v]: through a pointer that may be NULL. *)
Definition store_through (m : hmem) (p : option place) (v : option nat) : outcome hmem :=
  p ← of_option OutOfBounds p; store m p v.

Definition set_pprev (m : hmem) (n : nat) (p : option place) : outcome hmem :=
  x ← get_hnode m n; Ret (put_hnode m n (HlistNode (hl_next x) p)).

Definition INIT_HLIST_HEAD (m : hmem) (h : nat) : outcome hmem := store m (First h) None.
Definition INIT_HLIST_NODE (m : hmem) (n : nat) : outcome hmem := _ ← get_hnode m n; Ret (put_hnode m n (HlistNode None None)).

Definition hlist_unhashed (m : hmem) (h : nat) : outcome bool := x ← get_hnode m h; Ret (bool_decide (hl_pprev x = None)).
Definition hlist_empty (m : hmem) (h : nat) : outcome bool := f ← of_option OutOfBounds (hm_heads m !! h); Ret (bool_decide (f = None)).

Definition hlist_del (m : hmem) (n : nat) : outcome hmem :=
  x ← get_hnode m n;
  m ← store_through m (hl_pprev x) (hl_next x);
  m ← match hl_next x with Some next => set_pprev m next (hl_pprev x) | None => Ret m end;
  INIT_HLIST_NODE m n.

Definition hlist_add_head (m : hmem) (n h : nat) : outcome hmem :=
  first ← of_option OutOfBounds (hm_heads m !! h);
  m ← store m (Next n) first;
  m ← match first with Some f => set_pprev m f (Some (Next n)) | None => Ret m end;
  m ← store m (First h) (Some n);
  set_pprev m n (Some (First h)).

Definition hlist_add_before (m : hmem) (n next : nat) : outcome hmem :=
  x ← get_hnode m next;
  m ← set_pprev m n (hl_pprev x);
  m ← store m (Next n) (Some next);
  m ← set_pprev m next (Some (Next n));
  x ← get_hnode m n;
  store_through m (hl_pprev x) (Some n).

Definition hlist_add_after (m : hmem) (n next : nat) : outcome hmem :=
  x ← get_hnode m n;
  m ← store m (Next next) (hl_next x);
  y ← get_hnode m next;
  m ← store_through m (hl_pprev y) (Some n);
  store m (Next n) (Some next).

Section loops.
Context {S : Type} (body : nat -> hmem * S -> outcome (hmem * S)).

Fixpoint hlist_walk (fuel : nat) (pos : option nat) (st : hmem * S) : outcome (hmem * S) :=
  match pos with
  | None => Ret st
  | Some x =>
    match fuel with
    | O => Fault OutOfFuel
    | Datatypes.S fuel =>
      st ← body x st;
      y ← get_hnode st.1 x;
      hlist_walk fuel (hl_next y) st
    end
  end.

Definition hlist_for_each (fuel : nat) (head : nat) (st : hmem * S) : outcome (hmem * S) :=
  f ← of_option OutOfBounds (hm_heads st.1 !! head); hlist_walk fuel f st.

(** The next node is read before the body runs. *)
Fixpoint hlist_walk_safe (fuel : nat) (pos : option nat) (st : hmem * S) : outcome (hmem * S) :=
  match pos with
  | None => Ret st
  | Some x =>
    match fuel with
    | O => Fault OutOfFuel
    | Datatypes.S fuel =>
      y ← get_hnode st.1 x;
      st ← body x st;
      hlist_walk_safe fuel (hl_next y) st
    end
  end.

Definition hlist_for_each_safe (fuel : nat) (head : nat) (st : hmem * S) : outcome (hmem * S) :=
  f ← of_option OutOfBounds (hm_heads st.1 !! head); hlist_walk_safe fuel f st.
End loops.

(** ** Lists in memory *)

(** Everything below is about these two views of a memory. *)
Definition pprev (m : hmem) (x : nat) : option (option place) := hl_pprev <$> hm_nodes m !! x.

(** From the place [p] on, the nodes [l]. *)
Fixpoint hseg (m : hmem) (p : place) (l : list nat) : Prop :=
  at_place m p = Some (head l) /\
  match l with [] => True | x :: l => pprev m x = Some (Some p) /\ hseg m (Next x) l end.

(** Heads with their lists; a node is in one of them, or in none. *)
Abbreviation hlists := (gmap nat (list nat)).

Record hrepr (m : hmem) (L : hlists) : Prop := {
  hr_seg : forall h l, L !! h = Some l -> hseg m (First h) l;
  hr_dup : forall h l, L !! h = Some l -> NoDup l;
  hr_one : forall h1 l1 h2 l2 x, L !! h1 = Some l1 -> L !! h2 = Some l2 -> x ∈ l1 -> x ∈ l2 -> h1 = h2;
}.

(** A node that is in no list. *)
Definition hfree (m : hmem) (L : hlists) (x : nat) : Prop := is_Some (hm_nodes m !! x) /\ forall h l, L !! h = Some l -> x ∉ l.

(** The nodes [l] from the place [p] on, up to the last one's [next]. *)
Fixpoint hpre (m : hmem) (p : place) (l : list nat) : Prop :=
  match l with
  | [] => True
  | x :: l => at_place m p = Some (Some x) /\ pprev m x = Some (Some p) /\ hpre m (Next x) l
  end.

Definition tip (p : place) (l : list nat) : place := from_option Next p (last l).

Lemma tip_cons p x l : tip p (x :: l) = tip (Next x) l.
Proof. unfold tip. rewrite last_cons. by destruct (last l). Qed.

Lemma hseg_app m l2 : forall l1 p, hseg m p (l1 ++ l2) <-> hpre m p l1 /\ hseg m (tip p l1) l2.
Proof.
  induction l1 as [|x l1 IH]; intros p; [unfold tip; cbn; tauto|]. rewrite tip_cons. cbn [app hseg hpre head]. rewrite IH. tauto.
Qed.

Lemma tip_elem p l : tip p l = p \/ exists x, x ∈ l /\ tip p l = Next x.
Proof. unfold tip. destruct (last l) as [x|] eqn:E; [right|by left]. exists x. split; [by apply last_Some_elem_of|done]. Qed.

(** Parts of a list depend on what is stored at their places and in their nodes. *)
Lemma hseg_frame m m' l : forall p, at_place m' p = at_place m p -> (forall x, x ∈ l -> at_place m' (Next x) = at_place m (Next x) /\ pprev m' x = pprev m x) ->
  hseg m p l -> hseg m' p l.
Proof.
  induction l as [|x l IH]; intros p Hp H; cbn [hseg]; rewrite Hp; [done|]. intros (H1 & H2 & H3). destruct (H x) as [Hn Hv]; [left|].
  rewrite Hv. split_and!; [done..|]. apply IH; [done| |done]. intros y Hy. apply H. by right.
Qed.

Lemma hpre_frame m m' l : forall p, NoDup l -> (forall x, x ∈ l -> p <> Next x) ->
  (forall q, q = p \/ (exists x, x ∈ l /\ q = Next x) -> q <> tip p l -> at_place m' q = at_place m q) -> (forall x, x ∈ l -> pprev m' x = pprev m x) ->
  hpre m p l -> hpre m' p l.
Proof.
  induction l as [|x l IH]; intros p Hnd Hpl Ha Hv; [done|]. apply NoDup_cons in Hnd as [Hx Hd]. cbn [hpre]. intros (H1 & H2 & H3). rewrite tip_cons in Ha.
  rewrite Hv by left. split_and!; [|done|].
  - rewrite Ha; [done|by left|]. destruct (tip_elem (Next x) l) as [-> | (y & Hy & ->)]; apply Hpl; [left|by right].
  - apply IH; [done|intros y Hy [= ->]; done| |intros y Hy; apply Hv; by right|done].
    intros q [-> | (y & Hy & ->)] Hq; apply Ha; try done; right; eexists; (split; [|done]); [left|by right].
Qed.

(** *** Writing *)

Lemma hstore_ok m p v u : at_place m p = Some u ->
  exists m', store m p v = Ret m' /\ (forall q, at_place m' q = if decide (q = p) then Some v else at_place m q) /\ (forall x, pprev m' x = pprev m x).
Proof.
  destruct p as [h|n]; cbn [at_place store].
  - intros ->. eexists. split; [reflexivity|]. split; [|done]. intros [h'|n']; cbn; [|by rewrite decide_False].
    destruct (decide (h' = h)) as [->|]; [by rewrite lookup_insert_eq, decide_True|rewrite lookup_insert_ne, decide_False by congruence; done].
  - intros (x & Hx & ->)%fmap_Some. unfold get_hnode. rewrite Hx. eexists. split; [reflexivity|]. split.
    + intros [h'|n']; cbn; [by rewrite decide_False|]. destruct (decide (n' = n)) as [->|]; [by rewrite lookup_insert_eq, decide_True|rewrite lookup_insert_ne, decide_False by congruence; done].
    + intros n'. unfold pprev. cbn. destruct (decide (n' = n)) as [->|]; [by rewrite lookup_insert_eq, Hx|by rewrite lookup_insert_ne by congruence].
Qed.

Lemma set_pprev_ok m n v u : pprev m n = Some u ->
  exists m', set_pprev m n v = Ret m' /\ (forall q, at_place m' q = at_place m q) /\ (forall x, pprev m' x = if decide (x = n) then Some v else pprev m x).
Proof.
  intros (x & Hx & ->)%fmap_Some. unfold set_pprev, get_hnode. rewrite Hx. eexists. split; [reflexivity|]. split.
  - intros [h'|n']; cbn; [done|]. destruct (decide (n' = n)) as [->|]; [by rewrite lookup_insert_eq, Hx|by rewrite lookup_insert_ne by congruence].
  - intros n'. unfold pprev. cbn. destruct (decide (n' = n)) as [->|]; [by rewrite lookup_insert_eq|by rewrite lookup_insert_ne by congruence].
Qed.

(** A node is there when its fields are. *)
Lemma hnode_there m n u v : at_place m (Next n) = Some u -> pprev m n = Some v -> get_hnode m n = Ret (HlistNode u v).
Proof. unfold pprev, get_hnode. cbn. destruct (hm_nodes m !! n) as [[? ?]|]; cbn; congruence. Qed.

Lemma hnode_fields m n : is_Some (hm_nodes m !! n) <-> exists u v, at_place m (Next n) = Some u /\ pprev m n = Some v.
Proof.
  unfold pprev. cbn. split; [intros [[u v] ->]; by exists u, v|]. intros (u & v & H & _). by destruct (hm_nodes m !! n).
Qed.

(** One list changes, within its nodes and one that was free. *)
Lemma hrepr_update m m' L h l l' n : hrepr m L -> L !! h = Some l -> (forall h' l', L !! h' = Some l' -> n ∈ l' -> h' = h) ->
  (forall x, x ∈ l' -> x = n \/ x ∈ l) -> NoDup l' -> hseg m' (First h) l' ->
  (forall q, q <> First h -> (forall x, x = n \/ x ∈ l -> q <> Next x) -> at_place m' q = at_place m q) ->
  (forall x, x <> n -> x ∉ l -> pprev m' x = pprev m x) -> hrepr m' (<[h := l']> L).
Proof.
  intros [Hs Hd H1] Hl Hn Hsub Hd' Hs' Ha Hv. assert (forall h2 l2 x, L !! h2 = Some l2 -> x ∈ l2 -> x = n \/ x ∈ l -> h2 = h) as Hown.
  { intros h2 l2 x H2 Hx [-> | Hx']; [by eapply Hn|by eapply H1]. }
  split; intros h1 l1.
  - intros [(<- & <-)|(Hh & H)]%lookup_insert_Some; [done|]. apply (hseg_frame m); [| |by apply Hs].
    + apply Ha; [congruence|done].
    + intros x Hx. split.
      * apply Ha; [done|]. intros y Hy [= <-]. apply Hh. by rewrite (Hown _ _ _ H Hx Hy).
      * apply Hv; [intros ->; apply Hh; by rewrite (Hown _ _ _ H Hx (or_introl eq_refl))|intros Hx'; apply Hh; by rewrite (Hown _ _ _ H Hx (or_intror Hx'))].
  - intros [(<- & <-)|(Hh & H)]%lookup_insert_Some; [done|by eapply Hd].
  - intros h2 l2 x [(<- & <-)|(Hh & H)]%lookup_insert_Some [(<- & <-)|(Hh2 & H2)]%lookup_insert_Some Hx1 Hx2; [done| | |by eapply H1].
    + symmetry. eapply Hown; [exact H2|done|by apply Hsub].
    + eapply Hown; [exact H|done|by apply Hsub].
Qed.

(** A part of a list is led to from another place. *)
Lemma hseg_reseat m m' p q l : hseg m p l -> at_place m' q = Some (head l) -> (forall x, head l = Some x -> pprev m' x = Some (Some q)) ->
  (forall x, x ∈ l -> at_place m' (Next x) = at_place m (Next x)) -> (forall x, x ∈ tail l -> pprev m' x = pprev m x) -> hseg m' q l.
Proof.
  destruct l as [|x l]; cbn [hseg]; [done|]. intros (_ & _ & H) Ha Hv Hn Ht. split_and!; [done|by apply Hv|].
  apply (hseg_frame m); [apply Hn; left| |done]. intros y Hy. split; [apply Hn; by right|by apply Ht].
Qed.

(** The node behind a place, if any, is told that [q] leads to it now. *)
Definition tell (m : hmem) (v : option nat) (q : option place) : outcome hmem :=
  match v with Some x => set_pprev m x q | None => Ret m end.

Lemma tell_ok m p l q : hseg m p l -> exists m', tell m (head l) q = Ret m' /\ (forall r, at_place m' r = at_place m r) /\
  (forall x, pprev m' x = if decide (head l = Some x) then Some q else pprev m x).
Proof.
  destruct l as [|y l]; cbn [hseg tell head]; [by eexists|]. intros (_ & Hy & _). destruct (set_pprev_ok m y q _ Hy) as (m' & E & H1 & H2).
  exists m'. split_and!; [done..|]. intros x. rewrite H2. by destruct (decide (x = y)), (decide (Some y = Some x)); try congruence.
Qed.

Lemma hlist_add_head_ok m L n h l : hrepr m L -> hfree m L n -> L !! h = Some l ->
  exists m', hlist_add_head m n h = Ret m' /\ hrepr m' (<[h := n :: l]> L).
Proof.
  intros R [Hn Hf] Hl. pose proof (hr_seg _ _ R _ _ Hl) as Hs. pose proof (Hf _ _ Hl) as Hnl. pose proof (hr_dup _ _ R _ _ Hl) as Hd.
  apply hnode_fields in Hn as (u & v & Hu & Hv). unfold hlist_add_head.
  assert (at_place m (First h) = Some (head l)) as Hh by (by destruct l; apply Hs). pose proof Hh as Hh'. cbn in Hh'. rewrite Hh'. cbn [of_option]. run.
  destruct (hstore_ok m (Next n) (head l) u Hu) as (m1 & -> & A1 & V1). run.
  assert (hseg m1 (First h) l) as Hs1.
  { apply (hseg_frame m); [by rewrite A1, decide_False|intros x Hx; split; [rewrite A1, decide_False; [done|congruence]|apply V1]|done]. }
  destruct (tell_ok m1 (First h) l (Some (Next n)) Hs1) as (m2 & E2 & A2 & V2). unfold tell in E2. rewrite E2. run.
  destruct (hstore_ok m2 (First h) (Some n) (head l)) as (m3 & -> & A3 & V3); [by rewrite A2, A1, decide_False|]. run.
  assert (head l <> Some n) as Hhn by (destruct l; cbn; [done|intros [= ->]; apply Hnl; left]).
  destruct (set_pprev_ok m3 n (Some (First h)) v) as (m4 & -> & A4 & V4); [by rewrite V3, V2, V1, decide_False|].
  exists m4. split; [done|]. apply (hrepr_update m m4 L h l (n :: l) n R Hl).
  - intros h' l' H' Hin. by apply Hf in H'.
  - intros x [->|Hx]%elem_of_cons; tauto.
  - by apply NoDup_cons.
  - cbn [hseg head]. split_and!; [by rewrite A4, A3, decide_True|by rewrite V4, decide_True|].
    apply (hseg_reseat m m4 (First h)); [done|rewrite A4, A3, A2, A1, decide_False, decide_True; done| | |].
    + intros x Hx. rewrite V4, V3, V2, decide_False, decide_True; [done|done|intros ->; done].
    + intros x Hx. rewrite A4, A3, A2, A1, !decide_False; congruence.
    + intros x Hx. rewrite V4, V3, V2, V1, !decide_False; [done| |].
      * destruct l; [by apply not_elem_of_nil in Hx|]. cbn in *. intros [= ->]. by apply NoDup_cons in Hd as [? _].
      * intros ->. apply Hnl. destruct l; [done|by right].
  - intros q Hq Hx. rewrite A4, A3, A2, A1, !decide_False; [done|by apply Hx; left|done].
  - intros x Hx Hxl. rewrite V4, V3, V2, V1, !decide_False; [done| |done]. intros E. apply Hxl. destruct l; [done|]. injection E as ->. left.
Qed.

Lemma init_node_ok m n u v : at_place m (Next n) = Some u -> pprev m n = Some v ->
  exists m', INIT_HLIST_NODE m n = Ret m' /\ (forall q, at_place m' q = if decide (q = Next n) then Some None else at_place m q) /\
    (forall x, pprev m' x = if decide (x = n) then Some None else pprev m x).
Proof.
  intros Hu Hv. unfold INIT_HLIST_NODE. rewrite (hnode_there _ _ _ _ Hu Hv). eexists. split; [reflexivity|]. split.
  - intros [h'|n']; cbn; [by rewrite decide_False|]. destruct (decide (n' = n)) as [->|]; [by rewrite lookup_insert_eq, decide_True|rewrite lookup_insert_ne, decide_False by congruence; done].
  - intros n'. unfold pprev. cbn. destruct (decide (n' = n)) as [->|]; [by rewrite lookup_insert_eq|by rewrite lookup_insert_ne by congruence].
Qed.

(** Where the node [x] of a list stands. *)
Record stands (m : hmem) (h : nat) (l1 : list nat) (x : nat) (l2 : list nat) (q : place) : Prop := {
  st_pre : hpre m (First h) l1;
  st_at : at_place m q = Some (Some x);
  st_pp : pprev m x = Some (Some q);
  st_rest : hseg m (Next x) l2;
  st_q : q = First h \/ exists y, y ∈ l1 /\ q = Next y;
  st_tip : q = tip (First h) l1;
  st_x : q <> Next x /\ x ∉ l1 /\ x ∉ l2;
  st_l2 : forall y, y ∈ l2 -> q <> Next y /\ y ∉ l1;
  st_d1 : NoDup l1;
  st_d2 : NoDup l2;
}.

Lemma stands_ok m L h l1 x l2 : hrepr m L -> L !! h = Some (l1 ++ x :: l2) -> exists q, stands m h l1 x l2 q.
Proof.
  intros R Hl. exists (tip (First h) l1). pose proof (hr_seg _ _ R _ _ Hl) as [Hp (H1 & H2 & H3)]%hseg_app.
  pose proof (hr_dup _ _ R _ _ Hl) as (Hd1 & Hd & [Hx Hd2]%NoDup_cons)%NoDup_app. pose proof (tip_elem (First h) l1) as Ht. split; try done.
  - split_and!; [|intros Hx1; apply (Hd x Hx1); left|done]. destruct Ht as [-> | (y & Hy & ->)]; [done|]. intros [= ->]. apply (Hd x Hy). left.
  - intros y Hy. split; [|intros Hy1; apply (Hd y Hy1); by right]. destruct Ht as [-> | (z & Hz & ->)]; [done|]. intros [= ->]. apply (Hd y Hz). by right.
Qed.

Lemma head_elem (l : list nat) x : head l = Some x -> x ∈ l.
Proof. destruct l; [done|]. intros [= ->]. left. Qed.

Lemma tail_nodup (l : list nat) x : NoDup l -> x ∈ tail l -> head l <> Some x /\ x ∈ l.
Proof. destruct l as [|y l]; cbn; [by intros _ ?%not_elem_of_nil|]. intros [Hy _]%NoDup_cons Hx. split; [intros [= ->]; done|by right]. Qed.

Lemma hlist_del_ok m L h l1 x l2 : hrepr m L -> L !! h = Some (l1 ++ x :: l2) ->
  exists m', hlist_del m x = Ret m' /\ hrepr m' (<[h := l1 ++ l2]> L) /\ hfree m' (<[h := l1 ++ l2]> L) x /\ hlist_unhashed m' x = Ret true.
Proof.
  intros R Hl. destruct (stands_ok _ _ _ _ _ _ R Hl) as (q & [Hp Ha Hv Hs Hq Ht (Hqx & Hx1 & Hx2) Hl2 Hd1 Hd2]). unfold hlist_del.
  assert (at_place m (Next x) = Some (head l2)) as Hnx by (by destruct l2; apply Hs). rewrite (hnode_there _ _ _ _ Hnx Hv). run. unfold store_through. cbn [hl_next hl_pprev]. run.
  destruct (hstore_ok m q (head l2) _ Ha) as (m1 & -> & A1 & V1). run.
  assert (hseg m1 (Next x) l2) as Hs1.
  { apply (hseg_frame m); [by rewrite A1, decide_False|intros y Hy; split; [rewrite A1, decide_False; [done|destruct (Hl2 y Hy); congruence]|apply V1]|done]. }
  destruct (tell_ok m1 (Next x) l2 (Some q) Hs1) as (m2 & E2 & A2 & V2). unfold tell in E2. rewrite E2. run.
  assert (head l2 <> Some x) as Hhx by (intros ?%head_elem; done).
  destruct (init_node_ok m2 x (head l2) (Some q)) as (m3 & E3 & A3 & V3); [by rewrite A2, A1, decide_False|by rewrite V2, V1, decide_False|].
  exists m3. split; [done|]. split; [|split].
  - apply (hrepr_update m m3 L h _ (l1 ++ l2) x R Hl).
    + intros h' l' H' Hin. apply (hr_one _ _ R _ _ _ _ x H' Hl Hin). set_solver.
    + intros y Hy. right. set_solver.
    + apply NoDup_app. split_and!; [done| |done]. intros y Hy1 Hy2. by destruct (Hl2 y Hy2).
    + apply hseg_app. rewrite <- Ht. split.
      * apply (hpre_frame m); [done|done| |intros y Hy; rewrite V3, V2, V1, !decide_False; [done| |intros ->; done]|done].
        -- intros r Hr Hrt. rewrite A3, A2, A1, !decide_False; [done|by rewrite Ht|]. destruct Hr as [-> | (y & Hy & ->)]; [done|]. intros [= ->]. done.
        -- intros E%head_elem. by destruct (Hl2 y E).
      * apply (hseg_reseat m m3 (Next x)); [done|by rewrite A3, A2, A1, decide_False, decide_True| | |].
        -- intros y Hy. rewrite V3, V2, decide_False, decide_True; [done|done|intros ->; done].
        -- intros y Hy. rewrite A3, A2, A1, !decide_False; [done|destruct (Hl2 y Hy); congruence|congruence].
        -- intros y Hy. destruct (tail_nodup _ _ Hd2 Hy) as [Hh Hy2]. rewrite V3, V2, V1, !decide_False; [done|done|intros ->; done].
    + intros r Hr Hx. rewrite A3, A2, A1, !decide_False; [done| |apply Hx; by left]. destruct Hq as [-> | (y & Hy & ->)]; [done|]. apply Hx. right. set_solver.
    + intros y Hy Hyl. rewrite V3, V2, V1, !decide_False; [done| |done]. intros E%head_elem. set_solver.
  - split; [apply hnode_fields; exists None, None; by rewrite A3, V3, !decide_True|].
    intros h' l' [(<- & <-)|(Hh & H')]%lookup_insert_Some; [set_solver|]. intros Hin. apply Hh. symmetry. apply (hr_one _ _ R _ _ _ _ x H' Hl Hin). set_solver.
  - unfold hlist_unhashed. erewrite hnode_there; [|by rewrite A3, decide_True|by rewrite V3, decide_True]. done.
Qed.

Lemma hlist_add_before_ok m L n h l1 x l2 : hrepr m L -> hfree m L n -> L !! h = Some (l1 ++ x :: l2) ->
  exists m', hlist_add_before m n x = Ret m' /\ hrepr m' (<[h := l1 ++ n :: x :: l2]> L).
Proof.
  intros R [Hn Hf] Hl. destruct (stands_ok _ _ _ _ _ _ R Hl) as (q & [Hp Ha Hv Hs Hq Ht (Hqx & Hx1 & Hx2) Hl2 Hd1 Hd2]). pose proof (Hf _ _ Hl) as Hnl.
  assert (n <> x /\ n ∉ l1 /\ n ∉ l2) as (Hnx & Hn1 & Hn2) by (split_and!; set_solver). assert (q <> Next n) as Hqn by (destruct Hq as [-> | (y & Hy & ->)]; [done|intros [= ->]; done]).
  apply hnode_fields in Hn as (u & v & Hnu & Hnv). assert (at_place m (Next x) = Some (head l2)) as Hxn by (by destruct l2; apply Hs).
  unfold hlist_add_before. rewrite (hnode_there _ _ _ _ Hxn Hv). run. cbn [hl_pprev].
  destruct (set_pprev_ok m n (Some q) v Hnv) as (m1 & -> & A1 & V1). run. destruct (hstore_ok m1 (Next n) (Some x) u) as (m2 & -> & A2 & V2); [by rewrite A1|]. run.
  destruct (set_pprev_ok m2 x (Some (Next n)) (Some q)) as (m3 & -> & A3 & V3); [by rewrite V2, V1, decide_False|]. run.
  assert (get_hnode m3 n = Ret (HlistNode (Some x) (Some q))) as ->
    by (apply hnode_there; [by rewrite A3, A2, decide_True|by rewrite V3, V2, V1, decide_False, decide_True]). run. unfold store_through. cbn [hl_pprev]. run.
  destruct (hstore_ok m3 q (Some n) (Some x)) as (m4 & -> & A4 & V4); [by rewrite A3, A2, A1, decide_False|]. exists m4. split; [done|].
  apply (hrepr_update m m4 L h _ (l1 ++ n :: x :: l2) n R Hl).
  - intros h' l' H' Hin. by apply Hf in H'.
  - intros y Hy. rewrite elem_of_app, !elem_of_cons in *. tauto.
  - apply NoDup_app. split_and!; [done| |by repeat (apply NoDup_cons; split; [set_solver|])].
    intros y Hy1 [->|[->|Hy2]%elem_of_cons]%elem_of_cons; [done..|]. by destruct (Hl2 y Hy2).
  - apply hseg_app. rewrite <- Ht. split.
    + apply (hpre_frame m); [done|done| |intros y Hy; rewrite V4, V3, V2, V1, !decide_False; [done|intros ->; done|intros ->; done]|done].
      intros r Hr Hrt. rewrite A4, A3, A2, A1, !decide_False; [done| |by rewrite Ht]. destruct Hr as [-> | (y & Hy & ->)]; [done|]. intros [= ->]. done.
    + cbn [hseg head]. rewrite A4, decide_True, V4, V3, V2, V1 by done. rewrite decide_False, decide_True by done. split_and!; [done|done| | |].
      * rewrite A4, A3, A2, decide_False, decide_True by congruence. done.
      * by rewrite V4, V3, decide_True.
      * apply (hseg_frame m); [rewrite A4, A3, A2, A1, !decide_False; congruence| |done]. intros y Hy. destruct (Hl2 y Hy) as [Hqy _].
        rewrite A4, A3, A2, A1, V4, V3, V2, V1, !decide_False by set_solver. done.
  - intros r Hr Hx. rewrite A4, A3, A2, A1, !decide_False; [done|apply Hx; by left|]. destruct Hq as [-> | (y & Hy & ->)]; [done|]. apply Hx. right. set_solver.
  - intros y Hy Hyl. rewrite V4, V3, V2, V1, !decide_False by set_solver. done.
Qed.

(** ** Properties *)

(** the heads' lists are sequences of nodes: adding at the front, adding before a node of a list and deleting one do to
    the sequence what they say and leave every other list alone; the deleted node is free again, and says so. *)
Theorem hlist_refines m L h : hrepr m L ->
  (forall l, L !! h = Some l -> hlist_empty m h = Ret (bool_decide (l = []))) /\
  (forall n l, hfree m L n -> L !! h = Some l -> exists m', hlist_add_head m n h = Ret m' /\ hrepr m' (<[h := n :: l]> L)) /\
  (forall n l1 x l2, hfree m L n -> L !! h = Some (l1 ++ x :: l2) ->
    exists m', hlist_add_before m n x = Ret m' /\ hrepr m' (<[h := l1 ++ n :: x :: l2]> L)) /\
  (forall l1 x l2, L !! h = Some (l1 ++ x :: l2) ->
    exists m', hlist_del m x = Ret m' /\ hrepr m' (<[h := l1 ++ l2]> L) /\ hfree m' (<[h := l1 ++ l2]> L) x /\ hlist_unhashed m' x = Ret true).
Proof.
  intros R. split_and!.
  - intros l Hl. assert (at_place m (First h) = Some (head l)) as Hh by (pose proof (hr_seg _ _ R _ _ Hl) as H; destruct l; apply H).
    cbn in Hh. unfold hlist_empty. rewrite Hh. run. f_equal. by destruct l.
  - intros. by apply hlist_add_head_ok.
  - intros. by apply hlist_add_before_ok.
  - intros. by apply hlist_del_ok.
Qed.

Definition del_and_note (x : nat) (st : hmem * list nat) : outcome (hmem * list nat) := m ← hlist_del st.1 x; Ret (m, st.2 ++ [x]).

Lemma walk_deletes h l : forall fuel m L out, hrepr m L -> L !! h = Some l -> (length l <= fuel)%nat ->
  exists m', hlist_walk_safe del_and_note fuel (head l) (m, out) = Ret (m', out ++ l) /\ hrepr m' (<[h := []]> L).
Proof.
  induction l as [|x l IH]; intros fuel m L out R Hl Hf.
  - exists m. rewrite app_nil_r, insert_id by done. by destruct fuel.
  - destruct fuel as [|fuel]; [cbn in Hf; lia|]. cbn in Hf. cbn [head hlist_walk_safe fst].
    pose proof (hr_seg _ _ R _ _ Hl) as (_ & Hv & Hs). assert (at_place m (Next x) = Some (head l)) as Hn by (by destruct l; apply Hs).
    rewrite (hnode_there _ _ _ _ Hn Hv). run. cbn [hl_next]. unfold del_and_note at 2. cbn [fst snd].
    destruct (hlist_del_ok m L h [] x l R Hl) as (m1 & -> & R1 & _). run. cbn [app] in R1.
    destruct (IH fuel m1 _ (out ++ [x]) R1 (lookup_insert_eq _ _ _) ltac:(lia)) as (m2 & -> & R2). exists m2.
    rewrite insert_insert_eq in R2. by rewrite <- app_assoc.
Qed.

(** the loop that reads the next node first may delete the node it is at: it sees every node, in order, and leaves an empty list. *)
Theorem hlist_for_each_safe_deletes fuel m L h l : hrepr m L -> L !! h = Some l -> (length l <= fuel)%nat ->
  exists m', hlist_for_each_safe del_and_note fuel h (m, []) = Ret (m', l) /\ hrepr m' (<[h := []]> L).
Proof.
  intros R Hl Hf. assert (at_place m (First h) = Some (head l)) as Hh by (pose proof (hr_seg _ _ R _ _ Hl) as H; destruct l; apply H).
  unfold hlist_for_each_safe. cbn [fst]. cbn in Hh. rewrite Hh. run. by apply (walk_deletes h l fuel m L []).
Qed.

(** a node that is in no list cannot be put after another one: the pointer that should lead to it is followed before it is set. *)
Theorem hlist_add_after_faults m n next u : is_Some (hm_nodes m !! n) -> hm_nodes m !! next = Some (HlistNode u None) ->
  hlist_add_after m n next = Fault OutOfBounds.
Proof.
  intros [x Hx] Hy. unfold hlist_add_after, get_hnode. rewrite Hx. run. cbn [store]. unfold get_hnode. rewrite Hy. run.
  unfold put_hnode. cbn [hm_nodes]. rewrite lookup_insert_eq. run. reflexivity.
Qed.

(** *** A list of two *)

Definition two_nodes : hmem := Hmem {[ 1%nat := Some 10%nat ]}
  {[ 10%nat := HlistNode (Some 11%nat) (Some (First 1)); 11%nat := HlistNode None (Some (Next 10)); 12%nat := HlistNode None None ]}.

Lemma two_nodes_repr : hrepr two_nodes {[ 1%nat := [10; 11]%nat ]}.
Proof.
  assert (forall h l, ({[ 1%nat := [10; 11]%nat ]} : hlists) !! h = Some l -> h = 1%nat /\ l = [10; 11]%nat) as H
    by (intros h l [<- <-]%lookup_singleton_Some; done).
  split.
  - intros h l [-> ->]%H. by repeat split.
  - intros h l [-> ->]%H. apply (bool_decide_unpack _). by vm_compute.
  - intros h1 l1 h2 l2 x [-> ->]%H [-> ->]%H. done.
Qed.

Lemma hlist_refines_witness : exists m', hlist_del two_nodes 10 = Ret m' /\ hrepr m' (<[1%nat := [11%nat]]> {[ 1%nat := [10; 11]%nat ]}).
Proof.
  destruct (proj2 (proj2 (proj2 (hlist_refines two_nodes _ 1 two_nodes_repr))) [] 10%nat [11%nat] eq_refl) as (m' & E & R & _). by exists m'.
Defined.

Lemma hlist_for_each_safe_deletes_witness : exists m', hlist_for_each_safe del_and_note 2 1 (two_nodes, []) = Ret (m', [10; 11]%nat) /\
  hrepr m' (<[1%nat := []]> {[ 1%nat := [10; 11]%nat ]}).
Proof. apply (hlist_for_each_safe_deletes 2 two_nodes _ 1 [10; 11]%nat two_nodes_repr eq_refl). cbn. lia. Defined.

Lemma hlist_add_after_faults_witness : hlist_add_after two_nodes 10 12 = Fault OutOfBounds.
Proof. apply (hlist_add_after_faults two_nodes 10 12 None); [by eexists|reflexivity]. Defined.
