(* ===== verification/Sha1.v ===== *)
(** * sha1.c: the digest behind the ETags

    The block function keeps a rolling array of sixteen words and renames its
    five registers from round to round instead of moving them; the update
    function works on whole blocks of its input and only buffers what is left
    over. Both are compared with the description of the standard (FIPS 180-4):
    a schedule of eighty words, five moving variables, and a message padded as
    a whole. *)

From Stdlib Require Import ZifyNat.
From S2P Require Import Prelude.
Local Open Scope Z_scope.

(** ** Words *)

Definition SHA_ROL (x n : Z) : Z := Z.lor (uint 32 (Z.shiftl x n)) (Z.shiftr x (32 - n)).
Definition SHA_ROR (x n : Z) : Z := Z.lor (uint 32 (Z.shiftl x (32 - n))) (Z.shiftr x n).

Definition byte_at (p : list Z) (i : nat) : Z := nth i p 0.

Definition get_be32 (p : list Z) : Z :=
  Z.lor (Z.lor (Z.lor (Z.shiftl (byte_at p 0) 24) (Z.shiftl (byte_at p 1) 16))
    (Z.shiftl (byte_at p 2) 8)) (byte_at p 3).

Definition put_be32 (v : Z) : list Z :=
  [uint 8 (Z.shiftr v 24); uint 8 (Z.shiftr v 16); uint 8 (Z.shiftr v 8); uint 8 v].

(** ** The block function

    [regs] holds the variables A, B, C, D and E; [array] the last sixteen words
    of the schedule. The [i]-th argument of the round numbered [t] is the
    variable [i - t] modulo five: A, B, C, D, E in round 0, E, A, B, C, D in
    round 1 and so on. *)

Record block_st := BlockSt { regs : list Z; array : list Z }.

Definition var (t i : nat) : nat := ((i + 80 - t) mod 5)%nat.
Definition arg (s : block_st) (t i : nat) : Z := nth (var t i) (regs s) 0.
Definition word (a : list Z) (x : nat) : Z := nth (x mod 16)%nat a 0.

Definition SHA_SRC (block : list Z) (t : nat) (a : list Z) : Z := get_be32 (drop (t * 4) block).

Definition SHA_MIX (t : nat) (a : list Z) : Z :=
  SHA_ROL (Z.lxor (Z.lxor (Z.lxor (word a (t + 13)) (word a (t + 8))) (word a (t + 2))) (word a t)) 1.

Definition SHA_ROUND (t : nat) (input : nat -> list Z -> Z) (fn : Z -> Z -> Z -> Z) (constant : Z)
    (s : block_st) : block_st :=
  let TEMP := input t (array s) in
  let array := <[(t mod 16)%nat := TEMP]> (array s) in
  let A := arg s t 0 in let B := arg s t 1 in let C := arg s t 2 in
  let D := arg s t 3 in let E := arg s t 4 in
  let E := uint 32 (E + (TEMP + SHA_ROL A 5 + fn B C D + constant)) in
  BlockSt (<[var t 1 := SHA_ROR B 2]> (<[var t 4 := E]> (regs s))) array.

Definition T_0_15 (block : list Z) (t : nat) : block_st -> block_st :=
  SHA_ROUND t (SHA_SRC block) (fun B C D => Z.lxor (Z.land (Z.lxor C D) B) D) 0x5a827999.
Definition T_16_19 (t : nat) : block_st -> block_st :=
  SHA_ROUND t SHA_MIX (fun B C D => Z.lxor (Z.land (Z.lxor C D) B) D) 0x5a827999.
Definition T_20_39 (t : nat) : block_st -> block_st :=
  SHA_ROUND t SHA_MIX (fun B C D => Z.lxor (Z.lxor B C) D) 0x6ed9eba1.
Definition T_40_59 (t : nat) : block_st -> block_st :=
  SHA_ROUND t SHA_MIX (fun B C D => uint 32 (Z.land B C + Z.land D (Z.lxor B C))) 0x8f1bbcdc.
Definition T_60_79 (t : nat) : block_st -> block_st :=
  SHA_ROUND t SHA_MIX (fun B C D => Z.lxor (Z.lxor B C) D) 0xca62c1d6.

(** The round the code writes in place [t]. *)
Definition T (block : list Z) (t : nat) : block_st -> block_st :=
  if (t <? 16)%nat then T_0_15 block t
  else if (t <? 20)%nat then T_16_19 t
  else if (t <? 40)%nat then T_20_39 t
  else if (t <? 60)%nat then T_40_59 t
  else T_60_79 t.

Definition uninit : list Z := replicate 16 0.

Definition blk_SHA1_Block (H block : list Z) : list Z :=
  let s := fold_left (fun s t => T block t s) (seq 0 80) (BlockSt H uninit) in
  zip_with (fun h x => uint 32 (h + x)) H (regs s).

(** ** The context: the length so far, the chaining value, the buffer *)

Record blk_SHA_CTX := Ctx { size : Z; H : list Z; W : list Z }.

Definition blk_SHA1_Init : blk_SHA_CTX :=
  Ctx 0 [0x67452301; 0xefcdab89; 0x98badcfe; 0x10325476; 0xc3d2e1f0] (replicate 64 0).

(** [memcpy] into the buffer. *)
Definition fill (w : list Z) (off : nat) (data : list Z) : list Z :=
  take off w ++ data ++ drop (off + length data) w.

Fixpoint block_loop (fuel : nat) (h data : list Z) : outcome (list Z * list Z) :=
  if (64 <=? length data)%nat then
    match fuel with
    | O => Fault OutOfFuel
    | S fuel => block_loop fuel (blk_SHA1_Block h (take 64 data)) (drop 64 data)
    end
  else Ret (h, data).

Definition update_blocks (size : Z) (h w data : list Z) : outcome blk_SHA_CTX :=
  '(h, data) ← block_loop (length data) h data;
  Ret (Ctx size h (match data with [] => w | _ => fill w 0 data end)).

Definition blk_SHA1_Update (ctx : blk_SHA_CTX) (data : list Z) : outcome blk_SHA_CTX :=
  let lenW := Z.to_nat (Z.land (size ctx) 63) in
  let size := uint 64 (size ctx + Z.of_nat (length data)) in
  if negb (lenW =? 0)%nat then
    let left := min (length data) (64 - lenW) in
    let w := fill (W ctx) lenW (take left data) in
    let lenW := Z.to_nat (Z.land (Z.of_nat (lenW + left)) 63) in
    let data := drop left data in
    if negb (lenW =? 0)%nat then Ret (Ctx size (H ctx) w)
    else update_blocks size (blk_SHA1_Block (H ctx) w) w data
  else update_blocks size (H ctx) (W ctx) data.

Definition pad : list Z := 0x80 :: replicate 63 0.

Definition blk_SHA1_Final (ctx : blk_SHA_CTX) : outcome (list Z * blk_SHA_CTX) :=
  let padlen := put_be32 (uint 32 (Z.shiftr (size ctx) 29)) ++ put_be32 (uint 32 (Z.shiftl (size ctx) 3)) in
  let i := Z.land (size ctx) 63 in
  ctx ← blk_SHA1_Update ctx (take (Z.to_nat (1 + Z.land 63 (55 - i))) pad);
  ctx ← blk_SHA1_Update ctx padlen;
  Ret (concat (put_be32 <$> H ctx), ctx).

(** ** The standard *)

Definition ROTL (n x : Z) : Z := (Z.lor (Z.shiftl x n) (Z.shiftr x (32 - n))) mod 2 ^ 32.
Definition Ch (x y z : Z) : Z := Z.lxor (Z.land x y) (Z.land (Z.lnot x) z).
Definition Parity (x y z : Z) : Z := Z.lxor (Z.lxor x y) z.
Definition Maj (x y z : Z) : Z := Z.lxor (Z.lxor (Z.land x y) (Z.land x z)) (Z.land y z).

Definition f_t (t : nat) : Z -> Z -> Z -> Z :=
  if (t <? 20)%nat then Ch else if (t <? 40)%nat then Parity
  else if (t <? 60)%nat then Maj else Parity.
Definition K_t (t : nat) : Z :=
  if (t <? 20)%nat then 0x5a827999 else if (t <? 40)%nat then 0x6ed9eba1
  else if (t <? 60)%nat then 0x8f1bbcdc else 0xca62c1d6.

Definition be_word (p : list Z) : Z := fold_left (fun a b => a * 256 + b) p 0.

(** The schedule grows one word at a time. *)
Definition next_word (block w : list Z) : list Z :=
  let t := length w in
  w ++ [if (t <? 16)%nat then be_word (take 4 (drop (t * 4) block))
        else ROTL 1 (Z.lxor (Z.lxor (nth (t - 3) w 0) (nth (t - 8) w 0))
                            (Z.lxor (nth (t - 14) w 0) (nth (t - 16) w 0)))].

Definition words (block : list Z) (n : nat) : list Z := Nat.iter n (next_word block) [].
Definition schedule (block : list Z) : list Z := words block 80.

Definition five : Type := Z * Z * Z * Z * Z.

Definition compress (w : list Z) (s : five) (t : nat) : five :=
  let '(a, b, c, d, e) := s in
  ((ROTL 5 a + f_t t b c d + e + K_t t + nth t w 0) mod 2 ^ 32, a, ROTL 30 b, c, d).

Definition chain (h : five) (block : list Z) : five :=
  let '(a, b, c, d, e) := fold_left (compress (schedule block)) (seq 0 80) h in
  let '(h0, h1, h2, h3, h4) := h in
  ((h0 + a) mod 2 ^ 32, (h1 + b) mod 2 ^ 32, (h2 + c) mod 2 ^ 32, (h3 + d) mod 2 ^ 32, (h4 + e) mod 2 ^ 32).

Definition initial : five := (0x67452301, 0xefcdab89, 0x98badcfe, 0x10325476, 0xc3d2e1f0).

(** One bit, zeros up to eight bytes short of a block, the length in bits. *)
Definition padding (msg : list Z) : list Z :=
  let n := Z.of_nat (length msg) in
  0x80 :: replicate (Z.to_nat ((55 - n) mod 64)) 0 ++ rev (le_bytes 8 (8 * n)).

Fixpoint chain_blocks (n : nat) (h : five) (data : list Z) : five :=
  match n with
  | O => h
  | S n => chain_blocks n (chain h (take 64 data)) (drop 64 data)
  end.

Definition be_bytes (v : Z) : list Z := rev (le_bytes 4 v).

Definition sha1 (msg : list Z) : list Z :=
  let data := msg ++ padding msg in
  let '(a, b, c, d, e) := chain_blocks (length data / 64)%nat initial data in
  be_bytes a ++ be_bytes b ++ be_bytes c ++ be_bytes d ++ be_bytes e.

(** ** Words: the code's operations are the standard's *)

Definition w32 (x : Z) : Prop := 0 <= x < 2 ^ 32.

Lemma w32_uint x : w32 (uint 32 x).
Proof. by apply uint_bound. Qed.

Lemma w32_bits x : 0 <= x -> (forall i, 32 <= i -> Z.testbit x i = false) -> w32 x.
Proof.
  intros Hx Hb. enough (x = x mod 2 ^ 32) as -> by apply (w32_uint x).
  apply Z.bits_inj'. intros i Hi. destruct (Z.ltb_spec i 32).
  - by rewrite Z.mod_pow2_bits_low.
  - rewrite Z.mod_pow2_bits_high by lia. by apply Hb.
Qed.

Lemma w32_high x i : w32 x -> 32 <= i -> Z.testbit x i = false.
Proof. intros Hx Hi. rewrite <- (Z.mod_small x (2 ^ 32)) by exact Hx. by apply Z.mod_pow2_bits_high. Qed.

Lemma lor_rot_mod x l r : w32 x -> 0 <= l -> 0 <= r -> l + r = 32 ->
  Z.lor (uint 32 (Z.shiftl x l)) (Z.shiftr x r) = (Z.lor (Z.shiftl x l) (Z.shiftr x r)) mod 2 ^ 32.
Proof.
  intros Hx Hl Hr H. unfold uint. apply Z.bits_inj'. intros i Hi.
  destruct (Z.ltb_spec i 32).
  - rewrite Z.lor_spec, !Z.mod_pow2_bits_low, Z.lor_spec by lia. done.
  - rewrite Z.lor_spec, !Z.mod_pow2_bits_high, Z.shiftr_spec by lia. apply (w32_high _ _ Hx). lia.
Qed.

Lemma SHA_ROL_rotl x n : w32 x -> 0 <= n <= 32 -> SHA_ROL x n = ROTL n x.
Proof. intros. apply lor_rot_mod; [done|lia..]. Qed.

Lemma SHA_ROR_rotl x n : w32 x -> 0 <= n <= 32 -> SHA_ROR x n = ROTL (32 - n) x.
Proof.
  intros. unfold SHA_ROR, ROTL. rewrite lor_rot_mod by (done || lia).
  by replace (32 - (32 - n)) with n by lia.
Qed.

Lemma w32_rotl n x : w32 (ROTL n x).
Proof. by apply Z.mod_pos_bound. Qed.

Lemma w32_lxor x y : w32 x -> w32 y -> w32 (Z.lxor x y).
Proof.
  intros Hx Hy. apply w32_bits; [apply Z.lxor_nonneg; split; intros; [apply Hy|apply Hx]|].
  intros i Hi. by rewrite Z.lxor_spec, !w32_high.
Qed.

Lemma w32_land x y : w32 x -> w32 y -> w32 (Z.land x y).
Proof.
  intros Hx Hy. apply w32_bits; [apply Z.land_nonneg; left; apply Hx|].
  intros i Hi. by rewrite Z.land_spec, !w32_high.
Qed.

Ltac bitwise := apply Z.bits_inj'; intros i Hi;
  repeat first [rewrite Z.lxor_spec | rewrite Z.land_spec | rewrite Z.lnot_spec by lia];
  repeat match goal with |- context [Z.testbit ?x i] => destruct (Z.testbit x i) end; reflexivity.

Lemma choose_ch b c d : Z.lxor (Z.land (Z.lxor c d) b) d = Ch b c d.
Proof. unfold Ch. bitwise. Qed.

Lemma sum_maj b c d : w32 b -> w32 c -> w32 d ->
  uint 32 (Z.land b c + Z.land d (Z.lxor b c)) = Maj b c d.
Proof.
  intros Hb Hc Hd. rewrite Z.add_nocarry_lxor.
  - transitivity (Z.lxor (Z.land b c) (Z.land d (Z.lxor b c))); [|unfold Maj; bitwise].
    apply Z.mod_small. apply w32_lxor; apply w32_land; try done. by apply w32_lxor.
  - apply Z.bits_inj'. intros i Hi. rewrite !Z.land_spec, Z.lxor_spec, Z.bits_0.
    destruct (Z.testbit b i), (Z.testbit c i), (Z.testbit d i); reflexivity.
Qed.

Lemma get_be32_word p : bytes_ok (take 4 p) -> (4 <= length p)%nat -> get_be32 p = be_word (take 4 p).
Proof.
  intros Hb Hl. destruct p as [|a [|b [|c [|d p]]]]; cbn [length] in Hl; try lia. cbn [take] in *.
  rewrite !Forall_cons in Hb. destruct Hb as (Ha & Hb & Hc & Hd & _). apply is_byte_spec in Ha, Hb, Hc, Hd.
  unfold get_be32, byte_at. cbn [nth be_word fold_left].
  assert (Z.lor (Z.shiftl a 24) (Z.shiftl b 16) = Z.shiftl (a * 256 + b) 16) as ->.
  { change 24 with (8 + 16). rewrite <- Z.shiftl_shiftl, <- Z.shiftl_lor by lia. f_equal. by rewrite lor_shiftl. }
  assert (Z.lor (Z.shiftl (a * 256 + b) 16) (Z.shiftl c 8) = Z.shiftl ((a * 256 + b) * 256 + c) 8) as ->.
  { change 16 with (8 + 8). rewrite <- Z.shiftl_shiftl, <- Z.shiftl_lor by lia. f_equal. by rewrite lor_shiftl. }
  rewrite lor_shiftl by lia. rewrite take_0. cbn [be_word fold_left]. lia.
Qed.

Lemma be_word_bound p : bytes_ok p -> 0 <= be_word p < 256 ^ Z.of_nat (length p).
Proof.
  intros Hp. unfold be_word. enough (forall a n, 0 <= a < 256 ^ Z.of_nat n ->
    0 <= fold_left (fun a b => a * 256 + b) p a < 256 ^ Z.of_nat (n + length p)) as H by (by apply (H 0 0%nat)).
  induction Hp as [|b p Hb _ IH]; intros a n Ha; cbn [fold_left length]; [by rewrite Nat.add_0_r|].
  apply is_byte_spec in Hb. rewrite <- Nat.add_succ_comm. apply IH.
  rewrite Nat2Z.inj_succ, Z.pow_succ_r by lia. lia.
Qed.

(** ** The schedule *)

Lemma words_S block n : words block (S n) = next_word block (words block n).
Proof. done. Qed.

Lemma length_words block n : length (words block n) = n.
Proof. induction n as [|n IH]; [done|]. rewrite words_S. unfold next_word. rewrite length_app, IH. cbn. lia. Qed.

Lemma words_prefix block n m j : (j < n <= m)%nat -> nth j (words block m) 0 = nth j (words block n) 0.
Proof.
  intros [Hj Hn]. induction Hn as [|m Hn IH]; [done|]. rewrite <- IH, words_S. unfold next_word.
  rewrite app_nth1; [done|]. rewrite length_words. lia.
Qed.

Lemma schedule_nth block t : (t < 80)%nat ->
  nth t (schedule block) 0 =
    if (t <? 16)%nat then be_word (take 4 (drop (t * 4) block))
    else ROTL 1 (Z.lxor (Z.lxor (nth (t - 3) (schedule block) 0) (nth (t - 8) (schedule block) 0))
                        (Z.lxor (nth (t - 14) (schedule block) 0) (nth (t - 16) (schedule block) 0))).
Proof.
  intros Ht. unfold schedule.
  rewrite (words_prefix block (S t) 80 t), words_S by lia. unfold next_word.
  rewrite app_nth2; rewrite length_words; [|lia]. rewrite Nat.sub_diag. cbn [nth].
  destruct (Nat.ltb_spec t 16); [done|]. by rewrite (words_prefix block t 80 (t - 3)), (words_prefix block t 80 (t - 8)),
    (words_prefix block t 80 (t - 14)), (words_prefix block t 80 (t - 16)) by lia.
Qed.

Definition block_ok (block : list Z) : Prop := length block = 64%nat /\ bytes_ok block.

Lemma schedule_w32 block t : block_ok block -> (t < 80)%nat -> w32 (nth t (schedule block) 0).
Proof.
  intros [Hl Hb] Ht. rewrite schedule_nth by done. destruct (Nat.ltb_spec t 16); [|apply w32_rotl].
  pose proof (be_word_bound (take 4 (drop (t * 4) block))) as H1. rewrite length_take_le in H1 by (rewrite length_drop; lia).
  apply H1. by apply Forall_take, Forall_drop.
Qed.

(** ** The rounds *)

(** Where the five moving variables are after [t] rounds. *)
Definition placed (t : nat) (s : five) : list Z :=
  let '(a, b, c, d, e) := s in
  match (t mod 5)%nat with
  | 0 => [a; b; c; d; e]
  | 1 => [b; c; d; e; a]
  | 2 => [c; d; e; a; b]
  | 3 => [d; e; a; b; c]
  | _ => [e; a; b; c; d]
  end%nat.

Definition five_ok (s : five) : Prop :=
  let '(a, b, c, d, e) := s in w32 a /\ w32 b /\ w32 c /\ w32 d /\ w32 e.

Record sim (block : list Z) (t : nat) (s : block_st) (v : five) : Prop := {
  sim_regs : regs s = placed t v;
  sim_len : length (array s) = 16%nat;
  sim_words : forall j, (j < t <= j + 16)%nat -> word (array s) j = nth j (schedule block) 0;
  sim_ok : five_ok v;
}.

Lemma var_cases t : (t < 80)%nat ->
  (S t mod 5)%nat = (S (t mod 5) mod 5)%nat /\
  forall i, (i < 5)%nat -> var t i = ((i + 5 - t mod 5) mod 5)%nat.
Proof.
  intros Ht. unfold var. split; [|intros i Hi]; div_lia.
Qed.

Lemma lookup_placed t s : (t < 80)%nat -> let '(a, b, c, d, e) := s in
  nth (var t 0) (placed t s) 0 = a /\ nth (var t 1) (placed t s) 0 = b /\
  nth (var t 2) (placed t s) 0 = c /\ nth (var t 3) (placed t s) 0 = d /\
  nth (var t 4) (placed t s) 0 = e /\
  forall e' b', <[var t 1 := b']> (<[var t 4 := e']> (placed t s)) = placed (S t) (e', a, b', c, d).
Proof.
  intros Ht. destruct s as [[[[a b] c] d] e]. destruct (var_cases t Ht) as [Hs Hv].
  rewrite !Hv by lia. unfold placed. rewrite Hs.
  assert (t mod 5 < 5)%nat as Hm by (apply Nat.mod_upper_bound; lia).
  generalize dependent (t mod 5)%nat. intros m _ _ Hm.
  destruct m as [|[|[|[|[|m]]]]]; [split_and!; reflexivity..|lia].
Qed.

Lemma word_insert a t x j : length a = 16%nat ->
  word (<[(t mod 16)%nat := x]> a) j = if decide (j mod 16 = t mod 16)%nat then x else word a j.
Proof.
  intros Ha. unfold word. rewrite !nth_lookup.
  assert (t mod 16 < 16)%nat by (apply Nat.mod_upper_bound; lia).
  destruct (decide _) as [->|Hn]; [|by rewrite list_lookup_insert_ne by congruence].
  by rewrite list_lookup_insert_eq by lia.
Qed.

Definition input_of (block : list Z) (t : nat) : list Z -> Z :=
  if (t <? 16)%nat then SHA_SRC block t else SHA_MIX t.

Lemma input_schedule block t s v : block_ok block -> (t < 80)%nat -> sim block t s v ->
  input_of block t (array s) = nth t (schedule block) 0.
Proof.
  intros Hb Ht [_ Hl Hw _]. rewrite schedule_nth by done. unfold input_of. destruct (Nat.ltb_spec t 16).
  - destruct Hb as [Hlen Hbytes]. unfold SHA_SRC.
    apply get_be32_word; [by apply Forall_take, Forall_drop|rewrite length_drop; lia].
  - unfold SHA_MIX.
    assert (forall k, (1 <= k <= 16)%nat -> word (array s) (t + (16 - k)) = nth (t - k) (schedule block) 0) as Hk.
    { intros k Hk. rewrite <- Hw by lia. unfold word. f_equal. div_lia. }
    pose proof (Hk 3%nat) as H3. pose proof (Hk 8%nat) as H8. pose proof (Hk 14%nat) as H14. pose proof (Hk 16%nat) as H16.
    cbn [Nat.sub] in H3, H8, H14, H16. rewrite Nat.add_0_r in H16. rewrite H3, H8, H14, H16 by lia.
    rewrite SHA_ROL_rotl; [f_equal; bitwise| |lia].
    repeat apply w32_lxor; apply (schedule_w32 _ _ Hb); lia.
Qed.

Lemma round_sim block t s v input fn k : block_ok block -> (t < 80)%nat -> sim block t s v ->
  input t (array s) = nth t (schedule block) 0 ->
  (forall b c d, w32 b -> w32 c -> w32 d -> fn b c d = f_t t b c d) -> k = K_t t ->
  sim block (S t) (SHA_ROUND t input fn k s) (compress (schedule block) v t).
Proof.
  intros Hb Ht [Hr Hl Hw Hok] Hi Hfn ->. destruct v as [[[[a b] c] d] e].
  destruct (lookup_placed t (a, b, c, d, e) Ht) as (Ha & Hb' & Hc & Hd & He & Hins).
  destruct Hok as (Oa & Ob & Oc & Od & Oe).
  unfold SHA_ROUND, arg. rewrite Hr, Ha, Hb', Hc, Hd, He, Hi. split.
  - cbn [regs]. rewrite Hins. unfold compress. rewrite (SHA_ROL_rotl a 5), Hfn, (SHA_ROR_rotl b 2) by (done || lia).
    unfold uint. do 5 f_equal. lia.
  - cbn [array]. by rewrite length_insert.
  - intros j Hj. cbn [array]. rewrite word_insert by done. destruct (decide _) as [E|].
    + assert (j = t) as -> by div_lia. done.
    + apply Hw. assert (j <> t) by congruence. lia.
  - unfold five_ok, compress. split_and!; try done; apply w32_uint || apply w32_rotl.
Qed.

Lemma T_sim block t s v : block_ok block -> (t < 80)%nat -> sim block t s v ->
  sim block (S t) (T block t s) (compress (schedule block) v t).
Proof.
  intros Hb Ht Hs. pose proof (input_schedule _ _ _ _ Hb Ht Hs) as Hi. unfold input_of in Hi. unfold T.
  destruct (Nat.ltb_spec t 16); [|destruct (Nat.ltb_spec t 20); [|destruct (Nat.ltb_spec t 40); [|destruct (Nat.ltb_spec t 60)]]].
  all: apply round_sim; [done|done|done|exact Hi| |]; unfold f_t, K_t;
    repeat match goal with |- context [(?a <? ?b)%nat] => destruct (Nat.ltb_spec a b); try lia end;
    intros; auto using choose_ch, sum_maj.
Qed.

Lemma rounds_sim block v : block_ok block -> five_ok v -> forall n, (n <= 80)%nat ->
  sim block n (fold_left (fun s t => T block t s) (seq 0 n) (BlockSt (placed 0 v) uninit))
    (fold_left (compress (schedule block)) (seq 0 n) v).
Proof.
  intros Hb Hv. induction n as [|n IH]; intros Hn; [by split; [..|intros; lia|]|].
  rewrite seq_S, !fold_left_app. cbn [fold_left Nat.add]. apply T_sim; [done|lia|]. apply IH. lia.
Qed.

Definition five_list (v : five) : list Z := placed 0 v.

Lemma block_chain v block : block_ok block -> five_ok v ->
  blk_SHA1_Block (five_list v) block = five_list (chain v block) /\ five_ok (chain v block).
Proof.
  intros Hb Hv. unfold blk_SHA1_Block, chain.
  destruct (rounds_sim block v Hb Hv 80) as [Hr _ _ _]; [lia|]. unfold five_list. rewrite Hr.
  destruct (fold_left _ _ v) as [[[[a b] c] d] e]. destruct v as [[[[h0 h1] h2] h3] h4].
  split; [reflexivity|]. unfold five_ok. split_and!; apply w32_uint.
Qed.

#[local] Opaque blk_SHA1_Block chain schedule.

(** ** Blocks of a message *)

Lemma bytes_take_block data : bytes_ok data -> (64 <= length data)%nat -> block_ok (take 64 data).
Proof. intros Hb Hl. split; [by rewrite length_take_le|by apply Forall_take]. Qed.

Lemma chain_blocks_app n m h data :
  chain_blocks (n + m) h data = chain_blocks m (chain_blocks n h data) (drop (64 * n) data).
Proof.
  revert h data. induction n as [|n IH]; intros h data; [by rewrite Nat.mul_0_r, drop_0|].
  cbn [Nat.add chain_blocks]. rewrite IH, drop_drop. do 2 f_equal. lia.
Qed.

Lemma chain_blocks_prefix n h a b : (64 * n <= length a)%nat -> chain_blocks n h (a ++ b) = chain_blocks n h a.
Proof.
  revert h a. induction n as [|n IH]; intros h a Hl; [done|]. cbn [chain_blocks].
  rewrite take_app_le, drop_app_le by lia. apply IH. rewrite length_drop. lia.
Qed.

Lemma chain_blocks_ok n h data : bytes_ok data -> (64 * n <= length data)%nat -> five_ok h ->
  five_ok (chain_blocks n h data).
Proof.
  revert h data. induction n as [|n IH]; intros h data Hb Hl Hh; [done|]. cbn [chain_blocks].
  apply IH; [by apply Forall_drop|rewrite length_drop; lia|].
  apply block_chain; [apply bytes_take_block; [done|lia]|done].
Qed.

Lemma block_loop_ok fuel v data : bytes_ok data -> (length data <= fuel)%nat -> five_ok v ->
  block_loop fuel (five_list v) data =
    Ret (five_list (chain_blocks (length data / 64) v data), drop (64 * (length data / 64)) data).
Proof.
  revert v data. induction fuel as [|fuel IH]; intros v data Hb Hf Hv; cbn [block_loop].
  - destruct data; [done|cbn in Hf; lia].
  - destruct (Nat.leb_spec 64 (length data)) as [Hl|Hl].
    + destruct (block_chain v (take 64 data) (bytes_take_block _ Hb Hl) Hv) as [-> Hc].
      rewrite IH; [|by apply Forall_drop|rewrite length_drop; lia|done]. rewrite length_drop.
      assert (length data / 64 = S ((length data - 64) / 64))%nat as -> by div_lia.
      cbn [chain_blocks]. rewrite drop_drop. do 3 f_equal. lia.
    + by rewrite Nat.div_small by lia.
Qed.

(** What a context says about the message so far. *)
Record ctx_ok (msg : list Z) (c : blk_SHA_CTX) : Prop := {
  ctx_size : size c = uint 64 (Z.of_nat (length msg));
  ctx_chain : H c = five_list (chain_blocks (length msg / 64) initial msg);
  ctx_len : length (W c) = 64%nat;
  ctx_rest : take (length msg mod 64) (W c) = drop (64 * (length msg / 64)) msg;
}.

Lemma initial_ok : five_ok initial.
Proof. unfold five_ok, initial, w32. lia. Qed.

Lemma whole_ok msg : bytes_ok msg -> five_ok (chain_blocks (length msg / 64) initial msg).
Proof. intros Hb. apply chain_blocks_ok; [done|div_lia|apply initial_ok]. Qed.

Lemma init_ok : ctx_ok [] blk_SHA1_Init.
Proof. by split. Qed.

Lemma land_63 n : Z.to_nat (Z.land (uint 64 (Z.of_nat n)) 63) = (n mod 64)%nat.
Proof.
  change 63 with (Z.ones 6). rewrite Z.land_ones by lia. unfold uint.
  div_lia.
Qed.

Lemma length_fill w off data : (off + length data <= length w)%nat -> length (fill w off data) = length w.
Proof. intros. unfold fill. rewrite !length_app, length_take, length_drop. lia. Qed.

Lemma take_fill w off data : (off + length data <= length w)%nat ->
  take (off + length data) (fill w off data) = take off w ++ data.
Proof.
  intros Hl. unfold fill. rewrite app_assoc, take_app_length'; [done|]. rewrite length_app, length_take. lia.
Qed.

Lemma uint_add w a b : uint w (uint w a + b) = uint w (a + b).
Proof. unfold uint. by rewrite Zplus_mod_idemp_l. Qed.

Lemma update_blocks_ok sz msg w data : bytes_ok (msg ++ data) -> (length msg mod 64 = 0)%nat -> length w = 64%nat ->
  sz = uint 64 (Z.of_nat (length (msg ++ data))) ->
  exists c, update_blocks sz (five_list (chain_blocks (length msg / 64) initial msg)) w data = Ret c /\
    ctx_ok (msg ++ data) c.
Proof.
  intros Hb Hm Hw Hsz. pose proof Hb as [Hbm Hbd]%Forall_app. unfold update_blocks.
  rewrite block_loop_ok by (done || by apply whole_ok). run.
  set (k := (length msg / 64)%nat). set (j := (length data / 64)%nat).
  assert (length (msg ++ data) / 64 = k + j)%nat as Hk by (rewrite length_app; subst k j; div_lia).
  assert (length msg = 64 * k)%nat as Hmk by (subst k; div_lia).
  assert (drop (64 * (k + j)) (msg ++ data) = drop (64 * j) data) as Hd.
  { rewrite drop_app_ge by lia. f_equal. lia. }
  assert (length (drop (64 * j) data) = length (msg ++ data) mod 64)%nat as Hl.
  { rewrite length_drop, length_app. subst j k. div_lia. }
  eexists. split; [reflexivity|]. split; cbn [size H W].
  - done.
  - rewrite Hk, chain_blocks_app, (chain_blocks_prefix k), drop_app_length' by lia. done.
  - destruct (drop _ data) as [|x l] eqn:E; [done|]. rewrite length_fill; [done|]. rewrite Hl, Hw. div_lia.
  - rewrite Hk, Hd, <- Hl. destruct (drop (64 * j) data) as [|x l] eqn:E; [done|].
    etransitivity; [apply (take_fill w 0 (x :: l))|by rewrite take_0]. rewrite Hw, Hl. div_lia.
Qed.

Lemma update_ok msg c data : ctx_ok msg c -> bytes_ok (msg ++ data) ->
  exists c', blk_SHA1_Update c data = Ret c' /\ ctx_ok (msg ++ data) c'.
Proof.
  intros [Hs Hc Hw Hr] Hb. unfold blk_SHA1_Update. rewrite Hs, land_63.
  set (n := (length msg mod 64)%nat) in *.
  assert (uint 64 (uint 64 (Z.of_nat (length msg)) + Z.of_nat (length data)) =
    uint 64 (Z.of_nat (length (msg ++ data)))) as -> by (rewrite uint_add, length_app; f_equal; lia).
  destruct (Nat.eqb_spec n 0) as [Hn|Hn]; cbn [negb].
  { rewrite Hc. by apply update_blocks_ok. }
  set (k := min (length data) (64 - n)).
  assert (length (take k data) = k) as Hk by (rewrite length_take; lia).
  assert (n + k <= 64)%nat as Hnk by (subst k n; div_lia).
  assert (Z.to_nat (Z.land (Z.of_nat (n + k)) 63) = (n + k) mod 64)%nat as ->.
  { rewrite <- (uint_small 64 (Z.of_nat (n + k))) by lia. apply land_63. }
  assert (take (n + k) (fill (W c) n (take k data)) = drop (64 * (length msg / 64)) msg ++ take k data) as Ht.
  { rewrite <- Hr, <- (take_fill (W c) n (take k data)), Hk by lia. done. }
  pose proof (length_fill (W c) n (take k data) ltac:(lia)) as Hlw. rewrite Hw in Hlw.
  destruct (Nat.eqb_spec ((n + k) mod 64) 0) as [He|He]; cbn [negb].
  - assert (n + k = 64)%nat as Hfull by div_lia. rewrite Hfull, take_ge in Ht by lia.
    
    assert (msg ++ data = (msg ++ take k data) ++ drop k data) as Hsplit by (by rewrite <- app_assoc, take_drop).
    rewrite Hsplit in Hb |- *.
    assert (length (msg ++ take k data) = 64 * S (length msg / 64))%nat as Hl'.
    { rewrite length_app, Hk. subst n. div_lia. }
    assert (blk_SHA1_Block (H c) (fill (W c) n (take k data)) =
      five_list (chain_blocks (length (msg ++ take k data) / 64) initial (msg ++ take k data))) as ->.
    { pose proof Hb as [[Hbm Hbk]%Forall_app _]%Forall_app.
      assert (64 * (length msg / 64) <= length msg)%nat as Hle by div_lia.
      rewrite Hl', Nat.mul_comm, Nat.div_mul, <- Nat.add_1_r by done.
      rewrite chain_blocks_app, chain_blocks_prefix, drop_app_le, <- Ht by done.
      cbn [chain_blocks]. rewrite (take_ge (fill _ _ _)), Hc by lia.
      apply block_chain; [split; [exact Hlw|]|by apply whole_ok]. rewrite Ht. apply Forall_app. split; [by apply Forall_drop|done]. }
    apply update_blocks_ok; [done|rewrite Hl'; div_lia|done|done].
  - assert (k = length data) as Hkd by (subst k n; div_lia). 
    assert (take k data = data) as Htk by (apply take_ge; lia). rewrite Htk in Ht, Hlw |- *.
    clearbody k. subst k.
    assert (length (msg ++ data) / 64 = length msg / 64)%nat as Hq by (rewrite length_app; subst n; div_lia).
    assert (length (msg ++ data) mod 64 = n + length data)%nat as Hq' by (rewrite length_app; subst n; div_lia).
    eexists. split; [reflexivity|]. split; cbn [size H W]; [done| |done|].
    + rewrite Hq, chain_blocks_prefix by div_lia. done.
    + rewrite Hq, Hq', Ht, drop_app_le by div_lia. done.
Qed.

(** ** The padding and the digest *)

Lemma put_be32_bytes v : put_be32 v = be_bytes v.
Proof.
  assert (forall x, Z.land x 255 = uint 8 x) as H.
  { intros x. change 255 with (Z.ones 8). by rewrite Z.land_ones. }
  unfold put_be32, be_bytes. cbn [le_bytes rev app]. by rewrite !H, !Z.shiftr_shiftr.
Qed.

Lemma land_byte_uint w x : 8 <= w -> Z.land (uint w x) 255 = Z.land x 255.
Proof.
  intros Hw. apply Z.bits_inj'. intros i Hi. rewrite !Z.land_spec. unfold uint. destruct (Z.ltb_spec i w).
  - by rewrite Z.mod_pow2_bits_low.
  - rewrite (Z.bits_above_log2 255 i); [by rewrite !andb_false_r|done|cbn; lia].
Qed.

Lemma le_bytes_uint n w x : 8 * Z.of_nat n <= w -> le_bytes n (uint w x) = le_bytes n x.
Proof.
  revert w x. induction n as [|n IH]; intros w x Hw; [done|]. cbn [le_bytes]. rewrite land_byte_uint by lia. f_equal.
  assert (Z.shiftr (uint w x) 8 = uint (w - 8) (Z.shiftr x 8)) as ->; [|apply IH; lia].
  unfold uint. apply Z.bits_inj'. intros i Hi. rewrite Z.shiftr_spec by lia. destruct (Z.ltb_spec (i + 8) w).
  - by rewrite !Z.mod_pow2_bits_low, Z.shiftr_spec by lia.
  - by rewrite !Z.mod_pow2_bits_high by lia.
Qed.

Lemma le_bytes_app n m x : le_bytes (n + m) x = le_bytes n x ++ le_bytes m (Z.shiftr x (8 * Z.of_nat n)).
Proof.
  revert x. induction n as [|n IH]; intros x; [by rewrite Z.shiftr_0_r|]. cbn [Nat.add le_bytes app].
  rewrite IH, Z.shiftr_shiftr by lia. by replace (8 * Z.of_nat (S n)) with (8 + 8 * Z.of_nat n) by lia.
Qed.

Lemma padlen_bytes n : 0 <= n ->
  put_be32 (uint 32 (Z.shiftr (uint 64 n) 29)) ++ put_be32 (uint 32 (Z.shiftl (uint 64 n) 3)) = rev (le_bytes 8 (8 * n)).
Proof.
  intros Hn. change 8%nat with (4 + 4)%nat. rewrite le_bytes_app, rev_app_distr, !put_be32_bytes. unfold be_bytes.
  rewrite !le_bytes_uint by done. f_equal; f_equal.
  - rewrite <- (le_bytes_uint 4 32 (Z.shiftr (uint 64 n) 29)), <- (le_bytes_uint 4 32 (Z.shiftr (8 * n) _)) by done.
    f_equal. unfold uint. rewrite !Z.shiftr_div_pow2 by lia. change (2 ^ (8 * Z.of_nat 4)) with (2 ^ 32). div_lia.
  - rewrite <- (le_bytes_uint 4 32 (Z.shiftl (uint 64 n) 3)), <- (le_bytes_uint 4 32 (8 * n)) by done.
    f_equal. unfold uint. rewrite Z.shiftl_mul_pow2 by lia. div_lia.
Qed.

Lemma pad_length n : Z.to_nat (1 + Z.land 63 (55 - Z.land (uint 64 (Z.of_nat n)) 63)) =
  S (Z.to_nat ((55 - Z.of_nat n) mod 64)).
Proof.
  pose proof (land_63 n) as Hn. assert (0 <= Z.land (uint 64 (Z.of_nat n)) 63) as H0 by (apply Z.land_nonneg; lia).
  rewrite (Z.land_comm 63). change (Z.land (55 - Z.land (uint 64 (Z.of_nat n)) 63) 63) with
    (Z.land (55 - Z.land (uint 64 (Z.of_nat n)) 63) (Z.ones 6)). rewrite (Z.land_ones _ 6) by lia.
  generalize dependent (Z.land (uint 64 (Z.of_nat n)) 63). intros i Hi. change (2 ^ 6) with 64. div_lia.
Qed.

Lemma padding_blocks msg : (length (msg ++ padding msg) mod 64 = 0)%nat.
Proof.
  unfold padding. autorewrite with lengths. cbn [length]. autorewrite with lengths. div_lia.
Qed.

Lemma padding_bytes msg : bytes_ok (padding msg).
Proof.
  unfold padding. constructor; [done|]. apply Forall_app. split; [by apply Forall_replicate|].
  apply Forall_rev. auto with widths.
Qed.

Lemma final_ok msg c : bytes_ok msg -> ctx_ok msg c -> exists c', blk_SHA1_Final c = Ret (sha1 msg, c').
Proof.
  intros Hb Hc. unfold blk_SHA1_Final. rewrite (ctx_size _ _ Hc), pad_length, padlen_bytes by lia.
  set (k := Z.to_nat ((55 - Z.of_nat (length msg)) mod 64)).
  assert (take (S k) pad = 0x80 :: replicate k 0) as ->.
  { unfold pad. cbn [take]. f_equal. apply take_replicate_le || (rewrite take_replicate; f_equal). subst k. div_lia. }
  assert ((msg ++ 0x80 :: replicate k 0) ++ rev (le_bytes 8 (8 * Z.of_nat (length msg))) = msg ++ padding msg) as Happ.
  { rewrite <- app_assoc. done. }
  assert (bytes_ok (msg ++ padding msg)) as Hall by (apply Forall_app; split; [done|apply padding_bytes]).
  rewrite <- Happ in Hall. pose proof Hall as [Hall1 _]%Forall_app.
  destruct (update_ok msg c (0x80 :: replicate k 0) Hc) as (c1 & -> & Hc1); [done|]. run.
  destruct (update_ok _ c1 (rev (le_bytes 8 (8 * Z.of_nat (length msg)))) Hc1) as (c2 & -> & Hc2); [done|]. run.
  exists c2. do 2 f_equal. rewrite (ctx_chain _ _ Hc2), Happ. unfold sha1.
  destruct (chain_blocks _ _ _) as [[[[a b] d] e] f]. unfold five_list, placed. change (0 mod 5)%nat with 0%nat.
  cbn [fmap list_fmap concat].
  by rewrite !put_be32_bytes, app_nil_r.
Qed.

(** The message arrives in pieces. *)
Fixpoint blk_SHA1_Updates (c : blk_SHA_CTX) (pieces : list (list Z)) : outcome blk_SHA_CTX :=
  match pieces with
  | [] => Ret c
  | p :: pieces => c ← blk_SHA1_Update c p; blk_SHA1_Updates c pieces
  end.

Lemma updates_ok msg c pieces : ctx_ok msg c -> bytes_ok (msg ++ concat pieces) ->
  exists c', blk_SHA1_Updates c pieces = Ret c' /\ ctx_ok (msg ++ concat pieces) c'.
Proof.
  revert msg c. induction pieces as [|p ps IH]; intros msg c Hc Hb; cbn [concat blk_SHA1_Updates] in *.
  - rewrite app_nil_r. by exists c.
  - rewrite app_assoc in Hb |- *. pose proof Hb as [Hb1 _]%Forall_app.
    destruct (update_ok msg c p Hc Hb1) as (c1 & -> & Hc1). run. by apply IH.
Qed.

(** ** Properties *)

(** C11: however a message is cut into pieces, initialising, updating with each
    piece and finishing gives the SHA-1 digest of the standard for the whole
    message: the rolling sixteen-word schedule, the renamed registers, the
    buffering of partial blocks and the padding are correct for every length,
    and the update loop always ends. *)
Theorem sha1_standard pieces : bytes_ok (concat pieces) ->
  exists c c', blk_SHA1_Updates blk_SHA1_Init pieces = Ret c /\
    blk_SHA1_Final c = Ret (sha1 (concat pieces), c').
Proof.
  intros Hb. destruct (updates_ok [] blk_SHA1_Init pieces init_ok Hb) as (c & Hc & Hok).
  destruct (final_ok (concat pieces) c Hb Hok) as (c' & Hf). by exists c, c'.
Qed.

(** The digest of "abc" given by the standard, fed in two pieces. *)
Lemma sha1_standard_witness :
  sha1 (lit "abc") = [0xa9; 0x99; 0x3e; 0x36; 0x47; 0x06; 0x81; 0x6a; 0xba; 0x3e;
                      0x25; 0x71; 0x78; 0x50; 0xc2; 0x6c; 0x9c; 0xd0; 0xd8; 0x9d] /\
  exists c c', blk_SHA1_Updates blk_SHA1_Init [lit "a"; lit "bc"] = Ret c /\
    blk_SHA1_Final c = Ret (sha1 (lit "abc"), c').
Proof. split; [by vm_compute|]. apply (sha1_standard [lit "a"; lit "bc"]). by_decide. Defined.
