(* ===== verification/Memory.v ===== *)
(** * Memory: bytes at addresses

    The allocators hand out addresses and keep data of their own in the
    objects; memory is a finite map from addresses to bytes. *)

From S2P Require Import Prelude.
Local Open Scope Z_scope.

(** ** Memory *)

Abbreviation memory := (gmap Z Z).

Fixpoint write_mem (m : memory) (a : Z) (l : list Z) : memory :=
  match l with
  | [] => m
  | b :: l => <[a := b]> (write_mem m (a + 1) l)
  end.

(** Reading a byte that was never written faults. *)
Fixpoint read_mem (m : memory) (a : Z) (n : nat) : outcome (list Z) :=
  match n with
  | O => Ret []
  | S n => b ← of_option OutOfBounds (m !! a); l ← read_mem m (a + 1) n; Ret (b :: l)
  end.

(** A pointer-sized word. *)
Definition ptr_sz : Z := 8.
Definition write_ptr (m : memory) (a p : Z) : memory := write_mem m a (le_bytes 8 p).
Definition read_ptr (m : memory) (a : Z) : outcome Z := l ← read_mem m a 8; Ret (le_val l).

(** ** Reading what was written *)

Lemma write_mem_outside m a l x : x < a \/ a + Z.of_nat (length l) <= x -> write_mem m a l !! x = m !! x.
Proof.
  revert a. induction l as [|b l IH]; intros a Hx; [done|]. cbn [length write_mem] in *.
  rewrite lookup_insert_ne by lia. apply IH. lia.
Qed.

Lemma read_mem_ext m m' a n : (forall x, a <= x < a + Z.of_nat n -> m' !! x = m !! x) -> read_mem m' a n = read_mem m a n.
Proof.
  revert a. induction n as [|n IH]; intros a H; [done|]. cbn [read_mem]. rewrite H by lia.
  destruct (of_option _ _); [|done]. run. rewrite IH; [done|]. intros x Hx. apply H. lia.
Qed.

Lemma read_write m a l : read_mem (write_mem m a l) a (length l) = Ret l.
Proof.
  revert a. induction l as [|b l IH]; intros a; [done|]. cbn [length read_mem write_mem].
  rewrite lookup_insert_eq. run. rewrite (read_mem_ext (write_mem m (a + 1) l)); [by rewrite IH|].
  intros x Hx. by rewrite lookup_insert_ne by lia.
Qed.

Lemma read_ptr_write m a p : 0 <= p < 2 ^ 64 -> read_ptr (write_ptr m a p) a = Ret p.
Proof.
  intros Hp. unfold read_ptr, write_ptr.
  pose proof (read_write m a (le_bytes 8 p)) as H. rewrite length_le_bytes in H. rewrite H. run. by rewrite le_bytes_val.
Qed.

Lemma read_ptr_outside m a l x : x + 8 <= a \/ a + Z.of_nat (length l) <= x ->
  read_ptr (write_mem m a l) x = read_ptr m x.
Proof.
  intros Hx. unfold read_ptr. rewrite (read_mem_ext m); [done|]. intros y Hy. apply write_mem_outside. lia.
Qed.

(** ** Ranges that do not overlap *)

Definition apart2 (a sa b sb : Z) : Prop := a + sa <= b \/ b + sb <= a.
Definition apart (sz a b : Z) : Prop := apart2 a sz b sz.

Lemma apart2_sym a sa b sb : apart2 a sa b sb -> apart2 b sb a sa.
Proof. unfold apart2. lia. Qed.
