(* ===== verification/Hgang.v ===== *)
(** * hgang.c: pools of objects of one size

    Objects are carved out of slabs the pool obtains from [malloc]; an object
    that is returned is linked, through its own first bytes, into a free list.
    Memory is therefore explicit here: a finite map from addresses to bytes,
    in which clients write to the objects they hold. [malloc]'s answer is an
    argument of the operations that may call it. *)

From S2P Require Import Prelude Memory.
Local Open Scope Z_scope.

(** ** The pool *)

(** The list of slabs is the list of their addresses. *)
Record hgang := Hgang {
  obj_size : Z;
  next_obj : Z;
  slab_size : Z;
  slabs : list Z;
  free : Z;
}.

Definition hgang_object_size (h : hgang) : Z := obj_size h.

Definition sizeof_hdr : Z := ptr_sz.
Definition first_byte (hdr : Z) : Z := hdr + sizeof_hdr.
Definition last_byte (h : hgang) (hdr : Z) : Z := hdr + slab_size h.
Definition obj_in_slab (h : hgang) (hdr obj : Z) : bool :=
  (first_byte hdr <=? obj) && (obj + obj_size h <=? last_byte h hdr).

(** [next_obj] is not initialised: its value is arbitrary. *)
Definition hgang_new (malloc_ok : bool) (junk : Z) (size slab_objs : Z) : option hgang :=
  if size =? 0 then None
  else if negb malloc_ok then None
  else
    let size := if size <? ptr_sz then ptr_sz else size in
    let slab :=
      if negb (slab_objs =? 0) then uint 64 (sizeof_hdr + slab_objs * size)
      else if size <? 8192 then sizeof_hdr + (8192 - 8192 mod size)
      else uint 64 (sizeof_hdr + 4 * size) in
    Some (Hgang size junk slab [] 0).

Definition hgang_alloc_slow (malloc : option Z) (h : hgang) : hgang * Z :=
  match malloc with
  | None => (h, 0)
  | Some hdr =>
    let ret := hdr + sizeof_hdr in
    (Hgang (obj_size h) (ret + obj_size h) (slab_size h) (hdr :: slabs h) (free h), ret)
  end.

Definition with_free (h : hgang) (p : Z) : hgang :=
  Hgang (obj_size h) (next_obj h) (slab_size h) (slabs h) p.
Definition with_next (h : hgang) (p : Z) : hgang :=
  Hgang (obj_size h) p (slab_size h) (slabs h) (free h).

Definition hgang_alloc (malloc : option Z) (h : hgang) (m : memory) : outcome (hgang * Z) :=
  if negb (free h =? 0) then
    let ret := free h in
    next ← read_ptr m (free h);
    Ret (with_free h next, ret)
  else
    match slabs h with
    | hdr :: _ =>
      let ret := next_obj h in
      if obj_in_slab h hdr ret then Ret (with_next h (next_obj h + obj_size h), ret)
      else Ret (hgang_alloc_slow malloc h)
    | [] => Ret (hgang_alloc_slow malloc h)
    end.

Definition hgang_return (h : hgang) (m : memory) (obj : Z) : outcome (hgang * memory) :=
  if obj =? 0 then Ret (h, m)
  else
    assert! ptr_sz <=? obj_size h ;;
    let m := write_ptr m obj (free h) in
    Ret (with_free h obj, m).

Definition hgang_alloc0 (malloc : option Z) (h : hgang) (m : memory) : outcome (hgang * memory * Z) :=
  '(h, ret) ← hgang_alloc malloc h m;
  let m := if negb (ret =? 0) then write_mem m ret (replicate (Z.to_nat (obj_size h)) 0) else m in
  Ret (h, m, ret).

(** The blocks given back to [malloc]'s pool, the descriptor last. *)
Definition hgang_free (h : hgang) (self : Z) : list Z := slabs h ++ [self].

Section foreach.
Context {A : Type} (cb : A -> Z -> bool * A).

(** [for (obj = ...; in(obj); obj += obj_size) if (!cb(priv, obj)) return 0;] *)
Fixpoint foreach_slab (fuel : nat) (inside : Z -> bool) (size obj : Z) (priv : A) : outcome (bool * A) :=
  if inside obj then
    match fuel with
    | O => Fault OutOfFuel
    | S fuel =>
      let (ok, priv) := cb priv obj in
      if (ok : bool) then foreach_slab fuel inside size (obj + size) priv else Ret (false, priv)
    end
  else Ret (true, priv).

Fixpoint foreach_slabs (fuel : nat) (h : hgang) (l : list Z) (priv : A) : outcome (bool * A) :=
  match l with
  | [] => Ret (true, priv)
  | hdr :: l =>
    '(ok, priv) ← foreach_slab fuel (obj_in_slab h hdr) (obj_size h) (first_byte hdr) priv;
    if (ok : bool) then foreach_slabs fuel h l priv else Ret (false, priv)
  end.

Definition hgang_foreach (fuel : nat) (h : hgang) (priv : A) : outcome (bool * A) :=
  match slabs h with
  | [] => Ret (true, priv)
  | hdr :: rest =>
    assert! negb (free h =? 0) ;;
    '(ok, priv) ← foreach_slab fuel (fun obj => obj + obj_size h <=? next_obj h) (obj_size h) (first_byte hdr) priv;
    if (ok : bool) then foreach_slabs fuel h rest priv else Ret (false, priv)
  end.
End foreach.

(** ** The free list in memory *)

Fixpoint chain (m : memory) (p : Z) (l : list Z) : Prop :=
  match l with
  | [] => p = 0
  | a :: l => p = a /\ exists q, read_ptr m a = Ret q /\ chain m q l
  end.

Lemma chain_outside sz m a l p fl : ptr_sz <= sz -> Z.of_nat (length l) <= sz -> (forall f, f ∈ fl -> apart sz f a) ->
  chain m p fl -> forall off, 0 <= off -> off + Z.of_nat (length l) <= sz -> chain (write_mem m (a + off) l) p fl.
Proof.
  intros Hs Hl Hfl Hc off Ho Hol. unfold ptr_sz in Hs. revert p Hc. induction fl as [|f fl IH]; intros p; [done|].
  intros [-> (q & Hq & Hc)]. split; [done|]. exists q.
  rewrite read_ptr_outside; [|destruct (Hfl f); [left|lia..]; lia].
  split; [done|]. apply IH; [|done]. intros g Hg. apply Hfl. by right.
Qed.

(** ** The invariant

    [n] objects fit a slab, [k] of the newest one have been carved. *)

Definition slot (h : hgang) (hdr : Z) (i : nat) : Z := first_byte hdr + Z.of_nat i * obj_size h.

Definition disjoint_slabs (sz : Z) (l : list Z) : Prop :=
  forall a b, a ∈ l -> b ∈ l -> a <> b -> apart sz a b.

Definition carved (h : hgang) (n k : nat) (a : Z) : Prop :=
  match slabs h with
  | [] => False
  | hdr :: rest => (exists i, (i < k)%nat /\ a = slot h hdr i) \/
                   (exists s i, s ∈ rest /\ (i < n)%nat /\ a = slot h s i)
  end.

Record pool_ok (h : hgang) (m : memory) (n k : nat) (fl live : list Z) : Prop := {
  po_size : ptr_sz <= obj_size h;
  po_slab : slab_size h = sizeof_hdr + Z.of_nat n * obj_size h;
  po_n : (1 <= n)%nat;
  po_k : (k <= n)%nat;
  po_slabs : forall s, s ∈ slabs h -> 0 < s /\ s + slab_size h < 2 ^ 64;
  po_nodup : NoDup (slabs h);
  po_apart : disjoint_slabs (slab_size h) (slabs h);
  po_next : match slabs h with [] => True | hdr :: _ => next_obj h = slot h hdr k end;
  po_objs : NoDup (fl ++ live);
  po_carved : forall a, a ∈ fl ++ live <-> carved h n k a;
  po_chain : chain m (free h) fl;
}.

Lemma carved_slot h m n k fl live a : pool_ok h m n k fl live -> a ∈ fl ++ live ->
  exists s i, s ∈ slabs h /\ (i < n)%nat /\ a = slot h s i.
Proof.
  intros Hp Ha. apply (po_carved _ _ _ _ _ _ Hp) in Ha. pose proof (po_k _ _ _ _ _ _ Hp). unfold carved in Ha.
  destruct (slabs h) as [|hdr rest]; [done|].
  destruct Ha as [(i & Hi & ->)|(s & i & Hs & Hi & ->)]; [exists hdr, i|exists s, i]; (split; [set_solver|split; [lia|done]]).
Qed.

Lemma slots_apart h s t i j : ptr_sz <= obj_size h -> s = t \/ apart (slab_size h) s t ->
  forall n, slab_size h = sizeof_hdr + Z.of_nat n * obj_size h -> (i < n)%nat -> (j < n)%nat ->
  slot h s i <> slot h t j -> apart (obj_size h) (slot h s i) (slot h t j).
Proof.
  unfold apart, apart2, slot, first_byte, sizeof_hdr, ptr_sz. intros Hs Hst n Hn Hi Hj Hne. rewrite Hn in Hst. destruct Hst as [<-|Hst].
  - destruct (Nat.lt_trichotomy i j) as [|[->|]]; [left; nia|done|right; nia].
  - destruct Hst; [left|right]; nia.
Qed.

(** Objects do not overlap, and lie inside a slab, past its header. *)
Lemma objs_apart h m n k fl live a b : pool_ok h m n k fl live -> a ∈ fl ++ live -> b ∈ fl ++ live -> a <> b ->
  apart (obj_size h) a b.
Proof.
  intros Hp Ha Hb Hne. destruct (carved_slot _ _ _ _ _ _ _ Hp Ha) as (s & i & Hs & Hi & ->).
  destruct (carved_slot _ _ _ _ _ _ _ Hp Hb) as (t & j & Ht & Hj & ->).
  apply (slots_apart h s t i j) with (n := n); try done; try apply Hp.
  destruct (decide (s = t)); [by left|right]. by apply (po_apart _ _ _ _ _ _ Hp).
Qed.

Definition inside (h : hgang) (a : Z) : Prop :=
  exists s, s ∈ slabs h /\ first_byte s <= a /\ a + obj_size h <= last_byte h s.

Lemma slot_inside h s n i : s ∈ slabs h -> slab_size h = sizeof_hdr + Z.of_nat n * obj_size h -> 0 <= obj_size h ->
  (i < n)%nat -> inside h (slot h s i).
Proof. intros Hs Hn H0 Hi. exists s. split; [done|]. unfold slot, first_byte, last_byte. rewrite Hn. nia. Qed.

Lemma objs_inside h m n k fl live a : pool_ok h m n k fl live -> a ∈ fl ++ live -> inside h a /\ 0 < a < 2 ^ 64.
Proof.
  intros Hp Ha. destruct (carved_slot _ _ _ _ _ _ _ Hp Ha) as (s & i & Hs & Hi & ->).
  pose proof (po_slabs _ _ _ _ _ _ Hp s Hs) as Hb. destruct Hp as [Hsz Hsl _ _ _ _ _ _ _ _ _]. unfold ptr_sz in Hsz.
  split; [by apply (slot_inside h s n); [done|done|lia|]|]. unfold slot, first_byte, sizeof_hdr, ptr_sz in *. nia.
Qed.

(** [malloc] answers with a block that overlaps none of those it has given out. *)
Definition fresh_slab (h : hgang) (ans : option Z) : Prop :=
  match ans with
  | None => True
  | Some b => 0 < b /\ b + slab_size h < 2 ^ 64 /\ forall s, s ∈ slabs h -> apart (slab_size h) b s
  end.

Lemma chain_free m p fl : chain m p fl -> (forall a, a ∈ fl -> 0 < a < 2 ^ 64) -> 0 <= p < 2 ^ 64 /\ (p = 0 <-> fl = []).
Proof.
  destruct fl as [|a fl]; cbn [chain]; intros Hc Ha; [by subst|].
  destruct Hc as [-> _]. pose proof (Ha a ltac:(by left)). split; [lia|]. split; [lia|done].
Qed.

Lemma free_cases h m n k fl live : pool_ok h m n k fl live -> 0 <= free h < 2 ^ 64 /\ (free h = 0 <-> fl = []).
Proof.
  intros Hp. apply (chain_free m); [apply Hp|]. intros a Ha. apply (objs_inside h m n k fl live); [done|].
  apply elem_of_app. by left.
Qed.

Lemma in_slab_iff h hdr n k : slab_size h = sizeof_hdr + Z.of_nat n * obj_size h -> ptr_sz <= obj_size h ->
  obj_in_slab h hdr (slot h hdr k) = (k <? n)%nat.
Proof.
  unfold obj_in_slab, slot, first_byte, last_byte, sizeof_hdr, ptr_sz. intros -> Hs.
  destruct (Nat.ltb_spec k n); [apply andb_true_iff; rewrite !Z.leb_le; nia|].
  apply andb_false_iff. right. apply Z.leb_gt. nia.
Qed.

Lemma slow_keeps h m n k live ans : pool_ok h m n k [] live -> (slabs h <> [] -> k = n) -> fresh_slab h ans ->
  exists h' a, hgang_alloc_slow ans h = (h', a) /\
    ((a = 0 /\ h' = h /\ ans = None /\ forall s i, s ∈ slabs h -> (i < n)%nat -> slot h s i ∈ live) \/
     (a <> 0 /\ pool_ok h' m n 1 [] (a :: live) /\ obj_size h' = obj_size h)).
Proof.
  intros Hp Hfull Hans. pose proof Hp as [Hs Hn H1 Hk Hsl Hnd Hap _ Ho Hc Hch]. cbn [app] in Ho, Hc.
  assert (forall a, a ∈ live <-> exists s i, s ∈ slabs h /\ (i < n)%nat /\ a = slot h s i) as Hall.
  { intros a. rewrite Hc. unfold carved. destruct (slabs h) as [|hdr rest]; [set_solver|].
    rewrite (Hfull ltac:(done)). split; [set_solver|]. intros (s & i & [->|?]%elem_of_cons & ? & ->); [left|right]; eauto. }
  destruct ans as [b|]; cbn [hgang_alloc_slow].
  - destruct Hans as (Hb0 & Hb1 & Hbs). unfold sizeof_hdr, ptr_sz in *. eexists _, _. split; [reflexivity|]. right.
    assert (b ∉ slabs h) as Hnb by (intros Hin; destruct (Hbs b Hin); lia).
    assert (b + 8 ∉ live) as Hnl.
    { intros (s & i & Hin & Hi & E)%Hall. unfold slot, first_byte, sizeof_hdr, ptr_sz in E. destruct (Hbs s Hin); nia. }
    split; [lia|]. split; [|done]. split; cbn [obj_size slab_size slabs next_obj free app]; try done.
    + intros s [->|Hin]%elem_of_cons; [done|by apply Hsl].
    + by constructor.
    + intros s t [->|Hin]%elem_of_cons [->|Hin']%elem_of_cons Hne; [done|by apply Hbs| |by apply Hap].
      destruct (Hbs s Hin); [right|left]; lia.
    + unfold slot, first_byte, sizeof_hdr, ptr_sz. cbn [obj_size]. lia.
    + by constructor.
    + intros a. unfold carved. cbn [slabs]. rewrite elem_of_cons, Hall. split.
      * intros [->|H]; [left; exists 0%nat; split; [lia|unfold slot, first_byte, sizeof_hdr, ptr_sz; cbn; lia]|by right].
      * intros [(i & Hi & ->)|H]; [left; unfold slot, first_byte, sizeof_hdr, ptr_sz; cbn [obj_size]; lia|by right].
  - exists h, 0. split; [done|]. left. split_and!; try done. intros s i Hin Hi. apply Hall. eauto.
Qed.

Lemma carve_ok h m n k live hdr rest : pool_ok h m n k [] live -> slabs h = hdr :: rest -> (k < n)%nat ->
  0 < slot h hdr k /\
  pool_ok (with_next h (next_obj h + obj_size h)) m n (S k) [] (slot h hdr k :: live).
Proof.
  intros Hp Esl Hlt. pose proof Hp as [Hs Hn H1 Hk Hsl Hnd Hap Hnx Ho Hc Hch]. rewrite Esl in *. cbn [app] in Ho, Hc.
  assert (slot h hdr k ∉ live) as Hnl.
  { intros Hin%Hc. unfold carved in Hin. rewrite Esl in Hin. destruct Hin as [(i & Hi & Ei)|(s & i & Hin & Hi & Ei)].
    - unfold slot, ptr_sz in *. nia.
    - apply NoDup_cons in Hnd as [Hnh _]. destruct (Hap hdr s) as [A|A]; [by left|by right|by intros ->|..];
        unfold slot, first_byte, sizeof_hdr, ptr_sz in *; nia. }
  split.
  { destruct (Hsl hdr ltac:(by left)). unfold slot, first_byte, sizeof_hdr, ptr_sz in *. nia. }
  split; cbn [with_next obj_size slab_size slabs next_obj free app]; rewrite ?Esl; try done.
  - rewrite Hnx. unfold slot. cbn [obj_size with_next]. rewrite Nat2Z.inj_succ. ring.
  - by constructor.
  - intros a. rewrite elem_of_cons, Hc. unfold carved. cbn [slabs with_next]. rewrite Esl. split.
    + intros [->|[(i & Hi & ->)|H]]; [left; exists k; split; [lia|done]|left; exists i; split; [lia|done]|by right].
    + intros [(i & Hi & ->)|H]; [|by right; right]. destruct (decide (i = k)) as [->|]; [by left|].
      right; left. exists i. split; [lia|done].
Qed.

Lemma pop_ok h m n k f fl live : pool_ok h m n k (f :: fl) live ->
  exists q, read_ptr m (free h) = Ret q /\ free h = f /\ pool_ok (with_free h q) m n k fl (f :: live).
Proof.
  intros Hp. pose proof Hp as [Hs Hn H1 Hk Hsl Hnd Hap Hnx Ho Hc [Hfh (q & Hq & Hch)]].
  assert (fl ++ f :: live ≡ₚ (f :: fl) ++ live) as Hpm by (by rewrite <- Permutation_middle).
  exists q. rewrite Hfh. split_and!; [done|done|].
  split; cbn [with_free obj_size slab_size slabs next_obj free]; try done; [by rewrite Hpm|].
  intros a. rewrite Hpm. apply Hc.
Qed.

(** What an allocation gives: an object that was not live, or nothing, when
    [malloc] fails and every object of every slab is live. *)
Definition allocated (h : hgang) (m : memory) (n : nat) (live : list Z) (ans : option Z) (h' : hgang) (a : Z) : Prop :=
  (a = 0 /\ h' = h /\ ans = None /\ forall s i, s ∈ slabs h -> (i < n)%nat -> slot h s i ∈ live) \/
  (a <> 0 /\ obj_size h' = obj_size h /\ exists k' fl', pool_ok h' m n k' fl' (a :: live)).

Lemma alloc_keeps h m n k fl live ans : pool_ok h m n k fl live -> fresh_slab h ans ->
  exists h' a, hgang_alloc ans h m = Ret (h', a) /\ allocated h m n live ans h' a.
Proof.
  intros Hp Hans. destruct (free_cases _ _ _ _ _ _ Hp) as [Hb Hf]. unfold hgang_alloc, allocated.
  destruct (Z.eqb_spec (free h) 0) as [E|E]; cbn [negb].
  - assert (fl = []) as -> by by apply Hf.
    pose proof (po_next _ _ _ _ _ _ Hp) as Hnx. destruct (slabs h) as [|hdr rest] eqn:Esl.
    2: rewrite Hnx, (in_slab_iff h hdr n k) by apply Hp; destruct (Nat.ltb_spec k n) as [Hlt|Hge].
    2: { destruct (carve_ok _ _ _ _ _ _ _ Hp Esl Hlt) as [Hpos Hok]. rewrite <- Hnx in Hpos, Hok |- *. eexists _, _. split; [reflexivity|]. right.
         split; [lia|]. split; [done|]. exists (S k), []. exact Hok. }
    all: destruct (slow_keeps h m n k live ans Hp) as (h' & a & -> & [(? & ? & ? & H)|(? & ? & ?)]);
      [rewrite Esl; done || (pose proof (po_k _ _ _ _ _ _ Hp); lia)|done| |]; exists h', a; (split; [done|]);
      [left; rewrite <- ?Esl; done|right; eauto].
  - destruct fl as [|f fl]; [by rewrite (proj2 Hf) in E|].
    destruct (pop_ok _ _ _ _ _ _ _ Hp) as (q & -> & Hfh & Hok). run. rewrite Hfh in *.
    eexists _, _. split; [reflexivity|]. right. split_and!; [done|done|]. by exists k, fl.
Qed.

Lemma live_perm h m n k fl live live' : live ≡ₚ live' -> pool_ok h m n k fl live -> pool_ok h m n k fl live'.
Proof. intros Hl [????????]. split; try done; [by rewrite <- Hl|]. intros a. by rewrite <- Hl. Qed.

(** What a client writes to an object it holds leaves the pool alone. *)
Lemma write_frame_ok h m n k fl live a off l : pool_ok h m n k fl live -> a ∈ live -> 0 <= off ->
  off + Z.of_nat (length l) <= obj_size h -> pool_ok h (write_mem m (a + off) l) n k fl live.
Proof.
  intros Hp Ha Ho Hl. assert (forall f, f ∈ fl -> apart (obj_size h) f a) as Hfa.
  { intros f Hf. apply (objs_apart h m n k fl live); [done|set_solver..|]. intros ->.
    by apply (NoDup_app fl live) in Hf; [|apply Hp]. }
  destruct Hp as [Hs ? ? ? ? ? ? ? ? ? Hc]. split; try done. apply (chain_outside (obj_size h)); try done. lia.
Qed.

Lemma return_ok h m n k fl live a : pool_ok h m n k fl (a :: live) ->
  exists h' m', hgang_return h m a = Ret (h', m') /\ obj_size h' = obj_size h /\ pool_ok h' m' n k (a :: fl) live.
Proof.
  intros Hp. destruct (objs_inside h m n k fl (a :: live) a Hp) as [_ Ha]; [set_solver|].
  destruct (free_cases _ _ _ _ _ _ Hp) as [Hb _].
  pose proof (write_frame_ok h m n k fl (a :: live) a 0 (le_bytes 8 (free h)) Hp) as Hw.
  rewrite Z.add_0_r, length_le_bytes in Hw. pose proof (po_size _ _ _ _ _ _ Hp) as Hs.
  specialize (Hw ltac:(by left) ltac:(lia) Hs). unfold hgang_return.
  rewrite (proj2 (Z.eqb_neq a 0)), (proj2 (Z.leb_le _ _) Hs) by lia. run.
  eexists _, _. split; [reflexivity|]. split; [done|].
  assert ((a :: fl) ++ live ≡ₚ fl ++ a :: live) as Hpm by (by rewrite <- Permutation_middle).
  destruct Hw as [? ? ? ? ? ? ? ? Ho Hc Hch]. split; cbn [with_free obj_size slab_size slabs next_obj free]; try done.
  - by rewrite Hpm.
  - intros x. rewrite Hpm. apply Hc.
  - split; [done|]. exists (free h). split; [|done]. by apply read_ptr_write.
Qed.

Lemma alloc0_ok h m n k fl live ans : pool_ok h m n k fl live -> fresh_slab h ans ->
  exists h' m' a, hgang_alloc0 ans h m = Ret (h', m', a) /\ allocated h m' n live ans h' a /\
    (a = 0 -> m' = m) /\ (a <> 0 -> read_mem m' a (Z.to_nat (obj_size h)) = Ret (replicate (Z.to_nat (obj_size h)) 0)).
Proof.
  intros Hp Hans. destruct (alloc_keeps _ _ _ _ _ _ _ Hp Hans) as (h' & a & E & Ha). unfold hgang_alloc0. rewrite E. run.
  destruct Ha as [(-> & -> & -> & H)|(Hne & Hsz & k' & fl' & Hok)].
  - exists h, m, 0. split; [done|]. split; [by left|done].
  - rewrite (proj2 (Z.eqb_neq a 0) Hne). cbn [negb]. rewrite Hsz. eexists _, _, _. split; [reflexivity|]. split.
    + right. split; [done|]. split; [done|]. exists k', fl'. rewrite <- (Z.add_0_r a) at 1.
      apply write_frame_ok; [done|by left|done|]. rewrite length_replicate, Hsz. pose proof (po_size _ _ _ _ _ _ Hp).
      unfold ptr_sz in *. lia.
    + split; [done|]. intros _. rewrite <- (length_replicate (Z.to_nat (obj_size h)) 0) at 2. apply read_write.
Qed.

(** A size and a number of objects per slab that do not overflow. *)
Lemma pool_new malloc_ok junk size objs h : 0 < size < 2 ^ 61 -> 0 <= objs -> objs * (size `max` 8) < 2 ^ 61 ->
  hgang_new malloc_ok junk size objs = Some h -> exists n, pool_ok h ∅ n 0 [] [] /\ obj_size h = size `max` 8.
Proof.
  unfold hgang_new, ptr_sz, sizeof_hdr, ptr_sz. intros Hs Ho Hso H. rewrite (proj2 (Z.eqb_neq size 0)) in H by lia.
  destruct malloc_ok; cbn [negb] in H; [|done].
  assert ((if size <? 8 then 8 else size) = size `max` 8) as Hm by (destruct (Z.ltb_spec size 8); lia).
  rewrite Hm in H. set (sz := size `max` 8) in *.
  assert (exists n, (1 <= n)%nat /\ h = Hgang sz junk (8 + Z.of_nat n * sz) [] 0) as (n & Hn & ->).
  { injection H as <-. destruct (Z.eqb_spec objs 0) as [->|]; cbn [negb].
    - destruct (Z.ltb_spec sz 8192).
      + exists (Z.to_nat (8192 / sz)). assert (1 <= 8192 / sz) by (apply Z.div_le_lower_bound; lia).
        split; [lia|]. rewrite Z2Nat.id by lia. rewrite Z.mod_eq by lia. f_equal. lia.
      + exists 4%nat. split; [lia|]. by rewrite uint_small by lia.
    - exists (Z.to_nat objs). split; [lia|]. rewrite Z2Nat.id, uint_small by lia. done. }
  exists n. split; [|done]. split; cbn [obj_size slab_size slabs next_obj free app]; unfold ptr_sz, sizeof_hdr; try done;
    try lia; try constructor; try set_solver.
Qed.

(** ** A pool and its clients

    A client allocates, returns an object it holds and writes inside objects it
    holds. [hstep n] is one such step. *)

Definition state : Type := hgang * memory * list Z.

Definition hold (a : Z) (live : list Z) : list Z := if a =? 0 then live else a :: live.

Inductive hstep : state -> state -> Prop :=
| step_alloc h m live ans h' a : fresh_slab h ans -> hgang_alloc ans h m = Ret (h', a) ->
    hstep (h, m, live) (h', m, hold a live)
| step_alloc0 h m live ans h' m' a : fresh_slab h ans -> hgang_alloc0 ans h m = Ret (h', m', a) ->
    hstep (h, m, live) (h', m', hold a live)
| step_return h m live live' a h' m' : live ≡ₚ a :: live' -> hgang_return h m a = Ret (h', m') ->
    hstep (h, m, live) (h', m', live')
| step_write h m live a off l : a ∈ live -> 0 <= off -> off + Z.of_nat (length l) <= obj_size h ->
    hstep (h, m, live) (h, write_mem m (a + off) l, live).

Definition state_ok (sz : Z) (n : nat) (s : state) : Prop :=
  let '(h, m, live) := s in obj_size h = sz /\ exists k fl, pool_ok h m n k fl live.

Lemma allocated_ok sz n k fl h m live ans h' a : obj_size h = sz -> pool_ok h m n k fl live ->
  allocated h m n live ans h' a -> state_ok sz n (h', m, hold a live).
Proof.
  intros Hsz Hp [(-> & -> & _)|(Ha & Hs & k' & fl' & H)]; unfold hold.
  - split; [done|]. eauto.
  - rewrite (proj2 (Z.eqb_neq a 0) Ha). split; [congruence|]. eauto.
Qed.

Lemma step_ok sz n s s' : state_ok sz n s -> hstep s s' -> state_ok sz n s'.
Proof.
  intros Hs Hst. destruct Hst; destruct Hs as (Hsz & k & fl & Hp).
  - destruct (alloc_keeps _ _ _ _ _ _ _ Hp H) as (h1 & a1 & E & Ha). rewrite H0 in E. injection E as <- <-.
    by apply (allocated_ok sz n k fl h m live ans).
  - destruct (alloc0_ok _ _ _ _ _ _ _ Hp H) as (h1 & m1 & a1 & E & Ha & Hm & _). rewrite H0 in E. injection E as <- <- <-.
    destruct Ha as [(-> & -> & -> & Ha)|(Hne & Hs' & k' & fl' & Ha)].
    + rewrite (Hm eq_refl). split; [done|]. by exists k, fl.
    + unfold hold. rewrite (proj2 (Z.eqb_neq a 0) Hne). split; [congruence|]. eauto.
  - destruct (return_ok h m n k fl live' a) as (h1 & m1 & E & Hs' & Ha); [by apply (live_perm _ _ _ _ _ live)|].
    rewrite H0 in E. injection E as <- <-. split; [congruence|]. eauto.
  - split; [done|]. exists k, fl. by apply write_frame_ok.
Qed.

Lemma steps_ok sz n s s' : state_ok sz n s -> rtc hstep s s' -> state_ok sz n s'.
Proof. intros Hs. induction 1; [done|]. eauto using step_ok. Qed.

(** ** Visiting every object *)

Fixpoint visit {A} (cb : A -> Z -> bool * A) (l : list Z) (priv : A) : bool * A :=
  match l with
  | [] => (true, priv)
  | a :: l => let (ok, priv) := cb priv a in if (ok : bool) then visit cb l priv else (false, priv)
  end.

Definition slots (h : hgang) (s : Z) (k : nat) : list Z := slot h s <$> seq 0 k.

Fixpoint all_slots (h : hgang) (n : nat) (l : list Z) : list Z :=
  match l with
  | [] => []
  | s :: l => slots h s n ++ all_slots h n l
  end.

Definition carved_list (h : hgang) (n k : nat) : list Z :=
  match slabs h with
  | [] => []
  | hdr :: rest => slots h hdr k ++ all_slots h n rest
  end.

Lemma visit_app {A} (cb : A -> Z -> bool * A) l1 l2 priv :
  visit cb (l1 ++ l2) priv = let (ok, p) := visit cb l1 priv in if (ok : bool) then visit cb l2 p else (false, p).
Proof. revert priv. induction l1 as [|a l1 IH]; intros priv; [done|]. cbn [visit app]. destruct (cb priv a) as [[] p]; [apply IH|done]. Qed.

Lemma elem_slots h s k a : a ∈ slots h s k <-> exists i, (i < k)%nat /\ a = slot h s i.
Proof.
  unfold slots. rewrite list_elem_of_fmap. split; intros (i & H1 & H2); exists i.
  - apply elem_of_seq in H2. split; [lia|done].
  - split; [done|]. apply elem_of_seq. lia.
Qed.

Lemma elem_all_slots h n l a : a ∈ all_slots h n l <-> exists s i, s ∈ l /\ (i < n)%nat /\ a = slot h s i.
Proof.
  induction l as [|s l IH]; cbn [all_slots]; [set_solver|]. rewrite elem_of_app, elem_slots, IH. split.
  - intros [(i & ? & ->)|(t & i & ? & ? & ->)]; [exists s, i|exists t, i]; split_and!; set_solver.
  - intros (t & i & [->|?]%elem_of_cons & ? & ->); [left|right]; eauto.
Qed.

Lemma elem_carved h n k a : a ∈ carved_list h n k <-> carved h n k a.
Proof.
  unfold carved_list, carved. destruct (slabs h) as [|hdr rest]; [set_solver|].
  by rewrite elem_of_app, elem_slots, elem_all_slots.
Qed.

Lemma slots_nodup h s k : 0 < obj_size h -> NoDup (slots h s k).
Proof.
  intros Hs. unfold slots. apply NoDup_fmap_2_strong; [|apply NoDup_seq].
  intros i j _ _ E. unfold slot in E. nia.
Qed.

Lemma slots_disjoint h s t n i j : ptr_sz <= obj_size h -> slab_size h = sizeof_hdr + Z.of_nat n * obj_size h ->
  apart (slab_size h) s t -> (i < n)%nat -> (j < n)%nat -> slot h s i <> slot h t j.
Proof. unfold apart, apart2, slot, first_byte, sizeof_hdr, ptr_sz. intros ? Hn Ha ??. rewrite Hn in Ha. nia. Qed.

Lemma slots_app_nodup h n k hdr rest : ptr_sz <= obj_size h -> slab_size h = sizeof_hdr + Z.of_nat n * obj_size h ->
  (k <= n)%nat -> NoDup (hdr :: rest) -> disjoint_slabs (slab_size h) (hdr :: rest) ->
  NoDup (slots h hdr k ++ all_slots h n rest).
Proof.
  intros Hs Hn Hk Hnd Hap. assert (0 < obj_size h) as Hpos by (unfold ptr_sz in Hs; lia).
  revert hdr k Hk Hnd Hap. induction rest as [|s rest IH]; intros hdr k Hk [Hnh Hnd]%NoDup_cons Hap; cbn [all_slots].
  - rewrite app_nil_r. by apply slots_nodup.
  - apply NoDup_app. split_and!; [by apply slots_nodup| |].
    + intros a (i & Hi & ->)%elem_slots Ha.
      assert (exists t j, t ∈ s :: rest /\ (j < n)%nat /\ slot h hdr i = slot h t j) as (t & j & Ht & Hj & E).
      { apply (elem_all_slots h n (s :: rest)). exact Ha. }
      apply (slots_disjoint h hdr t n i j) in E; [done|done|done| |lia|done].
      apply Hap; [by left|by right|by intros ->].
    + apply IH; [lia|done|]. intros a b Ha Hb. apply Hap; by right.
Qed.

Lemma carved_perm h m n k fl live : pool_ok h m n k fl live -> carved_list h n k ≡ₚ fl ++ live.
Proof.
  intros Hp. apply NoDup_Permutation; [|apply Hp|].
  - destruct Hp as [Hs Hn H1 Hk _ Hnd Hap _ _ _ _]. unfold carved_list. destruct (slabs h) as [|hdr rest]; [constructor|].
    by apply slots_app_nodup.
  - intros a. rewrite elem_carved. symmetry. apply Hp.
Qed.

Lemma foreach_slab_visit {A} (cb : A -> Z -> bool * A) inside h s n i fuel priv :
  (forall j, inside (slot h s j) = (j <? n)%nat) -> (i <= n)%nat -> (n - i <= fuel)%nat ->
  foreach_slab cb fuel inside (obj_size h) (slot h s i) priv =
    Ret (visit cb (slot h s <$> seq i (n - i)) priv).
Proof.
  intros Hin. revert i priv. induction fuel as [|fuel IH]; intros i priv Hi Hf; cbn [foreach_slab]; rewrite Hin.
  - rewrite (proj2 (Nat.ltb_ge _ _)) by lia. by replace (n - i)%nat with 0%nat by lia.
  - destruct (Nat.ltb_spec i n).
    + replace (n - i)%nat with (S (n - S i)) by lia. cbn [seq fmap list_fmap visit].
      destruct (cb priv (slot h s i)) as [[] p]; [|done].
      assert (slot h s i + obj_size h = slot h s (S i)) as -> by (unfold slot; rewrite Nat2Z.inj_succ; ring).
      apply IH; lia.
    + by replace (n - i)%nat with 0%nat by lia.
Qed.

Lemma first_byte_slot h s : first_byte s = slot h s 0.
Proof. unfold slot. lia. Qed.

Lemma foreach_slabs_visit {A} (cb : A -> Z -> bool * A) h n fuel l priv : (n <= fuel)%nat ->
  ptr_sz <= obj_size h -> slab_size h = sizeof_hdr + Z.of_nat n * obj_size h ->
  foreach_slabs cb fuel h l priv = Ret (visit cb (all_slots h n l) priv).
Proof.
  intros Hf Hs Hn. revert priv. induction l as [|s l IH]; intros priv; [done|]. cbn [foreach_slabs all_slots].
  rewrite (first_byte_slot h s), (foreach_slab_visit cb _ h s n 0); [|intros j; by apply in_slab_iff|lia|lia].
  rewrite visit_app, Nat.sub_0_r. change (slot h s <$> seq 0 n) with (slots h s n). run.
  destruct (visit cb (slots h s n) priv) as [[] p]; [apply IH|done].
Qed.

(** ** Properties *)

(** The objects a slab holds. *)
Definition capacity (h : hgang) : nat := Z.to_nat ((slab_size h - sizeof_hdr) / obj_size h).

Lemma capacity_ok h m n k fl live : pool_ok h m n k fl live -> capacity h = n.
Proof.
  intros [Hs Hn _ _ _ _ _ _ _ _ _]. unfold capacity, ptr_sz in *. rewrite Hn.
  replace (sizeof_hdr + Z.of_nat n * obj_size h - sizeof_hdr) with (Z.of_nat n * obj_size h) by lia.
  rewrite Z.div_mul by lia. lia.
Qed.

(** C33: however its clients allocate, return and write to their objects, a pool
    hands out objects of the size asked for (at least a pointer) that lie
    inside the slabs obtained from [malloc], past their headers, and do not
    overlap; an allocation never returns an object a client still holds and
    returns nothing only if [malloc] fails and every object of every slab is
    held; and returning an object never fails. *)
Theorem hgang_objects ok junk size objs h0 h m live :
  0 < size < 2 ^ 61 -> 0 <= objs -> objs * (size `max` 8) < 2 ^ 61 -> hgang_new ok junk size objs = Some h0 ->
  rtc hstep (h0, ∅, []) (h, m, live) ->
  NoDup live /\ (forall a, a ∈ live -> inside h a) /\
  (forall a b, a ∈ live -> b ∈ live -> a <> b -> apart (size `max` 8) a b) /\
  (forall ans, fresh_slab h ans -> exists h' a, hgang_alloc ans h m = Ret (h', a) /\ (a <> 0 -> a ∉ live) /\
    (a = 0 -> ans = None /\ forall s i, s ∈ slabs h -> (i < capacity h)%nat -> slot h s i ∈ live)) /\
  (forall a, a ∈ live -> exists h' m', hgang_return h m a = Ret (h', m')).
Proof.
  intros Hs Ho Hso Hnew Hr. destruct (pool_new _ _ _ _ _ Hs Ho Hso Hnew) as (n & Hp0 & Hsz0).
  assert (state_ok (size `max` 8) n (h, m, live)) as (Hsz & k & fl & Hp).
  { apply (steps_ok _ _ (h0, ∅, [])); [|done]. split; [done|]. eauto. }
  rewrite <- Hsz, (capacity_ok _ _ _ _ _ _ Hp). split_and!.
  - apply (NoDup_app fl live), Hp.
  - intros a Ha. apply (objs_inside h m n k fl live); set_solver.
  - intros a b Ha Hb. apply (objs_apart h m n k fl live); set_solver.
  - intros ans Hans. destruct (alloc_keeps _ _ _ _ _ _ _ Hp Hans) as (h' & a & E & Ha). exists h', a. split; [done|].
    destruct Ha as [(-> & _ & -> & H)|(Hne & _ & k' & fl' & H)]; [done|]. split; [|done]. intros _.
    pose proof (po_objs _ _ _ _ _ _ H) as (_ & _ & Hnd)%NoDup_app. by apply NoDup_cons in Hnd as [? _].
  - intros a Ha. apply elem_of_Permutation in Ha as (live' & Hl).
    destruct (return_ok h m n k fl live' a) as (h' & m' & E & _); [by apply (live_perm _ _ _ _ _ live)|]. eauto.
Qed.

(** A pool of two 12-byte objects a slab: three allocations, one of which needs
    a second slab, a return and a write by the client. *)
Definition sample_pool : hgang := Hgang 12 0 32 [] 0.
Definition sample_used : hgang * memory * list Z :=
  (Hgang 12 2020 32 [2000; 1000] 1008, write_mem (write_ptr ∅ 1008 0) 2010 [7; 7], [2008; 1020]).

Lemma sample_run : rtc hstep (sample_pool, ∅, []) sample_used.
Proof.
  eapply rtc_l; [eapply (step_alloc _ _ _ (Some 1000) _ 1008); [split_and!; [done|done|set_solver]|reflexivity]|].
  eapply rtc_l; [eapply (step_alloc _ _ _ None _ 1020); [done|reflexivity]|].
  eapply rtc_l; [eapply (step_alloc _ _ _ (Some 2000) _ 2008); [|reflexivity]|].
  { split_and!; [done|done|]. intros s ->%list_elem_of_singleton. right. vm_compute. discriminate. }
  eapply rtc_l; [eapply (step_return _ _ _ [2008; 1020] 1008); [|reflexivity]|].
  { cbn. solve_Permutation. }
  eapply rtc_l; [eapply (step_write _ _ _ 2008 2 [7; 7]); [by left|done|done]|]. apply rtc_refl.
Qed.

Lemma hgang_objects_witness :
  hgang_new true 0 12 2 = Some sample_pool /\ rtc hstep (sample_pool, ∅, []) sample_used /\
  NoDup [2008; 1020] /\ exists h' m', hgang_return sample_used.1.1 sample_used.1.2 2008 = Ret (h', m').
Proof.
  split; [reflexivity|]. split; [apply sample_run|].
  destruct (hgang_objects true 0 12 2 sample_pool (Hgang 12 2020 32 [2000; 1000] 1008) _ [2008; 1020]
    ltac:(lia) ltac:(lia) ltac:(lia) eq_refl sample_run) as (H1 & _ & _ & _ & H2).
  split; [exact H1|]. apply H2. by left.
Defined.

(** [hgang_foreach] visits the objects carved so far, the returned ones
    included, until the callback stops it; but its assertion is inverted: it
    only holds when an object has been returned, the very case in which its
    comment says it should not be called. *)
Theorem hgang_foreach_spec {A} (cb : A -> Z -> bool * A) h m n k fl live fuel priv :
  pool_ok h m n k fl live -> (n <= fuel)%nat -> slabs h <> [] ->
  match fl with
  | [] => hgang_foreach cb fuel h priv = Fault AssertFailed
  | _ => exists objs, objs ≡ₚ fl ++ live /\ hgang_foreach cb fuel h priv = Ret (visit cb objs priv)
  end.
Proof.
  intros Hp Hf Hsl. destruct (free_cases _ _ _ _ _ _ Hp) as [_ Hfree]. unfold hgang_foreach.
  destruct (slabs h) as [|hdr rest] eqn:Es; [done|]. destruct fl as [|f fl].
  { by rewrite (proj2 Hfree eq_refl). }
  destruct (Z.eqb_spec (free h) 0) as [E|_]; [by apply Hfree in E|]. run.
  exists (carved_list h n k). split; [by apply carved_perm with (m := m)|].
  pose proof Hp as [Hs Hn H1 Hk _ _ _ Hnx _ _ _]. rewrite Es in Hnx.
  rewrite (first_byte_slot h hdr), (foreach_slab_visit cb _ h hdr k 0); [|intros j|lia|lia].
  2: { rewrite Hnx. unfold slot, ptr_sz in *. destruct (Nat.ltb_spec j k); [apply Z.leb_le|apply Z.leb_gt]; nia. }
  run. unfold carved_list. rewrite Es, visit_app, Nat.sub_0_r. change (slot h hdr <$> seq 0 k) with (slots h hdr k).
  destruct (visit cb (slots h hdr k) priv) as [[] p]; [|done]. by rewrite (foreach_slabs_visit cb h n fuel).
Qed.

Lemma hgang_foreach_spec_witness :
  hgang_foreach (fun l a => (true, l ++ [a])) 2 sample_used.1.1 [] = Ret (true, [2008; 1008; 1020]) /\
  exists objs, objs ≡ₚ [1008; 2008; 1020] /\
    hgang_foreach (fun l a => (true, l ++ [a])) 2 sample_used.1.1 [] = Ret (visit (fun l a => (true, l ++ [a])) objs []).
Proof.
  split; [reflexivity|].
  assert (pool_ok sample_used.1.1 sample_used.1.2 2 1 [1008] [2008; 1020]) as Hp.
  { split; cbn -[write_mem carved]; try done; try lia.
    - intros s [->| ->%list_elem_of_singleton]%elem_of_cons; lia.
    - by_decide.
    - intros a b [->| ->%list_elem_of_singleton]%elem_of_cons [->| ->%list_elem_of_singleton]%elem_of_cons H;
        unfold apart, apart2; try done; lia.
    - by_decide.
    - intros a. rewrite <- (elem_carved _ 2 1). cbn. set_solver.
    - split; [done|]. exists 0. split; [|done]. by vm_compute. }
  apply (hgang_foreach_spec (fun l a => (true, l ++ [a])) sample_used.1.1 sample_used.1.2 2 1 [1008] [2008; 1020] 2 []); [exact Hp|lia|done].
Defined.
