(* ===== verification/Strpool.v ===== *)
(** * strpool.c: a pool of strings that are freed together

    A slab records what is left of it; allocations bump a pointer in the last
    slab of the list and fall back to [malloc]. A slab is identified by its
    address; [malloc]'s answer is an argument. *)

From S2P Require Import Prelude Memory.
Local Open Scope Z_scope.

(** The [next] pointers are the order of the list of slabs. *)
Record strpool_slab := Slab { s_base : Z; s_len : Z; s_ptr : Z }.

(** [older] and [tail] make up the list from [head] to [tail], whose last
    element is [tail]. *)
Record strpool := Strpool {
  sp_slab_size : Z;
  sp_older : list strpool_slab;
  sp_tail : option strpool_slab;
}.

Definition sizeof_slab : Z := 24.

Definition strpool_new (calloc_ok : bool) (slab_size : Z) : option strpool :=
  if negb calloc_ok then None
  else
    let slab_size := if slab_size =? 0 then 8192 else slab_size in
    let slab_size := if slab_size <? sizeof_slab then sizeof_slab else slab_size in
    Some (Strpool slab_size [] None).

Definition tail_list {A} (o : option A) : list A := match o with Some a => [a] | None => [] end.

Definition strpool_slabs (m : strpool) : list strpool_slab := sp_older m ++ tail_list (sp_tail m).

(** The blocks given back to [malloc]'s pool, the descriptor last. *)
Definition strpool_free (m : option strpool) (self : Z) : list Z :=
  match m with
  | Some m => (s_base <$> strpool_slabs m) ++ [self]
  | None => []
  end.

(** What the slow path asks [malloc] for. *)
Definition slow_size (m : strpool) (sz : Z) : Z :=
  let alloc := uint 64 (sizeof_slab + sz) in
  if alloc <? sp_slab_size m then sp_slab_size m else alloc.

Definition strpool_alloc_slow (malloc : option Z) (m : strpool) (sz : Z) : strpool * Z :=
  let overhead := sizeof_slab in
  let alloc := slow_size m sz in
  match malloc with
  | None => (m, 0)
  | Some s =>
    let ret := s + overhead in
    let slab := Slab s (uint 64 (alloc - uint 64 (overhead + sz))) (s + overhead + sz) in
    (Strpool (sp_slab_size m) (strpool_slabs m) (Some slab), ret)
  end.

Definition strpool_alloc (malloc : option Z) (m : strpool) (sz : Z) : strpool * Z :=
  match sp_tail m with
  | None => strpool_alloc_slow malloc m sz
  | Some t =>
    if s_len t <? sz then strpool_alloc_slow malloc m sz
    else
      let ret := s_ptr t in
      let end_ := s_ptr t + s_len t in
      let ptr := s_ptr t + sz in
      let len := if end_ <? ptr then 0 else s_len t - sz in
      (Strpool (sp_slab_size m) (sp_older m) (Some (Slab (s_base t) len ptr)), ret)
  end.

Definition strpool_alloc0 (malloc : option Z) (m : strpool) (mem : memory) (sz : Z) : strpool * memory * Z :=
  let (m, ret) := strpool_alloc malloc m sz in
  (m, if negb (ret =? 0) then write_mem mem ret (replicate (Z.to_nat sz) 0) else mem, ret).

(** ** The invariant

    [ends] gives the end of each slab's block. Every string lies in a slab,
    past its header; those of the last slab lie below its pointer. *)

Definition bases (m : strpool) : list Z := s_base <$> strpool_slabs m.

Fixpoint all_apart (strs : list (Z * Z)) : Prop :=
  match strs with
  | [] => True
  | (a, sa) :: strs => (forall b sb, (b, sb) ∈ strs -> apart2 a sa b sb) /\ all_apart strs
  end.

(** A string of [sz] bytes at [a] in the block at [b]. *)
Definition str_in (ends : Z -> Z) (b a sz : Z) : Prop := b + sizeof_slab <= a /\ 0 <= sz /\ a + sz <= ends b.

Record str_ok (m : strpool) (ends : Z -> Z) (strs : list (Z * Z)) : Prop := {
  st_size : sizeof_slab <= sp_slab_size m < 2 ^ 62;
  st_slabs : forall b, b ∈ bases m -> 0 < b;
  st_apart : forall b c, b ∈ bases m -> c ∈ bases m -> b <> c -> apart2 b (ends b - b) c (ends c - c);
  st_tail : forall t, sp_tail m = Some t -> s_base t + sizeof_slab <= s_ptr t /\ 0 <= s_len t /\
    s_ptr t + s_len t = ends (s_base t);
  st_strs : forall a sz, (a, sz) ∈ strs -> exists b, b ∈ bases m /\ str_in ends b a sz /\
    (forall t, sp_tail m = Some t -> b = s_base t -> a + sz <= s_ptr t);
  st_disjoint : all_apart strs;
}.

(** [malloc] answers with a block that overlaps none of those it has given out. *)
Definition fresh_block (m : strpool) (ends : Z -> Z) (size : Z) (ans : option Z) : Prop :=
  match ans with
  | None => True
  | Some s => 0 < s /\ s + size < 2 ^ 64 /\ forall b, b ∈ bases m -> apart2 s size b (ends b - b) /\ b <> s
  end.

Lemma bases_tail m t : sp_tail m = Some t -> s_base t ∈ bases m.
Proof. intros E. unfold bases, strpool_slabs. rewrite E, fmap_app. cbn. set_solver. Qed.

(** A string in a block is apart from what lies in another. *)
Lemma str_apart ends b a sa c d sd : str_in ends b a sa -> str_in ends c d sd ->
  apart2 b (ends b - b) c (ends c - c) -> apart2 a sa d sd.
Proof. unfold str_in, apart2, sizeof_slab. lia. Qed.

Lemma slow_size_ok m sz : sizeof_slab <= sp_slab_size m < 2 ^ 62 -> 0 <= sz < 2 ^ 62 ->
  uint 64 (sizeof_slab + sz) = sizeof_slab + sz /\ sizeof_slab + sz <= slow_size m sz < 2 ^ 63.
Proof.
  unfold slow_size, sizeof_slab. intros Hm Hs. rewrite uint_small by lia. split; [done|].
  destruct (Z.ltb_spec (24 + sz) (sp_slab_size m)); lia.
Qed.

Lemma slow_ok m ends strs sz s : str_ok m ends strs -> 0 <= sz < 2 ^ 62 ->
  fresh_block m ends (slow_size m sz) (Some s) ->
  exists m', strpool_alloc_slow (Some s) m sz = (m', s + sizeof_slab) /\
    str_ok m' (fun b => if b =? s then s + slow_size m sz else ends b) ((s + sizeof_slab, sz) :: strs).
Proof.
  intros [Hsz Hsl Hap Htl Hst Hdis] Hs (Hs0 & Hs1 & Hfr). destruct (slow_size_ok m sz Hsz Hs) as [Hu Hslow].
  unfold strpool_alloc_slow. rewrite Hu, uint_small by (unfold sizeof_slab in *; lia). eexists. split; [reflexivity|].
  set (ends' := fun b => if b =? s then s + slow_size m sz else ends b).
  assert (forall b, b ∈ bases m -> ends' b = ends b) as He.
  { intros b Hb. unfold ends'. by rewrite (proj2 (Z.eqb_neq b s)) by by apply Hfr. }
  assert (ends' s = s + slow_size m sz) as Hes by (unfold ends'; by rewrite Z.eqb_refl).
  set (m' := Strpool _ _ _).
  assert (forall b, b ∈ bases m' <-> b ∈ bases m \/ b = s) as Hb.
  { intros b. unfold bases, m', strpool_slabs at 1. cbn [sp_older sp_tail tail_list]. rewrite fmap_app. cbn. set_solver. }
  split; cbn [sp_slab_size sp_tail m']; [done| | | | |].
  - intros b [Hin| ->]%Hb; [by apply Hsl|done].
  - assert (ends' s - s = slow_size m sz) as Hd by lia. intros b c [Hbi| ->]%Hb [Hci| ->]%Hb Hne; [| | |done].
    + rewrite !He by done. by apply Hap.
    + rewrite Hd, (He b) by done. apply apart2_sym. by apply Hfr.
    + rewrite Hd, (He c) by done. by apply Hfr.
  - intros t [= <-]. cbn [s_base s_ptr s_len]. rewrite Hes. unfold sizeof_slab in *. lia.
  - intros a sa [[= -> ->]|Hin]%elem_of_cons.
    + exists s. split; [apply Hb; by right|]. unfold str_in. rewrite Hes. unfold sizeof_slab in *.
      split; [lia|]. intros t [= <-] _. cbn [s_ptr]. lia.
    + destruct (Hst a sa Hin) as (b & Hbi & Hi & _). exists b. split; [apply Hb; by left|].
      unfold str_in. rewrite He by done. split; [done|]. intros t [= <-] ->. by destruct (Hfr s Hbi).
  - split; [|done]. intros a sa Hin. destruct (Hst a sa Hin) as (b & Hbi & Hi & _).
    apply (str_apart ends' s (s + sizeof_slab) sz b a sa).
    + unfold str_in. rewrite Hes. unfold sizeof_slab in *. lia.
    + unfold str_in. by rewrite He.
    + rewrite Hes, He by done. replace (s + slow_size m sz - s) with (slow_size m sz) by lia. by apply Hfr.
Qed.

Lemma bump_ok m ends strs sz t : str_ok m ends strs -> 0 <= sz -> sp_tail m = Some t -> sz <= s_len t ->
  str_ok (Strpool (sp_slab_size m) (sp_older m) (Some (Slab (s_base t) (s_len t - sz) (s_ptr t + sz)))) ends
    ((s_ptr t, sz) :: strs).
Proof.
  intros [Hsz Hsl Hap Htl Hst Hdis] Hs Et Hle. set (m' := Strpool _ _ _).
  assert (bases m' = bases m) as Hb.
  { unfold bases, strpool_slabs, m'. rewrite Et, !fmap_app. done. }
  destruct (Htl t Et) as (Hp & Hl & He). pose proof (bases_tail m t Et) as Hin.
  split; cbn [sp_slab_size sp_tail m']; rewrite ?Hb; try done.
  - intros u [= <-]. cbn [s_base s_ptr s_len]. lia.
  - intros a sa [[= -> ->]|Ha]%elem_of_cons; rewrite ?Hb.
    + exists (s_base t). split; [done|]. unfold str_in. split; [lia|]. intros u [= <-] _. done.
    + destruct (Hst a sa Ha) as (b & Hbi & Hi & Hbt). exists b. split_and!; [by rewrite ?Hb|done|].
      intros u [= <-] ->. cbn [s_ptr]. specialize (Hbt t Et eq_refl). lia.
  - split; [|done]. intros a sa Ha. destruct (Hst a sa Ha) as (b & Hbi & Hi & Hbt).
    destruct (decide (b = s_base t)) as [->|Hne].
    + specialize (Hbt t Et eq_refl). right. lia.
    + apply (str_apart ends (s_base t) _ _ b); [unfold str_in; lia|done|]. apply Hap; [done|done|congruence].
Qed.

(** The blocks [malloc] has given out after an allocation that led from [m] to
    [m'] with the answer [ans]. *)
Definition blocks_after (m m' : strpool) (sz : Z) (ans : option Z) (ends : Z -> Z) : Z -> Z :=
  if decide (bases m' = bases m) then ends
  else match ans with
       | Some s => fun b => if b =? s then s + slow_size m sz else ends b
       | None => ends
       end.

Lemma bases_slow m sz s : bases (strpool_alloc_slow (Some s) m sz).1 = bases m ++ [s].
Proof. unfold bases. exact (fmap_app s_base (strpool_slabs m) [Slab s _ _]). Qed.

Definition str_allocated (m : strpool) (ends : Z -> Z) (strs : list (Z * Z)) (ans : option Z) (sz : Z)
    (r : strpool * Z) : Prop :=
  (r.2 = 0 /\ r.1 = m /\ ans = None) \/
  (r.2 <> 0 /\ str_ok r.1 (blocks_after m r.1 sz ans ends) ((r.2, sz) :: strs)).

Lemma str_alloc_ok m ends strs ans sz : str_ok m ends strs -> 0 <= sz < 2 ^ 62 ->
  fresh_block m ends (slow_size m sz) ans -> str_allocated m ends strs ans sz (strpool_alloc ans m sz).
Proof.
  intros Hok Hs Hans. unfold strpool_alloc.
  assert (str_allocated m ends strs ans sz (strpool_alloc_slow ans m sz)) as Hslow.
  { destruct ans as [s|]; [right|by left]. pose proof (bases_slow m sz s) as Hb.
    destruct (slow_ok m ends strs sz s Hok Hs Hans) as (m' & E & H). rewrite E in Hb |- *. cbn [fst snd] in *.
    destruct Hans as (Hs0 & _). split; [unfold sizeof_slab; lia|]. unfold blocks_after. rewrite Hb.
    destruct (decide _) as [Heq|]; [|done]. apply (f_equal length) in Heq. rewrite length_app in Heq. cbn in Heq. lia. }
  destruct (sp_tail m) as [t|] eqn:Et; [|done]. destruct (Z.ltb_spec (s_len t) sz) as [|Hle]; [done|]. clear Hslow.
  destruct (st_tail _ _ _ Hok t Et) as (Hp & _). pose proof (st_slabs _ _ _ Hok _ (bases_tail m t Et)).
  rewrite (proj2 (Z.ltb_ge _ _)) by lia. right. cbn [fst snd]. split; [unfold sizeof_slab in *; lia|].
  unfold blocks_after. rewrite decide_True.
  - apply bump_ok; [done|lia|done|done].
  - unfold bases, strpool_slabs. by rewrite Et, !fmap_app.
Qed.

(** A pool after some allocations. *)
Inductive srun : strpool -> (Z -> Z) -> list (Z * Z) -> Prop :=
| srun_new slab_size m : 0 <= slab_size < 2 ^ 62 -> strpool_new true slab_size = Some m -> srun m (fun _ => 0) []
| srun_alloc m ends strs ans sz m' ret : srun m ends strs -> 0 <= sz < 2 ^ 62 ->
    fresh_block m ends (slow_size m sz) ans -> strpool_alloc ans m sz = (m', ret) ->
    srun m' (blocks_after m m' sz ans ends) (if ret =? 0 then strs else (ret, sz) :: strs).

Lemma srun_ok m ends strs : srun m ends strs -> str_ok m ends strs.
Proof.
  induction 1 as [slab_size m Hs Hm|m ends strs ans sz m' ret _ IH Hs Hans E].
  - unfold strpool_new in Hm. cbn [negb] in Hm. injection Hm as <-. split; cbn; try done; [|set_solver..].
    unfold sizeof_slab. destruct (slab_size =? 0), (Z.ltb_spec slab_size 24), (Z.ltb_spec 8192 24); lia.
  - pose proof (str_alloc_ok m ends strs ans sz IH Hs Hans) as H. rewrite E in H.
    destruct H as [(H1 & H2 & ->)|(H1 & H2)]; cbn [fst snd] in *.
    + subst. cbn. unfold blocks_after. by rewrite decide_True.
    + by rewrite (proj2 (Z.eqb_neq ret 0)).
Qed.

(** ** Property *)

(** the strings a pool has handed out lie inside the blocks obtained from
    [malloc], past their headers, and do not overlap, whatever sizes were asked
    for; and an allocation only fails when [malloc] does, leaving the pool as
    it was. *)
Theorem strpool_strings m ends strs : srun m ends strs ->
  all_apart strs /\
  (forall a sz, (a, sz) ∈ strs -> exists b, b ∈ bases m /\ str_in ends b a sz) /\
  (forall ans sz, 0 <= sz < 2 ^ 62 -> fresh_block m ends (slow_size m sz) ans ->
    (strpool_alloc ans m sz).2 = 0 -> ans = None /\ (strpool_alloc ans m sz).1 = m).
Proof.
  intros Hr%srun_ok. split_and!; [apply Hr| |].
  - intros a sz Ha. destruct (st_strs _ _ _ Hr a sz Ha) as (b & ? & ? & _). eauto.
  - intros ans sz Hs Hans H0. destruct (str_alloc_ok m ends strs ans sz Hr Hs Hans) as [(_ & ? & ?)|(? & _)]; done.
Qed.

(** Three strings, the second too long for the first slab. *)
Definition sample_strs : list (Z * Z) := [(544, 4); (524, 20); (124, 6)].

Lemma strpool_strings_witness : exists m ends, srun m ends sample_strs /\ all_apart sample_strs.
Proof.
  set (s1 := Slab 100 18 130). set (m1 := Strpool 48 [] (Some s1)). set (m2 := Strpool 48 [s1] (Some (Slab 500 4 544))).
  assert (exists m ends, srun m ends sample_strs) as (m & ends & H).
  { eexists _, _.
    eapply (srun_alloc m2 _ [(524, 20); (124, 6)] None 4 (Strpool 48 [s1] (Some (Slab 500 0 548))) 544); [|done|done|reflexivity].
    eapply (srun_alloc m1 _ [(124, 6)] (Some 500) 20 m2 524); [|done| |reflexivity].
    - eapply (srun_alloc (Strpool 48 [] None) _ [] (Some 100) 6 m1 124); [|done| |reflexivity].
      + by apply (srun_new 48).
      + split_and!; [done|done|]. cbn. set_solver.
    - split_and!; [done|done|]. cbn. intros b ->%list_elem_of_singleton. split; [|done]. right. by vm_compute. }
  exists m, ends. split; [done|]. by apply (strpool_strings m ends _ H).
Defined.
