(* ===== verification/Vec.v ===== *)
(** * vec.c: counted byte vectors

    A [struct ro_vec] is modelled by the list of the [v_len] bytes at [v_ptr].
    Every function of [src/vec.c] is here; the comparison functions return a
    C [int], so a length difference is truncated to 32 bits as in the code. *)

From S2P Require Import Prelude.
Local Open Scope Z_scope.

(** ** Operations *)

(** [tolower] of the C locale. *)
Definition tolower (c : Z) : Z :=
  if (65 <=? c) && (c <=? 90) then c + 32 else c.

Fixpoint vtouint_loop (u : Z) (n : nat) (v : list Z) : Z * nat :=
  match v with
  | [] => (u, n)
  | c :: v' =>
    let digit := uint 32 (c - 48) in
    if 10 <=? digit then (u, n)
    else vtouint_loop (uint 32 (uint 32 (u * 10) + digit)) (S n) v'
  end.

(** The value stored through [u], and the number of bytes consumed. *)
Definition vtouint (v : list Z) : Z * nat := vtouint_loop 0 0 v.

(** The loop [for(idx..) { ret = f(v1[idx]) - f(v2[idx]); if (ret) break; }],
    over the common length. *)
Fixpoint cmp_bytes (f : Z -> Z) (v1 v2 : list Z) : Z :=
  match v1, v2 with
  | a :: v1', b :: v2' =>
    let ret := f a - f b in
    if ret =? 0 then cmp_bytes f v1' v2' else ret
  | _, _ => 0
  end.

Definition len_diff (v1 v2 : list Z) : Z :=
  Z.of_nat (length v1) - Z.of_nat (length v2).

Definition vcasecmp_fast (v1 v2 : list Z) : Z :=
  let ret := sint 64 (len_diff v1 v2) in
  sint 32 (if ret =? 0 then cmp_bytes tolower v1 v2 else ret).

Definition vcmp_fast (v1 v2 : list Z) : Z :=
  let ret := sint 64 (len_diff v1 v2) in
  sint 32 (if ret =? 0 then cmp_bytes id v1 v2 else ret).

(** The [strlen] bytes of [str] are the vector [v2]. *)
Definition vstrcmp_fast (v1 str : list Z) : Z := vcasecmp_fast v1 str.

Definition vcasecmp (v1 v2 : list Z) : Z :=
  let ret := sint 32 (len_diff v1 v2) in
  let d := cmp_bytes tolower v1 v2 in
  if d =? 0 then ret else d.

Definition vcmp (v1 v2 : list Z) : Z :=
  let ret := sint 32 (len_diff v1 v2) in
  let d := cmp_bytes id v1 v2 in
  if d =? 0 then ret else d.

Definition vstrcmp (v1 str : list Z) : Z := vcasecmp v1 str.

(** ** Reference notions *)

Definition is_digit (c : Z) : bool := (48 <=? c) && (c <=? 57).

Fixpoint digits (v : list Z) : list Z :=
  match v with
  | c :: v' => if is_digit c then c :: digits v' else []
  | [] => []
  end.

Definition decimal (v : list Z) : Z := foldl (fun a c => a * 10 + (c - 48)) 0 v.

(** Lengths an [int] can hold; every vector of the program is a slice of a
    buffer of at most 16 kB. *)
Definition short (v : list Z) : Prop := Z.of_nat (length v) < 2 ^ 31.

(** ** Lemmas *)

Lemma tolower_byte c : is_byte c = true -> is_byte (tolower c) = true.
Proof. rewrite !is_byte_spec. unfold tolower. case_match; lia. Qed.

Lemma tolower_idem c : tolower (tolower c) = tolower c.
Proof. unfold tolower. repeat case_match; lia. Qed.

Lemma digit_value c : is_byte c = true ->
  (10 <=? uint 32 (c - 48)) = negb (is_digit c) /\
  (is_digit c = true -> uint 32 (c - 48) = c - 48).
Proof.
  rewrite is_byte_spec. intros Hc. unfold is_digit.
  destruct (decide (48 <= c)).
  - rewrite uint_small by lia. lia.
  - replace (uint 32 (c - 48)) with (c - 48 + 2 ^ 32); [lia|].
    apply (Z.mod_unique_pos _ _ (-1)); lia.
Qed.

Lemma uint_accumulate a d : uint 32 (uint 32 (uint 32 a * 10) + d) = uint 32 (a * 10 + d).
Proof. unfold uint. by rewrite Z.mul_mod_idemp_l, Z.add_mod_idemp_l by lia. Qed.

Lemma vtouint_loop_spec v a n : bytes_ok v ->
  vtouint_loop (uint 32 a) n v =
  (uint 32 (foldl (fun a c => a * 10 + (c - 48)) a (digits v)), (n + length (digits v))%nat).
Proof.
  intros Hv. revert a n. induction Hv as [|c v Hc Hv IH]; intros a n;
    [by rewrite Nat.add_0_r|].
  destruct (digit_value c Hc) as [Hd Hval]. cbn [vtouint_loop digits]. rewrite Hd.
  destruct (is_digit c); cbn.
  - rewrite Hval by done. rewrite uint_accumulate, IH. f_equal. lia.
  - by rewrite Nat.add_0_r.
Qed.

Lemma vtouint_nonneg v : 0 <= (vtouint v).1.
Proof.
  unfold vtouint. assert (0 <= 0) as H by lia. revert H. generalize 0 at 2 4 as u. generalize 0%nat as n.
  induction v as [|c v IH]; intros n u Hu; cbn [vtouint_loop]; [done|].
  case_match; [done|]. apply IH, uint_bound. lia.
Qed.

Lemma cmp_bytes_zero f v1 v2 : length v1 = length v2 ->
  cmp_bytes f v1 v2 = 0 <-> f <$> v1 = f <$> v2.
Proof.
  revert v2. induction v1 as [|a v1 IH]; intros [|b v2] Hl; try done. cbn.
  destruct (Z.eqb_spec (f a - f b) 0) as [E|E].
  - rewrite IH by (cbn in Hl; lia). split; [|by intros [= ? ?]].
    intros ->. f_equal. lia.
  - split; [done|]. intros [= ? ?]. lia.
Qed.

Lemma cmp_bytes_bound f v1 v2 :
  (forall c, is_byte c = true -> is_byte (f c) = true) ->
  bytes_ok v1 -> bytes_ok v2 -> -256 < cmp_bytes f v1 v2 < 256.
Proof.
  intros Hf H1. revert v2. induction H1 as [|a v1 Ha H1 IH]; intros v2 H2; [cbn; lia|].
  destruct H2 as [|b v2 Hb H2]; cbn; [lia|].
  apply Hf, is_byte_spec in Ha. apply Hf, is_byte_spec in Hb.
  destruct (Z.eqb_spec (f a - f b) 0); [by apply IH|lia].
Qed.

Lemma cmp_bytes_antisym f v1 v2 : cmp_bytes f v2 v1 = - cmp_bytes f v1 v2.
Proof.
  revert v2. induction v1 as [|a v1 IH]; intros [|b v2]; try done. cbn.
  destruct (Z.eqb_spec (f a - f b) 0), (Z.eqb_spec (f b - f a) 0); try lia. apply IH.
Qed.

Lemma short_len_diff v1 v2 : short v1 -> short v2 ->
  sint 64 (len_diff v1 v2) = len_diff v1 v2 /\ sint 32 (len_diff v1 v2) = len_diff v1 v2.
Proof.
  unfold short, len_diff. intros. split; apply sint_small; cbn; lia.
Qed.

Lemma fast_zero f v1 v2 :
  (forall c, is_byte c = true -> is_byte (f c) = true) ->
  short v1 -> short v2 -> bytes_ok v1 -> bytes_ok v2 ->
  sint 32 (if sint 64 (len_diff v1 v2) =? 0 then cmp_bytes f v1 v2
           else sint 64 (len_diff v1 v2)) = 0 <-> f <$> v1 = f <$> v2.
Proof.
  intros Hf S1 S2 B1 B2. destruct (short_len_diff v1 v2) as [-> HL]; [done..|].
  pose proof (cmp_bytes_bound f v1 v2 Hf B1 B2).
  destruct (Z.eqb_spec (len_diff v1 v2) 0) as [E|E].
  - rewrite sint_small by (cbn; lia). apply cmp_bytes_zero. unfold len_diff in E. lia.
  - rewrite HL. split; [done|]. intros Hm%(f_equal length).
    rewrite !length_fmap in Hm. unfold len_diff in E. lia.
Qed.

Lemma vcasecmp_fast_zero v1 v2 : short v1 -> short v2 -> bytes_ok v1 -> bytes_ok v2 ->
  vcasecmp_fast v1 v2 = 0 <-> tolower <$> v1 = tolower <$> v2.
Proof. apply fast_zero, tolower_byte. Qed.

Lemma vcasecmp_fast_shorter v1 v2 : short v2 -> (length v1 < length v2)%nat ->
  vcasecmp_fast v1 v2 < 0.
Proof.
  intros S2 Hl. unfold vcasecmp_fast.
  destruct (short_len_diff v1 v2) as [-> Hd]; [unfold short in *; lia|done|].
  unfold len_diff in *. destruct (Z.eqb_spec (Z.of_nat (length v1) - Z.of_nat (length v2)) 0); lia.
Qed.

Lemma vcasecmp_fast_longer v1 v2 : short v1 -> (length v2 < length v1)%nat ->
  0 < vcasecmp_fast v1 v2.
Proof.
  intros S1 Hl. unfold vcasecmp_fast.
  destruct (short_len_diff v1 v2) as [-> Hd]; [done|unfold short in *; lia|].
  unfold len_diff in *. destruct (Z.eqb_spec (Z.of_nat (length v1) - Z.of_nat (length v2)) 0); lia.
Qed.

Lemma ordered_zero f v1 v2 : short v1 -> short v2 ->
  (let d := cmp_bytes f v1 v2 in if d =? 0 then sint 32 (len_diff v1 v2) else d) = 0 <->
  f <$> v1 = f <$> v2.
Proof.
  intros S1 S2. destruct (short_len_diff v1 v2) as [_ ->]; [done..|]. cbn zeta.
  destruct (decide (length v1 = length v2)) as [E|E].
  - rewrite <- (cmp_bytes_zero f v1 v2 E). unfold len_diff.
    destruct (Z.eqb_spec (cmp_bytes f v1 v2) 0); lia.
  - split; [|by intros Hm%(f_equal length); rewrite !length_fmap in Hm].
    unfold len_diff. destruct (Z.eqb_spec (cmp_bytes f v1 v2) 0); lia.
Qed.

Lemma fmap_id_eq (v1 v2 : list Z) : id <$> v1 = id <$> v2 <-> v1 = v2.
Proof. by rewrite !list_fmap_id. Qed.

(** ** Properties *)

(** [vtouint] consumes exactly the leading decimal digits of the vector and
    stores their decimal value modulo [2^32] (the unsigned accumulator wraps
    silently, however many digits there are). *)
Theorem vtouint_spec v : bytes_ok v ->
  vtouint v = (uint 32 (decimal (digits v)), length (digits v)).
Proof. apply (vtouint_loop_spec v 0 0). Qed.

Example vtouint_spec_witness :
  vtouint (lit "42949672978x1") = (uint 32 42949672978, 11%nat).
Proof. apply (vtouint_spec (lit "42949672978x1")). repeat constructor. Defined.

(** for vectors shorter than 2 GB the three equality tests the code relies on are
    exact: [vcmp_fast] is zero iff the vectors are equal, [vcasecmp_fast] (and
    [vstrcmp_fast], which it implements) iff they agree up to ASCII case, and
    the ordering functions [vcmp]/[vcasecmp] agree with them on equality. *)
Theorem vec_equality_tests v1 v2 :
  short v1 -> short v2 -> bytes_ok v1 -> bytes_ok v2 ->
  (vcmp_fast v1 v2 = 0 <-> v1 = v2) /\
  (vstrcmp_fast v1 v2 = 0 <-> tolower <$> v1 = tolower <$> v2) /\
  (vcmp v1 v2 = 0 <-> v1 = v2) /\
  (vstrcmp v1 v2 = 0 <-> tolower <$> v1 = tolower <$> v2).
Proof.
  intros S1 S2 B1 B2. split_and!.
  - rewrite <- fmap_id_eq. by apply fast_zero.
  - by apply vcasecmp_fast_zero.
  - rewrite <- fmap_id_eq. by apply ordered_zero.
  - by apply ordered_zero.
Qed.

Example vec_equality_tests_witness :
  vstrcmp_fast (lit "cOnTent-length") (lit "Content-Length") = 0.
Proof.
  apply (vec_equality_tests (lit "cOnTent-length") (lit "Content-Length"));
    [reflexivity..|repeat constructor|repeat constructor|reflexivity].
Defined.
