(* ===== verification/HttpParse.v ===== *)
(** * http-parse.h and http_parse.c: recognising and decoding HTTP headers

    [http_parse_incremental] is fed the bytes as they arrive and says when a
    complete header has been received; [http_decode_buf] then splits the header
    into a request (or status) line and header fields, storing the fields a
    table of [struct http_hcb] asks for.  Pointers into the receive buffer are
    offsets; the table's output pointers are the slots of the model's table. *)

From S2P Require Import Prelude Vec.

(** ** The incremental recogniser (http-parse.h) *)

Inductive rstate :=
| RSTATE_INITIAL | RSTATE_CR | RSTATE_LF | RSTATE_CRLF | RSTATE_LFCR | RSTATE_CRLFCR
| RSTATE_LFLF | RSTATE_CRLFLF | RSTATE_LFCRLF | RSTATE_CRLFCRLF.

#[export] Instance rstate_eq_dec : EqDecision rstate.
Proof. solve_decision. Defined.

Definition RSTATE_TERMINAL (s : rstate) : bool :=
  match s with
  | RSTATE_LFLF | RSTATE_CRLFLF | RSTATE_LFCRLF | RSTATE_CRLFCRLF => true
  | _ => false
  end.

(** The two tables have [RSTATE_NR_NONTERMINAL] entries: none for a terminal
    state. *)
Definition cr_map (s : rstate) : option rstate :=
  match s with
  | RSTATE_INITIAL => Some RSTATE_CR
  | RSTATE_CR => Some RSTATE_CR
  | RSTATE_LF => Some RSTATE_LFCR
  | RSTATE_CRLF => Some RSTATE_CRLFCR
  | RSTATE_LFCR => Some RSTATE_CR
  | RSTATE_CRLFCR => Some RSTATE_CR
  | _ => None
  end.

Definition lf_map (s : rstate) : option rstate :=
  match s with
  | RSTATE_INITIAL => Some RSTATE_LF
  | RSTATE_CR => Some RSTATE_CRLF
  | RSTATE_LF => Some RSTATE_LFLF
  | RSTATE_CRLF => Some RSTATE_CRLFLF
  | RSTATE_LFCR => Some RSTATE_LFCRLF
  | RSTATE_CRLFCR => Some RSTATE_CRLFCRLF
  | _ => None
  end.

(** [inp] is the bytes from [*rptr] to [end], [n] how far [*rptr] has moved:
    the results are the return value, [*state] and the advance of [*rptr]. *)
Fixpoint http_parse_incremental (state : rstate) (n : nat) (inp : list Z)
    : outcome (bool * rstate * nat) :=
  match inp with
  | [] => Ret (false, state, n)
  | c :: inp' =>
    if (c =? CR)%Z then
      state ← of_option AssertFailed (cr_map state);
      if RSTATE_TERMINAL state then Ret (true, state, n)
      else http_parse_incremental state (S n) inp'
    else if (c =? LF)%Z then
      state ← of_option AssertFailed (lf_map state);
      if RSTATE_TERMINAL state then Ret (true, state, n)
      else http_parse_incremental state (S n) inp'
    else http_parse_incremental RSTATE_INITIAL (S n) inp'
  end.

(** *** Specification: a blank line

    [h] is everything received so far, newest byte first.  The header is
    complete when it ends in two line feeds, with or without a carriage return
    between them. *)

Definition header_complete (h : list Z) : bool :=
  match h with
  | a :: b :: h' =>
    (a =? LF)%Z && ((b =? LF)%Z ||
      match h' with c :: _ => (b =? CR)%Z && (c =? LF)%Z | [] => false end)
  | _ => false
  end.

(** The non-terminal state the recogniser is in after [h]. *)
Definition state_of (h : list Z) : rstate :=
  match h with
  | a :: h1 =>
    let b := default 0%Z (head h1) in
    let c := default 0%Z (head (tail h1)) in
    if (a =? CR)%Z then
      if (b =? LF)%Z then if (c =? CR)%Z then RSTATE_CRLFCR else RSTATE_LFCR
      else RSTATE_CR
    else if (a =? LF)%Z then if (b =? CR)%Z then RSTATE_CRLF else RSTATE_LF
    else RSTATE_INITIAL
  | [] => RSTATE_INITIAL
  end.

(** No proper suffix of the history completed the header earlier. *)
Fixpoint incomplete (h : list Z) : Prop :=
  match h with
  | [] => True
  | _ :: h' => header_complete h = false /\ incomplete h'
  end.

(** One byte: the recogniser's state follows [state_of] until the header is
    complete, and is terminal exactly then. *)
Lemma incremental_step h c : incomplete h ->
  let next := if (c =? CR)%Z then cr_map (state_of h)
              else if (c =? LF)%Z then lf_map (state_of h)
              else Some RSTATE_INITIAL in
  exists s, next = Some s /\ RSTATE_TERMINAL s = header_complete (c :: h) /\
            (header_complete (c :: h) = false -> s = state_of (c :: h)).
Proof.
  intros Hi. cbn zeta.
  destruct (Z.eqb_spec c CR) as [->|Hcr]; [|destruct (Z.eqb_spec c LF) as [->|Hlf]].
  all: destruct h as [|b [|b' [|b'' h]]]; cbn in *.
  all: repeat match goal with
    | |- context [(?x =? ?y)%Z] => is_var x; destruct (Z.eqb_spec x y); subst; cbn in *
    end; try (unfold CR, LF in *; congruence); try naive_solver.
Qed.

Lemma incremental_correct inp : forall h n, incomplete h ->
  exists b s k, http_parse_incremental (state_of h) n inp = Ret (b, s, n + k) /\
    (forall j, j < k -> header_complete (rev (take (S j) inp) ++ h) = false) /\
    if b then k < length inp /\ header_complete (rev (take (S k) inp) ++ h) = true
    else k = length inp /\ s = state_of (rev inp ++ h) /\ incomplete (rev inp ++ h).
Proof.
  induction inp as [|c inp IH]; intros h n Hi.
  { exists false, (state_of h), 0. cbn. rewrite Nat.add_0_r. repeat split; [lia|done]. }
  destruct (incremental_step h c Hi) as (s & Hs & Ht & Hn).
  assert (http_parse_incremental (state_of h) n (c :: inp) =
    if header_complete (c :: h) then Ret (true, s, n)
    else http_parse_incremental (state_of (c :: h)) (S n) inp) as ->.
  { cbn [http_parse_incremental].
    destruct (c =? CR)%Z; [|destruct (c =? LF)%Z]; rewrite ?Hs;
      run; rewrite ?Ht.
    3: injection Hs as <-.
    all: destruct (header_complete (c :: h)); try done; by rewrite Hn. }
  destruct (header_complete (c :: h)) eqn:E.
  { exists true, s, 0. rewrite Nat.add_0_r. repeat split; cbn; [lia|lia|]. by rewrite take_0. }
  destruct (IH (c :: h) (S n)) as (b & s' & k & -> & Hk & Hb); [done|].
  exists b, s', (S k). rewrite Nat.add_succ_r. split; [done|].
  assert (forall j, rev (take (S (S j)) (c :: inp)) ++ h = rev (take (S j) inp) ++ c :: h) as Hr.
  { intros j. cbn [take]. cbn [rev]. by rewrite <- app_assoc. }
  split.
  - intros [|j] Hj; [by cbn; rewrite take_0|]. rewrite Hr. apply Hk. lia.
  - destruct b; [rewrite Hr; cbn; split; [lia|tauto]|].
    cbn [rev]. rewrite <- app_assoc. cbn. naive_solver.
Qed.

(** C25: starting from a fresh connection, over any sequence of received chunks
    the recogniser never trips its assertion, and answers "complete" exactly
    at the first byte at which the received bytes end in a blank line (two line
    feeds, possibly with a carriage return between); when it answers
    "incomplete" it has consumed everything and no prefix ends in a blank
    line. *)
Theorem incremental_finds_first_blank_line inp :
  exists b s k, http_parse_incremental RSTATE_INITIAL 0 inp = Ret (b, s, k) /\
    (forall j, j < k -> header_complete (rev (take (S j) inp)) = false) /\
    if b then k < length inp /\ header_complete (rev (take (S k) inp)) = true
    else k = length inp.
Proof.
  destruct (incremental_correct inp [] 0) as (b & s & k & H & Hk & Hb); [done|].
  exists b, s, k. split; [exact H|]. setoid_rewrite app_nil_r in Hk.
  split; [exact Hk|]. rewrite app_nil_r in Hb. destruct b; [exact Hb|apply Hb].
Qed.

(** C26: splitting the input at any point changes nothing: if the first part is
    incomplete, resuming from the saved state over the second part gives the
    answer, state and position that one run over both parts would give. *)
Theorem incremental_chunk_independent inp1 inp2 s n :
  http_parse_incremental RSTATE_INITIAL 0 inp1 = Ret (false, s, n) ->
  http_parse_incremental s n inp2 =
  http_parse_incremental RSTATE_INITIAL 0 (inp1 ++ inp2).
Proof.
  generalize 0 as n0, RSTATE_INITIAL as s0. intros n0 s0.
  revert s0 n0. induction inp1 as [|c inp1 IH]; intros s0 n0 H; cbn in *.
  { by injection H as <- <-. }
  repeat case_match; simplify_eq; try by apply IH.
  all: apply outcome_bind_ret in H as (s' & Hs' & H); rewrite Hs'; cbn.
  all: destruct (RSTATE_TERMINAL s'); [done|by apply IH].
Qed.

Example incremental_chunk_independent_witness :
  http_parse_incremental RSTATE_LFCR 7 [LF; SP] =
  http_parse_incremental RSTATE_INITIAL 0 (lit "GET /" ++ [LF; CR] ++ [LF; SP]).
Proof.
  apply (incremental_chunk_independent (lit "GET /" ++ [LF; CR]) [LF; SP] RSTATE_LFCR 7).
  reflexivity.
Defined.

(** ** Vectors into the receive buffer *)

(** A pointer: null, indeterminate (an uninitialised local), an offset into
    the buffer being decoded, or the address of other bytes. *)
Inductive ptr :=
| Null
| Indet
| At (off : nat)
| Static (l : list Z).

Record ro_vec := RoVec { v_ptr : ptr; v_len : nat }.

#[export] Instance ptr_eq_dec : EqDecision ptr.
Proof. solve_decision. Defined.
#[export] Instance ro_vec_eq_dec : EqDecision ro_vec.
Proof. solve_decision. Defined.

(** The bytes of a vector: reading any of them through a pointer that does not
    point at [v_len] bytes is an access outside the object. *)
Definition vec_bytes (mem : list Z) (v : ro_vec) : outcome (list Z) :=
  match v_len v with
  | O => Ret []
  | n =>
    match v_ptr v with
    | At off => if off + n <=? length mem then Ret (take n (drop off mem))
                else Fault OutOfBounds
    | Static l => if n <=? length l then Ret (take n l) else Fault OutOfBounds
    | Null | Indet => Fault OutOfBounds
    end
  end.

(** ** Field callbacks (http_parse.c) *)

Definition HTTP_VER_UNKNOWN : Z := 0xff%Z.
Definition HTTP_VER_0_9 : Z := 0x09%Z.
Definition HTTP_VER_1_0 : Z := 0x10%Z.
Definition HTTP_VER_1_1 : Z := 0x11%Z.
Definition INT_MAX : Z := (2 ^ 31 - 1)%Z.

Definition isdigit : Z -> bool := is_digit.

Definition http_proto_version (mem : list Z) (str : ro_vec) : outcome Z :=
  if negb (v_len str =? 8) then Ret HTTP_VER_UNKNOWN
  else if decide (v_ptr str = Null) then Ret HTTP_VER_UNKNOWN
  else
    s ← vec_bytes mem str;
    if negb (bool_decide (take 5 s = lit "HTTP/")) then Ret HTTP_VER_UNKNOWN
    else if negb (nth 6 s 0 =? 46)%Z then Ret HTTP_VER_UNKNOWN
    else if negb (isdigit (nth 5 s 0)%Z) || negb (isdigit (nth 7 s 0)%Z)
    then Ret HTTP_VER_UNKNOWN
    else
      let maj := (nth 5 s 0 - 48)%Z in
      let min := (nth 7 s 0 - 48)%Z in
      if ((maj <? 0) || (9 <? maj))%Z then Ret HTTP_VER_UNKNOWN
      else if ((min <? 0) || (9 <? min))%Z then Ret HTTP_VER_UNKNOWN
      else Ret (uint 8 (Z.lor (Z.shiftl min 4) maj)).

(** What a control block's union points to, by its contents; [UVec None] is
    the null vector pointer. *)
Inductive target :=
| UVec (vec : option ro_vec)
| UU16 (u16 : Z)
| UVal (val : Z).

Inductive htype := htype_string | htype_present | htype_int | htype_code.

Record http_hcb := Hcb { label : list Z; fn : htype; u : target }.

#[export] Instance target_eq_dec : EqDecision target.
Proof. solve_decision. Defined.
#[export] Instance htype_eq_dec : EqDecision htype.
Proof. solve_decision. Defined.
#[export] Instance http_hcb_eq_dec : EqDecision http_hcb.
Proof. solve_decision. Defined.

(** Calling [h->fn] on [h] and [v]: what the union points to afterwards.  A callback applied
    to the wrong member of the union writes through a wrong pointer. *)
Definition run_htype (mem : list Z) (h : http_hcb) (v : ro_vec) : outcome target :=
  match fn h, u h with
  | htype_string, UVec None => Ret (UVec None)
  | htype_string, UVec (Some _) => Ret (UVec (Some (RoVec (v_ptr v) (v_len v))))
  | htype_present, UVal _ => Ret (UVal 1)
  | htype_int, UVal _ =>
    b ← vec_bytes mem v;
    let (val, len) := vtouint b in
    Ret (UVal (if (len =? 0)%nat || (INT_MAX <? val)%Z then -1 else val)%Z)
  | htype_code, UU16 _ =>
    b ← vec_bytes mem v;
    let (val, len) := vtouint b in
    Ret (UU16 (if negb (len =? 3)%nat || (999 <? val)%Z then 0xffff else val)%Z)
  | _, _ => Fault OutOfBounds
  end.

Definition call_fn (mem : list Z) (d : list http_hcb) (i : nat) (v : ro_vec)
    : outcome (list http_hcb) :=
  h ← of_option OutOfBounds (d !! i);
  t ← run_htype mem h v;
  Ret (<[i := Hcb (label h) (fn h) t]> d).

(** [dispatch_hdr(d + 3, num_dcb - 3, &k, &v)] on the whole table [d]. *)
Definition dispatch_hdr (mem : list Z) (d : list http_hcb) (k v : ro_vec)
    : outcome (list http_hcb) :=
  r ← bsearch (fun i =>
        kb ← vec_bytes mem k;
        h ← of_option OutOfBounds (d !! i);
        Ret (vstrcmp_fast kb (label h))) (length d) 3 (length d - 3);
  match r with
  | Some i => call_fn mem d i v
  | None => Ret d
  end.

(** ** The decoder *)

Inductive dstate := State0 | State1 | State2 | State3 | State4.

Record decoder := Decoder {
  d_state : dstate;
  d_i : nat;
  d_hv : list ro_vec;        (* method, url, proto *)
  d_k : ro_vec;
  d_v : ro_vec;
  d_ret : nat;
  d_tbl : list http_hcb;
}.

(** [v_len = cur - v_ptr; if (v_len && cur[-1] == '\r') v_len--]. *)
Definition line_len (mem : list Z) (off cur : nat) : nat :=
  let len := cur - off in
  if negb (len =? 0) && (nth (cur - 1) mem 0 =? CR)%Z then len - 1 else len.

(** One iteration of the [for] loop at the byte [c] at offset [cur]; the flag
    says that the body set [cur = end]. *)
Definition decode_step (mem : list Z) (s : decoder) (cur : nat) (c : Z)
    : outcome (decoder * bool) :=
  let '(Decoder st i hv k v ret d) := s in
  match st with
  | State0 =>
    if negb (c =? SP)%Z
    then Ret (Decoder State1 i (<[i := RoVec (At cur) 0]> hv) k v ret d, false)
    else Ret (s, false)
  | State1 =>
    if (c =? SP)%Z then
      if i <? 2 then
        match v_ptr (nth i hv (RoVec Indet 0)) with
        | At off =>
          Ret (Decoder State0 (S i) (<[i := RoVec (At off) (cur - off)]> hv) k v ret d, false)
        | _ => Fault OutOfBounds
        end
      else Ret (s, false)
    else if (c =? LF)%Z then
      match v_ptr (nth i hv (RoVec Indet 0)) with
      | At off =>
        Ret (Decoder State2 i (<[i := RoVec (At off) (line_len mem off cur)]> hv)
               (RoVec (At (S cur)) 0) v (S cur) d, false)
      | _ => Fault OutOfBounds
      end
    else Ret (s, false)
  | State2 =>
    if (c =? 58)%Z then
      match v_ptr k with
      | At off => Ret (Decoder State3 i hv (RoVec (At off) (cur - off)) v ret d, false)
      | _ => Fault OutOfBounds
      end
    else if (c =? LF)%Z then Ret (Decoder st i hv k v (S cur) d, true)
    else Ret (s, false)
  | State3 =>
    if negb (c =? SP)%Z
    then Ret (Decoder State4 i hv k (RoVec (At cur) 0) ret d, false)
    else Ret (s, false)
  | State4 =>
    if (c =? LF)%Z then
      match v_ptr v with
      | At off =>
        let v := RoVec (At off) (line_len mem off cur) in
        d ← dispatch_hdr mem d k v;
        Ret (Decoder State2 i hv (RoVec (At (S cur)) 0) v ret d, false)
      | _ => Fault OutOfBounds
      end
    else Ret (s, false)
  end.

Fixpoint decode_loop (mem : list Z) (s : decoder) (cur : nat) (rest : list Z)
    : outcome decoder :=
  match rest with
  | [] => Ret s
  | c :: rest' =>
    r ← decode_step mem s cur c;
    if (r.2 : bool) then Ret r.1 else decode_loop mem r.1 (S cur) rest'
  end.

Definition decoder_start (d : list http_hcb) : decoder :=
  Decoder State0 0 (replicate 3 (RoVec Indet 0)) (RoVec Indet 0) (RoVec Indet 0) 0 d.

(** The return value and the table with what its pointers now point to. *)
Definition http_decode_buf (d : list http_hcb) (mem : list Z)
    : outcome (nat * list http_hcb) :=
  s ← decode_loop mem (decoder_start d) 0 mem;
  let hv i := nth i (d_hv s) (RoVec Indet 0) in
  if (v_len (hv 0) =? 0) || (v_len (hv 1) =? 0) then Ret (0, d_tbl s)
  else
    d ← call_fn mem (d_tbl s) 0 (hv 0);
    d ← call_fn mem d 1 (hv 1);
    d ← call_fn mem d 2 (hv 2);
    Ret (d_ret s, d).

(** ** Memory safety of the decoder *)

(** The vector lies within the first [n] bytes of the buffer. *)
Definition vec_in (n : nat) (v : ro_vec) : Prop :=
  match v_ptr v with
  | At off => off + v_len v <= n
  | Static l => v_len v <= length l
  | Null | Indet => v_len v = 0
  end.

Definition well_typed (h : http_hcb) : Prop :=
  match fn h, u h with
  | htype_string, UVec _ | htype_present, UVal _ | htype_int, UVal _ | htype_code, UU16 _ => True
  | _, _ => False
  end.

Definition slot_in (n : nat) (h : http_hcb) : Prop :=
  match u h with UVec (Some v) => vec_in n v | _ => True end.

(** The table a caller may pass: callbacks match their union member, output
    vectors already lie in the buffer, and the first three entries exist. *)
Definition table_ok (n : nat) (d : list http_hcb) : Prop :=
  3 <= length d /\ Forall (fun h => well_typed h /\ slot_in n h) d.

Lemma vec_in_mono n m v : n <= m -> vec_in n v -> vec_in m v.
Proof. unfold vec_in. case_match; lia. Qed.

Lemma vec_bytes_in mem v : vec_in (length mem) v ->
  exists b, vec_bytes mem v = Ret b /\ length b = v_len v.
Proof.
  destruct v as [p [|n]]; unfold vec_in, vec_bytes; cbn [v_ptr v_len];
    [by exists []|].
  destruct p as [| |off|l]; try done; intros Hn.
  all: rewrite (proj2 (Nat.leb_le _ _) Hn); eexists; split; [done|].
  - rewrite length_take, length_drop. lia.
  - rewrite length_take. lia.
Qed.

Lemma run_htype_safe mem h v : well_typed h -> vec_in (length mem) v ->
  exists t, run_htype mem h v = Ret t /\ well_typed (Hcb (label h) (fn h) t) /\
            slot_in (length mem) (Hcb (label h) (fn h) t).
Proof.
  intros Ht Hv. destruct (vec_bytes_in mem v Hv) as (b & Hb & _).
  destruct h as [lb f t]; unfold run_htype, well_typed, slot_in in *; cbn in *.
  destruct f, t as [[w|]| |]; try done; rewrite ?Hb; cbn; try (destruct (vtouint b)); eauto.
Qed.

Lemma call_fn_safe mem d i v : table_ok (length mem) d -> i < length d ->
  vec_in (length mem) v ->
  exists d', call_fn mem d i v = Ret d' /\ table_ok (length mem) d' /\
             label <$> d' = label <$> d.
Proof.
  intros [Hl Hd] Hi Hv. unfold call_fn.
  destruct (lookup_lt_is_Some_2 d i Hi) as [h Hh]. rewrite Hh; cbn.
  destruct (Forall_lookup_1 _ _ _ _ Hd Hh) as [Hw _].
  destruct (run_htype_safe mem h v Hw Hv) as (t & -> & Ht & Hs); cbn.
  eexists; split; [done|]. split; [split|].
  - by rewrite length_insert.
  - by apply Forall_insert.
  - rewrite list_fmap_insert. apply list_insert_id. by rewrite list_lookup_fmap, Hh.
Qed.

Lemma dispatch_hdr_safe mem d k v : table_ok (length mem) d ->
  vec_in (length mem) k -> vec_in (length mem) v ->
  exists d', dispatch_hdr mem d k v = Ret d' /\ table_ok (length mem) d' /\
             label <$> d' = label <$> d.
Proof.
  intros Hd Hk Hv. unfold dispatch_hdr.
  match goal with |- context [bsearch ?f ?a ?b ?n] =>
    destruct (bsearch_total f a b n) as [r Hr]; [lia| |rewrite Hr; cbn] end.
  { intros i Hi. destruct (vec_bytes_in mem k Hk) as (kb & -> & _); cbn.
    destruct (lookup_lt_is_Some_2 d i) as [h ->]; [lia|]. cbn. eauto. }
  destruct r as [i|]; [|by exists d].
  apply bsearch_sound in Hr as [Hi _]. apply call_fn_safe; [done|lia|done].
Qed.

(** The loop invariant at offset [cur]. *)
Definition decoder_ok (n cur : nat) (s : decoder) : Prop :=
  length (d_hv s) = 3 /\ Forall (vec_in cur) (d_hv s) /\ d_i s <= 2 /\ d_ret s <= cur /\
  table_ok n (d_tbl s) /\
  match d_state s with
  | State0 => True
  | State1 => exists off, v_ptr (nth (d_i s) (d_hv s) (RoVec Indet 0)) = At off /\ off < cur
  | State2 | State3 =>
    exists off, v_ptr (d_k s) = At off /\ off + v_len (d_k s) <= cur
  | State4 =>
    (exists off, v_ptr (d_k s) = At off /\ off + v_len (d_k s) <= cur) /\
    exists off, v_ptr (d_v s) = At off /\ off < cur
  end.

Lemma nth_insert_vec (hv : list ro_vec) i (v w : ro_vec) :
  i < length hv -> nth i (<[i := v]> hv) w = v.
Proof. intros. by apply nth_lookup_Some, list_lookup_insert_eq. Qed.

Lemma Forall_vec_in_insert n m i v hv : n <= m ->
  Forall (vec_in n) hv -> vec_in m v -> Forall (vec_in m) (<[i := v]> hv).
Proof.
  intros Hn Hf Hv. apply Forall_insert; [|done].
  eapply Forall_impl; [done|]. intros w. by apply vec_in_mono.
Qed.

Lemma line_len_le mem off cur : line_len mem off cur <= cur - off.
Proof. unfold line_len. case_match; lia. Qed.

Ltac decode_ok :=
  repeat match goal with
  | |- context [line_len ?m ?o ?c] => let H := fresh in
      pose proof (line_len_le m o c) as H; revert H; generalize (line_len m o c); intros ? H
  end;
  unfold decoder_ok; cbn; rewrite ?length_insert;
  split_and?; try done; try lia;
  try (eapply Forall_vec_in_insert; [|eassumption|unfold vec_in; cbn]; lia);
  try (eapply Forall_impl; [eassumption|intros ?; apply vec_in_mono; lia]);
  try (eexists; split; [first [eassumption|reflexivity]|cbn; lia]).

Lemma decode_step_safe mem s cur c : decoder_ok (length mem) cur s -> cur < length mem ->
  exists s' b, decode_step mem s cur c = Ret (s', b) /\ decoder_ok (length mem) (S cur) s' /\
               label <$> d_tbl s' = label <$> d_tbl s.
Proof.
  destruct s as [st i hv k v ret d].
  intros (Hl & Hhv & Hi & Hr & Hd & Hst) Hc; cbn in *.
  destruct st; cbn [decode_step].
  - destruct (c =? SP)%Z; cbn; do 2 eexists; (split; [done|]); split; try done; decode_ok.
    exists cur. rewrite nth_insert_vec by lia. split; [done|lia].
  - destruct Hst as (off & Hp & Ho). rewrite Hp.
    destruct (c =? SP)%Z; [destruct (Nat.leb_spec i 1)|destruct (c =? LF)%Z];
      do 2 eexists; (split; [done|]); split; try done; decode_ok.
  - destruct Hst as (off & Hp & Ho). rewrite Hp.
    destruct (c =? 58)%Z; [|destruct (c =? LF)%Z];
      do 2 eexists; (split; [done|]); split; try done; decode_ok.
  - destruct Hst as (off & Hp & Ho).
    destruct (c =? SP)%Z; cbn; do 2 eexists; (split; [done|]); split; try done; decode_ok.
  - destruct Hst as ((off & Hp & Ho) & voff & Hvp & Hvo). rewrite Hvp.
    destruct (c =? LF)%Z; [|do 2 eexists; (split; [done|]); split; try done; decode_ok].
    match goal with |- context [dispatch_hdr mem d k ?w] =>
      destruct (dispatch_hdr_safe mem d k w Hd) as (d' & -> & Hd' & Hlab) end.
    + unfold vec_in. rewrite Hp. lia.
    + unfold vec_in. cbn. pose proof (line_len_le mem voff cur). lia.
    + cbn. do 2 eexists; (split; [done|]); split; [|done]. decode_ok.
Qed.

Lemma decode_loop_safe mem rest : forall s cur, cur + length rest = length mem ->
  decoder_ok (length mem) cur s ->
  exists s', decode_loop mem s cur rest = Ret s' /\ decoder_ok (length mem) (length mem) s' /\
             label <$> d_tbl s' = label <$> d_tbl s.
Proof.
  induction rest as [|c rest IH]; intros s cur Hc Hs; cbn in *.
  { replace cur with (length mem) in Hs by lia. eauto. }
  destruct (decode_step_safe mem s cur c Hs) as (s1 & b & -> & Hs1 & Hl); [lia|].
  cbn. destruct b.
  - exists s1. split; [done|]. split; [|done]. destruct s1 as [st i hv k v ret d].
    destruct Hs1 as (?&?&?&?&?&Hst); cbn in *.
    unfold decoder_ok; cbn; split_and?; try done; try lia; [decode_ok|].
    destruct st; naive_solver lia.
  - destruct (IH s1 (S cur)) as (s' & ? & ? & Hl'); [lia|done|].
    exists s'. split_and!; [done..|]. congruence.
Qed.

Lemma http_decode_buf_fits mem d : table_ok (length mem) d ->
  exists n d', http_decode_buf d mem = Ret (n, d') /\ n <= length mem /\
    table_ok (length mem) d' /\ label <$> d' = label <$> d.
Proof.
  intros Hd. unfold http_decode_buf.
  destruct (decode_loop_safe mem mem (decoder_start d) 0) as (s & -> & Hs & Hl); [done| |].
  { unfold decoder_ok; cbn. split_and!; try done; try lia. repeat constructor. }
  destruct Hs as (Hlen & Hhv & Hi & Hr & Ht & _). run.
  destruct (d_hv s) as [|h0 [|h1 [|h2 [|]]]]; try done. cbn [nth].
  destruct (_ || _); [exists 0, (d_tbl s); split_and!; [done|lia|done..]|].
  inversion_clear Hhv as [|? ? H0 Hhv']. inversion_clear Hhv' as [|? ? H1 Hhv''].
  inversion_clear Hhv'' as [|? ? H2 _].
  assert (3 <= length (d_tbl s)) as Hlt by apply Ht.
  destruct (call_fn_safe mem (d_tbl s) 0 h0) as (d0 & -> & Ht0 & Hl0); [done|lia|done|].
  run.
  assert (3 <= length d0) by apply Ht0.
  destruct (call_fn_safe mem d0 1 h1) as (d1 & -> & Ht1 & Hl1); [done|lia|done|].
  run.
  assert (3 <= length d1) by apply Ht1.
  destruct (call_fn_safe mem d1 2 h2) as (d2 & -> & Ht2 & Hl2); [done|lia|done|].
  cbn. exists (d_ret s), d2. split_and!; [done..|]. by rewrite Hl2, Hl1, Hl0, Hl.
Qed.

(** C27: whatever bytes arrive, [http_decode_buf] never reads or writes outside the
    buffer, never dispatches through a wrong pointer and terminates; the
    header length it returns is at most the number of bytes given, every
    vector it stored lies within the buffer, and the table's labels are
    unchanged. *)
Theorem http_decode_buf_safe mem d : table_ok (length mem) d ->
  exists n d', http_decode_buf d mem = Ret (n, d') /\ n <= length mem /\
    table_ok (length mem) d' /\ label <$> d' = label <$> d.
Proof. apply http_decode_buf_fits. Qed.

Definition sample_table : list http_hcb :=
  [Hcb [] htype_string (UVec None); Hcb [] htype_code (UU16 0); Hcb [] htype_present (UVal 0);
   Hcb (lit "Age") htype_int (UVal 0)].

Example http_decode_buf_safe_witness :
  table_ok 20 sample_table /\
  exists n d, http_decode_buf sample_table (lit "a 200 " ++ [CR; LF; CR] ++ lit "Age:99999999999") =
    Ret (n, d).
Proof.
  assert (forall n, table_ok n sample_table) as H
    by (intros n; split; [cbn; lia|]; repeat constructor).
  split; [apply H|].
  destruct (http_decode_buf_safe (lit "a 200 " ++ [CR; LF; CR] ++ lit "Age:99999999999")
    sample_table (H _)) as (n & d & Hd & _). by exists n, d.
Defined.

Lemma vec_bytes_slice mem off len : (off + len <= length mem)%nat ->
  vec_bytes mem (RoVec (At off) len) = Ret (take len (drop off mem)).
Proof.
  intros Hl. unfold vec_bytes. cbn [v_len v_ptr]. destruct len; [by rewrite take_0|].
  by rewrite (proj2 (Nat.leb_le _ _) Hl).
Qed.

(** ** Protocol versions *)

(** for a protocol word "HTTP/a.b" the version is minor nibble first: the code's
    constants have the major nibble first, so only 1.1 (and 0.0, 2.2, ...)
    equals the constant that names it, and "HTTP/1.0" is not [HTTP_VER_1_0]. *)
Theorem http_proto_version_nibbles maj min :
  is_digit maj = true -> is_digit min = true ->
  let mem := lit "HTTP/" ++ [maj; 46%Z; min] in
  http_proto_version mem (RoVec (At 0) 8) = Ret (16 * (min - 48) + (maj - 48))%Z.
Proof.
  intros Hmaj Hmin mem. unfold is_digit in *.
  assert (isdigit maj = true /\ isdigit min = true) as [Da Di] by (unfold isdigit, is_digit; lia).
  unfold http_proto_version, mem. rewrite vec_bytes_slice by (cbn; lia). cbn.
  rewrite Da, Di. cbn.
  destruct (Z.ltb_spec (maj - 48)%Z 0%Z), (Z.ltb_spec 9%Z (maj - 48)%Z); try lia.
  destruct (Z.ltb_spec (min - 48)%Z 0%Z), (Z.ltb_spec 9%Z (min - 48)%Z); try lia. cbn [orb].
  rewrite lor_shiftl by lia. rewrite uint_small by lia. f_equal. lia.
Qed.

Example http_proto_version_nibbles_witness :
  http_proto_version (lit "HTTP/1.0") (RoVec (At 0) 8) = Ret 0x01%Z /\ HTTP_VER_1_0 = 0x10%Z.
Proof. split; [apply (http_proto_version_nibbles 49%Z 48%Z); reflexivity|reflexivity]. Defined.


(** ** Decoding a well-formed header *)

(** A header field line and a whole header, as a client prints them. *)
Definition print_field (f : list Z * list Z) : list Z :=
  f.1 ++ [58%Z; SP] ++ f.2 ++ crlf.

Definition print_header (m u p : list Z) (fs : list (list Z * list Z)) : list Z :=
  m ++ [SP] ++ u ++ [SP] ++ p ++ crlf ++ concat (print_field <$> fs) ++ crlf.

Definition token (w : list Z) : Prop := w <> [] /\ (SP ∉ w) /\ (LF ∉ w).

Definition not_after_space (w : list Z) : Prop := head w <> Some SP /\ (LF ∉ w).

Definition field_ok (f : list Z * list Z) : Prop :=
  (58%Z ∉ f.1) /\ (LF ∉ f.1) /\ not_after_space f.2.

(** Where the fields' keys and values lie when the first starts at [off]. *)
Fixpoint field_vecs (off : nat) (fs : list (list Z * list Z)) : list (ro_vec * ro_vec) :=
  match fs with
  | [] => []
  | (k, v) :: fs' =>
    (RoVec (At off) (length k), RoVec (At (off + length k + 2)) (length v)) ::
    field_vecs (off + length (print_field (k, v))) fs'
  end.

Fixpoint dispatch_all (mem : list Z) (d : list http_hcb) (l : list (ro_vec * ro_vec))
    : outcome (list http_hcb) :=
  match l with
  | [] => Ret d
  | (k, v) :: l' => d ← dispatch_hdr mem d k v; dispatch_all mem d l'
  end.

Lemma vec_bytes_at pre w post :
  vec_bytes (pre ++ w ++ post) (RoVec (At (length pre)) (length w)) = Ret w.
Proof.
  unfold vec_bytes; cbn [v_len v_ptr]. destruct w as [|x w]; [done|].
  cbn [length]. rewrite (proj2 (Nat.leb_le _ _)).
  - by rewrite drop_app_length, take_app_length'.
  - rewrite !length_app. cbn. lia.
Qed.

Lemma decode_loop_skip mem s cur w l :
  (forall c cur', c ∈ w -> decode_step mem s cur' c = Ret (s, false)) ->
  decode_loop mem s cur (w ++ l) = decode_loop mem s (cur + length w) l.
Proof.
  revert cur. induction w as [|c w IH]; intros cur Hw; cbn; [by rewrite Nat.add_0_r|].
  rewrite Hw by set_solver. cbn. rewrite IH by set_solver. f_equal. lia.
Qed.

(** A step that moves to another state without ending the loop. *)
Lemma decode_loop_cons mem s cur c l s' : decode_step mem s cur c = Ret (s', false) ->
  decode_loop mem s cur (c :: l) = decode_loop mem s' (S cur) l.
Proof. intros H. cbn. by rewrite H. Qed.

Lemma eqb_neq_false (a b : Z) : a <> b -> (a =? b)%Z = false.
Proof. apply Z.eqb_neq. Qed.

Lemma decode_word mem i hv k v r d cur w l : i < length hv -> i < 2 -> token w ->
  decode_loop mem (Decoder State0 i hv k v r d) cur (w ++ SP :: l) =
  decode_loop mem (Decoder State0 (S i) (<[i := RoVec (At cur) (length w)]> hv) k v r d)
    (cur + length w + 1) l.
Proof.
  intros Hi Hi2 (Hne & Hsp & Hlf). destruct w as [|x w]; [done|]. cbn [app].
  rewrite decode_loop_cons with (s' := Decoder State1 i (<[i := RoVec (At cur) 0]> hv) k v r d).
  2: { cbn. by rewrite eqb_neq_false by set_solver. }
  rewrite decode_loop_skip.
  2: { intros c cur' Hc. cbn. by rewrite !eqb_neq_false by set_solver. }
  rewrite decode_loop_cons with
    (s' := Decoder State0 (S i) (<[i := RoVec (At cur) (length (x :: w))]> hv) k v r d).
  - f_equal. cbn. lia.
  - cbn [decode_step]. rewrite Z.eqb_refl. destruct (Nat.ltb_spec i 2); [|lia].
    rewrite nth_insert_vec by done. cbn [v_ptr]. rewrite list_insert_insert_eq.
    by replace (S cur + length w - cur) with (length (x :: w)) by (cbn; lia).
Qed.

(** At a line feed that follows [w] and a carriage return, the trimmed length
    is that of [w]. *)
Lemma line_len_crlf mem (pre w post : list Z) : mem = pre ++ w ++ CR :: post ->
  line_len mem (length pre) (length pre + length w + 1) = length w.
Proof.
  intros ->. unfold line_len.
  replace (length pre + length w + 1 - 1) with (length (pre ++ w))
    by (rewrite length_app; lia).
  rewrite app_assoc, nth_middle, Z.eqb_refl.
  destruct (Nat.eqb_spec (length pre + length w + 1 - length pre) 0); cbn; lia.
Qed.

Lemma decode_proto mem pre hv k v r d w l : 2 < length hv ->
  mem = pre ++ w ++ CR :: LF :: l -> w <> [] -> not_after_space w ->
  let cur := length pre in
  decode_loop mem (Decoder State0 2 hv k v r d) cur (w ++ CR :: LF :: l) =
  decode_loop mem (Decoder State2 2 (<[2 := RoVec (At cur) (length w)]> hv)
    (RoVec (At (cur + length w + 2)) 0) v (cur + length w + 2) d) (cur + length w + 2) l.
Proof.
  intros Hi Hm Hne [Hsp Hlf] cur. destruct w as [|x w]; [done|]. cbn [app] in *.
  rewrite decode_loop_cons with (s' := Decoder State1 2 (<[2 := RoVec (At cur) 0]> hv) k v r d).
  2: { cbn. rewrite eqb_neq_false; [done|]. by intros ->. }
  replace (w ++ CR :: LF :: l) with ((w ++ [CR]) ++ LF :: l) by by rewrite <- app_assoc.
  rewrite decode_loop_skip.
  2: { intros c cur' Hc. cbn. rewrite (eqb_neq_false c LF); [by destruct (c =? SP)%Z|].
       unfold CR, LF in *. set_solver. }
  replace (cur + length (x :: w) + 2) with (S (S cur + length (w ++ [CR])))
    by (rewrite length_app; cbn; lia).
  apply decode_loop_cons. cbn [decode_step].
  change (LF =? SP)%Z with false. rewrite Z.eqb_refl. cbn iota.
  rewrite nth_insert_vec by done. cbn [v_ptr]. rewrite list_insert_insert_eq.
  replace (S cur + length (w ++ [CR])) with (length pre + length (x :: w) + 1)
    by (rewrite length_app; unfold cur; cbn; lia).
  unfold cur. by rewrite (line_len_crlf mem pre (x :: w) (LF :: l)).
Qed.

Lemma decode_field mem pre hv v0 r d k v l : field_ok (k, v) ->
  mem = pre ++ print_field (k, v) ++ l ->
  let cur := length pre in
  decode_loop mem (Decoder State2 2 hv (RoVec (At cur) 0) v0 r d) cur (print_field (k, v) ++ l) =
  d ← dispatch_hdr mem d (RoVec (At cur) (length k)) (RoVec (At (cur + length k + 2)) (length v));
  let cur := length (pre ++ print_field (k, v)) in
  decode_loop mem (Decoder State2 2 hv (RoVec (At cur) 0)
    (RoVec (At (length pre + length k + 2)) (length v)) r d) cur l.
Proof.
  intros (Hk & Hklf & Hv & Hvlf) Hm cur. unfold print_field in *. cbn [fst snd] in *.
  rewrite <- !app_assoc in *. cbn [app crlf] in *.
  rewrite decode_loop_skip by (intros c cur' Hc; cbn; by rewrite !eqb_neq_false by set_solver).
  rewrite decode_loop_cons with
    (s' := Decoder State3 2 hv (RoVec (At cur) (length k)) v0 r d).
  2: { cbn. do 3 f_equal. f_equal. lia. }
  rewrite (decode_loop_cons _ _ _ SP _ (Decoder State3 2 hv (RoVec (At cur) (length k)) v0 r d))
    by done.
  set (vo := cur + length k + 2). replace (S (S (cur + length k))) with vo by (unfold vo; lia).
  destruct (v ++ CR :: LF :: l) as [|x t] eqn:Et; [by destruct v|].
  assert (x <> SP) as Hx by (destruct v; cbn in *; simplify_eq; [done|naive_solver]).
  rewrite decode_loop_cons with
    (s' := Decoder State4 2 hv (RoVec (At cur) (length k)) (RoVec (At vo) 0) r d)
    by (cbn; by rewrite eqb_neq_false).
  assert (exists w, x :: w = v ++ [CR] /\ t = w ++ LF :: l) as (w & Hw & ->).
  { destruct v; cbn in *; simplify_eq; [by exists []|].
    eexists; split; [done|]. by rewrite <- app_assoc. }
  rewrite decode_loop_skip.
  2: { intros c cur' Hc. cbn. rewrite eqb_neq_false; [done|]. intros ->.
       assert (LF ∈ v ++ [CR]) by (rewrite <- Hw; set_solver). unfold CR, LF in *. set_solver. }
  cbn [decode_loop decode_step]. rewrite Z.eqb_refl. cbn [v_ptr].
  unfold vo, cur in *.
  assert (S (length pre + length k + 2) + length w = length (pre ++ k ++ [58%Z; SP]) + length v + 1) as ->.
  { apply (f_equal length) in Hw. rewrite !length_app in *. cbn in *. lia. }
  replace (length pre + length k + 2) with (length (pre ++ k ++ [58%Z; SP])) by (rewrite !length_app; cbn; lia).
  rewrite (line_len_crlf mem _ v (LF :: l)).
  2: { rewrite Hm, <- !app_assoc. by rewrite <- Et. }
  destruct (dispatch_hdr _ _ _ _); cbn; [|done]. rewrite !length_app. cbn.
  repeat f_equal; rewrite ?length_app; cbn; lia.
Qed.

(** What [http_decode_buf] uses of the loop's final state. *)
Definition observe (s : decoder) : list ro_vec * nat * list http_hcb :=
  (d_hv s, d_ret s, d_tbl s).

Lemma length_print_field f : length (print_field f) = length f.1 + length f.2 + 4.
Proof. unfold print_field, crlf. rewrite !length_app. cbn. lia. Qed.

Lemma decode_fields mem rest hv : forall fs pre v0 r d,
  Forall field_ok fs ->
  mem = pre ++ concat (print_field <$> fs) ++ crlf ++ rest ->
  let cur := length pre in
  (s ← decode_loop mem (Decoder State2 2 hv (RoVec (At cur) 0) v0 r d) cur
         (concat (print_field <$> fs) ++ crlf ++ rest); Ret (observe s)) =
  d ← dispatch_all mem d (field_vecs cur fs);
  Ret (hv, cur + length (concat (print_field <$> fs) ++ crlf), d).
Proof.
  induction fs as [|[k v] fs IH]; intros pre v0 r d Hf Hm cur.
  - cbn. unfold observe. cbn. repeat f_equal. lia.
  - inversion_clear Hf as [|? ? Hkv Hfs]. cbn [fmap list_fmap concat] in *.
    rewrite <- app_assoc in *.
    unfold cur. rewrite (decode_field mem pre hv v0 r d k v) by done.
    cbn [field_vecs dispatch_all].
    destruct (dispatch_hdr _ _ _ _) as [d'|e]; [|done]. run.
    rewrite (IH (pre ++ print_field (k, v))); [|done|by rewrite <- app_assoc].
    rewrite length_app. destruct (dispatch_all _ _ _); [|done].
    cbn. rewrite !length_app. do 2 f_equal. f_equal. lia.
Qed.

(** The whole decoder on a printed header followed by anything. *)
Lemma decode_printed m u p fs rest d :
  token m -> token u -> p <> [] -> not_after_space p -> Forall field_ok fs ->
  let mem := print_header m u p fs ++ rest in
  let o1 := length m + 1 in
  let o2 := o1 + length u + 1 in
  http_decode_buf d mem =
  d ← dispatch_all mem d (field_vecs (o2 + length p + 2) fs);
  d ← call_fn mem d 0 (RoVec (At 0) (length m));
  d ← call_fn mem d 1 (RoVec (At o1) (length u));
  d ← call_fn mem d 2 (RoVec (At o2) (length p));
  Ret (length (print_header m u p fs), d).
Proof.
  intros Hm Hu Hpne Hp Hfs mem o1 o2. unfold http_decode_buf.
  assert (mem = m ++ SP :: u ++ SP :: p ++ CR :: LF ::
            (concat (print_field <$> fs) ++ crlf ++ rest)) as Hmem.
  { unfold mem, print_header. by rewrite <- !app_assoc. }
  assert (length mem = length (print_header m u p fs) + length rest) as Hlen
    by (unfold mem; by rewrite length_app).
  set (hv := [RoVec (At 0) (length m); RoVec (At o1) (length u); RoVec (At o2) (length p)]).
  assert ((s ← decode_loop mem (decoder_start d) 0 mem; Ret (observe s)) =
          d ← dispatch_all mem d (field_vecs (o2 + length p + 2) fs);
          Ret (hv, length (print_header m u p fs), d)) as H.
  { rewrite Hmem at 2. unfold decoder_start.
    rewrite decode_word by (done || (cbn; lia)). rewrite decode_word by (done || (cbn; lia)).
    cbn [replicate insert list_insert].
    set (pre := m ++ SP :: u ++ [SP]).
    assert (0 + length m + 1 + length u + 1 = length pre) as ->
      by (unfold pre; app_len).
    rewrite (decode_proto mem pre) by (done || (cbn; lia) || (unfold pre; rewrite Hmem; by app_norm)).
    replace (length pre + length p + 2) with (length (pre ++ p ++ crlf))
      by app_len.
    rewrite (decode_fields mem rest) by (done || (unfold pre; rewrite Hmem; by app_norm)).
    replace (length (pre ++ p ++ crlf)) with (o2 + length p + 2)
      by (unfold pre, o2, o1; app_len).
    destruct (dispatch_all _ _ _); [|done]. cbn. do 2 f_equal. f_equal.
    - unfold hv, pre, o2, o1. repeat f_equal; app_len.
    - unfold print_header, o2, o1. app_len. }
  destruct (decode_loop mem (decoder_start d) 0 mem) as [s|e]; cbn in H.
  - destruct (dispatch_all _ _ _) as [d'|]; [|done]. cbn in H |- *. injection H as -> -> ->.
    unfold hv. cbn [nth v_len].
    destruct Hm as (? & _ & _), Hu as (? & _ & _). destruct m, u; done.
  - destruct (dispatch_all _ _ _); [done|]. cbn in *. congruence.
Qed.

(** Anything the dispatcher preserves of the table, the loop preserves; keys
    point into the buffer. *)
Lemma decode_loop_tbl mem (P : list http_hcb -> Prop) :
  (forall d off len v d', off + len <= length mem -> P d ->
    dispatch_hdr mem d (RoVec (At off) len) v = Ret d' -> P d') ->
  forall rest s cur s', cur + length rest = length mem -> decoder_ok (length mem) cur s ->
    P (d_tbl s) -> decode_loop mem s cur rest = Ret s' -> P (d_tbl s').
Proof.
  intros HP. induction rest as [|c rest IH]; intros s cur s' Hc Hok Hs H; cbn in *;
    [congruence|].
  destruct (decode_step_safe mem s cur c Hok) as (s1 & b & H1 & Hok1 & _); [lia|].
  rewrite H1 in H. cbn in H.
  assert (P (d_tbl s1)) as Hs1.
  { clear H. destruct s as [st i hv k v ret d]; cbn in Hs. destruct st; cbn [decode_step] in H1;
      repeat case_match; simplify_eq; try done.
    apply outcome_bind_ret in H1 as (d' & Hd & H1). simplify_eq. cbn.
    destruct Hok as (_ & _ & _ & _ & _ & (koff & Hk & Hlen) & _). cbn in Hk, Hlen.
    destruct k as [kp kl]; cbn in Hk, Hlen; subst kp.
    eapply HP; [|exact Hs|exact Hd]. lia. }
  destruct b; [congruence|]. eapply IH; [|exact Hok1|exact Hs1|exact H]. lia.
Qed.
