(* ===== verification/HttpReq.v ===== *)
(** * http_req.c and http_resp.c: requests and responses

    The two tables of header fields, and the functions that fill in a
    [struct http_request] and a [struct http_response]. *)

From S2P Require Import Prelude Vec HttpParse.
Local Open Scope Z_scope.

Definition HTTP_DEFAULT_PORT : Z := 80.

Record http_request := HttpRequest {
  method : ro_vec;
  host : ro_vec;
  uri : ro_vec;
  query : ro_vec;
  hostname : ro_vec;
  etag : ro_vec;
  content_len : Z;
  port : Z;
  proto_vers : Z;
  conn_close : Z;
}.

(** A zeroed vector. *)
Definition vec0 : ro_vec := RoVec Null 0.

(** The table [hcb] of [http_req], given what its pointers point to. *)
Definition req_hcb (m ur pv connection : ro_vec) (clen : Z) (h e : ro_vec) : list http_hcb :=
  [ Hcb (lit "method") htype_string (UVec (Some m));
    Hcb (lit "uri") htype_string (UVec (Some ur));
    Hcb (lit "protocol") htype_string (UVec (Some pv));
    Hcb (lit "Connection") htype_string (UVec (Some connection));
    Hcb (lit "Content-Length") htype_int (UVal clen);
    Hcb (lit "Host") htype_string (UVec (Some h));
    Hcb (lit "If-None-Match") htype_string (UVec (Some e)) ].

Definition slot_vec (d : list http_hcb) (i : nat) : ro_vec :=
  match d !! i with
  | Some (Hcb _ _ (UVec (Some v))) => v
  | _ => vec0
  end.

Definition slot_val (d : list http_hcb) (i : nat) : Z :=
  match d !! i with
  | Some (Hcb _ _ (UVal z)) | Some (Hcb _ _ (UU16 z)) => z
  | _ => 0
  end.

Definition ptr_add (p : ptr) (n : nat) : ptr :=
  match p with
  | At off => At (off + n)
  | Static l => Static (drop n l)
  | p => p
  end.

Definition close_token : list Z := lit "Close".

(** [for(i = hostname.v_len; i; i--) if (hostname.v_ptr[i - 1] == ':') break;] *)
Fixpoint find_colon (b : list Z) (i : nat) : option nat :=
  match i with
  | O => None
  | S i' => if nth i' b 0 =? 58 then Some i else find_colon b i'
  end.

(** The block under [if (r->host.v_ptr)]: the [hostname] vector and [port]. *)
Definition split_host (mem : list Z) (h : ro_vec) : outcome (ro_vec * Z) :=
  b ← vec_bytes mem h;
  let '(hn, prt) :=
    match find_colon b (v_len h) with
    | Some i => (RoVec (v_ptr h) (i - 1), RoVec (ptr_add (v_ptr h) i) (v_len h - i))
    | None => (h, vec0)
    end in
  if (v_len prt =? 0)%nat then Ret (hn, HTTP_DEFAULT_PORT)
  else
    pb ← vec_bytes mem prt;
    let (p, len) := vtouint pb in
    Ret (hn, if (len =? v_len prt)%nat && (p <? 2 ^ 16) then p else HTTP_DEFAULT_PORT).

(** [http_req(r, ptr, len)] on a zeroed [*r]: the length of the header, 0 for
    an error, and [*r]. *)
Definition http_req (mem : list Z) : outcome (nat * http_request) :=
  '(hlen, d) ← http_decode_buf (req_hcb vec0 vec0 vec0 vec0 (-1) vec0 vec0) mem;
  let r := HttpRequest (slot_vec d 0) (slot_vec d 5) (slot_vec d 1) vec0 vec0
             (slot_vec d 6) 0 0 0 0 in
  if (hlen =? 0)%nat then Ret (O, r)
  else
    vers ← http_proto_version mem (slot_vec d 2);
    let clen := slot_val d 4 in
    cb ← vec_bytes mem (slot_vec d 3);
    let cl := if vcasecmp_fast cb close_token =? 0 then 1 else 0 in
    '(hn, prt) ← (if decide (v_ptr (host r) = Null) then Ret (vec0, HTTP_DEFAULT_PORT)
                  else split_host mem (host r));
    let ur := if decide (v_ptr (uri r) = Null) then RoVec (Static (lit "/")) 1 else uri r in
    Ret (hlen, HttpRequest (method r) (host r) ur vec0 hn (etag r)
                 (if 0 <? clen then clen else 0) prt vers cl).

Record http_response := HttpResponse {
  rs_host : ro_vec;
  rs_content_len : Z;
  rs_code : Z;
  rs_proto_vers : Z;
  rs_conn_close : Z;
  rs_transfer_enc : ro_vec;
  rs_content_type : ro_vec;
  rs_content_enc : ro_vec;
}.

(** The table of [http_resp]. *)
Definition resp_hcb (pv : ro_vec) (code : Z) (connection ctype : ro_vec) (clen : Z)
    (cenc tenc : ro_vec) : list http_hcb :=
  [ Hcb (lit "protocol") htype_string (UVec (Some pv));
    Hcb (lit "code") htype_code (UU16 code);
    Hcb (lit "msg") htype_string (UVec None);
    Hcb (lit "Connection") htype_string (UVec (Some connection));
    Hcb (lit "Content-Type") htype_string (UVec (Some ctype));
    Hcb (lit "Content-Length") htype_int (UVal clen);
    Hcb (lit "Content-Encoding") htype_string (UVec (Some cenc));
    Hcb (lit "Transfer-Encoding") htype_string (UVec (Some tenc)) ].

Definition http_resp (mem : list Z) : outcome (nat * http_response) :=
  '(hlen, d) ← http_decode_buf (resp_hcb vec0 0 vec0 vec0 (-1) vec0 vec0) mem;
  if (hlen =? 0)%nat
  then Ret (O, HttpResponse vec0 0 (slot_val d 1) 0 0 (slot_vec d 7) (slot_vec d 4) (slot_vec d 6))
  else
    let clen := slot_val d 5 in
    cb ← vec_bytes mem (slot_vec d 3);
    let cl := if vcasecmp_fast cb close_token =? 0 then 1 else 0 in
    vers ← http_proto_version mem (slot_vec d 0);
    Ret (hlen, HttpResponse vec0 (if 0 <? clen then clen else 0) (slot_val d 1) vers cl
                 (slot_vec d 7) (slot_vec d 4) (slot_vec d 6)).

(** ** What the binary search of the request table finds *)

Definition field_is (name : string) (k : list Z) : bool := vstrcmp_fast k (lit name) =? 0.

Lemma field_is_spec name k : short k -> bytes_ok k -> short (lit name) ->
  bytes_ok (lit name) ->
  field_is name k = true <-> tolower <$> k = tolower <$> lit name.
Proof. intros. unfold field_is. rewrite Z.eqb_eq. by apply vcasecmp_fast_zero. Qed.

(** The sign of a comparison with a label of another length. *)
Lemma label_sign k s : short k -> short s ->
  (length k < length s)%nat /\ (vstrcmp_fast k s <? 0) = true /\ (vstrcmp_fast k s =? 0) = false \/
  (length s < length k)%nat /\ (vstrcmp_fast k s <? 0) = false /\
    (0 <? vstrcmp_fast k s) = true /\ (vstrcmp_fast k s =? 0) = false \/
  length k = length s.
Proof.
  intros Hk Hs. unfold vstrcmp_fast.
  destruct (lt_eq_lt_dec (length k) (length s)) as [[Hl|Hl]|Hl]; [left| |right; left].
  - pose proof (vcasecmp_fast_shorter k s Hs Hl). split_and!; lia.
  - by right; right.
  - pose proof (vcasecmp_fast_longer k s Hk Hl). split_and!; lia.
Qed.

(** The search over four elements, unrolled: it only ever looks at the third
    and then at the last, or at the second and the first. *)
Lemma bsearch4 f lo fuel : (4 <= fuel)%nat ->
  bsearch f fuel lo 4 =
  c2 ← f (lo + 2)%nat;
  if c2 <? 0 then
    c1 ← f (lo + 1)%nat;
    if c1 <? 0 then
      c0 ← f lo;
      if c0 <? 0 then Ret None else if 0 <? c0 then Ret None else Ret (Some lo)
    else if 0 <? c1 then Ret None else Ret (Some (lo + 1)%nat)
  else if 0 <? c2 then
    c3 ← f (lo + 3)%nat;
    if c3 <? 0 then Ret None else if 0 <? c3 then Ret None else Ret (Some (lo + 3)%nat)
  else Ret (Some (lo + 2)%nat).
Proof.
  intros Hf. do 4 (destruct fuel as [|fuel]; [lia|]).
  assert (forall l, bsearch f fuel l 0 = Ret None) as H0 by by destruct fuel.
  cbn [bsearch Nat.div2 Nat.sub].
  rewrite ?Nat.add_0_r. replace (lo + (2 + 1) + 0)%nat with (lo + 3)%nat by lia.
  repeat (match goal with |- (_ ≫= _) = _ => destruct (f _); [run|done]
    | |- (if ?b then _ else _) = _ => destruct b end; try done).
  all: try (by rewrite ?Nat.add_0_r). all: do 2 f_equal; lia.
Qed.

(** The four labels from index 3 on are in alphabetical, not length, order: the
    search visits "Host" first and, when the key is longer, only "If-None-Match"
    after it. *)
Lemma dispatch_req mem m ur pv c n h e k v kb :
  vec_bytes mem k = Ret kb -> short kb ->
  dispatch_hdr mem (req_hcb m ur pv c n h e) k v =
  Ret (if field_is "Host" kb then req_hcb m ur pv c n v e
       else if field_is "If-None-Match" kb then req_hcb m ur pv c n h v
       else req_hcb m ur pv c n h e).
Proof.
  intros Hk Hs. unfold dispatch_hdr, field_is.
  change (length (req_hcb m ur pv c n h e)) with 7%nat. change (7 - 3)%nat with 4%nat.
  rewrite bsearch4 by lia. rewrite Hk. run.
  cbn [of_option lookup list_lookup Nat.add req_hcb label mbind outcome_bind].
  destruct v as [vp vl].
  assert (forall s, short (lit s) -> (length kb < length (lit s))%nat ->
    (vstrcmp_fast kb (lit s) <? 0) = true /\ (vstrcmp_fast kb (lit s) =? 0) = false) as Hlt.
  { intros s Hl Hlen. pose proof (vcasecmp_fast_shorter kb (lit s) Hl Hlen). unfold vstrcmp_fast. lia. }
  destruct (label_sign kb (lit "Host")) as [(H4 & -> & ->)|[(H4 & -> & -> & ->)|H4]];
    [done|done| | |]; change (length (lit "Host")) with 4%nat in *.
  - destruct (Hlt "Content-Length") as [-> _]; [done|cbn; lia|].
    destruct (Hlt "Connection") as [-> _]; [done|cbn; lia|].
    by destruct (Hlt "If-None-Match") as [_ ->]; [done|cbn; lia|].
  - destruct (Z.ltb_spec (vstrcmp_fast kb (lit "If-None-Match")) 0),
      (Z.ltb_spec 0 (vstrcmp_fast kb (lit "If-None-Match"))),
      (Z.eqb_spec (vstrcmp_fast kb (lit "If-None-Match")) 0); done || lia.
  - destruct (Hlt "Content-Length") as [-> _]; [done|cbn; lia|].
    destruct (Hlt "Connection") as [-> _]; [done|cbn; lia|].
    destruct (Hlt "If-None-Match") as [-> ->]; [done|cbn; lia|].
    destruct (Z.ltb_spec (vstrcmp_fast kb (lit "Host")) 0),
      (Z.ltb_spec 0 (vstrcmp_fast kb (lit "Host"))),
      (Z.eqb_spec (vstrcmp_fast kb (lit "Host")) 0); done || lia.
Qed.

(** ** Every table reachable while a request is decoded *)

Definition req_table (d : list http_hcb) : Prop :=
  exists h e, d = req_hcb vec0 vec0 vec0 vec0 (-1) h e.

Lemma short_slice n off mem : short mem -> short (take n (drop off mem)).
Proof. unfold short. rewrite length_take, length_drop. lia. Qed.

Lemma req_dispatch_preserves mem d off len v d' : short mem -> (off + len <= length mem)%nat ->
  req_table d -> dispatch_hdr mem d (RoVec (At off) len) v = Ret d' -> req_table d'.
Proof.
  intros Hs Hl (h & e & ->) H.
  rewrite (dispatch_req _ _ _ _ _ _ _ _ _ _ _ (vec_bytes_slice _ _ _ Hl)) in H
    by by apply short_slice.
  injection H as <-. unfold req_table. repeat case_match; eauto.
Qed.

Lemma req_table_ok n : table_ok n (req_hcb vec0 vec0 vec0 vec0 (-1) vec0 vec0).
Proof. split; [cbn; lia|]. repeat constructor. Qed.

(** The table [http_decode_buf] hands back to [http_req]. *)
Lemma decode_req mem : short mem ->
  exists n m ur pv h e,
    http_decode_buf (req_hcb vec0 vec0 vec0 vec0 (-1) vec0 vec0) mem =
    Ret (n, req_hcb m ur pv vec0 (-1) h e) /\
    (n <= length mem)%nat /\ Forall (vec_in (length mem)) [m; ur; pv; h; e].
Proof.
  intros Hs.
  destruct (decode_loop_safe mem mem (decoder_start (req_hcb vec0 vec0 vec0 vec0 (-1) vec0 vec0)) 0)
    as (s & Hloop & Hok & _); [done| |].
  { unfold decoder_ok; cbn. split_and!; try done; try lia; [repeat constructor|].
    apply req_table_ok. }
  assert (req_table (d_tbl s)) as (h & e & Ht).
  { refine (decode_loop_tbl mem req_table _ mem _ 0%nat s eq_refl _ _ Hloop).
    - intros. by eapply req_dispatch_preserves.
    - unfold decoder_ok; cbn. split_and!; try done; try lia; [repeat constructor|].
      apply req_table_ok.
    - by exists vec0, vec0. }
  unfold http_decode_buf. rewrite Hloop. run. rewrite Ht.
  destruct Hok as (Hlen & Hhv & Hi & Hr & [_ Htab] & _). rewrite Ht in Htab.
  assert (vec_in (length mem) h /\ vec_in (length mem) e) as [Hh He].
  { split; [apply (Forall_lookup_1 _ _ 5%nat _ Htab eq_refl)|
            apply (Forall_lookup_1 _ _ 6%nat _ Htab eq_refl)]. }
  destruct (d_hv s) as [|[p0 l0] [|[p1 l1] [|[p2 l2] [|]]]]; try done.
  cbn [nth v_len]. destruct ((l0 =? 0)%nat || (l1 =? 0)%nat).
  - exists 0%nat, vec0, vec0, vec0, h, e. split_and!; [done|lia|repeat constructor; done].
  - exists (d_ret s). do 3 eexists. exists h, e. split_and!; [reflexivity|done|].
    inversion_clear Hhv as [|? ? ? Hhv']. inversion_clear Hhv' as [|? ? ? Hhv''].
    inversion_clear Hhv''. repeat constructor; done.
Qed.

(** ** [http_req] *)

Lemma find_colon_spec b i : (i <= length b)%nat ->
  match find_colon b i with
  | Some j => (0 < j <= i)%nat /\ b !! (j - 1)%nat = Some 58 /\
    forall k, (j <= k < i)%nat -> b !! k <> Some 58
  | None => forall k, (k < i)%nat -> b !! k <> Some 58
  end.
Proof.
  induction i as [|i IH]; intros Hi; cbn; [intros; lia|].
  destruct (lookup_lt_is_Some_2 b i ltac:(lia)) as [x Hx].
  rewrite (nth_lookup_Some _ _ _ _ Hx).
  destruct (Z.eqb_spec x 58) as [->|Hne].
  - split; [lia|]. replace (S i - 1)%nat with i by lia. split; [done|]. intros; lia.
  - specialize (IH ltac:(lia)). destruct (find_colon b i) as [j|].
    + destruct IH as (? & ? & IH). split_and!; [lia|lia|done|].
      intros k Hk. destruct (decide (k = i)) as [->|]; [congruence|]. apply IH. lia.
    + intros k Hk. destruct (decide (k = i)) as [->|]; [congruence|]. apply IH. lia.
Qed.

Lemma vec_in_sub n p l i : (i <= l)%nat -> vec_in n (RoVec p l) ->
  vec_in n (RoVec (ptr_add p i) (l - i)) /\ vec_in n (RoVec p i).
Proof.
  unfold vec_in. destruct p; cbn; rewrite ?length_drop; lia.
Qed.

Lemma split_host_safe mem h : vec_in (length mem) h ->
  exists hn p, split_host mem h = Ret (hn, p) /\ vec_in (length mem) hn /\ 0 <= p < 2 ^ 16.
Proof.
  intros Hh. unfold split_host.
  destruct (vec_bytes_in mem h Hh) as (b & -> & Hb). run.
  pose proof (find_colon_spec b (v_len h) ltac:(lia)) as Hf.
  destruct h as [hp hl]; cbn [v_ptr v_len] in *.
  destruct (find_colon b hl) as [i|].
  - destruct Hf as [Hi _].
    destruct (vec_in_sub (length mem) hp hl i) as [Hp _]; [lia|done|].
    destruct (vec_in_sub (length mem) hp hl (i - 1)) as [_ Hn]; [lia|done|].
    cbn [v_len]. destruct (hl - i =? 0)%nat.
    { do 2 eexists. split_and!; [done|done|done|done]. }
    destruct (vec_bytes_in mem _ Hp) as (pb & -> & _). run.
    pose proof (vtouint_nonneg pb) as Hnn.
    destruct (vtouint pb) as [p len]; cbn [fst] in Hnn.
    do 2 eexists. split_and!; [done|done| |]; case_match; unfold HTTP_DEFAULT_PORT; lia.
  - do 2 eexists. split_and!; [done|done|done|done].
Qed.

Lemma proto_version_safe mem v : vec_in (length mem) v ->
  exists z, http_proto_version mem v = Ret z.
Proof.
  intros Hv. destruct (vec_bytes_in mem v Hv) as (b & Hb & _). unfold http_proto_version.
  rewrite Hb. run. repeat case_match; eauto.
Qed.

Lemma http_req_fits mem : short mem ->
  exists n r, http_req mem = Ret (n, r) /\ (n <= length mem)%nat /\
    (n <> 0%nat -> Forall (vec_in (length mem)) [method r; host r; uri r; hostname r; etag r] /\
       0 <= port r < 2 ^ 16).
Proof.
  intros Hs. destruct (decode_req mem Hs) as (n & m & ur & pv & h & e & Hd & Hn & Hv).
  unfold http_req. rewrite Hd. run.
  apply Forall_cons in Hv as [Hm Hv]. apply Forall_cons in Hv as [Hu Hv].
  apply Forall_cons in Hv as [Hp Hv]. apply Forall_cons in Hv as [Hh Hv].
  apply Forall_cons in Hv as [He _].
  destruct (Nat.eqb_spec n 0) as [->|]; [by do 2 eexists|].
  cbn [slot_vec slot_val req_hcb lookup list_lookup host uri].
  destruct (proto_version_safe mem pv Hp) as (z & ->). run.
  cbn [vec_bytes vec0 v_len mbind outcome_bind].
  destruct (split_host_safe mem h Hh) as (hn & p & Hsh & Hhn & Hp').
  destruct (decide (v_ptr h = Null)); [|rewrite Hsh]; run;
    do 2 eexists; (split_and!; [done|done|]); intros _; cbn.
  all: destruct (decide (v_ptr ur = Null)); split; [repeat constructor; done|done|..].
  all: try done; repeat constructor; done.
Qed.

(** C31: on every input, [http_req] terminates without a bad access; it reports at
    most the bytes it was given, and when it reports a header every vector of
    the request lies in the buffer (or is the literal "/"), the port is a
    16-bit number. *)
Theorem http_req_safe mem : short mem ->
  exists n r, http_req mem = Ret (n, r) /\ (n <= length mem)%nat /\
    (n <> 0%nat -> Forall (vec_in (length mem)) [method r; host r; uri r; hostname r; etag r] /\
       0 <= port r < 2 ^ 16).
Proof. apply http_req_fits. Qed.

(** Witness: a request in a buffer, the fields it finds, and the headers it does
    not. *)
Definition sample_request : list Z :=
  lit "GET /a?b HTTP/1.1" ++ crlf ++ lit "Host: example.com:8080" ++ crlf ++
  lit "Connection: Close" ++ crlf ++ lit "Content-Length: 12" ++ crlf ++ crlf.

Example http_req_safe_witness : short sample_request /\
  exists n r, http_req sample_request = Ret (n, r) /\ (n <= length sample_request)%nat.
Proof.
  split; [done|]. destruct (http_req_safe sample_request) as (n & r & ? & ? & _); [done|eauto].
Defined.

(** the "Connection" and "Content-Length" entries of the request table are
    never reached by [dispatch_hdr]'s binary search, because the comparison orders by
    length first and the table does not. So for every input the request asks
    neither for the connection to be closed nor carries a content length,
    whatever its header fields say. *)
Theorem http_req_never_sees_connection mem n r : short mem ->
  http_req mem = Ret (n, r) -> conn_close r = 0 /\ content_len r = 0.
Proof.
  intros Hs H. destruct (decode_req mem Hs) as (n' & m & ur & pv & h & e & Hd & _ & Hv).
  unfold http_req in H. rewrite Hd in H. run_in H.
  destruct (n' =? 0)%nat; [by simplify_eq|].
  apply outcome_bind_ret in H as (z & _ & H). cbn [slot_vec slot_val req_hcb lookup list_lookup
    vec_bytes vec0 v_len mbind outcome_bind] in H.
  apply outcome_bind_ret in H as ([hn p] & _ & H). by simplify_eq.
Qed.

Example http_req_never_sees_connection_witness :
  exists n r, http_req sample_request = Ret (n, r) /\ conn_close r = 0 /\ content_len r = 0.
Proof.
  eexists _, _. split; [vm_compute; reflexivity|].
  eapply (http_req_never_sees_connection sample_request); [done|vm_compute; reflexivity].
Defined.

(** ** The fields of a well-formed request *)

(** The value of the last field of that name. *)
Fixpoint last_value (name : string) (acc : option (list Z)) (fs : list (list Z * list Z))
    : option (list Z) :=
  match fs with
  | [] => acc
  | (k, v) :: fs' => last_value name (if field_is name k then Some v else acc) fs'
  end.

Lemma field_is_exclusive k : short k -> field_is "Host" k = true -> field_is "If-None-Match" k = false.
Proof.
  unfold field_is. intros Hs. destruct (label_sign k (lit "If-None-Match") Hs)
    as [(_ & _ & ->)|[(_ & _ & _ & ->)|E]]; [done..|].
  destruct (label_sign k (lit "Host") Hs) as [(_ & _ & ->)|[(_ & _ & _ & ->)|E']]; [done..|].
  rewrite E in E'. done.
Qed.

Lemma dispatch_all_req mem rest : short mem -> forall fs pre h e ah ae,
  mem = pre ++ concat (print_field <$> fs) ++ rest ->
  vec_bytes mem h = Ret (default [] ah) -> vec_bytes mem e = Ret (default [] ae) ->
  exists h' e',
    dispatch_all mem (req_hcb vec0 vec0 vec0 vec0 (-1) h e) (field_vecs (length pre) fs) =
      Ret (req_hcb vec0 vec0 vec0 vec0 (-1) h' e') /\
    vec_bytes mem h' = Ret (default [] (last_value "Host" ah fs)) /\
    vec_bytes mem e' = Ret (default [] (last_value "If-None-Match" ae fs)).
Proof.
  intros Hs. induction fs as [|[k v] fs IH]; intros pre h e ah ae Hm Hh He;
    cbn [field_vecs dispatch_all last_value]; [eauto|].
  cbn [fmap list_fmap concat] in Hm. rewrite <- app_assoc in Hm.
  assert (vec_bytes mem (RoVec (At (length pre)) (length k)) = Ret k) as Hk.
  { rewrite Hm. unfold print_field; cbn [fst snd]. rewrite <- app_assoc. apply vec_bytes_at. }
  assert (vec_bytes mem (RoVec (At (length pre + length k + 2)) (length v)) = Ret v) as Hv.
  { replace (length pre + length k + 2)%nat with (length (pre ++ k ++ [58; SP])) by app_len.
    rewrite Hm. unfold print_field; cbn [fst snd].
    replace (pre ++ (k ++ [58; SP] ++ v ++ crlf) ++ concat (print_field <$> fs) ++ rest)
      with ((pre ++ k ++ [58; SP]) ++ v ++ crlf ++ concat (print_field <$> fs) ++ rest)
      by by app_norm. apply vec_bytes_at. }
  assert (short k) as Hks by (unfold short in *; apply (f_equal length) in Hm;
    unfold print_field in Hm; rewrite !length_app in Hm; cbn in Hm; lia).
  rewrite (dispatch_req _ _ _ _ _ _ _ _ _ _ _ Hk Hks). run.
  replace (length pre + length (print_field (k, v)))%nat with (length (pre ++ print_field (k, v)))
    by by rewrite length_app.
  pose proof (field_is_exclusive k Hks) as Hex.
  destruct (field_is "Host" k); [rewrite Hex by done|destruct (field_is "If-None-Match" k)];
    apply IH; try done; by rewrite <- app_assoc.
Qed.

(** C29: a request line and header fields printed in the usual form, followed by any
    bytes, decode to themselves: the header length is exact, the method and
    URI vectors hold what was printed, and host and If-None-Match hold the
    value of the last field of that name (compared without regard to case), or
    nothing. *)
Theorem http_req_decodes_printed m u p fs rest :
  token m -> token u -> p <> [] -> not_after_space p -> Forall field_ok fs ->
  let mem := print_header m u p fs ++ rest in
  short mem ->
  exists r, http_req mem = Ret (length (print_header m u p fs), r) /\
    vec_bytes mem (method r) = Ret m /\ vec_bytes mem (uri r) = Ret u /\
    vec_bytes mem (host r) = Ret (default [] (last_value "Host" None fs)) /\
    vec_bytes mem (etag r) = Ret (default [] (last_value "If-None-Match" None fs)).
Proof.
  intros Hm Hu Hpne Hp Hfs mem Hs.
  destruct (http_req_fits mem Hs) as (n & r & Hr & _).
  pose proof Hr as Hr'. unfold http_req in Hr'.
  pose proof (decode_printed m u p fs rest (req_hcb vec0 vec0 vec0 vec0 (-1) vec0 vec0)
    Hm Hu Hpne Hp Hfs) as Hdec. cbv zeta in Hdec. fold mem in Hdec. rewrite Hdec in Hr'.
  clear Hdec.
  destruct (dispatch_all_req mem (crlf ++ rest) Hs fs (m ++ [SP] ++ u ++ [SP] ++ p ++ crlf)
    vec0 vec0 None None) as (h & e & Hd & Hh & He); [|done|done|].
  { unfold mem, print_header. by app_norm. }
  replace (length (m ++ [SP] ++ u ++ [SP] ++ p ++ crlf))
    with (length m + 1 + length u + 1 + length p + 2)%nat in Hd by app_len.
  rewrite Hd in Hr'. unfold call_fn in Hr'.
  cbn [req_hcb lookup list_lookup of_option mbind outcome_bind run_htype fn HttpParse.u label insert
    list_insert v_ptr v_len slot_vec slot_val host uri method etag] in Hr'.
  assert (length (print_header m u p fs) <> 0%nat) as Hn0
    by (unfold print_header; destruct Hm as [Hm _], m; done || (cbn; lia)).
  rewrite (proj2 (Nat.eqb_neq _ _) Hn0) in Hr'.
  apply outcome_bind_ret in Hr' as (z & _ & Hr').
  cbn [vec_bytes vec0 v_len mbind outcome_bind] in Hr'.
  apply outcome_bind_ret in Hr' as ([hn prt] & _ & Hr').
  injection Hr' as <- <-. eexists. split; [exact Hr|]. cbn [method uri host etag].
  split_and!; [| |exact Hh|exact He].
  - replace mem with ([] ++ m ++ SP :: u ++ SP :: p ++ crlf ++ concat (print_field <$> fs) ++
      crlf ++ rest) by (unfold mem, print_header; by app_norm).
    apply (vec_bytes_at []).
  - replace (length m + 1)%nat with (length (m ++ [SP])) by app_len.
    replace mem with ((m ++ [SP]) ++ u ++ SP :: p ++ crlf ++ concat (print_field <$> fs) ++
      crlf ++ rest) by (unfold mem, print_header; by app_norm).
    apply vec_bytes_at.
Qed.

Definition sample_fields : list (list Z * list Z) :=
  [(lit "hOsT", lit "h:81"); (lit "Accept", lit "*/*")].

Example http_req_decodes_printed_witness :
  exists r, http_req (print_header (lit "GET") (lit "/x") (lit "HTTP/1.1") sample_fields ++
      lit "tail") = Ret (44%nat, r) /\ port r = 81.
Proof.
  assert (token (lit "GET")) by (unfold token; split_and!; by_decide).
  assert (token (lit "/x")) by (unfold token; split_and!; by_decide).
  assert (not_after_space (lit "HTTP/1.1")) by (unfold not_after_space; split; by_decide).
  assert (Forall field_ok sample_fields) by
    (unfold field_ok, not_after_space, sample_fields; repeat constructor; by_decide).
  destruct (http_req_decodes_printed (lit "GET") (lit "/x") (lit "HTTP/1.1") sample_fields
    (lit "tail")) as (r & Hr & _); [done..|].
  exists r. vm_compute in Hr |- *. injection Hr as <-. done.
Defined.

(** ** The Host field *)

Lemma find_colon_app a b : 58 ∉ b ->
  find_colon (a ++ 58 :: b) (length (a ++ 58 :: b)) = Some (S (length a)).
Proof.
  intros Hb. pose proof (find_colon_spec (a ++ 58 :: b) _ (le_n _)) as Hf.
  assert ((a ++ 58 :: b) !! length a = Some 58) as Ha
    by by rewrite lookup_app_r, Nat.sub_diag by lia.
  rewrite length_app in *. cbn [length] in *.
  destruct (find_colon _ _) as [j|]; [|exfalso; eapply Hf; [|exact Ha]; lia].
  destruct Hf as (Hj & H58 & Hlast).
  destruct (lt_eq_lt_dec j (S (length a))) as [[Hlt| ->]|Hgt]; [|done|].
  - exfalso. eapply Hlast; [|exact Ha]. lia.
  - exfalso. apply Hb. rewrite lookup_app_r in H58 by lia.
    destruct (j - 1 - length a)%nat as [|k] eqn:E; [lia|]. cbn in H58.
    by eapply list_elem_of_lookup_2.
Qed.

Lemma digits_all v : forallb is_digit v = true -> digits v = v.
Proof.
  induction v as [|c v IH]; cbn; [done|]. intros [-> ?]%andb_true_iff. by rewrite IH.
Qed.

Lemma digits_not_all v : forallb is_digit v = false -> (length (digits v) < length v)%nat.
Proof.
  induction v as [|c v IH]; cbn; [done|]. destruct (is_digit c); cbn; [|lia].
  intros. specialize (IH ltac:(done)). lia.
Qed.

(** a Host value [hn ++ ":" ++ pt], its last colon first, splits into the host
    name [hn] and the port [pt]: the decimal value of [pt] in 32-bit
    arithmetic if [pt] is a non-empty string of digits and the value is below
    65536, and port 80 otherwise. *)
Theorem split_host_spec mem off hn pt post :
  drop off mem = (hn ++ 58 :: pt) ++ post -> 58 ∉ pt -> bytes_ok pt ->
  let v := uint 32 (decimal pt) in
  split_host mem (RoVec (At off) (length (hn ++ 58 :: pt))) =
  Ret (RoVec (At off) (length hn),
       if bool_decide (pt <> []) && forallb is_digit pt && (v <? 2 ^ 16) then v else 80).
Proof.
  intros Hmem Hpt Hb v. unfold split_host.
  pose proof (f_equal length Hmem) as Hlen. rewrite length_drop, length_app in Hlen.
  assert (length (hn ++ 58 :: pt) = (length hn + S (length pt))%nat) as Hl by app_len.
  rewrite vec_bytes_slice, Hmem, take_app_length by lia. cbn [mbind outcome_bind v_len].
  rewrite find_colon_app by done. cbn [v_ptr v_len ptr_add].
  replace (S (length hn) - 1)%nat with (length hn) by lia.
  replace (length (hn ++ 58%Z :: pt) - S (length hn))%nat with (length pt) by lia.
  destruct (decide (pt = [])) as [->|Hne]; [done|].
  rewrite bool_decide_eq_true_2 by done. cbn [andb].
  destruct (Nat.eqb_spec (length pt) 0) as [E|_]; [by destruct pt|].
  assert (take (length pt) (drop (off + S (length hn)) mem) = pt) as Hs.
  { rewrite <- drop_drop, Hmem, <- app_assoc.
    replace (hn ++ (58 :: pt) ++ post) with ((hn ++ [58]) ++ pt ++ post) by by app_norm.
    rewrite drop_app_length' by app_len. apply take_app_length. }
  rewrite vec_bytes_slice, Hs by lia. run.
  unfold vtouint. pose proof (vtouint_loop_spec pt 0 0 Hb) as Hv.
  rewrite (uint_small 32 0) in Hv by lia. rewrite Hv. cbn [Nat.add].
  destruct (forallb is_digit pt) eqn:Hd.
  - rewrite digits_all, Nat.eqb_refl by done. done.
  - pose proof (digits_not_all pt Hd). by rewrite (proj2 (Nat.eqb_neq _ _)) by lia.
Qed.

Example split_host_spec_witness :
  split_host (lit "xx[::1]:8080") (RoVec (At 2) 10) = Ret (RoVec (At 2) 5, 8080).
Proof.
  apply (split_host_spec (lit "xx[::1]:8080") 2 (lit "[::1]") (lit "8080") []).
  - reflexivity.
  - by_decide.
  - by_decide.
Defined.

(** ** Tables in order of length *)

Definition length_sorted (d : list http_hcb) : Prop :=
  forall i j a b, (3 <= i < j)%nat -> d !! i = Some a -> d !! j = Some b ->
    (length (label a) < length (label b))%nat.

Lemma dispatch_sorted mem d k v kb :
  vec_bytes mem k = Ret kb -> short kb -> bytes_ok kb -> length_sorted d ->
  Forall (fun h => short (label h) /\ bytes_ok (label h)) d ->
  (forall i h, (3 <= i)%nat -> d !! i = Some h -> tolower <$> kb = tolower <$> label h ->
     dispatch_hdr mem d k v = call_fn mem d i v) /\
  ((forall i h, (3 <= i)%nat -> d !! i = Some h -> tolower <$> kb <> tolower <$> label h) ->
     dispatch_hdr mem d k v = Ret d).
Proof.
  intros Hk Hs Hb Hsort Hd. unfold dispatch_hdr. rewrite !Hk. run.
  assert (forall i h, d !! i = Some h -> short (label h) /\ bytes_ok (label h)) as Hl
    by (intros i h Hi; apply (Forall_lookup_1 _ _ _ _ Hd Hi)).
  split.
  - intros i h Hi Hh E. destruct (Hl i h Hh) as [S1 B1].
    assert (length kb = length (label h)) as El
      by (apply (f_equal length) in E; by rewrite !length_fmap in E).
    pose proof (lookup_lt_Some _ _ _ Hh).
    erewrite bsearch_complete; [reflexivity|lia|].
    split_and!; [lia|lia| | |].
    + rewrite Hh. cbn. f_equal. by apply vcasecmp_fast_zero.
    + intros j Hj. destruct (lookup_lt_is_Some_2 d j ltac:(lia)) as [g Hg]. rewrite Hg. cbn.
      eexists; split; [done|]. pose proof (Hsort j i g h ltac:(lia) Hg Hh).
      apply vcasecmp_fast_longer; [done|lia].
    + intros j Hj. destruct (lookup_lt_is_Some_2 d j ltac:(lia)) as [g Hg]. rewrite Hg. cbn.
      eexists; split; [done|]. pose proof (Hsort i j h g ltac:(lia) Hh Hg).
      apply vcasecmp_fast_shorter; [by apply (Hl j)|lia].
  - intros Hn.
    destruct (bsearch_total (fun i => h ← of_option OutOfBounds (d !! i);
      Ret (vstrcmp_fast kb (label h))) (length d) 3 (length d - 3)) as [[j|] Hr]; [lia| | |].
    + intros j Hj. destruct (lookup_lt_is_Some_2 d j ltac:(lia)) as [g Hg]. rewrite Hg. cbn. eauto.
    + exfalso. apply bsearch_sound in Hr as [Hj Hc].
      destruct (lookup_lt_is_Some_2 d j ltac:(lia)) as [g Hg]. rewrite Hg in Hc. cbn in Hc.
      destruct (Hl j g Hg) as [S1 B1]. apply (Hn j g); [lia|done|].
      injection Hc as Hc. by apply vcasecmp_fast_zero.
    + by rewrite Hr.
Qed.

Lemma resp_length_sorted pv code c ct n ce te : length_sorted (resp_hcb pv code c ct n ce te).
Proof.
  intros i j a b Hij Ha Hb.
  destruct i as [|[|[|[|[|[|[|[|i]]]]]]]]; try lia; [..|done].
  all: destruct j as [|[|[|[|[|[|[|[|j]]]]]]]]; try lia; [..|done].
  all: cbn in Ha, Hb; simplify_eq; cbn; lia.
Qed.

(** the response table's searched labels are in order of length, so the binary
    search of [dispatch_hdr] is exact on it: a field whose name equals one of
    the labels without regard to case is passed to that label's callback, and a
    field that equals none changes nothing. *)
Theorem resp_dispatch_exact mem pv code c ct n ce te k v kb :
  vec_bytes mem k = Ret kb -> short kb -> bytes_ok kb ->
  let d := resp_hcb pv code c ct n ce te in
  (forall i h, (3 <= i)%nat -> d !! i = Some h -> tolower <$> kb = tolower <$> label h ->
     dispatch_hdr mem d k v = call_fn mem d i v) /\
  ((forall i h, (3 <= i)%nat -> d !! i = Some h -> tolower <$> kb <> tolower <$> label h) ->
     dispatch_hdr mem d k v = Ret d).
Proof.
  intros Hk Hs Hb d. apply (dispatch_sorted mem d k v kb); try done.
  - apply resp_length_sorted.
  - unfold short. repeat constructor.
Qed.

Example resp_dispatch_exact_witness :
  let mem := lit "content-LENGTH: 42" in
  let d := resp_hcb vec0 0 vec0 vec0 (-1) vec0 vec0 in
  dispatch_hdr mem d (RoVec (At 0) 14) (RoVec (At 16) 2) =
    Ret (resp_hcb vec0 0 vec0 vec0 42 vec0 vec0).
Proof.
  intros mem d.
  destruct (resp_dispatch_exact mem vec0 0 vec0 vec0 (-1) vec0 vec0 (RoVec (At 0) 14)
    (RoVec (At 16) 2) (lit "content-LENGTH")) as [H _]; [reflexivity|reflexivity|by_decide|].
  etransitivity; [apply (H 5%nat (Hcb (lit "Content-Length") htype_int (UVal (-1))))|];
    [lia|reflexivity|reflexivity|reflexivity].
Defined.

Lemma slot_vec_in n d i : table_ok n d -> vec_in n (slot_vec d i).
Proof.
  intros [_ Hd]. unfold slot_vec. destruct (d !! i) as [[l f [[v|]| |]]|] eqn:E; try done.
  by apply (Forall_lookup_1 _ _ _ _ Hd E).
Qed.

(** on every input, [http_resp] terminates without a bad access, reports at
    most the bytes it was given, and every vector it stores lies in the
    buffer. *)
Theorem http_resp_safe mem :
  exists n r, http_resp mem = Ret (n, r) /\ (n <= length mem)%nat /\
    (n <> 0%nat ->
     Forall (vec_in (length mem)) [rs_content_type r; rs_content_enc r; rs_transfer_enc r]).
Proof.
  destruct (http_decode_buf_fits mem (resp_hcb vec0 0 vec0 vec0 (-1) vec0 vec0))
    as (n & d & Hd & Hn & Ht & _).
  { split; [cbn; lia|]. repeat constructor. }
  unfold http_resp. rewrite Hd. run.
  destruct (Nat.eqb_spec n 0) as [->|]; [by do 2 eexists|].
  destruct (vec_bytes_in mem _ (slot_vec_in _ d 3 Ht)) as (b & -> & _). run.
  destruct (proto_version_safe mem _ (slot_vec_in _ d 0 Ht)) as (z & ->). run.
  do 2 eexists. split_and!; [done|done|]. intros _.
  repeat constructor; by apply slot_vec_in.
Qed.
