(* ===== verification/Os.v ===== *)
(** * os.c: reading and writing file descriptors, handling all errors

    The kernel is a script: the answers [read], [write] and [poll] will give,
    in order.  A loop that needs an answer the script does not hold is still
    blocked in that call. *)

From S2P Require Import Prelude.

Inductive errno := EINTR | EAGAIN | EROFS | EINVAL | EOTHER.

#[export] Instance errno_eq_dec : EqDecision errno.
Proof. solve_decision. Defined.

(** What a system call that moves bytes answers: the number it is willing to
    move (at most the number asked for is moved), or an error. *)
Inductive sysres := SysOk (n : nat) | SysErr (e : errno).

Definition SSIZE_MAX : Z := (2 ^ 63 - 1)%Z.

(** [likely(len < SSIZE_MAX) ? len : SSIZE_MAX], and what the kernel moves of
    it. *)
Definition clamp (len : nat) : nat :=
  if (Z.of_nat len <? SSIZE_MAX)%Z then len else Z.to_nat SSIZE_MAX.
Definition moved (n len : nat) : nat := min n (clamp len).

(** [fd_wait_single]: the result, and the poll answers left. *)
Fixpoint fd_wait_single (polls : list sysres) : outcome (bool * list sysres) :=
  match polls with
  | [] => Fault Blocked
  | SysErr EINTR :: polls' => fd_wait_single polls'
  | SysErr _ :: polls' => Ret (false, polls')
  | SysOk _ :: polls' => Ret (true, polls')
  end.

(** The kernel as a process sees it: answers to come, and the bytes of the
    file written (or read) so far. *)
Record kernel := Kernel {
  k_io : list sysres;
  k_poll : list sysres;
  k_file : list Z;
}.

(** The [again] loop of [fd_write]: one answer of [k_io] a round. *)
Fixpoint write_loop (ios polls : list sysres) (file buf : list Z) : outcome (bool * kernel) :=
  match ios with
  | [] => Fault Blocked
  | SysErr e :: ios' =>
    match e with
    | EINTR => write_loop ios' polls file buf
    | EAGAIN =>
      match fd_wait_single polls with
      | Fault e => Fault e
      | Ret (true, polls') => write_loop ios' polls' file buf
      | Ret (false, polls') => Ret (false, Kernel ios' polls' file)
      end
    | _ => Ret (false, Kernel ios' polls file)
    end
  | SysOk n :: ios' =>
    let ret := moved n (length buf) in
    let file := file ++ take ret buf in
    if ret <? length buf then write_loop ios' polls file (drop ret buf)
    else Ret (true, Kernel ios' polls file)
  end.

Definition fd_write (k : kernel) (buf : list Z) : outcome (bool * kernel) :=
  write_loop (k_io k) (k_poll k) (k_file k) buf.

(** Reading: [src] is what is left of the file from the read position; a
    regular file delivers nothing only at its end.  The results are the return
    value, the bytes stored (whose number is [*sz]), and [*eof]. *)
Fixpoint read_loop (ios polls : list sysres) (src : list Z) (got : list Z) (len : nat) (eof : bool)
    : outcome (bool * list Z * bool * list sysres * list sysres) :=
  match ios with
  | [] => Fault Blocked
  | SysErr e :: ios' =>
    match e with
    | EINTR => read_loop ios' polls src got len eof
    | EAGAIN =>
      match fd_wait_single polls with
      | Fault e => Fault e
      | Ret (true, polls') => read_loop ios' polls' src got len eof
      | Ret (false, polls') => Ret (false, got, eof, ios', polls')
      end
    | _ => Ret (false, got, eof, ios', polls)
    end
  | SysOk n :: ios' =>
    let ret := min (moved (S n) len) (length src) in
    if ret =? 0 then Ret (true, got, true, ios', polls)
    else
      let got := got ++ take ret src in
      if ret <? len then read_loop ios' polls (drop ret src) got (len - ret) eof
      else Ret (true, got, eof, ios', polls)
  end.

Definition fd_read (ios polls : list sysres) (src : list Z) (sz : nat) :=
  read_loop ios polls src [] sz false.

(** [fd_pread] reads at [off] and leaves [*eof] as the caller had it unless the
    end is hit. *)
Definition fd_pread (ios polls : list sysres) (file : list Z) (off sz : nat) (eof : bool) :=
  read_loop ios polls (drop off file) [] sz eof.

Definition O_NONBLOCK : Z := 0x800%Z.

(** [fd_block(fd, b)]: [getfl] is [fcntl]'s answer to [F_GETFL], [setfl] whether
    [F_SETFL] succeeds; the flags of the descriptor afterwards. *)
Definition fd_block (getfl : Z) (setfl : bool) (b : bool) : bool * Z :=
  if (getfl <? 0)%Z then (false, getfl)
  else
    let fl := if b then Z.land getfl (Z.lnot O_NONBLOCK) else Z.lor getfl O_NONBLOCK in
    if setfl then (true, fl) else (false, getfl).

Definition FD_CLOEXEC : Z := 1%Z.

(** The result of [fcntl(F_SETFD)] for the flags it is given. *)
Definition fd_coe (setfd : Z -> Z) (coe : bool) : bool := negb (setfd (if coe then FD_CLOEXEC else 0) <? 0)%Z.

(** What [fstat] says of the size, and the file [mmap] gives to see, if they
    succeed: the map and what is in [*len] afterwards. *)
Definition map_file (fstat : option Z) (mmap : option (list Z)) : option (list Z) * Z :=
  match fstat with
  | None => (None, 0%Z)
  | Some st_size => match mmap with None => (None, 0%Z) | Some map => (Some map, uint 64 st_size) end
  end.

(** Error messages: [strerror] is the C library's, [errno] the last error's number. *)
Definition os_errno (errno : Z) : Z := errno.
Definition os_error (strerror : Z -> string) (e : Z) : string := strerror e.
Definition os_err (strerror : Z -> string) (errno : Z) : string := strerror errno.
Definition os_err2 (strerror : Z -> string) (errno : Z) (def : option string) : string :=
  let def := default "Internal Error"%string def in
  if (errno =? 0)%Z then def else strerror errno.

(** ** Lemmas *)

Lemma moved_le n len : moved n len <= len.
Proof.
  unfold moved, clamp. destruct (Z.ltb_spec (Z.of_nat len) SSIZE_MAX); [lia|].
  unfold SSIZE_MAX in *. lia.
Qed.

Lemma moved_pos n len : 0 < len -> 0 < moved (S n) len.
Proof. unfold moved, clamp, SSIZE_MAX. destruct (Z.ltb_spec (Z.of_nat len) (2 ^ 63 - 1)); lia. Qed.

(** When a read is still blocked: the answers that bring something, and those that
    send it to [poll]. *)
Definition sys_ok (a : sysres) : bool := match a with SysOk _ => true | SysErr _ => false end.
Definition sys_again (a : sysres) : bool := match a with SysErr EAGAIN => true | _ => false end.
Definition sys_final (a : sysres) : bool := match a with SysErr EINTR => false | _ => true end.
Definition how_many (f : sysres -> bool) (l : list sysres) : nat := length (List.filter f l).

Definition disk_awaited (n : nat) (ios polls : list sysres) : Prop :=
  how_many sys_ok ios < n \/ how_many sys_final polls < how_many sys_again ios.

Lemma disk_awaited_le m n ios polls : m <= n -> disk_awaited m ios polls -> disk_awaited n ios polls.
Proof. intros Hle [?|?]; [left; lia|by right]. Qed.

(** An error of [read] or of [poll]. *)
Definition disk_error (ios polls : list sysres) : Prop :=
  Exists (fun a => sys_ok a = false /\ a <> SysErr EINTR /\ a <> SysErr EAGAIN) ios \/
  Exists (fun a => sys_ok a = false /\ a <> SysErr EINTR) polls.

Lemma wait_single_why polls : match fd_wait_single polls with
  | Fault _ => how_many sys_final polls = 0
  | Ret (true, p) => how_many sys_final polls = S (how_many sys_final p) /\ (forall ios, disk_error ios p -> disk_error ios polls)
  | Ret (false, _) => forall ios, disk_error ios polls
  end.
Proof.
  induction polls as [|[n|e] polls IH]; cbn [fd_wait_single]; [done| |].
  - split; [done|]. intros ios [?|?]; [by left|right; by apply Exists_cons_tl].
  - assert (e <> EINTR -> forall ios, disk_error ios (SysErr e :: polls)) as Hbad
      by (intros He ios; right; apply Exists_cons_hd; split; [done|congruence]).
    destruct e; try (by apply Hbad). destruct (fd_wait_single polls) as [[[] p]|]; [|intros ios; destruct (IH ios); [by left|right; by apply Exists_cons_tl]|exact IH].
    destruct IH as [IH1 IH2]. split; [exact IH1|]. intros ios Hd. destruct (IH2 ios Hd); [by left|right; by apply Exists_cons_tl].
Qed.

Lemma write_loop_spec ios : forall polls file buf b k,
  write_loop ios polls file buf = Ret (b, k) ->
  exists w, k_file k = file ++ w /\ w `prefix_of` buf /\ (b = true -> w = buf).
Proof.
  induction ios as [|[n|e] ios IH]; intros polls file buf b k H; [done| |]; cbn [write_loop] in H; cbv zeta in H.
  - pose proof (moved_le n (length buf)) as Hm.
    destruct (Nat.ltb_spec (moved n (length buf)) (length buf)).
    + apply IH in H as (w & Hk & [t Ht] & Hb). rewrite <- app_assoc in Hk.
      exists (take (moved n (length buf)) buf ++ w). split_and!; [done| |].
      * exists t. by rewrite <- app_assoc, <- Ht, take_drop.
      * intros E. by rewrite (Hb E), take_drop.
    + simplify_eq. cbn. rewrite take_ge by lia. by exists buf.
  - destruct e; try (by apply IH in H); try (destruct (fd_wait_single polls) as [[[] p]|];
      [by apply IH in H| |done]); simplify_eq; exists []; cbn; rewrite app_nil_r;
      (split_and!; [done|apply prefix_nil|done]).
Qed.

Lemma fd_write_spec k buf b k' : fd_write k buf = Ret (b, k') ->
  exists w, k_file k' = k_file k ++ w /\ w `prefix_of` buf /\ (b = true -> w = buf).
Proof. apply write_loop_spec. Qed.

Lemma wait_fault polls e : fd_wait_single polls = Fault e -> e = Blocked.
Proof. induction polls as [|[n|[]] polls IH]; cbn; intros; simplify_eq; auto. Qed.

Lemma write_loop_fault ios : forall polls file buf e,
  write_loop ios polls file buf = Fault e -> e = Blocked.
Proof.
  induction ios as [|[n|er] ios IH]; intros polls file buf e; cbn [write_loop]; cbv zeta.
  - congruence.
  - case_match; [apply IH|done].
  - destruct er; try done; [apply IH|].
    destruct (fd_wait_single polls) as [[[] p]|e'] eqn:E; [apply IH|done|].
    intros [= ->]. by eapply wait_fault.
Qed.

Lemma read_loop_fault ios : forall polls src got len eof e,
  read_loop ios polls src got len eof = Fault e -> e = Blocked.
Proof.
  induction ios as [|[n|er] ios IH]; intros polls src got len eof e; cbn [read_loop]; cbv zeta.
  - congruence.
  - case_match; [done|]. case_match; [apply IH|done].
  - destruct er; try done; [apply IH|].
    destruct (fd_wait_single polls) as [[[] p]|e'] eqn:E; [apply IH|done|].
    intros [= ->]. by eapply wait_fault.
Qed.

(** The bytes a script is willing to move before a hard error. *)
Fixpoint willing (ios : list sysres) : nat :=
  match ios with
  | SysOk n :: ios' => n + willing ios'
  | SysErr EINTR :: ios' => willing ios'
  | _ => 0
  end.

Lemma write_loop_total ios : forall polls file buf,
  (Z.of_nat (length buf) < SSIZE_MAX)%Z -> 0 < length buf ->
  length buf <= willing ios -> exists k, write_loop ios polls file buf = Ret (true, k).
Proof.
  induction ios as [|[n|[]] ios IH]; intros polls file buf Hb H0 Hw;
    cbn [willing] in Hw; cbn [write_loop]; cbv zeta; try lia.
  - assert (moved n (length buf) = min n (length buf)) as ->
      by (unfold moved, clamp; destruct (Z.ltb_spec (Z.of_nat (length buf)) SSIZE_MAX); lia).
    destruct (Nat.ltb_spec (min n (length buf)) (length buf)); [|eauto].
    apply IH; rewrite ?length_drop; lia.
  - by apply IH.
Qed.

Lemma read_loop_spec ios : forall polls src got len eof b d e ios' polls',
  read_loop ios polls src got len eof = Ret (b, d, e, ios', polls') -> 0 < len ->
  exists r, d = got ++ r /\ r `prefix_of` src /\ length r <= len /\
    (b = true -> (length r = len /\ e = eof) \/ (r = src /\ e = true)).
Proof.
  induction ios as [|[n|er] ios IH]; intros polls src got len eof b d e ios' polls' H Hl;
    [done| |]; cbn [read_loop] in H; cbv zeta in H.
  - pose proof (moved_le (S n) len) as Hm.
    assert (0 < moved (S n) len) as Hpos by (apply moved_pos; lia).
    set (ret := min (moved (S n) len) (length src)) in *.
    destruct (Nat.eqb_spec ret 0) as [E|E].
    { simplify_eq. exists []. rewrite app_nil_r. split_and!; [done|apply prefix_nil|cbn; lia|].
      intros _. right. by destruct src; [|cbn in *; lia]. }
    destruct (Nat.ltb_spec ret len).
    + apply IH in H as (r & -> & [t Ht] & Hlen & Hb); [|lia]. exists (take ret src ++ r).
      rewrite length_app, length_take, <- app_assoc. split_and!; [done| |lia|].
      * exists t. by rewrite <- app_assoc, <- Ht, take_drop.
      * intros Eb. destruct (Hb Eb) as [[? ->]|[-> ->]]; [left; split; [lia|done]|right].
        by rewrite take_drop.
    + simplify_eq. exists (take ret src). rewrite length_take.
      split_and!; [done|apply prefix_take|lia|]. intros _. left. split; [lia|done].
  - destruct er; try (by apply IH in H); try (destruct (fd_wait_single polls) as [[[] p]|];
      [by apply IH in H| |done]); simplify_eq; exists []; rewrite app_nil_r;
      (split_and!; [done|apply prefix_nil|cbn; lia|done]).
Qed.

Lemma read_loop_blocked ios : forall polls src got len eof f,
  read_loop ios polls src got len eof = Fault f -> disk_awaited (max 1 len) ios polls.
Proof.
  induction ios as [|[n|er] ios IH]; intros polls src got len eof f; cbn [read_loop]; cbv zeta; unfold disk_awaited in *.
  - intros _. left. cbn. lia.
  - pose proof (moved_le (S n) len). set (ret := min (moved (S n) len) (length src)).
    destruct (Nat.eqb_spec ret 0); [done|]. destruct (Nat.ltb_spec ret len); [|done].
    intros E. apply IH in E as [E|E]; [left|right]; unfold how_many in *; cbn [List.filter sys_ok sys_again length]; lia.
  - destruct er; try done; cbn [how_many List.filter sys_ok sys_again length]; try apply IH.
    pose proof (wait_single_why polls) as Hw. destruct (fd_wait_single polls) as [[[] p]|].
    + destruct Hw as [Hw _]. intros E. apply IH in E as [E|E]; [by left|right]. unfold how_many in *. cbn [List.filter sys_again length]. lia.
    + done.
    + intros _. right. rewrite Hw. unfold how_many. cbn. lia.
Qed.

Lemma disk_error_tl a ios polls : disk_error ios polls -> disk_error (a :: ios) polls.
Proof. intros [?|?]; [left; by apply Exists_cons_tl|by right]. Qed.

Lemma read_loop_short ios : forall polls src got len eof b d e ios' polls',
  read_loop ios polls src got len eof = Ret (b, d, e, ios', polls') -> 0 < len ->
  b = true /\ e = eof \/ disk_error ios polls \/ length src < len.
Proof.
  induction ios as [|[n|er] ios IH]; intros polls src got len eof b d e ios' polls' H Hl;
    [done| |]; cbn [read_loop] in H; cbv zeta in H.
  - pose proof (moved_le (S n) len). pose proof (moved_pos n len Hl).
    set (ret := min (moved (S n) len) (length src)) in *. destruct (Nat.eqb_spec ret 0); [right; right; lia|].
    destruct (Nat.ltb_spec ret len); [|simplify_eq; by left].
    apply IH in H; [|lia]. rewrite length_drop in H.
    destruct H as [?|[?|?]]; [by left|right; left; by apply disk_error_tl|right; right; lia].
  - assert (er <> EINTR -> er <> EAGAIN -> disk_error (SysErr er :: ios) polls) as Hbad
      by (intros ? ?; left; apply Exists_cons_hd; split_and!; [done|congruence|congruence]).
    destruct er; try (right; left; by apply Hbad).
    + apply IH in H; [|done]. destruct H as [?|[?|?]]; [by left|right; left; by apply disk_error_tl|by right; right].
    + pose proof (wait_single_why polls) as Hw. destruct (fd_wait_single polls) as [[[] p]|]; [| |done].
      * apply IH in H; [|done]. destruct H as [?|[?|?]]; [by left|right; left; apply disk_error_tl; by apply Hw|by right; right].
      * right. left. apply Hw.
Qed.

(** ** Properties *)

(** [fd_write] that returns has appended a prefix of the buffer to the
    file, the whole buffer if it returned success; and it does return, and
    with success, whenever the kernel is willing to take the whole buffer
    before any error but an interruption. *)
Theorem fd_write_all_or_error k buf :
  (forall b k', fd_write k buf = Ret (b, k') ->
     exists w, k_file k' = k_file k ++ w /\ w `prefix_of` buf /\ (b = true -> w = buf)) /\
  ((Z.of_nat (length buf) < SSIZE_MAX)%Z -> 0 < length buf -> length buf <= willing (k_io k) ->
   exists k', fd_write k buf = Ret (true, k') /\ k_file k' = k_file k ++ buf).
Proof.
  split; [apply fd_write_spec|]. intros Hs H0 Hw.
  destruct (write_loop_total (k_io k) (k_poll k) (k_file k) buf) as [k' H]; [done..|].
  exists k'. split; [done|]. destruct (fd_write_spec _ _ _ _ H) as (w & -> & _ & Hb).
  by rewrite Hb.
Qed.

Example fd_write_all_or_error_witness :
  exists k, fd_write (Kernel [SysErr EINTR; SysOk 2; SysOk 5] [] [7]%Z) [1; 2; 3]%Z = Ret (true, k) /\
    k_file k = [7; 1; 2; 3]%Z.
Proof.
  destruct (fd_write_all_or_error (Kernel [SysErr EINTR; SysOk 2; SysOk 5] [] [7]%Z) [1; 2; 3]%Z)
    as [_ H]. apply H; cbn; [reflexivity|lia|lia].
Defined.

(** [fd_read] of at least one byte that returns success has stored exactly the
    bytes asked for, in order, or has stored everything up to the end of the
    file and set [*eof]; short reads, interruptions and [EAGAIN] never lose,
    duplicate or reorder a byte. *)
Theorem fd_read_spec ios polls src sz d e ios' polls' :
  fd_read ios polls src sz = Ret (true, d, e, ios', polls') -> 0 < sz ->
  (e = false /\ d = take sz src /\ length d = sz) \/ (e = true /\ d = src /\ length src <= sz).
Proof.
  intros H Hsz. apply read_loop_spec in H as (r & -> & Hp & Hl & Hb); [|done].
  destruct (Hb eq_refl) as [[Hr ->]|[-> ->]]; [left|by right].
  destruct Hp as [t ->]. by rewrite take_app_length'.
Qed.

Example fd_read_spec_witness :
  exists r, fd_read [SysOk 2; SysErr EINTR; SysErr EAGAIN; SysOk 9] [SysOk 0] [1; 2; 3; 4; 5; 6]%Z 5 =
    Ret r.
Proof.
  assert (fd_read [SysOk 2; SysErr EINTR; SysErr EAGAIN; SysOk 9] [SysOk 0] [1; 2; 3; 4; 5; 6]%Z 5 =
    Ret (true, [1; 2; 3; 4; 5]%Z, false, [], [])) as H by reflexivity.
  destruct (fd_read_spec _ _ _ _ _ _ _ _ H); [lia|eauto|eauto].
Defined.

(** setting a descriptor non-blocking and then blocking again, or the
    other way round, leaves every other flag as it was, and each call sets its
    own bit as asked. *)
Theorem fd_block_spec fl b : (0 <= fl)%Z ->
  let r := (fd_block fl true b).2 in
  (fd_block fl true b).1 = true /\
  Z.testbit r 11 = negb b /\
  forall i, (0 <= i)%Z -> i <> 11%Z -> Z.testbit r i = Z.testbit fl i.
Proof.
  intros Hfl. unfold fd_block. destruct (Z.ltb_spec fl 0); [lia|]. cbn [fst snd].
  split_and!; [done| |].
  - destruct b; [rewrite Z.land_spec, Z.lnot_spec by lia; apply andb_false_r|].
    rewrite Z.lor_spec. apply orb_true_r.
  - intros i Hi Hne.
    assert (Z.testbit O_NONBLOCK i = false) as E.
    { change O_NONBLOCK with (2 ^ 11)%Z. apply Z.pow2_bits_false. done. }
    destruct b; [rewrite Z.land_spec, Z.lnot_spec, E by lia; apply andb_true_r|].
    rewrite Z.lor_spec, E. apply orb_false_r.
Qed.

Example fd_block_spec_witness : fd_block 0x8002 true false = (true, 0x8802%Z) /\
  Z.testbit (fd_block 0x8002 true false).2 11 = true.
Proof. split; [reflexivity|]. apply (fd_block_spec 0x8002 false). lia. Defined.
