(* ===== verification/Fobuf.v ===== *)
(** * fobuf.c: buffered file output

    A buffer of [buf_sz] bytes in front of a descriptor.  Memory is explicit:
    [b_mem] is the object [b->buf] points to, [b_ptr] the offset of [b->ptr] in
    it.  The promise made to clients is the interface [Sink] at the end: the
    bytes of successful writes reach the file in order. *)

From S2P Require Import Prelude Os.

Record fobuf := Fobuf {
  fd : Z;
  b_mem : list Z;
  b_ptr : nat;
  buf_len : nat;
  buf_sz : nat;
}.

(** [memcpy(b->ptr, src, n)] with [n] the length of [src]. *)
Definition copy_in (b : fobuf) (src : list Z) : outcome (list Z) :=
  if b_ptr b + length src <=? length (b_mem b)
  then Ret (take (b_ptr b) (b_mem b) ++ src ++ drop (b_ptr b + length src) (b_mem b))
  else Fault OutOfBounds.

Definition _fobuf_flush (b : fobuf) (k : kernel) : outcome (bool * fobuf * kernel) :=
  let len := buf_sz b - buf_len b in
  if len =? 0 then Ret (true, b, k)
  else
    '(ok, k) ← fd_write k (take len (b_mem b));
    if ok : bool then Ret (true, Fobuf (fd b) (b_mem b) 0 (buf_sz b) (buf_sz b), k)
    else Ret (false, b, k).

Definition fobuf_flush := _fobuf_flush.

(** [mem] is what [malloc] returned, if it did: an object of the size asked
    for. *)
Definition bufsz_or_default (bufsz : nat) : nat := if bufsz =? 0 then 4096 else bufsz.

Definition fobuf_new (fd : Z) (bufsz : nat) (alloc_b : bool) (mem : option (list Z)) : option fobuf :=
  if alloc_b then
    match mem with
    | Some m => Some (Fobuf fd m 0 (bufsz_or_default bufsz) (bufsz_or_default bufsz))
    | None => None
    end
  else None.

(** What [fsync] and [close] answer: 0, or an error. *)
Definition sync_failed (fsync : sysres) : bool :=
  match fsync with
  | SysOk _ | SysErr EROFS | SysErr EINVAL => false
  | SysErr _ => true
  end.

Definition failed (r : sysres) : bool := match r with SysErr _ => true | SysOk _ => false end.

Definition fobuf_close (b : fobuf) (fsync close : sysres) (k : kernel) : outcome (bool * kernel) :=
  if (fd b =? -1)%Z then Ret (true, k)
  else
    '(ok, b, k) ← _fobuf_flush b k;
    Ret (ok && negb (sync_failed fsync) && negb (failed close), k).

(** [if ( !close(b->fd) ) ret = 0;] *)
Definition fobuf_newfd (b : fobuf) (newfd : Z) (fsync close : sysres) (k : kernel)
    : outcome (bool * fobuf * kernel) :=
  let attach b := Fobuf newfd (b_mem b) (b_ptr b) (buf_len b) (buf_sz b) in
  if (fd b =? -1)%Z then Ret (true, attach b, k)
  else
    '(ok, b, k) ← _fobuf_flush b k;
    Ret (ok && negb (sync_failed fsync) && failed close, attach b, k).

Definition fobuf_write_slow (b : fobuf) (buf : list Z) (k : kernel)
    : outcome (bool * fobuf * kernel) :=
  if length buf <? buf_len b then Fault OutOfBounds
  else
    m ← copy_in b (take (buf_len b) buf);
    let buf' := drop (buf_len b) buf in
    let b := Fobuf (fd b) m (b_ptr b + buf_len b) 0 (buf_sz b) in
    '(ok, b, k) ← _fobuf_flush b k;
    if negb ok then Ret (false, b, k)
    else if buf_sz b <=? length buf' then
      '(ok, k) ← fd_write k buf'; Ret (ok : bool, b, k)
    else
      m ← copy_in b buf';
      Ret (true, Fobuf (fd b) m (b_ptr b + length buf') (buf_len b - length buf') (buf_sz b), k).

Definition fobuf_write (b : fobuf) (buf : list Z) (k : kernel) : outcome (bool * fobuf * kernel) :=
  if length buf <? buf_len b then
    m ← copy_in b buf;
    Ret (true, Fobuf (fd b) m (b_ptr b + length buf) (buf_len b - length buf) (buf_sz b), k)
  else fobuf_write_slow b buf k.

Definition fobuf_fd (b : fobuf) : Z := fd b.

(** ** Invariant and abstraction *)

Definition fobuf_ok (b : fobuf) : Prop :=
  0 < buf_sz b /\ length (b_mem b) = buf_sz b /\ b_ptr b + buf_len b = buf_sz b.

(** The bytes accepted and not yet given to the kernel. *)
Definition pending (b : fobuf) : list Z := take (b_ptr b) (b_mem b).

Lemma copy_in_ok b src : fobuf_ok b -> length src <= buf_len b ->
  exists m, copy_in b src = Ret m /\ length m = buf_sz b /\
    take (b_ptr b + length src) m = pending b ++ src.
Proof.
  intros (H0 & Hm & Hp) Hl. unfold copy_in. rewrite (proj2 (Nat.leb_le _ _)) by lia.
  eexists; split_and!; [done| |].
  - rewrite !length_app, length_take, length_drop. lia.
  - rewrite app_assoc. apply take_app_length'.
    unfold pending. rewrite length_app, length_take. lia.
Qed.

(** Flushing moves what is pending to the file; the buffer is empty after a
    success, unchanged after a failure. *)
Lemma flush_spec b k ok b' k' : fobuf_ok b -> _fobuf_flush b k = Ret (ok, b', k') ->
  fobuf_ok b' /\ buf_sz b' = buf_sz b /\ fd b' = fd b /\
  if ok : bool then k_file k' = k_file k ++ pending b /\ b_ptr b' = 0
  else b' = b /\ exists w, k_file k' = k_file k ++ w /\ w `prefix_of` pending b.
Proof.
  intros (H0 & Hm & Hp) H. unfold _fobuf_flush in H.
  destruct (Nat.eqb_spec (buf_sz b - buf_len b) 0) as [E|E].
  { assert (b_ptr b = 0) as Hz by lia. simplify_eq.
    unfold pending. rewrite Hz, take_0, app_nil_r. by unfold fobuf_ok. }
  apply outcome_bind_ret in H as ([r k1] & Hw & H).
  apply fd_write_spec in Hw as (w & Hk & Hpre & Hall).
  replace (buf_sz b - buf_len b) with (b_ptr b) in * by lia. fold (pending b) in *.
  destruct r; simplify_eq; unfold fobuf_ok; cbn.
  - rewrite Hall in Hk by done. split_and!; try done; lia.
  - split_and!; try done; try lia. eauto.
Qed.

(** The refinement: a write appends its bytes to what the file and the buffer
    hold together. *)
Lemma write_spec b buf k ok b' k' : fobuf_ok b -> fobuf_write b buf k = Ret (ok, b', k') ->
  fobuf_ok b' /\ fd b' = fd b /\
  (ok = true -> k_file k' ++ pending b' = (k_file k ++ pending b) ++ buf).
Proof.
  intros Hb H. unfold fobuf_write in H.
  destruct (Nat.ltb_spec (length buf) (buf_len b)) as [Hlt|Hge].
  { destruct (copy_in_ok b buf Hb) as (m & Hc & Hm & Ht); [lia|].
    rewrite Hc in H. cbn in H. simplify_eq. destruct Hb as (? & ? & ?).
    unfold fobuf_ok, pending in *; cbn. rewrite Ht. split_and!; try done; try lia.
    intros _. by rewrite app_assoc. }
  unfold fobuf_write_slow in H. destruct (Nat.ltb_spec (length buf) (buf_len b)); [lia|].
  destruct (copy_in_ok b (take (buf_len b) buf) Hb) as (m & Hc & Hm & Ht);
    [rewrite length_take; lia|].
  rewrite Hc in H. run_in H. rewrite length_take_le in Ht by lia.
  apply outcome_bind_ret in H as ([[ok1 b1] k1] & Hf & H).
  apply flush_spec in Hf as (Hb1 & Hsz & Hfd & Hcase).
  2: { destruct Hb as (? & ? & ?). unfold fobuf_ok; cbn. lia. }
  unfold pending in Hcase at 1 2; cbn in Hcase, Hsz, Hfd.
  destruct ok1; cbn [negb] in H; [|by simplify_eq; destruct Hcase as [-> _]].
  destruct Hcase as [Hfile Hptr]. rewrite Ht in Hfile.
  destruct (Nat.leb_spec (buf_sz b1) (length (drop (buf_len b) buf))) as [Hbig|Hsmall].
  - apply outcome_bind_ret in H as ([ok2 k2] & Hw & H). simplify_eq.
    apply fd_write_spec in Hw as (w & Hk & _ & Hall).
    split_and!; try done. intros Eok. assert (pending b' = []) as -> by by unfold pending; rewrite Hptr.
    rewrite app_nil_r, Hk, Hall, Hfile, <- !app_assoc by done. by rewrite take_drop.
  - assert (length (drop (buf_len b) buf) <= buf_len b1) as Hl2
      by (destruct Hb1 as (? & ? & ?); lia).
    destruct (copy_in_ok b1 (drop (buf_len b) buf) Hb1 Hl2) as (m2 & Hc2 & Hm2 & Ht2).
    rewrite Hc2 in H. cbn in H. simplify_eq. destruct Hb1 as (? & ? & ?).
    unfold fobuf_ok, pending in *; cbn. rewrite Ht2. split_and!; try done; try lia.
    intros _. rewrite Hfile, Hptr, take_0, <- !app_assoc. cbn. by rewrite take_drop.
Qed.

(** Writes never leave the buffer object. *)
Lemma flush_fault b k e : _fobuf_flush b k = Fault e -> e = Blocked.
Proof.
  unfold _fobuf_flush. case_match; [done|].
  destruct (fd_write k _) as [[[] k1]|e'] eqn:E; cbn; [done..|].
  intros [= ->]. by eapply write_loop_fault.
Qed.

Lemma write_fault b buf k e : fobuf_ok b -> fobuf_write b buf k = Fault e -> e = Blocked.
Proof.
  intros Hb H. unfold fobuf_write in H.
  destruct (Nat.ltb_spec (length buf) (buf_len b)) as [Hlt|Hge].
  { destruct (copy_in_ok b buf Hb) as (m & Hc & _); [lia|]. by rewrite Hc in H. }
  unfold fobuf_write_slow in H. destruct (Nat.ltb_spec (length buf) (buf_len b)); [lia|].
  destruct (copy_in_ok b (take (buf_len b) buf) Hb) as (m & Hc & Hm & _);
    [rewrite length_take; lia|].
  rewrite Hc in H. run_in H.
  destruct (_fobuf_flush _ k) as [[[ok b1] k1]|e1] eqn:Hf; run_in H.
  2: { simplify_eq. by eapply flush_fault. }
  apply flush_spec in Hf as (Hb1 & Hsz & Hfd & Hcase).
  2: { destruct Hb as (? & ? & ?). unfold fobuf_ok; cbn. lia. }
  destruct ok; cbn [negb] in H; [|done]. destruct Hcase as [_ Hptr].
  destruct (Nat.leb_spec (buf_sz b1) (length (drop (buf_len b) buf))).
  - destruct (fd_write k1 _) as [[[] k2]|e2] eqn:E; cbn in H; [done..|].
    simplify_eq. by eapply write_loop_fault.
  - destruct (copy_in_ok b1 (drop (buf_len b) buf) Hb1) as (m2 & Hc2 & _);
      [destruct Hb1 as (? & ? & ?); lia|]. by rewrite Hc2 in H.
Qed.

(** ** The interface a writer of files relies on *)

(** [sink_write] either returns success, having appended the bytes to those
    accepted so far, or an error; it faults only by blocking. *)
Class Sink (W : Type) := {
  sink_write : W -> list Z -> outcome (bool * W);
  sink_ok : W -> Prop;
  accepted : W -> list Z;
  sink_write_ok : forall w buf ok w', sink_ok w -> sink_write w buf = Ret (ok, w') ->
    sink_ok w' /\ (ok = true -> accepted w' = accepted w ++ buf);
  sink_write_fault : forall w buf e, sink_ok w -> sink_write w buf = Fault e -> e = Blocked;
}.

Definition fobuf_sink_write (w : fobuf * kernel) (buf : list Z)
    : outcome (bool * (fobuf * kernel)) :=
  let (b, k) := w in
  '(ok, b, k) ← fobuf_write b buf k; Ret (ok, (b, k)).

#[export] Instance fobuf_sink : Sink (fobuf * kernel).
Proof.
  refine (Build_Sink _ fobuf_sink_write (fun w => fobuf_ok w.1)
    (fun w => k_file w.2 ++ pending w.1) _ _).
  - intros [b k] buf ok [b' k'] Hb H. cbn in *.
    apply outcome_bind_ret in H as ([[ok1 b1] k1] & H & E). simplify_eq.
    apply write_spec in H as (? & _ & ?); done.
  - intros [b k] buf e Hb H. cbn in *. apply (write_fault b buf k); [done|].
    destruct (fobuf_write b buf k) as [[[ok1 b1] k1]|]; cbn in H; congruence.
Defined.

(** ** Properties *)

(** Write a list of pieces, stopping at the first failure. *)
Fixpoint write_all (b : fobuf) (k : kernel) (l : list (list Z)) : outcome (bool * fobuf * kernel) :=
  match l with
  | [] => Ret (true, b, k)
  | x :: l' =>
    '(ok, b, k) ← fobuf_write b x k;
    if ok : bool then write_all b k l' else Ret (false, b, k)
  end.

Lemma write_all_spec l : forall b k b' k', fobuf_ok b -> write_all b k l = Ret (true, b', k') ->
  fobuf_ok b' /\ fd b' = fd b /\ k_file k' ++ pending b' = (k_file k ++ pending b) ++ concat l.
Proof.
  induction l as [|x l IH]; intros b k b' k' Hb H; cbn in H.
  { simplify_eq. by rewrite app_nil_r. }
  apply outcome_bind_ret in H as ([[[] b1] k1] & Hw & H); [|done].
  apply write_spec in Hw as (Hb1 & Hfd & Hx); [|done].
  destruct (IH _ _ _ _ Hb1 H) as (? & ? & ->). split_and!; [done|congruence|].
  rewrite Hx by done. cbn. by rewrite <- !app_assoc.
Qed.

(** a new buffer over a descriptor, any sequence of writes that all succeed,
    and a close that succeeds leave in the file exactly what was there followed
    by the concatenation of the writes, for every buffer size and every split
    into pieces, however the kernel cuts the transfers. *)
Theorem fobuf_stream fdn bufsz m b l k b1 k1 fsync close k2 :
  fobuf_new fdn bufsz true (Some m) = Some b -> length m = bufsz_or_default bufsz ->
  fdn <> (-1)%Z ->
  write_all b k l = Ret (true, b1, k1) -> fobuf_close b1 fsync close k1 = Ret (true, k2) ->
  k_file k2 = k_file k ++ concat l.
Proof.
  intros Hnew Hm Hfd Hw Hc. injection Hnew as <-.
  apply write_all_spec in Hw as (Hb1 & Hfd1 & Hx).
  2: { unfold fobuf_ok; cbn. unfold bufsz_or_default in *. case_match; [|]; split_and!; try lia.
       all: destruct bufsz; [done|lia]. }
  cbn in Hfd1. unfold fobuf_close in Hc. rewrite Hfd1, (proj2 (Z.eqb_neq _ _)) in Hc by done.
  apply outcome_bind_ret in Hc as ([[ok b2] k3] & Hf & Hc). injection Hc as Hok <-.
  destruct ok; [|done]. apply flush_spec in Hf as (_ & _ & _ & -> & _); [|done].
  rewrite Hx. unfold pending at 1. cbn. by rewrite take_0, app_nil_r.
Qed.

Example fobuf_stream_witness :
  exists b k, write_all (Fobuf 3 [0; 0; 0; 0]%Z 0 4 4)
      (Kernel [SysOk 1; SysErr EINTR; SysOk 9; SysOk 5; SysOk 9; SysOk 9] [] [])
      [[1; 2]; [3; 4; 5]; [6; 7; 8; 9; 10; 11; 12; 13]]%Z = Ret (true, b, k) /\
    exists k2, fobuf_close b (SysErr EINVAL) (SysOk 0) k = Ret (true, k2) /\
      k_file k2 = [1; 2; 3; 4; 5; 6; 7; 8; 9; 10; 11; 12; 13]%Z.
Proof.
  eexists _, _. split; [vm_compute; reflexivity|].
  eexists. split; [vm_compute; reflexivity|].
  eapply (fobuf_stream 3 4 [0; 0; 0; 0]%Z _ [[1; 2]; [3; 4; 5]; [6; 7; 8; 9; 10; 11; 12; 13]]%Z
    (Kernel [SysOk 1; SysErr EINTR; SysOk 9; SysOk 5; SysOk 9; SysOk 9] [] []) _ _
    (SysErr EINVAL) (SysOk 0));
    [reflexivity|reflexivity|lia|vm_compute; reflexivity|vm_compute; reflexivity].
Defined.

(** [fobuf_write] keeps the buffer's invariant on every path, never copies
    outside the buffer object, and its only way not to return is to be blocked
    in [write]. *)
Theorem fobuf_write_safe b buf k : fobuf_ok b ->
  match fobuf_write b buf k with
  | Ret (_, b', _) => fobuf_ok b' /\ fobuf_fd b' = fobuf_fd b
  | Fault e => e = Blocked
  end.
Proof.
  intros Hb. destruct (fobuf_write b buf k) as [[[ok b'] k']|e] eqn:E.
  - apply write_spec in E as (? & ? & _); done.
  - by eapply write_fault.
Qed.

Example fobuf_write_safe_witness :
  fobuf_ok (Fobuf 3 [0; 0]%Z 0 2 2) /\
  fobuf_write (Fobuf 3 [0; 0]%Z 0 2 2) [1; 2]%Z (Kernel [] [] []) = Fault Blocked.
Proof.
  assert (fobuf_ok (Fobuf 3 [0; 0]%Z 0 2 2)) as H by (unfold fobuf_ok; cbn; lia).
  split; [exact H|].
  pose proof (fobuf_write_safe (Fobuf 3 [0; 0]%Z 0 2 2) [1; 2]%Z (Kernel [] [] []) H) as Hs.
  reflexivity.
Defined.

(** [fobuf_newfd] on an open descriptor reports success only when closing the
    old descriptor failed, and an error whenever it closed it. *)
Theorem fobuf_newfd_inverted b newfd fsync close k ok b' k' :
  fd b <> (-1)%Z -> fobuf_newfd b newfd fsync close k = Ret (ok, b', k') ->
  ok = true -> failed close = true.
Proof.
  intros Hfd H. unfold fobuf_newfd in H. rewrite (proj2 (Z.eqb_neq _ _)) in H by done.
  apply outcome_bind_ret in H as ([[ok1 b1] k1] & _ & H). injection H as <- _ _.
  by intros [[_ _]%andb_true_iff ?]%andb_true_iff.
Qed.

Example fobuf_newfd_inverted_witness :
  (fobuf_newfd (Fobuf 3 [0]%Z 0 1 1) 4 (SysOk 0) (SysErr EOTHER) (Kernel [] [] [])) =
    Ret (true, Fobuf 4 [0]%Z 0 1 1, Kernel [] [] []) /\ failed (SysErr EOTHER) = true.
Proof.
  split; [reflexivity|].
  eapply (fobuf_newfd_inverted (Fobuf 3 [0]%Z 0 1 1) 4 (SysOk 0) (SysErr EOTHER) (Kernel [] [] []));
    [cbn; lia|reflexivity|reflexivity].
Defined.
