(* ===== verification/Trie.v ===== *)
(** * trie.c and webroot-format.h: building the URI index and writing it to disk

    [trie_new] turns the sorted list of URIs into a radix tree of edges,
    [do_layout_bfs] numbers the edges in breadth-first order and
    [trie_write_trie] writes them as fixed-size records.  The edges the code
    allocates from a pool are the nodes of an inductive tree; each carries the
    number of the allocation that made it as its address, so that an edge is
    found in the breadth-first list by identity, as the code's [e_bfs_idx]
    does, and not by its contents. *)

From Stdlib Require Import Sorted.
From S2P Require Import Prelude Vec Os Fobuf.

Definition RE_EDGE_MAX : nat := 8.
Definition GIDX_INVALID_OID : Z := 0xffffffff%Z.

Record trie_entry := TrieEntry { t_str : list Z; t_oid : Z }.

(** [struct trie_edge]: [e_num_edges] is the length of [e_edges]. *)
Inductive edge :=
| Edge (e_addr : nat) (e_cmp : list Z) (e_terminal : option trie_entry) (e_edges : list edge).

Definition e_addr (e : edge) := let 'Edge a _ _ _ := e in a.
Definition e_cmp (e : edge) := let 'Edge _ c _ _ := e in c.
Definition e_terminal (e : edge) := let 'Edge _ _ t _ := e in t.
Definition e_edges (e : edge) := let 'Edge _ _ _ ks := e in ks.

(** [struct trie] while it is built; [r_calls] counts the allocations asked of
    [r_edges]. *)
Record trie := Trie {
  r_num_edges : nat;
  r_max_fanout : nat;
  r_max_cmp : nat;
  r_max_path : nat;
  r_calls : nat;
}.

Definition trie0 : trie := Trie 0 0 0 0 0.

Section build.
(** Which allocations succeed. *)
Context (alloc : nat -> bool).

(** [edge_new(r, parent)]; of the parent only the number of its edges matters. *)
Definition edge_new (r : trie) (parent : option nat) : trie * option nat :=
  if alloc (r_calls r) then
    (Trie (S (r_num_edges r))
       (match parent with
        | Some n => if r_max_fanout r <? S n then S n else r_max_fanout r
        | None => r_max_fanout r
        end)
       (r_max_cmp r) (r_max_path r) (S (r_calls r)),
     Some (r_calls r))
  else (Trie (r_num_edges r) (r_max_fanout r) (r_max_cmp r) (r_max_path r) (S (r_calls r)), None).

(** [next_string(v, end)], the entries from [v] to [end] being the list. *)
Definition next_string (v : list trie_entry) : option (list trie_entry) :=
  match v with
  | _ :: e :: v' => Some (e :: v')
  | _ => None
  end.

Fixpoint matching (a b : list Z) : nat :=
  match a, b with
  | x :: a', y :: b' => if (x =? y)%Z then S (matching a' b') else 0
  | _, _ => 0
  end.

Definition common_prefix (a b : list Z) (ofs : nat) : nat :=
  if min (length a) (length b) <=? ofs then 0
  else min RE_EDGE_MAX (matching (drop ofs a) (drop ofs b)).

(** The inner [for] of [do_radix]: [cur] is the position of [tmp] from [v], and
    [last] that of the code's [last]. *)
Fixpoint radix_scan (v : list Z) (ofs len last cur : nat) (tmp : list trie_entry) : nat * nat :=
  match tmp with
  | [] => (len, last)
  | t :: tmp' =>
    if len <? 0x100 then
      let x := common_prefix v (t_str t) ofs in
      if x =? 0 then (len, last)
      else radix_scan v ofs (min x len) cur (S cur) tmp'
    else (len, last)
  end.

Definition enter (r : trie) (depth : nat) : trie :=
  Trie (r_num_edges r) (r_max_fanout r) (r_max_cmp r)
    (if r_max_path r <? depth then depth else r_max_path r) (r_calls r).

Definition note_cmp (r : trie) (len : nat) : trie :=
  Trie (r_num_edges r) (r_max_fanout r) (if r_max_cmp r <? len then len else r_max_cmp r)
    (r_max_path r) (r_calls r).

(** The [while(v)] loop of [do_radix] and the calls it makes: [kids] is what
    [n->e_edges] holds; the results are the updated statistics, [n->e_edges]
    and the return value.  The return value of the recursive call is ignored, as
    in the code. *)
Fixpoint radix_loop (fuel : nat) (r : trie) (kids : list edge) (v : option (list trie_entry))
    (ofs depth : nat) : outcome (trie * list edge * bool) :=
  match v with
  | None => Ret (r, kids, true)
  | Some [] => Fault AssertFailed
  | Some ((v0 :: _) as vs) =>
    match fuel with
    | O => Fault OutOfFuel
    | S fuel =>
      let s := t_str v0 in
      if length s <? ofs then Fault OutOfBounds
      else
        let (len, last) := radix_scan s ofs (length s - ofs) 0 0 vs in
        match edge_new r (Some (length kids)) with
        | (r, None) => Ret (r, kids, false)
        | (r, Some a) =>
          let c := take len (drop ofs s) in
          let r := note_cmp r len in
          assert! ofs + len <=? length s ;;
          if ofs + len =? length s then
            if last =? 0 then
              radix_loop fuel r (kids ++ [Edge a c (Some v0) []]) (next_string (drop last vs))
                ofs depth
            else
              '(r, sub, _) ← radix_loop fuel (enter r (S depth)) []
                               (next_string (take (S last) vs)) (ofs + len) (S depth);
              radix_loop fuel r (kids ++ [Edge a c (Some v0) sub]) (next_string (drop last vs))
                ofs depth
          else
            '(r, sub, _) ← radix_loop fuel (enter r (S depth)) [] (Some (take (S last) vs))
                             (ofs + len) (S depth);
            radix_loop fuel r (kids ++ [Edge a c None sub]) (next_string (drop last vs)) ofs depth
        end
    end
  end.

Definition do_radix (fuel : nat) (r : trie) (kids : list edge) (v : list trie_entry)
    (ofs depth : nat) : outcome (trie * list edge * bool) :=
  radix_loop fuel (enter r depth) kids (Some v) ofs depth.

(** A bound on the iterations and calls [do_radix] makes in all. *)
Definition radix_fuel (v : list trie_entry) (ofs : nat) : nat :=
  sum_list_with (fun e => S (length (t_str e) - ofs)) v.

(** [construct_radix(r, ent, cnt)] and the [r_root_edge] it sets. *)
Definition construct_radix (r : trie) (ent : option (list trie_entry))
    : outcome (trie * option edge * bool) :=
  match ent with
  | None => Ret (r, None, true)
  | Some v =>
    match edge_new r None with
    | (r, None) => Ret (r, None, false)
    | (r, Some a) =>
      '(r, kids, ok) ← do_radix (radix_fuel v 0) r [] v 0 1;
      Ret (r, Some (Edge a [] None kids), ok)
    end
  end.
End build.

(** ** Layout *)

(** The breadth-first lists of [do_layout_bfs]: [cur], then its children, and so
    on until there are none. *)
Fixpoint bfs (fuel : nat) (cur : list edge) : list edge :=
  match fuel with
  | O => []
  | S fuel =>
    match concat (e_edges <$> cur) with
    | [] => cur
    | next => cur ++ bfs fuel next
    end
  end.

(** [layout_radix]: the breadth-first list; without a root it dereferences the null
    pointer (in [do_layout_inorder]). *)
Definition layout_radix (r : trie) (root : option edge) : outcome (list edge) :=
  match root with
  | Some e => Ret (bfs (r_num_edges r) [e])
  | None => Fault OutOfBounds
  end.

(** [trie_new]: the tree and its breadth-first list, or null. The two booleans
    say whether [calloc] and [hgang_new] succeed. *)
Definition trie_new (alloc : nat -> bool) (calloc_ok hgang_ok : bool)
    (ent : option (list trie_entry)) : outcome (option (trie * option edge * list edge)) :=
  if negb (calloc_ok && hgang_ok) then Ret None
  else
    '(r, root, ok) ← construct_radix alloc trie0 ent;
    if ok : bool then
      order ← layout_radix r root;
      Ret (Some (r, root, order))
    else Ret None.

(** ** Records on disk *)

Record trie_dedge := Dedge {
  re_oid : Z;
  re_edges_idx : Z;
  re_num_edges : Z;
  re_strlen : Z;
  re_str : list Z;
}.

Definition dedge_sz : nat := 18.

Definition encode_dedge (d : trie_dedge) : list Z :=
  le_bytes 4 (re_oid d) ++ le_bytes 4 (re_edges_idx d) ++
  le_bytes 1 (re_num_edges d) ++ le_bytes 1 (re_strlen d) ++ re_str d.

(** The bytes [fobuf_write] is given for an edge, whose integer fields truncate
    to their widths. *)
Definition dedge_of (e : edge) (idx : Z) : outcome trie_dedge :=
  assert! length (e_edges e) <? 0x100 ;;
  assert! length (e_cmp e) <=? RE_EDGE_MAX ;;
  Ret (Dedge (uint 32 (match e_terminal e with Some t => t_oid t | None => GIDX_INVALID_OID end))
         (uint 32 idx) (Z.of_nat (length (e_edges e))) (Z.of_nat (length (e_cmp e)))
         (e_cmp e ++ replicate (RE_EDGE_MAX - length (e_cmp e)) 0%Z)).

(** [e->e_bfs_idx]: the position of the edge in the list. *)
Fixpoint bfs_idx (order : list edge) (a : nat) : option nat :=
  match order with
  | [] => None
  | e :: order' => if e_addr e =? a then Some 0 else S <$> bfs_idx order' a
  end.

Definition first_child_idx (order : list edge) (e : edge) : Z :=
  match e_edges e with
  | [] => 0%Z
  | ee :: _ => match bfs_idx order (e_addr ee) with Some i => Z.of_nat i | None => 0%Z end
  end.

Section write.
Context {W : Type} `{Sink W}.

Definition node_to_disk (w : W) (e : edge) (idx : Z) : outcome (bool * W) :=
  d ← dedge_of e idx;
  sink_write w (encode_dedge d).

Fixpoint write_edges (order : list edge) (w : W) (es : list edge) : outcome (bool * W) :=
  match es with
  | [] => Ret (true, w)
  | e :: es' =>
    '(ok, w) ← node_to_disk w e (first_child_idx order e);
    if ok : bool then write_edges order w es' else Ret (false, w)
  end.

Definition trie_write_trie (order : list edge) (w : W) : outcome (bool * W) :=
  write_edges order w order.
End write.

Definition trie_trie_size (r : trie) : Z := Z.of_nat dedge_sz * Z.of_nat (r_num_edges r).
Definition trie_num_edges (r : trie) : Z := Z.of_nat (r_num_edges r).

(** ** One iteration of the loop *)

(** A list of entries as a pointer to its first, null when there is none. *)
Definition nn (l : list trie_entry) : option (list trie_entry) :=
  match l with [] => None | _ => Some l end.

Lemma next_string_nn v : next_string v = nn (tail v).
Proof. by destruct v as [|x [|y v]]. Qed.

Lemma matching_spec a b :
  matching a b <= length a /\ matching a b <= length b /\
  take (matching a b) a = take (matching a b) b.
Proof.
  revert b. induction a as [|x a IH]; intros [|y b]; cbn; try (split_and!; [lia|lia|done]).
  destruct (Z.eqb_spec x y) as [->|]; cbn; [|split_and!; [lia|lia|done]].
  destruct (IH b) as (? & ? & ->). split_and!; [lia|lia|done].
Qed.

Lemma matching_zero a b : matching a b = 0 -> a <> [] -> b <> [] -> head a <> head b.
Proof.
  destruct a as [|x a], b as [|y b]; cbn; try done. destruct (Z.eqb_spec x y); [done|congruence].
Qed.

Lemma matching_refl a : matching a a = length a.
Proof. induction a; cbn; [done|]. by rewrite Z.eqb_refl, IHa. Qed.

(** The first [len] bytes after the first [ofs] exist in both and agree. *)
Definition agree (ofs len : nat) (a b : list Z) : Prop :=
  ofs + len <= length a /\ ofs + len <= length b /\
  take len (drop ofs a) = take len (drop ofs b).

Lemma agree_weaken ofs len len' a b : len' <= len -> agree ofs len a b -> agree ofs len' a b.
Proof.
  intros Hl (? & ? & H). split_and!; [lia|lia|].
  replace len' with (min len' len) by lia. by rewrite <- !take_take, H.
Qed.

Lemma common_prefix_spec a b ofs : let x := common_prefix a b ofs in
  x <= RE_EDGE_MAX /\ (0 < x -> agree ofs x a b) /\
  (x = 0 -> ofs < length a -> ofs < length b -> head (drop ofs a) <> head (drop ofs b)).
Proof.
  cbn zeta. unfold common_prefix.
  destruct (Nat.leb_spec (min (length a) (length b)) ofs) as [H|H]; [split_and!; lia|].
  destruct (matching_spec (drop ofs a) (drop ofs b)) as (Ha & Hb & Hm).
  rewrite length_drop in Ha, Hb.
  assert (agree ofs (matching (drop ofs a) (drop ofs b)) a b) as Hag
    by (split_and!; [lia|lia|done]).
  split_and!; [lia| |].
  - intros _. eapply agree_weaken; [|exact Hag]. lia.
  - unfold RE_EDGE_MAX. intros H0 _ _. apply matching_zero; [lia| |];
      intros E; apply (f_equal length) in E; rewrite length_drop in E; cbn in E; lia.
Qed.

Lemma common_prefix_self a ofs : ofs < length a ->
  common_prefix a a ofs = min RE_EDGE_MAX (length a - ofs).
Proof.
  intros H. unfold common_prefix. rewrite matching_refl, length_drop.
  destruct (Nat.leb_spec (min (length a) (length a)) ofs); lia.
Qed.

Lemma radix_scan_spec v ofs tmp : forall len last cur len' last',
  radix_scan v ofs len last cur tmp = (len', last') ->
  exists m, m <= length tmp /\ last' = (if m =? 0 then last else cur + m - 1) /\ len' <= len /\
    (m = 0 -> len' = len) /\ (0 < m -> len' <= RE_EDGE_MAX) /\ (0 < len -> 0 < len') /\
    Forall (fun t => agree ofs len' v (t_str t) /\ 0 < common_prefix v (t_str t) ofs) (take m tmp) /\
    (forall t, tmp !! m = Some t -> len' < 0x100 -> common_prefix v (t_str t) ofs = 0).
Proof.
  induction tmp as [|t tmp IH]; intros len last cur len' last' H; cbn [radix_scan] in H; cbv zeta in H.
  { simplify_eq. exists 0. cbn. split_and!; try done; lia. }
  destruct (Nat.ltb_spec len 0x100) as [Hlt|Hge].
  2: { simplify_eq. exists 0. cbn. split_and!; try done; lia. }
  destruct (common_prefix_spec v (t_str t) ofs) as (H8 & Hag & _).
  destruct (Nat.eqb_spec (common_prefix v (t_str t) ofs) 0) as [E|E].
  { simplify_eq. exists 0. cbn. split_and!; try done; try lia. by intros ? [= ->]. }
  apply IH in H as (m & Hm & Hl & Hle & H0 & Hp & Hpos & Hall & Hnext).
  exists (S m). cbn [length take lookup list_lookup Nat.eqb].
  split_and!; [lia| |lia|done| |lia| |done].
  - destruct (Nat.eqb_spec m 0); subst; lia.
  - intros _. destruct (Nat.eq_dec m 0) as [Em|]; [rewrite H0 by done; lia|apply Hp; lia].
  - constructor; [|done]. split; [|lia]. eapply agree_weaken; [|apply Hag; lia]. lia.
Qed.

(** The group of entries one edge stands for. *)
Record group (vs g rest : list trie_entry) (v0 : trie_entry) (ofs len : nat) : Prop := {
  g_split : vs = g ++ rest;
  g_first : head g = Some v0;
  g_agree : Forall (fun t => agree ofs len (t_str v0) (t_str t)) g;
  g_pos : ofs < length (t_str v0) -> 0 < len;
  g_single : ofs + len <> length (t_str v0) \/ 1 < length g -> 0 < len <= RE_EDGE_MAX;
  g_short : length (t_str v0) - ofs < 0x100 -> len <= RE_EDGE_MAX;
  g_next : forall t, head rest = Some t -> len <= RE_EDGE_MAX ->
    common_prefix (t_str v0) (t_str t) ofs = 0;
}.

Lemma radix_scan_group v0 vs ofs : ofs <= length (t_str v0) ->
  let '(len, last) := radix_scan (t_str v0) ofs (length (t_str v0) - ofs) 0 0 (v0 :: vs) in
  last <= length vs /\
  group (v0 :: vs) (take (S last) (v0 :: vs)) (drop (S last) (v0 :: vs)) v0 ofs len.
Proof.
  intros Ho. destruct (radix_scan _ _ _ _ _ _) as [len last] eqn:E.
  destruct (radix_scan_spec _ _ _ _ _ _ _ _ E) as (m & Hm & Hl & Hle & H0 & H8 & Hpos & Hall & Hn).
  assert (m = 0 -> len = 0 \/ 0x100 <= len) as Hm0.
  { intros ->. destruct (decide (len < 0x100)); [|lia]. left.
    specialize (Hn v0 eq_refl ltac:(lia)).
    destruct (decide (ofs < length (t_str v0))); [|rewrite H0 by done; lia].
    rewrite common_prefix_self in Hn by done. unfold RE_EDGE_MAX in *. rewrite H0 by done. lia. }
  assert (0 < m -> ofs < length (t_str v0)) as Hpre.
  { intros H. destruct m as [|m]; [lia|]. apply Forall_inv in Hall as [_ Hc].
    destruct (decide (ofs < length (t_str v0))); [done|]. unfold common_prefix in Hc.
    rewrite (proj2 (Nat.leb_le _ _)) in Hc; lia. }
  assert (last = m - 1) as -> by (destruct (Nat.eqb_spec m 0); lia).
  assert (agree ofs len (t_str v0) (t_str v0)) as Hself by (split_and!; [lia|lia|done]).
  split; [cbn in Hm; lia|]. split; unfold RE_EDGE_MAX in *.
  - by rewrite take_drop.
  - done.
  - destruct m; [by apply Forall_singleton|]. replace (S (S m - 1)) with (S m) by lia.
    eapply Forall_impl; [exact Hall|]. by intros ? [? _].
  - lia.
  - rewrite length_take. intros Hd. assert (m <> 0).
    { intros ->. specialize (H0 eq_refl). destruct Hd; lia. }
    specialize (Hpre ltac:(lia)). lia.
  - intros Hs. destruct (decide (m = 0)) as [Em|]; [|apply H8; lia].
    destruct (Hm0 Em); lia.
  - intros t Ht Hlen. destruct m as [|m].
    + destruct (Hm0 eq_refl) as [Hz|]; [|lia]. specialize (H0 eq_refl).
      unfold common_prefix. rewrite (proj2 (Nat.leb_le _ _)); [done|lia].
    + apply (Hn t); [|lia]. replace (S (S m - 1)) with (S m) in Ht by lia.
      by rewrite head_lookup, lookup_drop, Nat.add_0_r in Ht.
Qed.

(** What a recursive call adds to its edge. *)
Definition descend alloc (fuel : nat) (r : trie) (inner : option (list trie_entry))
    (ofs depth : nat) : outcome (trie * list edge * bool) :=
  match inner with
  | None => Ret (r, [], true)
  | Some _ => radix_loop alloc fuel (enter r (S depth)) [] inner ofs (S depth)
  end.

Lemma radix_step alloc fuel r kids v0 vs ofs depth : ofs <= length (t_str v0) ->
  exists g rest len, group (v0 :: vs) g rest v0 ofs len /\
  let terminal := ofs + len =? length (t_str v0) in
  radix_loop alloc (S fuel) r kids (Some (v0 :: vs)) ofs depth =
  match edge_new alloc r (Some (length kids)) with
  | (r, None) => Ret (r, kids, false)
  | (r, Some a) =>
    '(r, sub, _) ← descend alloc fuel (note_cmp r len) (nn (if terminal then tail g else g))
                     (ofs + len) depth;
    radix_loop alloc fuel r
      (kids ++ [Edge a (take len (drop ofs (t_str v0))) (if terminal then Some v0 else None) sub])
      (nn rest) ofs depth
  end.
Proof.
  intros Ho. pose proof (radix_scan_group v0 vs ofs Ho) as Hg.
  cbn [radix_loop]. cbv zeta. rewrite (proj2 (Nat.ltb_ge _ _)) by done.
  destruct (radix_scan _ _ _ _ _ _) as [len last] eqn:E.
  destruct Hg as [Hlast Hg].
  exists (take (S last) (v0 :: vs)), (drop (S last) (v0 :: vs)), len. split; [done|].
  assert (ofs + len <= length (t_str v0)) as Hlen.
  { pose proof (g_agree _ _ _ _ _ _ Hg) as Ha. apply Forall_inv in Ha. apply Ha. }
  destruct (edge_new _ _ _) as [r' [a|]]; [|done].
  rewrite (proj2 (Nat.leb_le _ _)) by done. run.
  assert (next_string (drop last (v0 :: vs)) = nn (drop (S last) (v0 :: vs))) as ->.
  { rewrite next_string_nn. f_equal. by destruct (drop last (v0 :: vs)) eqn:Ed;
      rewrite <- Nat.add_1_r, <- drop_drop, Ed. }
  destruct (Nat.eqb_spec (ofs + len) (length (t_str v0))).
  - rewrite next_string_nn. destruct last as [|last]; [done|]. cbn [Nat.eqb].
    by destruct vs; [cbn in Hlast; lia|].
  - done.
Qed.

(** ** The builder terminates *)

(** All the edges of a list of subtrees. *)
Fixpoint flatten (e : edge) : list edge :=
  e :: concat (flatten <$> e_edges e).

Section edge_induction.
Context (P : edge -> Prop).
Context (IH : forall a c t ks, Forall P ks -> P (Edge a c t ks)).

Fixpoint edge_ind' (e : edge) : P e :=
  let 'Edge a c t ks := e in
  IH a c t ks ((fix go ks := match ks return Forall P ks with
    | [] => Forall_nil_2 P
    | k :: ks' => Forall_cons_2 P k ks' (edge_ind' k) (go ks')
    end) ks).
End edge_induction.

Definition flat (l : list edge) : list edge := concat (flatten <$> l).

Lemma flat_app l1 l2 : flat (l1 ++ l2) = flat l1 ++ flat l2.
Proof. unfold flat. by rewrite fmap_app, concat_app. Qed.

Lemma flat_cons a c t ks l : flat (Edge a c t ks :: l) = Edge a c t ks :: flat ks ++ flat l.
Proof. done. Qed.

(** The edges' addresses are distinct and come from allocations [lo] to [hi]. *)
Definition fresh (lo hi : nat) (l : list edge) : Prop :=
  NoDup (e_addr <$> l) /\ Forall (fun e => lo <= e_addr e < hi) l.

Lemma fresh_nil lo hi : fresh lo hi [].
Proof. split; constructor. Qed.

Lemma fresh_app lo mid hi l1 l2 : lo <= mid <= hi ->
  fresh lo mid l1 -> fresh mid hi l2 -> fresh lo hi (l1 ++ l2).
Proof.
  intros Hm [N1 F1] [N2 F2]. split.
  - rewrite fmap_app. apply NoDup_app. split_and!; [done| |done].
    intros a (e1 & -> & H1)%list_elem_of_fmap (e2 & Ea & H2)%list_elem_of_fmap.
    rewrite Forall_forall in F1, F2. specialize (F1 _ H1). specialize (F2 _ H2). lia.
  - apply Forall_app. split; eapply Forall_impl; [exact F1| |exact F2|]; cbn; lia.
Qed.

Lemma fresh_one a c t ks : fresh a (S a) [Edge a c t ks].
Proof. split; [apply NoDup_singleton|]. apply Forall_singleton. cbn. lia. Qed.

(** What a run of the builder adds to the statistics. *)
Definition grown (r r' : trie) (new : list edge) : Prop :=
  r_num_edges r' = r_num_edges r + length (flat new) /\
  r_calls r <= r_calls r' /\ fresh (r_calls r) (r_calls r') (flat new).

Lemma grown_refl r : grown r r [].
Proof. split_and!; [cbn; lia|done|apply fresh_nil]. Qed.

Lemma edge_new_some alloc r p r' a : edge_new alloc r p = (r', Some a) ->
  r_num_edges r' = S (r_num_edges r) /\ r_calls r' = S (r_calls r) /\ a = r_calls r.
Proof. unfold edge_new. destruct (alloc _); intros [=]; by subst. Qed.

(** An edge, its subtree and its later siblings, one after another. *)
Lemma grown_node alloc r p r1 a c t sub r2 r3 new len : edge_new alloc r p = (r1, Some a) ->
  grown (note_cmp r1 len) r2 sub -> grown r2 r3 new -> grown r r3 (Edge a c t sub :: new).
Proof.
  intros (Hn & Hc & ->)%edge_new_some (Hn2 & Hc2 & Hf2) (Hn3 & Hc3 & Hf3). cbn in Hn2, Hc2, Hf2.
  unfold grown. rewrite flat_cons. split_and!.
  - cbn. rewrite length_app. lia.
  - lia.
  - change (_ :: ?x) with ([Edge (r_calls r) c t sub] ++ x).
    apply (fresh_app _ (S (r_calls r))); [lia|apply fresh_one|].
    rewrite Hc in Hf2. apply (fresh_app _ (r_calls r2)); [lia|done..].
Qed.

Lemma radix_fuel_cons e v ofs : radix_fuel (e :: v) ofs = S (length (t_str e) - ofs) + radix_fuel v ofs.
Proof. done. Qed.

Lemma radix_fuel_app v1 v2 ofs : radix_fuel (v1 ++ v2) ofs = radix_fuel v1 ofs + radix_fuel v2 ofs.
Proof. induction v1; cbn [app]; [done|]. rewrite !radix_fuel_cons. lia. Qed.

Lemma radix_fuel_deeper v s ofs len : Forall (fun t => agree ofs len s (t_str t)) v ->
  radix_fuel v (ofs + len) + len * length v <= radix_fuel v ofs.
Proof.
  induction 1 as [|t v (_ & Ht & _) _ IH]; [cbn; lia|].
  rewrite !radix_fuel_cons. cbn [length]. lia.
Qed.

Section total.
Context (alloc : nat -> bool).

(** The entries a recursive call is given: what is left of the group. *)
Definition inner_of (g : list trie_entry) (v0 : trie_entry) (ofs len : nat) : list trie_entry :=
  if ofs + len =? length (t_str v0) then tail g else g.

Lemma inner_fuel vs g rest v0 ofs len fuel : group vs g rest v0 ofs len ->
  radix_fuel vs ofs <= S fuel ->
  radix_fuel (inner_of g v0 ofs len) (ofs + len) <= fuel /\ radix_fuel rest ofs <= fuel.
Proof.
  intros Hg Hf. rewrite (g_split _ _ _ _ _ _ Hg), radix_fuel_app in Hf.
  pose proof (radix_fuel_deeper _ _ _ _ (g_agree _ _ _ _ _ _ Hg)) as Hd.
  pose proof (g_first _ _ _ _ _ _ Hg) as Hh. pose proof (g_single _ _ _ _ _ _ Hg) as Hs.
  unfold inner_of. destruct g as [|x g]; [done|]. cbn in Hh. injection Hh as ->.
  rewrite !radix_fuel_cons in *. cbn [length tail] in *.
  destruct (Nat.eqb_spec (ofs + len) (length (t_str v0))); [split; lia|].
  rewrite radix_fuel_cons. destruct Hs as [Hs _]; [by left|]. split; nia.
Qed.

Lemma inner_agree vs g rest v0 ofs len : group vs g rest v0 ofs len ->
  Forall (fun t => ofs + len <= length (t_str t)) (inner_of g v0 ofs len).
Proof.
  intros Hg. assert (Forall (fun t => ofs + len <= length (t_str t)) g) as H.
  { eapply Forall_impl; [exact (g_agree _ _ _ _ _ _ Hg)|]. by intros t (_ & ? & _). }
  unfold inner_of. case_match; [|done]. destruct H; [constructor|done].
Qed.

Lemma nn_cases (Q : option (list trie_entry) -> Prop) l :
  (l = [] -> Q None) -> (l <> [] -> Q (Some l)) -> Q (nn l).
Proof. destruct l; cbn; auto. Qed.

Lemma radix_total : forall fuel r kids v ofs depth,
  Forall (fun e => ofs <= length (t_str e)) v -> radix_fuel v ofs <= fuel ->
  exists r' new b, radix_loop alloc fuel r kids (nn v) ofs depth = Ret (r', kids ++ new, b) /\
    grown r r' new.
Proof.
  induction fuel as [|fuel IH]; intros r kids v ofs depth Hv Hf;
    (destruct v as [|v0 vs]; [exists r, [], true; by rewrite app_nil_r; cbn; auto using grown_refl|]).
  { cbn in Hf. lia. }
  cbn [nn]. pose proof (Forall_inv Hv) as Hv0.
  destruct (radix_step alloc fuel r kids v0 vs ofs depth Hv0) as (g & rest & len & Hg & ->).
  destruct (edge_new alloc r (Some (length kids))) as [r1 [a|]] eqn:E.
  2: { exists r1, [], false. rewrite app_nil_r. split; [done|]. unfold edge_new in E.
       destruct (alloc _); simplify_eq. split_and!; [cbn; lia|cbn; lia|apply fresh_nil]. }
  destruct (inner_fuel _ _ _ _ _ _ _ Hg Hf) as [Hfi Hfr]. fold (inner_of g v0 ofs len).
  assert (exists r2 sub b, descend alloc fuel (note_cmp r1 len) (nn (inner_of g v0 ofs len))
    (ofs + len) depth = Ret (r2, sub, b) /\ grown (note_cmp r1 len) r2 sub) as (r2 & sub & b & -> & Hsub).
  { apply nn_cases; intros Hin; cbn [descend].
    - do 3 eexists. split; [done|]. apply grown_refl.
    - destruct (IH (enter (note_cmp r1 len) (S depth)) [] (inner_of g v0 ofs len) (ofs + len)
        (S depth)) as (r2 & sub & b & Hr & Hgr); [by eapply inner_agree|done|].
      exists r2, sub, b. split; [|done]. by destruct (inner_of g v0 ofs len). }
  run.
  assert (Forall (fun e => ofs <= length (t_str e)) rest) as Hrest.
  { rewrite (g_split _ _ _ _ _ _ Hg) in Hv. by apply Forall_app in Hv as [_ ?]. }
  destruct (IH r2 (kids ++ [Edge a (take len (drop ofs (t_str v0)))
    (if ofs + len =? length (t_str v0) then Some v0 else None) sub]) rest ofs depth Hrest Hfr)
    as (r3 & new & b3 & -> & Hnew).
  eexists r3, (Edge _ _ _ _ :: new), b3. split; [by rewrite <- app_assoc|].
  by eapply grown_node.
Qed.
End total.

(** ** The tree as a map

    What a tree means, independently of how it was built: the entries that its
    edges spell out. *)

Inductive hits : list edge -> list Z -> trie_entry -> Prop :=
| hit_here ks a c e sub : Edge a c (Some e) sub ∈ ks -> hits ks c e
| hit_below ks a c t sub s e : Edge a c t sub ∈ ks -> s <> [] -> hits sub s e -> hits ks (c ++ s) e.

(** [memcmp] order. *)
Fixpoint lex_lt (a b : list Z) : Prop :=
  match a, b with
  | _, [] => False
  | [], _ :: _ => True
  | x :: a', y :: b' => (x < y)%Z \/ x = y /\ lex_lt a' b'
  end.

#[export] Instance lex_lt_dec a b : Decision (lex_lt a b).
Proof.
  revert b. induction a as [|x a IH]; intros [|y b]; cbn; try apply _.
Defined.

Definition suf (ofs : nat) (t : trie_entry) : list Z := drop ofs (t_str t).

Definition suf_lt (ofs : nat) (t u : trie_entry) : Prop := lex_lt (suf ofs t) (suf ofs u).

(** What [trie_new] expects of an entry: a C string shorter than 256 bytes. *)
Definition uri_ok (t : trie_entry) : Prop :=
  Forall (fun b => 0 < b < 256)%Z (t_str t) /\ length (t_str t) < 0x100.

Definition first_byte (e : edge) : Z := hd 0%Z (e_cmp e).
Definition first_lt (e f : edge) : Prop := (first_byte e < first_byte f)%Z.

Inductive wf_edge : edge -> Prop :=
| wf_Edge a c t ks : 0 < length c <= RE_EDGE_MAX -> Forall (fun b => 0 < b < 256)%Z c ->
    StronglySorted first_lt ks -> Forall wf_edge ks -> wf_edge (Edge a c t ks).

Lemma lex_lt_app c x y : lex_lt (c ++ x) (c ++ y) <-> lex_lt x y.
Proof. induction c as [|b c IH]; cbn; [done|]. rewrite IH. naive_solver lia. Qed.

Lemma lex_lt_nonempty x y : lex_lt x y -> y <> [].
Proof. by destruct x, y. Qed.

Lemma lex_lt_head x y : lex_lt x y -> (x = [] \/ hd 0 x <= hd 0 y)%Z.
Proof. destruct x, y; cbn; [by auto..|]. intros [?|[-> _]]; right; lia. Qed.

Lemma hits_nil s e : hits [] s e <-> False.
Proof. split; [|done]. intros H. inversion H; set_solver. Qed.

Lemma hits_cons a c t sub ks s e : hits (Edge a c t sub :: ks) s e <->
  (s = c /\ t = Some e) \/ (exists s', s = c ++ s' /\ s' <> [] /\ hits sub s' e) \/ hits ks s e.
Proof.
  split.
  - intros H. inversion H as [? ? ? ? ? Hin|? ? ? ? ? ? ? Hin]; subst;
      apply elem_of_cons in Hin as [[= -> -> -> ->]|Hin]; [by left|right; right|right; left|right; right].
    + by econstructor.
    + eauto.
    + by econstructor.
  - intros [[-> ->]|[(s' & -> & ? & ?)|H]].
    + eapply hit_here. by left.
    + eapply hit_below; [by left|done|done].
    + inversion H; subst; [eapply hit_here|eapply hit_below]; try done; by right.
Qed.

Lemma suf_split ofs len s t : agree ofs len s (t_str t) ->
  suf ofs t = take len (drop ofs s) ++ suf (ofs + len) t.
Proof. intros (_ & _ & ->). unfold suf. by rewrite <- drop_drop, take_drop. Qed.

Lemma sorted_deeper ofs len s v : Forall (fun t => agree ofs len s (t_str t)) v ->
  StronglySorted (suf_lt ofs) v -> StronglySorted (suf_lt (ofs + len)) v.
Proof.
  intros Ha. induction 1 as [|t v Hs IH Ht]; [constructor|].
  apply Forall_cons in Ha as [Hta Hva]. constructor; [by apply IH|].
  rewrite Forall_forall in *. intros u Hu. specialize (Ht u Hu). unfold suf_lt in *.
  by rewrite (suf_split ofs len s t), (suf_split ofs len s u), lex_lt_app in Ht by auto.
Qed.

Lemma inner_incl g v0 ofs len : inner_of g v0 ofs len `sublist_of` g.
Proof. unfold inner_of. case_match; [|done]. destruct g; [done|]. cbn. by constructor. Qed.

Section group_facts.
Context {vs g rest : list trie_entry} {v0 : trie_entry} {ofs len : nat}.
Context (Hg : group vs g rest v0 ofs len).
Context (Hs : StronglySorted (suf_lt ofs) vs).
Context (Hne : Forall (fun t => ofs < length (t_str t)) vs).
Context (Hok : Forall uri_ok vs).

Lemma group_head : exists g', g = v0 :: g'.
Proof. pose proof (g_first _ _ _ _ _ _ Hg). destruct g; simplify_eq/=. eauto. Qed.

Lemma group_v0_in : v0 ∈ vs.
Proof. destruct group_head as [g' ->]. rewrite (g_split _ _ _ _ _ _ Hg). by left. Qed.

Lemma group_len : 0 < len <= RE_EDGE_MAX.
Proof.
  rewrite Forall_forall in Hne, Hok. specialize (Hne _ group_v0_in).
  destruct (Hok _ group_v0_in) as [_ ?].
  split; [by apply (g_pos _ _ _ _ _ _ Hg)|apply (g_short _ _ _ _ _ _ Hg); lia].
Qed.

Lemma group_sorted : StronglySorted (suf_lt ofs) g /\ StronglySorted (suf_lt ofs) rest /\
  Forall (fun t => Forall (suf_lt ofs t) rest) g.
Proof.
  rewrite (g_split _ _ _ _ _ _ Hg) in Hs. clear Hg Hne Hok. induction g as [|t g' IH]; [by repeat constructor|].
  cbn in Hs. inversion_clear Hs as [|? ? Hs' Ht]. destruct (IH Hs') as (? & ? & ?).
  apply Forall_app in Ht as [? ?]. split_and!; [by constructor|done|by constructor].
Qed.

Lemma inner_sorted : StronglySorted (suf_lt (ofs + len)) (inner_of g v0 ofs len).
Proof.
  destruct group_sorted as [H _].
  apply (sorted_deeper _ _ _ _ (g_agree _ _ _ _ _ _ Hg)) in H.
  unfold inner_of. case_match; [|done]. by destruct H; [constructor|].
Qed.

Lemma inner_nonempty : Forall (fun t => ofs + len < length (t_str t)) (inner_of g v0 ofs len).
Proof.
  destruct group_sorted as [H _].
  apply (sorted_deeper _ _ _ _ (g_agree _ _ _ _ _ _ Hg)) in H.
  destruct group_head as [g' E]. rewrite E in H. apply StronglySorted_inv in H as [_ H].
  assert (Forall (fun t => ofs + len < length (t_str t)) g') as Hg'.
  { eapply Forall_impl; [exact H|]. intros t Ht%lex_lt_nonempty.
    unfold suf in Ht. destruct (decide (ofs + len < length (t_str t))); [done|].
    by rewrite drop_ge in Ht by lia. }
  unfold inner_of. rewrite E. destruct (Nat.eqb_spec (ofs + len) (length (t_str v0))); [done|].
  constructor; [|done]. pose proof (g_agree _ _ _ _ _ _ Hg) as Ha. rewrite E in Ha.
  apply Forall_inv in Ha as (? & _). lia.
Qed.

(** Everything after the group starts with a larger byte. *)
Lemma rest_larger t : t ∈ rest -> (hd 0 (suf ofs v0) < hd 0 (suf ofs t))%Z.
Proof.
  intros Ht. destruct group_sorted as (_ & Hrs & Hgr). destruct group_len as [_ H8].
  destruct group_head as [g' E].
  rewrite E in Hgr. apply Forall_inv in Hgr.
  assert (forall u, u ∈ rest -> u ∈ vs) as Hin
    by (intros u ?; rewrite (g_split _ _ _ _ _ _ Hg); by apply elem_of_app; right).
  rewrite Forall_forall in Hne. pose proof group_v0_in as Hv0.
  assert (forall u, u ∈ vs -> suf ofs u <> []) as Hsne.
  { intros u Hu Eu. apply (f_equal length) in Eu. unfold suf in Eu. rewrite length_drop in Eu.
    specialize (Hne u Hu). cbn in Eu. lia. }
  destruct rest as [|r0 rest'] eqn:Er; [set_solver|].
  assert (hd 0 (suf ofs v0) < hd 0 (suf ofs r0))%Z as H0.
  { apply Forall_inv in Hgr. apply lex_lt_head in Hgr as [?|Hle]; [by destruct (Hsne v0)|].
    pose proof (g_next _ _ _ _ _ _ Hg r0) as Hn. specialize (Hn eq_refl H8).
    destruct (common_prefix_spec (t_str v0) (t_str r0) ofs) as (_ & _ & Hd).
    specialize (Hd Hn (Hne _ Hv0) (Hne r0 (Hin r0 ltac:(by left)))).
    fold (suf ofs v0) (suf ofs r0) in Hd.
    pose proof (Hsne v0 Hv0). pose proof (Hsne r0 (Hin r0 ltac:(by left))).
    destruct (suf ofs v0), (suf ofs r0); try done. cbn in *. assert (z <> z0) by congruence. lia. }
  apply elem_of_cons in Ht as [->|Ht]; [done|].
  apply StronglySorted_inv in Hrs as [_ Hrs]. rewrite Forall_forall in Hrs.
  apply Hrs, lex_lt_head in Ht as [?|?]; [|lia]. destruct (Hsne r0); [|done]. apply Hin. by left.
Qed.

Lemma cmp_facts : let c := take len (drop ofs (t_str v0)) in
  length c = len /\ Forall (fun b => 0 < b < 256)%Z c /\ hd 0%Z c = hd 0%Z (suf ofs v0).
Proof.
  cbn zeta. destruct group_head as [g' E]. pose proof (g_agree _ _ _ _ _ _ Hg) as Ha.
  rewrite E in Ha. apply Forall_inv in Ha as (Hl & _). pose proof group_len.
  rewrite Forall_forall in Hok. destruct (Hok _ group_v0_in) as [Hb _]. split_and!.
  - rewrite length_take, length_drop. lia.
  - by apply Forall_take, Forall_drop.
  - unfold suf. destruct len as [|n]; [lia|]. by destruct (drop ofs (t_str v0)).
Qed.

(** The edge made for the group spells out the group. *)
Lemma group_hits sub a s e :
  (forall s e, hits sub s e <-> e ∈ inner_of g v0 ofs len /\ suf (ofs + len) e = s) ->
  hits [Edge a (take len (drop ofs (t_str v0)))
          (if ofs + len =? length (t_str v0) then Some v0 else None) sub] s e <->
  e ∈ g /\ suf ofs e = s.
Proof.
  intros Hsub. rewrite hits_cons, hits_nil. destruct group_head as [g' E].
  assert (forall t, t ∈ g -> suf ofs t = take len (drop ofs (t_str v0)) ++ suf (ofs + len) t) as Hsp.
  { intros t Ht. apply suf_split. pose proof (g_agree _ _ _ _ _ _ Hg) as Ha.
    rewrite Forall_forall in Ha. by apply Ha. }
  pose proof inner_nonempty as Hin. rewrite Forall_forall in Hin.
  assert (forall t, t ∈ inner_of g v0 ofs len -> suf (ofs + len) t <> []) as Hne'.
  { intros t Ht Et. apply (f_equal length) in Et. specialize (Hin t Ht). unfold suf in Et.
    rewrite length_drop in Et. cbn in Et. lia. }
  assert (forall t, t ∈ g <-> (ofs + len = length (t_str v0) /\ t = v0) \/ t ∈ inner_of g v0 ofs len) as Hmem.
  { intros t. unfold inner_of. rewrite E. destruct (Nat.eqb_spec (ofs + len) (length (t_str v0)));
      cbn [tail]; rewrite !elem_of_cons; naive_solver. }
  split.
  - intros [[-> Ht]|[(s' & -> & Hs' & Hh)|[]]].
    + destruct (Nat.eqb_spec (ofs + len) (length (t_str v0))) as [El|]; [|done]. injection Ht as <-.
      split; [rewrite E; by left|]. rewrite Hsp by (rewrite E; by left).
      unfold suf at 1. rewrite (drop_ge _ (ofs + len)) by lia. by rewrite app_nil_r.
    + apply Hsub in Hh as [Hi <-]. split; [apply Hmem; by right|]. apply Hsp, Hmem. by right.
  - intros [He <-]. pose proof He as [[El ->]|Hi]%Hmem.
    + left. rewrite Hsp by done. unfold suf at 1. rewrite (drop_ge _ (ofs + len)) by lia.
      rewrite app_nil_r. by rewrite (proj2 (Nat.eqb_eq _ _) El).
    + right. left. exists (suf (ofs + len) e). split_and!; [by apply Hsp|by apply Hne'|].
      by apply Hsub.
Qed.
End group_facts.

(** The builder's result on sorted entries, when no allocation fails. *)
Record built (v : list trie_entry) (ofs : nat) (new : list edge) : Prop := {
  b_wf : Forall wf_edge new;
  b_sorted : StronglySorted first_lt new;
  b_first : Forall (fun k => exists t, t ∈ v /\ first_byte k = hd 0%Z (suf ofs t)) new;
  b_hits : forall s e, hits new s e <-> e ∈ v /\ suf ofs e = s;
}.

Definition radix_input (v : list trie_entry) (ofs : nat) : Prop :=
  StronglySorted (suf_lt ofs) v /\ Forall (fun t => ofs < length (t_str t)) v /\ Forall uri_ok v.

Lemma built_nil ofs : built [] ofs [].
Proof.
  split; [constructor..|]. intros s e. rewrite hits_nil. split; [done|]. intros [H _]. inversion H.
Qed.

Lemma radix_input_inner vs g rest v0 ofs len : group vs g rest v0 ofs len -> radix_input vs ofs ->
  radix_input (inner_of g v0 ofs len) (ofs + len).
Proof.
  intros Hg (Hs & Hne & Hok). split_and!; [by eapply inner_sorted|by eapply inner_nonempty|].
  rewrite (g_split _ _ _ _ _ _ Hg) in Hok. apply Forall_app in Hok as [Hok _].
  unfold inner_of. case_match; [|done]. by destruct Hok; [constructor|].
Qed.

Lemma radix_input_rest vs g rest v0 ofs len : group vs g rest v0 ofs len -> radix_input vs ofs ->
  radix_input rest ofs.
Proof.
  intros Hg (Hs & Hne & Hok). destruct (group_sorted Hg Hs) as (_ & Hr & _).
  rewrite (g_split _ _ _ _ _ _ Hg) in Hne, Hok.
  apply Forall_app in Hne as [_ ?]. by apply Forall_app in Hok as [_ ?].
Qed.

Lemma built_cons vs g rest v0 ofs len a sub new : group vs g rest v0 ofs len ->
  radix_input vs ofs -> built (inner_of g v0 ofs len) (ofs + len) sub -> built rest ofs new ->
  built vs ofs
    (Edge a (take len (drop ofs (t_str v0)))
       (if ofs + len =? length (t_str v0) then Some v0 else None) sub :: new).
Proof.
  intros Hg (Hs & Hne & Hok) [Wi Si Fi Hi] [Wr Sr Fr Hr].
  destruct (cmp_facts Hg Hne Hok) as (Hl & Hb & Hh). pose proof (group_len Hg Hne Hok).
  split.
  - constructor; [|done]. constructor; rewrite ?Hl; done.
  - constructor; [done|]. rewrite Forall_forall in *. intros k Hk.
    destruct (Fr k Hk) as (t & Ht & Ek). unfold first_lt. rewrite Ek. unfold first_byte.
    cbn [e_cmp]. rewrite Hh. by apply (rest_larger Hg Hs).
  - constructor; [exists v0; split; [by eapply group_v0_in|done]|].
    eapply Forall_impl; [exact Fr|]. intros k (t & Ht & ?). exists t. split; [|done].
    rewrite (g_split _ _ _ _ _ _ Hg). apply elem_of_app. by right.
  - intros s e. change (Edge _ _ _ _ :: new) with ([Edge a (take len (drop ofs (t_str v0)))
      (if ofs + len =? length (t_str v0) then Some v0 else None) sub] ++ new).
    cbn [app]. rewrite hits_cons. pose proof (group_hits Hg Hs sub a s e Hi) as Hgr.
    rewrite hits_cons, hits_nil in Hgr. rewrite Hr, (g_split _ _ _ _ _ _ Hg), elem_of_app.
    naive_solver.
Qed.

Lemma radix_correct alloc : (forall i, alloc i = true) ->
  forall fuel r kids v ofs depth, radix_input v ofs -> radix_fuel v ofs <= fuel ->
  exists r' new, radix_loop alloc fuel r kids (nn v) ofs depth = Ret (r', kids ++ new, true) /\
    built v ofs new.
Proof.
  intros Halloc. induction fuel as [|fuel IH]; intros r kids v ofs depth Hin Hf;
    (destruct v as [|v0 vs]; [exists r, []; rewrite app_nil_r; cbn; auto using built_nil|]).
  { cbn in Hf. lia. }
  cbn [nn]. assert (ofs <= length (t_str v0)) as Hv0
    by (destruct Hin as (_ & Hne & _); apply Forall_inv in Hne; lia).
  destruct (radix_step alloc fuel r kids v0 vs ofs depth Hv0) as (g & rest & len & Hg & ->).
  unfold edge_new. rewrite Halloc.
  destruct (inner_fuel _ _ _ _ _ _ _ Hg Hf) as [Hfi Hfr]. fold (inner_of g v0 ofs len).
  match goal with |- context [descend _ _ ?r1 _ _ _] =>
    assert (exists r2 sub, descend alloc fuel r1 (nn (inner_of g v0 ofs len))
      (ofs + len) depth = Ret (r2, sub, true) /\ built (inner_of g v0 ofs len) (ofs + len) sub)
      as (r2 & sub & -> & Hsub) end.
  { pose proof (radix_input_inner _ _ _ _ _ _ Hg Hin) as Hin'. unfold descend.
    destruct (inner_of g v0 ofs len) as [|i0 il] eqn:Ei; cbn [nn].
    - do 2 eexists. split; [done|]. apply built_nil.
    - by apply (IH _ [] (i0 :: il) (ofs + len) (S depth)). }
  run.
  destruct (IH r2 (kids ++ [Edge (r_calls r) (take len (drop ofs (t_str v0)))
    (if ofs + len =? length (t_str v0) then Some v0 else None) sub]) rest ofs depth)
    as (r3 & new & -> & Hnew); [by eapply radix_input_rest|done|].
  eexists r3, (Edge _ _ _ _ :: new). split; [by rewrite <- app_assoc|].
  by eapply built_cons.
Qed.

(** The root edge [construct_radix] makes. *)
Lemma construct_ok alloc r v : v <> [] ->
  exists r' root b, construct_radix alloc r (Some v) = Ret (r', root, b) /\
    (alloc (r_calls r) = false -> b = false) /\
    forall e, root = Some e -> e_cmp e = [] /\ e_terminal e = None /\ grown r r' [e] /\
      ((forall i, alloc i = true) -> radix_input v 0 -> b = true /\ built v 0 (e_edges e)).
Proof.
  intros Hv. unfold construct_radix. destruct (edge_new alloc r None) as [r1 [a|]] eqn:E.
  - destruct (radix_total alloc (radix_fuel v 0) (enter r1 1) [] v 0 1) as (r2 & new & b & Hr & Hgr);
      [eapply Forall_true; intros; lia|done|].
    unfold do_radix. destruct v as [|v0 vs]; [done|]. cbn [nn app] in Hr. rewrite Hr.
    run. eexists r2, _, b. split; [done|]. split.
    { unfold edge_new in E. intros Ha. by rewrite Ha in E. }
    intros e [= <-]. cbn [e_cmp e_terminal e_edges]. split_and!; [done|done| |].
    + apply (grown_node alloc r None r1 a [] None new r2 r2 [] 0); [done| |apply grown_refl].
      destruct Hgr as (H1 & H2 & H3). unfold grown. cbn in *. done.
    + intros Ha Hin. destruct (radix_correct alloc Ha _ (enter r1 1) [] (v0 :: vs) 0 1 Hin (le_n _))
        as (r3 & new' & Hr' & Hb). cbn [nn app] in Hr'. rewrite Hr in Hr'. by simplify_eq.
  - do 3 eexists. split; [done|]. split; [done|]. intros e [=].
Qed.

(** ** Breadth-first order *)

(** The list is the roots followed by the children of its own elements, in
    order. *)
Lemma bfs_unfold fuel : forall cur, length (flat cur) <= fuel -> cur <> [] ->
  bfs fuel cur = cur ++ concat (e_edges <$> bfs fuel cur).
Proof.
  induction fuel as [|fuel IH]; intros cur Hf Hne.
  { destruct cur as [|[a c t ks] cur]; [done|]. rewrite flat_cons in Hf. cbn in Hf. lia. }
  cbn [bfs]. destruct (concat (e_edges <$> cur)) as [|k ks] eqn:E.
  - by rewrite E, app_nil_r.
  - rewrite fmap_app, concat_app, E. f_equal. apply IH; [|done].
    rewrite <- E. clear E k ks IH. revert Hf.
    assert (length (flat cur) = length cur + length (flat (concat (e_edges <$> cur)))) as ->.
    { clear. induction cur as [|[a c t ks] cur IH]; [done|]. rewrite flat_cons.
      cbn [fmap list_fmap e_edges concat]. rewrite flat_app. cbn [length].
      rewrite !length_app. lia. }
    destruct cur; [done|cbn]. lia.
Qed.

Lemma flat_levels cur : flat cur ≡ₚ cur ++ flat (concat (e_edges <$> cur)).
Proof.
  induction cur as [|[a c t ks] cur IH]; [done|]. rewrite flat_cons.
  cbn [fmap list_fmap e_edges concat app]. rewrite flat_app, IH. constructor.
  rewrite !app_assoc. f_equiv. apply Permutation_app_comm.
Qed.

Lemma bfs_flat fuel : forall cur, length (flat cur) <= fuel -> bfs fuel cur ≡ₚ flat cur.
Proof.
  induction fuel as [|fuel IH]; intros cur Hf.
  { cbn. destruct (flat cur) eqn:E; [done|cbn in Hf; lia]. }
  cbn [bfs]. rewrite flat_levels. destruct (concat (e_edges <$> cur)) as [|k ks] eqn:E.
  - by rewrite app_nil_r.
  - f_equiv. apply IH. rewrite (Permutation_length (flat_levels cur)), length_app, E in Hf.
    destruct cur; [done|cbn in *; lia].
Qed.

Lemma bfs_idx_lookup order a i : bfs_idx order a = Some i -> exists e, order !! i = Some e /\ e_addr e = a.
Proof.
  revert i. induction order as [|e order IH]; intros i; cbn; [done|].
  destruct (Nat.eqb_spec (e_addr e) a); [intros [= <-]; by exists e|].
  destruct (bfs_idx order a) as [j|] eqn:E; [|done]. cbn. intros [= <-]. by apply IH.
Qed.

Lemma bfs_idx_unique order i e : NoDup (e_addr <$> order) -> order !! i = Some e ->
  bfs_idx order (e_addr e) = Some i.
Proof.
  revert i. induction order as [|f order IH]; intros i Hn Hi; [done|].
  cbn in Hn. apply NoDup_cons in Hn as [Hf Hn]. cbn [bfs_idx].
  destruct i as [|i]; cbn in Hi; [simplify_eq; by rewrite Nat.eqb_refl|].
  destruct (Nat.eqb_spec (e_addr f) (e_addr e)) as [Ea|].
  - destruct Hf. rewrite Ea. apply list_elem_of_fmap. exists e. split; [done|].
    by eapply list_elem_of_lookup_2.
  - by rewrite (IH i).
Qed.

(** Where the children of the [i]-th edge of the list lie: contiguous, from
    the index that is written to the file. *)
Definition child_base (order : list edge) (i : nat) : nat :=
  S (length (concat (e_edges <$> take i order))).

Lemma children_at order root i e j k : order = root :: concat (e_edges <$> order) ->
  order !! i = Some e -> e_edges e !! j = Some k -> order !! (child_base order i + j) = Some k.
Proof.
  intros Ho Hi Hj.
  transitivity ((root :: concat (e_edges <$> order)) !! (child_base order i + j));
    [by rewrite <- Ho|].
  assert (concat (e_edges <$> order) = concat (e_edges <$> take i order) ++ e_edges e ++
    concat (e_edges <$> drop (S i) order)) as ->.
  { rewrite <- (take_drop_middle order i e Hi) at 1. by rewrite fmap_app, concat_app. }
  change (?x :: ?l) with ([x] ++ l). rewrite lookup_app_r by (unfold child_base; cbn; lia).
  unfold child_base. rewrite lookup_app_r by (cbn; lia).
  rewrite lookup_app_l_Some with (x := k); [done|]. rewrite <- Hj. f_equal. cbn. lia.
Qed.

Lemma first_child_base order root i e : order = root :: concat (e_edges <$> order) ->
  NoDup (e_addr <$> order) -> order !! i = Some e -> e_edges e <> [] ->
  first_child_idx order e = Z.of_nat (child_base order i).
Proof.
  intros Ho Hn Hi Hne. unfold first_child_idx. destruct (e_edges e) as [|k ks] eqn:Ek; [done|].
  assert (order !! (child_base order i + 0) = Some k) as Hk
    by (eapply children_at; [done|done|by rewrite Ek]).
  rewrite Nat.add_0_r in Hk. by rewrite (bfs_idx_unique order (child_base order i) k).
Qed.

(** ** Writing the records *)

Lemma first_lt_bytes ks : StronglySorted first_lt ks -> Forall wf_edge ks ->
  forall lo, (0 <= lo)%Z -> Forall (fun k => lo <= first_byte k)%Z ks ->
  (Z.of_nat (length ks) + lo <= 256)%Z \/ ks = [].
Proof.
  induction 1 as [|k ks Hs IH Hk]; intros Hw lo Hlo Hb; [by right|left].
  apply Forall_cons in Hw as [Hwk Hw]. apply Forall_cons in Hb as [Hbk _].
  assert (0 < first_byte k < 256)%Z as Hk'.
  { inversion Hwk as [a c t sub [Hl _] Hc]; subst. unfold first_byte; cbn.
    destruct Hc; cbn in *; lia. }
  destruct (IH Hw (first_byte k + 1)%Z) as [H| ->]; [lia| | |].
  - eapply Forall_impl; [exact Hk|]. unfold first_lt. intros; lia.
  - cbn [length]. lia.
  - cbn. lia.
Qed.

Lemma wf_fanout a c t ks : wf_edge (Edge a c t ks) -> length ks < 0x100.
Proof.
  inversion 1 as [? ? ? ? _ _ Hs Hw]; subst.
  destruct (first_lt_bytes ks Hs Hw 1) as [H'| ->]; [lia| |lia|cbn; lia].
  rewrite Forall_forall in *. intros k Hk. specialize (Hw k Hk).
  inversion Hw as [a' c' t' sub [Hl _] Hc]; subst. unfold first_byte; cbn.
  destruct Hc; cbn in *; lia.
Qed.

Definition record_of (order : list edge) (e : edge) (d : trie_dedge) : Prop :=
  dedge_of e (first_child_idx order e) = Ret d.

(** Edges the records can express. *)
Definition fits (e : edge) : Prop := length (e_edges e) < 0x100 /\ length (e_cmp e) <= RE_EDGE_MAX.

Lemma dedge_of_fits e idx : fits e -> exists d, dedge_of e idx = Ret d.
Proof.
  intros [H1 H2]. unfold dedge_of. rewrite (proj2 (Nat.ltb_lt _ _) H1), (proj2 (Nat.leb_le _ _) H2).
  cbn. eauto.
Qed.

Lemma length_encode e idx d : dedge_of e idx = Ret d -> length (encode_dedge d) = dedge_sz.
Proof.
  unfold dedge_of. intros H. apply outcome_bind_ret in H as ([] & _ & H).
  apply outcome_bind_ret in H as ([] & Hc%c_assert_ret & H). apply Nat.leb_le in Hc.
  injection H as <-. unfold encode_dedge. cbn [re_oid re_edges_idx re_num_edges re_strlen re_str].
  autorewrite with lengths. unfold RE_EDGE_MAX, dedge_sz in *. lia.
Qed.

Lemma write_edges_ok {W} `{Sink W} order es : forall w w', sink_ok w ->
  write_edges order w es = Ret (true, w') ->
  exists ds, Forall2 (record_of order) es ds /\
    accepted w' = accepted w ++ concat (encode_dedge <$> ds) /\ sink_ok w'.
Proof.
  induction es as [|e es IH]; intros w w' Hw Hr; cbn in Hr.
  { simplify_eq. exists []. cbn. rewrite app_nil_r. by split_and!. }
  apply outcome_bind_ret in Hr as ([ok w1] & Hn & Hr).
  unfold node_to_disk in Hn. apply outcome_bind_ret in Hn as (d & Hd & Hn).
  destruct (sink_write_ok _ _ _ _ Hw Hn) as [Hw1 Ha]. destruct ok; [|done].
  destruct (IH _ _ Hw1 Hr) as (ds & Hds & Hacc & Hok).
  exists (d :: ds). split_and!; [by constructor| |done].
  rewrite Hacc, Ha by done. cbn. by rewrite <- app_assoc.
Qed.

(** For edges that fit, writing only ever fails as the sink does. *)
Lemma write_edges_fault {W} `{Sink W} order es : forall w f, sink_ok w -> Forall fits es ->
  write_edges order w es = Fault f -> f = Blocked.
Proof.
  induction es as [|e es IH]; intros w f Hw Hf Hr; cbn in Hr; [done|].
  apply Forall_cons in Hf as [He Hes]. unfold node_to_disk in Hr.
  destruct (dedge_of_fits e (first_child_idx order e) He) as [d Hd]. rewrite Hd in Hr.
  run_in Hr.
  destruct (sink_write w (encode_dedge d)) as [[[] w1]|f'] eqn:E; cbn in Hr.
  - destruct (sink_write_ok _ _ _ _ Hw E) as [Hw1 _]. by eapply IH.
  - done.
  - simplify_eq. by eapply sink_write_fault.
Qed.

(** Reading field [i] of the records' concatenation. *)
Lemma records_slice (ds : list trie_dedge) i d post :
  Forall (fun d => length (encode_dedge d) = dedge_sz) ds -> ds !! i = Some d ->
  exists post', drop (dedge_sz * i) (concat (encode_dedge <$> ds) ++ post) = encode_dedge d ++ post'.
Proof.
  intros Hl. revert i. induction Hl as [|d0 ds Hd0 Hl IH]; intros i Hi; [done|].
  destruct i as [|i]; cbn [lookup list_lookup] in Hi.
  - simplify_eq. rewrite Nat.mul_0_r, drop_0. cbn. eexists. by rewrite <- app_assoc.
  - destruct (IH i Hi) as [post' Hp]. exists post'. rewrite <- Hp.
    cbn [fmap list_fmap concat]. rewrite <- app_assoc, Nat.mul_succ_r, Nat.add_comm, <- drop_drop.
    by rewrite drop_app_length' by done.
Qed.

(** ** Properties *)

Lemma trie_new_ok alloc v : v <> [] ->
  exists res, trie_new alloc true true (Some v) = Ret res /\
  forall r root order, res = Some (r, root, order) ->
    exists e, root = Some e /\ order = bfs (r_num_edges r) [e] /\ grown trie0 r [e] /\
      e_cmp e = [] /\ e_terminal e = None /\
      ((forall i, alloc i = true) -> radix_input v 0 -> built v 0 (e_edges e)).
Proof.
  intros Hv. unfold trie_new. cbn [negb andb].
  destruct (construct_ok alloc trie0 v Hv) as (r & root & b & Hc & Hfail & Hroot). rewrite Hc.
  run. destruct b; [|by eexists]. destruct root as [e|].
  - eexists. split; [done|]. intros ? ? ? [= <- <- <-].
    destruct (Hroot e eq_refl) as (? & ? & ? & Hb). exists e. split_and!; try done.
    intros Ha Hin. by apply Hb.
  - exfalso. unfold construct_radix, edge_new in Hc. destruct (alloc (r_calls trie0)) eqn:E.
    + apply outcome_bind_ret in Hc as ([[? ?] ?] & _ & ?). congruence.
    + congruence.
Qed.

Lemma grown_order r e : grown trie0 r [e] -> let order := bfs (r_num_edges r) [e] in
  order = e :: concat (e_edges <$> order) /\ NoDup (e_addr <$> order) /\
  length order = r_num_edges r /\ order ≡ₚ flat [e].
Proof.
  intros (Hn & _ & Hnd & _). cbn [trie0 r_num_edges Nat.add] in Hn. cbn zeta.
  assert (length (flat [e]) <= r_num_edges r) as Hf by lia.
  pose proof (bfs_flat _ _ Hf) as Hp. split_and!; [|by rewrite Hp|rewrite Hp; lia|done].
  by rewrite (bfs_unfold _ [e] Hf) at 1.
Qed.

Lemma wf_fits e : wf_edge e -> Forall fits (flat [e]).
Proof.
  induction e as [a c t ks IH] using edge_ind'. intros Hw. rewrite flat_cons. cbn. rewrite app_nil_r.
  constructor.
  - split; [by eapply wf_fanout|]. inversion Hw; subst; cbn; lia.
  - inversion Hw as [? ? ? ? _ _ _ Hks]; subst. clear Hw. induction Hks as [|k ks Hk Hks IHks]; [constructor|].
    apply Forall_cons in IH as [IHk IH]. change (k :: ks) with ([k] ++ ks). rewrite flat_app.
    apply Forall_app. split; [by apply IHk|by apply IHks].
Qed.

Lemma built_fits v e : e_cmp e = [] -> built v 0 (e_edges e) -> Forall fits (flat [e]).
Proof.
  destruct e as [a c t ks]. cbn [e_cmp e_edges]. intros -> [Hw Hs _ _]. rewrite flat_cons, app_nil_r.
  constructor.
  - split; cbn; [|unfold RE_EDGE_MAX; lia]. destruct (first_lt_bytes ks Hs Hw 1) as [?| ->]; [lia| |lia|cbn; lia].
    rewrite Forall_forall in *. intros k Hk. specialize (Hw k Hk).
    inversion Hw as [a' c' t' sub [Hl _] Hc]; subst. unfold first_byte; cbn.
    destruct Hc; cbn in *; lia.
  - clear Hs. induction Hw as [|k ks Hk Hw IH]; [constructor|].
    change (k :: ks) with ([k] ++ ks). rewrite flat_app. apply Forall_app.
    split; [by apply wf_fits|done].
Qed.

(** C7: given at least one entry, whatever its strings and their order, and
    whichever allocations fail, [trie_new] returns: no assertion trips, no
    string is read out of bounds, and the recursion ends.  When it returns a
    trie, the breadth-first list holds each allocated edge exactly once, starts
    with the root and has [r_num_edges] elements. *)
Theorem trie_new_total alloc v : v <> [] ->
  exists res, trie_new alloc true true (Some v) = Ret res /\
  forall r root order, res = Some (r, root, order) ->
    NoDup (e_addr <$> order) /\ length order = r_num_edges r /\
    exists e, root = Some e /\ head order = Some e /\ order ≡ₚ flatten e.
Proof.
  intros Hv. destruct (trie_new_ok alloc v Hv) as (res & -> & Hres). exists res. split; [done|].
  intros r root order Er. destruct (Hres _ _ _ Er) as (e & -> & -> & Hg & _).
  destruct (grown_order r e Hg) as (Hh & Hn & Hl & Hp). split_and!; [done|done|].
  exists e. split_and!; [done|by rewrite Hh|]. rewrite Hp. unfold flat. cbn. by rewrite app_nil_r.
Qed.

Definition sample_entries : list trie_entry :=
  [TrieEntry (lit "/a") 3; TrieEntry (lit "/abcdefghij") 1; TrieEntry (lit "/b") 2].

Example trie_new_total_witness : exists r,
  trie_new (fun i => i <? 5) true true (Some sample_entries) = Ret r.
Proof.
  destruct (trie_new_total (fun i => i <? 5) sample_entries) as (r & H & _); [done|eauto].
Defined.

(** C4: given entries in strict [memcmp] order of their strings, which are
    non-empty C strings shorter than 256 bytes, and with no allocation failing,
    [trie_new] builds a tree that spells out exactly the entries: an entry is
    reached by following its own string, and nothing else is reached. Every
    edge carries 1 to 8 bytes and has at most 255 children with strictly
    increasing first bytes. *)
Theorem trie_new_spells_entries alloc v : v <> [] -> (forall i, alloc i = true) ->
  radix_input v 0 ->
  exists r e order, trie_new alloc true true (Some v) = Ret (Some (r, Some e, order)) /\
    (forall s t, hits (e_edges e) s t <-> t ∈ v /\ t_str t = s) /\
    Forall wf_edge (e_edges e) /\ StronglySorted first_lt (e_edges e).
Proof.
  intros Hv Ha Hin. destruct (trie_new_ok alloc v Hv) as (res & Hn & Hres).
  destruct res as [[[r root] order]|].
  - destruct (Hres _ _ _ eq_refl) as (e & -> & -> & _ & _ & _ & Hb).
    destruct (Hb Ha Hin) as [Hw Hs _ Hh]. do 3 eexists. split; [exact Hn|]. by split_and!.
  - exfalso. unfold trie_new in Hn. cbn [negb andb] in Hn.
    destruct (construct_ok alloc trie0 v Hv) as (r & root & b & Hc & _ & Hroot).
    rewrite Hc in Hn. run_in Hn. unfold construct_radix, edge_new in Hc.
    rewrite Ha in Hc. apply outcome_bind_ret in Hc as ([[? ?] ?] & _ & Hc). injection Hc as -> <- ->.
    destruct (Hroot _ eq_refl) as (_ & _ & _ & Hb). destruct (Hb Ha Hin) as [-> _]. done.
Qed.

Lemma sample_input : radix_input sample_entries 0.
Proof.
  split_and!.
  - repeat constructor; unfold suf_lt; by_decide.
  - by_decide.
  - repeat (constructor; [split; by_decide|]). constructor.
Qed.

Example trie_new_spells_entries_witness :
  exists r e order, trie_new (fun _ => true) true true (Some sample_entries) =
      Ret (Some (r, Some e, order)) /\
    hits (e_edges e) (lit "/abcdefghij") (TrieEntry (lit "/abcdefghij") 1).
Proof.
  destruct (trie_new_spells_entries (fun _ => true) sample_entries) as (r & e & o & H & Hh & _);
    [done|done|apply sample_input|].
  exists r, e, o. split; [exact H|]. apply Hh. split; [|reflexivity]. right; left.
Defined.

(** C10: for entries in strict [memcmp] order of their strings, which are
    non-empty C strings shorter than 256 bytes, built into a trie without an
    allocation failing, [trie_write_trie] trips no assertion and faults only by
    blocking in the output; when it succeeds it has written exactly
    [trie_trie_size] bytes. Longer strings do trip one: see
    [long_uri_asserts]. *)
Theorem trie_write_exact {W} `{Sink W} alloc v r e order w :
  v <> [] -> (forall i, alloc i = true) -> radix_input v 0 -> sink_ok w ->
  trie_new alloc true true (Some v) = Ret (Some (r, Some e, order)) ->
  match trie_write_trie order w with
  | Ret (true, w') => exists bytes, accepted w' = accepted w ++ bytes /\
      Z.of_nat (length bytes) = trie_trie_size r
  | Ret (false, _) => True
  | Fault f => f = Blocked
  end.
Proof.
  intros Hv Ha Hin Hw Hn. destruct (trie_new_ok alloc v Hv) as (res & Hn' & Hres).
  rewrite Hn in Hn'. injection Hn' as <-.
  destruct (Hres _ _ _ eq_refl) as (e' & [= <-] & -> & Hg & Hc & _ & Hb).
  destruct (grown_order r e Hg) as (_ & _ & Hl & Hp).
  pose proof (built_fits v e Hc (Hb Ha Hin)) as Hf. rewrite <- Hp in Hf.
  unfold trie_write_trie. destruct (write_edges _ w _) as [[[] w']|f] eqn:E; [|done|].
  - destruct (write_edges_ok _ _ _ _ Hw E) as (ds & Hds & Hacc & _).
    eexists. split; [exact Hacc|]. unfold trie_trie_size.
    rewrite <- Hl. clear -Hds. rewrite (Forall2_length _ _ _ Hds).
    assert (Forall (fun d => length (encode_dedge d) = dedge_sz) ds) as Hsz.
    { induction Hds as [|e0 d es ds Hd Hds IH]; [done|]. constructor; [by eapply length_encode|done]. }
    clear Hds. induction Hsz as [|d ds Hd Hsz IH]; [done|]. cbn [fmap list_fmap concat length].
    rewrite length_app, Hd. unfold dedge_sz in *. lia.
  - by eapply write_edges_fault.
Qed.

Definition sample_sink : fobuf * kernel :=
  (Fobuf 3 (replicate 64 0%Z) 0 64 64, Kernel (replicate 9 (SysOk 64)) [] []).

Lemma sample_sink_ok : sink_ok sample_sink.
Proof.
  change (fobuf_ok (Fobuf 3 (replicate 64 0%Z) 0 64 64)). unfold fobuf_ok; cbn. split_and!; lia.
Qed.

Example trie_write_exact_witness :
  exists r e order, trie_new (fun _ => true) true true (Some sample_entries) =
      Ret (Some (r, Some e, order)) /\
    match trie_write_trie order sample_sink with
    | Ret (true, w') => exists bytes, accepted w' = accepted sample_sink ++ bytes /\
        Z.of_nat (length bytes) = trie_trie_size r
    | Ret (false, _) => True
    | Fault f => f = Blocked
    end.
Proof.
  destruct (trie_new (fun _ => true) true true (Some sample_entries)) as [[[[r [e|]] order]|]|] eqn:E;
    [|vm_compute in E; discriminate E..].
  exists r, e, order. split; [reflexivity|].
  apply (trie_write_exact (fun _ => true) sample_entries r e order sample_sink);
    [discriminate|reflexivity|apply sample_input|apply sample_sink_ok|exact E].
Defined.

Lemma scan_long s ofs len tmp : 0x100 <= len -> radix_scan s ofs len 0 0 tmp = (len, 0).
Proof. intros Hl. destruct tmp; [done|]. cbn [radix_scan]. by rewrite (proj2 (Nat.ltb_ge _ _)). Qed.

Lemma long_uri_tree t : 0x100 <= length (t_str t) ->
  exists r, trie_new (fun _ => true) true true (Some [t]) =
    Ret (Some (r, Some (Edge 0 [] None [Edge 1 (t_str t) (Some t) []]),
               [Edge 0 [] None [Edge 1 (t_str t) (Some t) []]; Edge 1 (t_str t) (Some t) []])).
Proof.
  intros Hl. unfold trie_new, construct_radix, do_radix, edge_new. cbn [negb andb].
  assert (radix_fuel [t] 0 = S (length (t_str t))) as -> by (unfold radix_fuel; cbn [sum_list_with]; lia).
  cbn [radix_loop]. cbv zeta. rewrite scan_long by lia.
  rewrite (proj2 (Nat.ltb_ge _ _)) by lia. unfold edge_new.
  rewrite Nat.sub_0_r, Nat.add_0_l, Nat.leb_refl, Nat.eqb_refl, drop_0, take_ge by lia.
  cbn [c_assert mbind outcome_bind Nat.eqb next_string drop app].
  destruct (length (t_str t)); cbn; eauto.
Qed.

(** a URI of 256 bytes or more makes an edge that no record can hold: the trie
    of such a URI alone is built, and writing it stops at the assertion of
    [node_to_disk] unless the output fails first. *)
Theorem long_uri_asserts {W} `{Sink W} t (w : W) : 0x100 <= length (t_str t) -> sink_ok w ->
  exists r e order, trie_new (fun _ => true) true true (Some [t]) = Ret (Some (r, Some e, order)) /\
    match trie_write_trie order w with
    | Ret (ok, _) => ok = false
    | Fault f => f = AssertFailed \/ f = Blocked
    end.
Proof.
  intros Hl Hw. destruct (long_uri_tree t Hl) as [r Hr]. do 3 eexists. split; [exact Hr|].
  set (leaf := Edge 1 (t_str t) (Some t) []). set (root := Edge 0 [] None [leaf]).
  unfold trie_write_trie. set (order := [root; leaf]).
  change (write_edges order w order) with (write_edges order w [root; leaf]).
  cbn [write_edges]. unfold node_to_disk.
  destruct (dedge_of_fits root (first_child_idx order root)) as [d ->];
    [split; cbn; unfold RE_EDGE_MAX; lia|].
  run. destruct (sink_write w _) as [[[] w1]|f] eqn:Ew; run;
    [|done|right; by eapply sink_write_fault].
  unfold dedge_of, leaf. cbn [e_edges e_cmp length Nat.ltb Nat.leb c_assert mbind outcome_bind].
  rewrite (proj2 (Nat.leb_gt _ _)) by (unfold RE_EDGE_MAX; lia). cbn. by left.
Qed.

Example long_uri_asserts_witness :
  exists r e order, trie_new (fun _ => true) true true
      (Some [TrieEntry (replicate 256 97%Z) 0]) = Ret (Some (r, Some e, order)) /\
    match trie_write_trie order sample_sink with
    | Ret (ok, _) => ok = false
    | Fault f => f = AssertFailed \/ f = Blocked
    end.
Proof.
  apply (long_uri_asserts (TrieEntry (replicate 256 97%Z) 0) sample_sink);
    [by_decide|apply sample_sink_ok].
Defined.

(** a failed allocation below the first level is not reported: there are
    entries and an allocation failure for which [trie_new] returns a trie that
    spells out none of the entries. *)
Theorem trie_new_loses_entries :
  let v := [TrieEntry (lit "/ab") 1; TrieEntry (lit "/ac") 2] in
  exists r e order, trie_new (fun i => negb (i =? 2)) true true (Some v) = Ret (Some (r, Some e, order)) /\
    forall s t, ~ hits (e_edges e) s t.
Proof.
  cbn zeta. eexists _, (Edge 0 [] None [Edge 1 (lit "/a") None []]), _.
  split; [vm_compute; reflexivity|]. intros s t. cbn [e_edges].
  rewrite hits_cons, hits_nil. setoid_rewrite hits_nil. naive_solver.
Qed.
