(* ===== verification/Webroot.v ===== *)
(** * webroot.c: looking URIs up in a mapped webroot file

    [webroot_open] maps the index part of a file and checks its header;
    [webroot_find] walks the records of the trie with [trie_query] and reads the
    redirect or file object it finds. The map is a list of bytes and every read
    of it is checked against its end. *)

From Stdlib Require Import Sorted.
From S2P Require Import Prelude Vec Os Fobuf Trie.

(** ** Reading structures out of the map *)

Definition read_bytes (m : list Z) (off n : nat) : outcome (list Z) :=
  if off + n <=? length m then Ret (take n (drop off m)) else Fault OutOfBounds.

Definition read_int (m : list Z) (off n : nat) : outcome Z :=
  b ← read_bytes m off n; Ret (le_val b).

(** The fields of [struct trie_dedge]; [re_str] is compared in place. *)
Definition read_oid (m : list Z) (p : nat) : outcome Z := read_int m p 4.
Definition read_edges_idx (m : list Z) (p : nat) : outcome Z := read_int m (p + 4) 4.
Definition read_num_edges (m : list Z) (p : nat) : outcome Z := read_int m (p + 8) 1.
Definition read_strlen (m : list Z) (p : nat) : outcome Z := read_int m (p + 9) 1.

(** [memcmp(a, b, n)]: both objects must hold [n] bytes. *)
Definition memcmp (a b : list Z) (n : nat) : outcome Z :=
  if (n <=? length a) && (n <=? length b) then Ret (cmp_bytes id (take n a) (take n b))
  else Fault OutOfBounds.

Record webroot := Webroot {
  r_fd : Z;
  r_ref : Z;
  r_map : list Z;
  wr_num_edges : Z;
  r_num_redirect : Z;
  r_num_oid : Z;
  r_trie : nat;
  r_redir : nat;
  r_file : nat;
  r_strtab : nat;
}.

Section query.
Context (m : list Z) (trie_off : nat) (num_total : Z).

(** [&r->r_trie[i]]. *)
Definition edge_at (i : nat) : nat := trie_off + dedge_sz * i.

(** Comparing the string at [mem] with the edge's, as many bytes as the edge
    has. *)
Definition edge_cmp (mem : list Z) (i : nat) : outcome Z :=
  n ← read_strlen m (edge_at i);
  memcmp mem (drop (edge_at i + 10) m) (Z.to_nat n).

(** [trie_query(r, re, num_edges, str)]: [re] is an index into the trie, [mem] the
    memory from [str->v_ptr] on and [len] is [str->v_len]. The fuel bounds the
    depth of the recursion. *)
Fixpoint trie_query (fuel : nat) (re num_edges : nat) (mem : list Z) (len : Z) : outcome Z :=
  match fuel with
  | O => Fault OutOfFuel
  | S fuel =>
    r ← bsearch (edge_cmp mem) num_edges re num_edges;
    match r with
    | None => Ret GIDX_INVALID_OID
    | Some i =>
      n ← read_strlen m (edge_at i);
      let suff := drop (Z.to_nat n) mem in
      let slen := uint 64 (len - n) in
      if (slen =? 0)%Z then read_oid m (edge_at i)
      else
        idx ← read_edges_idx m (edge_at i);
        assert! (idx <? num_total)%Z ;;
        k ← read_num_edges m (edge_at i);
        trie_query fuel (Z.to_nat idx) (Z.to_nat k) suff slen
    end
  end.
End query.

(** ** webroot_find *)

Definition HTTP_FOUND : Z := 200.
Definition HTTP_MOVED_PERMANENTLY : Z := 301.
Definition HTTP_NOT_MODIFIED : Z := 304.
Definition HTTP_FORBIDDEN : Z := 403.
Definition WEBROOT_INVALID_REDIRECT : Z := 0xffffffff%Z.
Definition ETAG_SZ : nat := 20.

(** What [webroot_find] stores in a [struct webroot_name]: a bare status code (also
    stored as the length of the target), the target of a redirect, or a file.
    Pointers into the map are offsets. *)
Inductive webroot_name :=
| NameCode (code : Z)
| NameMoved (v_ptr v_len : Z)
| NameData (mime_ptr mime_len f_ofs f_len f_mtime : Z) (f_etag : list Z).

Definition redir_sz : nat := 8.
Definition file_sz : nat := 48.

Definition read_redirect (r : webroot) (idx : nat) : outcome webroot_name :=
  let p := r_redir r + redir_sz * idx in
  off ← read_int (r_map r) p 4;
  len ← read_int (r_map r) (p + 4) 4;
  Ret (if (off =? WEBROOT_INVALID_REDIRECT)%Z then NameCode len else NameMoved off len).

Definition read_file (r : webroot) (idx : nat) : outcome webroot_name :=
  let p := r_file r + file_sz * idx in
  off ← read_int (r_map r) p 8;
  len ← read_int (r_map r) (p + 8) 8;
  ty ← read_int (r_map r) (p + 16) 4;
  ty_len ← read_int (r_map r) (p + 20) 4;
  mtime ← read_int (r_map r) (p + 24) 4;
  digest ← read_bytes (r_map r) (p + 28) ETAG_SZ;
  Ret (NameData ty ty_len (sint 64 off) len mtime digest).

Definition webroot_find (fuel : nat) (r : webroot) (mem : list Z) (len : Z)
    : outcome (option webroot_name) :=
  idx ← trie_query (r_map r) (r_trie r) (wr_num_edges r) fuel 0 1 mem len;
  if (idx =? GIDX_INVALID_OID)%Z then Ret None
  else
    assert! (idx <? r_num_oid r)%Z ;;
    if (idx <? r_num_redirect r)%Z then
      n ← read_redirect r (Z.to_nat idx); Ret (Some n)
    else
      n ← read_file r (Z.to_nat (idx - r_num_redirect r)); Ret (Some n).

(** ** Opening and reference counts *)

Definition WEBROOT_MAGIC : Z :=
  (Z.lor (Z.lor (Z.lor (Z.shiftl 0x37 24) (Z.shiftl 0x13 16)) (Z.shiftl 87 8)) 119)%Z.
Definition WEBROOT_CURRENT_VER : Z := 3.
Definition hdr_sz : nat := 32.

(** [map_webroot(r, sz)]: the file's length is what [fstat] reports, [mmap_ok]
    whether the mapping succeeds. *)
Definition map_webroot (fstat_ok mmap_ok : bool) (file : list Z) (sz : Z) : option (list Z) :=
  if negb fstat_ok then None
  else if (Z.of_nat (length file) <? sz)%Z then None
  else if negb mmap_ok then None
  else Some (take (Z.to_nat sz) file).

(** The offsets and the check at the end of [webroot_open]. *)
Definition layout (fd : Z) (map : list Z) (hdr : list Z) : option webroot :=
  let num_edges := le_val (take 4 hdr) in
  let num_redirect := le_val (take 4 (drop 4 hdr)) in
  let num_file := le_val (take 4 (drop 8 hdr)) in
  let strtab_sz := le_val (take 4 (drop 12 hdr)) in
  let trie := hdr_sz in
  let redir := trie + dedge_sz * Z.to_nat num_edges in
  let file := redir + redir_sz * Z.to_nat num_redirect in
  let strtab := file + file_sz * Z.to_nat num_file in
  if length map <? strtab + Z.to_nat strtab_sz then None
  else Some (Webroot fd 1 map num_edges num_redirect (uint 32 (num_redirect + num_file))
               trie redir file strtab).

(** [webroot_open(fn)]: what [calloc], [open], [read], [poll], [fstat] and [mmap]
    answer, and the file's bytes. *)
Definition webroot_open (calloc_ok : bool) (fd : Z) (ios polls : list sysres)
    (fstat_ok mmap_ok : bool) (file : list Z) : outcome (option webroot) :=
  if negb calloc_ok then Ret None
  else if (fd <? 0)%Z then Ret None
  else
    '(ok, hdr, eof, _, _) ← fd_read ios polls file hdr_sz;
    if negb ok || eof || negb (length hdr =? hdr_sz) then Ret None
    else if negb (le_val (take 4 (drop 16 hdr)) =? WEBROOT_MAGIC)%Z then Ret None
    else if negb (le_val (take 4 (drop 20 hdr)) =? WEBROOT_CURRENT_VER)%Z then Ret None
    else
      match map_webroot fstat_ok mmap_ok file (le_val (take 4 (drop 24 hdr))) with
      | None => Ret None
      | Some map => Ret (layout fd map hdr)
      end.

Definition with_ref (r : webroot) (n : Z) : webroot :=
  Webroot (r_fd r) n (r_map r) (wr_num_edges r) (r_num_redirect r) (r_num_oid r)
    (r_trie r) (r_redir r) (r_file r) (r_strtab r).

(** [webroot_unref]: the webroot left, or none when the last reference goes
    ([dtor] unmaps, closes and frees). *)
Definition webroot_unref (r : option webroot) : option webroot :=
  match r with
  | None => None
  | Some r =>
    let n := uint 32 (r_ref r - 1) in
    if (n =? 0)%Z then None else Some (with_ref r n)
  end.

Definition webroot_ref (r : webroot) : webroot := with_ref r (uint 32 (r_ref r + 1)).

Definition webroot_get_fd (r : webroot) : Z := r_fd r.

(** ** Reading back what the writer wrote *)

Lemma read_at m p a b c : drop p m = a ++ b ++ c -> 0 < length b ->
  read_bytes m (p + length a) (length b) = Ret b.
Proof.
  intros H Hb. unfold read_bytes. pose proof (f_equal length H) as Hl.
  rewrite length_drop, !length_app in Hl. rewrite (proj2 (Nat.leb_le _ _)) by lia.
  by rewrite <- drop_drop, H, drop_app_length, take_app_length.
Qed.

Lemma read_int_at m p k a n z c : drop p m = a ++ le_bytes n z ++ c -> k = length a -> 0 < n ->
  (0 <= z < 256 ^ Z.of_nat n)%Z -> read_int m (p + k) n = Ret z.
Proof.
  intros H -> Hn Hz. unfold read_int. pose proof (read_at m p a _ c H) as Hr.
  rewrite length_le_bytes in Hr. rewrite Hr by done. cbn. by rewrite le_bytes_val.
Qed.

Lemma cmp_bytes_prefix c s : length c <= length s ->
  (cmp_bytes id (take (length c) s) c = 0)%Z <-> c `prefix_of` s.
Proof.
  intros Hl. rewrite cmp_bytes_zero by (rewrite length_take; lia). rewrite !list_fmap_id. split.
  - intros <-. apply prefix_take.
  - intros [t ->]. by rewrite take_app_length.
Qed.

Lemma cmp_bytes_head a b x y : a <> b -> cmp_bytes id (a :: x) (b :: y) = (a - b)%Z.
Proof. intros. cbn. unfold id. destruct (Z.eqb_spec (a - b) 0); lia. Qed.

(** The memory a string lives in: its bytes, the terminator, and at least as
    many bytes after it as one comparison may read. *)
Definition string_mem (mem s : list Z) : Prop :=
  exists slack, mem = s ++ 0%Z :: slack /\ RE_EDGE_MAX <= S (length slack).

Definition c_string (s : list Z) : Prop := Forall (fun b => 0 < b < 256)%Z s.

Lemma string_prefix c s mem : string_mem mem s -> c_string c -> c `prefix_of` mem <-> c `prefix_of` s.
Proof.
  intros (sl & -> & _) Hc. split; [|by apply prefix_app_r]. intros H.
  destruct (decide (length c <= length s)) as [Hl|Hl].
  - destruct H as [t H]. apply (f_equal (take (length c))) in H.
    rewrite take_app_le, take_app_length in H by done. rewrite <- H. apply prefix_take.
  - exfalso. destruct H as [t H]. assert (c !! length s = Some 0%Z) as H0.
    { transitivity ((c ++ t) !! length s); [by rewrite lookup_app_l by lia|].
      rewrite <- H. rewrite lookup_app_r, Nat.sub_diag by lia. done. }
    apply (Forall_lookup_1 _ _ _ _ Hc) in H0. lia.
Qed.

Lemma string_mem_drop c s mem : string_mem mem (c ++ s) -> string_mem (drop (length c) mem) s.
Proof. intros (sl & -> & ?). exists sl. rewrite <- app_assoc, drop_app_length. done. Qed.

Section stored.
Context (order : list edge) (root : edge) (m : list Z) (off : nat) (ds : list trie_dedge).
Context (Horder : order = root :: concat (e_edges <$> order)).
Context (Hnodup : NoDup (e_addr <$> order)).
Context (Hds : Forall2 (record_of order) order ds).
Context (Himage : exists post, drop off m = concat (encode_dedge <$> ds) ++ post).
Context (Hsize : (Z.of_nat (length order) < 2 ^ 32)%Z).

Definition oid_of (e : edge) : Z :=
  uint 32 (match e_terminal e with Some t => t_oid t | None => GIDX_INVALID_OID end).

Lemma stored_encoding i e : order !! i = Some e ->
  fits e /\ exists post, drop (edge_at off i) m =
    le_bytes 4 (oid_of e) ++ le_bytes 4 (uint 32 (first_child_idx order e)) ++
    le_bytes 1 (Z.of_nat (length (e_edges e))) ++ le_bytes 1 (Z.of_nat (length (e_cmp e))) ++
    (e_cmp e ++ replicate (RE_EDGE_MAX - length (e_cmp e)) 0%Z) ++ post.
Proof.
  intros Hi. destruct (Forall2_lookup_l _ _ _ _ _ Hds Hi) as (d & Hd & Hr).
  destruct Himage as [post Hp].
  destruct (records_slice ds i d post) as [post' Hs]; [|done|].
  { apply Forall_lookup. intros j dj Hj.
    destruct (Forall2_lookup_r _ _ _ _ _ Hds Hj) as (ej & _ & Hej). by eapply length_encode. }
  unfold record_of, dedge_of in Hr.
  apply outcome_bind_ret in Hr as ([] & H1%c_assert_ret & Hr).
  apply outcome_bind_ret in Hr as ([] & H2%c_assert_ret & Hr). injection Hr as <-.
  apply Nat.ltb_lt in H1. apply Nat.leb_le in H2. split; [done|]. exists post'.
  unfold edge_at. rewrite <- drop_drop, Hp, Hs. unfold encode_dedge. cbn [re_oid re_edges_idx
    re_num_edges re_strlen re_str]. by rewrite <- !app_assoc.
Qed.

Lemma read_stored i e : order !! i = Some e -> let p := edge_at off i in
  read_oid m p = Ret (oid_of e) /\
  read_edges_idx m p = Ret (uint 32 (first_child_idx order e)) /\
  read_num_edges m p = Ret (Z.of_nat (length (e_edges e))) /\
  read_strlen m p = Ret (Z.of_nat (length (e_cmp e))) /\
  exists post, drop (p + 10) m =
    (e_cmp e ++ replicate (RE_EDGE_MAX - length (e_cmp e)) 0%Z) ++ post.
Proof.
  intros Hi p. destruct (stored_encoding i e Hi) as ([H1 H2] & post & Hp). fold p in Hp.
  unfold RE_EDGE_MAX in *.
  assert (forall z, 0 <= uint 32 z < 256 ^ Z.of_nat 4)%Z as Hu by (intros z; by apply (uint_bound 32)).
  unfold read_oid, read_edges_idx, read_num_edges, read_strlen.
  split_and!.
  - rewrite <- (Nat.add_0_r p). eapply (read_int_at m p 0 []); [exact Hp|done|lia|apply Hu].
  - eapply (read_int_at m p 4 (le_bytes 4 (oid_of e))); [exact Hp|done|lia|apply Hu].
  - eapply (read_int_at m p 8 (le_bytes 4 (oid_of e) ++
      le_bytes 4 (uint 32 (first_child_idx order e)))); [|done|lia|lia].
    rewrite Hp, <- !app_assoc. done.
  - eapply (read_int_at m p 9 (le_bytes 4 (oid_of e) ++
      le_bytes 4 (uint 32 (first_child_idx order e)) ++
      le_bytes 1 (Z.of_nat (length (e_edges e))))); [|done|lia|lia].
    rewrite Hp, <- !app_assoc. done.
  - exists post. rewrite <- drop_drop, Hp. done.
Qed.

(** A comparison against a stored edge. *)
Lemma edge_cmp_stored mem s i e : order !! i = Some e -> string_mem mem s ->
  edge_cmp m off mem i = Ret (cmp_bytes id (take (length (e_cmp e)) mem) (e_cmp e)).
Proof.
  intros Hi (sl & -> & Hsl). destruct (read_stored i e Hi) as (_ & _ & _ & Hn & post & Hc).
  destruct (stored_encoding i e Hi) as ([_ H2] & _).
  unfold edge_cmp. rewrite Hn. run. unfold memcmp.
  rewrite Nat2Z.id, Hc, (proj2 (andb_true_iff _ _)).
  - f_equal. f_equal. rewrite <- app_assoc, take_app_length. done.
  - split; apply Nat.leb_le; rewrite ?length_app, ?length_replicate; cbn; lia.
Qed.

(** Siblings, stored one after another from index [b]. *)
Definition placed (b : nat) (ks : list edge) : Prop :=
  forall j k, ks !! j = Some k -> order !! (b + j) = Some k.

(** The index a record carries: that of the edge's children. *)
Lemma child_index i e : order !! i = Some e ->
  exists b, uint 32 (first_child_idx order e) = Z.of_nat b /\ b < length order /\ placed b (e_edges e).
Proof.
  intros Hin. destruct (e_edges e) as [|k0 sub] eqn:Esub.
  - exists 0. unfold first_child_idx. rewrite Esub. split; [done|]. split; [|by intros ? ?].
    apply lookup_lt_Some in Hin. lia.
  - exists (child_base order i).
    rewrite (first_child_base order root i) by (done || by rewrite Esub).
    assert (placed (child_base order i) (k0 :: sub)) as Hpp.
    { intros j k Hj. eapply children_at; [done|exact Hin|by rewrite Esub]. }
    assert (child_base order i < length order) as Hlt.
    { specialize (Hpp 0 k0 eq_refl). rewrite Nat.add_0_r in Hpp. by apply lookup_lt_Some in Hpp. }
    by rewrite uint_small by lia.
Qed.

Lemma sign_of_other k k' mem s : string_mem mem s -> wf_edge k -> wf_edge k' ->
  e_cmp k `prefix_of` s -> first_byte k <> first_byte k' ->
  cmp_bytes id (take (length (e_cmp k')) mem) (e_cmp k') = (first_byte k - first_byte k')%Z.
Proof.
  intros (sl & -> & _) Hk Hk' [u ->] Hne.
  inversion Hk as [? c ? ? [Hc _]]; inversion Hk' as [? c' ? ? [Hc' _]]; subst; cbn [e_cmp] in *.
  destruct c as [|x c]; [cbn in Hc; lia|]. destruct c' as [|y c']; [cbn in Hc'; lia|].
  unfold first_byte in *; cbn [e_cmp hd] in *. cbn [length app take]. by rewrite cmp_bytes_head.
Qed.

Lemma sorted_nth ks i j k k' : StronglySorted first_lt ks -> i < j ->
  ks !! i = Some k -> ks !! j = Some k' -> first_lt k k'.
Proof.
  intros Hs. revert i j. induction Hs as [|x ks Hs IH Hx]; intros i j Hij Hi Hj; [done|].
  destruct j as [|j]; [lia|]. destruct i as [|i]; cbn in Hi, Hj; [|apply (IH i j); done || lia].
  simplify_eq. rewrite Forall_forall in Hx. apply Hx. by eapply list_elem_of_lookup_2.
Qed.

Lemma search_siblings mem s ks b : string_mem mem s -> placed b ks -> Forall wf_edge ks ->
  StronglySorted first_lt ks ->
  (forall j k, ks !! j = Some k -> e_cmp k `prefix_of` s ->
     bsearch (edge_cmp m off mem) (length ks) b (length ks) = Ret (Some (b + j))) /\
  ((forall k, k ∈ ks -> ~ e_cmp k `prefix_of` s) ->
     bsearch (edge_cmp m off mem) (length ks) b (length ks) = Ret None).
Proof.
  intros Hmem Hpl Hwf Hs.
  assert (forall j k, ks !! j = Some k ->
    edge_cmp m off mem (b + j) = Ret (cmp_bytes id (take (length (e_cmp k)) mem) (e_cmp k))) as Hcmp.
  { intros j k Hj. by eapply edge_cmp_stored; [apply Hpl|]. }
  assert (forall j k, ks !! j = Some k -> length (e_cmp k) <= length mem /\ c_string (e_cmp k)) as Hshort.
  { intros j k Hj. apply (Forall_lookup_1 _ _ _ _ Hwf) in Hj. destruct Hmem as (sl & -> & ?).
    inversion Hj as [? ? ? ? [? ?] ?]; subst. rewrite length_app. cbn. split; [lia|done]. }
  split.
  - intros j k Hj Hp. pose proof (lookup_lt_Some _ _ _ Hj).
    pose proof (Forall_lookup_1 _ _ _ _ Hwf Hj) as Hwk.
    apply bsearch_complete; [done|]. split_and!; [lia|lia| | |].
    + rewrite (Hcmp j k Hj). f_equal. destruct (Hshort j k Hj) as [? ?].
      apply cmp_bytes_prefix; [done|]. by apply (string_prefix _ s).
    + intros i Hi. replace i with (b + (i - b)) by lia.
      destruct (lookup_lt_is_Some_2 ks (i - b) ltac:(lia)) as [k' Hk'].
      rewrite (Hcmp _ _ Hk'). eexists; split; [done|].
      pose proof (sorted_nth ks (i - b) j k' k Hs ltac:(lia) Hk' Hj) as Hlt. unfold first_lt in Hlt.
      rewrite (sign_of_other k k' mem s); [lia|done|done| |done|lia].
      by apply (Forall_lookup_1 _ _ _ _ Hwf Hk').
    + intros i Hi. replace i with (b + (i - b)) by lia.
      destruct (lookup_lt_is_Some_2 ks (i - b) ltac:(lia)) as [k' Hk'].
      rewrite (Hcmp _ _ Hk'). eexists; split; [done|].
      pose proof (sorted_nth ks j (i - b) k k' Hs ltac:(lia) Hj Hk') as Hlt. unfold first_lt in Hlt.
      rewrite (sign_of_other k k' mem s); [lia|done|done| |done|lia].
      by apply (Forall_lookup_1 _ _ _ _ Hwf Hk').
  - intros Hn.
    destruct (bsearch_total (edge_cmp m off mem) (length ks) b (length ks)) as [[i|] Hr]; [done| | |done].
    + intros i Hi. replace i with (b + (i - b)) by lia.
      destruct (lookup_lt_is_Some_2 ks (i - b) ltac:(lia)) as [k' Hk']. eauto.
    + exfalso. apply bsearch_sound in Hr as [Hi Hc]. replace i with (b + (i - b)) in Hc by lia.
      destruct (lookup_lt_is_Some_2 ks (i - b) ltac:(lia)) as [k' Hk'].
      rewrite (Hcmp _ _ Hk') in Hc. injection Hc as Hc. destruct (Hshort _ _ Hk') as [? ?].
      apply cmp_bytes_prefix in Hc; [|done]. apply (string_prefix _ s) in Hc; [|done|done].
      eapply Hn; [|exact Hc]. by eapply list_elem_of_lookup_2.
Qed.

Lemma hits_prefix ks j a c t sub s x : Forall wf_edge ks -> StronglySorted first_lt ks ->
  ks !! j = Some (Edge a c t sub) ->
  hits ks (c ++ s) x <-> (s = [] /\ t = Some x) \/ (s <> [] /\ hits sub s x).
Proof.
  intros Hwf Hs Hj.
  assert (forall i a' c' t' sub' s', ks !! i = Some (Edge a' c' t' sub') -> c' ++ s' = c ++ s ->
    Edge a' c' t' sub' = Edge a c t sub) as Huniq.
  { intros i a' c' t' sub' s' Hi E. destruct (decide (i = j)) as [->|Hne]; [congruence|exfalso].
    pose proof (Forall_lookup_1 _ _ _ _ Hwf Hi) as Hw'. pose proof (Forall_lookup_1 _ _ _ _ Hwf Hj) as Hw.
    inversion Hw as [? ? ? ? [Hc _]]; inversion Hw' as [? ? ? ? [Hc' _]]; subst.
    assert (first_byte (Edge a' c' t' sub') = first_byte (Edge a c t sub)) as Ef.
    { unfold first_byte. cbn. destruct c, c'; cbn in *; try lia. congruence. }
    destruct (lt_eq_lt_dec i j) as [[Hl|?]|Hl]; [|done|].
    - pose proof (sorted_nth _ _ _ _ _ Hs Hl Hi Hj). unfold first_lt in *. lia.
    - pose proof (sorted_nth _ _ _ _ _ Hs Hl Hj Hi). unfold first_lt in *. lia. }
  split.
  - intros H. inversion H as [? a' c' ? sub' Hin|? a' c' t' sub' s' ? Hin Hne Hsub]; subst;
      apply list_elem_of_lookup_1 in Hin as [i Hi].
    + assert (Edge a' (c ++ s) (Some x) sub' = Edge a c t sub) as [= _ E <- _]
        by (eapply (Huniq i _ _ _ _ []); [done|by rewrite app_nil_r]).
      left. split; [|done]. apply (f_equal length) in E. rewrite length_app in E. destruct s; [done|cbn in E; lia].
    + assert (Edge a' c' t' sub' = Edge a c t sub) as [= -> -> -> ->] by by eapply Huniq.
      match goal with E : c ++ _ = c ++ _ |- _ => apply app_inv_head in E as -> end. by right.
  - intros [[-> ->]|[Hne Hsub]].
    + rewrite app_nil_r. eapply hit_here. by eapply list_elem_of_lookup_2.
    + eapply hit_below; [|done|done]. by eapply list_elem_of_lookup_2.
Qed.

Definition answers (ks : list edge) (s : list Z) (o : outcome Z) : Prop :=
  (forall x, hits ks s x -> o = Ret (uint 32 (t_oid x))) /\
  ((forall x, ~ hits ks s x) -> o = Ret GIDX_INVALID_OID).

Lemma query_siblings : forall fuel s mem ks b, length s < fuel -> s <> [] ->
  (Z.of_nat (length s) < 2 ^ 64)%Z -> string_mem mem s -> placed b ks ->
  Forall wf_edge ks -> StronglySorted first_lt ks ->
  answers ks s (trie_query m off (Z.of_nat (length order)) fuel b (length ks) mem (Z.of_nat (length s))).
Proof.
  induction fuel as [|fuel IH]; intros s mem ks b Hf Hne H64 Hmem Hpl Hwf Hs; [lia|].
  cbn [trie_query]. destruct (search_siblings mem s ks b Hmem Hpl Hwf Hs) as [Hyes Hno].
  destruct (decide (Exists (fun k => e_cmp k `prefix_of` s) ks)) as [He|He].
  2: { assert (forall k, k ∈ ks -> ~ e_cmp k `prefix_of` s) as Hn.
       { intros k Hk Hp. apply He, Exists_exists. eauto. }
       rewrite Hno by done. split; [|done]. intros x Hx. exfalso.
       inversion Hx; subst; (eapply Hn; [done|]); cbn; [done|by apply prefix_app_r]. }
  apply Exists_exists in He as (k & [j Hj]%list_elem_of_lookup_1 & Hp).
  rewrite (Hyes j k Hj Hp). run.
  destruct (read_stored _ _ (Hpl j k Hj)) as (Ho & Hi & Hk & Hl & _). rewrite Hl.
  run. destruct Hp as [s' ->].
  destruct k as [a c t sub]. cbn [e_cmp e_edges] in *.
  pose proof (Forall_lookup_1 _ _ _ _ Hwf Hj) as Hw. inversion Hw as [? ? ? ? [Hc _] Hcs Hss Hsw]; subst.
  rewrite length_app in *. rewrite Nat2Z.id.
  rewrite uint_small by lia.
  replace (Z.of_nat (length c + length s') - Z.of_nat (length c))%Z with (Z.of_nat (length s')) by lia.
  unfold answers. setoid_rewrite (hits_prefix ks j a c t sub s'); [|done..].
  destruct (Z.eqb_spec (Z.of_nat (length s')) 0) as [E|E].
  { assert (s' = []) as -> by (destruct s'; [done|cbn in E; lia]). rewrite Ho. unfold oid_of.
    cbn [e_terminal]. split.
    - intros x [[_ ->]|[? _]]; done.
    - intros Hn. destruct t as [t|]; [|done]. exfalso. apply (Hn t). by left. }
  assert (s' <> []) as Hne' by (by intros ->).
  rewrite Hi. run. rewrite Hk.
  destruct (child_index (b + j) (Edge a c t sub) (Hpl j _ Hj)) as (b' & -> & Hb' & Hpl').
  rewrite (proj2 (Z.ltb_lt _ _)) by lia. run.
  rewrite !Nat2Z.id.
  destruct (IH s' (drop (length c) mem) sub b') as [H1 H2]; try done; [lia|lia|by apply string_mem_drop|].
  split.
  - intros x [[-> _]|[_ Hx]]; [done|by apply H1].
  - intros Hn. apply H2. intros x Hx. apply (Hn x). by right.
Qed.

(** The whole query, from the root. *)
Lemma query_root s mem : e_cmp root = [] -> e_terminal root = None ->
  Forall wf_edge (e_edges root) -> StronglySorted first_lt (e_edges root) ->
  (Z.of_nat (length s) < 2 ^ 64)%Z -> string_mem mem s ->
  (forall x, ~ hits (e_edges root) [] x) ->
  answers (e_edges root) s
    (trie_query m off (Z.of_nat (length order)) (S (S (length s))) 0 1 mem (Z.of_nat (length s))).
Proof.
  intros Hrc Hrt Hwf Hs H64 Hmem Hnil.
  assert (order !! 0 = Some root) as H0 by by rewrite Horder.
  destruct (read_stored 0 root H0) as (Ho & Hi & Hk & Hl & _).
  pose proof (edge_cmp_stored mem s 0 root H0 Hmem) as Hc. rewrite Hrc in Hc, Hl.
  change (cmp_bytes id (take (length ([] : list Z)) mem) []) with 0%Z in Hc.
  remember (S (length s)) as fuel eqn:Ef. cbn [trie_query].
  assert (bsearch (edge_cmp m off mem) 1 0 1 = Ret (Some 0)) as ->.
  { apply bsearch_complete; [done|]. split_and!; [lia|lia|done|intros; lia|intros; lia]. }
  run. rewrite Hl. cbn [mbind outcome_bind length Z.of_nat Z.to_nat drop].
  rewrite Z.sub_0_r, uint_small by lia.
  destruct (Z.eqb_spec (Z.of_nat (length s)) 0) as [E|E].
  { assert (s = []) as -> by (destruct s; [done|cbn in E; lia]). rewrite Ho. unfold oid_of. rewrite Hrt.
    split; [|done]. intros x Hx. by destruct (Hnil x). }
  assert (s <> []) as Hne by (by intros ->).
  rewrite Hi. run. rewrite Hk.
  destruct (child_index 0 root H0) as (b' & -> & Hb' & Hpl').
  rewrite (proj2 (Z.ltb_lt _ _)) by lia. run. rewrite !Nat2Z.id.
  apply query_siblings; try done. lia.
Qed.
End stored.

(** The records of a built trie, found anywhere in a map, answer every query. *)
Lemma index_answers alloc v r e order ds m off post s mem :
  v <> [] -> (forall i, alloc i = true) -> radix_input v 0 ->
  trie_new alloc true true (Some v) = Ret (Some (r, Some e, order)) ->
  Forall2 (record_of order) order ds -> drop off m = concat (encode_dedge <$> ds) ++ post ->
  (Z.of_nat (r_num_edges r) < 2 ^ 32)%Z -> (Z.of_nat (length s) < 2 ^ 64)%Z -> string_mem mem s ->
  let result := trie_query m off (trie_num_edges r) (S (S (length s))) 0 1 mem (Z.of_nat (length s)) in
  (forall t, t ∈ v -> t_str t = s -> result = Ret (uint 32 (t_oid t))) /\
  (s ∉ t_str <$> v -> result = Ret GIDX_INVALID_OID).
Proof.
  intros Hv Ha Hin Hn Hds Hm Hsz H64 Hmem result.
  destruct (trie_new_ok alloc v Hv) as (res & Hn' & Hres). rewrite Hn in Hn'. injection Hn' as <-.
  destruct (Hres _ _ _ eq_refl) as (e' & [= <-] & -> & Hg & Hc & Ht & Hb).
  destruct (grown_order r e Hg) as (Ho & Hnd & Hl & _). set (order := bfs (r_num_edges r) [e]) in *.
  destruct (Hb Ha Hin) as [Hwf Hs _ Hh].
  assert (answers (e_edges e) s result) as [H1 H2].
  { unfold result, trie_num_edges. rewrite <- Hl.
    apply (query_root order e m off ds Ho Hnd Hds); try done; [by exists post|by rewrite Hl|].
    intros x [Hx Ex]%Hh. destruct Hin as (_ & Hne & _). rewrite Forall_forall in Hne.
    specialize (Hne x Hx). unfold suf in Ex. apply (f_equal length) in Ex.
    rewrite length_drop in Ex. cbn [length] in Ex. lia. }
  split.
  - intros t Hi <-. apply H1, Hh. by split.
  - intros Hni. apply H2. intros x [Hx <-]%Hh. apply Hni, list_elem_of_fmap. by exists x.
Qed.

(** ** Properties *)

(** C2: the index round trip. The trie built from entries with distinct, sorted,
    non-empty C strings shorter than 256 bytes, written out through any output
    that keeps its promise, and found anywhere in a map, answers the query of
    every C string: the object id of the entry with that string, or
    [GIDX_INVALID_OID] if there is none. The query ends within its fuel and
    reads neither outside the map nor, given eight bytes of memory from the
    string's terminator on, outside the string's memory. *)
Theorem trie_roundtrip {W} `{Sink W} alloc v r e order (w w' : W) bytes m off post s mem :
  v <> [] -> (forall i, alloc i = true) -> radix_input v 0 ->
  trie_new alloc true true (Some v) = Ret (Some (r, Some e, order)) ->
  sink_ok w -> trie_write_trie order w = Ret (true, w') -> accepted w' = accepted w ++ bytes ->
  drop off m = bytes ++ post -> (Z.of_nat (r_num_edges r) < 2 ^ 32)%Z ->
  (Z.of_nat (length s) < 2 ^ 64)%Z -> string_mem mem s ->
  let result := trie_query m off (trie_num_edges r) (S (S (length s))) 0 1 mem (Z.of_nat (length s)) in
  (forall t, t ∈ v -> t_str t = s -> result = Ret (uint 32 (t_oid t))) /\
  (s ∉ t_str <$> v -> result = Ret GIDX_INVALID_OID).
Proof.
  intros Hv Ha Hin Hn Hw Hwr Hacc Hm Hsz H64 Hmem result.
  destruct (write_edges_ok _ _ _ _ Hw Hwr) as (ds & Hds & Hacc' & _).
  rewrite Hacc in Hacc'. apply app_inv_head in Hacc' as ->.
  by apply (index_answers alloc v r e order ds m off post).
Qed.

Definition sample_trie : option (trie * option edge * list edge) :=
  match trie_new (fun _ => true) true true (Some sample_entries) with Ret x => x | Fault _ => None end.

Definition sample_index : list Z :=
  match sample_trie with
  | Some (_, _, order) =>
    match trie_write_trie order sample_sink with
    | Ret (_, w) => accepted w
    | Fault _ => []
    end
  | None => []
  end.

Example trie_roundtrip_witness :
  trie_query (replicate 32 0%Z ++ sample_index ++ [1]%Z) 32 6 13 0 1
    (lit "/abcdefghij" ++ replicate 8 0%Z) 11 = Ret 1%Z.
Proof.
  destruct (trie_new (fun _ => true) true true (Some sample_entries)) as [[[[r [e|]] order]|]|] eqn:E;
    [|vm_compute in E; discriminate E..].
  destruct (trie_write_trie order sample_sink) as [[[] w']|] eqn:Ew;
    [|vm_compute in E; injection E as <- <- <-; vm_compute in Ew; discriminate Ew..].
  assert (accepted w' = accepted sample_sink ++ sample_index) as Hacc.
  { unfold sample_index, sample_trie. rewrite E, Ew. reflexivity. }
  assert (r_num_edges r = 6) as Hr by (vm_compute in E; injection E as <- _ _; reflexivity).
  destruct (trie_roundtrip (fun _ => true) sample_entries r e order sample_sink w' sample_index
    (replicate 32 0%Z ++ sample_index ++ [1]%Z) 32 [1]%Z (lit "/abcdefghij")
    (lit "/abcdefghij" ++ replicate 8 0%Z)) as [H _];
    [discriminate|reflexivity|apply sample_input|exact E|apply sample_sink_ok|exact Ew|exact Hacc|
     reflexivity|rewrite Hr; reflexivity|reflexivity|exists (replicate 7 0%Z); split; [reflexivity|cbn; unfold RE_EDGE_MAX; lia]|].
  unfold trie_num_edges in H. rewrite Hr in H.
  apply (H (TrieEntry (lit "/abcdefghij") 1)); [right; left|reflexivity].
Defined.

(** What [webroot_open] has checked of a webroot it returns. *)
Lemma layout_tables fd map hdr r : layout fd map hdr = Some r ->
  r_map r = map /\ r_strtab r <= length map /\ r_ref r = 1%Z /\ r_fd r = fd /\
  r_redir r + redir_sz * Z.to_nat (r_num_redirect r) = r_file r /\
  exists num_file, r_file r + file_sz * Z.to_nat num_file = r_strtab r /\
    r_num_oid r = uint 32 (r_num_redirect r + num_file).
Proof.
  unfold layout. destruct (Nat.ltb_spec (length map)
    (hdr_sz + dedge_sz * Z.to_nat (le_val (take 4 hdr)) +
     redir_sz * Z.to_nat (le_val (take 4 (drop 4 hdr))) +
     file_sz * Z.to_nat (le_val (take 4 (drop 8 hdr))) +
     Z.to_nat (le_val (take 4 (drop 12 hdr))))) as [|Hle]; [done|].
  intros H. apply (inj Some) in H. subst r.
  split_and!; [done| |done|done|done|eexists; split; reflexivity].
  unfold r_strtab. lia.
Qed.

Lemma read_int_ok m off n : off + n <= length m -> exists z, read_int m off n = Ret z.
Proof.
  intros H. unfold read_int, read_bytes. rewrite (proj2 (Nat.leb_le _ _) H). cbn. eauto.
Qed.

Lemma read_redirect_ok r idx : r_redir r + redir_sz * S idx <= length (r_map r) ->
  exists n, read_redirect r idx = Ret n.
Proof.
  unfold redir_sz. intros H. unfold read_redirect, redir_sz.
  destruct (read_int_ok (r_map r) (r_redir r + 8 * idx) 4) as [z ->]; [lia|]. run.
  destruct (read_int_ok (r_map r) (r_redir r + 8 * idx + 4) 4) as [z' ->]; [lia|]. cbn. eauto.
Qed.

Lemma read_file_ok r idx : r_file r + file_sz * S idx <= length (r_map r) ->
  exists n, read_file r idx = Ret n.
Proof.
  unfold file_sz. intros H. unfold read_file, file_sz. set (p := r_file r + 48 * idx).
  assert (p + 48 <= length (r_map r)) as Hp by (unfold p; lia). clearbody p.
  destruct (read_int_ok (r_map r) p 8) as [z1 ->]; [lia|].
  destruct (read_int_ok (r_map r) (p + 8) 8) as [z2 ->]; [lia|].
  destruct (read_int_ok (r_map r) (p + 16) 4) as [z3 ->]; [lia|].
  destruct (read_int_ok (r_map r) (p + 20) 4) as [z4 ->]; [lia|].
  destruct (read_int_ok (r_map r) (p + 24) 4) as [z5 ->]; [lia|].
  unfold read_bytes, ETAG_SZ. rewrite (proj2 (Nat.leb_le _ _)) by lia. cbn. eauto.
Qed.

Lemma hdr_field off hdr : bytes_ok hdr -> (0 <= le_val (take 4 (drop off hdr)) < 2 ^ 32)%Z.
Proof.
  intros Hb. pose proof (le_val_bound (take 4 (drop off hdr)) ltac:(by apply Forall_take, Forall_drop)) as H.
  split; [lia|]. eapply Z.lt_le_trans; [apply H|]. change (2 ^ 32)%Z with (256 ^ Z.of_nat 4)%Z.
  apply Z.pow_le_mono_r; [lia|]. rewrite length_take. lia.
Qed.

(** whatever bytes the file holds, [webroot_open] faults only by blocking in
    [read]; and in a webroot it returns whose object count did not wrap around,
    every object id below [r_num_oid] has its redirect or file record inside the
    map, so that [webroot_find] can go wrong only in the trie. *)
Theorem webroot_open_bounds calloc_ok fd ios polls fstat_ok mmap_ok file : bytes_ok file ->
  match webroot_open calloc_ok fd ios polls fstat_ok mmap_ok file with
  | Fault f => f = Blocked
  | Ret None => True
  | Ret (Some r) =>
    r_ref r = 1%Z /\ webroot_get_fd r = fd /\
    ((r_num_redirect r <= r_num_oid r)%Z -> forall idx, (0 <= idx < r_num_oid r)%Z ->
       ((idx < r_num_redirect r)%Z -> exists n, read_redirect r (Z.to_nat idx) = Ret n) /\
       ((r_num_redirect r <= idx)%Z ->
          exists n, read_file r (Z.to_nat (idx - r_num_redirect r)) = Ret n))
  end.
Proof.
  intros Hb. unfold webroot_open. destruct calloc_ok; [|done]. cbn [negb].
  destruct (fd <? 0)%Z; [done|].
  destruct (fd_read ios polls file hdr_sz) as [[[[[ok hdr] eof] ios'] polls']|f] eqn:E;
    run; [|by eapply read_loop_fault].
  destruct (_ || _ || _); [done|]. destruct (negb _); [done|]. destruct (negb _); [done|].
  destruct (map_webroot _ _ _ _) as [map|]; [|done].
  destruct (layout fd map hdr) as [r|] eqn:El; [|done].
  assert (bytes_ok hdr) as Hh.
  { apply read_loop_spec in E as (x & -> & [t ->] & _); [|unfold hdr_sz; lia].
    by apply Forall_app in Hb as [? _]. }
  pose proof (hdr_field 4 hdr Hh) as H4. pose proof (hdr_field 8 hdr Hh) as H8.
  pose proof (layout_tables _ _ _ _ El) as (Hmap & Hstr & Href & Hfd & Hre & _).
  assert (r_num_redirect r = le_val (take 4 (drop 4 hdr)) /\
    r_num_oid r = uint 32 (r_num_redirect r + le_val (take 4 (drop 8 hdr))) /\
    r_file r + file_sz * Z.to_nat (le_val (take 4 (drop 8 hdr))) = r_strtab r) as (Hr & Ho & Hf).
  { unfold layout in El. destruct (_ <? _); [done|]. by injection El as <-. }
  split_and!; [done|done|]. intros Hle idx Hidx. rewrite <- Hr in H4.
  assert (r_num_oid r = r_num_redirect r + le_val (take 4 (drop 8 hdr)))%Z as Ho'.
  { rewrite Ho in Hle |- *. unfold uint in *.
    set (a := r_num_redirect r) in *. set (b := le_val (take 4 (drop 8 hdr))) in *.
    destruct (decide (a + b < 2 ^ 32)%Z); [apply Z.mod_small; lia|].
    replace ((a + b) mod 2 ^ 32)%Z with (a + b - 2 ^ 32)%Z in Hle; [lia|].
    apply (Z.mod_unique_pos _ _ 1); lia. }
  unfold file_sz, redir_sz in *. split; intros Hc.
  - apply read_redirect_ok. unfold redir_sz. rewrite Hmap. lia.
  - apply read_file_ok. unfold file_sz. rewrite Hmap. lia.
Qed.

Definition sample_header : list Z :=
  le_bytes 4 0 ++ le_bytes 4 0 ++ le_bytes 4 1 ++ le_bytes 4 0 ++ le_bytes 4 WEBROOT_MAGIC ++
  le_bytes 4 WEBROOT_CURRENT_VER ++ le_bytes 4 80 ++ le_bytes 4 0.

Example webroot_open_bounds_witness :
  let file := sample_header ++ replicate 50 7%Z in
  exists r, webroot_open true 5 [SysOk 40] [] true true file = Ret (Some r) /\
    exists n, read_file r 0 = Ret n.
Proof.
  cbn zeta.
  pose proof (webroot_open_bounds true 5 [SysOk 40] [] true true (sample_header ++ replicate 50 7%Z)) as H.
  destruct (webroot_open _ _ _ _ _ _ _) as [[r|]|] eqn:E; [|vm_compute in E; discriminate E..].
  exists r. split; [reflexivity|]. destruct H as (_ & _ & H); [by_decide|].
  vm_compute in E. injection E as <-. destruct (H ltac:(discriminate) 0%Z) as [_ Hf];
    [split; [discriminate|reflexivity]|]. apply Hf. discriminate.
Defined.

(** [n] more references, then [k] fewer. *)
Definition take_refs (n : nat) (r : webroot) : webroot := Nat.iter n webroot_ref r.
Definition drop_refs (k : nat) (r : option webroot) : option webroot := Nat.iter k webroot_unref r.

(** reference counting: of a fresh webroot on which [n] references have been
    taken, the object lives through the first [n] releases, with the map and
    tables untouched, and is destroyed by the next one. *)
Theorem webroot_refcount r n k : r_ref r = 1%Z -> (Z.of_nat n < 2 ^ 32 - 1)%Z -> k <= n ->
  drop_refs k (Some (take_refs n r)) = Some (with_ref r (1 + Z.of_nat n - Z.of_nat k)) /\
  drop_refs (S n) (Some (take_refs n r)) = None.
Proof.
  intros Hr Hn Hk.
  assert (forall n, (Z.of_nat n < 2 ^ 32 - 1)%Z -> take_refs n r = with_ref r (1 + Z.of_nat n)) as Ht.
  { clear n k Hn Hk. induction n as [|n IH]; intros Hn.
    - unfold take_refs, with_ref. cbn. destruct r; cbn in *. by subst.
    - unfold take_refs. rewrite Nat.iter_succ. fold (take_refs n r). rewrite IH by lia.
      unfold webroot_ref, with_ref; cbn [r_ref r_fd r_map wr_num_edges r_num_redirect r_num_oid
        r_trie r_redir r_file r_strtab]. rewrite uint_small by lia. f_equal. lia. }
  rewrite Ht by done. clear Ht.
  assert (forall k, k <= n -> drop_refs k (Some (with_ref r (1 + Z.of_nat n))) =
    Some (with_ref r (1 + Z.of_nat n - Z.of_nat k))) as Hd.
  { clear k Hk. induction k as [|k IH]; intros Hk.
    - unfold drop_refs. cbn. do 2 f_equal. lia.
    - unfold drop_refs. rewrite Nat.iter_succ. fold (drop_refs k (Some (with_ref r (1 + Z.of_nat n)))).
      rewrite IH by lia. unfold webroot_unref, with_ref; cbn [r_ref r_fd r_map wr_num_edges
        r_num_redirect r_num_oid r_trie r_redir r_file r_strtab].
      rewrite uint_small by lia. rewrite (proj2 (Z.eqb_neq _ _)) by lia. do 2 f_equal. lia. }
  split; [by apply Hd|]. unfold drop_refs. rewrite Nat.iter_succ.
  fold (drop_refs n (Some (with_ref r (1 + Z.of_nat n)))). rewrite Hd by done.
  unfold webroot_unref, with_ref; cbn [r_ref]. rewrite uint_small by lia.
  by rewrite (proj2 (Z.eqb_eq _ _)) by lia.
Qed.

Example webroot_refcount_witness :
  let r := Webroot 3 1 [] 0 0 0 0 0 0 0 in
  drop_refs 2 (Some (take_refs 2 r)) = Some r /\ drop_refs 3 (Some (take_refs 2 r)) = None.
Proof. apply (webroot_refcount (Webroot 3 1 [] 0 0 0 0 0 0 0) 2 2); [reflexivity|lia|lia]. Defined.
