(* ===== verification/Normalize.v ===== *)
(** * normalize.c: normalising request URIs

    [nads_normalize] copies the URI of a request into the static buffer [uribuf],
    splits off the query string, decodes percent escapes and overlong UTF-8, and
    resolves "." and ".." components, every pass working in place. The buffer
    is a list of bytes and a pass maps the buffer to the buffer: each reads the
    C string at an offset front to back and writes at most as many bytes as it
    has read, so that it never reads a byte it has already overwritten
    ([hex_loop_short] and its likes state this). Characters are [char]s,
    signed on the machines the code is built for. *)

From S2P Require Import Prelude.
Local Open Scope Z_scope.

Definition NADS_MAX_URI : Z := 16384.

Inductive nads_err :=
| NADS_ERR_SUCCESS | NADS_ERR_NO_EMULATION | NADS_ERR_BAD_HEX | NADS_ERR_TRAVERSAL
| NADS_ERR_BAD_UTF8 | NADS_ERR_NULL | NADS_ERR_OOM.

#[export] Instance nads_err_eq_dec : EqDecision nads_err.
Proof. solve_decision. Defined.

Definition NADS_WS_CASE_SENSITIVE : Z := 1.
Definition NADS_WS_MS_UTF16 : Z := 2.
Definition NADS_WS_PERCENT_HACK : Z := 4.
Definition NADS_WS_DOUBLE_HEX : Z := 8.

(** The flags are constant: the passes below are the code with the branches
    taken out that need one of the other three. *)
Definition nads_ws (x : Z) : bool := negb (Z.land NADS_WS_CASE_SENSITIVE x =? 0).

(** ** C strings in a buffer *)

(** Overwrite the buffer at [off]. *)
Definition put (off : nat) (w m : list Z) : list Z := take off m ++ w ++ drop (off + length w) m.

(** ** Percent decoding *)

Definition T_HEX (c : Z) : bool :=
  ((48 <=? c) && (c <=? 57)) || ((97 <=? c) && (c <=? 102)) || ((65 <=? c) && (c <=? 70)).

Definition hexchar (c : Z) : Z :=
  if uint 32 (c - 48) <? 10 then c - 48
  else if uint 32 (c - 97) <? 6 then c - 97 + 10
  else if uint 32 (c - 65) <? 6 then c - 65 + 10
  else 0.

(** The loop of [n_hex]: [hbuf] is [None] in state 0, and the digits seen in state
    1. The results are the bytes written and the error, if any. *)
Fixpoint hex_loop (inp : list Z) (hbuf : option (list Z)) (out : list Z) : list Z * nads_err :=
  match inp with
  | [] => match hbuf with None => (out, NADS_ERR_SUCCESS) | Some _ => (out, NADS_ERR_BAD_HEX) end
  | c :: inp' =>
    match hbuf with
    | None => if c =? 37 then hex_loop inp' (Some []) out else hex_loop inp' None (out ++ [c])
    | Some h =>
      if T_HEX c then
        match h with
        | [] => hex_loop inp' (Some [c]) out
        | h0 :: _ =>
          let d1 := uint 8 (Z.lor (Z.shiftl (hexchar h0) 4) (hexchar c)) in
          if d1 =? 0 then (out, NADS_ERR_NULL) else hex_loop inp' None (out ++ [d1])
        end
      else (out, NADS_ERR_BAD_HEX)
    end
  end.

(** Each pass: the error and the buffer afterwards. *)
Definition n_hex (m : list Z) (off : nat) : nads_err * list Z :=
  let (out, e) := hex_loop (cstr (drop off m)) None [] in
  (e, put off (if decide (e = NADS_ERR_SUCCESS) then out ++ [0] else out) m).

(** ** UTF-8 *)

(** The loop that counts the leading ones of the lead byte, the mask [n] running
    over the list. *)
Fixpoint seq_len (c : Z) (ns : list Z) (len : nat) : nat :=
  match ns with
  | [] => len
  | n :: ns' => if Z.land c n =? 0 then len else seq_len c ns' (S len)
  end.

Definition masks : list Z := [0x40; 0x20; 0x10; 0x08; 0x04; 0x02].

Definition fmask : list Z := [0x1f; 0x0f; 0x07; 0x03; 0x01; 0].

(** The loop of [n_ucs4], from the last byte of the sequence to the first. *)
Fixpoint ucs4_loop (rev_buf : list Z) (first_mask : Z) (s : Z) (n : Z) : Z :=
  match rev_buf with
  | [] => n
  | [b] => Z.lor n (Z.shiftl (Z.land b first_mask) s)
  | b :: rev_buf' =>
    ucs4_loop rev_buf' first_mask (s + 6) (Z.lor n (Z.shiftl (Z.land b 0x3f) s))
  end.

(** [n_ucs4(&n, buf, len)] on [len] bytes; [fmask[len - 2]] is read for the first
    of them. *)
Definition n_ucs4 (buf : list Z) : outcome Z :=
  if (length buf <? 2)%nat then Fault OutOfBounds
  else
    m ← of_option OutOfBounds (fmask !! (length buf - 2)%nat);
    Ret (uint 32 (ucs4_loop (rev buf) m 0 0)).

(** The loop of [n_utf8]: [chr] is [None] in state 0, and the bytes collected with
    the length awaited in state 1. *)
Fixpoint utf8_loop (inp : list Z) (chr : option (list Z * nat)) (out : list Z)
    : outcome (list Z * nads_err) :=
  match inp with
  | [] => Ret (out, match chr with None => NADS_ERR_SUCCESS | Some _ => NADS_ERR_BAD_UTF8 end)
  | c :: inp' =>
    if (sint 8 c =? 0xff) || (sint 8 c =? 0xfe) then Ret (out, NADS_ERR_BAD_UTF8)
    else
      match chr with
      | None =>
        if Z.land c 0x80 =? 0 then utf8_loop inp' None (out ++ [c])
        else utf8_loop inp' (Some ([c], seq_len c masks 1)) out
      | Some (b, len) =>
        if (6 <=? length b)%nat then Fault OutOfBounds
        else
          let b := b ++ [c] in
          if (len <=? length b)%nat then
            ucs4 ← n_ucs4 (take len b);
            if Z.land ucs4 0xffffff00 =? 0
            then utf8_loop inp' None (out ++ [Z.land ucs4 0xff])
            else utf8_loop inp' None (out ++ take len b)
          else utf8_loop inp' (Some (b, len)) out
      end
  end.

Definition n_utf8 (m : list Z) : outcome (nads_err * list Z) :=
  '(out, e) ← utf8_loop (cstr m) None [];
  Ret (e, put 0 (if decide (e = NADS_ERR_SUCCESS) then out ++ [0] else out) m).

(** ** Paths *)

(** The loop of [n_pcount]: [prev] says that [last == in - 1]. The results are
    the string written and the count. *)
Fixpoint pcount_loop (inp : list Z) (prev : bool) (out : list Z) (cnt : nat) : list Z * nat :=
  match inp with
  | [] => (out, cnt)
  | c :: inp' =>
    let c := if c =? 92 then 47 else c in
    if c =? 47 then
      if prev then pcount_loop inp' true out cnt
      else pcount_loop inp' true (out ++ [c]) (S cnt)
    else pcount_loop inp' false (out ++ [c]) cnt
  end.

Definition n_pcount (m : list Z) : nat * list Z :=
  let (out, cnt) := pcount_loop (cstr m) false [] 0 in
  (cnt, put 0 (out ++ [0]) (put 0 ((fun c => if c =? 92 then 47 else c) <$> cstr m) m)).

(** The strings that start after each slash: the array [c]. *)
Fixpoint components (s : list Z) : list (list Z) :=
  match s with
  | [] => []
  | c :: s' => if c =? 47 then cstr ((fun x => if x =? 47 then 0 else x) <$> s') :: components s'
               else components s'
  end.

Definition dot : list Z := [46].
Definition dotdot : list Z := [46; 46].

(** The loop that strips "." and "..": [c[0..out-1]], or none when [out] would go
    below zero. *)
Fixpoint strip (inp : list (list Z)) (c : list (list Z)) : option (list (list Z)) :=
  match inp with
  | [] => Some c
  | x :: inp' =>
    if decide (x = dot) then strip inp' c
    else if decide (x = dotdot) then
      match length c with
      | O => None
      | S out => strip inp' (take out c)
      end
    else strip inp' (c ++ [x])
  end.

(** The loop that joins the components with slashes. *)
Fixpoint rebuild (c : list (list Z)) : list Z :=
  match c with
  | [] => []
  | [x] => x
  | x :: c' => x ++ 47 :: rebuild c'
  end.

Definition n_path (m : list Z) : outcome (nads_err * list Z) :=
  let (x, m) := n_pcount m in
  let s := cstr m in
  let c := components s in
  if negb (x =? length c)%nat then Fault OutOfBounds
  else
    let split := put 0 ((fun b => if b =? 47 then 0 else b) <$> s) m in
    match strip c [] with
    | None => Ret (NADS_ERR_TRAVERSAL, split)
    | Some c =>
      let w := 47 :: rebuild c ++ [0] in
      if (length split <? length w)%nat then Fault OutOfBounds
      else Ret (NADS_ERR_SUCCESS, put 0 w split)
    end.

(** ** Splitting off the query, and the whole *)

Fixpoint split_query (buf : list Z) (out : list Z) : list Z * option nat :=
  match buf with
  | [] => (out, None)
  | c :: buf' =>
    if c =? 63 then (out ++ [0] ++ buf', Some (S (length out)))
    else split_query buf' (out ++ [c])
  end.

(** [n_split(n)]: the buffer, and the offset of the query string in it. *)
Definition n_split (uribuf buf : list Z) : outcome (list Z * option nat) :=
  let (out, query) := split_query buf [] in
  let w := out ++ [0] in
  if (length w <=? length uribuf)%nat then Ret (put 0 w uribuf, query) else Fault OutOfBounds.

Record nads := Nads { n_err : nads_err; n_uribuf : list Z; n_query : option nat }.

(** [nads_normalize] returns [NADS_OK] exactly when the error is
    [NADS_ERR_SUCCESS]; the buffer is what [n->uri] points to afterwards. *)
Definition nads_normalize (uribuf buf : list Z) : outcome nads :=
  '(m, query) ← n_split uribuf buf;
  let '(e, m) := n_hex m 0 in
  if negb (bool_decide (e = NADS_ERR_SUCCESS)) then Ret (Nads e m query)
  else
    '(e, m) ← n_utf8 m;
    if negb (bool_decide (e = NADS_ERR_SUCCESS)) then Ret (Nads e m query)
    else
      '(e, m) ← n_path m;
      if negb (bool_decide (e = NADS_ERR_SUCCESS)) then Ret (Nads e m query)
      else
        match query with
        | None => Ret (Nads NADS_ERR_SUCCESS m query)
        | Some q => let (e, m) := n_hex m q in Ret (Nads e m query)
        end.

Definition n_uri (n : nads) : list Z := cstr (n_uribuf n).

(** ** Buffers *)

Lemma length_put off w m : (off + length w <= length m)%nat -> length (put off w m) = length m.
Proof. intros H. unfold put. rewrite !length_app, length_take, length_drop. lia. Qed.

Lemma put_0 w m : put 0 w m = w ++ drop (length w) m.
Proof. done. Qed.

Lemma cstr_no_zero m : 0 ∉ cstr m.
Proof.
  induction m as [|c m IH]; cbn; [apply not_elem_of_nil|]. destruct (Z.eqb_spec c 0); [apply not_elem_of_nil|].
  set_solver.
Qed.

Lemma cstr_app w r : 0 ∉ w -> cstr (w ++ 0 :: r) = w.
Proof.
  induction w as [|c w IH]; cbn; [done|]. intros H. rewrite (proj2 (Z.eqb_neq _ _)) by set_solver.
  by rewrite IH by set_solver.
Qed.

Lemma length_cstr_app w r : (length (cstr (w ++ 0%Z :: r)) <= length w)%nat.
Proof. induction w as [|c w IH]; cbn; [lia|]. case_match; cbn; lia. Qed.

(** Writing at or behind the terminator of a string leaves it, if what is written
    over the terminator is a terminator. *)
Lemma cstr_put_behind w r off x : 0 ∉ w -> (length w < off)%nat ->
  cstr (put off x (w ++ 0 :: r)) = w.
Proof.
  intros Hw Ho. unfold put. rewrite take_app_ge by lia.
  destruct (off - length w)%nat eqn:E; [lia|]. cbn [take]. rewrite <- app_assoc. by apply cstr_app.
Qed.

(** ** The passes only shorten *)

Lemma hex_loop_short inp : forall h out,
  (length (hex_loop inp h out).1 <= length out + length inp)%nat.
Proof.
  induction inp as [|c inp IH]; intros h out; cbn [hex_loop].
  { case_match; cbn; lia. }
  repeat case_match; cbn [fst length]; try lia;
    (etransitivity; [apply IH|]; rewrite ?length_app; cbn; lia).
Qed.

Lemma utf8_loop_short inp : forall chr out r e, utf8_loop inp chr out = Ret (r, e) ->
  (length r <= length out + match chr with Some (b, _) => length b | None => 0 end + length inp)%nat.
Proof.
  induction inp as [|c inp IH]; intros chr out r e H; cbn [utf8_loop] in H.
  { simplify_eq. lia. }
  destruct (_ || _); [simplify_eq; cbn; lia|].
  destruct chr as [[b len]|].
  - destruct (6 <=? length b)%nat; [done|]. cbv zeta in H.
    destruct (len <=? length (b ++ [c]))%nat.
    + apply outcome_bind_ret in H as (u & _ & H). destruct (Z.land u _ =? 0);
        apply IH in H; rewrite ?length_app, ?length_take in H; cbn in *; rewrite ?length_app in H; cbn in H; lia.
    + apply IH in H. rewrite length_app in H. cbn in *. lia.
  - destruct (Z.land c 128 =? 0); apply IH in H; rewrite ?length_app in H; cbn in *; lia.
Qed.

(** At most one slash in a row. *)
Fixpoint single (prev : bool) (s : list Z) : bool :=
  match s with
  | [] => true
  | c :: s' => if c =? 47 then negb prev && single true s' else single false s'
  end.

Definition slashes (s : list Z) : nat := length (filter (fun c => c = 47) s).

Lemma pcount_loop_spec inp : forall prev out cnt,
  exists o, pcount_loop inp prev out cnt = (out ++ o, (cnt + slashes o)%nat) /\
    single prev o = true /\ (length o <= length inp)%nat /\
    Forall (fun x => x <> 92 /\ (x = 47 \/ x ∈ inp)) o.
Proof.
  induction inp as [|c inp IH]; intros prev out cnt; cbn [pcount_loop]; cbv zeta.
  { exists []. rewrite app_nil_r. cbn. rewrite Nat.add_0_r. by repeat constructor. }
  assert (forall o, Forall (fun x => x <> 92 /\ (x = 47 \/ x ∈ inp)) o ->
    Forall (fun x => x <> 92 /\ (x = 47 \/ x ∈ c :: inp)) o) as Hmono.
  { intros o Ho. eapply Forall_impl; [exact Ho|]. cbn. intros x [? ?]. set_solver. }
  set (d := if c =? 92 then 47 else c).
  assert (d <> 92 /\ (d = 47 \/ d = c)) as [Hd Hdc] by (unfold d; destruct (Z.eqb_spec c 92); lia).
  destruct (Z.eqb_spec d 47) as [E|E]; [destruct prev|].
  - destruct (IH true out cnt) as (o & -> & Hs & Hl & Ho). exists o. split_and!; [done| |cbn; lia|auto].
    destruct o as [|x o]; [done|]. cbn in Hs |- *. by destruct (x =? 47).
  - destruct (IH true (out ++ [d]) (S cnt)) as (o & -> & Hs & Hl & Ho). exists (d :: o).
    rewrite <- app_assoc. cbn [single length]. rewrite (proj2 (Z.eqb_eq _ _) E).
    unfold slashes. rewrite filter_cons_True by done. cbn [length].
    split_and!; [f_equal; unfold slashes; lia|done|lia|]. constructor; [|auto]. set_solver.
  - destruct (IH false (out ++ [d]) cnt) as (o & -> & Hs & Hl & Ho). exists (d :: o).
    rewrite <- app_assoc. cbn [single length]. rewrite (proj2 (Z.eqb_neq _ _) E).
    unfold slashes. rewrite filter_cons_False by done.
    split_and!; [done|done|lia|]. constructor; [|auto]. set_solver.
Qed.

(** ** Components *)

Definition comp_ok (c : list Z) : Prop := Forall (fun x => x <> 0 /\ x <> 47 /\ x <> 92) c.

Definition only_last_empty (l : list (list Z)) : Prop :=
  forall i, l !! i = Some [] -> S i = length l.

(** The total size of components with the slash before each. *)
Definition size (l : list (list Z)) : nat := sum_list_with (fun c => S (length c)) l.

Definition cut (s : list Z) : list Z := cstr ((fun x => if x =? 47 then 0 else x) <$> s).

Lemma components_spec s : Forall (fun x => x <> 0 /\ x <> 92) s ->
  comp_ok (cut s) /\ Forall comp_ok (components s) /\ length (components s) = slashes s /\
  (length (cut s) + size (components s) = length s)%nat.
Proof.
  induction 1 as [|x s [H0 H92] Hs (Hc & Hcs & Hl & Hz)]; [by repeat constructor|].
  unfold cut in *. cbn [components fmap list_fmap cstr]. unfold slashes in *.
  destruct (Z.eqb_spec x 47) as [->|E].
  - rewrite filter_cons_True by done. cbn. split_and!; [constructor|by constructor|by rewrite Hl|].
    unfold size in *. lia.
  - rewrite (proj2 (Z.eqb_neq _ _) H0), filter_cons_False by done. cbn [length].
    split_and!; [by constructor|done|done|lia].
Qed.

Lemma components_empty s : forall prev, single prev s = true -> 0 ∉ s ->
  only_last_empty (components s) /\ (cut s = [] -> s = [] \/ head s = Some 47).
Proof.
  induction s as [|x s IH]; intros prev Hs H0; [split; [by intros i|by left]|].
  cbn [single components] in *. unfold cut in *. cbn [fmap list_fmap cstr].
  destruct (Z.eqb_spec x 47) as [->|E].
  - apply andb_true_iff in Hs as [_ Hs]. destruct (IH true Hs) as [IH1 IH2]; [set_solver|].
    split; [|by right]. intros [|i] Hi; cbn in Hi |- *.
    + injection Hi as Hi. destruct (IH2 Hi) as [->|Hh]; [done|]. destruct s as [|y s]; [done|].
      cbn in Hh. injection Hh as ->. cbn in Hs. done.
    + f_equal. by apply IH1.
  - destruct (IH false Hs) as [IH1 _]; [set_solver|]. split; [done|].
    rewrite (proj2 (Z.eqb_neq x 0)) by set_solver. done.
Qed.

(** ** Stripping *)

Definition plain_comp (c : list Z) : Prop := comp_ok c /\ c <> dot /\ c <> dotdot.

(** A resolved path: no "." or "..", nothing empty but possibly the last. *)
Definition resolved (l : list (list Z)) : Prop := Forall plain_comp l /\ only_last_empty l.

Lemma size_app a b : size (a ++ b) = (size a + size b)%nat.
Proof. unfold size. induction a; cbn; [done|]. rewrite IHa. lia. Qed.

Lemma size_take n l : (size (take n l) <= size l)%nat.
Proof. rewrite <- (take_drop n l) at 2. rewrite size_app. lia. Qed.

Lemma strip_spec inp : forall c r, strip inp c = Some r ->
  Forall comp_ok inp -> only_last_empty inp ->
  Forall plain_comp c -> Forall (fun x => x <> []) c ->
  resolved r /\ (size r <= size c + size inp)%nat.
Proof.
  induction inp as [|x inp IH]; intros c r H Hi He Hc Hn; cbn [strip] in H.
  { simplify_eq. split; [split; [done|]|lia]. intros i Hl. rewrite Forall_lookup in Hn.
    by destruct (Hn i [] Hl). }
  apply Forall_cons in Hi as [Hx Hi].
  assert (only_last_empty inp) as He' by (intros i Hl; specialize (He (S i) Hl); cbn in He; lia).
  assert (size (x :: inp) = S (length x) + size inp)%nat as Hz by done.
  destruct (decide (x = dot)); [|destruct (decide (x = dotdot))].
  - destruct (IH _ _ H) as [? ?]; try done. split; [done|lia].
  - destruct (length c) as [|nc]; [done|].
    destruct (IH _ _ H) as [? Hs]; [done|done|by apply Forall_take|by apply Forall_take|].
    split; [done|]. pose proof (size_take nc c). lia.
  - destruct x as [|y x'] eqn:Ex.
    + assert (inp = []) as -> by (specialize (He 0%nat eq_refl); destruct inp; [done|cbn in He; lia]).
      cbn in H. simplify_eq. split; [split|rewrite size_app; cbn; lia].
      * apply Forall_app. split; [done|]. by apply Forall_singleton.
      * intros i Hl. rewrite length_app; cbn. rewrite Forall_lookup in Hn.
        destruct (decide (i < length c)%nat).
        { rewrite lookup_app_l in Hl by done. by destruct (Hn i [] Hl). }
        apply lookup_lt_Some in Hl. rewrite length_app in Hl. cbn in Hl. lia.
    + rewrite <- Ex in *. destruct (IH _ _ H) as [? ?]; [done|done| | |].
      * apply Forall_app. split; [done|]. by apply Forall_singleton.
      * apply Forall_app. split; [done|]. apply Forall_singleton. by subst.
      * split; [done|]. rewrite size_app in *. cbn in *. lia.
Qed.

(** A climb out of the root is noticed: [strip] fails exactly when some prefix of
    the components has more ".." than names. *)
Definition climbs (l : list (list Z)) : nat := length (filter (fun x => x = dotdot) l).
Definition names (l : list (list Z)) : nat := length (filter (fun x => x <> dot /\ x <> dotdot) l).

Lemma dot_dotdot : dot <> dotdot.
Proof. done. Qed.

Lemma count_cons x l :
  (x = dot -> names (x :: l) = names l /\ climbs (x :: l) = climbs l) /\
  (x = dotdot -> names (x :: l) = names l /\ climbs (x :: l) = S (climbs l)) /\
  (x <> dot -> x <> dotdot -> names (x :: l) = S (names l) /\ climbs (x :: l) = climbs l).
Proof.
  unfold names, climbs. rewrite !filter_cons.
  split_and!; [intros ->|intros ->|intros Hd Hdd]; repeat case_decide; naive_solver.
Qed.

Lemma strip_none inp : forall c, strip inp c = None <->
  exists k, (length c + names (take k inp) < climbs (take k inp))%nat.
Proof.
  induction inp as [|x inp IH]; intros c; cbn [strip].
  { split; [done|]. intros [k Hk]. rewrite take_nil in Hk.
    change (climbs []) with 0%nat in Hk. lia. }
  assert (forall (P : nat -> Prop), ~ P 0%nat -> (exists k, P k) <-> exists k, P (S k)) as Hex.
  { intros P H0. split; [intros [[|k] ?]; [done|eauto]|intros [k ?]; eauto]. }
  rewrite Hex by (cbn [take]; change (climbs []) with 0%nat; lia). cbn [take].
  destruct (decide (x = dot)) as [Hd|Hd]; [|destruct (decide (x = dotdot)) as [Hdd|Hdd]].
  - rewrite IH. f_equiv. intros k. destruct (proj1 (count_cons x (take k inp)) Hd) as [-> ->]. done.
  - assert (forall k, names (x :: take k inp) = names (take k inp) /\
      climbs (x :: take k inp) = S (climbs (take k inp))) as Hk by (intros; by apply count_cons).
    destruct (length c) as [|nc] eqn:En.
    + split; [|done]. intros _. exists 0%nat. destruct (Hk 0%nat) as [-> ->]. rewrite take_0.
      change (names []) with 0%nat. lia.
    + rewrite IH, length_take. f_equiv. intros k. destruct (Hk k) as [-> ->]. lia.
  - rewrite IH, length_app. f_equiv. intros k.
    destruct (proj2 (proj2 (count_cons x (take k inp))) Hd Hdd) as [-> ->]. cbn. lia.
Qed.

Lemma rebuild_size l : l <> [] -> S (length (rebuild l)) = size l.
Proof.
  induction l as [|x l IH]; [done|]. intros _. destruct l as [|y l]; [cbn; lia|].
  change (rebuild (x :: y :: l)) with (x ++ 47 :: rebuild (y :: l)).
  rewrite length_app. cbn [length]. rewrite IH by done.
  change (size (x :: y :: l)) with (S (length x) + size (y :: l))%nat. lia.
Qed.

Lemma rebuild_no_zero l : Forall plain_comp l -> 0 ∉ rebuild l.
Proof.
  induction 1 as [|x l [Hx _] Hl IH]; [apply not_elem_of_nil|].
  assert (0 ∉ x) as Hx0.
  { intros Hin. unfold comp_ok in Hx. rewrite Forall_forall in Hx. by apply Hx in Hin as [? _]. }
  destruct l as [|y l]; [done|]. change (rebuild (x :: y :: l)) with (x ++ 47 :: rebuild (y :: l)).
  set_solver.
Qed.

(** ** The passes on buffers *)

Lemma cstr_put_le w m : (length (cstr (put 0 (w ++ [0%Z]) m)) <= length w)%nat.
Proof. rewrite put_0, <- app_assoc. apply length_cstr_app. Qed.

Lemma n_hex_shorter m m' : n_hex m 0 = (NADS_ERR_SUCCESS, m') ->
  (length (cstr m') <= length (cstr m))%nat.
Proof.
  unfold n_hex. rewrite drop_0. pose proof (hex_loop_short (cstr m) None []) as Hs.
  destruct (hex_loop _ _ _) as [out e]. intros [= -> <-]. rewrite decide_True by done.
  etransitivity; [apply cstr_put_le|exact Hs].
Qed.

Lemma n_utf8_shorter m m' : n_utf8 m = Ret (NADS_ERR_SUCCESS, m') ->
  (length (cstr m') <= length (cstr m))%nat.
Proof.
  unfold n_utf8. intros H. apply outcome_bind_ret in H as ([out e] & Hl & H).
  injection H as -> <-. rewrite decide_True by done.
  apply utf8_loop_short in Hl. etransitivity; [apply cstr_put_le|]. cbn in Hl. lia.
Qed.

Definition slashed (m : list Z) : list Z := (pcount_loop (cstr m) false [] 0).1.

Lemma slashed_spec m :
  Forall (fun x => x <> 0 /\ x <> 92) (slashed m) /\ single false (slashed m) = true /\
  (length (slashed m) <= length (cstr m))%nat /\
  pcount_loop (cstr m) false [] 0 = (slashed m, slashes (slashed m)).
Proof.
  unfold slashed. destruct (pcount_loop_spec (cstr m) false [] 0) as (o & -> & Hs & Hl & Ho).
  cbn [fst app]. split_and!; [|done|done|done]. eapply Forall_impl; [exact Ho|].
  intros x [? [->|Hx]]; [done|]. split; [|done]. intros ->. by apply (cstr_no_zero m).
Qed.

Definition split_slashes (m : list Z) : list Z :=
  put 0 ((fun b => if b =? 47 then 0 else b) <$> slashed m)
    (put 0 (slashed m ++ [0]) (put 0 ((fun c => if c =? 92 then 47 else c) <$> cstr m) m)).

(** [n_path] in terms of the components: it never overruns the array [c]. *)
Lemma n_path_cases m :
  n_path m =
  match strip (components (slashed m)) [] with
  | None => Ret (NADS_ERR_TRAVERSAL, split_slashes m)
  | Some c =>
    let w := 47 :: rebuild c ++ [0] in
    if (length (split_slashes m) <? length w)%nat then Fault OutOfBounds
    else Ret (NADS_ERR_SUCCESS, put 0 w (split_slashes m))
  end.
Proof.
  destruct (slashed_spec m) as (Hz & _ & _ & Hp). unfold n_path, n_pcount. rewrite Hp.
  assert (0 ∉ slashed m) as H0.
  { intros Hin. rewrite Forall_forall in Hz. by apply Hz in Hin as [? _]. }
  assert (cstr (put 0 (slashed m ++ [0]) (put 0 ((fun c => if c =? 92 then 47 else c) <$> cstr m) m)) =
    slashed m) as -> by (rewrite put_0, <- app_assoc; by apply cstr_app).
  destruct (components_spec _ Hz) as (_ & _ & Hl & _). rewrite Hl, Nat.eqb_refl. cbn [negb].
  destruct (strip _ _); done.
Qed.

Lemma n_path_resolves m m' : n_path m = Ret (NADS_ERR_SUCCESS, m') ->
  exists r post, m' = 47 :: rebuild r ++ 0 :: post /\ resolved r /\
    strip (components (slashed m)) [] = Some r /\
    (r = [] \/ S (length (rebuild r)) <= length (cstr m))%nat.
Proof.
  destruct (slashed_spec m) as (Hz & Hs & Hlen & _). rewrite n_path_cases.
  destruct (strip _ []) as [r|] eqn:E; [|done]. cbv zeta. case_match; [done|]. intros [= <-].
  destruct (components_spec _ Hz) as (_ & Hok & _ & Hsz).
  destruct (components_empty _ _ Hs) as [He _].
  { intros Hin. rewrite Forall_forall in Hz. by apply Hz in Hin as [? _]. }
  destruct (strip_spec _ _ _ E Hok He) as [Hr Hsize]; [constructor|constructor|].
  exists r. rewrite put_0. eexists. split; [cbn [app]; by rewrite <- app_assoc|].
  split_and!; [done|done|]. destruct (decide (r = [])) as [|Hne]; [by left|right].
  rewrite rebuild_size by done. cbn in Hsize. lia.
Qed.

Lemma split_query_spec buf : forall out w q, split_query buf out = (w, q) ->
  match q with
  | None => w = out ++ buf
  | Some q => exists before after, w = before ++ [0] ++ after /\ q = S (length before)
  end.
Proof.
  induction buf as [|c buf IH]; intros out w q H; cbn [split_query] in H.
  { simplify_eq. by rewrite app_nil_r. }
  destruct (c =? 63).
  - injection H as <- <-. by exists out, buf.
  - apply IH in H. destruct q; [done|]. by rewrite H, <- app_assoc.
Qed.

Lemma uri_survives_query r post q e m' : 0 ∉ rebuild r ->
  (r = [] /\ 1 <= q \/ S (length (rebuild r)) < q)%nat ->
  n_hex (47 :: rebuild r ++ 0 :: post) q = (e, m') -> cstr m' = 47 :: rebuild r.
Proof.
  intros H0 Hq H. unfold n_hex in H. destruct (hex_loop _ _ _) as [out e'] eqn:E. injection H as <- <-.
  change (47 :: rebuild r ++ 0 :: post) with ((47 :: rebuild r) ++ 0 :: post) in *.
  destruct (decide (r = [] /\ q = 1%nat)) as [[-> ->]|Hne].
  - cbn in E. injection E as <- <-. done.
  - apply cstr_put_behind; [set_solver|]. cbn [length]. destruct Hq as [[-> ?]|?]; cbn; [|lia].
    assert (q <> 1%nat) by naive_solver. lia.
Qed.

(** ** Properties *)

(** C12: whenever [nads_normalize] succeeds, the URI it leaves is a slash followed by
    components joined with single slashes, none of them "." or "..", none
    containing a slash, a backslash or a NUL, and none empty but possibly the
    last. This holds however the components were encoded in the request. *)
Theorem normalize_resolves uribuf buf n :
  nads_normalize uribuf buf = Ret n -> n_err n = NADS_ERR_SUCCESS ->
  exists r, n_uri n = 47 :: rebuild r /\ resolved r.
Proof.
  unfold nads_normalize. intros H He.
  apply outcome_bind_ret in H as ([m0 query] & Hsplit & H).
  destruct (n_hex m0 0) as [e1 m1] eqn:E1. destruct (decide (e1 = NADS_ERR_SUCCESS)) as [->|].
  2: { rewrite bool_decide_eq_false_2 in H by done. by simplify_eq/=. }
  rewrite bool_decide_eq_true_2 in H by done. cbn [negb] in H.
  apply outcome_bind_ret in H as ([e2 m2] & E2 & H). destruct (decide (e2 = NADS_ERR_SUCCESS)) as [->|].
  2: { rewrite bool_decide_eq_false_2 in H by done. by simplify_eq/=. }
  rewrite bool_decide_eq_true_2 in H by done. cbn [negb] in H.
  apply outcome_bind_ret in H as ([e3 m3] & E3 & H). destruct (decide (e3 = NADS_ERR_SUCCESS)) as [->|].
  2: { rewrite bool_decide_eq_false_2 in H by done. by simplify_eq/=. }
  rewrite bool_decide_eq_true_2 in H by done. cbn [negb] in H.
  apply n_path_resolves in E3 as (r & post & -> & Hr & _ & Hlen).
  apply n_hex_shorter in E1. apply n_utf8_shorter in E2.
  assert (0 ∉ rebuild r) as H0 by by apply rebuild_no_zero, Hr.
  exists r. split; [|done]. unfold n_uri.
  destruct query as [q|]; [|injection H as <-; cbn [n_uribuf]; apply (cstr_app (47 :: rebuild r)); set_solver].
  destruct (n_hex _ q) as [e4 m4] eqn:E4. injection H as <-. cbn [n_uribuf].
  eapply uri_survives_query; [done| |exact E4].
  unfold n_split in Hsplit. destruct (split_query buf []) as [w q'] eqn:Eq.
  destruct (_ <=? _)%nat; [|done]. injection Hsplit as <- ->.
  apply split_query_spec in Eq as (before & after & -> & ->).
  assert (length (cstr (put 0 ((before ++ [0%Z] ++ after) ++ [0%Z]) uribuf)) <= length before)%nat.
  { rewrite put_0, <- !app_assoc. apply length_cstr_app. }
  destruct Hlen as [->|]; [left; split; [done|lia]|right; lia].
Qed.

Definition sample_uribuf : list Z := replicate 64 7.

Example normalize_resolves_witness :
  exists n, nads_normalize sample_uribuf (lit "/a/./%2e%2e//b\c/?x=%41") = Ret n /\
    n_err n = NADS_ERR_SUCCESS /\ exists r, n_uri n = 47 :: rebuild r /\ resolved r.
Proof.
  destruct (nads_normalize sample_uribuf (lit "/a/./%2e%2e//b\c/?x=%41")) as [n|] eqn:E;
    [|vm_compute in E; discriminate E].
  assert (n_err n = NADS_ERR_SUCCESS) as He by (vm_compute in E; by injection E as <-).
  exists n. split; [reflexivity|]. split; [exact He|].
  apply (normalize_resolves sample_uribuf (lit "/a/./%2e%2e//b\c/?x=%41") n E He).
Defined.

Lemma length_split_slashes m : (length (cstr m) < length m)%nat -> length (split_slashes m) = length m.
Proof.
  intros Hm. destruct (slashed_spec m) as (_ & _ & Hl & _). unfold split_slashes.
  assert (length (put 0 ((fun c => if c =? 92 then 47 else c) <$> cstr m) m) = length m) as H1
    by (rewrite length_put; [done|rewrite length_fmap; lia]).
  assert (forall w m', (length w <= length m')%nat -> length m' = length m ->
    length (put 0 w m') = length m) as Hput by (intros; rewrite length_put; [done|lia]).
  apply Hput; [rewrite length_fmap|]; rewrite Hput; rewrite ?H1, ?length_app; cbn [length]; lia.
Qed.

(** C15: on a buffer holding a terminated string, [n_path] returns: with a traversal
    error exactly when some initial part of the path's components has more ".."
    than names, so that resolving it would leave the root, and with success
    otherwise. *)
Theorem n_path_traversal m : (length (cstr m) < length m)%nat -> (2 <= length m)%nat ->
  let comps := components (slashed m) in
  let climbs_out := (exists k, names (take k comps) < climbs (take k comps))%nat in
  exists e m', n_path m = Ret (e, m') /\
    (e = NADS_ERR_TRAVERSAL /\ climbs_out \/ e = NADS_ERR_SUCCESS /\ ~ climbs_out).
Proof.
  intros Hm H2 comps climbs_out. pose proof (strip_none comps []) as Hn. cbn [length Nat.add] in Hn.
  fold climbs_out in Hn. destruct (strip comps []) as [r|] eqn:E.
  - destruct (n_path m) as [[e m']|] eqn:Ep.
    + exists e, m'. split; [done|right]. split; [|naive_solver]. rewrite n_path_cases in Ep.
      fold comps in Ep. rewrite E in Ep. cbv zeta in Ep. case_match; by simplify_eq.
    + exfalso. rewrite n_path_cases in Ep. fold comps in Ep. rewrite E in Ep. cbv zeta in Ep.
      destruct (Nat.ltb_spec (length (split_slashes m)) (length (47 :: rebuild r ++ [0]))) as [Hlt|]; [|done].
      rewrite length_split_slashes in Hlt by done. cbn [length] in Hlt. rewrite length_app in Hlt.
      cbn [length] in Hlt. destruct (slashed_spec m) as (Hz & Hs & Hl & _).
      destruct (components_spec _ Hz) as (_ & Hok & _ & Hsz).
      destruct (components_empty _ _ Hs) as [He _].
      { intros Hin. rewrite Forall_forall in Hz. by apply Hz in Hin as [? _]. }
      destruct (strip_spec _ _ _ E Hok He) as [_ Hsize]; [constructor|constructor|].
      destruct (decide (r = [])) as [->|Hne]; [cbn in Hlt; lia|].
      pose proof (rebuild_size r Hne). fold comps in Hsz. cbn in Hsize. lia.
  - do 2 eexists. split; [|left; split; [done|by apply Hn]].
    rewrite n_path_cases. fold comps. by rewrite E.
Qed.

Example n_path_traversal_witness :
  exists m', n_path (lit "/a/../../b" ++ [0]) = Ret (NADS_ERR_TRAVERSAL, m').
Proof.
  destruct (n_path_traversal (lit "/a/../../b" ++ [0])) as (e & m' & H & Hc); [by_decide|by_decide|].
  exists m'. rewrite H. destruct Hc as [[-> _]|[_ Hc]]; [reflexivity|].
  exfalso. apply Hc. exists 3%nat. vm_compute. lia.
Defined.

(** *** Percent decoding *)

(** A URI character as a client may write it: as itself, or as a percent escape in
    either case of hexadecimal digits. *)
Inductive item := Literal (c : Z) | Escaped (c : Z) (up1 up2 : bool).

Definition item_char (i : item) : Z := match i with Literal c | Escaped c _ _ => c end.

Definition hexdigit (up : bool) (d : Z) : Z :=
  if d <? 10 then 48 + d else if up then 55 + d else 87 + d.

Definition print_item (i : item) : list Z :=
  match i with
  | Literal c => [c]
  | Escaped c u1 u2 => [37; hexdigit u1 (c / 16); hexdigit u2 (c mod 16)]
  end.

Definition item_ok (i : item) : Prop :=
  match i with
  | Literal c => 0 < c < 256 /\ c <> 37
  | Escaped c _ _ => 0 < c < 256
  end.

Lemma escape_ok c u1 u2 : 0 < c < 256 ->
  T_HEX (hexdigit u1 (c / 16)) = true /\ T_HEX (hexdigit u2 (c mod 16)) = true /\
  uint 8 (Z.lor (Z.shiftl (hexchar (hexdigit u1 (c / 16))) 4) (hexchar (hexdigit u2 (c mod 16)))) = c.
Proof.
  intros Hc.
  assert (T_HEX (hexdigit u1 (c / 16)) && T_HEX (hexdigit u2 (c mod 16)) &&
    (uint 8 (Z.lor (Z.shiftl (hexchar (hexdigit u1 (c / 16))) 4) (hexchar (hexdigit u2 (c mod 16)))) =? c)
    = true) as H.
  { revert c Hc. cut (forall c, 0 <= c < 256 -> T_HEX (hexdigit u1 (c / 16)) &&
      T_HEX (hexdigit u2 (c mod 16)) && (uint 8 (Z.lor (Z.shiftl (hexchar (hexdigit u1 (c / 16))) 4)
      (hexchar (hexdigit u2 (c mod 16)))) =? c) = true); [intros H c Hc; apply H; lia|].
    apply byte_ind. destruct u1, u2; vm_compute; reflexivity. }
  apply andb_true_iff in H as [H H3]. apply andb_true_iff in H as [H1 H2].
  split_and!; [done|done|lia].
Qed.

Lemma hex_loop_items l : forall out, Forall item_ok l ->
  hex_loop (concat (print_item <$> l)) None out = (out ++ (item_char <$> l), NADS_ERR_SUCCESS).
Proof.
  induction l as [|i l IH]; intros out Hl; [by rewrite app_nil_r|].
  apply Forall_cons in Hl as [Hi Hl]. destruct i as [c|c u1 u2]; cbn [fmap list_fmap concat print_item app].
  - destruct Hi as [_ Hi]. cbn [hex_loop]. rewrite (proj2 (Z.eqb_neq _ _) Hi), IH by done.
    by rewrite <- app_assoc.
  - cbn in Hi. destruct (escape_ok c u1 u2 Hi) as (H1 & H2 & H3). cbn [hex_loop]. cbv zeta.
    rewrite Z.eqb_refl, H1, H2, H3, (proj2 (Z.eqb_neq c 0)), IH by (done || lia).
    by rewrite <- app_assoc.
Qed.

(** C19: percent decoding inverts percent encoding: however a client chooses to
    escape the characters of a string (any subset of them, as long as a literal
    percent sign is escaped, with digits in either case), [n_hex] leaves the
    string itself in the buffer. *)
Theorem n_hex_decodes l m : Forall item_ok l ->
  cstr m = concat (print_item <$> l) ->
  exists m', n_hex m 0 = (NADS_ERR_SUCCESS, m') /\ cstr m' = item_char <$> l.
Proof.
  intros Hl Hm. unfold n_hex. rewrite drop_0, Hm, (hex_loop_items l []) by done.
  rewrite decide_True by done. eexists. split; [done|]. rewrite put_0, <- app_assoc. apply cstr_app.
  cbn. intros (i & Hi & Hin)%list_elem_of_fmap. rewrite Forall_forall in Hl. specialize (Hl i Hin).
  destruct i; cbn in Hi, Hl; lia.
Qed.

Example n_hex_decodes_witness :
  exists m', n_hex (lit "/%41%2F%2fb" ++ [0; 9]) 0 = (NADS_ERR_SUCCESS, m') /\ cstr m' = lit "/A//b".
Proof.
  apply (n_hex_decodes [Literal 47; Escaped 65 false true; Escaped 47 true true;
    Escaped 47 false false; Literal 98]); [|reflexivity].
  repeat constructor; cbn; lia.
Defined.

(** *** UTF-8 *)

(** [k] continuation bytes are still awaited: every lead byte met is ASCII or
    starts a sequence of two to six bytes. *)
Fixpoint leads_ok (k : nat) (s : list Z) : bool :=
  match s with
  | [] => true
  | c :: s' =>
    match k with
    | S k => leads_ok k s'
    | O => if c <? 0x80 then leads_ok 0 s'
           else (0xc0 <=? c) && (c <? 0xfe) &&
                leads_ok (seq_len c masks 1 - 1) s'
    end
  end.

Lemma lead_facts c : 0 <= c < 256 ->
  ((sint 8 c =? 0xff) || (sint 8 c =? 0xfe)) = false /\
  (Z.land c 0x80 =? 0) = (c <? 0x80) /\
  (0xc0 <= c < 0xfe -> (2 <= seq_len c masks 1 <= 6)%nat).
Proof.
  intros Hc.
  assert (negb ((sint 8 c =? 0xff) || (sint 8 c =? 0xfe)) &&
    Bool.eqb (Z.land c 0x80 =? 0) (c <? 0x80) &&
    implb ((0xc0 <=? c) && (c <? 0xfe))
      ((2 <=? seq_len c masks 1)%nat &&
       (seq_len c masks 1 <=? 6)%nat) = true) as H.
  { revert c Hc. apply byte_ind. vm_compute. reflexivity. }
  apply andb_true_iff in H as [H H3]. apply andb_true_iff in H as [H1 H2].
  split_and!; [by apply negb_true_iff|by apply eqb_prop|]. intros Hr.
  replace ((0xc0 <=? c) && (c <? 0xfe)) with true in H3 by lia. cbn [implb] in H3.
  apply andb_true_iff in H3 as [H3 H4]. apply Nat.leb_le in H3, H4. done.
Qed.

Lemma n_ucs4_ok b : (2 <= length b <= 7)%nat -> exists u, n_ucs4 b = Ret u.
Proof.
  intros Hb. unfold n_ucs4. rewrite (proj2 (Nat.ltb_ge _ _)) by lia.
  destruct (lookup_lt_is_Some_2 fmask (length b - 2)%nat) as [m ->]; [cbn; lia|]. cbn. eauto.
Qed.

Lemma utf8_loop_safe s : forall chr out, bytes_ok s ->
  match chr with
  | None => leads_ok 0 s = true
  | Some (b, len) => (0 < length b < len)%nat /\ (2 <= len <= 6)%nat /\
      leads_ok (len - length b) s = true
  end -> exists r, utf8_loop s chr out = Ret r.
Proof.
  induction s as [|c s IH]; intros chr out Hb H; cbn [utf8_loop]; [eauto|].
  apply Forall_cons in Hb as [Hc Hb]. apply is_byte_spec in Hc.
  destruct (lead_facts c Hc) as (-> & -> & Hlen). destruct chr as [[b len]|].
  - destruct H as (H1 & H2 & H3). rewrite (proj2 (Nat.leb_gt _ _)) by lia. cbv zeta.
    destruct (Nat.leb_spec len (length (b ++ [c]))) as [Hle|Hgt]; rewrite length_app in *; cbn in *.
    + destruct (n_ucs4_ok (take len (b ++ [c]))) as [u ->]; [rewrite length_take, length_app; cbn; lia|].
      replace (len - length b)%nat with 1%nat in H3 by lia. cbn in H3. run.
      destruct (Z.land u 0xffffff00 =? 0); by apply IH.
    + apply IH; [done|]. rewrite length_app. cbn. split_and!; [lia|lia|lia|lia|].
      replace (len - length b)%nat with (S (len - (length b + 1))) in H3 by lia. done.
  - cbn [leads_ok] in H. destruct (c <? 0x80) eqn:E; [by apply IH|].
    apply andb_true_iff in H as [H H3]. apply IH; [done|]. specialize (Hlen ltac:(lia)).
    cbn [length].
    split_and!; [lia|lia|lia|lia|done].
Qed.

(** [n_utf8] never reads or writes outside its arrays on a string whose every
    lead byte is ASCII or between 0xC0 and 0xFD; complete or truncated sequences and
    wrong continuation bytes do no harm. *)
Theorem n_utf8_safe m : bytes_ok m -> leads_ok 0 (cstr m) = true ->
  exists e m', n_utf8 m = Ret (e, m').
Proof.
  intros Hb Hl. unfold n_utf8.
  destruct (utf8_loop_safe (cstr m) None []) as [[out e] ->]; [|done|cbn; eauto].
  clear Hl. induction Hb as [|c m Hc Hb IH]; [constructor|]. cbn. case_match; [constructor|by constructor].
Qed.

Example n_utf8_safe_witness :
  exists e m', n_utf8 ([47; 0xe2; 0x82; 0xac; 97; 0xc3; 98; 0xf0; 1; 0] ++ [0x80]) = Ret (e, m').
Proof. apply n_utf8_safe; by_decide. Defined.

(** a stray continuation byte followed by anything makes [n_ucs4] read before the
    start of its mask table, and the lead bytes 0xFE and 0xFF, which the code means
    to reject, make [n_utf8] write past the end of [chr] once six more bytes
    follow. *)
Theorem n_utf8_faults pre c rest m : Forall (fun x => 0 < x < 0x80) pre ->
  bytes_ok rest -> cstr m = pre ++ c :: rest ->
  (0x80 <= c < 0xc0 /\ rest <> [] \/ (c = 0xfe \/ c = 0xff) /\ (6 <= length rest)%nat) ->
  n_utf8 m = Fault OutOfBounds.
Proof.
  intros Hpre Hb Hm Hc. unfold n_utf8. rewrite Hm.
  cut (forall out, utf8_loop (pre ++ c :: rest) None out = Fault OutOfBounds); [intros H; by rewrite H|].
  clear Hm.
  induction Hpre as [|x pre Hx Hpre IH]; intros out.
  - cbn [app utf8_loop].
    assert (0 <= c < 256) as Hcb by lia.
    destruct (lead_facts c Hcb) as (-> & -> & _).
    rewrite (proj2 (Z.ltb_ge c 0x80)) by lia.
    destruct Hc as [[Hc Hr]|[Hc Hr]].
    + assert (seq_len c masks 1 = 1%nat) as ->.
      { assert (implb ((0x80 <=? c) && (c <? 0xc0))
          (seq_len c masks 1 =? 1)%nat = true) as H.
        { revert c Hcb Hc. cut (forall c, 0 <= c < 256 -> implb ((0x80 <=? c) && (c <? 0xc0))
            (seq_len c masks 1 =? 1)%nat = true); [auto|].
          apply byte_ind. vm_compute. reflexivity. }
        replace ((0x80 <=? c) && (c <? 0xc0)) with true in H by lia. cbn [implb] in H. by apply Nat.eqb_eq. }
      destruct rest as [|d rest]; [done|]. apply Forall_cons in Hb as [Hd _]. apply is_byte_spec in Hd.
      cbn [utf8_loop]. by destruct (lead_facts d Hd) as (-> & _ & _).
    + assert (seq_len c masks 1 = 7%nat) as -> by by destruct Hc as [->| ->].
      destruct rest as [|x1 [|x2 [|x3 [|x4 [|x5 [|x6 rest]]]]]]; cbn in Hr; try lia.
      rewrite !Forall_cons, !is_byte_spec in Hb. destruct Hb as (B1 & B2 & B3 & B4 & B5 & B6 & _).
      cbn [utf8_loop].
      destruct (lead_facts x1 B1) as (-> & _ & _), (lead_facts x2 B2) as (-> & _ & _),
        (lead_facts x3 B3) as (-> & _ & _), (lead_facts x4 B4) as (-> & _ & _),
        (lead_facts x5 B5) as (-> & _ & _), (lead_facts x6 B6) as (-> & _ & _). done.
  - cbn [app utf8_loop]. destruct (lead_facts x ltac:(lia)) as (-> & -> & _).
    rewrite (proj2 (Z.ltb_lt _ _)) by lia. apply IH.
Qed.

Example n_utf8_faults_witness : n_utf8 (lit "/" ++ [0x80; 97; 0]) = Fault OutOfBounds.
Proof.
  apply (n_utf8_faults (lit "/") 0x80 [97]); [repeat constructor; lia|by_decide|reflexivity|].
  left. split; [lia|discriminate].
Defined.

(** the characters U+0080 to U+00FF do not stay as they are: their two-byte
    sequences are replaced by the single byte of their code, which is not
    UTF-8. *)
Theorem n_utf8_latin1 u post : 0x80 <= u < 0x100 ->
  exists m', n_utf8 ([0xc0 + u / 64; 0x80 + u mod 64; 0] ++ post) = Ret (NADS_ERR_SUCCESS, m') /\
    cstr m' = [u].
Proof.
  intros Hu.
  assert (cstr ([0xc0 + u / 64; 0x80 + u mod 64; 0] ++ post) = [0xc0 + u / 64; 0x80 + u mod 64]) as Hc.
  { apply (cstr_app [0xc0 + u / 64; 0x80 + u mod 64]). pose proof (Z.mod_pos_bound u 64).
    pose proof (Z.div_pos u 64). rewrite !not_elem_of_cons. split_and!; [lia|lia|apply not_elem_of_nil]. }
  assert (bool_decide (utf8_loop [0xc0 + u / 64; 0x80 + u mod 64] None [] =
    Ret ([u], NADS_ERR_SUCCESS)) = true) as H%bool_decide_eq_true_1.
  { assert (implb (0x80 <=? u) (bool_decide (utf8_loop [0xc0 + u / 64; 0x80 + u mod 64] None [] =
      Ret ([u], NADS_ERR_SUCCESS))) = true) as H.
    { revert u Hu Hc. cut (forall u, 0 <= u < 256 -> implb (0x80 <=? u)
        (bool_decide (utf8_loop [0xc0 + u / 64; 0x80 + u mod 64] None [] =
          Ret ([u], NADS_ERR_SUCCESS))) = true); [intros H u Hu _; apply H; lia|].
      apply byte_ind. vm_compute. reflexivity. }
    by replace (0x80 <=? u) with true in H by lia. }
  unfold n_utf8. rewrite Hc, H. run. rewrite decide_True by done.
  eexists. split; [done|]. rewrite put_0, <- app_assoc. apply cstr_app. set_solver by lia.
Qed.

Example n_utf8_latin1_witness :
  exists m', n_utf8 ([0xc3; 0xa9; 0] ++ []) = Ret (NADS_ERR_SUCCESS, m') /\ cstr m' = [0xe9].
Proof. apply (n_utf8_latin1 0xe9 []). lia. Defined.

(** *** Paths that need no normalising *)

(** Characters no pass rewrites: 7-bit, and not one of the four special ones. *)
Definition unreserved (x : Z) : Prop := 0 < x < 0x80 /\ x <> 37 /\ x <> 63 /\ x <> 92.

Lemma hex_loop_id s : forall out, Forall unreserved s ->
  hex_loop s None out = (out ++ s, NADS_ERR_SUCCESS).
Proof.
  induction s as [|x s IH]; intros out Hs; cbn [hex_loop]; [by rewrite app_nil_r|].
  apply Forall_cons in Hs as [(_ & Hx & _) Hs]. rewrite (proj2 (Z.eqb_neq _ _) Hx), IH by done.
  by rewrite <- app_assoc.
Qed.

Lemma utf8_loop_id s : forall out, Forall unreserved s ->
  utf8_loop s None out = Ret (out ++ s, NADS_ERR_SUCCESS).
Proof.
  induction s as [|x s IH]; intros out Hs; cbn [utf8_loop]; [by rewrite app_nil_r|].
  apply Forall_cons in Hs as [(Hx & _) Hs]. destruct (lead_facts x) as (-> & -> & _); [lia|].
  rewrite (proj2 (Z.ltb_lt _ _)), IH by (done || lia). by rewrite <- app_assoc.
Qed.

Lemma pcount_loop_id s : forall prev out cnt, Forall unreserved s -> single prev s = true ->
  (pcount_loop s prev out cnt).1 = out ++ s.
Proof.
  induction s as [|x s IH]; intros prev out cnt Hs Hp; cbn [pcount_loop single] in *; [by rewrite app_nil_r|].
  apply Forall_cons in Hs as [(_ & _ & _ & Hx) Hs]. cbv zeta. rewrite (proj2 (Z.eqb_neq _ _) Hx).
  destruct (x =? 47).
  - apply andb_true_iff in Hp as [Hp1 Hp]. destruct prev; [done|]. rewrite IH by done. by rewrite <- app_assoc.
  - rewrite IH by done. by rewrite <- app_assoc.
Qed.

Lemma split_query_id s : forall out, Forall unreserved s -> split_query s out = (out ++ s, None).
Proof.
  induction s as [|x s IH]; intros out Hs; cbn [split_query]; [by rewrite app_nil_r|].
  apply Forall_cons in Hs as [(_ & _ & Hx & _) Hs]. rewrite (proj2 (Z.eqb_neq _ _) Hx), IH by done.
  by rewrite <- app_assoc.
Qed.

Lemma cut_app x r : comp_ok x -> cut (x ++ 47 :: r) = x /\ cut x = x /\
  components (x ++ 47 :: r) = components (47 :: r) /\ components x = [].
Proof.
  unfold cut. induction 1 as [|y x (H0 & H47 & _) Hx (IH1 & IH2 & IH3 & IH4)]; [done|].
  cbn [app fmap list_fmap cstr components]. rewrite (proj2 (Z.eqb_neq _ _) H47), (proj2 (Z.eqb_neq _ _) H0).
  by rewrite IH1, IH2.
Qed.

Lemma components_rebuild r : Forall comp_ok r -> r <> [] ->
  components (47 :: rebuild r) = r.
Proof.
  induction 1 as [|x r Hx Hr IH]; [done|]. intros _. destruct r as [|y r].
  - destruct (cut_app x [] Hx) as (_ & Hc & _ & Hn). cbn [rebuild components]. unfold cut in Hc.
    by rewrite Z.eqb_refl, Hc, Hn.
  - change (rebuild (x :: y :: r)) with (x ++ 47 :: rebuild (y :: r)).
    destruct (cut_app x (rebuild (y :: r)) Hx) as (Hc & _ & Hcs & _). unfold cut in Hc.
    transitivity (x :: components (x ++ 47 :: rebuild (y :: r))).
    { cbn [components]. by rewrite Z.eqb_refl, Hc. }
    f_equal. rewrite Hcs. by apply IH.
Qed.

Lemma single_app x r : comp_ok x -> forall prev, (prev = true -> x <> []) ->
  single prev (x ++ 47 :: r) = single true r /\ single prev x = true.
Proof.
  induction 1 as [|y x (_ & H47 & _) Hx IH]; intros prev Hp; cbn.
  - destruct prev; [by destruct Hp|done].
  - rewrite (proj2 (Z.eqb_neq _ _) H47). destruct (IH false) as [-> ->]; done.
Qed.

Lemma single_rebuild r : Forall comp_ok r -> only_last_empty r -> single true (rebuild r) = true.
Proof.
  induction 1 as [|x r Hx Hr IH]; [done|]. intros He.
  assert (only_last_empty r) as He' by (intros i Hi; specialize (He (S i) Hi); cbn in He; lia).
  destruct r as [|y r]; [destruct x as [|z x]; [done|]; by apply (single_app (z :: x) [])|].
  change (rebuild (x :: y :: r)) with (x ++ 47 :: rebuild (y :: r)).
  destruct (single_app x (rebuild (y :: r)) Hx true) as [-> _]; [|by apply IH].
  intros _ ->. by specialize (He 0%nat eq_refl).
Qed.

Lemma strip_id inp : forall c, Forall plain_comp inp -> strip inp c = Some (c ++ inp).
Proof.
  induction inp as [|x inp IH]; intros c Hi; cbn [strip]; [by rewrite app_nil_r|].
  apply Forall_cons in Hi as [(_ & H1 & H2) Hi]. rewrite !decide_False, IH by done.
  by rewrite <- app_assoc.
Qed.

Lemma cstr_put_string s m : Forall unreserved s -> cstr (put 0 (s ++ [0]) m) = s.
Proof.
  intros Hs. rewrite put_0, <- app_assoc. apply cstr_app. intros Hin.
  rewrite Forall_forall in Hs. apply Hs in Hin as (? & _). lia.
Qed.

(** C18: a resolved path of unreserved characters that fits the buffer is its own
    normal form: normalising it succeeds, finds no query, and leaves exactly the
    path. *)
Theorem normalize_identity uribuf r : resolved r -> r <> [] ->
  let path := 47 :: rebuild r in
  Forall unreserved path -> (length path < length uribuf)%nat ->
  exists n, nads_normalize uribuf path = Ret n /\ n_err n = NADS_ERR_SUCCESS /\
    n_query n = None /\ n_uri n = path.
Proof.
  intros [Hr He] Hne path Hp Hl. unfold nads_normalize, n_split.
  rewrite (split_query_id path []), (proj2 (Nat.leb_le _ _)) by (done || (rewrite length_app; cbn in *; lia)).
  cbn [app mbind outcome_bind]. unfold n_hex. rewrite drop_0, cstr_put_string by done.
  rewrite (hex_loop_id path []) by done. rewrite decide_True by done. cbn [app].
  rewrite bool_decide_eq_true_2 by done. cbn [negb].
  unfold n_utf8. rewrite cstr_put_string, (utf8_loop_id path []) by done. cbn [app mbind outcome_bind].
  rewrite decide_True, bool_decide_eq_true_2 by done. cbn [negb].
  set (m := put 0 (path ++ [0]) _).
  assert (cstr m = path) as Hm by by apply cstr_put_string.
  assert (Forall comp_ok r) as Hok by (eapply Forall_impl; [exact Hr|]; by intros x [? _]).
  assert (slashed m = path) as Hsl.
  { unfold slashed. rewrite Hm. apply (pcount_loop_id path false [] 0); [done|].
    cbn. by apply single_rebuild. }
  assert (length m = length uribuf) as Hlm.
  { assert (forall m', length m' = length uribuf -> length (put 0 (path ++ [0]) m') = length uribuf) as Hput.
    { intros m' Hm'. rewrite length_put; [done|]. rewrite length_app. cbn [length]. lia. }
    by apply Hput, Hput, Hput. }
  rewrite n_path_cases, Hsl. unfold path at 1.
  rewrite components_rebuild, (strip_id r []) by done. cbn [app]. cbv zeta.
  rewrite (proj2 (Nat.ltb_ge _ _)).
  2: { rewrite length_split_slashes by (rewrite Hm; lia). rewrite Hlm.
       change (47 :: rebuild r ++ [0]) with (path ++ [0]). rewrite length_app. cbn [length]. lia. }
  run. rewrite bool_decide_eq_true_2 by done. cbn [negb].
  eexists. split_and!; [done|done|done|]. unfold n_uri. cbn [n_uribuf].
  change (47 :: rebuild r ++ [0]) with (path ++ [0]). by apply cstr_put_string.
Qed.

Example normalize_identity_witness :
  exists n, nads_normalize sample_uribuf (lit "/a/.b/c..d/") = Ret n /\ n_uri n = lit "/a/.b/c..d/".
Proof.
  destruct (normalize_identity sample_uribuf [lit "a"; lit ".b"; lit "c..d"; []])
    as (n & H & _ & _ & Hu).
  - split; [by_decide|]. intros i Hi. destruct i as [|[|[|[|i]]]]; done.
  - discriminate.
  - by_decide.
  - by_decide.
  - exists n. split; [exact H|exact Hu].
Defined.

(** ** Error messages *)

Definition nads_code (e : nads_err) : Z :=
  match e with
  | NADS_ERR_SUCCESS => 0 | NADS_ERR_NO_EMULATION => 1 | NADS_ERR_BAD_HEX => 2 | NADS_ERR_TRAVERSAL => 3
  | NADS_ERR_BAD_UTF8 => 4 | NADS_ERR_NULL => 5 | NADS_ERR_OOM => 6
  end.

Definition estr : list (list Z) :=
  [lit "Success"; lit "Unable to emulate specified webserver"; lit "Bad Hex encoding"; lit "Attempt to traverse outside of webroot";
   lit "Bad UTF-8 character sequence"; lit "NUL character insertion"; lit "Out of memory"].

(** [nads_errcode] is the code of the last call's [n_err]. *)
Definition nads_errno (last : nads_err) : Z := nads_code last.
Definition nads_error (last : nads_err) : Z := sint 32 (nads_code last).

Definition nads_strerror (err : Z) : outcome (list Z) :=
  if Z.of_nat (length estr) <? err then Ret (lit "Unknown error") else of_option OutOfBounds (estr !! Z.to_nat err).
Definition nads_errstr (last : nads_err) : outcome (list Z) := nads_strerror (nads_errno last).

(** there is a message of its own for every error of the library, and one for
    every number past the table, apart from the first of these: its message
    is read from behind the table. *)
Theorem nads_strerror_spec :
  (forall e, exists m, nads_errstr e = Ret m /\ (forall e', nads_errstr e' = Ret m -> e' = e)) /\
  (forall err, 7 < err -> nads_strerror err = Ret (lit "Unknown error")) /\ nads_strerror 7 = Fault OutOfBounds.
Proof.
  split_and!.
  - intros e. destruct e; (eexists; split; [reflexivity|]; intros e'; destruct e'; (reflexivity || intros [=])).
  - intros err H. unfold nads_strerror. change (Z.of_nat (length estr)) with 7. by rewrite (proj2 (Z.ltb_lt _ _)).
  - reflexivity.
Qed.

Example nads_strerror_spec_witness : nads_strerror 8 = Ret (lit "Unknown error").
Proof. apply (proj1 (proj2 nads_strerror_spec) 8). lia. Defined.
