(* ===== verification/Critbit.v ===== *)
(** * critbit.c: a map from C strings to values

    A crit-bit tree: inner nodes name the byte and, in [otherbits], the bit (all
    others set) in which their two subtrees first differ. Keys are lists of
    bytes between 1 and 255; a key's byte at its length is the terminator. *)

From S2P Require Import Prelude.
Local Open Scope Z_scope.

Section critbit.
Context {V : Type}.

(** [struct _cb_node]; the value of a leaf is null until it is stored through the
    slot [cb_insert] hands out. *)
Inductive cb_node :=
| Leaf (key : list Z) (val : option V)
| Internal (byte : nat) (otherbits : Z) (child0 child1 : cb_node).

(** [u[i]] for [i] at most the length: the terminator is 0. *)
Definition char_at (u : list Z) (i : nat) : Z := nth i u 0.

(** [if (byte < ulen) c = u[byte]; direction = (1 + (otherbits | c)) >> 8]. *)
Definition direction (u : list Z) (byte : nat) (otherbits : Z) : Z :=
  let c := if (byte <? length u)%nat then char_at u byte else 0 in
  Z.shiftr (1 + Z.lor otherbits c) 8.

Definition goes_right (u : list Z) (byte : nat) (otherbits : Z) : bool :=
  direction u byte otherbits =? 1.

(** The [for] loop that all three operations start with: the leaf it reaches. *)
Fixpoint walk (q : cb_node) (u : list Z) : list Z * option V :=
  match q with
  | Leaf k v => (k, v)
  | Internal b o c0 c1 => walk (if goes_right u b o then c1 else c0) u
  end.

Definition cb_contains (root : option cb_node) (u : list Z) : option (option V) :=
  match root with
  | None => None
  | Some q => let (k, v) := walk q u in if decide (u = k) then Some v else None
  end.

(** The loop that compares the key with the leaf's: the first position up to the
    length of [u] at which they differ. *)
Fixpoint first_diff (key u : list Z) : option nat :=
  match u with
  | [] => match key with [] => None | _ => Some 0%nat end
  | c :: u' =>
    match key with
    | [] => Some 0%nat
    | d :: key' => if d =? c then S <$> first_diff key' u' else Some 0%nat
    end
  end.

(** [newotherbits] from the two characters, which are signed: the exclusive or of
    the promoted integers, as 32 unsigned bits, smeared to the right and
    reduced to the complement of its top bit. *)
Definition smear (n : Z) : Z :=
  let n := Z.lor n (Z.shiftr n 1) in
  let n := Z.lor n (Z.shiftr n 2) in
  let n := Z.lor n (Z.shiftr n 4) in
  Z.lxor (Z.land n (uint 32 (Z.lnot (Z.shiftr n 1)))) 255.

Definition newotherbits (kc uc : Z) : Z := smear (uint 32 (Z.lxor (sint 8 kc) (sint 8 uc))).

Definition newdirection (otherbits c : Z) : Z := Z.shiftr (uint 32 (1 + Z.lor otherbits c)) 8.

(** The loop over [wherep], and the new node put in its place: [dir] is
    [newdirection], the side the old subtree goes to. *)
Fixpoint place (t : cb_node) (u : list Z) (newbyte : nat) (otherbits : Z) (dir : bool) : cb_node :=
  let here := if dir then Internal newbyte (uint 8 otherbits) (Leaf u None) t
              else Internal newbyte (uint 8 otherbits) t (Leaf u None) in
  match t with
  | Leaf _ _ => here
  | Internal b o c0 c1 =>
    if (newbyte <? b)%nat then here
    else if (b =? newbyte)%nat && (otherbits <? o) then here
    else if goes_right u b o then Internal b o c0 (place c1 u newbyte otherbits dir)
    else Internal b o (place c0 u newbyte otherbits dir) c1
  end.

(** [cb_insert(t, u, &slot)]: the return value and the tree; the slot is the
    value of the leaf that [walk] reaches for [u] afterwards. The three
    booleans say whether the allocations of the node, the leaf and the key
    succeed. *)
Definition cb_insert (root : option cb_node) (u : list Z) (node_ok leaf_ok dup_ok : bool)
    : outcome (Z * option cb_node) :=
  match root with
  | None => if leaf_ok && dup_ok then Ret (2, Some (Leaf u None)) else Ret (0, None)
  | Some t =>
    let key := (walk t u).1 in
    match first_diff key u with
    | None => Ret (1, root)
    | Some nb =>
      let c := char_at key nb in
      let nob := newotherbits c (char_at u nb) in
      let dir := newdirection nob c in
      if negb (node_ok && leaf_ok && dup_ok) then Ret (0, root)
      else if 1 <? dir then Fault OutOfBounds
      else Ret (2, Some (place t u nb nob (dir =? 1)))
    end
  end.

(** [*slot = v] for the slot of [u]. *)
Fixpoint store (t : cb_node) (u : list Z) (v : option V) : cb_node :=
  match t with
  | Leaf k _ => Leaf k v
  | Internal b o c0 c1 =>
    if goes_right u b o then Internal b o c0 (store c1 u v) else Internal b o (store c0 u v) c1
  end.

(** [cb_delete]: the value removed and the tree left, or nothing if the key is
    absent. *)
Fixpoint remove (t : cb_node) (u : list Z) : option (option V * option cb_node) :=
  match t with
  | Leaf k v => if decide (u = k) then Some (v, None) else None
  | Internal b o c0 c1 =>
    if goes_right u b o then
      match remove c1 u with
      | None => None
      | Some (v, None) => Some (v, Some c0)
      | Some (v, Some c) => Some (v, Some (Internal b o c0 c))
      end
    else
      match remove c0 u with
      | None => None
      | Some (v, None) => Some (v, Some c1)
      | Some (v, Some c) => Some (v, Some (Internal b o c c1))
      end
  end.

Definition cb_delete (root : option cb_node) (u : list Z) : option (option V * option cb_node) :=
  match root with
  | None => None
  | Some t => remove t u
  end.

(** [traverse], which [cb_free] runs: the values handed to the callback, in
    order. *)
Fixpoint traverse (t : cb_node) : list (option V) :=
  match t with
  | Leaf _ v => [v]
  | Internal _ _ c0 c1 => traverse c0 ++ traverse c1
  end.

Definition cb_free (root : option cb_node) : list (option V) :=
  match root with Some t => traverse t | None => [] end.

(** ** Bits of keys

    A key as an infinite sequence of bits, the most significant of each byte
    first, zeros from the terminator on. *)

Definition keybit (u : list Z) (p : nat) : bool :=
  Z.testbit (char_at u (p / 8)) (7 - Z.of_nat (p mod 8)).

Definition ascii_key (u : list Z) : Prop := Forall (fun c => 0 < c < 0x80) u.

Definition same_below (p : nat) (u w : list Z) : Prop :=
  forall i, (i < p)%nat -> keybit u i = keybit w i.

Fixpoint keys (t : cb_node) : list (list Z) :=
  match t with
  | Leaf k _ => [k]
  | Internal _ _ c0 c1 => keys c0 ++ keys c1
  end.

(** The bit an inner node tests. *)
Definition bitpos (b : nat) (k : nat) : nat := 8 * b + (7 - k).
Definition otherbits_of (k : nat) : Z := Z.lxor 255 (2 ^ Z.of_nat k).

Inductive cb_ok : nat -> cb_node -> Prop :=
| ok_leaf lo key v : ascii_key key -> cb_ok lo (Leaf key v)
| ok_internal lo b k c0 c1 : (k < 8)%nat -> (lo <= bitpos b k)%nat ->
    cb_ok (S (bitpos b k)) c0 -> cb_ok (S (bitpos b k)) c1 ->
    Forall (fun u => keybit u (bitpos b k) = false) (keys c0) ->
    Forall (fun u => keybit u (bitpos b k) = true) (keys c1) ->
    (forall u w, u ∈ keys c0 ++ keys c1 -> w ∈ keys c0 ++ keys c1 -> same_below (bitpos b k) u w) ->
    cb_ok lo (Internal b (otherbits_of k) c0 c1).


Fixpoint entries (t : cb_node) : list (list Z * option V) :=
  match t with
  | Leaf k v => [(k, v)]
  | Internal _ _ c0 c1 => entries c0 ++ entries c1
  end.

Lemma keys_entries t : keys t = (entries t).*1.
Proof. induction t as [|b o c0 IH0 c1 IH1]; cbn; [done|]. by rewrite fmap_app, IH0, IH1. Qed.

(** *** The bit tricks *)

Lemma char_at_ascii u i : ascii_key u -> 0 <= char_at u i < 0x80.
Proof.
  intros Hu. unfold char_at. destruct (nth_in_or_default i u 0) as [Hin| ->]; [|lia].
  unfold ascii_key in Hu. rewrite Forall_forall in Hu. apply list_elem_of_In, Hu in Hin. lia.
Qed.

Lemma direction_bit c k : 0 <= c < 256 -> (k < 8)%nat ->
  Z.shiftr (1 + Z.lor (otherbits_of k) c) 8 = if Z.testbit c (Z.of_nat k) then 1 else 0.
Proof.
  intros Hc Hk.
  assert ((Z.shiftr (1 + Z.lor (otherbits_of k) c) 8 =? if Z.testbit c (Z.of_nat k) then 1 else 0) = true)
    as H; [|lia].
  revert c Hc. apply byte_ind.
  do 8 (destruct k as [|k]; [vm_compute; reflexivity|]). lia.
Qed.

Lemma bitpos_div b k : (k < 8)%nat -> (bitpos b k / 8 = b)%nat /\ (bitpos b k mod 8 = 7 - k)%nat.
Proof.
  intros Hk. unfold bitpos. split.
  - symmetry. apply (Nat.div_unique _ _ _ (7 - k)); lia.
  - symmetry. apply (Nat.mod_unique _ _ b); lia.
Qed.

Lemma keybit_bitpos u b k : (k < 8)%nat -> keybit u (bitpos b k) = Z.testbit (char_at u b) (Z.of_nat k).
Proof.
  intros Hk. unfold keybit. destruct (bitpos_div b k Hk) as [-> ->]. f_equal. lia.
Qed.

Lemma goes_right_bit u b k : ascii_key u -> (k < 8)%nat ->
  goes_right u b (otherbits_of k) = keybit u (bitpos b k).
Proof.
  intros Hu Hk. unfold goes_right, direction. cbv zeta.
  assert ((if (b <? length u)%nat then char_at u b else 0) = char_at u b) as ->.
  { destruct (Nat.ltb_spec b (length u)); [done|]. unfold char_at. by rewrite nth_overflow. }
  rewrite direction_bit by (done || (pose proof (char_at_ascii u b Hu); lia)).
  rewrite keybit_bitpos by done. by destruct (Z.testbit _ _).
Qed.

(** What the smearing computes, checked on all pairs of 7-bit characters. *)
Definition crit_check (a b : Z) : bool :=
  let k := Z.to_nat (Z.log2 (Z.lxor a b)) in
  (a =? b) ||
  ((newotherbits a b =? otherbits_of k) && (k <? 8)%nat &&
   negb (Bool.eqb (Z.testbit a (Z.of_nat k)) (Z.testbit b (Z.of_nat k))) &&
   forallb (fun j => Bool.eqb (Z.testbit a (Z.of_nat j)) (Z.testbit b (Z.of_nat j)))
     (seq (S k) (7 - k)) &&
   (newdirection (newotherbits a b) a =? if Z.testbit a (Z.of_nat k) then 1 else 0)).

Lemma crit_checked : forallb (fun a => forallb (crit_check a) (Z.of_nat <$> seq 0 128))
  (Z.of_nat <$> seq 0 128) = true.
Proof. vm_compute. reflexivity. Qed.

Lemma crit_bit a b : 0 <= a < 0x80 -> 0 <= b < 0x80 -> a <> b ->
  exists k, (k < 8)%nat /\ newotherbits a b = otherbits_of k /\
    Z.testbit a (Z.of_nat k) <> Z.testbit b (Z.of_nat k) /\
    (forall j, (k < j < 8)%nat -> Z.testbit a (Z.of_nat j) = Z.testbit b (Z.of_nat j)) /\
    newdirection (newotherbits a b) a = if Z.testbit a (Z.of_nat k) then 1 else 0.
Proof.
  intros Ha Hb Hne. pose proof crit_checked as H. rewrite forallb_forall in H.
  assert (forall x, 0 <= x < 0x80 -> In x (Z.of_nat <$> seq 0 128)) as Hin.
  { intros x Hx. replace x with (Z.of_nat (Z.to_nat x)) by lia. apply in_map, in_seq. lia. }
  specialize (H a (Hin a Ha)). rewrite forallb_forall in H. specialize (H b (Hin b Hb)).
  unfold crit_check in H. rewrite (proj2 (Z.eqb_neq _ _) Hne) in H. cbn [orb] in H.
  set (k := Z.to_nat (Z.log2 (Z.lxor a b))) in *. exists k.
  rewrite !andb_true_iff in H. destruct H as ((((H1 & H2) & H3) & H4) & H5).
  split_and!; [by apply Nat.ltb_lt|lia| | |by apply Z.eqb_eq].
  - by apply negb_true_iff, eqb_false_iff in H3.
  - intros j Hj. rewrite forallb_forall in H4. apply eqb_prop, H4, in_seq. lia.
Qed.

Lemma otherbits_lt k k' : (k < 8)%nat -> (k' < 8)%nat -> (otherbits_of k' <? otherbits_of k) = (k <? k')%nat.
Proof.
  intros Hk Hk'.
  do 8 (destruct k as [|k]; [do 8 (destruct k' as [|k']; [reflexivity|]); lia|]). lia.
Qed.

Lemma otherbits_byte k : (k < 8)%nat -> uint 8 (otherbits_of k) = otherbits_of k.
Proof. intros Hk. do 8 (destruct k as [|k]; [reflexivity|]). lia. Qed.

(** *** The first difference *)

Lemma first_diff_none key u : first_diff key u = None -> key = u.
Proof.
  revert key. induction u as [|c u IH]; intros [|d key]; cbn; try done.
  destruct (Z.eqb_spec d c) as [->|]; [|done]. destruct (first_diff key u) eqn:E; [done|].
  intros _. by rewrite (IH key).
Qed.

Lemma first_diff_some key u nb : ascii_key key -> ascii_key u -> first_diff key u = Some nb ->
  char_at key nb <> char_at u nb /\ forall i, (i < nb)%nat -> char_at key i = char_at u i.
Proof.
  intros Hk Hu. revert key nb Hk. induction Hu as [|c u Hc Hu IH]; intros [|d key] nb Hk; cbn; try done.
  - intros [= <-]. apply Forall_inv in Hk. cbn. split; [lia|lia].
  - intros [= <-]. cbn. split; [lia|lia].
  - apply Forall_cons in Hk as [Hd Hk]. destruct (Z.eqb_spec d c) as [->|Hne].
    + destruct (first_diff key u) as [n|] eqn:E; [|done]. cbn. intros [= <-].
      destruct (IH key n Hk E) as [H1 H2]. split; [done|]. intros [|i] Hi; [done|]. apply H2. lia.
    + intros [= <-]. cbn. split; [done|lia].
Qed.

Lemma diff_position key u nb : ascii_key key -> ascii_key u -> first_diff key u = Some nb ->
  exists k, (k < 8)%nat /\ newotherbits (char_at key nb) (char_at u nb) = otherbits_of k /\
    newdirection (otherbits_of k) (char_at key nb) = (if keybit key (bitpos nb k) then 1 else 0) /\
    keybit key (bitpos nb k) <> keybit u (bitpos nb k) /\ same_below (bitpos nb k) key u.
Proof.
  intros Hk Hu Hf. destruct (first_diff_some _ _ _ Hk Hu Hf) as [Hne Hsame].
  destruct (crit_bit (char_at key nb) (char_at u nb)) as (k & H8 & Ho & Hb & Hj & Hd);
    [by apply char_at_ascii|by apply char_at_ascii|done|].
  exists k. rewrite !keybit_bitpos by done. rewrite Ho in Hd. split_and!; try done.
  intros i Hi. unfold keybit. pose proof (Nat.div_mod i 8 ltac:(lia)) as Hdm.
  pose proof (Nat.mod_upper_bound i 8 ltac:(lia)). unfold bitpos in Hi.
  destruct (decide (i / 8 < nb)%nat) as [Hlt|Hge]; [by rewrite Hsame|].
  assert (i / 8 = nb)%nat as -> by lia.
  replace (7 - Z.of_nat (i mod 8)) with (Z.of_nat (7 - i mod 8)) by lia. apply Hj. lia.
Qed.

(** *** Trees *)

Lemma cb_ok_mono lo lo' t : (lo' <= lo)%nat -> cb_ok lo t -> cb_ok lo' t.
Proof. intros Hl H. inversion H; subst; constructor; try done. lia. Qed.

Lemma cb_ok_ascii lo t : cb_ok lo t -> Forall ascii_key (keys t).
Proof. induction 1; cbn; [by constructor|]. by apply Forall_app. Qed.

Lemma walk_in t u : walk t u ∈ entries t.
Proof.
  induction t as [k v|b o c0 IH0 c1 IH1]; cbn; [by left|]. apply elem_of_app.
  destruct (goes_right u b o); auto.
Qed.

Lemma walk_key_in t u : (walk t u).1 ∈ keys t.
Proof. rewrite keys_entries. apply list_elem_of_fmap. exists (walk t u). split; [done|apply walk_in]. Qed.

Lemma walk_finds lo t u : cb_ok lo t -> u ∈ keys t -> (walk t u).1 = u.
Proof.
  induction 1 as [lo k v Hk|lo b k c0 c1 Hk8 Hlo H0 IH0 H1 IH1 Hl Hr Hs]; cbn; intros Hu.
  { by apply list_elem_of_singleton in Hu. }
  assert (ascii_key u) as Ha.
  { pose proof (cb_ok_ascii _ _ H0) as A0. pose proof (cb_ok_ascii _ _ H1) as A1.
    rewrite Forall_forall in A0, A1. apply elem_of_app in Hu as [?|?]; auto. }
  rewrite goes_right_bit by done. rewrite Forall_forall in Hl, Hr.
  apply elem_of_app in Hu as [Hu|Hu]; [rewrite (Hl u Hu)|rewrite (Hr u Hu)]; auto.
Qed.

(** *** Insertion *)

Lemma leaf_ok lo u v : ascii_key u -> cb_ok lo (Leaf u v).
Proof. by constructor. Qed.

Lemma here_ok lo t u nb k q (dir := keybit q (bitpos nb k)) :
  cb_ok (S (bitpos nb k)) t -> ascii_key u -> (k < 8)%nat -> (lo <= bitpos nb k)%nat ->
  keybit u (bitpos nb k) = negb dir -> same_below (bitpos nb k) q u ->
  (forall w, w ∈ keys t -> same_below (S (bitpos nb k)) w q) ->
  let n := if dir then Internal nb (uint 8 (otherbits_of k)) (Leaf u None) t
           else Internal nb (uint 8 (otherbits_of k)) t (Leaf u None) in
  cb_ok lo n /\ entries n ≡ₚ (u, None) :: entries t.
Proof.
  intros Ht Hu Hk Hlo Hud Hqu Hq. rewrite otherbits_byte by done. cbv zeta.
  assert (Forall (fun w => keybit w (bitpos nb k) = dir) (keys t)) as Hd.
  { apply Forall_forall. intros w Hw. apply (Hq w Hw). lia. }
  assert (forall w, w ∈ u :: keys t -> same_below (bitpos nb k) w q) as Hs.
  { intros w Hw i Hi. apply elem_of_cons in Hw as [->|Hw]; [by rewrite Hqu|]. apply Hq; [done|lia]. }
  assert (forall l w w', l ≡ₚ u :: keys t -> w ∈ l -> w' ∈ l -> same_below (bitpos nb k) w w') as Hs2.
  { intros l w w' Hl Hw Hw' i Hi. rewrite Hl in Hw, Hw'. by rewrite (Hs w), (Hs w'). }
  unfold dir in *. destruct (keybit q (bitpos nb k)); cbn [negb] in Hud; (split; [constructor; try done|]).
  - by apply leaf_ok.
  - by constructor.
  - intros w w'. by apply Hs2.
  - done.
  - by apply leaf_ok.
  - by constructor.
  - intros w w'. apply Hs2. cbn. by rewrite Permutation_app_comm.
  - cbn. by rewrite Permutation_app_comm.
Qed.

Lemma bitpos_before nb k b k' : (k < 8)%nat -> (k' < 8)%nat ->
  (nb <? b)%nat || ((b =? nb)%nat && (otherbits_of k <? otherbits_of k')) = (bitpos nb k <? bitpos b k')%nat.
Proof.
  intros Hk Hk'. rewrite otherbits_lt by done. unfold bitpos.
  destruct (Nat.ltb_spec nb b), (Nat.eqb_spec b nb), (Nat.ltb_spec k' k),
    (Nat.ltb_spec (8 * nb + (7 - k)) (8 * b + (7 - k'))); cbn; lia.
Qed.

Lemma walk_same_bit lo b k c0 c1 u :
  cb_ok lo (Internal b (otherbits_of k) c0 c1) -> (k < 8)%nat -> ascii_key u ->
  keybit (walk (Internal b (otherbits_of k) c0 c1) u).1 (bitpos b k) = keybit u (bitpos b k).
Proof.
  intros H Hk Hu. cbn [walk]. rewrite goes_right_bit by done. inversion H as [|? ? k' ? ? ? ? ? ? Hl Hr]; subst.
  assert (k' = k) as ->.
  { pose proof (otherbits_lt k k' ltac:(done) ltac:(done)). pose proof (otherbits_lt k' k ltac:(done) ltac:(done)).
    destruct (Nat.ltb_spec k k'), (Nat.ltb_spec k' k); lia. }
  rewrite Forall_forall in Hl, Hr. destruct (keybit u (bitpos b k)); [apply Hr|apply Hl]; apply walk_key_in.
Qed.

Lemma entries_keys_perm t u v l : entries t ≡ₚ (u, v) :: l -> keys t ≡ₚ u :: l.*1.
Proof. intros H. rewrite keys_entries, H. done. Qed.

Lemma Forall_keys_perm (P : list Z -> Prop) t t' u v :
  entries t' ≡ₚ (u, v) :: entries t -> P u -> Forall P (keys t) -> Forall P (keys t').
Proof.
  intros Hp Hu Ht. rewrite (entries_keys_perm _ _ _ _ Hp), <- keys_entries. by constructor.
Qed.

(** Keys that agree below a bit, and one more that does. *)
Lemma same_below_cons n u q ks l : q ∈ ks -> (forall i, (i < n)%nat -> keybit u i = keybit q i) ->
  (forall w w', w ∈ ks -> w' ∈ ks -> same_below n w w') -> l ≡ₚ u :: ks ->
  forall w w', w ∈ l -> w' ∈ l -> same_below n w w'.
Proof.
  intros Hq Hui Hs Hp. assert (forall w, w ∈ l -> same_below n w q) as Hx.
  { intros w Hw i Hi. rewrite Hp in Hw. apply elem_of_cons in Hw as [->|Hw]; [by apply Hui|by apply Hs]. }
  intros w w' Hw Hw' i Hi. by rewrite (Hx w), (Hx w').
Qed.

Lemma place_ok lo t u nb k (q := (walk t u).1) :
  cb_ok lo t -> ascii_key u -> (k < 8)%nat -> (lo <= bitpos nb k)%nat ->
  same_below (bitpos nb k) q u -> keybit q (bitpos nb k) <> keybit u (bitpos nb k) ->
  let t' := place t u nb (otherbits_of k) (keybit q (bitpos nb k)) in
  cb_ok lo t' /\ entries t' ≡ₚ (u, None) :: entries t.
Proof.
  intros Ht Hu Hk. subst q. cbv zeta.
  assert (forall q, keybit q (bitpos nb k) <> keybit u (bitpos nb k) ->
    keybit u (bitpos nb k) = negb (keybit q (bitpos nb k))) as Hneg.
  { intros q. destruct (keybit q _), (keybit u _); done. }
  induction Ht as [lo key v Hkey|lo b k' c0 c1 Hk' Hlo H0 IH0 H1 IH1 Hl Hr Hs]; intros Hlod Hsame Hne.
  { cbn [place walk fst] in *. apply here_ok; auto; [by constructor|].
    intros w Hw. by apply list_elem_of_singleton in Hw as ->. }
  assert (cb_ok lo (Internal b (otherbits_of k') c0 c1)) as Hok by by constructor.
  pose proof (walk_same_bit lo b k' c0 c1 u Hok Hk' Hu) as Hbit.
  assert (walk (Internal b (otherbits_of k') c0 c1) u
    = walk (if keybit u (bitpos b k') then c1 else c0) u) as Hwalk.
  { cbn [walk]. by rewrite goes_right_bit. }
  rewrite Hwalk in Hsame, Hne, Hbit |- *.
  set (q := (walk (if keybit u (bitpos b k') then c1 else c0) u).1) in *.
  assert (q ∈ keys c0 ++ keys c1) as Hq.
  { apply elem_of_app. subst q. destruct (keybit u (bitpos b k')); [right|left]; apply walk_key_in. }
  cbn [place]. pose proof (bitpos_before nb k b k' Hk Hk') as Hcmp.
  destruct (Nat.ltb_spec (bitpos nb k) (bitpos b k')) as [Hlt|Hge].
  - assert (forall (A : Type) (x y : A),
      (if (nb <? b)%nat then x else if (b =? nb)%nat && (otherbits_of k <? otherbits_of k') then x else y) = x) as ->.
    { intros A x y. destruct (nb <? b)%nat; [done|]. cbn in Hcmp. by rewrite Hcmp. }
    apply here_ok; auto.
    + by constructor.
    + intros w Hw i Hi. apply Hs; [done|done|lia].
  - apply orb_false_iff in Hcmp as [-> ->]. rewrite goes_right_bit by done.
    assert (bitpos nb k <> bitpos b k') by congruence.
    assert (forall i, (i < bitpos b k')%nat -> keybit u i = keybit q i) as Hui by (intros i Hi; symmetry; apply Hsame; lia).
    pose proof (fun l => same_below_cons (bitpos b k') u q (keys c0 ++ keys c1) l Hq Hui Hs) as Hs2.
    subst q. destruct (keybit u (bitpos b k')) eqn:Eu.
    + destruct (IH1 ltac:(lia) Hsame Hne) as [IHa IHb]. split.
      * constructor; try done; [by eapply Forall_keys_perm|].
        apply Hs2. rewrite (entries_keys_perm _ _ _ _ IHb), <- keys_entries. symmetry. apply Permutation_middle.
      * cbn [entries]. rewrite IHb. symmetry. apply Permutation_middle.
    + destruct (IH0 ltac:(lia) Hsame Hne) as [IHa IHb]. split.
      * constructor; try done; [by eapply Forall_keys_perm|].
        apply Hs2. by rewrite (entries_keys_perm _ _ _ _ IHb), <- keys_entries.
      * cbn [entries]. by rewrite IHb.
Qed.
(** *** Deletion and stores *)

Lemma remove_spec lo t u : cb_ok lo t ->
  match remove t u with
  | None => u ∉ keys t
  | Some (v, r) => entries t ≡ₚ (u, v) :: from_option entries [] r /\ from_option (cb_ok lo) True r
  end.
Proof.
  intros Ht. pose proof (walk_finds lo t u Ht) as Hw. revert Hw.
  induction Ht as [lo key v Hk|lo b k c0 c1 Hk8 Hlo H0 IH0 H1 IH1 Hl Hr Hs]; cbn [remove walk keys]; intros Hw.
  { destruct (decide (u = key)) as [->|Hne]; [done|]. cbn. by rewrite list_elem_of_singleton. }
  assert (forall c w c', entries c ≡ₚ (u, w) :: entries c' -> forall x, x ∈ keys c' -> x ∈ keys c) as Hsub.
  { intros c w c' Hp x Hx. rewrite (entries_keys_perm _ _ _ _ Hp), <- keys_entries. by right. }
  destruct (goes_right u b (otherbits_of k)).
  - specialize (IH1 (walk_finds _ _ _ H1)). destruct (remove c1 u) as [[w [c|]]|] eqn:E; cbn [from_option] in *.
    + destruct IH1 as [Hp Hc]. split.
      * cbn. rewrite Hp. symmetry. apply Permutation_middle.
      * constructor; try done.
        -- eapply incl_Forall; [|exact Hr]. intros x. rewrite <- !list_elem_of_In. by eapply Hsub.
        -- intros x y Hx Hy. apply Hs; [clear Hy|clear Hx]; set_solver.
    + destruct IH1 as [Hp _]. split.
      * cbn. rewrite Hp. by rewrite Permutation_app_comm.
      * eapply cb_ok_mono; [|done]. lia.
    + intros Hin. pose proof (walk_key_in c1 u) as Hk. by rewrite Hw in Hk.
  - specialize (IH0 (walk_finds _ _ _ H0)). destruct (remove c0 u) as [[w [c|]]|] eqn:E; cbn [from_option] in *.
    + destruct IH0 as [Hp Hc]. split.
      * cbn. by rewrite Hp.
      * constructor; try done.
        -- eapply incl_Forall; [|exact Hl]. intros x. rewrite <- !list_elem_of_In. by eapply Hsub.
        -- intros x y Hx Hy. apply Hs; [clear Hy|clear Hx]; set_solver.
    + destruct IH0 as [Hp _]. split.
      * cbn. by rewrite Hp.
      * eapply cb_ok_mono; [|done]. lia.
    + intros Hin. pose proof (walk_key_in c0 u) as Hk. by rewrite Hw in Hk.
Qed.

Lemma store_keys t u v : keys (store t u v) = keys t.
Proof.
  induction t as [|b o c0 IH0 c1 IH1]; cbn; [done|]. destruct (goes_right u b o); cbn; congruence.
Qed.

Lemma store_ok lo t u v : cb_ok lo t -> cb_ok lo (store t u v).
Proof.
  induction 1 as [|lo b k c0 c1 Hk8 Hlo H0 IH0 H1 IH1 Hl Hr Hs]; cbn; [by constructor|].
  destruct (goes_right _ _ _); constructor; try done; by rewrite store_keys.
Qed.

(** ** The map a tree stands for *)

Definition to_map (root : option cb_node) : gmap (list Z) (option V) :=
  list_to_map (from_option entries [] root).

Definition cb_wf (root : option cb_node) : Prop := from_option (cb_ok 0) True root.

Lemma keys_nodup lo t : cb_ok lo t -> NoDup (keys t).
Proof.
  induction 1 as [|lo b k c0 c1 Hk8 Hlo H0 IH0 H1 IH1 Hl Hr Hs]; cbn; [apply NoDup_singleton|].
  apply NoDup_app. split_and!; [done| |done]. rewrite Forall_forall in Hl, Hr.
  intros x H1' H2'. apply Hl in H1'. apply Hr in H2'. congruence.
Qed.

Lemma to_map_perm t l : NoDup (keys t) -> entries t ≡ₚ l -> to_map (Some t) = list_to_map l.
Proof.
  intros Hn Hp. cbn. apply list_to_map_proper; [|done]. by rewrite <- keys_entries.
Qed.

Lemma to_map_none t u : to_map (Some t) !! u = None <-> u ∉ keys t.
Proof. cbn. rewrite keys_entries. split; [apply not_elem_of_list_to_map_2|apply not_elem_of_list_to_map_1]. Qed.

Lemma to_map_some t u v : NoDup (keys t) -> to_map (Some t) !! u = Some v <-> (u, v) ∈ entries t.
Proof.
  intros Hn. rewrite keys_entries in Hn. cbn. symmetry. by apply elem_of_list_to_map.
Qed.

Lemma store_map t u v : NoDup (keys t) ->
  to_map (Some (store t u v)) = <[(walk t u).1 := v]> (to_map (Some t)).
Proof.
  cbn. induction t as [k w|b o c0 IH0 c1 IH1]; cbn; intros Hn.
  { by rewrite insert_insert_eq. }
  apply NoDup_app in Hn as (Hn0 & Hd & Hn1).
  destruct (goes_right u b o); cbn; rewrite !list_to_map_app.
  - rewrite IH1 by done. rewrite insert_union_r; [done|]. apply not_elem_of_list_to_map_1.
    rewrite <- keys_entries. intros Hin. exact (Hd _ Hin (walk_key_in c1 u)).
  - rewrite IH0 by done. by rewrite insert_union_l.
Qed.

Lemma contains_lookup root u : cb_wf root -> cb_contains root u = to_map root !! u.
Proof.
  destruct root as [t|]; [|done]. cbn [cb_contains cb_wf from_option]. intros Ht.
  pose proof (keys_nodup _ _ Ht) as Hn. pose proof (walk_in t u) as Hi.
  pose proof (walk_finds _ _ u Ht) as Hf. destruct (walk t u) as [k v]; cbn [fst] in *.
  destruct (decide (u = k)) as [->|Hne]; symmetry; [by apply to_map_some|].
  apply to_map_none. intros Hin. by apply Hne, eq_sym, Hf.
Qed.

(** [cb_insert] on a key whose characters are ASCII. *)
Lemma insert_cases t u : cb_ok 0 t -> ascii_key u ->
  match first_diff (walk t u).1 u with
  | None => (walk t u).1 = u
  | Some nb => exists t', cb_insert (Some t) u true true true = Ret (2, Some t') /\ cb_ok 0 t' /\
      entries t' ≡ₚ (u, None) :: entries t /\ u ∉ keys t
  end.
Proof.
  intros Ht Hu. destruct (first_diff (walk t u).1 u) as [nb|] eqn:E; [|by apply first_diff_none].
  assert (ascii_key (walk t u).1) as Ha.
  { pose proof (cb_ok_ascii _ _ Ht) as A. rewrite Forall_forall in A. apply A, walk_key_in. }
  destruct (diff_position _ _ _ Ha Hu E) as (k & Hk & Ho & Hd & Hne & Hsame).
  destruct (place_ok 0 t u nb k Ht Hu Hk ltac:(lia) Hsame Hne) as [Hok Hp].
  cbn [cb_insert]. rewrite E. cbv zeta. rewrite Ho, Hd. cbn [andb negb].
  eexists. split_and!; [|exact Hok|exact Hp|].
  - by destruct (keybit (walk t u).1 (bitpos nb k)).
  - intros Hin. apply (walk_finds _ _ _ Ht) in Hin. by rewrite Hin in Hne.
Qed.
End critbit.

Arguments cb_node V : clear implicits.

Section map_facts.
Context {V : Type}.
Implicit Types (root : option (cb_node V)) (t : cb_node V).

Lemma insert_present root u : cb_wf root -> ascii_key u -> is_Some (to_map root !! u) ->
  forall node_ok leaf_ok dup_ok, cb_insert root u node_ok leaf_ok dup_ok = Ret (1, root).
Proof.
  intros Hw Hu [v Hv] n l d. destruct root as [t|]; [|done]. cbn in Hw.
  pose proof (insert_cases t u Hw Hu) as H. cbn [cb_insert]. cbv zeta.
  destruct (first_diff (walk t u).1 u) as [nb|]; [|done].
  destruct H as (_ & _ & _ & _ & Hn). by rewrite (proj2 (to_map_none t u) Hn) in Hv.
Qed.

Lemma insert_absent root u : cb_wf root -> ascii_key u -> to_map root !! u = None ->
  exists t, cb_insert root u true true true = Ret (2, Some t) /\ cb_ok 0 t /\
    to_map (Some t) = <[u := None]> (to_map root) /\ (walk t u).1 = u.
Proof.
  intros Hw Hu Hv. destruct root as [t|].
  2:{ eexists. split_and!; [done|by constructor|done|done]. }
  cbn in Hw. pose proof (insert_cases t u Hw Hu) as H.
  destruct (first_diff (walk t u).1 u) as [nb|].
  - destruct H as (t' & -> & Hok & Hp & _). exists t'. split_and!; [done|done| |].
    + rewrite (to_map_perm t' _ (keys_nodup _ _ Hok) Hp). done.
    + apply (walk_finds _ _ _ Hok). rewrite (entries_keys_perm _ _ _ _ Hp). by left.
  - exfalso. apply to_map_none in Hv. apply Hv. rewrite <- H. apply walk_key_in.
Qed.

Lemma insert_no_memory root u node_ok leaf_ok dup_ok : cb_wf root -> ascii_key u ->
  to_map root !! u = None -> leaf_ok && dup_ok = false ->
  cb_insert root u node_ok leaf_ok dup_ok = Ret (0, root).
Proof.
  intros Hw Hu Hv Hf. destruct root as [t|]; cbn [cb_insert]; cbv zeta; [|by rewrite Hf].
  pose proof (insert_cases t u Hw Hu) as H. destruct (first_diff (walk t u).1 u) as [nb|].
  - by rewrite <- andb_assoc, Hf, andb_false_r.
  - exfalso. apply to_map_none in Hv. apply Hv. rewrite <- H. apply walk_key_in.
Qed.

(** Storing through the slot [cb_insert] has just handed out. *)
Lemma store_slot t u v : cb_ok 0 t -> (walk t u).1 = u ->
  cb_wf (Some (store t u v)) /\ to_map (Some (store t u v)) = <[u := v]> (to_map (Some t)).
Proof.
  intros Ht Hu. split; [by apply (store_ok 0)|]. rewrite (store_map t u v (keys_nodup _ _ Ht)). by rewrite Hu.
Qed.

Lemma delete_cases root u : cb_wf root ->
  match cb_delete root u with
  | None => to_map root !! u = None
  | Some (v, r) => to_map root !! u = Some v /\ cb_wf r /\ to_map r = delete u (to_map root)
  end.
Proof.
  destruct root as [t|]; [|done]. cbn [cb_delete cb_wf from_option]. intros Ht.
  pose proof (remove_spec 0 t u Ht) as H. pose proof (keys_nodup _ _ Ht) as Hn.
  destruct (remove t u) as [[v r]|]; [|by apply to_map_none]. destruct H as [Hp Hr].
  rewrite (to_map_perm t _ Hn Hp). cbn. rewrite lookup_insert_eq. split_and!; [done|by destruct r|].
  rewrite delete_insert_id; [by destruct r|]. apply not_elem_of_list_to_map_1.
  pose proof (entries_keys_perm _ _ _ _ Hp) as Hk. rewrite Hk in Hn. by apply NoDup_cons in Hn as [? _].
Qed.
End map_facts.

(** ** Properties *)

(** A tree of four keys, built with the operations. *)
Definition add (root : option (cb_node nat)) (kv : string * nat) : option (cb_node nat) :=
  match cb_insert root (lit kv.1) true true true with
  | Ret (_, Some t) => Some (store t (lit kv.1) (Some kv.2))
  | _ => root
  end.

Definition demo : option (cb_node nat) :=
  foldl add None [("scaramanga.co.uk", 1%nat); ("www.scaramanga.co.uk", 2%nat);
                  ("scaramanga.co", 3%nat); ("localhost", 4%nat)]%string.

Lemma add_wf root kv : cb_wf root -> ascii_key (lit kv.1) -> cb_wf (add root kv).
Proof.
  intros Hw Hu. unfold add. destruct (to_map root !! lit kv.1) as [v|] eqn:E.
  - rewrite (insert_present root _ Hw Hu (ex_intro _ v E)). destruct root as [t|]; [|done].
    by apply (store_ok 0).
  - destruct (insert_absent root _ Hw Hu E) as (t & -> & Hok & _). by apply (store_ok 0).
Qed.

Lemma demo_wf : cb_wf demo.
Proof. repeat (apply add_wf; [|by_decide]). done. Qed.

(** C30: a lookup in a well-formed crit-bit tree answers as the finite map the tree
    stands for, for every key: found with the stored value exactly when the
    key is in the map. *)
Theorem cb_contains_map {V} (root : option (cb_node V)) u :
  cb_wf root -> cb_contains root u = to_map root !! u.
Proof. apply contains_lookup. Qed.

Lemma cb_contains_map_witness :
  cb_contains demo (lit "scaramanga.co") = Some (Some 3%nat) /\
  cb_contains demo (lit "scaramanga.com") = None /\
  cb_contains demo (lit "scaramanga.co") = to_map demo !! lit "scaramanga.co".
Proof. split_and!; [reflexivity|reflexivity|]. apply cb_contains_map, demo_wf. Defined.

(** C28: inserting a key of bytes below 0x80 into a well-formed tree returns 1 and leaves the tree alone when the key is
    there; when it is not, it returns 2 and a well-formed tree whose map is
    the old one with the key added and no value, and storing through the
    slot it hands out sets exactly that key; when the leaf or the key cannot
    be allocated it returns 0 and the tree is unchanged. *)
Theorem cb_insert_map {V} (root : option (cb_node V)) u :
  cb_wf root -> ascii_key u ->
  (is_Some (to_map root !! u) ->
    forall node_ok leaf_ok dup_ok, cb_insert root u node_ok leaf_ok dup_ok = Ret (1, root)) /\
  (to_map root !! u = None ->
    (exists t, cb_insert root u true true true = Ret (2, Some t) /\ cb_wf (Some t) /\
      to_map (Some t) = <[u := None]> (to_map root) /\
      forall v, cb_wf (Some (store t u v)) /\
        to_map (Some (store t u v)) = <[u := v]> (to_map root)) /\
    forall node_ok leaf_ok dup_ok, leaf_ok && dup_ok = false ->
      cb_insert root u node_ok leaf_ok dup_ok = Ret (0, root)).
Proof.
  intros Hw Hu. split; [by apply insert_present|]. intros Hn. split; [|intros; by apply insert_no_memory].
  destruct (insert_absent root u Hw Hu Hn) as (t & Hi & Hok & Hm & Hwk).
  exists t. split_and!; [done|done|done|]. intros v. destruct (store_slot t u v Hok Hwk) as [Hs ->].
  split; [done|]. by rewrite Hm, insert_insert_eq.
Qed.

Lemma cb_insert_map_witness :
  is_Some (to_map demo !! lit "localhost") /\
  (exists t, cb_insert demo (lit "local") true true true = Ret (2, Some t) /\
    to_map (Some t) = <[lit "local" := None]> (to_map demo)).
Proof.
  split; [by_decide|].
  destruct (cb_insert_map demo (lit "local") demo_wf ltac:(by_decide)) as [_ H].
  destruct (H ltac:(vm_compute; reflexivity)) as [(t & Ht & _ & Hm & _) _].
  exists t. split; [exact Ht|exact Hm].
Defined.

(** C32: deleting a key reports it absent exactly when it is, and otherwise gives
    the value it was stored with and a well-formed tree whose map is the old
    one without the key. *)
Theorem cb_delete_map {V} (root : option (cb_node V)) u :
  cb_wf root ->
  match cb_delete root u with
  | None => to_map root !! u = None
  | Some (v, root') =>
    to_map root !! u = Some v /\ cb_wf root' /\ to_map root' = delete u (to_map root)
  end.
Proof. apply delete_cases. Qed.

Lemma cb_delete_map_witness :
  match cb_delete demo (lit "www.scaramanga.co.uk") with
  | Some (v, root') => v = Some 2%nat /\ cb_contains root' (lit "www.scaramanga.co.uk") = None
  | None => False
  end /\ to_map demo !! lit "scaramanga" = None.
Proof.
  split; [vm_compute; done|]. exact (cb_delete_map demo (lit "scaramanga") demo_wf).
Defined.

(** a key that differs from the one it is compared with in a character above
    0x7f makes [cb_insert] write outside the new node: the characters are
    sign-extended when they are combined, and the child index computed from
    them is in the millions. A tree that holds one ASCII key shows it. *)
Theorem cb_insert_high_byte {V} (key u : list Z) (v : option V) c :
  0x80 <= c < 0x100 -> ascii_key key ->
  cb_insert (Some (Leaf key v)) (c :: u) true true true = Fault OutOfBounds.
Proof.
  intros Hc Hk. cbn [cb_insert walk fst].
  assert (0 <= char_at key 0 < 0x80) as Hd by (by apply char_at_ascii).
  assert (first_diff key (c :: u) = Some 0%nat) as ->.
  { destruct key as [|d key]; [done|]. cbn in *. by destruct (Z.eqb_spec d c); [lia|]. }
  cbn [char_at nth andb negb]. set (d := char_at key 0) in *.
  assert ((1 <? newdirection (newotherbits d c) d) = true) as ->; [|done].
  assert (forallb (fun d => (128 <=? d) || forallb (fun c => (c <? 128) ||
    (1 <? newdirection (newotherbits d c) d)) (Z.of_nat <$> seq 0 256)) (Z.of_nat <$> seq 0 256) = true) as Hall
    by (vm_compute; reflexivity).
  pose proof (byte_ind _ Hall d ltac:(lia)) as H. cbv beta in H.
  apply orb_true_iff in H as [H|H]; [lia|]. pose proof (byte_ind _ H c ltac:(lia)) as H2. cbv beta in H2.
  apply orb_true_iff in H2 as [H2|H2]; [lia|done].
Qed.

Lemma cb_insert_high_byte_witness :
  0x80 <= 0xc3 < 0x100 /\
  cb_insert (Some (Leaf (lit "localhost") (Some 4%nat))) [0xc3; 0xa9] true true true = Fault OutOfBounds.
Proof. split; [lia|]. apply cb_insert_high_byte; [lia|by_decide]. Defined.
