(* ===== verification/Rbtree.v ===== *)
(** * rbtree.c: red-black trees

    Nodes with parent pointers in a memory: an address stands for a node, 0 for
    NULL. Everything comes in two mirror images; a side is a [bool], [false]
    for 0 (left), so that [0 ^ side] is [side] and [1 ^ side] is [negb side].
    No program of the repository uses the trees any more. *)

From S2P Require Import Prelude.
Local Open Scope Z_scope.

Definition COLOR_RED : Z := 0.
Definition COLOR_BLACK : Z := 1.

(** [rb_child] with its two elements. *)
Record rb_node := RbNode { rb_parent : nat; rb_left : nat; rb_right : nat; rb_color : Z }.

(** The tree with the memory its nodes are in. *)
Record rbtree := Rbtree { rbt_root : nat; rbt_mem : gmap nat rb_node }.

Definition rb_child (x : rb_node) (side : bool) : nat := if side then rb_right x else rb_left x.

Definition with_child (x : rb_node) (side : bool) (v : nat) : rb_node :=
  if side then RbNode (rb_parent x) (rb_left x) v (rb_color x) else RbNode (rb_parent x) v (rb_right x) (rb_color x).
Definition with_parent (x : rb_node) (v : nat) : rb_node := RbNode v (rb_left x) (rb_right x) (rb_color x).
Definition with_color (x : rb_node) (c : Z) : rb_node := RbNode (rb_parent x) (rb_left x) (rb_right x) c.

Definition get_node (s : rbtree) (a : nat) : outcome rb_node := of_option OutOfBounds (rbt_mem s !! a).

Definition update (s : rbtree) (a : nat) (f : rb_node -> rb_node) : outcome rbtree :=
  x ← get_node s a; Ret (Rbtree (rbt_root s) (<[a := f x]> (rbt_mem s))).

Definition set_child s a side v : outcome rbtree := update s a (fun x => with_child x side v).
Definition set_parent s a v : outcome rbtree := update s a (fun x => with_parent x v).
Definition set_color s a c : outcome rbtree := update s a (fun x => with_color x c).
Definition set_root (s : rbtree) (v : nat) : rbtree := Rbtree v (rbt_mem s).

(** ** Walking *)

(** [while ( n->rb_child[side] ) n = n->rb_child[side]]. *)
Fixpoint descend (fuel : nat) (s : rbtree) (n : nat) (side : bool) : outcome nat :=
  match fuel with
  | O => Fault OutOfFuel
  | S fuel =>
    x ← get_node s n;
    if (rb_child x side =? 0)%nat then Ret n else descend fuel s (rb_child x side) side
  end.

(** Up for as long as [n] is not the child on [side]. *)
Fixpoint ascend (fuel : nat) (s : rbtree) (n : nat) (side : bool) : outcome nat :=
  match fuel with
  | O => Fault OutOfFuel
  | S fuel =>
    x ← get_node s n;
    if (rb_parent x =? 0)%nat then Ret 0%nat
    else
      p ← get_node s (rb_parent x);
      if (n =? rb_child p side)%nat then Ret (rb_parent x) else ascend fuel s (rb_parent x) side
  end.

Definition node_prev_next (fuel : nat) (s : rbtree) (n : nat) (prev : bool) : outcome nat :=
  if (n =? 0)%nat then Ret 0%nat
  else
    x ← get_node s n;
    if negb (rb_child x (negb prev) =? 0)%nat then descend fuel s (rb_child x (negb prev)) prev
    else ascend fuel s n prev.

Definition node_first_last (fuel : nat) (s : rbtree) (first : bool) : outcome nat :=
  if (rbt_root s =? 0)%nat then Ret 0%nat else descend fuel s (rbt_root s) (negb first).

Definition node_first fuel s := node_first_last fuel s true.
Definition node_last fuel s := node_first_last fuel s false.
Definition node_next fuel s n := node_prev_next fuel s n false.
Definition node_prev fuel s n := node_prev_next fuel s n true.

(** ** Rotations *)

Definition do_rotate (s : rbtree) (n : nat) (side : bool) : outcome rbtree :=
  x ← get_node s n;
  let opp := rb_child x (negb side) in
  o ← get_node s opp;
  s ← set_child s n (negb side) (rb_child o side);
  s ← (if (rb_child o side =? 0)%nat then Ret s else set_parent s (rb_child o side) n);
  s ← set_child s opp side n;
  x ← get_node s n;
  s ← set_parent s opp (rb_parent x);
  s ← (if (rb_parent x =? 0)%nat then Ret (set_root s opp)
       else
         p ← get_node s (rb_parent x);
         set_child s (rb_parent x) (if (n =? rb_child p side)%nat then side else negb side) opp);
  set_parent s n opp.

(** ** Insertion *)

Definition is_color (s : rbtree) (a : nat) (c : Z) : outcome bool := x ← get_node s a; Ret (rb_color x =? c).

(** [n] is there and red. *)
Definition is_red (s : rbtree) (n : nat) : outcome bool := if (n =? 0)%nat then Ret false else is_color s n COLOR_RED.
(** [n] is not there, or black. *)
Definition is_black (s : rbtree) (n : nat) : outcome bool := if (n =? 0)%nat then Ret true else is_color s n COLOR_BLACK.

Fixpoint insert_loop (fuel : nat) (s : rbtree) (n : nat) : outcome rbtree :=
  match fuel with
  | O => Fault OutOfFuel
  | S fuel =>
    x ← get_node s n;
    let parent := rb_parent x in
    if (parent =? 0)%nat then Ret s
    else
      p ← get_node s parent;
      if rb_color p =? COLOR_BLACK then Ret s
      else
        let gparent := rb_parent p in
        g ← get_node s gparent;
        let side := (parent =? rb_child g true)%nat in
        let uncle := rb_child g (negb side) in
        red ← is_red s uncle;
        if (red : bool) then
          s ← set_color s gparent COLOR_RED;
          s ← set_color s parent COLOR_BLACK;
          s ← set_color s uncle COLOR_BLACK;
          insert_loop fuel s gparent
        else
          '(s, n, parent) ← (if (n =? rb_child p (negb side))%nat then
              s ← do_rotate s parent side; Ret (s, parent, n)
            else Ret (s, n, parent));
          s ← set_color s parent COLOR_BLACK;
          s ← set_color s gparent COLOR_RED;
          s ← do_rotate s gparent (negb side);
          insert_loop fuel s n
  end.

Definition rbtree_insert_rebalance (fuel : nat) (s : rbtree) (n : nat) : outcome rbtree :=
  s ← insert_loop fuel s n;
  set_color s (rbt_root s) COLOR_BLACK.

(** ** Deletion *)

(** The second half of the loop's body: [other] is black and has a red child. *)
Definition delete_last (s : rbtree) (parent other : nat) (side : bool) : outcome rbtree :=
  o ← get_node s other;
  far_black ← is_black s (rb_child o (negb side));
  '(s, other) ← (if (far_black : bool) then
      s ← (if (rb_child o side =? 0)%nat then Ret s else set_color s (rb_child o side) COLOR_BLACK);
      s ← set_color s other COLOR_RED;
      s ← do_rotate s other side;
      p ← get_node s parent;
      Ret (s, rb_child p (negb side))
    else Ret (s, other));
  p ← get_node s parent;
  s ← set_color s other (rb_color p);
  s ← set_color s parent COLOR_BLACK;
  o ← get_node s other;
  s ← (if (rb_child o (negb side) =? 0)%nat then Ret s else set_color s (rb_child o (negb side)) COLOR_BLACK);
  do_rotate s parent side.

(** The result is the node to make black, with the tree. *)
Fixpoint delete_loop (fuel : nat) (s : rbtree) (n parent : nat) : outcome (rbtree * nat) :=
  match fuel with
  | O => Fault OutOfFuel
  | S fuel =>
    black ← is_black s n;
    if negb black || (n =? rbt_root s)%nat then Ret (s, n)
    else
      p ← get_node s parent;
      let side := (rb_child p true =? n)%nat in
      let other := rb_child p (negb side) in
      red ← is_color s other COLOR_RED;
      '(s, other) ← (if (red : bool) then
          s ← set_color s other COLOR_BLACK;
          s ← set_color s parent COLOR_RED;
          s ← do_rotate s parent side;
          p ← get_node s parent;
          Ret (s, rb_child p (negb side))
        else Ret (s, other));
      o ← get_node s other;
      near ← is_black s (rb_child o side);
      both ← (if (near : bool) then is_black s (rb_child o (negb side)) else Ret false);
      if (both : bool) then
        s ← set_color s other COLOR_RED;
        p ← get_node s parent;
        delete_loop fuel s parent (rb_parent p)
      else
        s ← delete_last s parent other side;
        Ret (s, rbt_root s)
  end.

Definition delete_rebalance (fuel : nat) (s : rbtree) (n parent : nat) : outcome rbtree :=
  '(s, n) ← delete_loop fuel s n parent;
  if (n =? 0)%nat then Ret s else set_color s n COLOR_BLACK.

(** The link from [parent], or from the root, to [n] leads to [v] now. *)
Definition relink (s : rbtree) (parent n v : nat) : outcome rbtree :=
  if (parent =? 0)%nat then Ret (set_root s v)
  else
    p ← get_node s parent;
    set_child s parent (negb (rb_child p false =? n)%nat) v.

(** [n] with at most one child, [child], leaves the tree. *)
Definition splice_out (s : rbtree) (n child parent : nat) : outcome rbtree :=
  s ← (if (child =? 0)%nat then Ret s else set_parent s child parent);
  relink s parent n child.

Definition rbtree_delete_node (fuel : nat) (s : rbtree) (n : nat) : outcome rbtree :=
  x ← get_node s n;
  '(s, child, parent, color) ←
    (if negb (rb_left x =? 0)%nat && negb (rb_right x =? 0)%nat then
       let old := n in
       n ← descend fuel s (rb_right x) false;
       x ← get_node s n;
       let child := rb_right x in
       let color := rb_color x in
       s ← splice_out s n child (rb_parent x);
       let parent := if (rb_parent x =? old)%nat then n else rb_parent x in
       o ← get_node s old;
       s ← update s n (fun _ => o);
       s ← relink s (rb_parent o) old n;
       s ← set_parent s (rb_left o) n;
       s ← (if (rb_right o =? 0)%nat then Ret s else set_parent s (rb_right o) n);
       Ret (s, child, parent, color)
     else
       let child := if (rb_left x =? 0)%nat then rb_right x else rb_left x in
       s ← splice_out s n child (rb_parent x);
       Ret (s, child, rb_parent x, rb_color x));
  if color =? COLOR_BLACK then delete_rebalance fuel s child parent else Ret s.

(** ** Trees on paper *)

Inductive tree := Leaf | Node (a : nat) (c : Z) (l r : tree).

#[export] Instance tree_eq_dec : EqDecision tree.
Proof. solve_decision. Defined.

Definition addr (t : tree) : nat := match t with Leaf => 0%nat | Node a _ _ _ => a end.

Fixpoint inorder (t : tree) : list nat :=
  match t with Leaf => [] | Node a _ l r => inorder l ++ a :: inorder r end.

(** The tree whose child on [side] is [x]. *)
Definition bin (side : bool) (a : nat) (c : Z) (x y : tree) : tree := if side then Node a c y x else Node a c x y.

Definition node (side : bool) (par : nat) (c : Z) (u v : nat) : rb_node := if side then RbNode par v u c else RbNode par u v c.

(** The subtree is in memory, below [par]. *)
Fixpoint rep (m : gmap nat rb_node) (par : nat) (t : tree) : Prop :=
  match t with
  | Leaf => True
  | Node a c l r => m !! a = Some (RbNode par (addr l) (addr r) c) /\ rep m a l /\ rep m a r
  end.

(** A place in a tree: the way up, with what branches off. *)
Record frame := Fr { f_side : bool; f_addr : nat; f_color : Z; f_sib : tree }.

Definition top (ctx : list frame) : nat := match ctx with [] => 0%nat | f :: _ => f_addr f end.

Fixpoint plug (ctx : list frame) (t : tree) : tree :=
  match ctx with [] => t | f :: ctx => plug ctx (bin (f_side f) (f_addr f) (f_color f) t (f_sib f)) end.

Fixpoint rep_ctx (s : rbtree) (ctx : list frame) (hole : nat) : Prop :=
  match ctx with
  | [] => rbt_root s = hole
  | f :: ctx => rbt_mem s !! f_addr f = Some (node (f_side f) (top ctx) (f_color f) hole (addr (f_sib f))) /\
      rep (rbt_mem s) (f_addr f) (f_sib f) /\ rep_ctx s ctx (f_addr f)
  end.

Fixpoint around (ctx : list frame) : list nat :=
  match ctx with [] => [] | f :: ctx => f_addr f :: inorder (f_sib f) ++ around ctx end.

(** [t] is the tree's part at the place [ctx]. *)
Record focus (s : rbtree) (ctx : list frame) (t : tree) : Prop := {
  fo_ctx : rep_ctx s ctx (addr t);
  fo_rep : rep (rbt_mem s) (top ctx) t;
  fo_dup : NoDup (0%nat :: around ctx ++ inorder t);
}.

(** The whole tree. *)
Definition tree_in (s : rbtree) (t : tree) : Prop := focus s [] t.

Lemma inorder_bin side a c x y : inorder (bin side a c x y) ≡ₚ a :: inorder x ++ inorder y.
Proof. destruct side; cbn; [rewrite <- Permutation_middle, (Permutation_app_comm (inorder x)); done|by rewrite <- Permutation_middle]. Qed.

Lemma rep_bin m par side a c x y : rep m par (bin side a c x y) <-> m !! a = Some (node side par c (addr x) (addr y)) /\ rep m a x /\ rep m a y.
Proof. destruct side; cbn; tauto. Qed.

Lemma addr_bin side a c x y : addr (bin side a c x y) = a.
Proof. by destruct side. Qed.

Lemma child_node side par c u v : rb_child (node side par c u v) side = u /\ rb_child (node side par c u v) (negb side) = v /\
  rb_parent (node side par c u v) = par /\ rb_color (node side par c u v) = c.
Proof. by destruct side. Qed.

Lemma with_child_node side par c u v w : with_child (node side par c u v) side w = node side par c w v /\
  with_child (node side par c u v) (negb side) w = node side par c u w.
Proof. by destruct side. Qed.

Lemma with_parent_node side par c u v w : with_parent (node side par c u v) w = node side w c u v.
Proof. by destruct side. Qed.

Lemma with_color_node side par c u v w : with_color (node side par c u v) w = node side par w u v.
Proof. by destruct side. Qed.

Lemma addr_in t : t = Leaf /\ addr t = 0%nat \/ addr t ∈ inorder t.
Proof. destruct t; [by left|right]. cbn. set_solver. Qed.

Lemma rep_frame m m' par t : (forall a, a ∈ inorder t -> m' !! a = m !! a) -> rep m par t -> rep m' par t.
Proof.
  revert par. induction t as [|a c l IHl r IHr]; intros par H; cbn; [done|]. intros (H1 & H2 & H3).
  rewrite H by (cbn; set_solver). split_and!; [done|apply IHl|apply IHr]; try done; intros b Hb; apply H; cbn; set_solver.
Qed.

Lemma rep_ctx_frame s s' ctx hole : rbt_root s' = rbt_root s -> (forall a, a ∈ around ctx -> rbt_mem s' !! a = rbt_mem s !! a) ->
  rep_ctx s ctx hole -> rep_ctx s' ctx hole.
Proof.
  revert hole. induction ctx as [|f ctx IH]; intros hole Hr H; cbn; [congruence|]. intros (H1 & H2 & H3).
  rewrite H by (cbn; set_solver). split_and!; [done|apply (rep_frame (rbt_mem s)); [|done]; intros a Ha; apply H; cbn; set_solver|].
  apply IH; [done| |done]. intros a Ha. apply H. cbn. set_solver.
Qed.

(** Another tree in the place, whose root is [v]. *)
Definition refocused (s s' : rbtree) (ctx : list frame) (u v : nat) : Prop :=
  match ctx with
  | [] => rbt_root s' = v
  | f :: _ => rbt_root s' = rbt_root s /\ forall x, rbt_mem s !! f_addr f = Some x -> rb_child x (f_side f) = u ->
      rbt_mem s' !! f_addr f = Some (with_child x (f_side f) v)
  end.

Lemma rep_ctx_refocus s s' ctx u v : rep_ctx s ctx u -> NoDup (around ctx) -> refocused s s' ctx u v ->
  (forall a, a ∈ around ctx -> a <> top ctx -> rbt_mem s' !! a = rbt_mem s !! a) -> rep_ctx s' ctx v.
Proof.
  destruct ctx as [|f ctx]; cbn; [done|]. intros (H1 & H2 & H3) [Hn Hd]%NoDup_cons [Hr Hx] H.
  pose proof (child_node (f_side f) (top ctx) (f_color f) u (addr (f_sib f))) as (Hc & _).
  rewrite (Hx _ H1 Hc). destruct (with_child_node (f_side f) (top ctx) (f_color f) u (addr (f_sib f)) v) as [-> _].
  split_and!; [done| |].
  - apply (rep_frame (rbt_mem s)); [|done]. intros a Ha. apply H; [set_solver|]. intros ->. set_solver.
  - apply (rep_ctx_frame s); [done| |done]. intros a Ha. apply H; [set_solver|]. intros ->. set_solver.
Qed.

(** The root of a part gets another parent. *)
Lemma rep_reparent m m' par par' t : NoDup (inorder t) -> rep m par t ->
  (forall x, t <> Leaf -> m !! addr t = Some x -> m' !! addr t = Some (with_parent x par')) ->
  (forall a, a ∈ inorder t -> a <> addr t -> m' !! a = m !! a) -> rep m' par' t.
Proof.
  destruct t as [|a c l r]; [done|]. intros Hnd (H1 & H2 & H3) Hx H. cbn in *.
  apply NoDup_app in Hnd as (Hl & Hdis & [Hr Hrr]%NoDup_cons).
  rewrite (Hx _ ltac:(done) H1). split_and!; [done| |]; apply (rep_frame m); try done; intros b Hb; apply H; try set_solver.
Qed.

(** *** Rotation *)

Lemma focus_perm s ctx t t' s' : focus s ctx t -> inorder t' ≡ₚ inorder t -> rep_ctx s' ctx (addr t') -> rep (rbt_mem s') (top ctx) t' -> focus s' ctx t'.
Proof.
  intros [_ _ Hd] Hp H1 H2. split; [done|done|]. by rewrite Hp.
Qed.

(** The addresses around a rotation are different ones. *)
Lemma rotate_apart ctx n opp (A M R : list nat) : NoDup (0%nat :: around ctx ++ n :: A ++ opp :: M ++ R) ->
  n <> opp /\ n <> 0%nat /\ opp <> 0%nat /\ n ∉ around ctx /\ opp ∉ around ctx /\ n ∉ A /\ n ∉ M /\ n ∉ R /\ opp ∉ A /\ opp ∉ M /\ opp ∉ R /\
  NoDup (around ctx) /\ NoDup M /\ (forall a, a ∈ around ctx -> a ∉ A /\ a ∉ M /\ a ∉ R /\ a <> 0%nat) /\
  (forall a, a ∈ M -> a ∉ A /\ a ∉ R /\ a <> 0%nat).
Proof.
  intros [H0 Hd]%NoDup_cons. apply NoDup_app in Hd as (Hc & Hcd & [Hn Hd]%NoDup_cons). apply NoDup_app in Hd as (HA & HAd & [Ho Hd]%NoDup_cons).
  apply NoDup_app in Hd as (HM & HMR & HR).
  assert (forall a, a ∈ around ctx -> a ∉ n :: A ++ opp :: M ++ R) as Hc' by done.
  split_and!; try done; try set_solver.
Qed.

Lemma rb_update_ok s a f x : rbt_mem s !! a = Some x -> update s a f = Ret (Rbtree (rbt_root s) (<[a := f x]> (rbt_mem s))).
Proof. intros H. unfold update, get_node. by rewrite H. Qed.

Lemma rb_get_ok s a x : rbt_mem s !! a = Some x -> get_node s a = Ret x.
Proof. intros H. unfold get_node. by rewrite H. Qed.

(** Looking up what has been written, or has not; the next read or write. *)
Ltac look := cbn [rbt_mem set_root]; repeat (rewrite lookup_insert_ne by congruence); first [apply lookup_insert_eq|eassumption].
Ltac mem_step := match goal with
  | |- context [update ?s ?a ?f] => erewrite (rb_update_ok s a f) by look; run
  | |- context [get_node ?s ?a] => erewrite (rb_get_ok s a) by look; run
  end.

(** What a rotation leaves behind. *)
Record rotated (s s' : rbtree) (ctx : list frame) (side : bool) (n : nat) (c : Z) (A : tree) (opp : nat) (c' : Z) (M R : tree) : Prop := {
  ro_ref : refocused s s' ctx n opp;
  ro_n : rbt_mem s' !! n = Some (node side opp c (addr A) (addr M));
  ro_opp : rbt_mem s' !! opp = Some (node side (top ctx) c' n (addr R));
  ro_mid : forall x, M <> Leaf -> rbt_mem s !! addr M = Some x -> rbt_mem s' !! addr M = Some (with_parent x n);
  ro_same : forall a, a <> n -> a <> opp -> (M <> Leaf -> a <> addr M) -> (ctx <> [] -> a <> top ctx) -> rbt_mem s' !! a = rbt_mem s !! a;
}.

(** The child in the middle, if there is one, gets [n] as its parent. *)
Lemma adopt_mid s n x opp M : rep (rbt_mem s) opp M -> n ∉ inorder M -> (forall a, a ∈ inorder M -> a <> 0%nat) ->
  exists s1, (if (addr M =? 0)%nat then Ret (Rbtree (rbt_root s) (<[n := x]> (rbt_mem s)))
      else update (Rbtree (rbt_root s) (<[n := x]> (rbt_mem s))) (addr M) (fun x => with_parent x n)) = Ret s1 /\
    rbt_root s1 = rbt_root s /\ rbt_mem s1 !! n = Some x /\
    (forall x, M <> Leaf -> rbt_mem s !! addr M = Some x -> rbt_mem s1 !! addr M = Some (with_parent x n)) /\
    (forall a, a <> n -> (M <> Leaf -> a <> addr M) -> rbt_mem s1 !! a = rbt_mem s !! a).
Proof.
  intros HM Hn H0. destruct M as [|k ck L' R']; cbn [addr] in *.
  - eexists. split; [reflexivity|]. split_and!; [done|look|done|]. intros a Ha _. cbn. by rewrite lookup_insert_ne.
  - destruct HM as (Hk & _). assert (k <> n /\ k <> 0%nat) as [Hkn Hk0] by (split; [intros ->; apply Hn; cbn; set_solver|apply H0; cbn; set_solver]).
    rewrite (proj2 (Nat.eqb_neq k 0) Hk0). mem_step. eexists. split; [reflexivity|]. split_and!; [done|look| |].
    + intros y _ Hy. rewrite Hk in Hy. injection Hy as <-. look.
    + intros a Ha Hak. specialize (Hak ltac:(done)). cbn. by rewrite !lookup_insert_ne by congruence.
Qed.

(** The link from above, or the root, leads to [opp]. *)
Lemma relink_top s s3 ctx side n opp : rep_ctx s ctx n -> rbt_root s3 = rbt_root s -> n ∉ around ctx -> n <> 0%nat ->
  (ctx <> [] -> top ctx <> 0%nat /\ rbt_mem s3 !! top ctx = rbt_mem s !! top ctx) ->
  exists s4, (if (top ctx =? 0)%nat then Ret (set_root s3 opp)
      else p ← get_node s3 (top ctx); update s3 (top ctx) (fun x => with_child x (if (n =? rb_child p side)%nat then side else negb side) opp)) = Ret s4 /\
    refocused s s4 ctx n opp /\ (forall a, (ctx <> [] -> a <> top ctx) -> rbt_mem s4 !! a = rbt_mem s3 !! a).
Proof.
  intros Hc E3 Hnc Hn0 H. destruct ctx as [|f ctx]; cbn [top]; [by eexists|]. destruct Hc as (Hf & _ & _). destruct (H ltac:(done)) as [Hp0 P3].
  cbn [top] in Hp0, P3. rewrite Hf in P3. rewrite (proj2 (Nat.eqb_neq (f_addr f) 0) Hp0). mem_step. mem_step. eexists. split; [reflexivity|]. split; [split; [done|]|].
  - intros x Hx _. rewrite Hf in Hx. injection Hx as <-. cbn. rewrite lookup_insert_eq. do 2 f_equal.
    destruct (child_node (f_side f) (top ctx) (f_color f) n (addr (f_sib f))) as (Hc1 & Hc2 & _).
    destruct (decide (side = f_side f)) as [->|Hs]; [by rewrite Hc1, Nat.eqb_refl|].
    assert (side = negb (f_side f)) as -> by (destruct side, (f_side f); done). rewrite Hc2, negb_involutive.
    destruct (Nat.eqb_spec n (addr (f_sib f))) as [Heq|]; [|done]. exfalso. apply Hnc. cbn. destruct (addr_in (f_sib f)) as [[_ E0]|Hin]; [congruence|]. rewrite Heq. set_solver.
  - intros a Ha. specialize (Ha ltac:(done)). cbn. by rewrite lookup_insert_ne.
Qed.

Lemma do_rotate_ok s ctx side n c A opp c' M R : focus s ctx (bin side n c A (bin side opp c' M R)) ->
  exists s', do_rotate s n side = Ret s' /\ rotated s s' ctx side n c A opp c' M R.
Proof.
  intros F. pose proof F as [Hc Hr Hd]. rewrite addr_bin in Hc. rewrite !rep_bin in Hr. destruct Hr as (Hn & HA & Ho & HM & HR).
  rewrite !inorder_bin in Hd. rewrite addr_bin in Hn.
  destruct (rotate_apart ctx n opp (inorder A) (inorder M) (inorder R) Hd) as (Hno & Hn0 & Ho0 & Hnc & Hoc & HnA & HnM & HnR & HoA & HoM & HoR & Hdc & HdM & Hca & HMa).
  unfold do_rotate. mem_step. destruct (child_node side (top ctx) c (addr A) opp) as (_ & -> & _). mem_step.
  destruct (child_node side n c' (addr M) (addr R)) as (-> & _). unfold set_child, set_parent. mem_step.
  destruct (with_child_node side (top ctx) c (addr A) opp (addr M)) as [_ ->].
  destruct (adopt_mid s n (node side (top ctx) c (addr A) (addr M)) opp M HM HnM) as (s1 & -> & E1 & N1 & M1 & S1); [by intros ? (_ & _ & ?)%HMa|].
  run. assert (rbt_mem s1 !! opp = Some (node side n c' (addr M) (addr R))) as O1.
  { rewrite S1; [done|congruence|]. intros Hl. destruct (addr_in M) as [[? _]|?]; [done|]. intros ->. done. }
  mem_step. destruct (with_child_node side n c' (addr M) (addr R) n) as [-> _]. mem_step.
  destruct (child_node side (top ctx) c (addr A) (addr M)) as (_ & _ & -> & _). mem_step. rewrite with_parent_node.
  set (s3 := Rbtree _ _). assert (rbt_mem s3 !! n = Some (node side (top ctx) c (addr A) (addr M))) as N3 by (unfold s3; look).
  assert (rbt_mem s3 !! opp = Some (node side (top ctx) c' n (addr R))) as O3 by (unfold s3; look).
  assert (forall a, a <> opp -> rbt_mem s3 !! a = rbt_mem s1 !! a) as S3 by (intros a Ha; unfold s3; cbn; by rewrite !lookup_insert_ne).
  assert (rbt_root s3 = rbt_root s) as E3 by done. clearbody s3.
  assert (forall x, M <> Leaf -> rbt_mem s !! addr M = Some x -> rbt_mem s3 !! addr M = Some (with_parent x n)) as M3.
  { intros x Hl Hx. rewrite S3; [by apply M1|]. destruct (addr_in M) as [[? _]|?]; [done|]. intros Heq. by rewrite Heq in *. }
  destruct (relink_top s s3 ctx side n opp Hc E3 Hnc Hn0) as (s4 & -> & R4 & S4).
  { destruct ctx as [|f ctx]; [done|]. intros _. cbn in Hnc, Hoc |- *. destruct (Hca (f_addr f)) as (_ & HpM & _ & Hp0); [cbn; set_solver|]. split; [done|].
    rewrite S3, S1; [done|set_solver| |set_solver]. intros Hl. destruct (addr_in M) as [[? _]|?]; [done|]. intros Heq. by rewrite Heq in *. }
  run. assert (ctx <> [] -> n <> top ctx /\ opp <> top ctx) as Hnt.
  { destruct ctx as [|f ctx]; [done|]. intros _. cbn in Hnc, Hoc |- *. split; intros ->; set_solver. }
  assert (rbt_mem s4 !! n = Some (node side (top ctx) c (addr A) (addr M))) as N4 by (rewrite S4; [done|apply Hnt]).
  mem_step. rewrite with_parent_node. eexists. split; [reflexivity|]. split; cbn [rbt_mem rbt_root].
  - destruct ctx as [|f ctx]; [exact R4|]. destruct R4 as [E4 R4]. split; [exact E4|]. intros x Hx Hu. cbn. rewrite lookup_insert_ne by (apply Hnt; done). by apply R4.
  - apply lookup_insert_eq.
  - rewrite lookup_insert_ne by done. rewrite S4; [done|apply Hnt].
  - intros x Hl Hx. destruct (addr_in M) as [[? _]|Hin]; [done|]. rewrite lookup_insert_ne by (intros Heq; by rewrite Heq in *). rewrite S4; [by apply M3|].
    intros Ht Heq. apply (HMa (addr M)) in Hin as Hm. destruct ctx as [|f ctx]; [done|]. cbn in Heq. destruct (Hca (f_addr f)) as (_ & Hx' & _); [cbn; set_solver|]. by rewrite <- Heq in Hx'.
  - intros a Ha1 Ha2 Ha3 Ha4. rewrite lookup_insert_ne by congruence. rewrite S4, S3, S1; done.
Qed.

Lemma rotate_focus s ctx side n c A opp c' M R : focus s ctx (bin side n c A (bin side opp c' M R)) ->
  exists s', do_rotate s n side = Ret s' /\ focus s' ctx (bin side opp c' (bin side n c A M) R).
Proof.
  intros F. destruct (do_rotate_ok s ctx side n c A opp c' M R F) as (s' & E & [Rr Rn Ro Rm Rs]). exists s'. split; [done|].
  destruct F as [Hc Hr Hd]. rewrite addr_bin in Hc. rewrite !rep_bin in Hr. destruct Hr as (_ & HA & _ & HM & HR). rewrite !inorder_bin in Hd.
  destruct (rotate_apart ctx n opp (inorder A) (inorder M) (inorder R) Hd) as (Hno & Hn0 & Ho0 & Hnc & Hoc & HnA & HnM & HnR & HoA & HoM & HoR & Hdc & HdM & Hca & HMa).
  assert (forall a, M <> Leaf -> a ∉ inorder M -> a <> addr M) as Hm by (intros a Hl Ha ->; destruct (addr_in M) as [[? _]|?]; done).
  assert (forall a, ctx <> [] -> a ∉ around ctx -> a <> top ctx) as Ht by (intros a Hl Ha ->; destruct ctx; [done|apply Ha; cbn; set_solver]).
  split.
  - rewrite addr_bin. apply (rep_ctx_refocus s s' ctx n opp); [done|done|done|]. intros a Ha Hat. apply Rs; [by intros ->|by intros ->| |done].
    intros Hl. apply Hm; [done|]. by apply Hca.
  - rewrite !rep_bin, !addr_bin. split_and!; [done|done| | |].
    + apply (rep_frame (rbt_mem s)); [|done]. intros a Ha. apply Rs; [by intros ->|by intros ->| |].
      * intros Hl. apply Hm; [done|]. intros Hin. by apply HMa in Hin as (? & _).
      * intros Hl. apply Ht; [done|]. intros Hin. by apply Hca in Hin as (? & _).
    + apply (rep_reparent (rbt_mem s) _ opp); [done|done|done|]. intros a Ha Haa. apply Rs; [by intros ->|by intros ->|done|].
      intros Hl. apply Ht; [done|]. intros Hin. by apply Hca in Hin as (_ & ? & _).
    + apply (rep_frame (rbt_mem s)); [|done]. intros a Ha. apply Rs; [by intros ->|by intros ->| |].
      * intros Hl. apply Hm; [done|]. intros Hin. by apply HMa in Hin as (_ & ? & _).
      * intros Hl. apply Ht; [done|]. intros Hin. by apply Hca in Hin as (_ & _ & ? & _).
  - rewrite !inorder_bin. revert Hd. apply NoDup_Permutation_proper. solve_Permutation.
Qed.

(** Moving the place: down a side, up again, painting. *)
Lemma focus_down s ctx side a c x y : focus s ctx (bin side a c x y) -> focus s (Fr side a c y :: ctx) x.
Proof.
  intros [Hc Hr Hd]. rewrite addr_bin in Hc. apply rep_bin in Hr as (H1 & H2 & H3). split; cbn; [by split_and!|done|].
  rewrite inorder_bin in Hd. revert Hd. apply NoDup_Permutation_proper. solve_Permutation.
Qed.

Lemma focus_up s ctx f x : focus s (f :: ctx) x -> focus s ctx (bin (f_side f) (f_addr f) (f_color f) x (f_sib f)).
Proof.
  intros [(H1 & H2 & H3) Hr Hd]. split; [by rewrite addr_bin|by apply rep_bin|].
  rewrite inorder_bin. revert Hd. apply NoDup_Permutation_proper. cbn. solve_Permutation.
Qed.

Lemma focus_plug s ctx : forall t, focus s ctx t <-> tree_in s (plug ctx t).
Proof.
  induction ctx as [|f ctx IH]; intros t; [done|]. cbn [plug]. rewrite <- IH. split; [apply focus_up|].
  destruct f as [side a c y]. apply focus_down.
Qed.

Lemma bin_flip side a c x y : bin (negb side) a c x y = bin side a c y x.
Proof. by destruct side. Qed.

Lemma focus_paint s ctx side a c x y c' : focus s ctx (bin side a c x y) ->
  exists s', set_color s a c' = Ret s' /\ focus s' ctx (bin side a c' x y).
Proof.
  intros [Hc Hr Hd]. rewrite addr_bin in Hc. apply rep_bin in Hr as (H1 & H2 & H3). rewrite inorder_bin in Hd. unfold set_color. mem_step.
  eexists. split; [reflexivity|]. rewrite with_color_node. pose proof Hd as [_ Hd']%NoDup_cons.
  apply NoDup_app in Hd' as (_ & Hdis & [Ha _]%NoDup_cons). split; cbn [rbt_mem rbt_root].
  - rewrite addr_bin. apply (rep_ctx_frame s); [done| |done]. intros b Hb. cbn. rewrite lookup_insert_ne; [done|]. intros ->. apply (Hdis b Hb). left.
  - apply rep_bin. split_and!; [look|..]; (apply (rep_frame (rbt_mem s)); [|done]); intros b Hb; rewrite lookup_insert_ne; (done || intros ->; set_solver).
  - by rewrite inorder_bin.
Qed.

(** ** Balance *)

Inductive rb : tree -> Z -> nat -> Prop :=
| rb_leaf : rb Leaf COLOR_BLACK 0
| rb_red a l r n : rb l COLOR_BLACK n -> rb r COLOR_BLACK n -> rb (Node a COLOR_RED l r) COLOR_RED n
| rb_black a l r cl cr n : rb l cl n -> rb r cr n -> rb (Node a COLOR_BLACK l r) COLOR_BLACK (S n).

(** A place that a tree of black height [n] fits in. *)
Inductive rb_ctx : list frame -> nat -> Prop :=
| rbc_root n : rb_ctx [] n
| rbc_black side a y c ctx n : rb y c n -> rb_ctx ctx (S n) -> rb_ctx (Fr side a COLOR_BLACK y :: ctx) n
| rbc_red side a y side2 a2 y2 ctx n : rb y COLOR_BLACK n -> rb_ctx (Fr side2 a2 COLOR_BLACK y2 :: ctx) n ->
    rb_ctx (Fr side a COLOR_RED y :: Fr side2 a2 COLOR_BLACK y2 :: ctx) n.

Lemma rb_bin_red side a x y n : rb x COLOR_BLACK n -> rb y COLOR_BLACK n -> rb (bin side a COLOR_RED x y) COLOR_RED n.
Proof. intros. destruct side; by constructor. Qed.

Lemma rb_bin_black side a x y c1 c2 n : rb x c1 n -> rb y c2 n -> rb (bin side a COLOR_BLACK x y) COLOR_BLACK (S n).
Proof. intros. destruct side; by econstructor. Qed.

(** Any tree fits below a black node. *)
Lemma plug_rb ctx : forall n t c, rb_ctx ctx n -> rb t c n -> (c = COLOR_RED -> match ctx with f :: _ => f_color f = COLOR_BLACK | [] => True end) ->
  exists c' m, rb (plug ctx t) c' m.
Proof.
  induction ctx as [|f ctx IH]; intros n t c Hc Ht Hr; cbn; [by exists c, n|]. inversion Hc as [|side a y c1 ctx1 n1 Hy Hrest|side a y side2 a2 y2 ctx1 n1 Hy Hrest]; subst; cbn [f_side f_addr f_color f_sib].
  - apply (IH (S n) _ COLOR_BLACK Hrest); [by eapply rb_bin_black|done].
  - assert (c = COLOR_BLACK) as ->.
    { destruct Ht; [done| |done]. by specialize (Hr eq_refl). }
    apply (IH n _ COLOR_RED Hrest); [by apply rb_bin_red|done].
Qed.

Lemma inorder_bin_eq side a c c' x x' y y' : inorder x = inorder x' -> inorder y = inorder y' -> inorder (bin side a c x y) = inorder (bin side a c' x' y').
Proof. intros E1 E2. destruct side; cbn; congruence. Qed.

Lemma plug_inorder ctx : forall t t', inorder t = inorder t' -> inorder (plug ctx t) = inorder (plug ctx t').
Proof. induction ctx as [|f ctx IH]; intros t t' E; cbn; [done|]. apply IH. by apply inorder_bin_eq. Qed.

(** Rotating keeps the order. *)
Lemma rotate_inorder side n c A opp c' M R d d' : inorder (bin side opp d (bin side n d' A M) R) = inorder (bin side n c A (bin side opp c' M R)).
Proof. destruct side; cbn; by rewrite <- app_assoc. Qed.

(** ** Insertion *)

Lemma focus_get s ctx side a c x y : focus s ctx (bin side a c x y) ->
  get_node s a = Ret (node side (top ctx) c (addr x) (addr y)) /\ (a =? 0)%nat = false.
Proof.
  intros [_ Hr Hd]. apply rep_bin in Hr as (H1 & _). split; [by apply rb_get_ok|]. apply Nat.eqb_neq. intros ->.
  apply NoDup_cons in Hd as [H0 _]. apply H0. rewrite inorder_bin. set_solver.
Qed.

(** Two children are different ones. *)
Lemma focus_sib s ctx side a c x y : focus s ctx (bin side a c x y) -> x <> Leaf -> (addr x =? addr y)%nat = false.
Proof.
  intros [_ _ Hd] Hl. apply Nat.eqb_neq. intros Heq. destruct (addr_in x) as [[? _]|Hx]; [done|].
  apply NoDup_cons in Hd as [H0 Hd]. apply NoDup_app in Hd as (_ & _ & Hd). rewrite inorder_bin in H0, Hd.
  apply NoDup_cons in Hd as [_ (_ & Hd & _)%NoDup_app]. destruct (addr_in y) as [[_ E0]|Hy].
  - apply H0. rewrite <- E0, <- Heq. set_solver.
  - apply (Hd _ Hx). by rewrite Heq.
Qed.

(** Which child of its parent a node is. *)
Lemma which_child s ctx f t : focus s (f :: ctx) t -> t <> Leaf -> forall side,
  (addr t =? rb_child (node (f_side f) (top ctx) (f_color f) (addr t) (addr (f_sib f))) side)%nat = eqb side (f_side f).
Proof.
  intros F Hl side. pose proof (focus_sib _ _ _ _ _ _ _ (focus_up _ _ _ _ F) Hl) as Hs.
  destruct (child_node (f_side f) (top ctx) (f_color f) (addr t) (addr (f_sib f))) as (C1 & C2 & _).
  destruct side, (f_side f); cbn in C1, C2 |- *; rewrite ?C1, ?C2, ?Nat.eqb_refl; done.
Qed.

(** The colour of the root. *)
Lemma is_red_ok s ctx t c n : focus s ctx t -> rb t c n -> is_red s (addr t) = Ret (c =? COLOR_RED).
Proof.
  intros F Hb. destruct Hb as [|a l r n Hl Hr|a l r cl cr n Hl Hr]; [done| |];
    destruct (focus_get s ctx false a _ l r F) as [Hg H0]; unfold is_red, is_color; cbn [addr]; rewrite H0, Hg; done.
Qed.

(** [parent] black, [gparent] red, and a rotation between them. *)
Lemma rotate_up {B} (k : rbtree -> outcome B) s ctx sg g q x y u : focus s ctx (bin sg g COLOR_BLACK (bin sg q COLOR_RED x y) u) ->
  exists s', (s ← set_color s q COLOR_BLACK; s ← set_color s g COLOR_RED; s ← do_rotate s g (negb sg); k s) = k s' /\
    focus s' ctx (bin sg q COLOR_BLACK x (bin sg g COLOR_RED y u)).
Proof.
  intros F. apply focus_down, (focus_paint _ _ _ _ _ _ _ COLOR_BLACK) in F as (s1 & -> & F). run.
  apply focus_up, (focus_paint _ _ _ _ _ _ _ COLOR_RED) in F as (s2 & E & F). cbn [f_side f_addr f_color f_sib] in *. rewrite E. run.
  rewrite <- (bin_flip sg g), <- (bin_flip sg q) in F. destruct (rotate_focus _ _ _ _ _ _ _ _ _ _ F) as (s3 & -> & F3).
  exists s3. split; [done|]. by rewrite (bin_flip sg q), (bin_flip sg g) in F3.
Qed.

(** The three are painted: the red moves up. *)
Lemma paint_three {B} (k : rbtree -> outcome B) s ctx sg g sp p t v su u ul ur :
  focus s (Fr sp p COLOR_RED v :: Fr sg g COLOR_BLACK (bin su u COLOR_RED ul ur) :: ctx) t ->
  exists s', (s ← set_color s g COLOR_RED; s ← set_color s p COLOR_BLACK; s ← set_color s u COLOR_BLACK; k s) = k s' /\
    focus s' ctx (bin sg g COLOR_RED (bin sp p COLOR_BLACK t v) (bin su u COLOR_BLACK ul ur)).
Proof.
  intros F. apply focus_up, focus_up, (focus_paint _ _ _ _ _ _ _ COLOR_RED) in F as (s1 & E1 & F). cbn [f_side f_addr f_color f_sib] in *.
  rewrite E1. run. apply focus_down, (focus_paint _ _ _ _ _ _ _ COLOR_BLACK) in F as (s2 & -> & F). run.
  apply focus_up in F. cbn [f_side f_addr f_color f_sib] in F. rewrite <- bin_flip in F.
  apply focus_down, (focus_paint _ _ _ _ _ _ _ COLOR_BLACK) in F as (s3 & -> & F). exists s3. split; [done|].
  apply focus_up in F. cbn [f_side f_addr f_color f_sib] in F. by rewrite bin_flip in F.
Qed.

Lemma get_frame s f ctx t : focus s (f :: ctx) t ->
  get_node s (f_addr f) = Ret (node (f_side f) (top ctx) (f_color f) (addr t) (addr (f_sib f))) /\ (f_addr f =? 0)%nat = false.
Proof. intros F. apply (focus_get s ctx). by apply focus_up. Qed.

(** The choice between a single and a double rotation ends with the red nodes in line. *)
Lemma line_up s ctx p v sp sg a l r n :
  focus s (Fr sp p COLOR_RED v :: ctx) (Node a COLOR_RED l r) -> rb v COLOR_BLACK n -> rb l COLOR_BLACK n -> rb r COLOR_BLACK n ->
  exists s' b q x y, (if eqb (negb sg) sp then s ← do_rotate s p sg; Ret (s, p, a) else Ret (s, a, p)) = Ret (s', b, q) /\
    focus s' ctx (bin sg q COLOR_RED x y) /\ addr x = b /\ rb x COLOR_RED n /\ rb y COLOR_BLACK n /\
    inorder (bin sg q COLOR_RED x y) = inorder (bin sp p COLOR_RED (Node a COLOR_RED l r) v).
Proof.
  intros F Hv Hl Hr. apply focus_up in F. cbn [f_side f_addr f_color f_sib] in F. destruct (eqb (negb sg) sp) eqn:Hs.
  - apply eqb_prop in Hs as <-. rewrite bin_flip in F |- *.
    assert (exists t1 t2, Node a COLOR_RED l r = bin sg a COLOR_RED t1 t2 /\ rb t1 COLOR_BLACK n /\ rb t2 COLOR_BLACK n) as (t1 & t2 & E & H1 & H2)
      by (destruct sg; [exists r, l|exists l, r]; done).
    rewrite E in F |- *. destruct (rotate_focus _ _ _ _ _ _ _ _ _ _ F) as (s' & -> & F'). run.
    eexists s', p, a, _, _. split; [done|]. split; [exact F'|]. split_and!; [apply addr_bin|by apply rb_bin_red|done|].
    apply rotate_inorder.
  - assert (sp = sg) as -> by (by destruct sg, sp). eexists s, a, p, _, _. split; [done|]. split; [exact F|]. split_and!; [done|by constructor|done|done].
Qed.

(** One turn of the loop below a red parent: either the red moves two levels up, or the loop is done. *)
Lemma insert_red_uncle fuel s ctx sg g sp p v a l r u n :
  focus s (Fr sp p COLOR_RED v :: Fr sg g COLOR_BLACK u :: ctx) (Node a COLOR_RED l r) ->
  rb (Node a COLOR_RED l r) COLOR_RED n -> rb v COLOR_BLACK n -> rb u COLOR_RED n ->
  exists s' x y, (s ← set_color s g COLOR_RED; s ← set_color s p COLOR_BLACK; s ← set_color s (addr u) COLOR_BLACK; insert_loop fuel s g) = insert_loop fuel s' g /\
    focus s' ctx (Node g COLOR_RED x y) /\ rb x COLOR_BLACK (S n) /\ rb y COLOR_BLACK (S n) /\
    inorder (Node g COLOR_RED x y) = inorder (bin sg g COLOR_BLACK (bin sp p COLOR_RED (Node a COLOR_RED l r) v) u).
Proof.
  intros F Hb Hv Hu. inversion Hu as [|b ul ur ? Hul Hur|]; subst. cbn [addr].
  destruct (paint_three (fun s => insert_loop fuel s g) s ctx sg g sp p (Node a COLOR_RED l r) v false b ul ur F) as (s' & -> & F').
  pose proof (rb_bin_black sp p _ _ _ _ _ Hb Hv) as H1. pose proof (rb_bin_black false b _ _ _ _ _ Hul Hur) as H2.
  assert (inorder (bin sg g COLOR_RED (bin sp p COLOR_BLACK (Node a COLOR_RED l r) v) (bin false b COLOR_BLACK ul ur)) =
    inorder (bin sg g COLOR_BLACK (bin sp p COLOR_RED (Node a COLOR_RED l r) v) (Node b COLOR_RED ul ur))) as E
    by (apply inorder_bin_eq; [by apply inorder_bin_eq|done]).
  exists s'. destruct sg; cbn [bin] in F', E |- *; eexists _, _; (split; [done|]; split; [exact F'|]; by split_and!).
Qed.

Lemma insert_black_uncle fuel s ctx sg g sp p v a l r u n :
  focus s (Fr sp p COLOR_RED v :: Fr sg g COLOR_BLACK u :: ctx) (Node a COLOR_RED l r) ->
  rb l COLOR_BLACK n -> rb r COLOR_BLACK n -> rb v COLOR_BLACK n -> rb u COLOR_BLACK n ->
  exists s' t, ('(s, n, parent) ← (if eqb (negb sg) sp then s ← do_rotate s p sg; Ret (s, p, a) else Ret (s, a, p));
      s ← set_color s parent COLOR_BLACK; s ← set_color s g COLOR_RED; s ← do_rotate s g (negb sg); insert_loop (S fuel) s n) = Ret s' /\
    focus s' ctx t /\ rb t COLOR_BLACK (S n) /\
    inorder t = inorder (bin sg g COLOR_BLACK (bin sp p COLOR_RED (Node a COLOR_RED l r) v) u).
Proof.
  intros F Hl Hr Hv Hu. destruct (line_up _ _ _ _ _ sg _ _ _ _ F Hv Hl Hr) as (s1 & b & q & x & y & -> & F1 & <- & Hx & Hy & Hin). run.
  apply focus_up in F1. cbn [f_side f_addr f_color f_sib] in F1.
  destruct (rotate_up (fun s => insert_loop (S fuel) s (addr x)) _ _ _ _ _ _ _ _ F1) as (s2 & -> & F2).
  inversion Hx as [|c xl xr ? Hxl Hxr|]; subst. cbn [addr insert_loop].
  pose proof (focus_down _ _ _ _ _ _ _ F2) as F3. destruct (focus_get s2 _ false c _ xl xr F3) as [-> _]. run. cbn [node rb_parent top f_addr].
  destruct (get_frame _ _ _ _ F3) as [Hq Hq0]. cbn [f_side f_addr f_color f_sib] in Hq, Hq0. rewrite Hq0, Hq. run.
  destruct (child_node sg (top ctx) COLOR_BLACK (addr (Node c COLOR_RED xl xr)) (addr (bin sg g COLOR_RED y u))) as (_ & _ & _ & ->).
  eexists s2, _. split; [done|]. split; [exact F2|]. split; [by eapply rb_bin_black, rb_bin_red|].
  rewrite (inorder_bin_eq sg g COLOR_BLACK COLOR_BLACK _ (bin sg q COLOR_RED (Node c COLOR_RED xl xr) y) u u (eq_sym Hin) eq_refl).
  destruct sg; cbn; by rewrite <- !app_assoc.
Qed.

(** The loop from a red node whose parent may be red, the rest being in balance. *)
Lemma insert_loop_ok fuel : forall ctx s a l r n,
  (length ctx < fuel)%nat -> focus s ctx (Node a COLOR_RED l r) -> rb_ctx ctx n -> rb l COLOR_BLACK n -> rb r COLOR_BLACK n ->
  exists s' t c m, insert_loop fuel s a = Ret s' /\ tree_in s' t /\ rb t c m /\ inorder t = inorder (plug ctx (Node a COLOR_RED l r)).
Proof.
  induction fuel as [|fuel IH]; intros ctx s a l r n Hf F Hc Hl Hr; [lia|]. cbn [insert_loop].
  pose proof (rb_red a l r n Hl Hr) as Hb.
  destruct (focus_get s ctx false a _ l r F) as [Hg _]. rewrite Hg. run. cbn [node rb_parent].
  destruct ctx as [|f ctx]; [by eexists s, _, _, n|]. cbn [top]. destruct (get_frame _ _ _ _ F) as [Hp ->]. rewrite Hp. run.
  destruct (child_node (f_side f) (top ctx) (f_color f) a (addr (f_sib f))) as (_ & _ & Hpar & Hcol). cbn [addr]. rewrite Hpar, Hcol. inversion Hc as [|side p y c ctx1 n1 Hy Hrest|sp p v sg g u ctx1 n1 Hv Hrest]; subst; cbn [f_side f_addr f_color f_sib] in *.
  { destruct (plug_rb _ n _ COLOR_RED Hc Hb) as (c' & m & Ht); [done|]. eexists s, _, c', m. split; [done|]. by rewrite <- focus_plug. }
  clear Hg Hp Hpar Hcol. inversion Hrest as [|? ? ? cu ? ? Hu Hctx|]; subst. cbn [top f_addr length] in *.
  pose proof (focus_up _ _ _ _ F) as Fp. cbn [f_side f_addr f_color f_sib] in Fp. destruct (get_frame _ _ _ _ Fp) as [Hgg _]. cbn [f_side f_addr f_color f_sib] in Hgg.
  rewrite addr_bin in Hgg. cbn [Z.eqb COLOR_RED COLOR_BLACK]. rewrite Hgg. run.
  pose proof (which_child _ _ _ _ Fp ltac:(by destruct sp) true) as Hside. rewrite addr_bin in Hside. cbn [f_side f_addr f_color f_sib] in Hside.
  rewrite Hside. assert (eqb true sg = sg) as -> by (by destruct sg). destruct (child_node sg (top ctx1) COLOR_BLACK p (addr u)) as (_ & -> & _).
  pose proof (focus_up _ _ _ _ Fp) as Fg. cbn [f_side f_addr f_color f_sib] in Fg. rewrite <- bin_flip in Fg. apply focus_down in Fg.
  rewrite (is_red_ok _ _ _ _ _ Fg Hu). run. pose proof (which_child _ _ _ _ F ltac:(done) (negb sg)) as Ha. cbn [f_side f_addr f_color f_sib addr top] in Ha. rewrite Ha.
  assert (cu = COLOR_RED \/ cu = COLOR_BLACK) as [-> | ->] by (destruct Hu; tauto); cbn [Z.eqb COLOR_RED COLOR_BLACK plug f_side f_addr f_color f_sib].
  - destruct (insert_red_uncle fuel _ _ _ _ _ _ _ _ _ _ _ n F Hb Hv Hu) as (s' & x & y & -> & F' & Hx & Hy & E).
    destruct (IH ctx1 _ _ _ _ _ ltac:(lia) F' Hctx Hx Hy) as (s2 & t & c & m & -> & Ht & Hbt & Et). exists s2, t, c, m.
    split_and!; [done..|]. rewrite Et. by apply plug_inorder.
  - destruct fuel as [|fuel]; [lia|]. destruct (insert_black_uncle fuel _ _ _ _ _ _ _ _ _ _ _ n F Hl Hr Hv Hu) as (s' & t & -> & F' & Hbt & Et).
    destruct (plug_rb _ _ _ _ Hctx Hbt) as (c' & m & Hp); [done|]. eexists s', _, c', m. rewrite <- focus_plug. split_and!; [done..|]. by apply plug_inorder.
Qed.

(** A balanced tree falls apart into places and parts that are. *)
Lemma plug_rb_inv ctx : forall t m, rb (plug ctx t) COLOR_BLACK m ->
  exists c n, rb t c n /\ rb_ctx ctx n /\ (c = COLOR_RED -> exists side a y ctx', ctx = Fr side a COLOR_BLACK y :: ctx').
Proof.
  induction ctx as [|f ctx IH]; intros t m H; cbn [plug] in H; [exists COLOR_BLACK, m; split_and!; [done|constructor|done]|].
  destruct (IH _ _ H) as (c & n & Hb & Hc & Hred). destruct f as [side a ca y]. cbn [f_side f_addr f_color f_sib] in Hb.
  assert (ca = COLOR_RED /\ c = COLOR_RED /\ rb t COLOR_BLACK n /\ rb y COLOR_BLACK n \/
    exists c1 c2 k, ca = COLOR_BLACK /\ n = S k /\ rb t c1 k /\ rb y c2 k) as [(-> & -> & Ht & Hy)|(c1 & c2 & k & -> & -> & Ht & Hy)].
  { destruct side; cbn in Hb; inversion Hb; subst; [left|right|left|right]; try done; by eexists _, _, _. }
  - destruct (Hred eq_refl) as (side2 & a2 & y2 & ctx' & ->). exists COLOR_BLACK, n. split_and!; [done|by constructor|done].
  - exists c1, k. split_and!; [done|by econstructor|]. intros _. by eexists _, _, _, _.
Qed.

Fixpoint depth (t : tree) : nat := match t with Leaf => O | Node _ _ l r => S (depth l `max` depth r) end.

Lemma rb_size t c n : rb t c n -> (2 ^ n <= S (length (inorder t)))%nat.
Proof.
  induction 1; cbn [inorder Nat.pow length]; rewrite ?length_app; cbn [length]; try lia.
Qed.

Lemma rb_depth t c n : rb t c n -> (depth t <= 2 * n + (if (c =? COLOR_RED)%Z then 1 else 0))%nat.
Proof.
  unfold COLOR_RED. induction 1 as [|a l r n _ IHl _ IHr|a l r cl cr n _ IHl _ IHr]; cbn [depth Z.eqb COLOR_RED COLOR_BLACK] in *; [lia|lia|].
  destruct (cl =? 0)%Z, (cr =? 0)%Z; lia.
Qed.

(** A balanced tree with a black root is not deep. *)
Lemma rb_shallow t n : rb t COLOR_BLACK n -> (depth t <= 2 * Nat.log2 (S (length (inorder t))))%nat.
Proof.
  intros H. pose proof (rb_depth _ _ _ H) as Hd. cbn in Hd. pose proof (Nat.log2_le_mono _ _ (rb_size _ _ _ H)) as Hl.
  rewrite Nat.log2_pow2 in Hl by lia. lia.
Qed.

Lemma inorder_plug_length ctx t : length (inorder (plug ctx t)) = (length (around ctx) + length (inorder t))%nat.
Proof.
  revert t. induction ctx as [|f ctx IH]; intros t; cbn [plug around]; [done|]. rewrite IH, (Permutation_length (inorder_bin _ _ _ _ _)).
  cbn. rewrite !length_app. lia.
Qed.

Lemma around_length ctx : (length ctx <= length (around ctx))%nat.
Proof. induction ctx as [|f ctx IH]; cbn; [lia|]. rewrite length_app. lia. Qed.

(** C35: a new red node [a] hangs where a leaf of a balanced tree was. Re-balancing returns, whatever the shape of the tree;
    the nodes are in the order they were in, no red node has a red child, every way down has the same number of black
    nodes, and the tree is at most twice as deep as the binary logarithm of the number of its nodes. *)
Theorem rbtree_insert_balances fuel s ctx a m :
  tree_in s (plug ctx (Node a COLOR_RED Leaf Leaf)) -> rb (plug ctx Leaf) COLOR_BLACK m -> (length (around ctx) < fuel)%nat ->
  exists s' t m', rbtree_insert_rebalance fuel s a = Ret s' /\ tree_in s' t /\ rb t COLOR_BLACK m' /\
    inorder t = inorder (plug ctx (Node a COLOR_RED Leaf Leaf)) /\ (depth t <= 2 * Nat.log2 (S (length (inorder t))))%nat.
Proof.
  intros F Hb Hf. destruct (plug_rb_inv _ _ _ Hb) as (c & n & Hl & Hc & _). inversion Hl; subst. apply focus_plug in F.
  pose proof (around_length ctx) as Hal.
  destruct (insert_loop_ok fuel ctx s a Leaf Leaf 0 ltac:(lia) F Hc rb_leaf rb_leaf) as (s1 & t & c & k & E & Ht & Hbt & Hin).
  unfold rbtree_insert_rebalance. rewrite E. run. destruct t as [|b cb l r].
  { pose proof (inorder_plug_length ctx (Node a COLOR_RED Leaf Leaf)) as Hlen. rewrite <- Hin in Hlen. cbn in Hlen. lia. }
  pose proof Ht as [Hroot _ _]. cbn in Hroot. rewrite Hroot.
  destruct (focus_paint s1 [] false b cb l r COLOR_BLACK Ht) as (s2 & -> & F2). assert (exists m', rb (Node b COLOR_BLACK l r) COLOR_BLACK m') as [m' Hm]
    by (inversion Hbt; subst; eexists; by econstructor).
  exists s2, (Node b COLOR_BLACK l r), m'. split_and!; [done|done|done|by rewrite <- Hin|by eapply rb_shallow].
Qed.

(** ** Walking *)

(** The nodes in the order of a walk that starts on [side]. *)
Definition order (side : bool) (t : tree) : list nat := if side then reverse (inorder t) else inorder t.

(** What a walk has yet to see after the place [ctx]. *)
Fixpoint after (side : bool) (ctx : list frame) : list nat :=
  match ctx with
  | [] => []
  | f :: ctx => (if eqb side (f_side f) then f_addr f :: order side (f_sib f) else []) ++ after side ctx
  end.

Lemma order_bin side a c x y : order side (bin side a c x y) = order side x ++ a :: order side y.
Proof. unfold order, bin. destruct side; cbn [inorder]; [by rewrite reverse_app, reverse_cons, <- app_assoc|done]. Qed.

Lemma order_elem side t a : a ∈ order side t <-> a ∈ inorder t.
Proof. destruct side; [apply elem_of_reverse|done]. Qed.

Lemma order_plug side ctx : forall t, exists xs, order side (plug ctx t) = xs ++ order side t ++ after side ctx.
Proof.
  induction ctx as [|f ctx IH]; intros t; cbn [plug after]; [exists []; by rewrite app_nil_r|].
  destruct (IH (bin (f_side f) (f_addr f) (f_color f) t (f_sib f))) as [xs ->]. destruct (eqb side (f_side f)) eqn:Hs.
  - apply eqb_prop in Hs as <-. exists xs. rewrite order_bin. by rewrite <- !app_assoc.
  - assert (f_side f = negb side) as -> by (by destruct side, (f_side f)). rewrite bin_flip, order_bin.
    exists (xs ++ order side (f_sib f) ++ [f_addr f]). cbn [app]. by rewrite <- !app_assoc.
Qed.

Lemma hd_order side t xs : t <> Leaf -> hd 0%nat (order side t ++ xs) = hd 0%nat (order side t).
Proof.
  intros Hl. destruct t as [|b c l r]; [done|]. assert (b ∈ order side (Node b c l r)) as Hb by (apply order_elem; cbn; set_solver).
  by destruct (order side (Node b c l r)); [set_solver|].
Qed.

(** Every node has its place. *)
Lemma find_place side a t : forall ctx, a ∈ inorder t -> exists ctx' c x y, plug ctx t = plug ctx' (bin side a c x y).
Proof.
  induction t as [|b c l IHl r IHr]; intros ctx; cbn; [set_solver|]. intros [H|[->|H]%elem_of_cons]%elem_of_app.
  - apply (IHl (Fr false b c r :: ctx)), H.
  - exists ctx, c. destruct side; [by exists r, l|by exists l, r].
  - apply (IHr (Fr true b c l :: ctx)), H.
Qed.

Lemma descend_ok side t : forall fuel s ctx, focus s ctx t -> t <> Leaf -> (length (inorder t) <= fuel)%nat ->
  descend fuel s (addr t) side = Ret (hd 0%nat (order side t)).
Proof.
  assert (forall n t fuel s ctx, (length (inorder t) <= n)%nat -> focus s ctx t -> t <> Leaf -> (length (inorder t) <= fuel)%nat ->
    descend fuel s (addr t) side = Ret (hd 0%nat (order side t))) as H; [|intros; by eapply H].
  clear t. induction n as [|n IH]; intros t fuel s ctx Hn F Hl Hf; [destruct t; [done|cbn in Hn; rewrite length_app in Hn; cbn in Hn; lia]|].
  destruct t as [|a c l r]; [done|]. assert (exists x y, Node a c l r = bin side a c x y) as (x & y & E)
    by (destruct side; [by exists r, l|by exists l, r]).
  rewrite E in *. pose proof (Permutation_length (inorder_bin side a c x y)) as Hlen. cbn in Hlen. rewrite length_app in Hlen.
  destruct fuel as [|fuel]; [lia|]. cbn [descend]. rewrite addr_bin, order_bin. destruct (focus_get _ _ _ _ _ _ _ F) as [-> _]. run.
  destruct (child_node side (top ctx) c (addr x) (addr y)) as (-> & _). apply focus_down in F.
  destruct (decide (x = Leaf)) as [->|Hx]; [by destruct side|]. destruct x as [|b cb xl xr]; [done|].
  destruct (focus_get _ _ false b cb xl xr F) as [_ H0]. cbn [addr]. rewrite H0.
  pose proof (IH (Node b cb xl xr) fuel _ _ ltac:(lia) F Hx ltac:(lia)) as Hd. cbn [addr] in Hd. rewrite Hd. f_equal.
  by rewrite hd_order.
Qed.

Lemma ascend_ok side ctx : forall fuel s t, focus s ctx t -> t <> Leaf -> (length ctx < fuel)%nat ->
  ascend fuel s (addr t) side = Ret (hd 0%nat (after side ctx)).
Proof.
  induction ctx as [|f ctx IH]; intros fuel s t F Hl Hf; (destruct fuel as [|fuel]; [cbn in Hf; lia|]); (destruct t as [|a c l r]; [done|]);
    cbn [ascend addr]; destruct (focus_get _ _ false a c l r F) as [-> _]; run; cbn [node rb_parent top]; [done|].
  destruct (get_frame _ _ _ _ F) as [Hp ->]. rewrite Hp. run. cbn [addr after].
  pose proof (which_child _ _ _ _ F ltac:(done) side) as Hc. cbn [addr] in Hc. rewrite Hc. destruct (eqb side (f_side f)); [done|].
  apply focus_up in F. cbn [f_side f_addr f_color f_sib app] in F |- *. cbn in Hf. specialize (IH fuel _ _ F ltac:(by destruct (f_side f)) ltac:(lia)).
  by rewrite addr_bin in IH.
Qed.

Lemma nodup_split (xs xs' ys ys' : list nat) a : NoDup (xs ++ a :: ys) -> xs ++ a :: ys = xs' ++ a :: ys' -> ys = ys'.
Proof.
  revert xs'. induction xs as [|x xs IH]; intros [|x' xs'] Hd E; cbn in *; [congruence| | |]; injection E as -> E; apply NoDup_cons in Hd as [Hn Hd].
  - exfalso. apply Hn. rewrite E. set_solver.
  - exfalso. apply Hn. set_solver.
  - by eapply IH.
Qed.

(** the first node and the next one, and from the other end the last one and the one before: a walk sees the nodes in
    their order, one after the other, and ends with NULL. *)
Theorem rbtree_walk_in_order fuel s t side : tree_in s t -> (length (inorder t) < fuel)%nat ->
  node_first_last fuel s (negb side) = Ret (hd 0%nat (order side t)) /\
  forall xs a ys, order side t = xs ++ a :: ys -> node_prev_next fuel s a side = Ret (hd 0%nat ys).
Proof.
  intros F Hf. split.
  - pose proof F as [Hroot _ _]. cbn in Hroot. unfold node_first_last. rewrite Hroot, negb_involutive.
    destruct t as [|a c l r]; [by destruct side|]. destruct (focus_get _ _ false a c l r F) as [_ H0]. cbn [addr]. rewrite H0.
    apply (descend_ok side (Node a c l r) fuel s []); [done|done|lia].
  - intros xs a ys E. assert (a ∈ inorder t) as Hin by (apply (order_elem side); rewrite E; set_solver).
    destruct (find_place side a t [] Hin) as (ctx & c & x & y & Et). cbn [plug] in Et. subst t.
    destruct (order_plug side ctx (bin side a c x y)) as [zs Ez]. rewrite order_bin in Ez.
    assert (ys = order side y ++ after side ctx) as ->.
    { apply (nodup_split xs (zs ++ order side x) _ _ a); [|rewrite <- E, Ez; by rewrite <- !app_assoc].
      rewrite <- E. destruct F as [_ _ [_ Hd]%NoDup_cons]. cbn [around app] in Hd. destruct side; [unfold order; by rewrite reverse_Permutation|done]. }
    rewrite inorder_plug_length, (Permutation_length (inorder_bin _ _ _ _ _)) in Hf. cbn in Hf. rewrite length_app in Hf. pose proof (around_length ctx).
    apply focus_plug in F. unfold node_prev_next. destruct (focus_get _ _ _ _ _ _ _ F) as [Hg ->]. rewrite Hg. run.
    destruct (child_node side (top ctx) c (addr x) (addr y)) as (_ & -> & _). destruct (decide (y = Leaf)) as [->|Hy].
    + cbn [addr Nat.eqb negb]. pose proof (ascend_ok side ctx fuel _ _ F ltac:(by destruct side) ltac:(lia)) as Ha. rewrite addr_bin in Ha. by destruct side.
    + rewrite <- bin_flip in F. apply focus_down in F. destruct y as [|b cb yl yr]; [done|]. destruct (focus_get _ _ false b cb yl yr F) as [_ H0].
      cbn [addr]. rewrite H0. cbn [negb]. pose proof (descend_ok side _ fuel _ _ F Hy ltac:(lia)) as Hd. cbn [addr] in Hd. rewrite Hd. f_equal.
      by rewrite hd_order.
Qed.

(** ** Deletion *)

Lemma root_there s ctx t : focus s ctx t -> t <> Leaf -> (0 =? rbt_root s)%nat = false.
Proof.
  intros F Hl. apply focus_plug in F as [Hroot _ Hd]. cbn in Hroot. rewrite Hroot. destruct (plug ctx t) as [|a c l r] eqn:E.
  - pose proof (inorder_plug_length ctx t) as Hlen. rewrite E in Hlen. destruct t; [done|]. cbn in Hlen. rewrite length_app in Hlen. cbn in Hlen. lia.
  - apply Nat.eqb_neq. intros H0. apply NoDup_cons in Hd as [Hn _]. apply Hn. cbn in *. rewrite H0. set_solver.
Qed.

Lemma focus_apart s ctx f t : focus s ctx t -> t <> Leaf -> f ∈ ctx -> addr t <> f_addr f.
Proof.
  intros [_ _ [_ (_ & Hd & _)%NoDup_app]%NoDup_cons] Hl Hf Heq. destruct (addr_in t) as [[? _]|Ht]; [done|].
  apply (Hd (addr t)); [|done]. rewrite Heq. clear -Hf. induction ctx as [|g ctx IH]; [by apply not_elem_of_nil in Hf|].
  apply elem_of_cons in Hf as [->|Hf]; cbn; apply elem_of_cons; [by left|right; apply elem_of_app; right; by apply IH].
Qed.

(** taking a black leaf off a tree, when its sibling is black, has a red child towards the leaf and none away from it:
    the sibling is rotated the wrong way round, towards the child that is not there, and NULL is followed. *)
Theorem rbtree_delete_follows_null fuel s ctx side p c a b d dl dr :
  focus s ctx (bin side p c (Node a COLOR_BLACK Leaf Leaf) (bin side b COLOR_BLACK (Node d COLOR_RED dl dr) Leaf)) ->
  rbt_mem s !! 0%nat = None -> rbtree_delete_node (S fuel) s a = Fault OutOfBounds.
Proof.
  intros F H0. destruct (focus_get _ _ _ _ _ _ _ F) as [Hp Hp0]. pose proof (root_there _ _ _ F ltac:(by destruct side)) as Hroot.
  pose proof (focus_down _ _ _ _ _ _ _ F) as Fa. destruct (focus_get _ _ false a _ Leaf Leaf Fa) as [Ha Ha0]. pose proof (which_child _ _ _ _ Fa ltac:(done) false) as Hside.
  rewrite <- bin_flip in F. apply focus_down in F. destruct (focus_get _ _ _ _ _ _ _ F) as [Hb Hb0].
  pose proof (focus_down _ _ _ _ _ _ _ F) as Fd. destruct (focus_get _ _ false d _ dl dr Fd) as [Hd Hd0].
  assert (b <> p) as Hbp by (pose proof (focus_apart _ _ _ _ F ltac:(by destruct side) (list_elem_of_here _ _)) as Hx; by rewrite addr_bin in Hx).
  assert (d <> b /\ d <> p) as [Hdb Hdp]
    by (split; [exact (focus_apart _ _ _ _ Fd ltac:(done) (list_elem_of_here _ _))|exact (focus_apart _ _ _ _ Fd ltac:(done) (list_elem_of_further _ _ _ (list_elem_of_here _ _)))]).
  clear F Fa Fd. cbn [f_side f_addr f_color f_sib addr top] in *. rewrite addr_bin in Hp. unfold get_node in Hp, Ha, Hb, Hd. apply of_option_ret in Hp, Ha, Hb, Hd.
  unfold rbtree_delete_node. mem_step. cbn [node rb_left rb_right rb_parent rb_color Nat.eqb negb andb]. unfold splice_out, relink. run. rewrite Hp0. unfold set_child.
  rewrite addr_bin, Nat.eqb_sym in Hside. cbn [Nat.eqb]. run. mem_step. mem_step. rewrite Hside.
  assert (negb (eqb false side) = side) as -> by (by destruct side). destruct (with_child_node side (top ctx) c a b 0) as [-> _].
  cbn [Z.eqb COLOR_BLACK Pos.eqb]. unfold delete_rebalance. cbn [delete_loop is_black Nat.eqb rbt_root]. run. cbn [negb orb].
  cbn [Nat.eqb] in Hroot. rewrite Hroot. mem_step.
  assert (rb_child (node side (top ctx) c 0 b) true =? 0 = side)%nat as -> by (by destruct side).
  destruct (child_node side (top ctx) c 0 b) as (_ & -> & _). unfold is_color. mem_step.
  destruct (child_node side p COLOR_BLACK d 0) as (D1 & D2 & D3 & D4). rewrite D4. cbn [Z.eqb COLOR_BLACK COLOR_RED]. run. mem_step.
  rewrite D1. unfold is_black. rewrite Hd0. unfold is_color. mem_step. cbn [node rb_color Z.eqb COLOR_BLACK COLOR_RED]. run.
  unfold delete_last. mem_step. rewrite D2. cbn [is_black Nat.eqb]. run. rewrite D1, Hd0. unfold set_color. mem_step. mem_step.
  unfold do_rotate. mem_step. rewrite with_color_node. destruct (child_node side p COLOR_RED d 0) as (_ & -> & _).
  unfold get_node. cbn [rbt_mem]. apply Nat.eqb_neq in Hp0, Hb0, Hd0. by rewrite !lookup_insert_ne, H0.
Qed.

(** *** Small trees *)

(** 7 hangs to the right of 5, which is red, below 9: a double rotation. *)
Definition small_mem : gmap nat rb_node :=
  {[ 9%nat := RbNode 0 5 0 COLOR_BLACK; 5%nat := RbNode 9 0 7 COLOR_RED; 7%nat := RbNode 5 0 0 COLOR_RED ]}.
Definition small_ctx : list frame := [Fr true 5 COLOR_RED Leaf; Fr false 9 COLOR_BLACK Leaf].

Lemma small_tree : tree_in (Rbtree 9 small_mem) (plug small_ctx (Node 7 COLOR_RED Leaf Leaf)).
Proof. split; [done|by split_and!|]. apply (bool_decide_unpack _). by vm_compute. Qed.

Lemma small_balanced : rb (plug small_ctx Leaf) COLOR_BLACK 1.
Proof. by repeat econstructor. Qed.

Lemma rbtree_insert_balances_witness : exists s' t m', rbtree_insert_rebalance 3 (Rbtree 9 small_mem) 7 = Ret s' /\ tree_in s' t /\
  rb t COLOR_BLACK m' /\ inorder t = [5; 7; 9]%nat /\ (depth t <= 2 * Nat.log2 (S (length (inorder t))))%nat.
Proof. apply (rbtree_insert_balances 3 (Rbtree 9 small_mem) small_ctx 7 1 small_tree small_balanced). cbn. lia. Defined.

Lemma rbtree_walk_in_order_witness : node_next 4 (Rbtree 9 small_mem) 7 = Ret 9%nat /\ node_prev 4 (Rbtree 9 small_mem) 7 = Ret 5%nat /\
  node_last 4 (Rbtree 9 small_mem) = Ret 9%nat.
Proof.
  split_and!.
  - apply (proj2 (rbtree_walk_in_order 4 _ _ false small_tree ltac:(cbn; lia)) [5%nat] 7%nat [9%nat] eq_refl).
  - apply (proj2 (rbtree_walk_in_order 4 _ _ true small_tree ltac:(cbn; lia)) [9%nat] 7%nat [5%nat] eq_refl).
  - apply (proj1 (rbtree_walk_in_order 4 _ _ true small_tree ltac:(cbn; lia))).
Defined.

(** 2 over 1 and 4, with 3, red, below 4: all in balance, and 1 cannot be deleted. *)
Definition crash_mem : gmap nat rb_node :=
  {[ 2%nat := RbNode 0 1 4 COLOR_BLACK; 1%nat := RbNode 2 0 0 COLOR_BLACK; 4%nat := RbNode 2 3 0 COLOR_BLACK; 3%nat := RbNode 4 0 0 COLOR_RED ]}.
Definition crash_tree : tree := Node 2 COLOR_BLACK (Node 1 COLOR_BLACK Leaf Leaf) (Node 4 COLOR_BLACK (Node 3 COLOR_RED Leaf Leaf) Leaf).

Lemma crash_in : tree_in (Rbtree 2 crash_mem) crash_tree /\ rb crash_tree COLOR_BLACK 2.
Proof. split; [split; [done|by split_and!|]; apply (bool_decide_unpack _); by vm_compute|by repeat econstructor]. Qed.

Lemma rbtree_delete_follows_null_witness : rb crash_tree COLOR_BLACK 2 /\ rbtree_delete_node 1 (Rbtree 2 crash_mem) 1 = Fault OutOfBounds.
Proof.
  split; [apply crash_in|]. apply (rbtree_delete_follows_null 0 (Rbtree 2 crash_mem) [] false 2 COLOR_BLACK 1 4 3 Leaf Leaf); [apply crash_in|reflexivity].
Defined.
