(* ===== verification/Vhosts.v ===== *)
(** * vhosts.c: host names to webroots, kept up to date by directory events

    Webroots are shared objects: the table, the default and every connection
    that is sending from one hold a counted reference. The heap of webroots is
    explicit, so that a use after the last release is a fault. *)

From S2P Require Import Prelude Os Webroot Critbit.
Local Open Scope Z_scope.

(** ** The heap of webroots *)

Abbreviation heap := (gmap nat webroot).

(** [webroot_unref(w)] and [webroot_ref(w)] through a pointer, null or not. *)
Definition unref (hp : heap) (w : option nat) : outcome heap :=
  match w with
  | None => Ret hp
  | Some h =>
    r ← of_option OutOfBounds (hp !! h);
    match webroot_unref (Some r) with
    | None => Ret (delete h hp)
    | Some r' => Ret (<[h := r']> hp)
    end
  end.

Definition ref (hp : heap) (h : nat) : outcome heap :=
  r ← of_option OutOfBounds (hp !! h);
  Ret (<[h := webroot_ref r]> hp).

(** ** The table *)

Record vhosts_t := Vhosts {
  v_hosts : option (cb_node nat);  (* the values are pointers: no value is null *)
  v_default : option nat;
}.

Definition default_name : list Z := lit "__default__".

(** The world's answers to one [vhost_add]: those [webroot_open] asks for, the
    address [calloc] gives, and the allocations of [cb_insert]. *)
Record add_env := AddEnv {
  a_handle : nat;
  a_fd : Z; a_ios : list sysres; a_polls : list sysres;
  a_fstat : bool; a_mmap : bool; a_calloc : bool; a_file : list Z;
  a_node : bool; a_leaf : bool; a_dup : bool;
}.

Definition opened (e : add_env) : outcome (option webroot) :=
  webroot_open (a_calloc e) (a_fd e) (a_ios e) (a_polls e) (a_fstat e) (a_mmap e) (a_file e).

Definition vhost_add (v : vhosts_t) (hp : heap) (e : add_env) (name : list Z) (isdir : bool)
    : outcome (vhosts_t * heap) :=
  if isdir then Ret (v, hp)
  else
    w ← opened e;
    match w with
    | None => Ret (v, hp)
    | Some r =>
      let w := a_handle e in
      let hp := <[w := r]> hp in
      if decide (name = default_name) then
        hp ← unref hp (v_default v);
        Ret (Vhosts (v_hosts v) (Some w), hp)
      else
        '(ret, t) ← cb_insert (v_hosts v) name (a_node e) (a_leaf e) (a_dup e);
        if ret =? 0 then Ret (v, hp)
        else
          match t with
          | None => Fault OutOfBounds
          | Some t =>
            hp ← (match (walk t name).2 with Some old => unref hp (Some old) | None => Ret hp end);
            Ret (Vhosts (Some (store t name (Some w))) (v_default v), hp)
          end
    end.

(** [w] has no value when [cb_delete] finds nothing. *)
Definition vhost_del (v : vhosts_t) (hp : heap) (name : list Z) (isdir : bool)
    : outcome (vhosts_t * heap) :=
  if isdir then Ret (v, hp)
  else if decide (name = default_name) then
    hp ← unref hp (v_default v);
    Ret (Vhosts (v_hosts v) None, hp)
  else
    match cb_delete (v_hosts v) name with
    | None => Fault OutOfBounds
    | Some (w, t) =>
      hp ← unref hp w;
      Ret (Vhosts t (v_default v), hp)
    end.

(** [vhost_ops]: what inotify reports about the directory. *)
Inductive watch_event :=
| ev_create (e : add_env) (name : list Z) (isdir : bool)
| ev_moved_to (e : add_env) (name : list Z) (isdir : bool)
| ev_delete (name : list Z) (isdir : bool)
| ev_moved_from (name : list Z) (isdir : bool)
| ev_move_self
| ev_delete_self.

Definition vhost_ops (v : vhosts_t) (hp : heap) (ev : watch_event) : outcome (vhosts_t * heap) :=
  match ev with
  | ev_create e name isdir | ev_moved_to e name isdir => vhost_add v hp e name isdir
  | ev_delete name isdir | ev_moved_from name isdir => vhost_del v hp name isdir
  | ev_move_self | ev_delete_self => Ret (v, hp)
  end.

(** The callback [dtor] over the values [cb_free] visits. *)
Fixpoint unref_all (hp : heap) (l : list (option nat)) : outcome heap :=
  match l with
  | [] => Ret hp
  | w :: l => hp ← unref hp w; unref_all hp l
  end.

Record dirent := Dirent { d_name : list Z; d_is_dir : bool; d_env : add_env }.

Fixpoint read_dir (v : vhosts_t) (hp : heap) (dir : list dirent) : outcome (vhosts_t * heap) :=
  match dir with
  | [] => Ret (v, hp)
  | de :: dir =>
    if d_is_dir de then read_dir v hp dir
    else
      '(v, hp) ← vhost_add v hp (d_env de) (d_name de) false;
      read_dir v hp dir
  end.

(** [vhosts_new(t, dirname)]: [dir] is what [readdir] gives, or nothing when
    [opendir] fails; [notify_ok] and [watch_ok] say whether inotify and the
    watch come up. *)
Definition vhosts_new (hp : heap) (calloc_ok : bool) (dir : option (list dirent))
    (notify_ok watch_ok : bool) : outcome (option vhosts_t * heap) :=
  if negb calloc_ok then Ret (None, hp)
  else
    match dir with
    | None => Ret (None, hp)
    | Some dir =>
      '(v, hp) ← read_dir (Vhosts None None) hp dir;
      if notify_ok && watch_ok then Ret (Some v, hp)
      else
        hp ← unref_all hp (cb_free (v_hosts v));
        Ret (None, hp)
    end.

Definition vhosts_lookup (v : vhosts_t) (host : option (list Z)) : option nat :=
  match host with
  | Some u =>
    match cb_contains (v_hosts v) u with
    | Some w => w
    | None => v_default v
    end
  | None => v_default v
  end.

(** ** Ownership

    [l] lists the owners of references, one handle per reference: the heap
    holds exactly the webroots that occur in it, each with its number of
    occurrences as its count. *)

Definition refs_ok (hp : heap) (l : list nat) : Prop :=
  forall h, match hp !! h with
    | Some r => r_ref r = Z.of_nat (count_occ Nat.eq_dec l h) /\ (0 < count_occ Nat.eq_dec l h)%nat
    | None => count_occ Nat.eq_dec l h = 0%nat
    end.

Definition few (l : list nat) : Prop := Z.of_nat (length l) < 2 ^ 32 - 1.

Definition slots (t : option (cb_node nat)) : list (option nat) := (from_option entries [] t).*2.

Definition owned (v : vhosts_t) : list nat := omap id (slots (v_hosts v)) ++ option_list (v_default v).

(** The table next to the references [ext] that others hold. *)
Record vhosts_ok (v : vhosts_t) (hp : heap) (ext : list nat) : Prop := {
  ok_tree : cb_wf (v_hosts v);
  ok_full : map_Forall (fun _ => is_Some) (to_map (v_hosts v));
  ok_refs : refs_ok hp (owned v ++ ext);
}.

(** ** What the table means *)

Record table := Table { served : gmap (list Z) nat; fallback : option nat }.

Definition table_of (v : vhosts_t) : table := Table (omap id (to_map (v_hosts v))) (v_default v).

Definition table_add (t : table) (name : list Z) (h : nat) : table :=
  if decide (name = default_name) then Table (served t) (Some h)
  else Table (<[name := h]> (served t)) (fallback t).

Definition table_del (t : table) (name : list Z) : table :=
  if decide (name = default_name) then Table (served t) None
  else Table (delete name (served t)) (fallback t).

(** The events the theorems cover: names in ASCII, [webroot_open] answering, the
    handle not in use, memory available; and the removal of a name that is
    served. *)
Definition add_ok (hp : heap) (e : add_env) (name : list Z) : Prop :=
  (exists o, opened e = Ret o) /\ hp !! a_handle e = None /\ ascii_key name /\
  a_node e && a_leaf e && a_dup e = true.

Definition del_ok (v : vhosts_t) (name : list Z) : Prop :=
  name = default_name \/ is_Some (served (table_of v) !! name).

Definition event_ok (v : vhosts_t) (hp : heap) (ev : watch_event) : Prop :=
  match ev with
  | ev_create e name isdir | ev_moved_to e name isdir => isdir = true \/ add_ok hp e name
  | ev_delete name isdir | ev_moved_from name isdir => isdir = true \/ del_ok v name
  | ev_move_self | ev_delete_self => True
  end.

Definition table_try_add (t : table) (e : add_env) (name : list Z) : table :=
  match opened e with Ret (Some _) => table_add t name (a_handle e) | _ => t end.

Definition table_event (t : table) (ev : watch_event) : table :=
  match ev with
  | ev_create e name false | ev_moved_to e name false => table_try_add t e name
  | ev_delete name false | ev_moved_from name false => table_del t name
  | _ => t
  end.

Definition table_lookup (t : table) (host : option (list Z)) : option nat :=
  match host ≫= fun u => served t !! u with Some h => Some h | None => fallback t end.

(** *** Counted references *)

#[export] Instance refs_ok_proper hp : Proper ((≡ₚ) ==> iff) (refs_ok hp).
Proof.
  assert (forall l l', l ≡ₚ l' -> refs_ok hp l -> refs_ok hp l') as H.
  { intros l l' Hp Hr h. specialize (Hr h). rewrite (proj1 (Permutation_count_occ Nat.eq_dec l l') Hp) in Hr.
    exact Hr. }
  intros l l' Hp. split; apply H; [done|by symmetry].
Qed.

Lemma owned_count_cons (h x : nat) l :
  count_occ Nat.eq_dec (h :: l) x = (if decide (h = x) then S (count_occ Nat.eq_dec l x) else count_occ Nat.eq_dec l x).
Proof. cbn. by destruct (Nat.eq_dec h x), (decide (h = x)). Qed.

Lemma count_few l h : few l -> Z.of_nat (count_occ Nat.eq_dec l h) < 2 ^ 32 - 1.
Proof. unfold few. pose proof (count_occ_bound Nat.eq_dec h l). lia. Qed.

Lemma refs_unref hp h l : refs_ok hp (h :: l) -> few (h :: l) ->
  exists hp', unref hp (Some h) = Ret hp' /\ refs_ok hp' l.
Proof.
  intros Hr Hf. pose proof (count_few _ h Hf) as Hc. pose proof (Hr h) as Hh. cbn [unref].
  rewrite owned_count_cons, decide_True in Hh, Hc by done. destruct (hp !! h) as [r|] eqn:E; [|done].
  destruct Hh as [Hn _]. cbn [of_option mbind outcome_bind webroot_unref]. rewrite uint_small by lia.
  destruct (Z.eqb_spec (r_ref r - 1) 0) as [H0|H0].
  - eexists. split; [done|]. intros x. specialize (Hr x). rewrite owned_count_cons in Hr.
    destruct (decide (h = x)) as [<-|]; [rewrite lookup_delete_eq; lia|].
    by rewrite lookup_delete_ne.
  - eexists. split; [done|]. intros x. specialize (Hr x). rewrite owned_count_cons in Hr.
    destruct (decide (h = x)) as [<-|]; [rewrite lookup_insert_eq; cbn; lia|].
    by rewrite lookup_insert_ne.
Qed.

Lemma refs_unref_opt hp w l : refs_ok hp (option_list w ++ l) -> few (option_list w ++ l) ->
  exists hp', unref hp w = Ret hp' /\ refs_ok hp' l.
Proof. destruct w as [h|]; [apply refs_unref|]. intros. by exists hp. Qed.

Lemma refs_ref hp h l : refs_ok hp l -> h ∈ l -> few l ->
  exists hp', ref hp h = Ret hp' /\ refs_ok hp' (h :: l).
Proof.
  intros Hr Hin Hf. pose proof (count_few _ h Hf) as Hc. pose proof (Hr h) as Hh.
  apply list_elem_of_In, (count_occ_In Nat.eq_dec) in Hin. unfold ref.
  destruct (hp !! h) as [r|] eqn:E; [|lia]. cbn. eexists. split; [done|]. intros x. specialize (Hr x).
  rewrite owned_count_cons. destruct (decide (h = x)) as [<-|].
  - rewrite lookup_insert_eq. cbn. rewrite uint_small by lia. lia.
  - by rewrite lookup_insert_ne.
Qed.

Lemma refs_new hp h l r : refs_ok hp l -> hp !! h = None -> r_ref r = 1 -> refs_ok (<[h := r]> hp) (h :: l).
Proof.
  intros Hr Hh H1 x. rewrite owned_count_cons. specialize (Hr x). destruct (decide (h = x)) as [<-|].
  - rewrite Hh in Hr. rewrite lookup_insert_eq, Hr. lia.
  - by rewrite lookup_insert_ne.
Qed.

Lemma refs_live hp l h : refs_ok hp l -> h ∈ l -> is_Some (hp !! h).
Proof.
  intros Hr Hin. specialize (Hr h). apply list_elem_of_In, (count_occ_In Nat.eq_dec) in Hin.
  destruct (hp !! h); [done|lia].
Qed.

Lemma refs_unref_all hp ws l : refs_ok hp (omap id ws ++ l) -> few (omap id ws ++ l) ->
  exists hp', unref_all hp ws = Ret hp' /\ refs_ok hp' l.
Proof.
  revert hp. induction ws as [|w ws IH]; intros hp; cbn [unref_all]; [by exists hp|].
  replace (omap id (w :: ws)) with (option_list w ++ omap id ws) by by destruct w.
  rewrite <- app_assoc. intros Hr Hf. destruct (refs_unref_opt _ _ _ Hr Hf) as (hp1 & -> & H1).
  run. apply IH; [done|]. unfold few in *. rewrite length_app in Hf. lia.
Qed.

(** *** Slots *)

Lemma slots_traverse t : cb_free t = slots t.
Proof.
  destruct t as [t|]; [|done]. unfold slots. cbn. induction t as [|b o c0 IH0 c1 IH1]; cbn; [done|].
  by rewrite IH0, IH1, fmap_app.
Qed.

Lemma opened_ref e r : opened e = Ret (Some r) -> r_ref r = 1.
Proof.
  unfold opened, webroot_open. destruct (a_calloc e); [|done]. destruct (_ <? 0); [done|]. cbn [negb].
  destruct (fd_read _ _ _ _) as [[[[[ok hdr] eof] ?] ?]|]; [|done]. run.
  repeat (destruct (_ || _); [done|]). repeat (destruct (negb _); [done|]).
  destruct (map_webroot _ _ _ _) as [m|]; [|done]. intros [= H]. by apply layout_tables in H as (_ & _ & ? & _).
Qed.

Definition owned_map (m : gmap (list Z) (option nat)) : list nat := omap id (map_to_list m).*2.

Lemma owned_hosts root : cb_wf root -> omap id (slots root) ≡ₚ owned_map (to_map root).
Proof.
  intros Hw. unfold owned_map, slots, to_map. rewrite map_to_list_to_map; [done|].
  destruct root as [t|]; [|constructor]. cbn. rewrite <- keys_entries. by eapply keys_nodup.
Qed.

Lemma owned_insert m u w : owned_map (<[u := w]> m) ≡ₚ option_list w ++ owned_map (delete u m).
Proof.
  unfold owned_map. rewrite <- insert_delete_eq. rewrite map_to_list_insert by apply lookup_delete_eq.
  cbn. by destruct w.
Qed.

Lemma owned_lookup m u : owned_map m ≡ₚ option_list (m !! u ≫= id) ++ owned_map (delete u m).
Proof.
  destruct (m !! u) as [w|] eqn:E; cbn.
  - rewrite <- (insert_id m u w E) at 1. rewrite owned_insert. by destruct w.
  - by rewrite delete_id.
Qed.

(** The tree after an insertion and the store through the slot. *)
Lemma add_tree (root : option (cb_node nat)) u w : cb_wf root -> ascii_key u ->
  exists ret t, cb_insert root u true true true = Ret (ret, Some t) /\ (ret =? 0) = false /\
    (walk t u).2 = (to_map root !! u) ≫= id /\ cb_wf (Some (store t u w)) /\
    to_map (Some (store t u w)) = <[u := w]> (to_map root).
Proof.
  intros Hw Hu. destruct (to_map root !! u) as [old|] eqn:E.
  - rewrite (insert_present root u Hw Hu (ex_intro _ _ E)). destruct root as [t|]; [|done].
    pose proof (contains_lookup (Some t) u Hw) as Hc. rewrite E in Hc. cbn [cb_contains] in Hc.
    destruct (walk t u) as [k v] eqn:Ew. destruct (decide (u = k)) as [->|]; [|done].
    injection Hc as ->. exists 1, t. destruct (store_slot t k w Hw) as [H1 H2]; [by rewrite Ew|].
    by rewrite Ew.
  - destruct (insert_absent root u Hw Hu E) as (t & -> & Hok & Hm & Hwk).
    exists 2, t. destruct (store_slot t u w Hok Hwk) as [H1 H2]. split_and!; [done|done| |done|].
    + pose proof (contains_lookup (Some t) u Hok) as Hc. rewrite Hm, lookup_insert_eq in Hc.
      cbn [cb_contains] in Hc. destruct (walk t u) as [k v]. cbn in Hwk |- *. subst k.
      rewrite decide_True in Hc by done. cbn. congruence.
    + by rewrite H2, Hm, insert_insert_eq.
Qed.

(** *** Steps *)

Lemma few_tail x l : few (x :: l) -> few l.
Proof. unfold few. cbn. lia. Qed.

Lemma few_perm l l' : l ≡ₚ l' -> few l -> few l'.
Proof. unfold few. by intros ->. Qed.

Lemma add_refines v hp ext e name : vhosts_ok v hp ext -> few (0%nat :: owned v ++ ext) -> add_ok hp e name ->
  exists v' hp', vhost_add v hp e name false = Ret (v', hp') /\ vhosts_ok v' hp' ext /\
    table_of v' = table_try_add (table_of v) e name /\ (length (owned v') <= S (length (owned v)))%nat.
Proof.
  intros [Ht Hfull Hr] Hf ((o & Ho) & Hh & Hu & Hmem). unfold vhost_add, table_try_add, table_add.
  rewrite Ho. run. destruct o as [r|]; [|by exists v, hp; split_and!; [done|done|done|lia]].
  pose proof (refs_new hp (a_handle e) _ r Hr Hh (opened_ref e r Ho)) as H1.
  assert (few (a_handle e :: owned v ++ ext)) as Hf1 by exact Hf.
  destruct (decide (name = default_name)) as [Hd|Hd].
  - assert (a_handle e :: owned v ++ ext ≡ₚ
      option_list (v_default v) ++ owned (Vhosts (v_hosts v) (Some (a_handle e))) ++ ext) as Hp.
    { unfold owned. cbn. solve_Permutation. }
    rewrite Hp in H1. apply (few_perm _ _ Hp) in Hf1.
    destruct (refs_unref_opt _ _ _ H1 Hf1) as (hp' & -> & H2). run.
    eexists _, _. split_and!; [done|by constructor|done|].
    apply Permutation_length in Hp. rewrite !length_app in Hp. cbn [length] in Hp. rewrite !length_app in Hp. lia.
  - apply andb_true_iff in Hmem as [Hmem ->]. apply andb_true_iff in Hmem as [-> ->].
    destruct (add_tree (v_hosts v) name (Some (a_handle e)) Ht Hu) as (ret & t & -> & Hret & Hold & Hwf & Hm).
    run. rewrite Hret, Hold.
    set (v' := Vhosts (Some (store t name (Some (a_handle e)))) (v_default v)).
    assert (a_handle e :: owned v ++ ext ≡ₚ
      option_list (to_map (v_hosts v) !! name ≫= id) ++ owned v' ++ ext) as Hp.
    { unfold owned. cbn [v_hosts v_default v']. rewrite (owned_hosts _ Ht), (owned_hosts _ Hwf), Hm, owned_insert.
      rewrite (owned_lookup _ name) at 1. cbn [option_list app]. rewrite <- !app_assoc.
      by rewrite Permutation_middle. }
    rewrite Hp in H1. apply (few_perm _ _ Hp) in Hf1.
    destruct (refs_unref_opt _ _ _ H1 Hf1) as (hp' & Hun & H2).
    exists v', hp'. split_and!.
    + destruct (to_map (v_hosts v) !! name ≫= id); [by rewrite Hun|]. by injection Hun as <-.
    + constructor; [done| |done]. cbn [v_hosts v']. rewrite Hm. by apply map_Forall_insert_2.
    + unfold table_of. cbn [v_hosts v_default v' served fallback]. rewrite Hm. f_equal.
      by apply omap_insert_Some.
    + apply Permutation_length in Hp. rewrite !length_app in Hp. cbn [length] in Hp. rewrite !length_app in Hp. lia.
Qed.

Lemma del_refines v hp ext name : vhosts_ok v hp ext -> few (owned v ++ ext) -> del_ok v name ->
  exists v' hp', vhost_del v hp name false = Ret (v', hp') /\ vhosts_ok v' hp' ext /\
    table_of v' = table_del (table_of v) name.
Proof.
  intros [Ht Hfull Hr] Hf Hdel. unfold vhost_del, table_del.
  destruct (decide (name = default_name)) as [Hd|Hd].
  - assert (owned v ++ ext ≡ₚ option_list (v_default v) ++ owned (Vhosts (v_hosts v) None) ++ ext) as Hp.
    { unfold owned. cbn. solve_Permutation. }
    rewrite Hp in Hr. apply (few_perm _ _ Hp) in Hf.
    destruct (refs_unref_opt _ _ _ Hr Hf) as (hp' & -> & H2). run.
    eexists _, _. split_and!; [done|by constructor|done].
  - destruct Hdel as [|[h Hserved]]; [done|]. cbn in Hserved. rewrite lookup_omap in Hserved.
    pose proof (delete_cases (v_hosts v) name Ht) as Hc.
    destruct (cb_delete (v_hosts v) name) as [[w t]|]; [|by rewrite Hc in Hserved].
    destruct Hc as (Hw & Hwf & Hm).
    assert (owned v ++ ext ≡ₚ option_list w ++ owned (Vhosts t (v_default v)) ++ ext) as Hp.
    { unfold owned. cbn [v_hosts v_default]. rewrite (owned_hosts _ Ht), (owned_hosts _ Hwf), Hm.
      rewrite (owned_lookup _ name), Hw at 1. cbn. by rewrite <- !app_assoc. }
    rewrite Hp in Hr. apply (few_perm _ _ Hp) in Hf.
    destruct (refs_unref_opt _ _ _ Hr Hf) as (hp' & -> & H2). run.
    eexists _, _. split_and!; [done| |].
    + constructor; [done| |done]. cbn [v_hosts]. rewrite Hm. by apply map_Forall_delete.
    + unfold table_of. cbn [v_hosts v_default served fallback]. rewrite Hm. f_equal. apply omap_delete.
Qed.

Lemma unref_fresh hp w hp' h : unref hp w = Ret hp' -> hp !! h = None -> hp' !! h = None.
Proof.
  destruct w as [x|]; cbn; [|by intros [= <-]]. destruct (hp !! x) as [r|] eqn:E; [|done]. cbn.
  destruct (_ =? 0); intros [= <-] H.
  - by apply lookup_delete_None; right.
  - apply lookup_insert_None. split; [done|]. congruence.
Qed.

Lemma add_fresh v hp e name v' hp' h : vhost_add v hp e name false = Ret (v', hp') ->
  hp !! h = None -> h <> a_handle e -> hp' !! h = None.
Proof.
  unfold vhost_add. intros H Hh Hne. apply outcome_bind_ret in H as (o & _ & H). destruct o as [r|];
    [|by injection H as _ <-].
  assert (<[a_handle e := r]> hp !! h = None) as H1 by by apply lookup_insert_None.
  destruct (decide (name = default_name)).
  - apply outcome_bind_ret in H as (hp1 & Hu & [= _ <-]). by eapply unref_fresh.
  - apply outcome_bind_ret in H as ([ret t] & _ & H). destruct (ret =? 0); [by injection H as _ <-|].
    destruct t as [t|]; [|done]. apply outcome_bind_ret in H as (hp1 & Hu & [= _ <-]).
    destruct (walk t name).2; [by eapply unref_fresh|by injection Hu as <-].
Qed.

Lemma lookup_table v host : cb_wf (v_hosts v) -> map_Forall (fun _ => is_Some) (to_map (v_hosts v)) ->
  vhosts_lookup v host = table_lookup (table_of v) host.
Proof.
  intros Ht Hfull. destruct host as [u|]; [|done]. unfold vhosts_lookup, table_lookup. cbn.
  rewrite contains_lookup, lookup_omap by done. destruct (to_map (v_hosts v) !! u) as [w|] eqn:E; [|done].
  apply Hfull in E as [h ->]. done.
Qed.

Lemma lookup_owned v host h : cb_wf (v_hosts v) -> vhosts_lookup v host = Some h -> h ∈ owned v.
Proof.
  intros Ht. assert (v_default v = Some h -> h ∈ owned v) as Hd.
  { intros E. unfold owned. rewrite E. apply elem_of_app. right. by left. }
  destruct host as [u|]; [|done]. unfold vhosts_lookup. rewrite contains_lookup by done.
  destruct (to_map (v_hosts v) !! u) as [w|] eqn:E; [|done]. intros ->. unfold owned.
  apply elem_of_app. left. rewrite (owned_hosts _ Ht), (owned_lookup _ u), E. by left.
Qed.

Lemma ok_lookup v hp ext host : vhosts_ok v hp ext ->
  vhosts_lookup v host = table_lookup (table_of v) host /\
  forall h, vhosts_lookup v host = Some h -> is_Some (hp !! h).
Proof.
  intros [Ht Hfull Hr]. split; [by apply lookup_table|]. intros h Hh. apply (refs_live _ _ h Hr).
  apply elem_of_app. left. by eapply lookup_owned.
Qed.

Lemma event_refines v hp ext ev : vhosts_ok v hp ext -> few (0%nat :: owned v ++ ext) -> event_ok v hp ev ->
  exists v' hp', vhost_ops v hp ev = Ret (v', hp') /\ vhosts_ok v' hp' ext /\
    table_of v' = table_event (table_of v) ev.
Proof.
  intros Hok Hf Hev.
  assert (forall e name isdir, isdir = true \/ add_ok hp e name ->
    exists v' hp', vhost_add v hp e name isdir = Ret (v', hp') /\ vhosts_ok v' hp' ext /\
      table_of v' = if isdir then table_of v else table_try_add (table_of v) e name) as Hadd.
  { intros e name [] Ha; [by exists v, hp|]. destruct Ha as [|Ha]; [done|].
    destruct (add_refines v hp ext e name Hok Hf Ha) as (v' & hp' & ? & ? & ? & _). by exists v', hp'. }
  assert (forall name isdir, isdir = true \/ del_ok v name ->
    exists v' hp', vhost_del v hp name isdir = Ret (v', hp') /\ vhosts_ok v' hp' ext /\
      table_of v' = if isdir then table_of v else table_del (table_of v) name) as Hdel.
  { intros name [] Ha; [by exists v, hp|]. destruct Ha as [|Ha]; [done|].
    apply (del_refines v hp ext name Hok); [by eapply few_tail|done]. }
  destruct ev as [e n d | e n d | n d | n d | | ]; cbn [vhost_ops event_ok] in *;
    [pose proof (Hadd e n d Hev) as H|pose proof (Hadd e n d Hev) as H|pose proof (Hdel n d Hev) as H
    |pose proof (Hdel n d Hev) as H|by exists v, hp|by exists v, hp]; destruct d; exact H.
Qed.

Definition dir_ok (hp : heap) (dir : list dirent) : Prop :=
  NoDup ((fun de => a_handle (d_env de)) <$> dir) /\
  Forall (fun de => d_is_dir de = true \/ add_ok hp (d_env de) (d_name de)) dir.

Definition table_read (t : table) (dir : list dirent) : table :=
  foldl (fun t de => if d_is_dir de then t else table_try_add t (d_env de) (d_name de)) t dir.

Lemma read_dir_refines v hp ext dir : vhosts_ok v hp ext -> dir_ok hp dir ->
  Z.of_nat (length dir + length (owned v ++ ext)) < 2 ^ 32 - 1 ->
  exists v' hp', read_dir v hp dir = Ret (v', hp') /\ vhosts_ok v' hp' ext /\
    table_of v' = table_read (table_of v) dir /\
    (length (owned v') <= length dir + length (owned v))%nat.
Proof.
  revert v hp. induction dir as [|de dir IH]; intros v hp Hok [Hnd Hall] Hf.
  { exists v, hp. cbn. split_and!; [done|done|done|lia]. }
  apply Forall_cons in Hall as [Hde Hall]. cbn [fmap list_fmap] in Hnd. apply NoDup_cons in Hnd as [Hni Hnd].
  cbn [read_dir table_read foldl length] in *. rewrite length_app in Hf.
  destruct (d_is_dir de).
  - destruct (IH v hp Hok (conj Hnd Hall)) as (v' & hp' & H1 & H2 & H3 & H4); [rewrite length_app; lia|].
    exists v', hp'. split_and!; [done|done|done|lia].
  - destruct Hde as [|Hde]; [done|].
    destruct (add_refines v hp ext _ _ Hok ltac:(unfold few; cbn [length]; rewrite length_app; lia) Hde)
      as (v1 & hp1 & Hadd & Hok1 & Ht1 & Hl1).
    rewrite Hadd. run.
    destruct (IH v1 hp1 Hok1) as (v' & hp' & H1 & H2 & H3 & H4); [|rewrite length_app; lia|].
    + split; [done|]. apply Forall_forall. intros x Hx. rewrite Forall_forall in Hall.
      destruct (Hall x Hx) as [|(Ho & Hh & Hu & Hm)]; [by left|right]. split_and!; [done| |done|done].
      eapply add_fresh; [done|done|]. intros Heq. apply Hni. rewrite <- Heq.
      apply list_elem_of_fmap. by exists x.
    + exists v', hp'. split_and!; [done|done|by rewrite H3, Ht1|lia].
Qed.

(** ** Properties *)

Definition no_webroot : add_env := AddEnv 0 (-1) [] [] true true true [] true true true.

(** An environment in which [webroot_open] maps an empty webroot at [h]. *)
Definition sample_env (h : nat) : add_env :=
  AddEnv h 5 [SysOk 32] [] true true true (sample_header ++ replicate 50 7) true true true.

Definition sample_dir : list dirent :=
  [Dirent (lit "www.example.org") false (sample_env 1); Dirent (lit "old") true no_webroot;
   Dirent (lit "__default__") false (sample_env 2)].

Definition sample_start : outcome (option vhosts_t * heap) := vhosts_new ∅ true (Some sample_dir) true true.

Lemma sample_opened h : exists r, opened (sample_env h) = Ret (Some r).
Proof. eexists. vm_compute. reflexivity. Qed.

Lemma sample_add_ok hp h name : hp !! h = None -> ascii_key name -> add_ok hp (sample_env h) name.
Proof. intros Hh Hn. destruct (sample_opened h) as [r Hr]. split_and!; [by eexists|done|done|done]. Qed.

Lemma sample_dir_ok : dir_ok ∅ sample_dir.
Proof.
  split; [by_decide|]. repeat apply Forall_cons_2; [right|by left|right|by apply Forall_nil];
    apply sample_add_ok; (done || by_decide).
Qed.

Lemma empty_ok hp ext : refs_ok hp ext -> vhosts_ok (Vhosts None None) hp ext.
Proof. intros. by constructor; [done|apply map_Forall_empty|]. Qed.

(** a directory event keeps the table and the reference counts right: with
    every reference accounted for and the webroots of the table alive, adding
    or replacing a host (or the default) releases exactly the webroot it
    displaces, removing one releases its webroot, and afterwards a lookup by
    host name is the lookup in the table the event describes, of a webroot
    that is still allocated. *)
Theorem vhosts_event_refines v hp ext ev :
  vhosts_ok v hp ext -> few (0%nat :: owned v ++ ext) -> event_ok v hp ev ->
  exists v' hp', vhost_ops v hp ev = Ret (v', hp') /\ vhosts_ok v' hp' ext /\
    table_of v' = table_event (table_of v) ev /\
    forall host, vhosts_lookup v' host = table_lookup (table_event (table_of v) ev) host /\
      forall h, vhosts_lookup v' host = Some h -> is_Some (hp' !! h).
Proof.
  intros Hok Hf Hev. destruct (event_refines v hp ext ev Hok Hf Hev) as (v' & hp' & H1 & H2 & H3).
  exists v', hp'. split_and!; [done|done|done|]. intros host. rewrite <- H3. by apply (ok_lookup v' hp' ext).
Qed.

Lemma vhosts_event_refines_witness :
  match sample_start with
  | Ret (Some v, hp) =>
    exists v' hp', vhost_ops v hp (ev_moved_to (sample_env 3) (lit "www.example.org") false) = Ret (v', hp') /\
      vhosts_lookup v' (Some (lit "www.example.org")) = Some 3%nat /\ hp' !! 1%nat = None
  | _ => False
  end.
Proof.
  destruct (read_dir_refines (Vhosts None None) ∅ [] sample_dir) as (v & hp & Hread & Hok & Ht & Hl);
    [by apply empty_ok; intros h; rewrite lookup_empty|apply sample_dir_ok|vm_compute; reflexivity|].
  unfold sample_start, vhosts_new. rewrite Hread. cbn [negb mbind outcome_bind andb].
  assert (hp !! 3%nat = None /\ hp !! 1%nat <> None) as [H3 H1].
  { vm_compute in Hread. injection Hread as _ <-. done. }
  destruct (vhosts_event_refines v hp [] (ev_moved_to (sample_env 3) (lit "www.example.org") false))
    as (v' & hp' & Hstep & Hok' & _ & Hlook); [done| |by right; apply sample_add_ok; [done|by_decide]|].
  { unfold few. cbn [length]. rewrite length_app. cbn [length sample_dir owned v_hosts v_default] in *.
    change (length (owned (Vhosts None None))) with 0%nat in Hl. lia. }
  exists v', hp'. split; [done|]. vm_compute in Hread. injection Hread as <- <-.
  vm_compute in Hstep. injection Hstep as <- <-. by vm_compute.
Defined.

(** starting up on a directory whose names are ASCII and that fits in memory
    never faults; it serves, for every name, the last webroot that opened, and
    the reference counts are right. When inotify cannot be set up it gives
    back every webroot of the tree, but keeps the reference to the default
    one, which nothing points to any more. *)
Theorem vhosts_new_table hp ext dir notify_ok watch_ok :
  refs_ok hp ext -> dir_ok hp dir -> Z.of_nat (length dir + length ext) < 2 ^ 32 - 1 ->
  exists v' hp', vhosts_new hp true (Some dir) notify_ok watch_ok = Ret (v', hp') /\
    if notify_ok && watch_ok then
      exists v, v' = Some v /\ vhosts_ok v hp' ext /\ table_of v = table_read (Table ∅ None) dir
    else v' = None /\ refs_ok hp' (option_list (fallback (table_read (Table ∅ None) dir)) ++ ext).
Proof.
  intros Hr Hd Hf. unfold vhosts_new. cbn [negb].
  destruct (read_dir_refines (Vhosts None None) hp ext dir (empty_ok hp ext Hr) Hd Hf)
    as (v & hp1 & -> & Hok & Ht & Hl).
  run. change (table_of (Vhosts None None)) with (Table ∅ None) in Ht.
  destruct (notify_ok && watch_ok); [by eexists _, _; split; [done|]; exists v|].
  rewrite slots_traverse. destruct Hok as [Hwf Hfull Hrefs]. unfold owned in Hrefs. rewrite <- app_assoc in Hrefs.
  destruct (refs_unref_all hp1 (slots (v_hosts v)) (option_list (v_default v) ++ ext) Hrefs) as (hp2 & -> & H2).
  { unfold few, owned in *. rewrite !length_app in *. cbn in Hl. lia. }
  eexists _, _. split; [done|]. split; [done|]. by rewrite <- Ht.
Qed.

Lemma vhosts_new_table_witness :
  exists hp', vhosts_new ∅ true (Some sample_dir) true false = Ret (None, hp') /\ refs_ok hp' [2%nat] /\
    is_Some (hp' !! 2%nat).
Proof.
  destruct (vhosts_new_table ∅ [] sample_dir true false) as (v' & hp' & H1 & [-> H2]);
    [by intros h; rewrite lookup_empty|apply sample_dir_ok|vm_compute; reflexivity|].
  exists hp'. split_and!; [done|exact H2|]. apply (refs_live _ _ _ H2). by left.
Defined.

(** the removal of a name that is not served (one whose webroot did not open,
    for instance) releases a pointer that was never set. *)
Theorem vhost_del_absent v hp ext name : vhosts_ok v hp ext -> name <> default_name ->
  served (table_of v) !! name = None -> vhost_del v hp name false = Fault OutOfBounds.
Proof.
  intros [Ht Hfull _] Hne Hs. unfold vhost_del. rewrite decide_False by done.
  pose proof (delete_cases (v_hosts v) name Ht) as Hc. destruct (cb_delete (v_hosts v) name) as [[w t]|]; [|done].
  destruct Hc as (Hw & _ & _). cbn in Hs. rewrite lookup_omap, Hw in Hs. apply Hfull in Hw as [h ->]. done.
Qed.

Lemma vhost_del_absent_witness :
  vhost_del (Vhosts None None) ∅ (lit "README") false = Fault OutOfBounds.
Proof.
  apply (vhost_del_absent _ _ []); [by apply empty_ok; intros h; rewrite lookup_empty|by_decide|done].
Defined.
