(* ===== verification/Mkroot.v ===== *)
(** * mkroot.c: scanning a directory into the objects of a webroot

    [scan_item] walks a directory tree and links every path it finds to an
    object: a file, the target of a redirect or a bare status code. Objects
    and media types are shared through pointers, so they live in a heap, by
    address; the lists hold addresses. What the file system and the allocators
    answer is the environment: the tree does not change while it is scanned, as
    the code assumes too. *)

From S2P Require Import Prelude Os Fobuf Trie.
Local Open Scope Z_scope.

(** ** Data *)

(** The C string [NULL] stands for a missing value. *)
Record mime_type := MimeType { m_type : list Z; m_strtab_off : Z }.

Inductive file_content := FILE_PATH (path : list Z) | FILE_TMPCHUNK (tmpoff : Z).

Record file_obj := FileObj {
  f_type : option nat;
  f_content : file_content;
  f_size : Z;
  f_off : Z;
  f_dev : Z;
  f_ino : Z;
  f_mtime : Z;
  f_digest : list Z;
}.

(** The two members of the union; a redirect without a URI is a status code. *)
Inductive obj_data :=
| OBJ_TYPE_FILE (f : file_obj)
| OBJ_TYPE_REDIRECT (uri : option (list Z)) (strtab_off code : Z).

Record object := Obj { o_oid : Z; o_u : obj_data }.

(** [u_uri] is null when copying the string failed. *)
Record uri := Uri { u_obj : nat; u_uri : option (list Z) }.

#[export] Instance uri_eq_dec : EqDecision uri.
Proof. solve_decision. Defined.

(** [r_next] and [r_allocs] number objects and allocations. *)
Record mkroot := Mkroot {
  r_uri : list uri;
  r_redirect : list nat;
  r_file : list nat;
  r_mime_type : list nat;
  r_objs : gmap nat object;
  r_mimes : gmap nat mime_type;
  r_next : nat;
  r_allocs : nat;
  r_tmpchunks : option (fobuf * kernel);
  r_abuflen : nat;
  r_base : list Z;
  r_trie : option (trie * list edge);
  r_files_sz : Z;
  r_tmpoff : Z;
  r_num_uri : Z;
  r_num_redirect : Z;
  r_num_file : Z;
  r_mimetab_sz : Z;
  r_redirtab_sz : Z;
}.

Definition with_uri (r : mkroot) (x : list uri) : mkroot :=
  Mkroot x (r_redirect r) (r_file r) (r_mime_type r) (r_objs r) (r_mimes r) (r_next r) (r_allocs r)
    (r_tmpchunks r) (r_abuflen r) (r_base r) (r_trie r) (r_files_sz r) (r_tmpoff r) (r_num_uri r)
    (r_num_redirect r) (r_num_file r) (r_mimetab_sz r) (r_redirtab_sz r).
Definition with_redirect (r : mkroot) (x : list nat) : mkroot :=
  Mkroot (r_uri r) x (r_file r) (r_mime_type r) (r_objs r) (r_mimes r) (r_next r) (r_allocs r)
    (r_tmpchunks r) (r_abuflen r) (r_base r) (r_trie r) (r_files_sz r) (r_tmpoff r) (r_num_uri r)
    (r_num_redirect r) (r_num_file r) (r_mimetab_sz r) (r_redirtab_sz r).
Definition with_file (r : mkroot) (x : list nat) : mkroot :=
  Mkroot (r_uri r) (r_redirect r) x (r_mime_type r) (r_objs r) (r_mimes r) (r_next r) (r_allocs r)
    (r_tmpchunks r) (r_abuflen r) (r_base r) (r_trie r) (r_files_sz r) (r_tmpoff r) (r_num_uri r)
    (r_num_redirect r) (r_num_file r) (r_mimetab_sz r) (r_redirtab_sz r).
Definition with_mime_type (r : mkroot) (x : list nat) : mkroot :=
  Mkroot (r_uri r) (r_redirect r) (r_file r) x (r_objs r) (r_mimes r) (r_next r) (r_allocs r)
    (r_tmpchunks r) (r_abuflen r) (r_base r) (r_trie r) (r_files_sz r) (r_tmpoff r) (r_num_uri r)
    (r_num_redirect r) (r_num_file r) (r_mimetab_sz r) (r_redirtab_sz r).
Definition with_objs (r : mkroot) (x : gmap nat object) : mkroot :=
  Mkroot (r_uri r) (r_redirect r) (r_file r) (r_mime_type r) x (r_mimes r) (r_next r) (r_allocs r)
    (r_tmpchunks r) (r_abuflen r) (r_base r) (r_trie r) (r_files_sz r) (r_tmpoff r) (r_num_uri r)
    (r_num_redirect r) (r_num_file r) (r_mimetab_sz r) (r_redirtab_sz r).
Definition with_mimes (r : mkroot) (x : gmap nat mime_type) : mkroot :=
  Mkroot (r_uri r) (r_redirect r) (r_file r) (r_mime_type r) (r_objs r) x (r_next r) (r_allocs r)
    (r_tmpchunks r) (r_abuflen r) (r_base r) (r_trie r) (r_files_sz r) (r_tmpoff r) (r_num_uri r)
    (r_num_redirect r) (r_num_file r) (r_mimetab_sz r) (r_redirtab_sz r).
Definition with_next (r : mkroot) (x : nat) : mkroot :=
  Mkroot (r_uri r) (r_redirect r) (r_file r) (r_mime_type r) (r_objs r) (r_mimes r) x (r_allocs r)
    (r_tmpchunks r) (r_abuflen r) (r_base r) (r_trie r) (r_files_sz r) (r_tmpoff r) (r_num_uri r)
    (r_num_redirect r) (r_num_file r) (r_mimetab_sz r) (r_redirtab_sz r).
Definition with_allocs (r : mkroot) (x : nat) : mkroot :=
  Mkroot (r_uri r) (r_redirect r) (r_file r) (r_mime_type r) (r_objs r) (r_mimes r) (r_next r) x
    (r_tmpchunks r) (r_abuflen r) (r_base r) (r_trie r) (r_files_sz r) (r_tmpoff r) (r_num_uri r)
    (r_num_redirect r) (r_num_file r) (r_mimetab_sz r) (r_redirtab_sz r).
Definition with_tmpchunks (r : mkroot) (x : option (fobuf * kernel)) : mkroot :=
  Mkroot (r_uri r) (r_redirect r) (r_file r) (r_mime_type r) (r_objs r) (r_mimes r) (r_next r)
    (r_allocs r) x (r_abuflen r) (r_base r) (r_trie r) (r_files_sz r) (r_tmpoff r) (r_num_uri r)
    (r_num_redirect r) (r_num_file r) (r_mimetab_sz r) (r_redirtab_sz r).
Definition with_abuflen (r : mkroot) (x : nat) : mkroot :=
  Mkroot (r_uri r) (r_redirect r) (r_file r) (r_mime_type r) (r_objs r) (r_mimes r) (r_next r)
    (r_allocs r) (r_tmpchunks r) x (r_base r) (r_trie r) (r_files_sz r) (r_tmpoff r) (r_num_uri r)
    (r_num_redirect r) (r_num_file r) (r_mimetab_sz r) (r_redirtab_sz r).
Definition with_base (r : mkroot) (x : list Z) : mkroot :=
  Mkroot (r_uri r) (r_redirect r) (r_file r) (r_mime_type r) (r_objs r) (r_mimes r) (r_next r)
    (r_allocs r) (r_tmpchunks r) (r_abuflen r) x (r_trie r) (r_files_sz r) (r_tmpoff r) (r_num_uri
    r) (r_num_redirect r) (r_num_file r) (r_mimetab_sz r) (r_redirtab_sz r).
Definition with_trie (r : mkroot) (x : option (trie * list edge)) : mkroot :=
  Mkroot (r_uri r) (r_redirect r) (r_file r) (r_mime_type r) (r_objs r) (r_mimes r) (r_next r)
    (r_allocs r) (r_tmpchunks r) (r_abuflen r) (r_base r) x (r_files_sz r) (r_tmpoff r) (r_num_uri
    r) (r_num_redirect r) (r_num_file r) (r_mimetab_sz r) (r_redirtab_sz r).
Definition with_files_sz (r : mkroot) (x : Z) : mkroot :=
  Mkroot (r_uri r) (r_redirect r) (r_file r) (r_mime_type r) (r_objs r) (r_mimes r) (r_next r)
    (r_allocs r) (r_tmpchunks r) (r_abuflen r) (r_base r) (r_trie r) x (r_tmpoff r) (r_num_uri r)
    (r_num_redirect r) (r_num_file r) (r_mimetab_sz r) (r_redirtab_sz r).
Definition with_tmpoff (r : mkroot) (x : Z) : mkroot :=
  Mkroot (r_uri r) (r_redirect r) (r_file r) (r_mime_type r) (r_objs r) (r_mimes r) (r_next r)
    (r_allocs r) (r_tmpchunks r) (r_abuflen r) (r_base r) (r_trie r) (r_files_sz r) x (r_num_uri r)
    (r_num_redirect r) (r_num_file r) (r_mimetab_sz r) (r_redirtab_sz r).
Definition with_num_uri (r : mkroot) (x : Z) : mkroot :=
  Mkroot (r_uri r) (r_redirect r) (r_file r) (r_mime_type r) (r_objs r) (r_mimes r) (r_next r)
    (r_allocs r) (r_tmpchunks r) (r_abuflen r) (r_base r) (r_trie r) (r_files_sz r) (r_tmpoff r) x
    (r_num_redirect r) (r_num_file r) (r_mimetab_sz r) (r_redirtab_sz r).
Definition with_num_redirect (r : mkroot) (x : Z) : mkroot :=
  Mkroot (r_uri r) (r_redirect r) (r_file r) (r_mime_type r) (r_objs r) (r_mimes r) (r_next r)
    (r_allocs r) (r_tmpchunks r) (r_abuflen r) (r_base r) (r_trie r) (r_files_sz r) (r_tmpoff r)
    (r_num_uri r) x (r_num_file r) (r_mimetab_sz r) (r_redirtab_sz r).
Definition with_num_file (r : mkroot) (x : Z) : mkroot :=
  Mkroot (r_uri r) (r_redirect r) (r_file r) (r_mime_type r) (r_objs r) (r_mimes r) (r_next r)
    (r_allocs r) (r_tmpchunks r) (r_abuflen r) (r_base r) (r_trie r) (r_files_sz r) (r_tmpoff r)
    (r_num_uri r) (r_num_redirect r) x (r_mimetab_sz r) (r_redirtab_sz r).
Definition with_mimetab_sz (r : mkroot) (x : Z) : mkroot :=
  Mkroot (r_uri r) (r_redirect r) (r_file r) (r_mime_type r) (r_objs r) (r_mimes r) (r_next r)
    (r_allocs r) (r_tmpchunks r) (r_abuflen r) (r_base r) (r_trie r) (r_files_sz r) (r_tmpoff r)
    (r_num_uri r) (r_num_redirect r) (r_num_file r) x (r_redirtab_sz r).
Definition with_redirtab_sz (r : mkroot) (x : Z) : mkroot :=
  Mkroot (r_uri r) (r_redirect r) (r_file r) (r_mime_type r) (r_objs r) (r_mimes r) (r_next r)
    (r_allocs r) (r_tmpchunks r) (r_abuflen r) (r_base r) (r_trie r) (r_files_sz r) (r_tmpoff r)
    (r_num_uri r) (r_num_redirect r) (r_num_file r) (r_mimetab_sz r) x.

(** ** The environment *)

Inductive fkind := S_DIR | S_REG | S_LNK | S_OTHER.

Record stat := Stat { st_mode : fkind; st_dev : Z; st_ino : Z; st_mtime : Z; st_size : Z }.

(** [stat]'s answer: a result, [ENOENT], or another error. *)
Inductive stat_res := StatOk (st : stat) | StatNoent | StatErr.

Record env := Env {
  e_lstat : list Z -> option stat;
  e_stat : list Z -> stat_res;
  e_readdir : list Z -> option (list (list Z));
  e_readlink : list Z -> option (list Z);
  e_stack : list Z -> list Z;
  e_magic : list Z -> option (list Z);
  e_alloc : nat -> bool;
}.

(** ** The monad: the program's state, and faults *)

Definition M (A : Type) : Type := mkroot -> outcome (A * mkroot).

#[export] Instance M_ret : MRet M := fun A a r => Ret (a, r).
#[export] Instance M_bind : MBind M := fun A B f e r => '(a, r) ← e r; f a r.

Definition get : M mkroot := fun r => Ret (r, r).
Definition put_st (r : mkroot) : M unit := fun _ => Ret (tt, r).
Definition modify (f : mkroot -> mkroot) : M unit := fun r => Ret (tt, f r).
Definition lift {A} (o : outcome A) : M A := fun r => a ← o; Ret (a, r).

(** [if ( NULL == (x = e) ) return NULL;] and the same with [return 0;]. *)
Notation "x ←? e ; k" := (mbind (M := M) (fun o => match o with Some x => k | None => mret (M := M) None end) e)
  (at level 20, e at level 100, k at level 200, only parsing) : c_scope.
Notation "x ←! e ; k" := (mbind (M := M) (fun o => match o with Some x => k | None => mret (M := M) false end) e)
  (at level 20, e at level 100, k at level 200, only parsing) : c_scope.

(** ** Strings *)

(** [strcmp], as far as its sign goes. *)
Fixpoint strcmp (a b : list Z) : Z :=
  match a, b with
  | [], [] => 0
  | [], _ => -1
  | _, [] => 1
  | x :: a, y :: b => if x =? y then strcmp a b else x - y
  end.

Definition ends_slash (s : list Z) : bool := bool_decide (last s = Some 47).
Definition starts_slash (s : list Z) : bool := bool_decide (head s = Some 47).

Section scan.
Context (E : env).

Definition galloc : M bool :=
  r ← get;
  let ok := e_alloc E (r_allocs r) in
  r ← put_st (with_allocs r (S (r_allocs r)));
  mret ok.

(** [printf] prints "(null)" for a null string, but [path[0]] reads it. *)
Definition path_splice (dir : list Z) (path : option (list Z)) : M (option (list Z)) :=
  ok ← galloc;
  if negb ok then mret None
  else
    let text := default (lit "(null)") path in
    if ends_slash dir then mret (Some (dir ++ text))
    else
      p ← lift (of_option OutOfBounds path);
      if starts_slash p then mret (Some (dir ++ text)) else mret (Some (dir ++ [47] ++ text)).

Definition webroot_lookup (path : option (list Z)) : M (option (list Z)) :=
  r ← get; path_splice (r_base r) path.

Definition webroot_strdup (str : list Z) : M (option (list Z)) :=
  ok ← galloc; mret (if (ok : bool) then Some str else None).

(** ** Objects *)

(** A zeroed object from the pool, at a new address. *)
Definition alloc_obj (o : object) : M (option nat) :=
  ok ← galloc;
  if negb ok then mret None
  else
    r ← get;
    let a := r_next r in
    _ ← put_st (with_next (with_objs r (<[a := o]> (r_objs r))) (S a));
    mret (Some a).

Definition set_obj (a : nat) (o : object) : M unit :=
  modify (fun r => with_objs r (<[a := o]> (r_objs r))).

(** [list_del(&obj->o_list); hgang_return(r->r_obj_mem, obj);] *)
Definition drop_obj (a : nat) : M unit :=
  modify (fun r =>
    let del := filter (fun b => b <> a) in
    with_objs (with_file (with_redirect r (del (r_redirect r))) (del (r_file r))) (delete a (r_objs r))).

(** [webroot_link(r, link, target)]: whether a URI was returned. The check after
    [webroot_strdup] looks at [r], which is not null, instead of the copy. *)
Definition webroot_link (link : list Z) (target : nat) : M bool :=
  let link := match link with [] => [47] | _ => link end in
  ok ← galloc;
  if negb ok then mret false
  else
    s ← webroot_strdup link;
    _ ← modify (fun r => with_num_uri (with_uri r (r_uri r ++ [Uri target s])) (uint 32 (r_num_uri r + 1)));
    mret true.

Fixpoint find_mime (mimes : gmap nat mime_type) (l : list nat) (mime : option (list Z)) : outcome (option nat) :=
  match l with
  | [] => Ret None
  | a :: l =>
    m ← of_option OutOfBounds (mimes !! a);
    s ← of_option OutOfBounds mime;
    if strcmp (m_type m) s =? 0 then Ret (Some a) else find_mime mimes l mime
  end.

(** [mime_add(r, mime)]; [mime] is null when libmagic fails. *)
Definition mime_add (mime : option (list Z)) : M (option nat) :=
  r ← get;
  found ← lift (find_mime (r_mimes r) (r_mime_type r) mime);
  match found with
  | Some m => mret (Some m)
  | None =>
    ok ← galloc;
    if negb ok then mret None
    else
      s ← lift (of_option OutOfBounds mime);
      s ←? webroot_strdup s;
      r ← get;
      let a := r_next r in
      _ ← put_st (with_next (with_mime_type (with_mimes r (<[a := MimeType s 0]> (r_mimes r)))
                    (a :: r_mime_type r)) (S a));
      mret (Some a)
  end.

Definition obj_redirect (path : list Z) : M (option nat) :=
  o ←? alloc_obj (Obj 0 (OBJ_TYPE_REDIRECT None 0 0));
  s ← webroot_strdup path;
  match s with
  | None => _ ← modify (fun r => with_objs r (delete o (r_objs r))); mret None
  | Some s =>
    _ ← set_obj o (Obj 0 (OBJ_TYPE_REDIRECT (Some s) 0 0));
    _ ← modify (fun r => with_num_redirect (with_redirect r (r_redirect r ++ [o])) (uint 32 (r_num_redirect r + 1)));
    mret (Some o)
  end.

Definition obj_code (code : Z) : M (option nat) :=
  o ←? alloc_obj (Obj 0 (OBJ_TYPE_REDIRECT None 0 code));
  _ ← modify (fun r => with_num_redirect (with_redirect r (r_redirect r ++ [o])) (uint 32 (r_num_redirect r + 1)));
  mret (Some o).

(** The file members of the object at [a]. *)
Definition file_of (objs : gmap nat object) (a : nat) : outcome file_obj :=
  o ← of_option OutOfBounds (objs !! a);
  match o_u o with OBJ_TYPE_FILE f => Ret f | _ => Fault OutOfBounds end.

Fixpoint find_file (objs : gmap nat object) (l : list nat) (dev ino : Z) : outcome (option nat) :=
  match l with
  | [] => Ret None
  | a :: l =>
    f ← file_of objs a;
    if (dev =? f_dev f) && (ino =? f_ino f) then Ret (Some a) else find_file objs l dev ino
  end.

Definition obj_file (dev ino mtime size : Z) : M (option nat) :=
  r ← get;
  found ← lift (find_file (r_objs r) (r_file r) dev ino);
  match found with
  | Some o => mret (Some o)
  | None =>
    o ←? alloc_obj (Obj 0 (OBJ_TYPE_FILE (FileObj None (FILE_PATH []) size 0 dev ino mtime (replicate 20 0))));
    _ ← modify (fun r => with_num_file (with_file r (r_file r ++ [o])) (uint 32 (r_num_file r + 1)));
    mret (Some o)
  end.

Definition update_file (a : nat) (g : file_obj -> file_obj) : M unit :=
  r ← get;
  o ← lift (of_option OutOfBounds (r_objs r !! a));
  match o_u o with
  | OBJ_TYPE_FILE f => set_obj a (Obj (o_oid o) (OBJ_TYPE_FILE (g f)))
  | _ => lift (Fault OutOfBounds)
  end.

Definition with_content (c : file_content) (f : file_obj) : file_obj :=
  FileObj (f_type f) c (f_size f) (f_off f) (f_dev f) (f_ino f) (f_mtime f) (f_digest f).
Definition with_type (m : nat) (f : file_obj) : file_obj :=
  FileObj (Some m) (f_content f) (f_size f) (f_off f) (f_dev f) (f_ino f) (f_mtime f) (f_digest f).
Definition with_size (n : Z) (f : file_obj) : file_obj :=
  FileObj (f_type f) (f_content f) n (f_off f) (f_dev f) (f_ino f) (f_mtime f) (f_digest f).

(** The end of [obj_file_path] and of [obj_file_tmpchunks]. *)
Definition set_type (o : nat) (mime : option (list Z)) : M (option nat) :=
  m ← mime_add mime;
  match m with
  | None => _ ← drop_obj o; mret None
  | Some m => _ ← update_file o (with_type m); mret (Some o)
  end.

Definition obj_file_path (path : list Z) (dev ino mtime size : Z) : M (option nat) :=
  o ←? obj_file dev ino mtime size;
  s ← webroot_strdup path;
  match s with
  | None => _ ← drop_obj o; mret None
  | Some s =>
    _ ← update_file o (with_content (FILE_PATH s));
    set_type o (e_magic E path)
  end.

Definition obj_file_tmpchunks (mime : list Z) (dev ino mtime : Z) : M (option nat) :=
  o ←? obj_file dev ino mtime 0;
  r ← get;
  _ ← update_file o (with_content (FILE_TMPCHUNK (r_tmpoff r)));
  set_type o (Some mime).

(** ** Generated pages *)

(** [tc_printf], once the text is formatted. The static buffer grows by
    [realloc]; when that fails the truncated text is written with its full
    length. *)
Definition tc_printf (text : list Z) : M unit :=
  r ← get;
  match r_tmpchunks r with
  | None => mret tt
  | Some (b, k) =>
    let len := length text in
    text ← (if (len <? r_abuflen r)%nat then mret text
            else
              ok ← galloc;
              if (ok : bool) then _ ← modify (fun r => with_abuflen r (S len)); mret text
              else if (len <=? r_abuflen r)%nat then mret (take len (take (r_abuflen r - 1) text ++ [0]))
              else lift (Fault OutOfBounds));
    '(ok, b, k) ← lift (fobuf_write b text k);
    modify (fun r =>
      if (ok : bool) then with_tmpoff (with_tmpchunks r (Some (b, k))) (uint 64 (r_tmpoff r + Z.of_nat len))
      else with_tmpchunks r None)
  end.

Definition dquote : list Z := [34].
Definition tab : list Z := [9].
Definition nl : list Z := [10].

(** [.] and [..], and names that start with a dot. *)
Definition dotfiles : bool := false.
Definition indexdirs : bool := true.

Definition skip_entry (name : list Z) : bool :=
  bool_decide (name = lit ".") || bool_decide (name = lit "..") ||
  (negb dotfiles && bool_decide (head name = Some 46)).

Fixpoint index_entries (u : list Z) (names : list (list Z)) : M unit :=
  match names with
  | [] => mret tt
  | name :: names =>
    if skip_entry name then index_entries u names
    else
      uri ← path_splice u (Some name);
      let uri := default (lit "(null)") uri in
      _ ← tc_printf (lit "<a href=" ++ dquote ++ uri ++ dquote ++ lit ">" ++ name ++ lit "</a><br>" ++ nl);
      index_entries u names
  end.

Definition index_dir (st : stat) (path u : list Z) : M (option nat) :=
  o ←? obj_file_tmpchunks (lit "text/html") (st_dev st) (st_ino st) (st_mtime st);
  _ ← tc_printf (lit "<!DOCTYPE HTML PUBLIC " ++ dquote ++ lit "-//W3C//DTD HTML 3.2 Final//EN" ++ dquote ++ lit ">");
  _ ← tc_printf (lit "<html>" ++ nl ++ tab ++ lit "<head><title>Index of " ++ u ++ lit "</title>" ++ tab ++ lit "</head>" ++ nl);
  _ ← tc_printf (lit "<body><h1>Index of " ++ u ++ lit "</h1>" ++ nl);
  _ ← tc_printf (lit "</body>" ++ nl ++ lit "</html>");
  match e_readdir E path with
  | None => mret None
  | Some names =>
    _ ← index_entries u names;
    r ← get;
    match r_tmpchunks r with
    | None => mret None
    | Some _ =>
      f ← lift (file_of (r_objs r) o);
      match f_content f with
      | FILE_TMPCHUNK off =>
        _ ← update_file o (with_size (uint 64 (r_tmpoff r - off)));
        mret (Some o)
      | _ => lift (Fault OutOfBounds)
      end
    end
  end.

(** ** Directories *)

Definition index_pages : list (list Z) := [lit "index.html"; lit "default.html"].

(** [try_index(r, u, page, &obj)]: nothing on error, else what it stores in
    [obj]. *)
Definition try_index (u page : list Z) : M (option (option nat)) :=
  uri ←? path_splice u (Some page);
  ipath ←? webroot_lookup (Some uri);
  match e_stat E ipath with
  | StatNoent => mret (Some None)
  | StatErr => mret None
  | StatOk st =>
    match st_mode st with
    | S_REG =>
      o ←? obj_file_path ipath (st_dev st) (st_ino st) (st_mtime st) (st_size st);
      mret (Some (Some o))
    | _ => mret (Some None)
    end
  end.

Fixpoint try_pages (u : list Z) (pages : list (list Z)) : M (option (option nat)) :=
  match pages with
  | [] => mret (Some None)
  | page :: pages =>
    res ←? try_index u page;
    match res with
    | Some o => mret (Some (Some o))
    | None => try_pages u pages
    end
  end.

Definition add_index (st : stat) (path u : list Z) : M bool :=
  res ←! try_pages u index_pages;
  o ←! match res with
        | Some o => mret (Some o)
        | None => if (indexdirs : bool) then index_dir st path u else obj_code 403
        end;
  webroot_link u o.

Definition SYMBUF : nat := Z.to_nat 16384.

(** [readlink] into a buffer on the stack that is read as a C string although
    nothing ends it: what was on the stack follows the target. *)
Definition read_link (path : list Z) : M (option (list Z)) :=
  match e_readlink E path with
  | None => mret None
  | Some target =>
    let target := take SYMBUF target in
    let buf := target ++ drop (length target) (take SYMBUF (e_stack E path)) in
    if existsb (Z.eqb 0) buf then mret (Some (cstr buf)) else lift (Fault OutOfBounds)
  end.

(** [scan_item(r, dir, u)] and [scan_dir(r, dir, path)], one directory a unit of
    fuel. *)
Section scan_dir.
Context (scan_item : list Z -> option (list Z) -> M bool).

Fixpoint scan_entries (dir : list Z) (names : list (list Z)) : M bool :=
  match names with
  | [] => mret true
  | name :: names =>
    if skip_entry name then scan_entries dir names
    else
      uri ← path_splice dir (Some name);
      ret ← scan_item dir uri;
      if (ret : bool) then scan_entries dir names else mret false
  end.

Definition scan_dir (dir path : list Z) : M bool :=
  match e_readdir E path with
  | None => mret false
  | Some names => scan_entries dir names
  end.
End scan_dir.

Fixpoint scan_item (fuel : nat) (dir : list Z) (u : option (list Z)) : M bool :=
  match fuel with
  | O => lift (Fault OutOfFuel)
  | S fuel =>
    path ←! webroot_lookup u;
    match e_lstat E path with
    | None => mret false
    | Some st =>
      match st_mode st with
      | S_DIR =>
        u ← lift (of_option OutOfBounds u);
        dpath ←! path_splice u (Some [47]);
        ok ← add_index st path dpath;
        if negb ok then mret false
        else
          match u with
          | [] => scan_dir (scan_item fuel) u path
          | _ =>
            o ←! obj_redirect dpath;
            ok ← scan_dir (scan_item fuel) u path;
            if (ok : bool) then webroot_link u o else mret false
          end
      | S_REG =>
        o ←! obj_file_path path (st_dev st) (st_ino st) (st_mtime st) (st_size st);
        u ← lift (of_option OutOfBounds u);
        webroot_link u o
      | S_LNK =>
        target ←! read_link path;
        lpath ←! path_splice dir (Some target);
        o ←! obj_redirect lpath;
        u ← lift (of_option OutOfBounds u);
        webroot_link u o
      | S_OTHER => mret true
      end
    end
  end.
End scan.

(** ** Steps of the monad *)

Lemma M_bind_step {A B} (e : M A) (f : A -> M B) r : (e ≫= f) r = ('(a, r) ← e r; f a r).
Proof. done. Qed.
Lemma M_get {B} (f : mkroot -> M B) r : (get ≫= f) r = f r r.
Proof. done. Qed.
Lemma M_put {B} (f : unit -> M B) r r' : (put_st r' ≫= f) r = f tt r'.
Proof. done. Qed.
Lemma M_modify {B} (f : unit -> M B) g r : (modify g ≫= f) r = f tt (g r).
Proof. done. Qed.
Lemma M_lift_bind {A B} (o : outcome A) (f : A -> M B) r : (lift o ≫= f) r = (a ← o; f a r).
Proof. by destruct o. Qed.
Lemma M_ret_bind {A B} (a : A) (f : A -> M B) r : ((mret a : M A) ≫= f) r = f a r.
Proof. done. Qed.

Ltac mrun :=
  run; repeat (first [rewrite M_get | rewrite M_put | rewrite M_modify | rewrite M_lift_bind | rewrite M_ret_bind]; run).

Lemma M_galloc {B} E (f : bool -> M B) r : (galloc E ≫= f) r = f (e_alloc E (r_allocs r)) (with_allocs r (S (r_allocs r))).
Proof. done. Qed.
