(* ===== verification/MkrootWrite.v ===== *)
(** * mkroot.c: laying out and writing the webroot

    [webroot_prep] sorts the URIs, numbers the objects, builds the trie and
    assigns offsets; [webroot_write] writes the header, the index, the tables
    and the files through a buffered stream, then seeks back to fill in the
    digests that were only known once the files had been read. [do_mkroot] is
    the whole program. *)

From stdpp Require Import sorting.
From S2P Require Import Prelude Os Fobuf Trie Webroot Sha1 Mkroot.
Local Open Scope Z_scope.

(** ** Laying out *)

Section prep.
Context (E : env) (trie_alloc : nat -> bool) (trie_calloc_ok trie_hgang_ok : bool).

(** The order [ucmp] gives; it may only be asked for URIs that are not null. *)
Definition ucmp_le (a b : uri) : Prop := strcmp (default [] (u_uri a)) (default [] (u_uri b)) <= 0.

#[export] Instance ucmp_le_dec a b : Decision (ucmp_le a b).
Proof. unfold ucmp_le. apply _. Defined.

Definition null_uri (u : uri) : bool := bool_decide (u_uri u = None).

(** [qsort] compares as soon as there are two elements. *)
Definition sort_uris : M bool :=
  ok ← galloc E;
  if negb ok then mret false
  else
    r ← get;
    _ ← lift (c_assert (Z.of_nat (length (r_uri r)) =? r_num_uri r));
    _ ← lift (if (1 <? length (r_uri r))%nat && existsb null_uri (r_uri r) then Fault OutOfBounds else Ret tt);
    _ ← put_st (with_uri r (merge_sort ucmp_le (r_uri r)));
    mret true.

Fixpoint number_objs (objs : gmap nat object) (l : list nat) (oid : Z) : outcome (gmap nat object * Z) :=
  match l with
  | [] => Ret (objs, oid)
  | a :: l =>
    o ← of_option OutOfBounds (objs !! a);
    number_objs (<[a := Obj oid (o_u o)]> objs) l (uint 32 (oid + 1))
  end.

Definition sort_objects : M bool :=
  r ← get;
  '(objs, oid) ← lift (number_objs (r_objs r) (r_redirect r) 0);
  '(objs, oid) ← lift (number_objs objs (r_file r) oid);
  _ ← put_st (with_objs r objs);
  mret true.

Fixpoint entries (objs : gmap nat object) (l : list uri) : outcome (list trie_entry) :=
  match l with
  | [] => Ret []
  | u :: l =>
    s ← of_option OutOfBounds (u_uri u);
    o ← of_option OutOfBounds (objs !! u_obj u);
    l ← entries objs l;
    Ret (TrieEntry s (o_oid o) :: l)
  end.

(** The size of everything before the strings. *)
Definition index_size (r : mkroot) (t : trie) : Z :=
  uint 64 (Z.of_nat hdr_sz + trie_trie_size t + Z.of_nat redir_sz * r_num_redirect r + Z.of_nat file_sz * r_num_file r).

Fixpoint layout_mimes (l : list nat) (off : Z) : M Z :=
  match l with
  | [] => mret off
  | a :: l =>
    r ← get;
    m ← lift (of_option OutOfBounds (r_mimes r !! a));
    let n := Z.of_nat (length (m_type m)) in
    _ ← put_st (with_mimetab_sz (with_mimes r (<[a := MimeType (m_type m) (uint 32 off)]> (r_mimes r)))
                  (uint 32 (r_mimetab_sz r + n)));
    layout_mimes l (uint 64 (off + n))
  end.

(** The redirect members of an object. *)
Definition redirect_of (objs : gmap nat object) (a : nat) : outcome (Z * option (list Z) * Z * Z) :=
  o ← of_option OutOfBounds (objs !! a);
  match o_u o with OBJ_TYPE_REDIRECT u off code => Ret (o_oid o, u, off, code) | _ => Fault OutOfBounds end.

Fixpoint layout_redirects (l : list nat) (off : Z) : M Z :=
  match l with
  | [] => mret off
  | a :: l =>
    r ← get;
    '(oid, u, _, code) ← lift (redirect_of (r_objs r) a);
    let r := with_objs r (<[a := Obj oid (OBJ_TYPE_REDIRECT u (uint 32 off) code)]> (r_objs r)) in
    match u with
    | Some s =>
      let n := Z.of_nat (length s) in
      _ ← put_st (with_redirtab_sz r (uint 32 (r_redirtab_sz r + n)));
      layout_redirects l (uint 64 (off + n))
    | None => _ ← put_st r; layout_redirects l off
    end
  end.

Definition with_off (n : Z) (f : file_obj) : file_obj :=
  FileObj (f_type f) (f_content f) (f_size f) n (f_dev f) (f_ino f) (f_mtime f) (f_digest f).

Fixpoint layout_files (l : list nat) (off : Z) : M Z :=
  match l with
  | [] => mret off
  | a :: l =>
    r ← get;
    f ← lift (file_of (r_objs r) a);
    _ ← update_file a (with_off off);
    _ ← modify (fun r => with_files_sz r (uint 64 (r_files_sz r + f_size f)));
    layout_files l (uint 64 (off + f_size f))
  end.

Definition webroot_prep : M bool :=
  ok ← sort_uris;
  if negb ok then mret false
  else
    _ ← sort_objects;
    ok ← galloc E;
    if negb ok then mret false
    else
      r ← get;
      ent ← lift (entries (r_objs r) (r_uri r));
      t ← lift (trie_new trie_alloc trie_calloc_ok trie_hgang_ok (Some ent));
      match t with
      | None => mret false
      | Some (t, _, order) =>
        _ ← put_st (with_trie r (Some (t, order)));
        off ← layout_mimes (r_mime_type r) (index_size r t);
        _ ← modify (fun r => with_redirtab_sz r 0);
        off ← layout_redirects (r_redirect r) off;
        _ ← modify (fun r => with_files_sz r 0);
        _ ← layout_files (r_file r) off;
        mret true
      end.
End prep.

(** ** The output file

    Bytes go through the buffer to the descriptor's position. Seeking starts a
    new run of writes over what the file already holds. *)

Record outfile := Outfile { o_done : list Z; o_base : nat; o_stream : fobuf * kernel }.

(** Writing over part of a file; a gap reads as zeros. *)
Definition overlay (d : list Z) (off : nat) (w : list Z) : list Z :=
  match w with
  | [] => d
  | _ => take off (d ++ replicate off 0) ++ w ++ drop (off + length w) d
  end.

Definition contents (o : outfile) : list Z := overlay (o_done o) (o_base o) (accepted (o_stream o)).

Definition with_stream (o : outfile) (s : fobuf * kernel) : outfile := Outfile (o_done o) (o_base o) s.

Definition out_write (o : outfile) (buf : list Z) : outcome (bool * outfile) :=
  '(ok, s) ← sink_write (o_stream o) buf; Ret (ok, with_stream o s).

#[export] Instance out_sink : Sink outfile.
Proof.
  refine (Build_Sink _ out_write (fun o => sink_ok (o_stream o)) (fun o => accepted (o_stream o)) _ _).
  - intros o buf ok o' Hok H. apply outcome_bind_ret in H as ([b s] & H & [= <- <-]).
    by apply (sink_write_ok (o_stream o)).
  - intros o buf e Hok H. unfold out_write in H.
    destruct (sink_write (o_stream o) buf) as [[b s]|f] eqn:E; [done|]. injection H as <-.
    by apply (sink_write_fault (o_stream o) buf).
Defined.

Definition out_flush (o : outfile) : outcome (bool * outfile) :=
  let (b, k) := o_stream o in
  '(ok, b, k) ← fobuf_flush b k; Ret (ok, with_stream o (b, k)).

(** [lseek(fd, off, SEEK_SET)]: what has reached the descriptor is in the file,
    the next bytes go to [off]. *)
Definition out_seek (o : outfile) (off : Z) : outfile :=
  let (b, k) := o_stream o in
  Outfile (overlay (o_done o) (o_base o) (k_file k)) (Z.to_nat off) (b, Kernel (k_io k) (k_poll k) []).

(** ** Writing *)

(** What the system answers while the file is written: the contents of a path,
    the answers to the reads of an object's file, whether the seeks succeed;
    and the four bytes of padding the header leaves uninitialised. *)
Record wenv := WEnv {
  we_open : list Z -> option (list Z);
  we_read : nat -> list sysres;
  we_lseek_tmp : bool;
  we_lseek_out : bool;
  we_pad : list Z;
}.

Section write.
Context (X : wenv).

Definition BUFFER_SIZE : Z := Z.shiftl 1 20.

(** The [again] loop of [write_file]: on success the bytes that were still
    wanted and the digest's context. *)
Fixpoint copy_file (ios : list sysres) (src : list Z) (len : Z) (ctx : blk_SHA_CTX) (w : outfile)
    : outcome (option (Z * blk_SHA_CTX) * outfile) :=
  match ios with
  | [] => Fault Blocked
  | SysErr _ :: _ => Ret (None, w)
  | SysOk n :: ios =>
    let want := Z.to_nat (if BUFFER_SIZE <? len then BUFFER_SIZE else len) in
    let ret := min n (min want (length src)) in
    let buf := take ret src in
    '(ok, w) ← (if negb (ret =? 0)%nat then sink_write w buf else Ret (true, w));
    if negb ok then Ret (None, w)
    else
      ctx ← blk_SHA1_Update ctx buf;
      let len := len - Z.of_nat ret in
      if negb (ret =? 0)%nat then copy_file ios (drop ret src) len ctx w
      else Ret (Some (len, ctx), w)
  end.

Definition with_digest (d : list Z) (f : file_obj) : file_obj :=
  FileObj (f_type f) (f_content f) (f_size f) (f_off f) (f_dev f) (f_ino f) (f_mtime f) d.

(** Where the bytes of a file come from. *)
Definition open_src (r : mkroot) (f : file_obj) : outcome (option (list Z)) :=
  match f_content f with
  | FILE_PATH p => Ret (we_open X p)
  | FILE_TMPCHUNK off =>
    '(b, k) ← of_option OutOfBounds (r_tmpchunks r);
    if negb (we_lseek_tmp X) then Ret None else Ret (Some (drop (Z.to_nat off) (k_file k)))
  end.

Definition is_path (f : file_obj) : bool := match f_content f with FILE_PATH _ => true | _ => false end.

Definition write_file (r : mkroot) (a : nat) (w : outfile) : outcome (bool * mkroot * outfile) :=
  f ← file_of (r_objs r) a;
  src ← open_src r f;
  match src with
  | None => Ret (false, r, w)
  | Some src =>
    '(res, w) ← copy_file (we_read X a) src (f_size f) blk_SHA1_Init w;
    match res with
    | None => Ret (false, r, w)
    | Some (len, ctx) =>
      '(sha, _) ← blk_SHA1_Final ctx;
      '(_, r) ← update_file a (with_digest sha) r;
      if len =? 0 then Ret (true, r, w)
      else
        assert! is_path f ;;
        Ret (false, r, w)
    end
  end.

Fixpoint write_objs (r : mkroot) (l : list nat) (w : outfile) : outcome (bool * mkroot * outfile) :=
  match l with
  | [] => Ret (true, r, w)
  | a :: l =>
    '(ok, r, w) ← write_file r a w;
    if negb ok then Ret (false, r, w) else write_objs r l w
  end.

Definition write_files (r : mkroot) (w : outfile) : outcome (bool * mkroot * outfile) :=
  '(b, k) ← of_option OutOfBounds (r_tmpchunks r);
  '(ok, b, k) ← fobuf_flush b k;
  let r := with_tmpchunks r (Some (b, k)) in
  if negb ok then Ret (false, r, w) else write_objs r (r_file r) w.

(** Write the strings of a list one after the other. *)
Fixpoint write_strings (l : list (list Z)) (w : outfile) : outcome (bool * outfile) :=
  match l with
  | [] => Ret (true, w)
  | s :: l =>
    '(ok, w) ← sink_write w s;
    if negb ok then Ret (false, w) else write_strings l w
  end.

Definition mime_strings (r : mkroot) : outcome (list (list Z)) :=
  mapM (fun a => m ← of_option OutOfBounds (r_mimes r !! a); Ret (m_type m)) (r_mime_type r).

Definition write_mimetab (r : mkroot) (w : outfile) : outcome (bool * outfile) :=
  l ← mime_strings r; write_strings l w.

Definition redirect_strings (r : mkroot) : outcome (list (list Z)) :=
  l ← mapM (fun a => '(_, u, _, _) ← redirect_of (r_objs r) a; Ret u) (r_redirect r);
  Ret (omap id l).

Definition write_redirtab (r : mkroot) (w : outfile) : outcome (bool * outfile) :=
  l ← redirect_strings r; write_strings l w.

Definition encode_hdr (r : mkroot) (t : trie) : list Z :=
  le_bytes 4 (uint 32 (trie_num_edges t)) ++ le_bytes 4 (r_num_redirect r) ++ le_bytes 4 (r_num_file r) ++
  le_bytes 4 (uint 32 (r_mimetab_sz r + r_redirtab_sz r)) ++ le_bytes 4 WEBROOT_MAGIC ++
  le_bytes 4 WEBROOT_CURRENT_VER ++
  le_bytes 4 (uint 32 (index_size r t + r_mimetab_sz r + r_redirtab_sz r)) ++ we_pad X.

Definition write_header (r : mkroot) (w : outfile) : outcome (bool * outfile) :=
  '(t, _) ← of_option OutOfBounds (r_trie r);
  sink_write w (encode_hdr r t).

Definition encode_redirect (u : option (list Z)) (off code : Z) : list Z :=
  match u with
  | Some s => le_bytes 4 (uint 32 off) ++ le_bytes 4 (uint 32 (Z.of_nat (length s)))
  | None => le_bytes 4 WEBROOT_INVALID_REDIRECT ++ le_bytes 4 (uint 32 code)
  end.

Fixpoint write_redirect_objs (r : mkroot) (l : list nat) (w : outfile) : outcome (bool * outfile) :=
  match l with
  | [] => Ret (true, w)
  | a :: l =>
    '(_, u, off, code) ← redirect_of (r_objs r) a;
    '(ok, w) ← sink_write w (encode_redirect u off code);
    if negb ok then Ret (false, w) else write_redirect_objs r l w
  end.

Definition modified (mtime : Z) : Z := uint 32 mtime.

Definition encode_file (f : file_obj) (m : mime_type) : list Z :=
  le_bytes 8 (f_off f) ++ le_bytes 8 (f_size f) ++ le_bytes 4 (m_strtab_off m) ++
  le_bytes 4 (uint 32 (Z.of_nat (length (m_type m)))) ++ le_bytes 4 (modified (f_mtime f)) ++ f_digest f.

Fixpoint write_file_objs (r : mkroot) (l : list nat) (w : outfile) : outcome (bool * outfile) :=
  match l with
  | [] => Ret (true, w)
  | a :: l =>
    f ← file_of (r_objs r) a;
    m ← of_option OutOfBounds (f_type f ≫= fun m => r_mimes r !! m);
    '(ok, w) ← sink_write w (encode_file f m);
    if negb ok then Ret (false, w) else write_file_objs r l w
  end.

Definition write_etags (r : mkroot) (w : outfile) : outcome (bool * outfile) :=
  '(ok, w) ← out_flush w;
  if negb ok then Ret (false, w)
  else
    '(t, _) ← of_option OutOfBounds (r_trie r);
    let off := Z.of_nat hdr_sz + trie_trie_size t + Z.of_nat redir_sz * r_num_redirect r in
    if negb (we_lseek_out X) then Ret (false, w)
    else write_file_objs r (r_file r) (out_seek w off).

Definition webroot_output_size (r : mkroot) (t : trie) : Z :=
  uint 64 (Z.of_nat hdr_sz + trie_trie_size t + Z.of_nat redir_sz * r_num_redirect r + Z.of_nat file_sz * r_num_file r +
    r_mimetab_sz r + r_redirtab_sz r + r_files_sz r).

Notation "e '&!' k" := ('(ok, w) ← e; if negb ok then Ret (false, w) else k w)
  (at level 90, k at level 200, right associativity, only parsing).

(** Everything before the contents of the files. *)
Definition write_index (r : mkroot) (w : outfile) : outcome (bool * outfile) :=
  write_header r w &! fun w =>
  ('(_, order) ← of_option OutOfBounds (r_trie r); trie_write_trie order w) &! fun w =>
  write_redirect_objs r (r_redirect r) w &! fun w =>
  write_file_objs r (r_file r) w &! fun w =>
  write_mimetab r w &! fun w =>
  write_redirtab r w.

Definition webroot_write (r : mkroot) (w : outfile) : outcome (bool * mkroot * outfile) :=
  '(ok, w) ← write_index r w;
  if negb ok then Ret (false, r, w)
  else
    '(ok, r, w) ← write_files r w;
    if negb ok then Ret (false, r, w)
    else
      '(ok, w) ← write_etags r w;
      Ret (ok, r, w).
End write.
