(* ===== verification/MkrootLayout.v ===== *)
(** * What [webroot_prep] does to the objects

    The lists of objects before and after, as lists of values: numbering,
    offsets of strings and files, sizes of the tables. *)

From stdpp Require Import sorting.
From S2P Require Import Prelude Os Fobuf Trie Webroot Sha1 Mkroot MkrootWrite.
Local Open Scope Z_scope.

(** ** The objects behind a list of addresses *)

Definition at_addrs {A} (h : gmap nat A) (l : list nat) (os : list A) : Prop := Forall2 (fun a o => h !! a = Some o) l os.

Lemma at_addrs_insert_ne {A} (h : gmap nat A) l os a o : a ∉ l -> at_addrs h l os -> at_addrs (<[a := o]> h) l os.
Proof.
  intros Ha H. induction H as [|b p l os Hb H IH]; [constructor|]. apply not_elem_of_cons in Ha as [Hab Ha].
  constructor; [by rewrite lookup_insert_ne|by apply IH].
Qed.

Lemma at_addrs_frame {A} (h h' : gmap nat A) l os : (forall a, a ∈ l -> h' !! a = h !! a) -> at_addrs h l os -> at_addrs h' l os.
Proof.
  intros Hf H. induction H as [|b p l os Hb H IH]; [constructor|]. constructor; [rewrite Hf; [done|by left]|].
  apply IH. intros a Ha. apply Hf. by right.
Qed.

Lemma at_addrs_length {A} (h : gmap nat A) l os : at_addrs h l os -> length l = length os.
Proof. apply Forall2_length. Qed.

(** Changing the objects of a list, one address at a time, into those of
    another list. *)
Lemma at_addrs_step {A} (h : gmap nat A) a l o o' os : NoDup (a :: l) -> at_addrs h (a :: l) (o :: os) ->
  h !! a = Some o /\ at_addrs (<[a := o']> h) l os /\ <[a := o']> h !! a = Some o' /\
  (forall h' : gmap nat A, (forall b, b ∉ l -> h' !! b = <[a := o']> h !! b) -> h' !! a = Some o') /\
  (forall (h' : gmap nat A) b, (forall b, b ∉ l -> h' !! b = <[a := o']> h !! b) -> b ∉ a :: l -> h' !! b = h !! b).
Proof.
  intros [Ha Hnd]%NoDup_cons [Ho Hos]%Forall2_cons. split_and!; [done|by apply at_addrs_insert_ne|by rewrite lookup_insert_eq| |].
  - intros h' Hf. rewrite Hf by done. by rewrite lookup_insert_eq.
  - intros h' b Hf [Hab Hb]%not_elem_of_cons. rewrite Hf, lookup_insert_ne; done.
Qed.

(** ** Numbering *)

Fixpoint renumber (k : Z) (os : list object) : list object :=
  match os with
  | [] => []
  | o :: os => Obj k (o_u o) :: renumber (k + 1) os
  end.

Lemma number_objs_ok objs l os k : NoDup l -> at_addrs objs l os -> 0 <= k -> k + Z.of_nat (length os) < 2 ^ 32 ->
  exists objs', number_objs objs l k = Ret (objs', k + Z.of_nat (length os)) /\ at_addrs objs' l (renumber k os) /\
    (forall b, b ∉ l -> objs' !! b = objs !! b).
Proof.
  revert objs os k. induction l as [|a l IH]; intros objs [|o os] k Hnd Hat Hk Hw;
    try (by apply Forall2_length in Hat); cbn [number_objs renumber length].
  { exists objs. rewrite Z.add_0_r. split_and!; [done|constructor|done]. }
  destruct (at_addrs_step objs a l o (Obj k (o_u o)) os Hnd Hat) as (Ha & Hos & _ & Hfa & Hfb).
  rewrite Ha. run. cbn [length] in Hw. rewrite uint_small by lia. apply NoDup_cons in Hnd as [_ Hnd].
  destruct (IH _ _ (k + 1) Hnd Hos) as (objs' & -> & Hat' & Hf); [lia|lia|].
  exists objs'. split_and!; [do 2 f_equal; lia| |by intros b; apply Hfb]. constructor; [by apply Hfa|done].
Qed.

(** ** Strings and files one after the other *)

Fixpoint place_mimes (off : Z) (ms : list mime_type) : list mime_type :=
  match ms with
  | [] => []
  | m :: ms => MimeType (m_type m) off :: place_mimes (off + Z.of_nat (length (m_type m))) ms
  end.

Definition target (o : object) : list Z :=
  match o_u o with OBJ_TYPE_REDIRECT u _ _ => default [] u | _ => [] end.

Definition place_redirect (off : Z) (o : object) : object :=
  match o_u o with
  | OBJ_TYPE_REDIRECT u _ code => Obj (o_oid o) (OBJ_TYPE_REDIRECT u off code)
  | _ => o
  end.

Fixpoint place_redirects (off : Z) (os : list object) : list object :=
  match os with
  | [] => []
  | o :: os => place_redirect off o :: place_redirects (off + Z.of_nat (length (target o))) os
  end.

Definition size_of (o : object) : Z := match o_u o with OBJ_TYPE_FILE f => f_size f | _ => 0 end.

Definition place_file (off : Z) (o : object) : object :=
  match o_u o with
  | OBJ_TYPE_FILE f => Obj (o_oid o) (OBJ_TYPE_FILE (with_off off f))
  | _ => o
  end.

Fixpoint place_files (off : Z) (os : list object) : list object :=
  match os with
  | [] => []
  | o :: os => place_file off o :: place_files (off + size_of o) os
  end.

Definition is_redirect (o : object) : Prop := exists u off code, o_u o = OBJ_TYPE_REDIRECT u off code.
Definition is_file (o : object) : Prop := exists f, o_u o = OBJ_TYPE_FILE f /\ 0 <= f_size f.

Definition bytes_in (l : list (list Z)) : Z := Z.of_nat (length (concat l)).

Lemma bytes_in_cons s l : bytes_in (s :: l) = Z.of_nat (length s) + bytes_in l.
Proof. unfold bytes_in. cbn [concat]. rewrite length_app. lia. Qed.

Lemma bytes_in_nonneg l : 0 <= bytes_in l.
Proof. unfold bytes_in. lia. Qed.

Fixpoint total_size (os : list object) : Z :=
  match os with
  | [] => 0
  | o :: os => size_of o + total_size os
  end.

Lemma total_size_nonneg os : Forall is_file os -> 0 <= total_size os.
Proof. induction 1 as [|o os (f & E & Hf) _ IH]; cbn [total_size]; [done|]. unfold size_of. rewrite E. lia. Qed.

Lemma layout_mimes_ok l off ms r : NoDup l -> at_addrs (r_mimes r) l ms ->
  0 <= off -> off + bytes_in (m_type <$> ms) < 2 ^ 32 -> 0 <= r_mimetab_sz r ->
  r_mimetab_sz r + bytes_in (m_type <$> ms) < 2 ^ 32 ->
  exists mimes, layout_mimes l off r = Ret (off + bytes_in (m_type <$> ms),
      with_mimetab_sz (with_mimes r mimes) (r_mimetab_sz r + bytes_in (m_type <$> ms))) /\
    at_addrs mimes l (place_mimes off ms) /\ (forall b, b ∉ l -> mimes !! b = r_mimes r !! b).
Proof.
  revert off ms r. induction l as [|a l IH]; intros off [|m ms] r Hnd Hat Ho Hw Hs Hsw;
    try (by apply Forall2_length in Hat); cbn [layout_mimes place_mimes fmap list_fmap] in *.
  { exists (r_mimes r). rewrite !Z.add_0_r. split_and!; [by destruct r|constructor|done]. }
  rewrite bytes_in_cons in *. pose proof (bytes_in_nonneg (m_type <$> ms)) as Hb.
  destruct (at_addrs_step (r_mimes r) a l m (MimeType (m_type m) (uint 32 off)) ms Hnd Hat) as (Ha & Hos & _ & Hfa & Hfb).
  mrun. rewrite Ha. mrun.
  rewrite (uint_small 32 off) in * by lia. rewrite (uint_small 64), (uint_small 32) by lia. apply NoDup_cons in Hnd as [_ Hnd].
  set (r1 := with_mimetab_sz _ _).
  destruct (IH (off + Z.of_nat (length (m_type m))) ms r1 Hnd Hos) as (mimes & E & Hat' & Hf);
    [lia|lia|cbn; lia|cbn; lia|].
  exists mimes. split_and!.
  - rewrite E. unfold r1. do 2 f_equal; [lia|]. destruct r. cbn. unfold with_mimetab_sz, with_mimes. cbn. f_equal; lia.
  - constructor; [by apply Hfa|done].
  - intros b. by apply Hfb.
Qed.

Lemma layout_redirects_ok l off os r : NoDup l -> at_addrs (r_objs r) l os -> Forall is_redirect os ->
  0 <= off -> off + bytes_in (target <$> os) < 2 ^ 32 -> 0 <= r_redirtab_sz r ->
  r_redirtab_sz r + bytes_in (target <$> os) < 2 ^ 32 ->
  exists objs, layout_redirects l off r = Ret (off + bytes_in (target <$> os),
      with_redirtab_sz (with_objs r objs) (r_redirtab_sz r + bytes_in (target <$> os))) /\
    at_addrs objs l (place_redirects off os) /\ (forall b, b ∉ l -> objs !! b = r_objs r !! b).
Proof.
  revert off os r. induction l as [|a l IH]; intros off [|o os] r Hnd Hat Hrd Ho Hw Hs Hsw;
    try (by apply Forall2_length in Hat); cbn [layout_redirects place_redirects fmap list_fmap] in *.
  { exists (r_objs r). rewrite !Z.add_0_r. split_and!; [by destruct r|constructor|done]. }
  apply Forall_cons in Hrd as [(u & off0 & code & Eo) Hrd].
  rewrite bytes_in_cons in *. pose proof (bytes_in_nonneg (target <$> os)) as Hb.
  destruct (at_addrs_step (r_objs r) a l o (place_redirect off o) os Hnd Hat) as (Ha & Hos & _ & Hfa & Hfb).
  mrun. unfold redirect_of. rewrite Ha. run. rewrite Eo. run. apply NoDup_cons in Hnd as [_ Hnd].
  assert (Obj (o_oid o) (OBJ_TYPE_REDIRECT u (uint 32 off) code) = place_redirect off o) as ->.
  { unfold place_redirect. by rewrite Eo, uint_small by lia. }
  assert (target o = default [] u) as Ht by (unfold target; by rewrite Eo). rewrite Ht in *.
  set (r1 := match u with Some s => with_redirtab_sz (with_objs r (<[a := place_redirect off o]> (r_objs r)))
      (r_redirtab_sz r + Z.of_nat (length s)) | None => with_objs r (<[a := place_redirect off o]> (r_objs r)) end).
  destruct (IH (off + Z.of_nat (length (default [] u))) os r1) as (objs & E & Hat' & Hf);
    [done|by destruct u|done|lia|lia|destruct u; cbn in *; lia|destruct u; cbn in *; lia|].
  exists objs. split_and!.
  - transitivity (layout_redirects l (off + Z.of_nat (length (default [] u))) r1).
    + destruct u; mrun; cbn [default from_option] in *; [|by rewrite Z.add_0_r].
      by rewrite (uint_small 64), (uint_small 32) by (cbn in *; lia).
    + rewrite E. unfold r1. do 2 f_equal; [lia|]. destruct u, r; cbn; unfold with_redirtab_sz, with_objs; cbn; f_equal; cbn in *; lia.
  - constructor; [|done]. apply Hfa. intros b Hn. rewrite Hf by done. by destruct u.
  - intros b. apply Hfb. intros c Hn. rewrite Hf by done. by destruct u.
Qed.

Lemma layout_files_ok l off os r : NoDup l -> at_addrs (r_objs r) l os -> Forall is_file os ->
  0 <= off -> off + total_size os < 2 ^ 63 -> 0 <= r_files_sz r -> r_files_sz r + total_size os < 2 ^ 63 ->
  exists objs, layout_files l off r = Ret (off + total_size os,
      with_files_sz (with_objs r objs) (r_files_sz r + total_size os)) /\
    at_addrs objs l (place_files off os) /\ (forall b, b ∉ l -> objs !! b = r_objs r !! b).
Proof.
  revert off os r. induction l as [|a l IH]; intros off [|o os] r Hnd Hat Hfl Ho Hw Hs Hsw;
    try (by apply Forall2_length in Hat); cbn [layout_files place_files total_size] in *.
  { exists (r_objs r). rewrite !Z.add_0_r. split_and!; [by destruct r|constructor|done]. }
  apply Forall_cons in Hfl as [(f & Eo & Hsz) Hfl]. pose proof (total_size_nonneg os Hfl) as Hb.
  destruct (at_addrs_step (r_objs r) a l o (place_file off o) os Hnd Hat) as (Ha & Hos & _ & Hfa & Hfb).
  assert (size_of o = f_size f) as Hso by (unfold size_of; by rewrite Eo). rewrite Hso in *.
  mrun. unfold file_of. rewrite Ha. run. rewrite Eo. run. rewrite M_bind_step. unfold update_file. mrun.
  rewrite Ha. run. rewrite Eo. unfold set_obj, modify. run.
  assert (Obj (o_oid o) (OBJ_TYPE_FILE (with_off off f)) = place_file off o) as ->.
  { unfold place_file. by rewrite Eo. }
  change ((modify ?g ≫= ?k) ?r) with (k tt (g r)) || rewrite M_bind_step. run. cbn [r_files_sz with_objs].
  rewrite !(uint_small 64) by lia. apply NoDup_cons in Hnd as [_ Hnd].
  set (r1 := with_files_sz _ _). destruct (IH (off + f_size f) os r1 Hnd Hos Hfl) as (objs & E & Hat' & Hf);
    [lia|lia|cbn; lia|cbn; lia|].
  exists objs. split_and!.
  - rewrite E. unfold r1. do 2 f_equal; [lia|]. destruct r; cbn; unfold with_files_sz, with_objs; cbn; f_equal; lia.
  - constructor; [by apply Hfa|done].
  - intros b. by apply Hfb.
Qed.

(** ** The order of the URIs *)

Lemma strcmp_refl a : strcmp a a = 0.
Proof. induction a as [|x a IH]; [done|]. cbn. by rewrite Z.eqb_refl. Qed.

Lemma strcmp_lt a b : strcmp a b < 0 <-> lex_lt a b.
Proof.
  revert b. induction a as [|x a IH]; intros [|y b]; cbn; [lia|lia|lia|].
  destruct (Z.eqb_spec x y) as [->|Hne]; [rewrite IH; naive_solver lia|naive_solver lia].
Qed.

Lemma strcmp_zero a b : strcmp a b = 0 <-> a = b.
Proof.
  split; [|intros ->; apply strcmp_refl]. revert b. induction a as [|x a IH]; intros [|y b]; cbn; [done|lia|lia|].
  destruct (Z.eqb_spec x y) as [->|Hne]; [|lia]. intros H. f_equal. by apply IH.
Qed.

Lemma strcmp_total a b : strcmp a b <= 0 \/ strcmp b a <= 0.
Proof.
  revert b. induction a as [|x a IH]; intros [|y b]; cbn; [lia..|].
  destruct (Z.eqb_spec x y) as [->|Hne]; [rewrite Z.eqb_refl; apply IH|].
  rewrite (proj2 (Z.eqb_neq y x)) by done. lia.
Qed.

Lemma lex_lt_trans a b c : lex_lt a b -> lex_lt b c -> lex_lt a c.
Proof.
  revert b c. induction a as [|x a IH]; intros [|y b] [|z c]; cbn; try done.
  intros [?|[-> ?]] [?|[-> ?]]; [left; lia|left; lia|left; lia|right; split; [done|by eapply IH]].
Qed.

Lemma strcmp_le a b : strcmp a b <= 0 <-> a = b \/ lex_lt a b.
Proof. rewrite <- strcmp_lt, <- strcmp_zero. lia. Qed.

#[export] Instance ucmp_trans : Transitive ucmp_le.
Proof.
  intros a b c. unfold ucmp_le. generalize (default [] (u_uri a)) (default [] (u_uri b)) (default [] (u_uri c)).
  clear. intros a b c. rewrite !strcmp_le. intros [->|H1] [->|H2]; auto.
  right. by eapply lex_lt_trans.
Qed.

#[export] Instance ucmp_total : Total ucmp_le.
Proof. intros a b. apply strcmp_total. Qed.

Definition uri_str (u : uri) : list Z := default [] (u_uri u).

Lemma sorted_strict l : NoDup (uri_str <$> l) -> StronglySorted ucmp_le l ->
  StronglySorted (fun a b => lex_lt (uri_str a) (uri_str b)) l.
Proof.
  intros Hnd Hs. induction Hs as [|u l Hs IH Hu]; [constructor|]. cbn in Hnd. apply NoDup_cons in Hnd as [Hn Hnd].
  constructor; [by apply IH|]. rewrite Forall_forall in Hu |- *. intros v Hv. specialize (Hu v Hv).
  unfold ucmp_le in Hu. fold (uri_str u) (uri_str v) in Hu. apply strcmp_le in Hu as [E|]; [|done].
  exfalso. apply Hn. rewrite E. by apply list_elem_of_fmap_2.
Qed.

(** ** Entries of the trie *)

Definition oid_at (objs : gmap nat object) (a : nat) : Z := match objs !! a with Some o => o_oid o | None => 0 end.
Definition entry_of (objs : gmap nat object) (u : uri) : trie_entry := TrieEntry (uri_str u) (oid_at objs (u_obj u)).

Definition uri_linked (objs : gmap nat object) (u : uri) : Prop := is_Some (u_uri u) /\ is_Some (objs !! u_obj u).

Lemma entries_ok objs l : Forall (uri_linked objs) l -> entries objs l = Ret (entry_of objs <$> l).
Proof.
  induction 1 as [|u l [[s Es] [o Eo]] _ IH]; [done|]. cbn [entries fmap list_fmap].
  unfold entry_of at 1, uri_str, oid_at. rewrite Es, Eo. run. rewrite IH. done.
Qed.

(** What the builder needs of the URIs: distinct, non-empty, short C strings. *)
Definition uri_good (u : uri) : Prop :=
  (0 < length (uri_str u) < 0x100)%nat /\ Forall (fun b => 0 < b < 256) (uri_str u).

Definition uris_ok (l : list uri) : Prop :=
  NoDup (uri_str <$> l) /\ Forall uri_good l.

Lemma entries_input (g : uri -> Z) l : uris_ok l ->
  radix_input ((fun u => TrieEntry (uri_str u) (g u)) <$> merge_sort ucmp_le l) 0.
Proof.
  intros [Hnd Hok]. assert (merge_sort ucmp_le l ≡ₚ l) as Hp by apply merge_sort_Permutation.
  assert (Forall uri_good
    (merge_sort ucmp_le l)) as Hok' by by rewrite Hp.
  assert (NoDup (uri_str <$> merge_sort ucmp_le l)) as Hnd' by by rewrite Hp.
  pose proof (StronglySorted_merge_sort ucmp_le l) as Hs. apply sorted_strict in Hs; [|done].
  revert Hs Hok'. generalize (merge_sort ucmp_le l). clear. intros l Hs Hok. split_and!.
  - induction Hs as [|u l Hs IH Hu]; [constructor|]. apply Forall_cons in Hok as [_ Hok]. cbn [fmap list_fmap].
    constructor; [by apply IH|]. apply Forall_fmap. eapply Forall_impl; [exact Hu|]. intros v Hv. exact Hv.
  - apply Forall_fmap. eapply Forall_impl; [exact Hok|]. intros u [[? _] _]. done.
  - apply Forall_fmap. eapply Forall_impl; [exact Hok|]. intros u [[_ ?] ?]. done.
Qed.

(** ** The site: what a scan leaves for [webroot_prep] *)

Record site (r : mkroot) (ms : list mime_type) (ros fos : list object) : Prop := {
  si_mimes : at_addrs (r_mimes r) (r_mime_type r) ms;
  si_mime_nodup : NoDup (r_mime_type r);
  si_redirects : at_addrs (r_objs r) (r_redirect r) ros;
  si_are_redirects : Forall is_redirect ros;
  si_files : at_addrs (r_objs r) (r_file r) fos;
  si_are_files : Forall is_file fos;
  si_nodup : NoDup (r_redirect r ++ r_file r);
  si_num_redirect : r_num_redirect r = Z.of_nat (length ros);
  si_num_file : r_num_file r = Z.of_nat (length fos);
  si_num_uri : r_num_uri r = Z.of_nat (length (r_uri r));
  si_linked : Forall (fun u => is_Some (u_uri u) /\ u_obj u ∈ r_redirect r ++ r_file r) (r_uri r);
  si_types : Forall (fun o => exists f m, o_u o = OBJ_TYPE_FILE f /\ f_type f = Some m /\ m ∈ r_mime_type r) fos;
}.

Lemma renumber_kinds k os : (Forall is_redirect os -> Forall is_redirect (renumber k os)) /\
  (Forall is_file os -> Forall is_file (renumber k os)).
Proof. revert k. induction os as [|o os IH]; intros k; [done|]. cbn. rewrite !Forall_cons. destruct (IH (k + 1)). naive_solver. Qed.

Lemma length_renumber k os : length (renumber k os) = length os.
Proof. revert k. induction os as [|o os IH]; intros k; [done|]. cbn. by rewrite IH. Qed.

Lemma renumber_data k os : target <$> renumber k os = target <$> os /\ total_size (renumber k os) = total_size os.
Proof.
  revert k. induction os as [|o os IH]; intros k; [done|]. destruct (IH (k + 1)) as [E1 E2]. cbn. by rewrite E1, E2.
Qed.

(** ** Object numbers *)

(** The place of an address in a list. *)
Fixpoint pos (l : list nat) (a : nat) : nat :=
  match l with
  | [] => 0
  | b :: l => if decide (b = a) then 0 else S (pos l a)
  end%nat.

Lemma pos_lookup l a : a ∈ l -> l !! pos l a = Some a.
Proof.
  induction l as [|b l IH]; intros Ha; [set_solver|]. cbn [pos]. destruct (decide (b = a)) as [->|]; [done|].
  apply IH. set_solver.
Qed.

Lemma at_addrs_lookup {A} (h : gmap nat A) l os i a : at_addrs h l os -> l !! i = Some a -> h !! a = os !! i.
Proof.
  intros H Hi. destruct (Forall2_lookup_l _ _ _ _ _ H Hi) as (o & -> & Ho). exact Ho.
Qed.

Lemma renumber_lookup k os i o : os !! i = Some o -> renumber k os !! i = Some (Obj (k + Z.of_nat i) (o_u o)).
Proof.
  revert k i. induction os as [|p os IH]; intros k [|i] H; try done; cbn in *.
  - injection H as ->. by rewrite Z.add_0_r.
  - etransitivity; [apply (IH (k + 1) i H)|]. do 2 f_equal. lia.
Qed.

Lemma renumber_app k os1 os2 : renumber k (os1 ++ os2) = renumber k os1 ++ renumber (k + Z.of_nat (length os1)) os2.
Proof.
  revert k. induction os1 as [|o os IH]; intros k; cbn; [by rewrite Z.add_0_r|]. rewrite IH. do 3 f_equal. lia.
Qed.

Lemma oid_at_pos objs l k os a : at_addrs objs l (renumber k os) -> a ∈ l -> oid_at objs a = k + Z.of_nat (pos l a).
Proof.
  intros H Ha. pose proof (pos_lookup l a Ha) as Hp. unfold oid_at.
  rewrite (at_addrs_lookup _ _ _ _ _ H Hp). pose proof (at_addrs_length _ _ _ H) as Hl. rewrite length_renumber in Hl.
  apply lookup_lt_Some in Hp. destruct (lookup_lt_is_Some_2 os (pos l a)) as [o Ho]; [lia|].
  by rewrite (renumber_lookup k os _ o Ho).
Qed.

Definition site_entries (r : mkroot) : list trie_entry :=
  (fun u => TrieEntry (uri_str u) (Z.of_nat (pos (r_redirect r ++ r_file r) (u_obj u)))) <$> merge_sort ucmp_le (r_uri r).

(** Numbering both lists. *)
Lemma sort_objects_ok r ms ros fos : site r ms ros fos -> Z.of_nat (length ros + length fos) < 2 ^ 32 ->
  exists objs, sort_objects r = Ret (true, with_objs r objs) /\
    at_addrs objs (r_redirect r) (renumber 0 ros) /\
    at_addrs objs (r_file r) (renumber (Z.of_nat (length ros)) fos).
Proof.
  intros [_ _ Hro _ Hfo _ Hnd _ _ _ _ _] Hw. pose proof Hnd as (Hnr & Hdis & Hnf)%NoDup_app.
  destruct (number_objs_ok (r_objs r) (r_redirect r) ros 0) as (o1 & E1 & H1 & F1); [done|done|done|lia|].
  assert (at_addrs o1 (r_file r) fos) as Hfo1.
  { apply (at_addrs_frame (r_objs r)); [|done]. intros a Ha. apply F1. intros Hin. by apply (Hdis a). }
  destruct (number_objs_ok o1 (r_file r) fos (0 + Z.of_nat (length ros))) as (o2 & E2 & H2 & F2); [done|done|lia|lia|].
  exists o2. split_and!.
  - unfold sort_objects. mrun. rewrite E1. run. mrun. rewrite E2. run. mrun. done.
  - apply (at_addrs_frame o1); [|done]. intros a Ha. apply F2. by apply Hdis.
  - exact H2.
Qed.

Definition index_base (ros fos : list object) (t : trie) : Z :=
  Z.of_nat hdr_sz + trie_trie_size t + Z.of_nat redir_sz * Z.of_nat (length ros) + Z.of_nat file_sz * Z.of_nat (length fos).

(** What [webroot_prep] has done when it succeeds. *)
Record prepped (r r' : mkroot) (ms : list mime_type) (ros fos : list object) (t : trie) (order : list edge) : Prop := {
  pr_uri : r_uri r' = merge_sort ucmp_le (r_uri r);
  pr_trie : r_trie r' = Some (t, order);
  pr_lists : r_redirect r' = r_redirect r /\ r_file r' = r_file r /\ r_mime_type r' = r_mime_type r;
  pr_tmp : r_tmpchunks r' = r_tmpchunks r;
  pr_nums : r_num_redirect r' = r_num_redirect r /\ r_num_file r' = r_num_file r;
  pr_mimes : at_addrs (r_mimes r') (r_mime_type r') (place_mimes (index_base ros fos t) ms);
  pr_redirects : at_addrs (r_objs r') (r_redirect r')
    (place_redirects (index_base ros fos t + bytes_in (m_type <$> ms)) (renumber 0 ros));
  pr_files : at_addrs (r_objs r') (r_file r')
    (place_files (index_base ros fos t + bytes_in (m_type <$> ms) + bytes_in (target <$> ros))
       (renumber (Z.of_nat (length ros)) fos));
  pr_mimetab : r_mimetab_sz r' = bytes_in (m_type <$> ms);
  pr_redirtab : r_redirtab_sz r' = bytes_in (target <$> ros);
  pr_files_sz : r_files_sz r' = total_size fos;
}.

Lemma layout_ok r ms ros fos off : at_addrs (r_mimes r) (r_mime_type r) ms -> NoDup (r_mime_type r) ->
  at_addrs (r_objs r) (r_redirect r) ros -> Forall is_redirect ros ->
  at_addrs (r_objs r) (r_file r) fos -> Forall is_file fos -> NoDup (r_redirect r ++ r_file r) ->
  r_mimetab_sz r = 0 -> 0 <= off -> off + bytes_in (m_type <$> ms) + bytes_in (target <$> ros) < 2 ^ 32 ->
  total_size fos < 2 ^ 62 ->
  exists mimes objs,
    ('off ← layout_mimes (r_mime_type r) off;
     _ ← modify (fun r => with_redirtab_sz r 0);
     'off ← layout_redirects (r_redirect r) off;
     _ ← modify (fun r => with_files_sz r 0);
     _ ← layout_files (r_file r) off;
     (mret true : M bool)) r =
      Ret (true, with_files_sz (with_redirtab_sz (with_mimetab_sz (with_mimes (with_objs r objs) mimes)
                   (bytes_in (m_type <$> ms))) (bytes_in (target <$> ros))) (total_size fos)) /\
    at_addrs mimes (r_mime_type r) (place_mimes off ms) /\
    at_addrs objs (r_redirect r) (place_redirects (off + bytes_in (m_type <$> ms)) ros) /\
    at_addrs objs (r_file r) (place_files (off + bytes_in (m_type <$> ms) + bytes_in (target <$> ros)) fos).
Proof.
  intros Hm Hmn Hr Hrk Hf Hfk (Hnr & Hdis & Hnf)%NoDup_app H0 Ho Hb Ht.
  pose proof (bytes_in_nonneg (m_type <$> ms)) as Hb1. pose proof (bytes_in_nonneg (target <$> ros)) as Hb2.
  destruct (layout_mimes_ok _ off ms r Hmn Hm) as (mimes & E1 & H1 & _); [done|lia|lia|lia|].
  rewrite M_bind_step, E1. run. mrun. rewrite H0, Z.add_0_l.
  set (r1 := with_redirtab_sz _ _).
  destruct (layout_redirects_ok (r_redirect r) (off + bytes_in (m_type <$> ms)) ros r1 Hnr Hr Hrk)
    as (o1 & E2 & H2 & F2); [lia|lia|done|cbn; lia|].
  rewrite M_bind_step, E2. run. mrun. set (r2 := with_files_sz _ _).
  assert (at_addrs (r_objs r2) (r_file r) fos) as Hf2.
  { apply (at_addrs_frame (r_objs r)); [|done]. intros a Ha. apply F2. intros Hin. by apply (Hdis a). }
  destruct (layout_files_ok (r_file r) (off + bytes_in (m_type <$> ms) + bytes_in (target <$> ros)) fos r2 Hnf Hf2 Hfk)
    as (o2 & E3 & H3 & F3); [lia|lia|done|cbn; lia|].
  rewrite M_bind_step, E3. run. exists mimes, o2. split_and!; [|done| |done].
  - by destruct r.
  - apply (at_addrs_frame o1); [|done]. intros a Ha. apply F3. by apply Hdis.
Qed.

Lemma sort_uris_ok E r ms ros fos : site r ms ros fos ->
  sort_uris E r = Ret (false, with_allocs r (S (r_allocs r))) \/
  sort_uris E r = Ret (true, with_uri (with_allocs r (S (r_allocs r))) (merge_sort ucmp_le (r_uri r))).
Proof.
  intros Hs. unfold sort_uris. rewrite M_galloc. destruct (e_alloc E (r_allocs r)); cbn [negb]; [right|by left].
  mrun. cbn [r_uri r_num_uri with_allocs].
  rewrite (proj2 (Z.eqb_eq _ _)) by (symmetry; apply Hs). run.
  assert (existsb null_uri (r_uri r) = false) as ->.
  { apply not_true_iff_false. rewrite existsb_exists. intros (u & Hin & Hu).
    pose proof (si_linked _ _ _ _ Hs) as Hl. rewrite Forall_forall in Hl.
    destruct (Hl u) as [[s Es] _]; [by apply list_elem_of_In|].
    unfold null_uri in Hu. apply bool_decide_eq_true in Hu. congruence. }
  rewrite andb_false_r. run. mrun. done.
Qed.

Lemma site_entries_ok r ms ros fos objs l : site r ms ros fos ->
  at_addrs objs (r_redirect r) (renumber 0 ros) -> at_addrs objs (r_file r) (renumber (Z.of_nat (length ros)) fos) ->
  l ≡ₚ r_uri r ->
  entries objs l = Ret ((fun u => TrieEntry (uri_str u) (Z.of_nat (pos (r_redirect r ++ r_file r) (u_obj u)))) <$> l).
Proof.
  intros Hs H1 H2 Hl.
  assert (at_addrs objs (r_redirect r ++ r_file r) (renumber 0 (ros ++ fos))) as Hall.
  { rewrite renumber_app. by apply Forall2_app. }
  assert (Forall (fun u => is_Some (u_uri u) /\ u_obj u ∈ r_redirect r ++ r_file r) l) as Hlk.
  { rewrite Hl. apply Hs. }
  rewrite entries_ok.
  - f_equal. apply list_fmap_ext. intros i u Hu. rewrite Forall_lookup in Hlk. destruct (Hlk i u Hu) as [_ Hin].
    unfold entry_of. by rewrite (oid_at_pos _ _ _ _ _ Hall Hin).
  - eapply Forall_impl; [exact Hlk|]. intros u [Hu Hin]. split; [done|].
    pose proof (pos_lookup _ _ Hin) as Hp. rewrite (at_addrs_lookup _ _ _ _ _ Hall Hp).
    apply lookup_lt_is_Some. apply lookup_lt_Some in Hp. by rewrite <- (at_addrs_length _ _ _ Hall).
Qed.

Lemma trie_new_cases ta c h v : v <> [] -> exists res, trie_new ta c h (Some v) = Ret res.
Proof.
  intros Hv. unfold trie_new. destruct (c && h) eqn:E; cbn [negb]; [|by eexists].
  destruct (trie_new_ok ta v Hv) as (res & Hn & _). unfold trie_new in Hn. cbn [negb andb] in Hn. eauto.
Qed.

(** The strings end below four gigabytes, as the format requires. *)
Definition sizes_ok (r : mkroot) (ms : list mime_type) (ros fos : list object) (ta : nat -> bool) (c h : bool) : Prop :=
  Z.of_nat (length ros + length fos) < 2 ^ 32 /\ total_size fos < 2 ^ 62 /\
  forall t root order, trie_new ta c h (Some (site_entries r)) = Ret (Some (t, root, order)) ->
    index_base ros fos t + bytes_in (m_type <$> ms) + bytes_in (target <$> ros) < WEBROOT_INVALID_REDIRECT.

Lemma index_size_base r ros fos t : r_num_redirect r = Z.of_nat (length ros) -> r_num_file r = Z.of_nat (length fos) ->
  index_base ros fos t < 2 ^ 32 -> index_size r t = index_base ros fos t.
Proof.
  intros Hr Hf Hb. unfold index_size. rewrite Hr, Hf. apply uint_small.
  unfold index_base, trie_trie_size, hdr_sz, redir_sz, file_sz in *. lia.
Qed.

(** [webroot_prep] returns, and when it succeeds it has done what it should. *)
Lemma prep_ok E ta c h r ms ros fos : site r ms ros fos -> r_uri r <> [] -> r_mimetab_sz r = 0 ->
  sizes_ok r ms ros fos ta c h ->
  exists b r', webroot_prep E ta c h r = Ret (b, r') /\
    (b = true -> exists t root order,
      trie_new ta c h (Some (site_entries r)) = Ret (Some (t, root, order)) /\ prepped r r' ms ros fos t order).
Proof.
  intros Hs Hne H0 (Hn & Ht & Hsz). unfold WEBROOT_INVALID_REDIRECT in Hsz. unfold webroot_prep. rewrite M_bind_step.
  destruct (sort_uris_ok E r ms ros fos Hs) as [-> | ->]; run; cbn [negb]; [by do 2 eexists|].
  set (r1 := with_uri _ _). assert (site r1 ms ros fos) as Hs1.
  { assert (merge_sort ucmp_le (r_uri r) ≡ₚ r_uri r) as Hp by apply merge_sort_Permutation.
    destruct Hs as [????????? Hu Hl ?]. split; cbn; try done; by rewrite Hp. }
  rewrite M_bind_step. destruct (sort_objects_ok r1 ms ros fos Hs1 Hn) as (objs & -> & H1 & H2). run.
  rewrite M_galloc. destruct (e_alloc E _); cbn [negb]; [|by do 2 eexists]. set (r2 := with_allocs _ _). mrun.
  rewrite (site_entries_ok r1 ms ros fos objs _ Hs1 H1 H2) by done. run.
  change (_ <$> r_uri r2) with (site_entries r). mrun.
  assert (site_entries r <> []) as Hne'.
  { unfold site_entries. intros E0%fmap_nil_inv. apply Hne, Permutation_nil_r. rewrite <- E0. by rewrite merge_sort_Permutation. }
  destruct (trie_new_cases ta c h _ Hne') as ([[[t root] order]|] & Et); rewrite Et; run; [|by do 2 eexists].
  mrun. rewrite (index_size_base r2 ros fos t (si_num_redirect _ _ _ _ Hs) (si_num_file _ _ _ _ Hs)).
  2: { pose proof (bytes_in_nonneg (m_type <$> ms)). pose proof (bytes_in_nonneg (target <$> ros)).
       specialize (Hsz _ _ _ Et). lia. }
  destruct (renumber_kinds 0 ros) as [Kr _]. destruct (renumber_kinds (Z.of_nat (length ros)) fos) as [_ Kf].
  destruct (renumber_data 0 ros) as [Dr _]. destruct (renumber_data (Z.of_nat (length ros)) fos) as [_ Df].
  destruct (layout_ok (with_trie r2 (Some (t, order))) ms (renumber 0 ros) (renumber (Z.of_nat (length ros)) fos)
    (index_base ros fos t)) as (mimes & objs' & E1 & Hm & Hr & Hf); try apply Hs; try done.
  - by apply Kr, Hs.
  - by apply Kf, Hs.
  - unfold index_base, trie_trie_size. lia.
  - rewrite Dr. specialize (Hsz _ _ _ Et). lia.
  - by rewrite Df.
  - eexists _, _. split; [exact E1|]. intros _. exists t, root, order. split; [done|]. rewrite Dr in *. by split.
Qed.
