(* ===== verification/MkrootImage.v ===== *)
(** * What [webroot_write] writes

    The bytes of a webroot as one list, section by section, and the proof that
    a successful [webroot_write] leaves exactly them in the file: the first
    pass with stale digests, the second pass over the file records only. *)

From stdpp Require Import sorting.
From S2P Require Import Prelude Os Fobuf Trie Webroot Sha1 Mkroot MkrootWrite MkrootLayout.
Local Open Scope Z_scope.

(** ** Growing an output file *)

Record grows (w w' : outfile) (d : list Z) : Prop := {
  gr_ok : sink_ok w';
  gr_acc : accepted w' = accepted w ++ d;
  gr_done : o_done w' = o_done w;
  gr_base : o_base w' = o_base w;
  gr_fd : fd (o_stream w').1 = fd (o_stream w).1;
}.

Lemma grows_nil w : sink_ok w -> grows w w [].
Proof. split; try done. by rewrite app_nil_r. Qed.

Lemma grows_trans w1 w2 w3 d1 d2 : grows w1 w2 d1 -> grows w2 w3 d2 -> grows w1 w3 (d1 ++ d2).
Proof. intros [? H1 ? ? ?] [? H2 ? ? ?]. split; [done| |congruence..]. by rewrite H2, H1, app_assoc. Qed.

Lemma write_keeps (w w' : outfile) buf ok : sink_ok w -> sink_write w buf = Ret (ok, w') ->
  o_done w' = o_done w /\ o_base w' = o_base w /\ fd (o_stream w').1 = fd (o_stream w).1.
Proof.
  destruct w as [dn base [b k]]. intros Hw H. cbn in H, Hw. apply outcome_bind_ret in H as ([ok1 s] & H & [= _ <-]).
  apply outcome_bind_ret in H as ([[ok2 b'] k'] & H & [= _ <-]). apply write_spec in H as (_ & Hfd & _); [|done]. done.
Qed.

Lemma write_grows (w w' : outfile) buf : sink_ok w -> sink_write w buf = Ret (true, w') -> grows w w' buf.
Proof.
  intros Hw H. destruct (sink_write_ok w buf true w' Hw H) as [Hok Hacc]. destruct (write_keeps w w' buf true Hw H) as (? & ? & ?).
  split; auto.
Qed.

(** A write, and going on when it succeeds. *)
Lemma write_step {A} (w : outfile) buf (k : outfile -> outcome (bool * A)) (e : outfile -> A) a : sink_ok w ->
  ('(ok, w) ← sink_write w buf; if negb ok then Ret (false, e w) else k w) = Ret (true, a) ->
  exists w1, grows w w1 buf /\ k w1 = Ret (true, a).
Proof.
  intros Hw H. apply outcome_bind_ret in H as ([[] w1] & Hwr & H); [|done].
  exists w1. split; [by apply write_grows|done].
Qed.

Lemma write_strings_ok l (w w' : outfile) : sink_ok w -> write_strings l w = Ret (true, w') -> grows w w' (concat l).
Proof.
  revert w. induction l as [|s l IH]; intros w Hw H; cbn [write_strings concat] in *.
  - injection H as <-. by apply grows_nil.
  - apply (write_step w s (write_strings l) id) in H as (w1 & Hg & H); [|done].
    eapply grows_trans; [done|]. apply IH; [apply Hg|done].
Qed.

Lemma write_edges_grows order (w w' : outfile) es : sink_ok w -> write_edges order w es = Ret (true, w') ->
  exists ds, Forall2 (record_of order) es ds /\ grows w w' (concat (encode_dedge <$> ds)).
Proof.
  intros Hw H. destruct (write_edges_ok order es w w' Hw H) as (ds & Hds & Hacc & Hok).
  exists ds. split; [done|]. assert (o_done w' = o_done w /\ o_base w' = o_base w /\ fd (o_stream w').1 = fd (o_stream w).1)
    as (? & ? & ?); [|by split].
  clear -H Hw. revert w Hw H. induction es as [|e es IH]; intros w Hw H; cbn [write_edges] in H; [by injection H as <-|].
  apply outcome_bind_ret in H as ([[] w1] & H1 & H); [|done].
  unfold node_to_disk in H1. apply outcome_bind_ret in H1 as (d & _ & H1).
  destruct (write_keeps _ _ _ _ Hw H1) as (<- & <- & <-). apply IH; [|done]. by apply (sink_write_ok w _ true w1 Hw H1).
Qed.

(** ** Records *)

Definition redirect_bytes (o : object) : list Z :=
  match o_u o with OBJ_TYPE_REDIRECT u off code => encode_redirect u off code | _ => [] end.

Definition file_bytes (mimes : gmap nat mime_type) (o : object) : list Z :=
  match o_u o with
  | OBJ_TYPE_FILE f => encode_file f (default (MimeType [] 0) (f_type f ≫= fun m => mimes !! m))
  | _ => []
  end.

Lemma write_redirect_objs_ok r l os (w w' : outfile) : at_addrs (r_objs r) l os -> sink_ok w ->
  write_redirect_objs r l w = Ret (true, w') -> grows w w' (concat (redirect_bytes <$> os)).
Proof.
  intros Hat. revert w. induction Hat as [|a o l os Ho Hat IH]; intros w Hw H; cbn [write_redirect_objs fmap list_fmap concat] in *.
  - injection H as <-. by apply grows_nil.
  - unfold redirect_of in H. rewrite Ho in H. run_in H. unfold redirect_bytes at 1.
    destruct (o_u o) as [f|u off code]; [done|]. run_in H.
    apply (write_step w _ (write_redirect_objs r l) id) in H as (w1 & Hg & H); [|done].
    eapply grows_trans; [done|]. apply IH; [apply Hg|done].
Qed.

Lemma write_file_objs_ok r l os (w w' : outfile) : at_addrs (r_objs r) l os -> sink_ok w ->
  write_file_objs r l w = Ret (true, w') -> grows w w' (concat (file_bytes (r_mimes r) <$> os)).
Proof.
  intros Hat. revert w. induction Hat as [|a o l os Ho Hat IH]; intros w Hw H; cbn [write_file_objs fmap list_fmap concat] in *.
  - injection H as <-. by apply grows_nil.
  - unfold file_of in H. rewrite Ho in H. run_in H. unfold file_bytes at 1.
    destruct (o_u o) as [f|u off code]; [|done]. run_in H.
    destruct (f_type f ≫= _) as [m|] eqn:Em; [|done]. run_in H.
    apply (write_step w _ (write_file_objs r l) id) in H as (w1 & Hg & H); [|done].
    eapply grows_trans; [done|]. apply IH; [apply Hg|done].
Qed.

Lemma mime_strings_ok r ms : at_addrs (r_mimes r) (r_mime_type r) ms -> mime_strings r = Ret (m_type <$> ms).
Proof.
  unfold mime_strings, at_addrs. generalize (r_mime_type r). intros l H.
  induction H as [|a m l ms Hm H IH]; [done|]. cbn [mapM]. rewrite Hm. run. rewrite IH. done.
Qed.

Lemma redirect_strings_ok r os : at_addrs (r_objs r) (r_redirect r) os -> Forall is_redirect os ->
  exists l, redirect_strings r = Ret l /\ concat l = concat (target <$> os).
Proof.
  unfold redirect_strings, at_addrs. generalize (r_redirect r). intros l H Hk.
  assert (exists us, mapM (fun a => '(_, u, _, _) ← redirect_of (r_objs r) a; Ret u) l = Ret us /\
    concat (omap id us) = concat (target <$> os)) as (us & -> & Hus); [|by exists (omap id us)].
  induction H as [|a o l os Ho H IH]; [by exists []|]. apply Forall_cons in Hk as [(u & off & code & Eo) Hk].
  destruct (IH Hk) as (us & E & Hus). exists (u :: us). split.
  - assert (redirect_of (r_objs r) a = Ret (o_oid o, u, off, code)) as Er.
    { unfold redirect_of. rewrite Ho. run. by rewrite Eo. }
    cbn [mapM]. rewrite Er. run. rewrite E. done.
  - rewrite fmap_cons. cbn [concat]. rewrite <- Hus. unfold target. rewrite Eo. by destruct u.
Qed.

(** ** Copying a file *)

Section sources.
Context (X : wenv).

(** The copy writes a prefix of the source, digests what it writes, and stops
    short only of bytes the source does not have or [read] did not give. *)
Lemma copy_file_ok ios src len ctx (w w' : outfile) msg len' ctx' : ctx_ok msg ctx -> bytes_ok (msg ++ src) ->
  sink_ok w -> 0 <= len -> copy_file ios src len ctx w = Ret (Some (len', ctx'), w') ->
  exists d, d `prefix_of` src /\ Z.of_nat (length d) = len - len' /\ 0 <= len' /\ ctx_ok (msg ++ d) ctx' /\ grows w w' d.
Proof.
  revert src len ctx w msg. induction ios as [|[n|e] ios IH]; intros src len ctx w msg Hc Hb Hw Hl H; cbn [copy_file] in H; try done.
  set (want := Z.to_nat (if BUFFER_SIZE <? len then BUFFER_SIZE else len)) in *.
  set (ret := min n (min want (length src))) in *.
  assert (Z.of_nat ret <= len) as Hret by (subst ret want; destruct (Z.ltb_spec BUFFER_SIZE len); unfold BUFFER_SIZE in *; lia).
  assert (length (take ret src) = ret) as Hlt by (rewrite length_take; subst ret; lia).
  apply outcome_bind_ret in H as ([[] w1] & Hwr & H); [|done]. cbn [negb] in H.
  assert (grows w w1 (take ret src)) as Hg.
  { destruct (Nat.eqb_spec ret 0) as [E|E]; cbn [negb] in Hwr; [|by apply write_grows].
    injection Hwr as <-. rewrite E, take_0. by apply grows_nil. }
  assert (bytes_ok (msg ++ take ret src)) as Hb1.
  { apply Forall_app in Hb as [? ?]. apply Forall_app. split; [done|by apply Forall_take]. }
  destruct (update_ok msg ctx (take ret src) Hc Hb1) as (c1 & E1 & Hc1). rewrite E1 in H. run_in H.
  destruct (Nat.eqb_spec ret 0) as [E|E]; cbn [negb] in H.
  - injection H as <- <- <-. exists (take ret src). split_and!; try done; [apply prefix_take|lia|lia].
  - destruct (IH (drop ret src) (len - Z.of_nat ret) c1 w1 (msg ++ take ret src) Hc1)
      as (d & [t Ht] & Hd & H0 & Hcd & Hgd); [by rewrite <- app_assoc, take_drop|apply Hg|lia|done|].
    exists (take ret src ++ d). split_and!.
    + exists t. by rewrite <- app_assoc, <- Ht, take_drop.
    + rewrite length_app. lia.
    + done.
    + by rewrite app_assoc.
    + by eapply grows_trans.
Qed.

(** The bytes of an object's file, as the scan found them. *)
Definition data_of (r : mkroot) (o : object) (d : list Z) : Prop :=
  exists f src, o_u o = OBJ_TYPE_FILE f /\ open_src X r f = Ret (Some src) /\
    d = take (Z.to_nat (f_size f)) src /\ Z.of_nat (length d) = f_size f.

Definition digested (o : object) (d : list Z) : object :=
  match o_u o with OBJ_TYPE_FILE f => Obj (o_oid o) (OBJ_TYPE_FILE (with_digest (sha1 d) f)) | _ => o end.

(** Every file the writer can open holds bytes. *)
Definition sources_ok (r : mkroot) : Prop := forall f src, open_src X r f = Ret (Some src) -> bytes_ok src.

Lemma sources_objs r r' : r_tmpchunks r' = r_tmpchunks r -> (sources_ok r -> sources_ok r') /\
  (forall o d, data_of r' o d -> data_of r o d).
Proof.
  intros E. assert (forall f, open_src X r' f = open_src X r f) as Ho by (intros f; unfold open_src; by rewrite E).
  unfold sources_ok, data_of. setoid_rewrite Ho. done.
Qed.

Lemma write_file_ok r r' a o (w w' : outfile) : r_objs r !! a = Some o -> is_file o -> sources_ok r -> sink_ok w ->
  write_file X r a w = Ret (true, r', w') ->
  exists d, data_of r o d /\ r' = with_objs r (<[a := digested o d]> (r_objs r)) /\ grows w w' d.
Proof.
  intros Ho (f & Ef & Hsz) Hsrc Hw H. unfold write_file, file_of in H. rewrite Ho in H. run_in H. rewrite Ef in H. run_in H.
  apply outcome_bind_ret in H as ([src|] & Es & H); [|done].
  apply outcome_bind_ret in H as ([[[len ctx]|] w1] & Hcp & H); [|done].
  destruct (copy_file_ok _ src _ _ w w1 [] len ctx init_ok (Hsrc f src Es) Hw Hsz Hcp) as (d & [t ->] & Hd & H0 & Hc & Hg).
  pose proof (Hsrc f _ Es) as [Hb _]%Forall_app.
  destruct (final_ok d ctx Hb Hc) as (c' & Hf). cbn [app] in Hc. rewrite Hf in H. run_in H.
  unfold update_file in H. revert H. mrun. rewrite Ho. run. rewrite Ef. run. unfold set_obj, modify. run. intros H.
  destruct (Z.eqb_spec len 0) as [->|]; [|by apply outcome_bind_ret in H as ([] & _ & H)].
  injection H as <- <-. exists d. split_and!; [|by unfold digested; rewrite Ef|done].
  exists f, (d ++ t). split_and!; [done|done| |lia].
  assert (Z.to_nat (f_size f) = length d) as -> by lia. by rewrite take_app_length.
Qed.

Lemma write_objs_ok r l os r' (w w' : outfile) : at_addrs (r_objs r) l os -> NoDup l -> Forall is_file os ->
  sources_ok r -> sink_ok w -> write_objs X r l w = Ret (true, r', w') ->
  exists ds objs, Forall2 (data_of r) os ds /\ r' = with_objs r objs /\ at_addrs objs l (zip_with digested os ds) /\
    (forall b, b ∉ l -> objs !! b = r_objs r !! b) /\ grows w w' (concat ds).
Proof.
  revert r os w. induction l as [|a l IH]; intros r [|o os] w Hat Hnd Hk Hsrc Hw H;
    try (by apply Forall2_length in Hat); cbn [write_objs] in H.
  { injection H as <- <-. exists [], (r_objs r). split_and!; [constructor|by destruct r|constructor|done|by apply grows_nil]. }
  apply Forall_cons in Hk as [Hf Hk]. apply outcome_bind_ret in H as ([[[] r1] w1] & H1 & H); [|done]. cbn [negb] in H.
  pose proof (at_addrs_step (r_objs r) a l o) as Hstep.
  pose proof Hat as (Ho & Hrest)%Forall2_cons. 
  destruct (write_file_ok r r1 a o w w1 Ho Hf Hsrc Hw H1) as (d & Hd & -> & Hg).
  destruct (Hstep (digested o d) os Hnd Hat) as (Ha & Hos & _ & Hfa & Hfb).
  set (r1 := with_objs r _) in *. destruct (sources_objs r r1 eq_refl) as [Hs1 Hd1].
  apply NoDup_cons in Hnd as [_ Hnd].
  destruct (IH r1 os w1 Hos Hnd Hk (Hs1 Hsrc) (gr_ok _ _ _ Hg) H) as (ds & objs & Hds & -> & Hat' & Hfr & Hg').
  exists (d :: ds), objs. split_and!.
  - constructor; [done|]. eapply Forall2_impl; [exact Hds|]. apply Hd1.
  - done.
  - constructor; [by apply Hfa|done].
  - intros b. by apply Hfb.
  - by eapply grows_trans.
Qed.
End sources.

(** ** The sections of the file *)

(** The next step of a sequence of writes that succeeds. *)
Ltac next_write H w E :=
  apply outcome_bind_ret in H as ([[] w] & E & H); [cbn [negb] in H|discriminate H].

Definition index_image (X : wenv) (r : mkroot) (t : trie) (ds : list trie_dedge) (ms : list mime_type)
    (ros : list object) (files : list Z) : list Z :=
  encode_hdr X r t ++ concat (encode_dedge <$> ds) ++ concat (redirect_bytes <$> ros) ++ files ++
  concat (m_type <$> ms) ++ concat (target <$> ros).

Lemma write_index_ok X r t order ms ros fos (w w' : outfile) : r_trie r = Some (t, order) ->
  at_addrs (r_mimes r) (r_mime_type r) ms -> at_addrs (r_objs r) (r_redirect r) ros -> Forall is_redirect ros ->
  at_addrs (r_objs r) (r_file r) fos -> sink_ok w -> write_index X r w = Ret (true, w') ->
  exists ds, Forall2 (record_of order) order ds /\
    grows w w' (index_image X r t ds ms ros (concat (file_bytes (r_mimes r) <$> fos))).
Proof.
  intros Ht Hm Hr Hrk Hf Hw H. unfold write_index, write_header, write_mimetab, write_redirtab in H.
  rewrite Ht, (mime_strings_ok r ms Hm) in H. destruct (redirect_strings_ok r ros Hr Hrk) as (l & El & Hl). rewrite El in H.
  run_in H. next_write H w1 H1. next_write H w2 H2. next_write H w3 H3. next_write H w4 H4. next_write H w5 H5.
  apply write_grows in H1 as G1; [|done].
  destruct (write_edges_grows order w1 w2 order) as (ds & Hds & G2); [apply G1|done|].
  pose proof (write_redirect_objs_ok r _ ros w2 w3 Hr (gr_ok _ _ _ G2) H3) as G3.
  pose proof (write_file_objs_ok r _ fos w3 w4 Hf (gr_ok _ _ _ G3) H4) as G4.
  pose proof (write_strings_ok _ w4 w5 (gr_ok _ _ _ G4) H5) as G5.
  pose proof (write_strings_ok _ w5 w' (gr_ok _ _ _ G5) H) as G6. rewrite Hl in G6.
  exists ds. split; [done|]. unfold index_image. repeat (eapply grows_trans; [done|]). done.
Qed.

(** What a file object's bytes were when the scan ended; what the temporary file
    holds includes what is still in its buffer. *)
Definition content_of (X : wenv) (r : mkroot) (f : file_obj) : option (list Z) :=
  match f_content f with
  | FILE_PATH p => we_open X p
  | FILE_TMPCHUNK off => (fun s => drop (Z.to_nat off) (accepted s)) <$> r_tmpchunks r
  end.

Definition file_data (X : wenv) (r : mkroot) (o : object) (d : list Z) : Prop :=
  exists f src, o_u o = OBJ_TYPE_FILE f /\ content_of X r f = Some src /\
    d = take (Z.to_nat (f_size f)) src /\ Z.of_nat (length d) = f_size f.

Definition contents_ok (X : wenv) (r : mkroot) : Prop := forall f src, content_of X r f = Some src -> bytes_ok src.

Lemma write_files_ok X r os r' (w w' : outfile) : at_addrs (r_objs r) (r_file r) os -> NoDup (r_file r) ->
  Forall is_file os -> contents_ok X r -> (forall s, r_tmpchunks r = Some s -> sink_ok s) -> sink_ok w ->
  write_files X r w = Ret (true, r', w') ->
  exists ds objs, Forall2 (file_data X r) os ds /\ r_objs r' = objs /\ r_file r' = r_file r /\
    r_mimes r' = r_mimes r /\ r_trie r' = r_trie r /\ r_num_redirect r' = r_num_redirect r /\
    at_addrs objs (r_file r) (zip_with digested os ds) /\ grows w w' (concat ds).
Proof.
  intros Hat Hnd Hk Hc Ht Hw H. unfold write_files in H. destruct (r_tmpchunks r) as [[b k]|] eqn:Et; [|done]. run_in H.
  apply outcome_bind_ret in H as ([[ok b1] k1] & Hfl & H).
  destruct (flush_spec b k ok b1 k1 (Ht _ eq_refl) Hfl) as (Hok & _ & _ & Hres). destruct ok; [|done]. cbn [negb] in H.
  destruct Hres as [Hk1 _]. set (r1 := with_tmpchunks r _) in *.
  assert (forall f src, open_src X r1 f = Ret (Some src) -> content_of X r f = Some src) as Hop.
  { intros f src. unfold open_src, content_of. destruct (f_content f); [by intros [= ->]|]. cbn. rewrite Et.
    destruct (we_lseek_tmp X); [|done]. intros [= <-]. cbn. by rewrite Hk1. }
  destruct (write_objs_ok X r1 (r_file r) os r' w w' Hat Hnd Hk) as (ds & objs & Hds & -> & Ha & _ & Hg); [|done|done|].
  { intros f src Hs. by eapply Hc, Hop. }
  exists ds, objs. split_and!; try done. eapply Forall2_impl; [exact Hds|].
  intros o d (f & src & ? & ? & ? & ?). exists f, src. auto.
Qed.

Lemma overlay_front d w : (length d <= length w)%nat -> overlay d 0 w = w.
Proof.
  intros Hl. destruct w as [|x w]; cbn [overlay].
  - cbn in Hl. destruct d; [done|cbn in Hl; lia].
  - by rewrite take_0, (drop_ge d), app_nil_r by done.
Qed.

Lemma overlay_mid pre old new post : length old = length new ->
  overlay (pre ++ old ++ post) (length pre) new = pre ++ new ++ post.
Proof.
  intros Hl. destruct new as [|x new]; cbn [overlay]; [by apply length_zero_iff_nil in Hl as ->|].
  rewrite <- app_assoc, take_app_length. do 2 f_equal.
  rewrite <- drop_drop, drop_app_length, drop_app_length' by done. done.
Qed.

(** The second pass replaces the file records and nothing else. *)
Lemma write_etags_ok X r t order fos (w w' : outfile) pre old post : r_trie r = Some (t, order) ->
  at_addrs (r_objs r) (r_file r) fos -> sink_ok w -> o_base w = 0%nat ->
  accepted w = pre ++ old ++ post -> (length (o_done w) <= length (pre ++ old ++ post))%nat ->
  Z.of_nat (length pre) = Z.of_nat hdr_sz + trie_trie_size t + Z.of_nat redir_sz * r_num_redirect r ->
  length old = length (concat (file_bytes (r_mimes r) <$> fos)) ->
  write_etags X r w = Ret (true, w') ->
  sink_ok w' /\ fd (o_stream w').1 = fd (o_stream w).1 /\ contents w' = pre ++ concat (file_bytes (r_mimes r) <$> fos) ++ post.
Proof.
  intros Ht Hf Hw Hb Hacc Hd Hpre Hold H. unfold write_etags, out_flush in H. destruct w as [dn base [b k]].
  cbn in Hd, Hb, Hw, Hacc. subst base. apply outcome_bind_ret in H as ([[] w1] & Hfl & H); [|done]. cbn [negb] in H.
  apply outcome_bind_ret in Hfl as ([[ok b1] k1] & Hfl & [= -> <-]).
  destruct (flush_spec b k true b1 k1 Hw Hfl) as (Hok & _ & Hfd & Hk1 & Hp). rewrite Ht in H. run_in H.
  destruct (we_lseek_out X); [|done]. cbn [negb] in H. unfold out_seek in H. cbn [with_stream o_stream o_done o_base] in H.
  rewrite Hk1, Hacc, <- Hpre, Nat2Z.id, overlay_front in H by done.
  destruct (write_file_objs_ok r _ fos (Outfile (pre ++ old ++ post) (length pre) (b1, Kernel (k_io k1) (k_poll k1) []))
    w' Hf Hok H) as [Hok' Ha Hd' Hb' Hfd'].
  split; [done|]. split; [by rewrite Hfd'|]. cbn in Ha, Hd', Hb'. unfold pending in Ha at 2. rewrite Hp, take_0 in Ha. cbn in Ha.
  unfold contents. change (k_file _ ++ _) with (accepted (o_stream w')) in Ha. rewrite Hd', Hb', Ha. by apply overlay_mid.
Qed.

(** ** Lengths *)

Lemma concat_length_const {A} (f : A -> list Z) n l : (forall x, x ∈ l -> length (f x) = n) ->
  length (concat (f <$> l)) = (n * length l)%nat.
Proof.
  induction l as [|x l IH]; intros Hn; [cbn; lia|]. rewrite fmap_cons. cbn [concat length].
  rewrite length_app, Hn, IH by set_solver. lia.
Qed.

Definition digest_ok (o : object) : Prop := match o_u o with OBJ_TYPE_FILE f => length (f_digest f) = 20%nat | _ => True end.

Lemma redirects_length os : Forall is_redirect os -> length (concat (redirect_bytes <$> os)) = (redir_sz * length os)%nat.
Proof.
  intros H. apply concat_length_const. intros o Ho. rewrite Forall_forall in H. destruct (H o Ho) as (u & off & code & E).
  unfold redirect_bytes. rewrite E. by destruct u.
Qed.

Lemma files_length mimes os : Forall is_file os -> Forall digest_ok os ->
  length (concat (file_bytes mimes <$> os)) = (file_sz * length os)%nat.
Proof.
  intros H Hd. apply concat_length_const. intros o Ho. rewrite Forall_forall in H, Hd. destruct (H o Ho) as (f & E & _).
  specialize (Hd o Ho). unfold file_bytes, digest_ok in *. rewrite E in *. unfold encode_file.
  autorewrite with lengths. by rewrite Hd.
Qed.

Lemma edges_length order es ds : Forall2 (record_of order) es ds ->
  length (concat (encode_dedge <$> ds)) = (dedge_sz * length es)%nat.
Proof.
  intros H. rewrite (Forall2_length _ _ _ H). apply concat_length_const. intros d [i Hi]%list_elem_of_lookup_1.
  destruct (Forall2_lookup_r _ _ _ _ _ H Hi) as (e & _ & He). by eapply length_encode.
Qed.

Lemma sha1_length msg : length (sha1 msg) = 20%nat.
Proof. unfold sha1. by destruct (chain_blocks _ _ _) as [[[[a b] c] d] e]. Qed.

(** ** The laid-out tables keep what the scan put in the objects *)

Lemma place_mimes_types off ms : m_type <$> place_mimes off ms = m_type <$> ms.
Proof. revert off. induction ms as [|m ms IH]; intros off; [done|]. cbn. by rewrite IH. Qed.

Lemma place_redirects_same off os : target <$> place_redirects off os = target <$> os /\
  length (place_redirects off os) = length os /\ (Forall is_redirect os -> Forall is_redirect (place_redirects off os)).
Proof.
  revert off. induction os as [|o os IH]; intros off; [done|]. destruct (IH (off + Z.of_nat (length (target o)))) as (E1 & E2 & E3).
  cbn. rewrite E1, E2, !Forall_cons. unfold place_redirect, target, is_redirect.
  split_and!; [|done|intros [H ?]; split; [|auto]]; destruct (o_u o) eqn:E; rewrite ?E; cbn; rewrite ?E; try done; eauto.
Qed.

(** Objects with the same file, but for its place and digest. *)
Definition same_file (o o' : object) : Prop :=
  exists f off, o_u o = OBJ_TYPE_FILE f /\ o_u o' = OBJ_TYPE_FILE (with_off off f).

Lemma laid_files k off os : Forall is_file os -> Forall2 same_file os (place_files off (renumber k os)).
Proof.
  intros H. revert k off. induction H as [|o os (f & E & _) _ IH]; intros k off; [constructor|]. cbn. constructor; [|apply IH].
  exists f, off. split; [done|]. unfold place_file. cbn. by rewrite E.
Qed.

Lemma same_files_ok X r os os' : Forall2 same_file os os' -> length os' = length os /\
  (Forall is_file os -> Forall is_file os') /\ (Forall digest_ok os -> Forall digest_ok os') /\
  forall ds, Forall2 (file_data X r) os' ds -> Forall2 (file_data X r) os ds.
Proof.
  induction 1 as [|o o' os os' (f & off & E & E') _ (IH1 & IH2 & IH3 & IH4)]; [done|]. rewrite !Forall_cons. split_and!.
  - cbn. by rewrite IH1.
  - intros [(f0 & E0 & H0) ?]. split; [|auto]. exists (with_off off f). split; [done|]. rewrite E in E0. by injection E0 as ->.
  - intros [Hd ?]. split; [|auto]. unfold digest_ok in *. by rewrite E in Hd; rewrite E'.
  - intros [|d ds] Hds; [by apply Forall2_length in Hds|]. apply Forall2_cons in Hds as [(f1 & src & E1 & ? & ? & ?) Hds].
    constructor; [|auto]. rewrite E' in E1. injection E1 as <-. by exists f, src.
Qed.

Lemma digested_ok os ds : length os = length ds -> Forall is_file os ->
  Forall is_file (zip_with digested os ds) /\ Forall digest_ok (zip_with digested os ds) /\
  length (zip_with digested os ds) = length os.
Proof.
  revert ds. induction os as [|o os IH]; intros [|d ds] Hl H; try done. apply Forall_cons in H as [(f & E & Hf) H].
  destruct (IH ds) as (H1 & H2 & H3); [by injection Hl|done|]. cbn [zip_with length]. rewrite !Forall_cons, H3.
  unfold digested, is_file, digest_ok. rewrite E. cbn. rewrite sha1_length. split_and!; eauto.
Qed.

(** ** The whole file *)

Definition webroot_image (X : wenv) (r : mkroot) (t : trie) (ds : list trie_dedge) (ms : list mime_type)
    (ros fos : list object) (datas : list (list Z)) : list Z :=
  index_image X r t ds ms ros (concat (file_bytes (r_mimes r) <$> zip_with digested fos datas)) ++ concat datas.

Definition laid_redirects (ms : list mime_type) (ros fos : list object) (t : trie) : list object :=
  place_redirects (index_base ros fos t + bytes_in (m_type <$> ms)) (renumber 0 ros).

Definition laid_out (ms : list mime_type) (ros fos : list object) (t : trie) : list object :=
  place_files (index_base ros fos t + bytes_in (m_type <$> ms) + bytes_in (target <$> ros))
    (renumber (Z.of_nat (length ros)) fos).

Lemma laid_redirects_ok ms ros fos t : Forall is_redirect ros -> Forall is_redirect (laid_redirects ms ros fos t) /\
  target <$> laid_redirects ms ros fos t = target <$> ros /\ length (laid_redirects ms ros fos t) = length ros.
Proof.
  intros H. unfold laid_redirects. destruct (place_redirects_same
    (index_base ros fos t + bytes_in (m_type <$> ms)) (renumber 0 ros)) as (-> & -> & Hk).
  destruct (renumber_data 0 ros) as [-> _]. rewrite length_renumber. split_and!; [|done..]. by apply Hk, renumber_kinds.
Qed.

Lemma data_total X r os ds : Forall2 (file_data X r) os ds -> bytes_in ds = total_size os.
Proof.
  induction 1 as [|o d os ds (f & src & E & _ & _ & Hd) _ IH]; [done|]. rewrite bytes_in_cons, IH. cbn [total_size].
  unfold size_of. by rewrite E, Hd.
Qed.

Lemma head_length X r t order ds ros : Forall2 (record_of order) order ds -> Forall is_redirect ros -> length (we_pad X) = 4%nat ->
  length (encode_hdr X r t ++ concat (encode_dedge <$> ds) ++ concat (redirect_bytes <$> ros)) =
    (hdr_sz + dedge_sz * length order + redir_sz * length ros)%nat.
Proof.
  intros Hds Hr Hp. rewrite !length_app, (edges_length _ _ _ Hds), (redirects_length _ Hr). unfold encode_hdr.
  autorewrite with lengths. rewrite Hp. unfold hdr_sz. lia.
Qed.

(** [webroot_write] leaves the image in the file. *)
Lemma webroot_write_ok X r r' ms ros fos t order (w : outfile) r2 w' : site r ms ros fos -> prepped r r' ms ros fos t order ->
  Forall digest_ok fos -> contents_ok X r -> (forall s, r_tmpchunks r = Some s -> sink_ok s) ->
  length (we_pad X) = 4%nat -> trie_trie_size t = Z.of_nat (dedge_sz * length order) ->
  sink_ok w -> accepted w = [] -> o_base w = 0%nat ->
  Z.of_nat (length (o_done w)) <= index_base ros fos t + bytes_in (m_type <$> ms) + bytes_in (target <$> ros) + total_size fos ->
  webroot_write X r' w = Ret (true, r2, w') ->
  exists ds datas, Forall2 (record_of order) order ds /\ Forall2 (file_data X r) fos datas /\ sink_ok w' /\
    fd (o_stream w').1 = fd (o_stream w).1 /\
    contents w' = webroot_image X r' t ds ms (laid_redirects ms ros fos t) (laid_out ms ros fos t) datas.
Proof.
  intros Hs Hp Hdg Hc Ht Hpad Hts Hw Ha0 Hb0 Hdone H. destruct Hp as [_ Htr (Hlr & Hlf & Hlm) Htmp (Hnr & Hnf) Hm Hr Hf _ _ _].
  fold (laid_redirects ms ros fos t) in Hr. fold (laid_out ms ros fos t) in Hf.
  destruct (laid_redirects_ok ms ros fos t (si_are_redirects _ _ _ _ Hs)) as (Hrk & Hrt & Hrl).
  pose proof (laid_files (Z.of_nat (length ros)) (index_base ros fos t + bytes_in (m_type <$> ms) + bytes_in (target <$> ros))
    fos (si_are_files _ _ _ _ Hs)) as Hsame. fold (laid_out ms ros fos t) in Hsame.
  destruct (same_files_ok X r _ _ Hsame) as (Hfl & Hfk & Hfd & Hfdata).
  specialize (Hfk (si_are_files _ _ _ _ Hs)). specialize (Hfd Hdg).
  unfold webroot_write in H. next_write H w1 H1.
  destruct (write_index_ok X r' t order _ _ _ w w1 Htr Hm Hr Hrk Hf Hw H1) as (ds & Hds & G1).
  unfold index_image in G1. rewrite place_mimes_types in G1.
  apply outcome_bind_ret in H as ([[[] r1] w2] & H2 & H); [|done]. cbn [negb] in H.
  destruct (write_files_ok X r' (laid_out ms ros fos t) r1 w1 w2 Hf) as
    (datas & objs & Hd & Ho & Hrf & Hmm & Htt & Hnn & Hat & G2); [|done| |by rewrite Htmp|apply G1|done|].
  { rewrite Hlf. pose proof (si_nodup _ _ _ _ Hs) as (_ & _ & ?)%NoDup_app. done. }
  { intros f src. unfold content_of. rewrite Htmp. apply Hc. }
  assert (Forall2 (file_data X r) (laid_out ms ros fos t) datas) as Hd'.
  { eapply Forall2_impl; [exact Hd|]. intros o d (f & src & ? & Hsrc & ?). exists f, src.
    unfold content_of in *. by rewrite Htmp in Hsrc. }
  apply outcome_bind_ret in H as ([ok w3] & H3 & [= -> <- <-]).
  destruct (digested_ok (laid_out ms ros fos t) datas (Forall2_length _ _ _ Hd') Hfk) as (Hzk & Hzd & Hzl).
  pose proof (head_length X r' t order ds _ Hds Hrk Hpad) as Hhl.
  pose proof (data_total X r _ _ (Hfdata _ Hd')) as Htot.
  destruct (write_etags_ok X r1 t order (zip_with digested (laid_out ms ros fos t) datas) w2 w3
    (encode_hdr X r' t ++ concat (encode_dedge <$> ds) ++ concat (redirect_bytes <$> laid_redirects ms ros fos t))
    (concat (file_bytes (r_mimes r') <$> laid_out ms ros fos t))
    (concat (m_type <$> ms) ++ concat (target <$> laid_redirects ms ros fos t) ++ concat datas)) as (Hok & Hfdx & Hcont);
    [by rewrite Htt|by rewrite Ho, Hrf|apply G2| | | | | |done|].
  - rewrite (gr_base _ _ _ G2), (gr_base _ _ _ G1). done.
  - rewrite (gr_acc _ _ _ G2), (gr_acc _ _ _ G1), Ha0. by rewrite <- !app_assoc.
  - rewrite (gr_done _ _ _ G2), (gr_done _ _ _ G1), length_app, Hhl, !length_app, (files_length _ _ Hfk Hfd), Hrt.
    unfold bytes_in, index_base in *. lia.
  - rewrite Hhl, Hnn, Hnr, (si_num_redirect _ _ _ _ Hs), Hrl. lia.
  - by rewrite !files_length, Hzl.
  - exists ds, datas. split_and!; [done|by apply Hfdata|done| |].
    { by rewrite Hfdx, (gr_fd _ _ _ G2), (gr_fd _ _ _ G1). }
    rewrite Hcont, Hmm. unfold webroot_image, index_image.
    by rewrite <- !app_assoc.
Qed.
