(* ===== verification/MkrootServe.v ===== *)
(** * From a directory to an answer: what mkroot writes, the server finds

    The file [webroot_write] leaves is opened by [webroot_open], and
    [webroot_find] answers every URI that was linked with the object it was
    linked to: a status code, the target of a redirect, or the media type, the
    bytes, the date and the digest of a file. *)

From stdpp Require Import sorting.
From S2P Require Import Prelude Os Fobuf Trie Webroot Sha1 Mkroot MkrootWrite MkrootLayout MkrootImage.
Local Open Scope Z_scope.

(** ** Slices *)

(** [len] bytes at [p] in the file are [s]. *)
Definition holds (file : list Z) (p len : Z) (s : list Z) : Prop :=
  0 <= p /\ len = Z.of_nat (length s) /\ take (Z.to_nat len) (drop (Z.to_nat p) file) = s.

Lemma holds_at file p s pre post : file = pre ++ s ++ post -> p = Z.of_nat (length pre) ->
  holds file p (Z.of_nat (length s)) s.
Proof. intros -> ->. split_and!; [lia|done|]. by rewrite !Nat2Z.id, drop_app_length, take_app_length. Qed.

Lemma concat_split {A} (f : A -> list Z) l i x : l !! i = Some x ->
  concat (f <$> l) = concat (f <$> take i l) ++ f x ++ concat (f <$> drop (S i) l).
Proof.
  intros Hi. rewrite <- (take_drop_middle l i x Hi) at 1. by rewrite fmap_app, concat_app, fmap_cons.
Qed.

Lemma slice_at {A} (f : A -> list Z) n l i x m off post : drop off m = concat (f <$> l) ++ post ->
  (forall y, y ∈ l -> length (f y) = n) -> l !! i = Some x -> exists post', drop (off + n * i) m = f x ++ post'.
Proof.
  intros Hm Hn Hi. rewrite <- drop_drop, Hm, (concat_split f l i x Hi), <- !app_assoc. eexists.
  rewrite drop_app_length'; [done|]. rewrite (concat_length_const f n).
  - rewrite length_take. apply lookup_lt_Some in Hi. lia.
  - intros y [k Hy]%list_elem_of_lookup_1. apply Hn. apply lookup_take_Some in Hy as [Hy _]. by eapply list_elem_of_lookup_2.
Qed.

(** The words of a header. *)
Lemma word_at zs pad j z : zs !! j = Some z -> 0 <= z < 2 ^ 32 ->
  le_val (take 4 (drop (4 * j) (concat (le_bytes 4 <$> zs) ++ pad))) = z.
Proof.
  intros Hj Hz. destruct (slice_at (le_bytes 4) 4 zs j z (concat (le_bytes 4 <$> zs) ++ pad) 0 pad) as [post E];
    [done|intros; apply length_le_bytes|done|].
  rewrite Nat.add_0_l in E. rewrite E, take_app_length' by done. by apply le_bytes_val.
Qed.

Lemma read_int_here m p n z c : drop p m = le_bytes n z ++ c -> (0 < n)%nat -> 0 <= z < 256 ^ Z.of_nat n ->
  read_int m p n = Ret z.
Proof. intros H Hn Hz. pose proof (read_int_at m p 0 [] n z c H eq_refl Hn Hz) as R. by rewrite Nat.add_0_r in R. Qed.

(** ** Places *)

Lemma place_mimes_lookup off ms i m : ms !! i = Some m ->
  place_mimes off ms !! i = Some (MimeType (m_type m) (off + bytes_in (m_type <$> take i ms))).
Proof.
  revert off i. induction ms as [|m0 ms IH]; intros off [|i] H; try done; cbn [place_mimes lookup list_lookup] in *.
  - injection H as ->. by rewrite Z.add_0_r.
  - etransitivity; [by apply IH|]. cbn [take]. rewrite fmap_cons, bytes_in_cons. do 2 f_equal. lia.
Qed.

Lemma place_redirects_lookup off os i o : os !! i = Some o ->
  place_redirects off os !! i = Some (place_redirect (off + bytes_in (target <$> take i os)) o).
Proof.
  revert off i. induction os as [|o0 os IH]; intros off [|i] H; try done; cbn [place_redirects lookup list_lookup] in *.
  - injection H as ->. by rewrite Z.add_0_r.
  - etransitivity; [by apply IH|]. cbn [take]. rewrite fmap_cons, bytes_in_cons. do 2 f_equal. lia.
Qed.

Lemma place_files_lookup off os i o : os !! i = Some o ->
  place_files off os !! i = Some (place_file (off + total_size (take i os)) o).
Proof.
  revert off i. induction os as [|o0 os IH]; intros off [|i] H; try done; cbn [place_files lookup list_lookup] in *.
  - injection H as ->. by rewrite Z.add_0_r.
  - etransitivity; [by apply IH|]. cbn [take total_size]. do 2 f_equal. lia.
Qed.

Lemma laid_redirect ms ros fos t i o u off code : ros !! i = Some o -> o_u o = OBJ_TYPE_REDIRECT u off code ->
  exists o', laid_redirects ms ros fos t !! i = Some o' /\ o_u o' = OBJ_TYPE_REDIRECT u
    (index_base ros fos t + bytes_in (m_type <$> ms) + bytes_in (target <$> take i ros)) code.
Proof.
  intros Hi Eo. pose proof (renumber_lookup 0 ros i o Hi) as Hn.
  eexists. split; [by apply place_redirects_lookup|]. unfold place_redirect. cbn [o_u]. rewrite Eo. cbn [o_u]. f_equal.
  f_equal. f_equal. clear. revert i. generalize 0. induction ros as [|o os IH]; intros k [|i]; try done. cbn. by rewrite IH.
Qed.

Lemma laid_file ms ros fos t i o f : fos !! i = Some o -> o_u o = OBJ_TYPE_FILE f ->
  exists o', laid_out ms ros fos t !! i = Some o' /\ o_u o' = OBJ_TYPE_FILE (with_off
    (index_base ros fos t + bytes_in (m_type <$> ms) + bytes_in (target <$> ros) + total_size (take i fos)) f).
Proof.
  intros Hi Eo. pose proof (renumber_lookup (Z.of_nat (length ros)) fos i o Hi) as Hn.
  eexists. split; [by apply place_files_lookup|]. unfold place_file. cbn [o_u]. rewrite Eo. cbn [o_u]. f_equal.
  f_equal. f_equal. clear. revert i. generalize (Z.of_nat (length ros)).
  induction fos as [|o os IH]; intros k [|i]; try done. cbn. by rewrite IH.
Qed.

(** ** The answer an object should give *)

Definition served (file : list Z) (X : wenv) (r : mkroot) (o : object) (n : webroot_name) : Prop :=
  match o_u o with
  | OBJ_TYPE_REDIRECT None _ code => n = NameCode (uint 32 code)
  | OBJ_TYPE_REDIRECT (Some s) _ _ =>
    exists p, n = NameMoved p (Z.of_nat (length s)) /\ holds file p (Z.of_nat (length s)) s
  | OBJ_TYPE_FILE f => exists d m mt mp ofs, file_data X r o d /\ f_type f = Some m /\ r_mimes r !! m = Some mt /\
      n = NameData mp (Z.of_nat (length (m_type mt))) ofs (Z.of_nat (length d)) (uint 32 (f_mtime f)) (sha1 d) /\
      holds file mp (Z.of_nat (length (m_type mt))) (m_type mt) /\ holds file ofs (Z.of_nat (length d)) d
  end.

(** ** Opening the image *)

Section image.
Context (X : wenv) (r r' : mkroot) (ms : list mime_type) (ros fos : list object) (t : trie) (order : list edge).
Context (ds : list trie_dedge) (datas : list (list Z)).
Context (Hs : site r ms ros fos) (Hp : prepped r r' ms ros fos t order).
Context (Hds : Forall2 (record_of order) order ds) (Hdata : Forall2 (file_data X r) fos datas).
Context (Hdg : Forall digest_ok fos) (Hpad : length (we_pad X) = 4%nat) (Hlen : length order = r_num_edges t).
Context (Hsz : index_base ros fos t + bytes_in (m_type <$> ms) + bytes_in (target <$> ros) < WEBROOT_INVALID_REDIRECT).
Context (Hne : (0 < length order)%nat) (Htotal : total_size fos < 2 ^ 62).

Definition the_redirects : list object := laid_redirects ms ros fos t.
Definition the_files : list object := zip_with digested (laid_out ms ros fos t) datas.
Definition the_index : list Z := index_image X r' t ds ms the_redirects (concat (file_bytes (r_mimes r') <$> the_files)).
Definition the_image : list Z := webroot_image X r' t ds ms the_redirects (laid_out ms ros fos t) datas.

Definition redir_off : nat := hdr_sz + dedge_sz * length order.
Definition file_off : nat := redir_off + redir_sz * length ros.
Definition strtab_off : nat := file_off + file_sz * length fos.

Definition the_webroot (fd : Z) : webroot :=
  Webroot fd 1 the_index (trie_num_edges t) (Z.of_nat (length ros)) (Z.of_nat (length ros + length fos))
    hdr_sz redir_off file_off strtab_off.

Lemma the_redirects_ok : Forall is_redirect the_redirects /\ target <$> the_redirects = target <$> ros /\
  length the_redirects = length ros.
Proof. by apply laid_redirects_ok, Hs. Qed.

Lemma the_files_ok : Forall is_file the_files /\ Forall digest_ok the_files /\ length the_files = length fos.
Proof.
  pose proof (laid_files (Z.of_nat (length ros)) (index_base ros fos t + bytes_in (m_type <$> ms) + bytes_in (target <$> ros))
    fos (si_are_files _ _ _ _ Hs)) as Hsame. fold (laid_out ms ros fos t) in Hsame.
  destruct (same_files_ok X r _ _ Hsame) as (Hl & Hk & _). rewrite <- Hl.
  apply digested_ok; [by rewrite Hl, (Forall2_length _ _ _ Hdata)|apply Hk, Hs].
Qed.

Lemma strtab_base : Z.of_nat strtab_off = index_base ros fos t.
Proof. unfold strtab_off, file_off, redir_off, index_base, trie_trie_size. rewrite Hlen. lia. Qed.

Lemma index_split : exists pre, length pre = strtab_off /\
  pre = encode_hdr X r' t ++ concat (encode_dedge <$> ds) ++ concat (redirect_bytes <$> the_redirects) ++
    concat (file_bytes (r_mimes r') <$> the_files) /\
  the_index = pre ++ concat (m_type <$> ms) ++ concat (target <$> ros).
Proof.
  destruct the_redirects_ok as (Hk & Ht & Hl). destruct the_files_ok as (Hfk & Hfd & Hfl).
  eexists. split; [|split; [reflexivity|]].
  - pose proof (head_length X r' t order ds _ Hds Hk Hpad) as Hh. rewrite !length_app in Hh. rewrite !length_app.
    pose proof (files_length (r_mimes r') _ Hfk Hfd) as Hff. rewrite Hfl in Hff. rewrite Hl in Hh.
    unfold strtab_off, file_off, redir_off in *. lia.
  - unfold the_index, index_image. by rewrite Ht, <- !app_assoc.
Qed.

Definition index_sz : Z := index_base ros fos t + bytes_in (m_type <$> ms) + bytes_in (target <$> ros).

Lemma index_length : Z.of_nat (length the_index) = index_sz.
Proof.
  destruct index_split as (pre & Hl & _ & ->). rewrite !length_app, Hl. unfold index_sz, bytes_in.
  rewrite <- strtab_base. lia.
Qed.

Lemma image_split : the_image = the_index ++ concat datas.
Proof. done. Qed.

Lemma base_bounds : 0 <= index_base ros fos t < 2 ^ 32 /\ 0 < Z.of_nat (length order) < 2 ^ 32 /\
  Z.of_nat (length ros) < 2 ^ 31 /\ Z.of_nat (length fos) < 2 ^ 31 /\ Z.of_nat (length ros + length fos) < 2 ^ 31.
Proof.
  pose proof (bytes_in_nonneg (m_type <$> ms)). pose proof (bytes_in_nonneg (target <$> ros)).
  unfold index_base, trie_trie_size, WEBROOT_INVALID_REDIRECT, hdr_sz, dedge_sz, redir_sz, file_sz in *. lia.
Qed.

Lemma the_header : encode_hdr X r' t = le_bytes 4 (trie_num_edges t) ++ le_bytes 4 (Z.of_nat (length ros)) ++
  le_bytes 4 (Z.of_nat (length fos)) ++ le_bytes 4 (bytes_in (m_type <$> ms) + bytes_in (target <$> ros)) ++
  le_bytes 4 WEBROOT_MAGIC ++ le_bytes 4 WEBROOT_CURRENT_VER ++ le_bytes 4 index_sz ++ we_pad X.
Proof.
  destruct Hp as [_ _ _ _ [Hnr Hnf] _ _ _ Hmt Hrt _]. destruct Hs as [_ _ _ _ _ _ _ Nr Nf _ _ _].
  pose proof base_bounds as Hb. pose proof (bytes_in_nonneg (m_type <$> ms)). pose proof (bytes_in_nonneg (target <$> ros)).
  unfold encode_hdr, index_sz. rewrite Hmt, Hrt, Hnr, Hnf, Nr, Nf.
  rewrite (index_size_base r' ros fos t) by (congruence || lia).
  unfold WEBROOT_INVALID_REDIRECT in *. unfold trie_num_edges. rewrite <- Hlen. rewrite !uint_small by lia. done.
Qed.

Definition the_words : list Z :=
  [trie_num_edges t; Z.of_nat (length ros); Z.of_nat (length fos); bytes_in (m_type <$> ms) + bytes_in (target <$> ros);
   WEBROOT_MAGIC; WEBROOT_CURRENT_VER; index_sz].

Lemma header_words : encode_hdr X r' t = concat (le_bytes 4 <$> the_words) ++ we_pad X.
Proof. rewrite the_header. unfold the_words. cbn [fmap list_fmap concat]. by rewrite <- !app_assoc, app_nil_l. Qed.

Lemma header_field j z : the_words !! j = Some z -> 0 <= z < 2 ^ 32 ->
  le_val (take 4 (drop (4 * j) (encode_hdr X r' t))) = z.
Proof. rewrite header_words. apply word_at. Qed.

Lemma read_header ios polls ok hdr eof ios' polls' : fd_read ios polls the_image hdr_sz = Ret (ok, hdr, eof, ios', polls') ->
  ok = true -> eof = false /\ hdr = encode_hdr X r' t.
Proof.
  intros H ->. apply read_loop_spec in H as (x & -> & Hpre & Hl & Hb); [|unfold hdr_sz; lia].
  assert (length (encode_hdr X r' t) = hdr_sz) as Hh.
  { unfold encode_hdr. autorewrite with lengths. by rewrite Hpad. }
  destruct index_split as (pre & Hlp & -> & Hi).
  assert (exists rest, the_image = encode_hdr X r' t ++ rest) as [rest E].
  { rewrite image_split, Hi, <- !app_assoc. by eexists. }
  destruct (Hb eq_refl) as [[Hx ->]|[-> ->]].
  - split; [done|]. destruct Hpre as [u Hu]. rewrite E in Hu. cbn [app]. by apply app_inj_1 in Hu as [-> _]; [|lia].
  - exfalso. rewrite image_split, length_app in Hl. rewrite Hi, length_app, Hlp in Hl.
    unfold strtab_off, file_off, redir_off, dedge_sz in Hl. lia.
Qed.

Lemma map_index : map_webroot true true the_image index_sz = Some the_index.
Proof.
  unfold map_webroot. cbn [negb]. rewrite image_split, length_app.
  rewrite (proj2 (Z.ltb_ge _ _)) by (rewrite <- index_length; lia).
  by rewrite <- index_length, Nat2Z.id, take_app_length.
Qed.

Lemma layout_index fd : layout fd the_index (encode_hdr X r' t) = Some (the_webroot fd).
Proof.
  pose proof base_bounds as (H1 & H2 & H3 & H4 & H5).
  pose proof (bytes_in_nonneg (m_type <$> ms)). pose proof (bytes_in_nonneg (target <$> ros)).
  unfold layout. unfold WEBROOT_INVALID_REDIRECT in Hsz.
  pose proof (header_field 0 (trie_num_edges t) eq_refl) as E0. pose proof (header_field 1 _ eq_refl) as E1.
  pose proof (header_field 2 _ eq_refl) as E2. pose proof (header_field 3 _ eq_refl) as E3.
  change (4 * 0)%nat with 0%nat in E0. rewrite drop_0 in E0. change (4 * 1)%nat with 4%nat in E1.
  change (4 * 2)%nat with 8%nat in E2. change (4 * 3)%nat with 12%nat in E3.
  unfold trie_num_edges in *. rewrite E0, E1, E2, E3 by lia. rewrite !Nat2Z.id, <- Hlen.
  fold redir_off file_off strtab_off. rewrite (proj2 (Nat.ltb_ge _ _)).
  - unfold the_webroot, trie_num_edges. rewrite <- Hlen, uint_small by lia. do 2 f_equal. lia.
  - apply Nat2Z.inj_le. rewrite Nat2Z.inj_add, strtab_base, index_length. unfold index_sz. lia.
Qed.

Lemma image_opens fd ios polls : 0 <= fd ->
  match fd_read ios polls the_image hdr_sz with
  | Ret (true, _, _, _, _) => webroot_open true fd ios polls true true the_image = Ret (Some (the_webroot fd))
  | Ret (false, _, _, _, _) => webroot_open true fd ios polls true true the_image = Ret None
  | Fault f => f = Blocked
  end.
Proof.
  intros Hfd. unfold webroot_open. cbn [negb]. rewrite (proj2 (Z.ltb_ge _ _)) by done.
  destruct (fd_read ios polls the_image hdr_sz) as [[[[[[] hdr] eof] ios'] polls']|f] eqn:E; [|done|by eapply read_loop_fault].
  destruct (read_header _ _ _ _ _ _ _ E eq_refl) as [-> ->]. run.
  assert (length (encode_hdr X r' t) = hdr_sz) as ->.
  { unfold encode_hdr. autorewrite with lengths. by rewrite Hpad. }
  pose proof (bytes_in_nonneg (m_type <$> ms)). pose proof (bytes_in_nonneg (target <$> ros)).
  pose proof base_bounds as (H1 & _). unfold WEBROOT_INVALID_REDIRECT in Hsz.
  pose proof (header_field 4 WEBROOT_MAGIC eq_refl ltac:(done)) as E4. change (4 * 4)%nat with 16%nat in E4.
  pose proof (header_field 5 WEBROOT_CURRENT_VER eq_refl ltac:(done)) as E5. change (4 * 5)%nat with 20%nat in E5.
  pose proof (header_field 6 index_sz eq_refl ltac:(unfold index_sz; lia)) as E6. change (4 * 6)%nat with 24%nat in E6.
  rewrite E4, E5, E6.
  rewrite !Z.eqb_refl, map_index, layout_index. done.
Qed.

(** ** Looking objects up *)

Lemma index_at_redirects : exists post, drop redir_off the_index = concat (redirect_bytes <$> the_redirects) ++ post.
Proof.
  destruct the_redirects_ok as (Hk & _). pose proof (head_length X r' t order ds [] Hds (List.Forall_nil _) Hpad) as Hh.
  cbn [fmap list_fmap concat length] in Hh. rewrite app_nil_r, Nat.mul_0_r, Nat.add_0_r in Hh.
  unfold the_index, index_image. rewrite (app_assoc (encode_hdr X r' t)). rewrite drop_app_length' by done. by eexists.
Qed.

Lemma index_at_files : exists post, drop file_off the_index = concat (file_bytes (r_mimes r') <$> the_files) ++ post.
Proof.
  destruct the_redirects_ok as (Hk & _ & Hl). unfold file_off. rewrite <- drop_drop. unfold the_index, index_image.
  pose proof (head_length X r' t order ds [] Hds (List.Forall_nil _) Hpad) as Hh.
  cbn [fmap list_fmap concat length] in Hh. rewrite app_nil_r, Nat.mul_0_r, Nat.add_0_r in Hh.
  rewrite (app_assoc (encode_hdr X r' t)). rewrite drop_app_length' by done.
  rewrite drop_app_length' by (by rewrite (redirects_length _ Hk), Hl). by eexists.
Qed.

Lemma bytes_in_take {A} (f : A -> list Z) i l x : l !! i = Some x ->
  bytes_in (f <$> take i l) + Z.of_nat (length (f x)) <= bytes_in (f <$> l).
Proof. intros Hi. unfold bytes_in. rewrite (concat_split f l i x Hi), !length_app. lia. Qed.

Lemma redirect_string i o : ros !! i = Some o ->
  holds the_image (index_base ros fos t + bytes_in (m_type <$> ms) + bytes_in (target <$> take i ros))
    (Z.of_nat (length (target o))) (target o).
Proof.
  intros Hi. destruct index_split as (pre & Hl & _ & E). rewrite image_split, E, (concat_split target ros i o Hi).
  eapply (holds_at _ _ _ (pre ++ concat (m_type <$> ms) ++ concat (target <$> take i ros))).
  - by rewrite <- !app_assoc.
  - rewrite !length_app, Hl, <- strtab_base. unfold bytes_in. lia.
Qed.

Lemma mime_string j m : ms !! j = Some m ->
  holds the_image (index_base ros fos t + bytes_in (m_type <$> take j ms)) (Z.of_nat (length (m_type m))) (m_type m).
Proof.
  intros Hj. destruct index_split as (pre & Hl & _ & E). rewrite image_split, E, (concat_split m_type ms j m Hj).
  eapply (holds_at _ _ _ (pre ++ concat (m_type <$> take j ms))).
  - by rewrite <- !app_assoc.
  - rewrite !length_app, Hl, <- strtab_base. unfold bytes_in. lia.
Qed.

Lemma data_string i d : datas !! i = Some d -> holds the_image
  (index_base ros fos t + bytes_in (m_type <$> ms) + bytes_in (target <$> ros) + total_size (take i fos))
  (Z.of_nat (length d)) d.
Proof.
  intros Hi. assert (bytes_in (take i datas) = total_size (take i fos)) as Ht.
  { apply (data_total X r). by apply Forall2_take. }
  assert (concat datas = concat (take i datas) ++ d ++ concat (drop (S i) datas)) as Ec.
  { pose proof (concat_split id datas i d Hi) as Hc. by rewrite !list_fmap_id in Hc. }
  rewrite image_split, Ec. eapply (holds_at _ _ _ (the_index ++ concat (take i datas))).
  - by rewrite <- !app_assoc.
  - rewrite length_app, Nat2Z.inj_add, index_length. unfold index_sz. fold (bytes_in (take i datas)). by rewrite Ht.
Qed.

Lemma find_redirect fd i o u off code : ros !! i = Some o -> o_u o = OBJ_TYPE_REDIRECT u off code ->
  exists n, read_redirect (the_webroot fd) i = Ret n /\
    match u with
    | Some s => exists p, n = NameMoved p (Z.of_nat (length s)) /\ holds the_image p (Z.of_nat (length s)) s
    | None => n = NameCode (uint 32 code)
    end.
Proof.
  intros Hi Eo. destruct (laid_redirect ms ros fos t i o u off code Hi Eo) as (o' & Hi' & Eo').
  pose proof (bytes_in_take target i ros o Hi) as Hbt. pose proof (redirect_string i o Hi) as Hstr.
  assert (target o = default [] u) as Et by (unfold target; by rewrite Eo). rewrite Et in *.
  set (p := index_base ros fos t + bytes_in (m_type <$> ms) + bytes_in (target <$> take i ros)) in *.
  pose proof base_bounds as (H1 & _). pose proof (bytes_in_nonneg (m_type <$> ms)).
  pose proof (bytes_in_nonneg (target <$> take i ros)). unfold WEBROOT_INVALID_REDIRECT in Hsz.
  destruct index_at_redirects as [post Hd]. destruct the_redirects_ok as (Hk & _).
  destruct (slice_at redirect_bytes redir_sz the_redirects i o' the_index redir_off post Hd) as [post' Hr]; [|done|].
  { intros y Hy. rewrite Forall_forall in Hk. destruct (Hk y Hy) as (u' & off' & code' & E). unfold redirect_bytes.
    rewrite E. by destruct u'. }
  unfold redirect_bytes in Hr. rewrite Eo' in Hr. unfold read_redirect. cbn [r_map r_redir the_webroot].
  set (q := (redir_off + redir_sz * i)%nat) in *. destruct u as [s|]; cbn [encode_redirect default from_option id] in *.
  - rewrite (uint_small 32 p), (uint_small 32 (Z.of_nat (length s))), <- app_assoc in Hr by lia.
    rewrite (read_int_here _ q 4 p _ Hr), (read_int_at _ q 4 (le_bytes 4 p) 4 _ _ Hr) by (done || lia). run.
    rewrite (proj2 (Z.eqb_neq p _)) by (unfold WEBROOT_INVALID_REDIRECT; lia). eauto.
  - rewrite <- app_assoc in Hr.
    rewrite (read_int_here _ q 4 _ _ Hr), (read_int_at _ q 4 (le_bytes 4 WEBROOT_INVALID_REDIRECT) 4 _ _ Hr)
      by (done || lia || by apply (uint_bound 32)). run. eauto.
Qed.

(** The object of a file with its place and digest, and its media type. *)
Lemma file_record i o f d m : fos !! i = Some o -> o_u o = OBJ_TYPE_FILE f -> datas !! i = Some d -> f_type f = Some m ->
  m ∈ r_mime_type r -> exists mt mp, r_mimes r !! m = Some mt /\ 0 <= mp < 2 ^ 32 /\ Z.of_nat (length (m_type mt)) < 2 ^ 32 /\
    holds the_image mp (Z.of_nat (length (m_type mt))) (m_type mt) /\
    exists o', the_files !! i = Some o' /\ file_bytes (r_mimes r') o' =
      encode_file (with_digest (sha1 d) (with_off (index_base ros fos t + bytes_in (m_type <$> ms) +
        bytes_in (target <$> ros) + total_size (take i fos)) f)) (MimeType (m_type mt) mp).
Proof.
  intros Hi Eo Hd Hty Hm. pose proof (pos_lookup _ _ Hm) as Hpos.
  destruct (Forall2_lookup_l _ _ _ _ _ (si_mimes _ _ _ _ Hs) Hpos) as (mt & Hj & Hmt).
  pose proof (place_mimes_lookup (index_base ros fos t) ms _ mt Hj) as Hpl.
  destruct (pr_lists _ _ _ _ _ _ _ Hp) as (_ & _ & Elm).
  pose proof (pr_mimes _ _ _ _ _ _ _ Hp) as Hat. rewrite Elm in Hat.
  pose proof (at_addrs_lookup _ _ _ _ _ Hat Hpos) as Hmt'. rewrite Hpl in Hmt'.
  pose proof (mime_string _ mt Hj) as Hstr. pose proof (bytes_in_take m_type _ ms mt Hj) as Hbt.
  pose proof base_bounds as (H1 & _). pose proof (bytes_in_nonneg (target <$> ros)).
  pose proof (bytes_in_nonneg (m_type <$> take (pos (r_mime_type r) m) ms)). unfold WEBROOT_INVALID_REDIRECT in Hsz.
  exists mt, (index_base ros fos t + bytes_in (m_type <$> take (pos (r_mime_type r) m) ms)).
  split_and!; [done|lia|lia|lia|done|]. destruct (laid_file ms ros fos t i o f Hi Eo) as (o' & Hi' & Eo').
  exists (digested o' d). split.
  - unfold the_files. rewrite lookup_zip_with, Hi', Hd. done.
  - unfold digested, file_bytes. rewrite Eo'. cbn [o_u with_digest with_off f_type]. rewrite Hty. cbn [mbind option_bind]. by rewrite Hmt'.
Qed.
Lemma total_size_split i o os : Forall is_file os -> os !! i = Some o ->
  0 <= total_size (take i os) /\ 0 <= size_of o /\ total_size (take i os) + size_of o <= total_size os.
Proof.
  intros H. revert i. induction H as [|o0 os (f0 & E0 & H0) H IH]; intros [|i] Hi; try done; cbn [take total_size lookup list_lookup] in *.
  - injection Hi as <-. pose proof (total_size_nonneg os H). unfold size_of. rewrite E0. lia.
  - destruct (IH i Hi) as (? & ? & ?). assert (size_of o0 = f_size f0) by (unfold size_of; by rewrite E0). lia.
Qed.

Lemma find_file_at fd i o f d m : fos !! i = Some o -> o_u o = OBJ_TYPE_FILE f -> datas !! i = Some d -> f_type f = Some m ->
  m ∈ r_mime_type r -> exists mt mp ofs, r_mimes r !! m = Some mt /\
    read_file (the_webroot fd) i =
      Ret (NameData mp (Z.of_nat (length (m_type mt))) ofs (Z.of_nat (length d)) (uint 32 (f_mtime f)) (sha1 d)) /\
    holds the_image mp (Z.of_nat (length (m_type mt))) (m_type mt) /\ holds the_image ofs (Z.of_nat (length d)) d.
Proof.
  intros Hi Eo Hd Hty Hm. destruct (file_record i o f d m Hi Eo Hd Hty Hm) as (mt & mp & Hmt & Hmp & Hml & Hstr & o' & Ho' & Eb).
  pose proof (data_string i d Hd) as Hdat. pose proof (total_size_split i o fos (si_are_files _ _ _ _ Hs) Hi) as (T1 & T2 & T3).
  assert (Z.of_nat (length d) = f_size f) as Hsize.
  { destruct (Forall2_lookup_lr _ _ _ _ _ _ Hdata Hi Hd) as (f1 & src & E1 & _ & _ & E2). congruence. }
  assert (size_of o = f_size f) as Hso by (unfold size_of; by rewrite Eo).
  pose proof base_bounds as (H1 & _). pose proof (bytes_in_nonneg (target <$> ros)).
  pose proof (bytes_in_nonneg (m_type <$> ms)). unfold WEBROOT_INVALID_REDIRECT in Hsz.
  set (ofs := index_base ros fos t + bytes_in (m_type <$> ms) + bytes_in (target <$> ros) + total_size (take i fos)) in *.
  assert (0 <= ofs < 2 ^ 63) as Hofs by (subst ofs; lia). clearbody ofs.
  exists mt, mp, ofs. split_and!; [done| |done|done].
  destruct index_at_files as [post Hpost]. destruct the_files_ok as (Hk & Hdk & _).
  destruct (slice_at (file_bytes (r_mimes r')) file_sz the_files i o' the_index file_off post Hpost) as [post' Hr]; [|done|].
  { intros y Hy. pose proof (files_length (r_mimes r') [y]) as Hy'. cbn in Hy'. rewrite app_nil_r in Hy'. apply Hy'.
    - constructor; [|done]. by eapply Forall_forall.
    - constructor; [|done]. by eapply Forall_forall. }
  rewrite Eb in Hr. unfold encode_file in Hr. cbn [f_off f_size m_strtab_off m_type f_mtime f_digest with_digest with_off] in Hr.
  rewrite <- Hsize, (uint_small 32 (Z.of_nat (length (m_type mt)))), <- !app_assoc in Hr by lia.
  unfold read_file. cbn [r_map Webroot.r_file the_webroot]. set (q := (file_off + file_sz * i)%nat) in *.
  pose proof (uint_bound 32 (f_mtime f)) as Hmtime.
  rewrite (read_int_here _ q 8 ofs _ Hr) by lia. run.
  rewrite (read_int_at _ q 8 (le_bytes 8 ofs) 8 _ _ Hr) by (done || lia). run.
  rewrite (app_assoc (le_bytes 8 ofs)) in Hr.
  rewrite (read_int_at _ q 16 (le_bytes 8 ofs ++ le_bytes 8 (Z.of_nat (length d))) 4 _ _ Hr) by (done || lia). run.
  rewrite (app_assoc (le_bytes 8 ofs ++ _)) in Hr.
  rewrite (read_int_at _ q 20 _ 4 _ _ Hr) by (done || lia). run.
  rewrite (app_assoc (_ ++ le_bytes 4 mp)) in Hr.
  rewrite (read_int_at _ q 24 _ 4 _ _ Hr) by (done || lia || by apply Hmtime). run.
  rewrite (app_assoc (_ ++ le_bytes 4 (Z.of_nat (length (m_type mt))))) in Hr.
  pose proof (read_at _ q _ (sha1 d) _ Hr) as Hread. rewrite !length_app, !length_le_bytes, sha1_length in Hread.
  change (8 + 8 + 4 + 4 + 4)%nat with 28%nat in Hread. change ETAG_SZ with 20%nat. rewrite Hread by lia. run.
  do 2 f_equal. unfold sint. rewrite uint_small by lia. by rewrite (proj2 (Z.ltb_lt _ _)) by lia.
Qed.
Lemma index_at_trie : exists post, drop hdr_sz the_index = concat (encode_dedge <$> ds) ++ post.
Proof.
  unfold the_index, index_image. rewrite drop_app_length'; [by eexists|]. unfold encode_hdr.
  autorewrite with lengths. by rewrite Hpad.
Qed.

Lemma find_object fd i a o : (r_redirect r ++ r_file r) !! i = Some a -> r_objs r !! a = Some o ->
  exists n, (if Z.of_nat i <? Z.of_nat (length ros) then n ← read_redirect (the_webroot fd) i; Ret (Some n)
     else n ← read_file (the_webroot fd) (i - length ros); Ret (Some n)) = Ret (Some n) /\
    served the_image X r o n.
Proof.
  intros Hi Ha. pose proof (at_addrs_length _ _ _ (si_redirects _ _ _ _ Hs)) as Hlr.
  pose proof (Forall2_app (si_redirects _ _ _ _ Hs) (si_files _ _ _ _ Hs)) as Hall.
  pose proof (at_addrs_lookup _ _ _ _ _ Hall Hi) as Ho. rewrite Ha in Ho. symmetry in Ho.
  destruct (Z.ltb_spec (Z.of_nat i) (Z.of_nat (length ros))).
  - rewrite lookup_app_l in Ho by lia. pose proof (si_are_redirects _ _ _ _ Hs) as Hk. rewrite Forall_lookup in Hk.
    destruct (Hk i o Ho) as (u & off & code & Eo). destruct (find_redirect fd i o u off code Ho Eo) as (n & -> & Hn). run.
    exists n. split; [done|]. unfold served. rewrite Eo. by destruct u.
  - rewrite lookup_app_r in Ho by lia. pose proof (si_types _ _ _ _ Hs) as Hk. rewrite Forall_lookup in Hk.
    destruct (Hk _ o Ho) as (f & m & Eo & Hty & Hm).
    destruct (Forall2_lookup_l _ _ _ _ _ Hdata Ho) as (d & Hd & Hfd).
    destruct (find_file_at fd _ o f d m Ho Eo Hd Hty Hm) as (mt & mp & ofs & Hmt & -> & H1 & H2). run.
    eexists. split; [done|]. unfold served. rewrite Eo. exists d, m, mt, mp, ofs. done.
Qed.

Lemma image_finds ta root fd s mem : r_uri r <> [] -> uris_ok (r_uri r) -> (forall i, ta i = true) ->
  trie_new ta true true (Some (site_entries r)) = Ret (Some (t, Some root, order)) ->
  Z.of_nat (length s) < 2 ^ 64 -> string_mem mem s ->
  let result := webroot_find (S (S (length s))) (the_webroot fd) mem (Z.of_nat (length s)) in
  (forall u o, u ∈ r_uri r -> uri_str u = s -> r_objs r !! u_obj u = Some o ->
     exists n, result = Ret (Some n) /\ served the_image X r o n) /\
  (s ∉ uri_str <$> r_uri r -> result = Ret None).
Proof.
  intros Hu Huo Hta Hn H64 Hmem result. destruct index_at_trie as [post Hpost].
  assert (site_entries r <> []) as Hv.
  { unfold site_entries. intros E0%fmap_nil_inv. apply Hu, Permutation_nil_r. rewrite <- E0. by rewrite merge_sort_Permutation. }
  pose proof base_bounds as (_ & Hord & _ & _ & Hcnt).
  destruct (index_answers ta (site_entries r) t root order ds the_index hdr_sz post s mem Hv Hta
    (entries_input _ _ Huo) Hn Hds Hpost ltac:(lia) H64 Hmem) as [Hyes Hno].
  assert (merge_sort ucmp_le (r_uri r) ≡ₚ r_uri r) as Hperm by apply merge_sort_Permutation.
  unfold result, webroot_find. cbn [r_map Webroot.r_trie wr_num_edges r_num_oid Webroot.r_num_redirect the_webroot]. split.
  - intros u o Hin Es Ho. pose proof (si_linked _ _ _ _ Hs) as Hl. rewrite Forall_forall in Hl.
    destruct (Hl u Hin) as [_ Ha]. pose proof (pos_lookup _ _ Ha) as Hpos. set (i := pos _ _) in *.
    rewrite (Hyes (TrieEntry s (Z.of_nat i))); [| |done].
    2: { apply list_elem_of_fmap. exists u. rewrite Es. split; [done|]. by rewrite Hperm. }
    cbn [t_oid]. pose proof (lookup_lt_Some _ _ _ Hpos) as Hlt.
    rewrite length_app, (at_addrs_length _ _ _ (si_redirects _ _ _ _ Hs)), (at_addrs_length _ _ _ (si_files _ _ _ _ Hs)) in Hlt.
    rewrite uint_small by lia. run. rewrite (proj2 (Z.eqb_neq _ _)) by (unfold GIDX_INVALID_OID; lia).
    rewrite (proj2 (Z.ltb_lt (Z.of_nat i) (Z.of_nat (length ros + length fos)))) by lia. run.
    rewrite Nat2Z.id. replace (Z.to_nat (Z.of_nat i - Z.of_nat (length ros))) with (i - length ros)%nat by lia.
    by eapply find_object.
  - intros Hni. rewrite Hno; [done|]. unfold site_entries. rewrite <- list_fmap_compose. intros Hin. apply Hni.
    apply list_elem_of_fmap in Hin as (u & -> & Hin). apply list_elem_of_fmap. exists u. split; [done|]. by rewrite <- Hperm.
Qed.
End image.
