(* ===== verification/MkrootScan.v ===== *)
(** * What a scan finds

    [scan_item] is proved against two statements: the state it leaves is well
    formed, so that [webroot_prep] can lay it out, and every path of the tree is
    linked to the object it should be. The proofs go through a weakest
    precondition for the monad of [Mkroot], with one rule for each operation. *)

From S2P Require Import Prelude Os Fobuf Trie Sha1 Mkroot MkrootWrite MkrootLayout MkrootImage.
Local Open Scope Z_scope.

(** ** Weakest preconditions *)

Definition wp {A} (e : M A) (Q : A -> mkroot -> Prop) (r : mkroot) : Prop := forall a r', e r = Ret (a, r') -> Q a r'.

(** Only success matters. *)
Definition some {A} (Q : A -> mkroot -> Prop) (o : option A) (r : mkroot) : Prop := forall x, o = Some x -> Q x r.
Definition ok (Q : mkroot -> Prop) (b : bool) (r : mkroot) : Prop := b = true -> Q r.

Lemma wp_ret {A} (a : A) Q r : Q a r -> wp (mret a) Q r.
Proof. by intros H a' r' [= <- <-]. Qed.

Lemma wp_bind {A B} (e : M A) (f : A -> M B) Q r : wp e (fun a => wp (f a) Q) r -> wp (e ≫= f) Q r.
Proof. intros H b r' ([a r1] & He & Hf)%outcome_bind_ret. by apply (H a r1 He). Qed.

Lemma wp_mono {A} (e : M A) (Q Q' : A -> mkroot -> Prop) r : wp e Q r -> (forall a r', Q a r' -> Q' a r') -> wp e Q' r.
Proof. intros H HQ a r' He. by apply HQ, H. Qed.

Lemma wp_get Q r : Q r r -> wp get Q r.
Proof. by intros H a r' [= <- <-]. Qed.
Lemma wp_put (Q : unit -> mkroot -> Prop) r r' : Q tt r' -> wp (put_st r') Q r.
Proof. by intros H [] r1 [= <-]. Qed.
Lemma wp_modify (Q : unit -> mkroot -> Prop) g r : Q tt (g r) -> wp (modify g) Q r.
Proof. by intros H [] r1 [= <-]. Qed.
Lemma wp_lift {A} (o : outcome A) Q r : (forall a, o = Ret a -> Q a r) -> wp (lift o) Q r.
Proof. intros H a r' (a1 & E & [= <- <-])%outcome_bind_ret. by apply H. Qed.

Lemma wp_some {A B} (e : M (option A)) (k : A -> M (option B)) Q r :
  wp e (some (fun x => wp (k x) (some Q))) r -> wp (x ←? e; k x) (some Q) r.
Proof. intros H. apply wp_bind. eapply wp_mono; [exact H|]. intros [x|] r' Hx; [by apply Hx|by apply wp_ret]. Qed.

Lemma wp_ok {A} (e : M (option A)) (k : A -> M bool) Q r :
  wp e (some (fun x => wp (k x) (ok Q))) r -> wp (x ←! e; k x) (ok Q) r.
Proof. intros H. apply wp_bind. eapply wp_mono; [exact H|]. intros [x|] r' Hx; [by apply Hx|by apply wp_ret]. Qed.

Lemma wp_none {A} (Q : A -> mkroot -> Prop) r : wp (mret None) (some Q) r.
Proof. by apply wp_ret. Qed.
Lemma wp_false Q r : wp (mret false) (ok Q) r.
Proof. by apply wp_ret. Qed.

Create HintDb scan.
#[export] Hint Resolve wp_none wp_false : scan.

(** ** Well-formed states *)

Definition file_ok (r : mkroot) (hole : option nat) (a : nat) : Prop := exists oid f,
  r_objs r !! a = Some (Obj oid (OBJ_TYPE_FILE f)) /\ 0 <= f_size f /\ length (f_digest f) = 20%nat /\
  (hole <> Some a -> exists m, f_type f = Some m /\ m ∈ r_mime_type r).

(** The file at [hole], if any, has no media type yet. *)
Record scan_ok (hole : option nat) (r : mkroot) : Prop := {
  so_mimes : forall a, a ∈ r_mime_type r -> is_Some (r_mimes r !! a);
  so_mime_nodup : NoDup (r_mime_type r);
  so_redirects : forall a, a ∈ r_redirect r -> exists o, r_objs r !! a = Some o /\ is_redirect o;
  so_files : forall a, a ∈ r_file r -> file_ok r hole a;
  so_nodup : NoDup (r_redirect r ++ r_file r);
  so_num_redirect : r_num_redirect r = uint 32 (Z.of_nat (length (r_redirect r)));
  so_num_file : r_num_file r = uint 32 (Z.of_nat (length (r_file r)));
  so_num_uri : r_num_uri r = uint 32 (Z.of_nat (length (r_uri r)));
  so_linked : Forall (fun u => is_Some (u_uri u) /\ u_obj u ∈ r_redirect r ++ r_file r) (r_uri r);
  so_lists : forall a, a ∈ r_redirect r ++ r_file r -> is_Some (r_objs r !! a);
  so_objs : forall a, is_Some (r_objs r !! a) -> (a < r_next r)%nat;
  so_mime_keys : forall a, is_Some (r_mimes r !! a) -> (a < r_next r)%nat;
  so_tmp : forall s, r_tmpchunks r = Some s -> sink_ok s /\ bytes_ok (accepted s);
  so_mimetab : r_mimetab_sz r = 0;
}.

(** Objects that stay what they are: a file keeps its identity. *)
Definition same_ident (o o' : object) : Prop :=
  match o_u o, o_u o' with
  | OBJ_TYPE_FILE f, OBJ_TYPE_FILE f' => f_dev f' = f_dev f /\ f_ino f' = f_ino f
  | OBJ_TYPE_REDIRECT u _ c, OBJ_TYPE_REDIRECT u' _ c' => u' = u /\ c' = c
  | _, _ => False
  end.

#[export] Instance same_ident_preorder : PreOrder same_ident.
Proof.
  split.
  - intros o. unfold same_ident. by destruct (o_u o).
  - intros o1 o2 o3. unfold same_ident. destruct (o_u o1), (o_u o2), (o_u o3); naive_solver congruence.
Qed.

Record ext (r r' : mkroot) : Prop := {
  ex_uri : r_uri r `prefix_of` r_uri r';
  ex_objs : forall a o, r_objs r !! a = Some o -> exists o', r_objs r' !! a = Some o' /\ same_ident o o';
  ex_lists : forall a, (a ∈ r_redirect r -> a ∈ r_redirect r') /\ (a ∈ r_file r -> a ∈ r_file r') /\
    (a ∈ r_mime_type r -> a ∈ r_mime_type r');
  ex_base : r_base r' = r_base r;
}.

#[export] Instance ext_preorder : PreOrder ext.
Proof.
  split.
  - intros r. split; [done| |done|done]. intros a o Ho. by exists o.
  - intros r1 r2 r3 [U1 O1 L1 B1] [U2 O2 L2 B2]. split.
    + by etrans.
    + intros a o Ho. destruct (O1 a o Ho) as (o2 & Ho2 & Hs2). destruct (O2 a o2 Ho2) as (o3 & Ho3 & Hs3).
      exists o3. split; [done|]. by etrans.
    + intros a. destruct (L1 a) as (? & ? & ?). destruct (L2 a) as (? & ? & ?). auto.
    + congruence.
Qed.

(** A step of the scan. *)
Definition step (r : mkroot) (h : option nat) (r' : mkroot) : Prop := scan_ok h r' /\ ext r r'.

Lemma step_refl h r : scan_ok h r -> step r h r.
Proof. by split. Qed.

Lemma step_trans r r1 r2 h1 h2 : step r h1 r1 -> step r1 h2 r2 -> step r h2 r2.
Proof. intros [_ E1] [O2 E2]. split; [done|by etrans]. Qed.

Lemma step_weaken r r' h : step r None r' -> step r h r'.
Proof.
  intros [O E]. split; [|done]. destruct O as [O1 O2 O3 O4 O5 O6 O7 O8 O9 O10 O11 O12 O13 O14]. split; try done.
  intros a Ha. destruct (O4 a Ha) as (oid & f & H1 & H2 & H3 & H4). exists oid, f. split_and!; auto.
Qed.

Lemma step_allocs r h n : scan_ok h r -> step r h (with_allocs r n).
Proof. intros O. split; [by destruct O|]. by split; [|intros a o Ho; exists o| |]. Qed.

(** ** The operations *)

(** How [path_splice] joins two paths. *)
Definition splice (dir path : list Z) : list Z :=
  if ends_slash dir || starts_slash path then dir ++ path else dir ++ [47] ++ path.

Section ops.
Context (E : env) (Halloc : forall i, e_alloc E i = true).

Lemma wp_galloc Q r : Q true (with_allocs r (S (r_allocs r))) -> wp (galloc E) Q r.
Proof. intros HQ a r' H. injection H as <- <-. by rewrite Halloc. Qed.

Lemma wp_splice dir p Q r : Q (Some (splice dir p)) (with_allocs r (S (r_allocs r))) -> wp (path_splice E dir (Some p)) Q r.
Proof.
  intros HQ. apply wp_bind, wp_galloc. cbn [negb default from_option id]. unfold splice in HQ.
  destruct (ends_slash dir); [by apply wp_ret|]. apply wp_bind, wp_lift. intros _ [= <-].
  destruct (starts_slash p); by apply wp_ret.
Qed.

Lemma wp_lookup p Q r : Q (Some (splice (r_base r) p)) (with_allocs r (S (r_allocs r))) -> wp (webroot_lookup E (Some p)) Q r.
Proof. intros HQ. by apply wp_bind, wp_get, wp_splice. Qed.

Lemma wp_strdup s Q r : Q (Some s) (with_allocs r (S (r_allocs r))) -> wp (webroot_strdup E s) Q r.
Proof. intros HQ. by apply wp_bind, wp_galloc, wp_ret. Qed.

(** Objects that are in no list yet. *)
Lemma step_new_object r h o : scan_ok h r ->
  step r h (with_next (with_objs r (<[r_next r := o]> (r_objs r))) (S (r_next r))).
Proof.
  intros O. assert (forall a x, r_objs r !! a = Some x -> <[r_next r := o]> (r_objs r) !! a = Some x) as Hkeep.
  { intros a x Hx. rewrite lookup_insert_ne; [done|]. intros <-.
    pose proof (so_objs _ _ O (r_next r) ltac:(by eexists)). lia. }
  split.
  - destruct O as [O1 O2 O3 O4 O5 O6 O7 O8 O9 O10 O11 O12 O13 O14].
    split; cbn [r_mimes r_mime_type r_redirect r_objs r_file r_num_redirect r_num_file r_num_uri r_uri r_next
      r_tmpchunks r_mimetab_sz with_next with_objs]; try done.
    + intros a Ha. destruct (O3 a Ha) as (x & Hx & ?). eauto.
    + intros a Ha. destruct (O4 a Ha) as (oid & f & Hx & ?). exists oid, f. split; [by apply Hkeep|done].
    + intros a Ha. destruct (O10 a Ha) as [x Hx]. rewrite (Hkeep a x Hx). by eexists.
    + intros a [<-|[_ [x Hx]]]%lookup_insert_is_Some; [lia|]. specialize (O11 a ltac:(by eexists)). lia.
    + intros a Ha. specialize (O12 a Ha). lia.
  - split; cbn; try done. intros a x Hx. exists x. split; [by apply Hkeep|done].
Qed.

Lemma wp_alloc_obj o Q r h : scan_ok h r ->
  (forall a r', step r h r' -> r_objs r !! a = None -> r_objs r' !! a = Some o -> a ∉ r_redirect r' ++ r_file r' ->
     Q (Some a) r') -> wp (alloc_obj E o) Q r.
Proof.
  intros O HQ. apply wp_bind, wp_galloc. cbn [negb]. set (r1 := with_allocs _ _).
  pose proof (step_allocs r h (S (r_allocs r)) O) as H1. fold r1 in H1.
  apply wp_bind, wp_get, wp_bind, wp_put, wp_ret. pose proof (step_new_object r1 h o (proj1 H1)) as H2.
  apply HQ; [by eapply step_trans| |apply lookup_insert_eq|].
  { apply eq_None_not_Some. intros Hs. exact (Nat.lt_irrefl _ (so_objs _ _ O _ Hs)). }
  cbn. intros Hin.
  exact (Nat.lt_irrefl _ (so_objs _ _ (proj1 H1) _ (so_lists _ _ (proj1 H1) _ Hin))).
Qed.

(** Changing an object that is in no list, or a file's own members. *)
Lemma step_set_fresh r h a o : scan_ok h r -> is_Some (r_objs r !! a) -> a ∉ r_redirect r ++ r_file r ->
  scan_ok h (with_objs r (<[a := o]> (r_objs r))).
Proof.
  intros O Ha Hn. assert (forall b, b ∈ r_redirect r ++ r_file r -> <[a := o]> (r_objs r) !! b = r_objs r !! b) as Hkeep.
  { intros b Hb. rewrite lookup_insert_ne; [done|]. by intros <-. }
  destruct O as [O1 O2 O3 O4 O5 O6 O7 O8 O9 O10 O11 O12 O13 O14].
  split; cbn [r_mimes r_mime_type r_redirect r_objs r_file r_num_redirect r_num_file r_num_uri r_uri r_next
      r_tmpchunks r_mimetab_sz with_objs]; try done.
  - intros b Hb. rewrite Hkeep by set_solver. auto.
  - intros b Hb. unfold file_ok. cbn [r_objs with_objs]. rewrite Hkeep by set_solver. by apply O4.
  - intros b Hb. rewrite Hkeep by done. auto.
  - intros b [<-|[_ Hx]]%lookup_insert_is_Some; auto.
Qed.

(** Putting a fresh redirect or file object at the end of its list. *)
Lemma step_append_redirect r h a o : scan_ok h r -> r_objs r !! a = Some o -> is_redirect o -> a ∉ r_redirect r ++ r_file r ->
  step r h (with_num_redirect (with_redirect r (r_redirect r ++ [a])) (uint 32 (r_num_redirect r + 1))).
Proof.
  intros O Ho Hk Hn. split.
  - destruct O as [O1 O2 O3 O4 O5 O6 O7 O8 O9 O10 O11 O12 O13 O14].
    split; cbn [r_mimes r_mime_type r_redirect r_objs r_file r_num_redirect r_num_file r_num_uri r_uri r_next
      r_tmpchunks r_mimetab_sz with_num_redirect with_redirect]; try done.
    + intros b [Hb| ->%list_elem_of_singleton]%elem_of_app; eauto.
    + rewrite <- app_assoc, (Permutation_app_comm [a]), app_assoc. apply NoDup_app. split_and!; [done| |apply NoDup_singleton].
      intros b Hb ->%list_elem_of_singleton. done.
    + rewrite O6, uint_add, length_app. cbn [length]. f_equal. lia.
    + eapply Forall_impl; [exact O9|]. intros u [? ?]. set_solver.
    + intros b Hb. destruct (decide (b = a)) as [->|]; [by eexists|]. apply O10. set_solver.
  - split; cbn; [done| |set_solver|done]. intros b x Hx. by exists x.
Qed.

Lemma step_append_file r a oid f : scan_ok None r -> r_objs r !! a = Some (Obj oid (OBJ_TYPE_FILE f)) -> 0 <= f_size f ->
  length (f_digest f) = 20%nat -> a ∉ r_redirect r ++ r_file r ->
  step r (Some a) (with_num_file (with_file r (r_file r ++ [a])) (uint 32 (r_num_file r + 1))).
Proof.
  intros O Ho Hsz Hdg Hn. split.
  - destruct O as [O1 O2 O3 O4 O5 O6 O7 O8 O9 O10 O11 O12 O13 O14].
    split; cbn [r_mimes r_mime_type r_redirect r_objs r_file r_num_redirect r_num_file r_num_uri r_uri r_next
      r_tmpchunks r_mimetab_sz with_num_file with_file]; try done.
    + intros b [Hb| ->%list_elem_of_singleton]%elem_of_app.
      * destruct (O4 b Hb) as (oid' & f' & ? & ? & ? & ?). exists oid', f'. split_and!; auto.
      * exists oid, f. split_and!; [done..|]. by intros [].
    + rewrite app_assoc. apply NoDup_app. split_and!; [done| |apply NoDup_singleton].
      intros b Hb ->%list_elem_of_singleton. done.
    + rewrite O7, uint_add, length_app. cbn [length]. f_equal. lia.
    + eapply Forall_impl; [exact O9|]. intros u [? ?]. set_solver.
    + intros b Hb. destruct (decide (b = a)) as [->|]; [by eexists|]. apply O10. set_solver.
  - split; cbn; [done| |set_solver|done]. intros b x Hx. by exists x.
Qed.

(** An object that was not there before may be any object. *)
Lemma step_set_new r r1 h a o : step r h r1 -> is_Some (r_objs r1 !! a) -> a ∉ r_redirect r1 ++ r_file r1 -> r_objs r !! a = None ->
  step r h (with_objs r1 (<[a := o]> (r_objs r1))).
Proof.
  intros [O [U X L B]] Ha Hn Hnew. split; [by apply step_set_fresh|]. split; [done| |done|done].
  intros b x Hx. destruct (X b x Hx) as (x' & Hx' & ?). exists x'. split; [|done]. cbn.
  rewrite lookup_insert_ne; [done|]. intros <-. congruence.
Qed.

Lemma wp_obj_redirect path Q r : scan_ok None r ->
  (forall a r', step r None r' -> a ∈ r_redirect r' -> r_objs r' !! a = Some (Obj 0 (OBJ_TYPE_REDIRECT (Some path) 0 0)) -> Q a r') ->
  wp (obj_redirect E path) (some Q) r.
Proof.
  intros O HQ. apply wp_some. eapply wp_alloc_obj; [exact O|]. intros a r1 H1 Hnew Ha Hn. intros ? [= <-].
  apply wp_bind, wp_strdup, wp_bind, wp_modify, wp_bind, wp_modify, wp_ret. intros ? [= <-].
  pose proof (step_set_new r r1 None a (Obj 0 (OBJ_TYPE_REDIRECT (Some path) 0 0)) H1 ltac:(by eexists) Hn Hnew) as H2.
  pose proof (step_append_redirect _ None a (Obj 0 (OBJ_TYPE_REDIRECT (Some path) 0 0)) (proj1 H2) (lookup_insert_eq _ _ _)
    ltac:(by do 3 eexists) Hn) as H3.
  pose proof (step_allocs _ _ (S (r_allocs r1)) (proj1 H3)) as H4.
  apply HQ; [|cbn; set_solver|apply lookup_insert_eq].
  exact (step_trans _ _ _ _ _ (step_trans _ _ _ _ _ H2 H3) H4).
Qed.

Lemma wp_link u a Q r : scan_ok None r -> a ∈ r_redirect r ++ r_file r ->
  (forall r', step r None r' -> Uri a (Some (match u with [] => [47] | _ => u end)) ∈ r_uri r' -> Q r') ->
  wp (webroot_link E u a) (ok Q) r.
Proof.
  intros O Ha HQ. apply wp_bind, wp_galloc. cbn [negb]. apply wp_bind, wp_strdup, wp_bind, wp_modify, wp_ret. intros _.
  apply HQ; [|cbn; set_solver]. split.
  - destruct O as [O1 O2 O3 O4 O5 O6 O7 O8 O9 O10 O11 O12 O13 O14].
    split; cbn [r_mimes r_mime_type r_redirect r_objs r_file r_num_redirect r_num_file r_num_uri r_uri r_next
      r_tmpchunks r_mimetab_sz with_num_uri with_uri with_allocs]; try done.
    + rewrite O8, uint_add, length_app. cbn [length]. f_equal. lia.
    + apply Forall_app. split; [done|]. constructor; [by split; [eexists|]|done].
  - split; cbn; [by eexists| |done|done]. intros b x Hx. by exists x.
Qed.

Lemma find_file_ok r h l dev ino o : scan_ok h r -> (forall a, a ∈ l -> a ∈ r_file r) -> find_file (r_objs r) l dev ino = Ret o ->
  match o with
  | Some a => a ∈ r_file r /\ exists oid f, r_objs r !! a = Some (Obj oid (OBJ_TYPE_FILE f)) /\ f_dev f = dev /\ f_ino f = ino
  | None => True
  end.
Proof.
  intros O Hl H. induction l as [|a l IH]; cbn [find_file] in H; [by injection H as <-|].
  destruct (so_files _ _ O a (Hl a ltac:(set_solver))) as (oid & f & Ha & _). unfold file_of in H. rewrite Ha in H. run_in H.
  cbn [o_u] in H. run_in H. destruct (Z.eqb_spec dev (f_dev f)) as [->|]; destruct (Z.eqb_spec ino (f_ino f)) as [->|];
    cbn [andb] in H; [injection H as <-; split; [set_solver|by exists oid, f]|apply IH; [set_solver|done]..].
Qed.

(** What an operation on a file object gives back. *)
Definition is_the_file (r : mkroot) (a : nat) (dev ino : Z) : Prop := a ∈ r_file r /\
  exists oid f, r_objs r !! a = Some (Obj oid (OBJ_TYPE_FILE f)) /\ f_dev f = dev /\ f_ino f = ino.

Lemma wp_obj_file dev ino mtime size Q r : scan_ok None r -> 0 <= size ->
  (forall a r', step r (Some a) r' -> is_the_file r' a dev ino -> Q a r') -> wp (obj_file E dev ino mtime size) (some Q) r.
Proof.
  intros O Hsz HQ. apply wp_bind, wp_get, wp_bind, wp_lift. intros [a|] H.
  - pose proof (find_file_ok r None (r_file r) dev ino (Some a) O ltac:(done) H) as Hf.
    apply wp_ret. intros ? [= <-]. apply HQ; [|exact Hf]. by apply step_weaken, step_refl.
  - apply wp_some. eapply wp_alloc_obj; [exact O|]. intros a r1 H1 Hnew Ha Hn. intros ? [= <-].
    apply wp_bind, wp_modify, wp_ret. intros ? [= <-].
    pose proof (step_append_file r1 a _ _ (proj1 H1) Ha Hsz eq_refl Hn) as H2.
    apply HQ; [by eapply step_trans|]. split; [cbn; set_solver|]. do 2 eexists. split; [exact Ha|done].
Qed.

Lemma is_the_file_ext r r' a dev ino : ext r r' -> is_the_file r a dev ino -> is_the_file r' a dev ino.
Proof.
  intros [_ X L _] [Ha (oid & f & Ho & Hd & Hi)]. split; [by apply L|].
  destruct (X a _ Ho) as ([oid' [f'|]] & Ho' & Hs); [|done]. destruct Hs as [Hd' Hi'].
  exists oid', f'. split_and!; [done|congruence|congruence].
Qed.

Lemma find_mime_ok mimes l mime a : find_mime mimes l mime = Ret (Some a) -> a ∈ l.
Proof.
  induction l as [|b l IH]; cbn [find_mime]; [done|]. intros (m & _ & (s & _ & H)%outcome_bind_ret)%outcome_bind_ret.
  case_match; [injection H as <-; set_solver|]. set_solver.
Qed.

Lemma wp_mime_add mime Q r h : scan_ok h r -> (forall m r', step r h r' -> m ∈ r_mime_type r' -> Q m r') ->
  wp (mime_add E mime) (some Q) r.
Proof.
  intros O HQ. apply wp_bind, wp_get, wp_bind, wp_lift. intros [m|] H.
  { apply wp_ret. intros ? [= <-]. apply HQ; [by apply step_refl|]. by eapply find_mime_ok. }
  apply wp_bind, wp_galloc. cbn [negb]. apply wp_bind, wp_lift. intros s _. apply wp_some, wp_strdup. intros ? [= <-].
  apply wp_bind, wp_get, wp_bind, wp_put, wp_ret. intros ? [= <-]. apply HQ; [|cbn; set_solver].
  assert (r_next r ∉ r_mime_type r) as Hn.
  { intros Hin. exact (Nat.lt_irrefl _ (so_mime_keys _ _ O _ (so_mimes _ _ O _ Hin))). }
  split.
  - destruct O as [O1 O2 O3 O4 O5 O6 O7 O8 O9 O10 O11 O12 O13 O14].
    split; cbn [r_mimes r_mime_type r_redirect r_objs r_file r_num_redirect r_num_file r_num_uri r_uri r_next
      r_tmpchunks r_mimetab_sz with_next with_mime_type with_mimes with_allocs]; try done.
    + intros a Ha. apply lookup_insert_is_Some. destruct (decide (r_next r = a)); [by left|right]. split; [done|]. apply O1. set_solver.
    + by constructor.
    + intros a Ha. destruct (O4 a Ha) as (oid & f & ? & ? & ? & Hty). exists oid, f. split_and!; try done.
      intros Hh. destruct (Hty Hh) as (m & ? & ?). exists m. split; [done|]. cbn. set_solver.
    + intros a Ha. specialize (O11 a Ha). lia.
    + intros a [<-|[_ Ha]]%lookup_insert_is_Some; [lia|]. specialize (O12 a Ha). lia.
  - split; cbn; [done| |set_solver|done]. intros b x Hx. by exists x.
Qed.

(** Changing a file's members, but not its identity. *)
Lemma wp_update_file a g Q r h h' : scan_ok h r -> a ∈ r_file r ->
  (forall f, f_dev (g f) = f_dev f /\ f_ino (g f) = f_ino f /\ f_digest (g f) = f_digest f /\
     (0 <= f_size f -> 0 <= f_size (g f)) /\
     (h' <> Some a -> (h <> Some a -> exists m, f_type f = Some m /\ m ∈ r_mime_type r) ->
        exists m, f_type (g f) = Some m /\ m ∈ r_mime_type r)) ->
  (forall b, b <> a -> h' <> Some b -> h <> Some b) ->
  (forall r', step r h' r' -> Q tt r') -> wp (update_file a g) Q r.
Proof.
  intros O Ha Hg Hh HQ. apply wp_bind, wp_get. destruct (so_files _ _ O a Ha) as (oid & f & Ho & Hsz & Hdg & Hty). rewrite Ho.
  apply wp_bind, wp_lift. intros _ [= <-]. cbn [o_u o_oid]. apply wp_modify, HQ.
  destruct (Hg f) as (G1 & G2 & G3 & G4 & G5).
  destruct O as [O1 O2 O3 O4 O5 O6 O7 O8 O9 O10 O11 O12 O13 O14].
  assert (forall b, b ∈ r_redirect r -> b <> a) as Hdis.
  { apply NoDup_app in O5 as (_ & O5 & _). intros b Hb ->. by apply (O5 a). }
  split.
  - split; cbn [r_mimes r_mime_type r_redirect r_objs r_file r_num_redirect r_num_file r_num_uri r_uri r_next
      r_tmpchunks r_mimetab_sz with_objs]; try done.
    + intros b Hb. rewrite lookup_insert_ne by (symmetry; auto). auto.
    + intros b Hb. unfold file_ok. cbn [r_objs with_objs r_mime_type]. destruct (decide (b = a)) as [->|Hne].
      * rewrite lookup_insert_eq. exists oid, (g f). split_and!; [done|auto|congruence|auto].
      * rewrite lookup_insert_ne by done. destruct (O4 b Hb) as (oid' & f' & ? & ? & ? & ?). exists oid', f'. split_and!; auto.
    + intros b Hb. destruct (decide (b = a)) as [->|]; [rewrite lookup_insert_eq; by eexists|].
      rewrite lookup_insert_ne by done. auto.
    + intros b [<-|[_ Hb]]%lookup_insert_is_Some; apply O11; [by eexists|done].
  - split; cbn; [done| |done|done]. intros b x Hx. destruct (decide (b = a)) as [->|].
    + rewrite lookup_insert_eq. eexists. split; [done|]. rewrite Ho in Hx. injection Hx as <-. done.
    + rewrite lookup_insert_ne by done. by exists x.
Qed.

Lemma wp_set_type a mime Q r dev ino : scan_ok (Some a) r -> is_the_file r a dev ino ->
  (forall r', step r None r' -> is_the_file r' a dev ino -> Q a r') -> wp (set_type E a mime) (some Q) r.
Proof.
  intros O Hf HQ. apply wp_bind. eapply wp_mono.
  { apply (wp_mime_add mime (fun m r' => step r (Some a) r' /\ m ∈ r_mime_type r') r (Some a) O). auto. }
  intros [m|] r1 Hm; [|apply wp_bind, wp_modify, wp_none]. destruct (Hm m eq_refl) as [H1 Hin].
  apply wp_bind. eapply (wp_update_file a (with_type m) _ r1 (Some a) None); [apply H1| | | |].
  - apply (is_the_file_ext r r1 a dev ino (proj2 H1) Hf).
  - intros f. split_and!; try done. intros _ _. by exists m.
  - congruence.
  - intros r2 H2. apply wp_ret. intros ? [= <-]. pose proof (step_trans _ _ _ _ _ H1 H2) as H3.
    apply HQ; [done|]. apply (is_the_file_ext r r2 a dev ino (proj2 H3) Hf).
Qed.

Lemma wp_with_content a c Q r : scan_ok (Some a) r -> a ∈ r_file r -> (forall r', step r (Some a) r' -> Q tt r') ->
  wp (update_file a (with_content c)) Q r.
Proof. intros O Ha. apply (wp_update_file a _ Q r (Some a) (Some a)); [done|done| |done]. intros f. split_and!; done. Qed.

Lemma wp_obj_file_path path dev ino mtime size Q r : scan_ok None r -> 0 <= size ->
  (forall a r', step r None r' -> is_the_file r' a dev ino -> Q a r') ->
  wp (obj_file_path E path dev ino mtime size) (some Q) r.
Proof.
  intros O Hsz HQ. apply wp_some. apply wp_obj_file; [done|done|]. intros a r1 H1 Hf. apply wp_bind, wp_strdup.
  pose proof (step_trans _ _ _ _ _ H1 (step_allocs r1 (Some a) (S (r_allocs r1)) (proj1 H1))) as H2.
  apply wp_bind, wp_with_content; [apply H2|apply Hf|]. intros r3 H3. pose proof (step_trans _ _ _ _ _ H2 H3) as H4.
  apply (wp_set_type a _ _ r3 dev ino); [apply H4|eapply is_the_file_ext; [apply H3|exact Hf]|].
  intros r5 H5 Hf5. apply HQ; [by eapply step_trans|done].
Qed.

Lemma wp_obj_file_tmpchunks mime dev ino mtime Q r : scan_ok None r ->
  (forall a r', step r None r' -> is_the_file r' a dev ino -> Q a r') ->
  wp (obj_file_tmpchunks E mime dev ino mtime) (some Q) r.
Proof.
  intros O HQ. apply wp_some. apply wp_obj_file; [done|done|]. intros a r1 H1 Hf. apply wp_bind, wp_get.
  apply wp_bind, wp_with_content; [apply H1|apply Hf|]. intros r3 H3. pose proof (step_trans _ _ _ _ _ H1 H3) as H4.
  apply (wp_set_type a _ _ r3 dev ino); [apply H4|eapply is_the_file_ext; [apply H3|exact Hf]|].
  intros r5 H5 Hf5. apply HQ; [by eapply step_trans|done].
Qed.

(** ** Generated pages *)

Lemma step_tmp r h n m tmp off : scan_ok h r -> (forall s, tmp = Some s -> sink_ok s /\ bytes_ok (accepted s)) ->
  step r h (with_tmpoff (with_tmpchunks (with_abuflen (with_allocs r n) m) tmp) off).
Proof. intros O Ht. split; [by destruct O|]. by split; [|intros a o Ho; exists o| |]. Qed.

Lemma wp_tc text Q r h : bytes_ok text -> scan_ok h r -> (forall r', step r h r' -> Q tt r') -> wp (tc_printf E text) Q r.
Proof.
  intros Ht O HQ. apply wp_bind, wp_get. destruct (r_tmpchunks r) as [[b k]|] eqn:Et; [|by apply wp_ret, HQ, step_refl].
  destruct (so_tmp _ _ O (b, k) Et) as [Hb Hbytes]. apply wp_bind.
  eapply (wp_mono _ (fun t r' => t = text /\ exists n m, r' = with_abuflen (with_allocs r n) m)).
  - destruct (_ <? _)%nat; [apply wp_ret; split; [done|]; exists (r_allocs r), (r_abuflen r); by destruct r|].
    apply wp_bind, wp_galloc, wp_bind, wp_modify, wp_ret. eauto.
  - intros t r1 (-> & n & m & ->). apply wp_bind, wp_lift. intros [[ok1 b1] k1] Hw.
    destruct (write_spec b text k ok1 b1 k1 Hb Hw) as (Hb1 & _ & Hacc). apply wp_modify, HQ.
    destruct ok1.
    { apply (step_tmp r h n m (Some (b1, k1)) _ O). intros ? [= <-]. split; [exact Hb1|].
      change (bytes_ok (k_file k1 ++ pending b1)). rewrite Hacc by done. apply Forall_app. by split. }
    by apply (step_tmp r h n m None (r_tmpoff r) O).
Qed.

Lemma splice_bytes dir p : bytes_ok dir -> bytes_ok p -> bytes_ok (splice dir p).
Proof. intros. unfold splice. case_match; rewrite ?Forall_app; split_and!; first [done | by_decide]. Qed.

Ltac text_bytes := rewrite ?Forall_app; split_and!; first [assumption | by apply splice_bytes | by_decide].

Lemma wp_index_entries u names Q r h : bytes_ok u -> Forall (fun s => bytes_ok s) names -> scan_ok h r -> (forall r', step r h r' -> Q tt r') -> wp (index_entries E u names) Q r.
Proof.
  intros Hu Hn. revert r. induction Hn as [|name names Hname Hn IH]; intros r O HQ; cbn [index_entries];
    [by apply wp_ret, HQ, step_refl|].
  destruct (skip_entry name); [by apply IH|]. apply wp_bind, wp_splice, wp_bind.
  pose proof (step_allocs r h (S (r_allocs r)) O) as H1. cbn [default from_option id].
  apply (wp_tc _ _ _ h); [text_bytes|apply H1|]. intros r2 H2.
  apply IH; [apply H2|]. intros r3 H3. apply HQ. eapply step_trans; [exact H1|]. by eapply step_trans.
Qed.

Context (Hnames : forall p names, e_readdir E p = Some names -> Forall (fun s => bytes_ok s) names).

Lemma wp_index_dir st path u Q r : bytes_ok u -> scan_ok None r ->
  (forall a r', step r None r' -> is_the_file r' a (st_dev st) (st_ino st) -> Q a r') ->
  wp (index_dir E st path u) (some Q) r.
Proof.
  intros Hu O HQ. apply wp_some. apply wp_obj_file_tmpchunks; [done|]. intros a r1 H1 Hf.
  apply wp_bind, (wp_tc _ _ _ None); [text_bytes|apply H1|]. intros r2 H2. apply wp_bind, (wp_tc _ _ _ None); [text_bytes|apply H2|]. intros r3 H3.
  apply wp_bind, (wp_tc _ _ _ None); [text_bytes|apply H3|]. intros r4 H4. apply wp_bind, (wp_tc _ _ _ None); [text_bytes|apply H4|]. intros r5 H5.
  destruct (e_readdir E path) as [names|] eqn:Er; [|apply wp_none].
  apply wp_bind, (wp_index_entries _ _ _ _ None); [done|by eapply Hnames|apply H5|]. intros r6 H6. apply wp_bind, wp_get.
  destruct (r_tmpchunks r6); [|apply wp_none]. apply wp_bind, wp_lift. intros f _.
  assert (step r1 None r6) as H16 by (do 4 (eapply step_trans; [eassumption|]); done).
  assert (is_the_file r6 a (st_dev st) (st_ino st)) as Hf6 by (eapply is_the_file_ext; [apply H16|done]).
  destruct (f_content f); [by apply wp_lift|].
  apply wp_bind, (wp_update_file a _ _ r6 None None); [apply H6|apply Hf6| |done|].
  - intros g. split_and!; try done; [|intros _ Hg; by apply Hg]. intros _. apply (uint_bound 64). done.
  - intros r7 H7. apply wp_ret. intros ? [= <-]. apply HQ.
    + eapply step_trans; [exact H1|]. by eapply step_trans.
    + eapply is_the_file_ext; [apply H7|done].
Qed.

(** ** Directories *)

Context (Hsizes : forall p st, e_lstat E p = Some st \/ e_stat E p = StatOk st -> 0 <= st_size st).

(** The file that stands for a directory: an index page, or the directory
    itself. *)
Definition page_stat (base u page : list Z) : option stat :=
  match e_stat E (splice base (splice u page)) with
  | StatOk st => match st_mode st with S_REG => Some st | _ => None end
  | _ => None
  end.

Fixpoint index_stat (base : list Z) (st : stat) (u : list Z) (pages : list (list Z)) : stat :=
  match pages with
  | [] => st
  | page :: pages => default (index_stat base st u pages) (page_stat base u page)
  end.

Lemma wp_try_index u page Q r : scan_ok None r ->
  (forall a st r', step r None r' -> page_stat (r_base r) u page = Some st -> is_the_file r' a (st_dev st) (st_ino st) -> Q (Some a) r') ->
  (forall r', step r None r' -> page_stat (r_base r) u page = None -> Q None r') ->
  wp (try_index E u page) (some Q) r.
Proof.
  intros O HQ HN. apply wp_some, wp_splice. intros ? [= <-]. apply wp_some, wp_lookup. intros ? [= <-].
  cbn [r_base with_allocs r_allocs]. set (r1 := with_allocs _ _).
  assert (step r None r1) as H1 by (eapply step_trans; apply step_allocs; [|by apply step_allocs]; done).
  unfold page_stat in HQ, HN. destruct (e_stat E _) as [st| |] eqn:Es; [|by apply wp_ret; intros ? [= <-]; apply HN|apply wp_none].
  destruct (st_mode st) eqn:Em; try (apply wp_ret; intros ? [= <-]; by apply HN).
  apply wp_some. apply wp_obj_file_path; [apply H1|eapply Hsizes; by right|]. intros a r2 H2 Hf. apply wp_ret. intros ? [= <-].
  apply (HQ a st); [by eapply step_trans|done|done].
Qed.

Lemma wp_try_pages st u pages Q r : scan_ok None r ->
  (forall a r', step r None r' -> is_the_file r' a (st_dev (index_stat (r_base r) st u pages)) (st_ino (index_stat (r_base r) st u pages)) ->
     Q (Some a) r') ->
  (forall r', step r None r' -> index_stat (r_base r) st u pages = st -> Q None r') ->
  wp (try_pages E u pages) (some Q) r.
Proof.
  revert r. induction pages as [|page pages IH]; intros r O HQ HN; cbn [try_pages index_stat] in *.
  { apply wp_ret. intros ? [= <-]. by apply HN; [apply step_refl|]. }
  apply wp_some. apply wp_try_index; [done| |].
  - intros a st' r1 H1 E1 Hf. rewrite E1 in HQ. apply wp_ret. intros ? [= <-]. by apply HQ.
  - intros r1 H1 E1. rewrite E1 in HQ, HN. cbn [default from_option] in *. pose proof (ex_base _ _ (proj2 H1)) as Eb.
    apply IH; [apply H1| |]; rewrite Eb; intros; [apply HQ|apply HN]; try done; by eapply step_trans.
Qed.

(** ** Links *)

Definition link_name (u : list Z) : list Z := match u with [] => [47] | _ => u end.

Definition linked (r : mkroot) (u : list Z) (P : nat -> Prop) : Prop := exists a, Uri a (Some (link_name u)) ∈ r_uri r /\ P a.

Definition is_the_redirect (r : mkroot) (t : list Z) (a : nat) : Prop :=
  exists oid off code, r_objs r !! a = Some (Obj oid (OBJ_TYPE_REDIRECT (Some t) off code)).

Lemma wp_add_index st path u Q r : bytes_ok u -> scan_ok None r ->
  (forall r', step r None r' -> let st' := index_stat (r_base r) st u index_pages in
     linked r' u (fun a => is_the_file r' a (st_dev st') (st_ino st')) -> Q r') ->
  wp (add_index E st path u) (ok Q) r.
Proof.
  intros Hu O HQ. apply wp_ok, (wp_try_pages st); [done| |].
  - intros a r1 H1 Hf. apply wp_bind, wp_ret, wp_link; [apply H1|apply elem_of_app; right; apply Hf|]. intros r2 H2 Hin.
    apply HQ; [by eapply step_trans|]. exists a. split; [done|]. eapply is_the_file_ext; [apply H2|done].
  - intros r1 H1 Est. cbn [indexdirs]. apply wp_ok, wp_index_dir; [done|apply H1|]. intros a r2 H2 Hf.
    apply wp_link; [apply H2|apply elem_of_app; right; apply Hf|]. intros r3 H3 Hin. apply HQ.
    + by do 2 (eapply step_trans; [eassumption|]).
    + exists a. rewrite Est. split; [done|]. eapply is_the_file_ext; [apply H3|done].
Qed.

(** The text of a symbolic link, when the stack held the zero that ends it. *)
Definition link_text (path : list Z) : option (list Z) :=
  match e_readlink E path with
  | Some target =>
    let target := take SYMBUF target in
    let buf := target ++ drop (length target) (take SYMBUF (e_stack E path)) in
    if existsb (Z.eqb 0) buf then Some (cstr buf) else None
  | None => None
  end.

Lemma wp_read_link path Q r : (forall t, link_text path = Some t -> Q t r) -> wp (read_link E path) (some Q) r.
Proof.
  intros HQ. unfold read_link, link_text in *. destruct (e_readlink E path) as [target|]; [|apply wp_none].
  destruct (existsb _ _); [|by apply wp_lift]. apply wp_ret. intros ? [= <-]. by apply HQ.
Qed.

(** Every path below [u], which was found in [dir]. *)
Inductive under (base : list Z) : list Z -> list Z -> list Z -> list Z -> Prop :=
| under_here dir u : under base dir u dir u
| under_entry dir u st names name dir' u' :
    e_lstat E (splice base u) = Some st -> st_mode st = S_DIR -> e_readdir E (splice base u) = Some names ->
    name ∈ names -> skip_entry name = false -> under base u (splice u name) dir' u' -> under base dir u dir' u'.

(** What the path [u] must be linked to. *)
Definition placed (r : mkroot) (dir u : list Z) : Prop :=
  match e_lstat E (splice (r_base r) u) with
  | None => False
  | Some st =>
    match st_mode st with
    | S_REG => linked r u (fun a => is_the_file r a (st_dev st) (st_ino st))
    | S_LNK => exists t, link_text (splice (r_base r) u) = Some t /\ linked r u (is_the_redirect r (splice dir t))
    | S_DIR =>
      let st' := index_stat (r_base r) st (splice u [47]) index_pages in
      linked r (splice u [47]) (fun a => is_the_file r a (st_dev st') (st_ino st')) /\
      (u <> [] -> linked r u (is_the_redirect r (splice u [47])))
    | S_OTHER => True
    end
  end.

Lemma linked_ext r r' u (P P' : nat -> Prop) : ext r r' -> (forall a, P a -> P' a) -> linked r u P -> linked r' u P'.
Proof. intros [[l Hl] _ _ _] HP (a & Hin & Ha). exists a. rewrite Hl. split; [set_solver|auto]. Qed.

Lemma is_the_redirect_ext r r' t a : ext r r' -> is_the_redirect r t a -> is_the_redirect r' t a.
Proof.
  intros [_ X _ _] (oid & off & code & Ho). destruct (X a _ Ho) as ([oid' [|u' off' code']] & Ho' & Hs); [done|].
  destruct Hs as [-> _]. by exists oid', off', code'.
Qed.

Lemma placed_ext r r' dir u : ext r r' -> placed r dir u -> placed r' dir u.
Proof.
  intros X. pose proof (ex_base _ _ X) as Eb. unfold placed. rewrite Eb. destruct (e_lstat E _) as [st|]; [|done].
  destruct (st_mode st).
  - intros [H1 H2]. split; [|intros Hu]; (eapply linked_ext; [exact X| |eauto]); intros a;
      [by apply is_the_file_ext|by apply is_the_redirect_ext].
  - apply linked_ext; [done|]. intros a. by apply is_the_file_ext.
  - intros (t & Ht & H). exists t. split; [done|]. eapply linked_ext; [exact X| |done]. intros a. by apply is_the_redirect_ext.
  - done.
Qed.

(** Everything below [u] is linked. *)
Definition all_placed (r : mkroot) (dir u : list Z) : Prop := forall d' u', under (r_base r) dir u d' u' -> placed r d' u'.

Lemma all_placed_ext r r' dir u : ext r r' -> all_placed r dir u -> all_placed r' dir u.
Proof. intros X H d' u' Hu. rewrite (ex_base _ _ X) in Hu. by eapply placed_ext, H. Qed.

Lemma wp_scan_entries (scan : list Z -> option (list Z) -> M bool) dir names Q r :
  (forall u r Q, bytes_ok u -> scan_ok None r -> (forall r', step r None r' -> all_placed r' dir u -> Q r') ->
     wp (scan dir (Some u)) (ok Q) r) -> bytes_ok dir -> Forall (fun s => bytes_ok s) names -> scan_ok None r ->
  (forall r', step r None r' -> (forall name, name ∈ names -> skip_entry name = false -> all_placed r' dir (splice dir name)) -> Q r') ->
  wp (scan_entries E scan dir names) (ok Q) r.
Proof.
  intros Hscan Hdir Hn. revert r. induction Hn as [|name names Hname Hn IH]; intros r O HQ; cbn [scan_entries].
  { apply wp_ret. intros _. apply HQ; [by apply step_refl|set_solver]. }
  destruct (skip_entry name) eqn:Es.
  { apply IH; [done|]. intros r' H' Hall. apply HQ; [done|]. intros n [->|Hin]%elem_of_cons Hsk; [congruence|auto]. }
  apply wp_bind, wp_splice, wp_bind. pose proof (step_allocs r None (S (r_allocs r)) O) as H1.
  eapply wp_mono; [apply (Hscan (splice dir name) _ (fun r' => step r None r' /\ all_placed r' dir (splice dir name))); [by apply splice_bytes|apply H1|]|].
  - intros r2 H2 Hp. split; [by eapply step_trans|done].
  - intros [] r2 Hr2; [|apply wp_false]. destruct (Hr2 eq_refl) as [H2 Hp]. apply IH; [apply H2|]. intros r3 H3 Hall.
    apply HQ; [by eapply step_trans|]. intros n [->|Hin]%elem_of_cons Hsk; [|auto]. eapply all_placed_ext; [apply H3|done].
Qed.

Lemma all_placed_dir r dir u st names : e_lstat E (splice (r_base r) u) = Some st -> st_mode st = S_DIR ->
  e_readdir E (splice (r_base r) u) = Some names -> placed r dir u ->
  (forall name, name ∈ names -> skip_entry name = false -> all_placed r u (splice u name)) -> all_placed r dir u.
Proof.
  intros Hst Hm Hr Hp Hall d' u' Hu. inversion Hu as [|? ? st1 names1 name ? ? Hst1 _ Hr1 Hin Hsk Hbelow]; subst; [done|].
  rewrite Hr in Hr1. injection Hr1 as <-. by eapply Hall.
Qed.

Lemma all_placed_leaf r dir u st : e_lstat E (splice (r_base r) u) = Some st -> st_mode st <> S_DIR -> placed r dir u ->
  all_placed r dir u.
Proof. intros Hst Hm Hp d' u' Hu. inversion Hu; subst; [done|congruence]. Qed.

Lemma wp_scan_dir fuel dir path st Q r :
  (forall (u : list Z) (r : mkroot) (Q : mkroot -> Prop), bytes_ok u -> scan_ok None r -> (forall r', step r None r' -> all_placed r' dir u -> Q r') ->
     wp (scan_item E fuel dir (Some u)) (ok Q) r) ->
  bytes_ok dir -> scan_ok None r -> path = splice (r_base r) dir -> e_lstat E path = Some st -> st_mode st = S_DIR ->
  (forall r' names, step r None r' -> e_readdir E path = Some names ->
     (forall name, name ∈ names -> skip_entry name = false -> all_placed r' dir (splice dir name)) -> Q r') ->
  wp (scan_dir E (scan_item E fuel) dir path) (ok Q) r.
Proof.
  intros Hscan Hdir O Hpath Hst Hm HQ. unfold scan_dir. destruct (e_readdir E path) as [names|] eqn:Er; [|apply wp_false].
  apply wp_scan_entries; [done|done|by eapply Hnames|done|]. intros r' H' Hall. by apply (HQ r' names).
Qed.

(** One path at a time, by its kind. *)
Section one.
Context (fuel : nat) (IH : forall dir u r Q, bytes_ok u -> scan_ok None r ->
  (forall r', step r None r' -> all_placed r' dir u -> Q r') -> wp (scan_item E fuel dir (Some u)) (ok Q) r).
Context (dir u : list Z) (r : mkroot) (st : stat) (Q : mkroot -> Prop) (O : scan_ok None r) (Hu : bytes_ok u).
Context (Hlstat : e_lstat E (splice (r_base r) u) = Some st).
Context (HQ : forall r', step r None r' -> all_placed r' dir u -> Q r').

Ltac enter r1 H1 Em :=
  cbn [scan_item]; apply wp_ok, wp_lookup; intros ? [= <-];
  pose proof (step_allocs r None (S (r_allocs r)) O) as H1; rewrite Hlstat, Em;
  assert (Est : e_lstat E (splice (r_base (with_allocs r (S (r_allocs r)))) u) = Some st) by exact Hlstat;
  revert H1 Est; change (r_base r) with (r_base (with_allocs r (S (r_allocs r))));
  generalize (with_allocs r (S (r_allocs r))); intros r1 H1 Est;
  pose proof (fun r' (X : ext r1 r') => ex_base _ _ X) as Hbase.

Lemma scan_directory : st_mode st = S_DIR -> wp (scan_item E (S fuel) dir (Some u)) (ok Q) r.
Proof.
  intros Em. enter r1 H1 Em.
  apply wp_bind, wp_lift. intros _ [= <-]. apply wp_ok, wp_splice. intros ? [= <-].
  pose proof (step_allocs r1 None (S (r_allocs r1)) (proj1 H1)) as H2. set (r2 := with_allocs r1 _) in *.
  apply wp_bind. eapply wp_mono; [apply (wp_add_index st (splice (r_base r1) u) (splice u [47]) (fun r' => step r2 None r' /\
    linked r' (splice u [47]) (fun a => is_the_file r' a (st_dev (index_stat (r_base r1) st (splice u [47]) index_pages))
      (st_ino (index_stat (r_base r1) st (splice u [47]) index_pages)))) r2); [by apply splice_bytes; [|by_decide]|apply H2|auto]|].
  intros [] r3 Hr3; [|apply wp_false]. destruct (Hr3 eq_refl) as [H3 Hidx]. clear Hr3. cbn [negb].
  assert (step r1 None r3) as H13 by (by eapply step_trans). clearbody r2.
  assert (r_base r3 = r_base r1) as Eb3 by apply Hbase, H13.
  destruct u as [|x u'] eqn:Eu.
  + eapply wp_scan_dir; [intros; by apply IH|done|apply H3|by rewrite Eb3|done|done|]. intros r4 names H4 Er Hall.
    pose proof (step_trans _ _ _ _ _ H13 H4) as H14. pose proof (Hbase _ (proj2 H14)) as Eb4.
    apply HQ; [by eapply step_trans|]. eapply (all_placed_dir r4 dir [] st names); rewrite ?Eb4; try done.
    unfold placed. rewrite Eb4, Est, Em. split; [|done].
    eapply linked_ext; [apply H4| |exact Hidx]. intros a. apply is_the_file_ext, H4.
  + apply wp_ok, wp_obj_redirect; [apply H3|]. intros a r4 H4 Ha Ho. assert (r_base r4 = r_base r3) as Eb4 by apply (ex_base _ _ (proj2 H4)).
    apply wp_bind. eapply wp_mono.
    { eapply (wp_scan_dir fuel (x :: u') _ st (fun r5 => step r4 None r5 /\ exists names, e_readdir E (splice (r_base r1) (x :: u')) = Some names /\
        forall name, name ∈ names -> skip_entry name = false -> all_placed r5 (x :: u') (splice (x :: u') name)) r4);
        [intros; by apply IH|done|apply H4|by rewrite Eb4, Eb3|done|done|eauto]. }
    intros [] r5 Hr5; [|apply wp_false]. destruct (Hr5 eq_refl) as (H5 & names & Er & Hall). clear Hr5.
    apply wp_link; [apply H5|apply elem_of_app; left; by apply (ex_lists _ _ (proj2 H5))|]. intros r6 H6 Hin.
    pose proof (step_trans _ _ _ _ _ H5 H6) as H46. pose proof (step_trans _ _ _ _ _ H4 H46) as H36.
    pose proof (step_trans _ _ _ _ _ H13 H36) as H16. pose proof (Hbase _ (proj2 H16)) as Eb6.
    apply HQ; [by eapply step_trans|]. eapply (all_placed_dir r6 dir (x :: u') st names); rewrite ?Eb6; try done.
    * unfold placed. rewrite Eb6, Est, Em. split; [|intros _].
      -- eapply linked_ext; [apply H36| |exact Hidx]. intros b. apply is_the_file_ext, H36.
      -- exists a. split; [exact Hin|]. eapply is_the_redirect_ext; [apply H46|]. by do 3 eexists.
    * intros name Hn Hsk. eapply all_placed_ext; [apply H6|auto].
Qed.

Lemma scan_regular : st_mode st = S_REG -> wp (scan_item E (S fuel) dir (Some u)) (ok Q) r.
Proof.
  intros Em. enter r1 H1 Em.
  apply wp_ok, wp_obj_file_path; [apply H1|eapply Hsizes; by left|]. intros a r2 H2 Hf.
  apply wp_bind, wp_lift. intros _ [= <-]. apply wp_link; [apply H2|apply elem_of_app; right; apply Hf|]. intros r3 H3 Hin.
  pose proof (step_trans _ _ _ _ _ H2 H3) as H13. apply HQ; [by eapply step_trans|].
  eapply all_placed_leaf; rewrite ?(Hbase _ (proj2 H13)); [done|by rewrite Em|]. unfold placed.
  rewrite (Hbase _ (proj2 H13)), Est, Em. exists a. split; [exact Hin|]. eapply is_the_file_ext; [apply H3|done].
Qed.

Lemma scan_symlink : st_mode st = S_LNK -> wp (scan_item E (S fuel) dir (Some u)) (ok Q) r.
Proof.
  intros Em. enter r1 H1 Em.
  apply wp_ok, wp_read_link. intros t Ht. apply wp_ok, wp_splice. intros ? [= <-].
  pose proof (step_allocs r1 None (S (r_allocs r1)) (proj1 H1)) as H2. set (r2 := with_allocs r1 _) in *.
  apply wp_ok, wp_obj_redirect; [apply H2|]. intros a r3 H3 Ha Ho. apply wp_bind, wp_lift. intros _ [= <-].
  apply wp_link; [apply H3|apply elem_of_app; by left|]. intros r4 H4 Hin.
  pose proof (step_trans _ _ _ _ _ H2 (step_trans _ _ _ _ _ H3 H4)) as H14. apply HQ; [by eapply step_trans|].
  eapply all_placed_leaf; rewrite ?(Hbase _ (proj2 H14)); [done|by rewrite Em|]. unfold placed.
  rewrite (Hbase _ (proj2 H14)), Est, Em. exists t. split; [done|]. exists a. split; [exact Hin|].
  eapply is_the_redirect_ext; [apply H4|]. by do 3 eexists.
Qed.

Lemma scan_other : st_mode st = S_OTHER -> wp (scan_item E (S fuel) dir (Some u)) (ok Q) r.
Proof.
  intros Em. enter r1 H1 Em. apply wp_ret. intros _. apply HQ; [done|].
  eapply all_placed_leaf; [done|by rewrite Em|]. unfold placed. by rewrite Est, Em.
Qed.
End one.

(** A scan that succeeds leaves a well-formed state in which everything below the
    path is linked. *)
Lemma wp_scan_item fuel : forall dir u r Q, bytes_ok u -> scan_ok None r ->
  (forall r', step r None r' -> all_placed r' dir u -> Q r') -> wp (scan_item E fuel dir (Some u)) (ok Q) r.
Proof.
  induction fuel as [|fuel IH]; intros dir u r Q Hu O HQ; [by apply wp_lift|].
  destruct (e_lstat E (splice (r_base r) u)) as [st|] eqn:Est.
  - destruct (st_mode st) eqn:Em; eauto using scan_directory, scan_regular, scan_symlink, scan_other.
  - cbn [scan_item]. apply wp_ok, wp_lookup. intros ? [= <-]. rewrite Est. apply wp_false.
Qed.
End ops.

(** ** From a scan to a site *)

Lemma at_addrs_exists {A} (h : gmap nat A) (P : A -> Prop) l : (forall a, a ∈ l -> exists o, h !! a = Some o /\ P o) ->
  exists os, at_addrs h l os /\ Forall P os.
Proof.
  induction l as [|a l IH]; intros H; [exists []; by split; constructor|]. destruct (H a ltac:(set_solver)) as (o & Ho & Hp).
  destruct IH as (os & Hos & Hps); [set_solver|]. exists (o :: os). by split; constructor.
Qed.

Lemma scan_site r : scan_ok None r -> Z.of_nat (length (r_uri r)) < 2 ^ 32 ->
  Z.of_nat (length (r_redirect r) + length (r_file r)) < 2 ^ 32 ->
  exists ms ros fos, site r ms ros fos /\ Forall digest_ok fos.
Proof.
  intros [O1 O2 O3 O4 O5 O6 O7 O8 O9 O10 O11 O12 O13 O14] Hu Hn.
  destruct (at_addrs_exists (r_mimes r) (fun _ => True) (r_mime_type r)) as (ms & Hms & _).
  { intros a Ha. destruct (O1 a Ha) as [m Hm]. eauto. }
  destruct (at_addrs_exists (r_objs r) is_redirect (r_redirect r) O3) as (ros & Hros & Hrk).
  destruct (at_addrs_exists (r_objs r) (fun o => is_file o /\ digest_ok o /\
    exists f m, o_u o = OBJ_TYPE_FILE f /\ f_type f = Some m /\ m ∈ r_mime_type r) (r_file r)) as (fos & Hfos & Hfk).
  { intros a Ha. destruct (O4 a Ha) as (oid & f & Ho & Hsz & Hdg & Hty). destruct (Hty ltac:(done)) as (m & Em & Hm).
    eexists. split; [done|]. split; [by exists f|]. split; [done|]. by exists f, m. }
  apply Forall_and in Hfk as [Hf Hfk]. apply Forall_and in Hfk as [Hd Hty].
  pose proof (at_addrs_length _ _ _ Hros). pose proof (at_addrs_length _ _ _ Hfos).
  exists ms, ros, fos. split; [|done]. split; try done; rewrite ?O6, ?O7, ?O8, uint_small by lia; lia.
Qed.
