(* ===== verification/MkrootMain.v ===== *)
(** * mkroot.c: the program, and what it promises the server

    [do_mkroot] scans a directory, lays the objects out, writes them and closes
    the file. When it succeeds, the file opens as a webroot in which every path of
    the directory is found. *)

From S2P Require Import Prelude Os Fobuf Trie Webroot Sha1 Mkroot MkrootWrite MkrootLayout MkrootImage MkrootServe MkrootScan.
Local Open Scope Z_scope.

(** ** Starting and ending *)

(** What [webroot_new] acquires, in order. *)
Inductive resource := ResRoot | ResUriMem | ResObjMem | ResMimeMem | ResStrMem | ResMagic | ResTmpFd.

#[export] Instance resource_eq_dec : EqDecision resource.
Proof. solve_decision. Defined.

(** What the system answers: which acquisitions succeed, whether the magic
    database loads, the temporary file and its buffer. *)
Record newenv := NewEnv {
  ne_get : resource -> bool;
  ne_load : bool;
  ne_fd : Z;
  ne_fobuf : bool;
  ne_buf : option (list Z);
  ne_kernel : kernel;
}.

(** The labels at the end of [webroot_new] release what the steps before them
    acquired, and fall through to the next one. *)
Definition release (x : resource) (held : list resource) : list resource := filter (fun y => y <> x) held.
Definition out_free (held : list resource) := release ResRoot held.
Definition out_free_uri (held : list resource) := out_free (release ResUriMem held).
Definition out_free_obj (held : list resource) := out_free_uri (release ResObjMem held).
Definition out_free_mime (held : list resource) := out_free_obj (release ResMimeMem held).
Definition out_free_str (held : list resource) := out_free_mime (release ResStrMem held).
Definition out_free_magic (held : list resource) := out_free_str (release ResMagic held).
Definition out_close (held : list resource) := out_free_magic (release ResTmpFd held).

Definition empty_webroot (base : list Z) (tmp : fobuf * kernel) : mkroot :=
  Mkroot [] [] [] [] ∅ ∅ 0 0 (Some tmp) 0 base None 0 0 0 0 0 0 0.

(** [webroot_new(base)], with what is held afterwards. *)
Definition webroot_new (N : newenv) (base : list Z) : option mkroot * list resource :=
  if negb (ne_get N ResRoot) then (None, [])
  else let held := [ResRoot] in
  if negb (ne_get N ResUriMem) then (None, out_free held)
  else let held := ResUriMem :: held in
  if negb (ne_get N ResObjMem) then (None, out_free_uri held)
  else let held := ResObjMem :: held in
  if negb (ne_get N ResMimeMem) then (None, out_free_obj held)
  else let held := ResMimeMem :: held in
  if negb (ne_get N ResStrMem) then (None, out_free_mime held)
  else let held := ResStrMem :: held in
  if negb (ne_get N ResMagic) then (None, out_free_str held)
  else let held := ResMagic :: held in
  if negb (ne_load N) then (None, out_free_magic held)
  else if negb (ne_get N ResTmpFd) then (None, out_free_magic held)
  else let held := ResTmpFd :: held in
  match fobuf_new (ne_fd N) 0 (ne_fobuf N) (ne_buf N) with
  | None => (None, out_close held)
  | Some b => (Some (empty_webroot base (b, ne_kernel N)), held)
  end.

(** [webroot_free(r)]: the descriptor of the temporary file is read from the
    buffer, which is gone when writing a generated page failed. *)
Definition webroot_free (r : mkroot) : outcome unit :=
  match r_tmpchunks r with
  | None => Fault OutOfBounds
  | Some _ => Ret tt
  end.

(** ** The program *)

Record mainenv := MainEnv {
  me_new : newenv;
  me_env : env;
  me_write : wenv;
  me_trie_alloc : nat -> bool;
  me_trie_calloc : bool;
  me_trie_hgang : bool;
  me_open : Z;
  me_fallocate : bool;
  me_fobuf : bool;
  me_buf : option (list Z);
  me_kernel : list sysres * list sysres;
  me_fsync : sysres;
  me_close : sysres;
}.

(** Closing the output: what is buffered reaches the file. *)
Definition out_done (o : outfile) (k : kernel) : list Z := overlay (o_done o) (o_base o) (k_file k).

(** [do_mkroot(dir, outfn)]: the contents of the output file on success. The
    fuel bounds the depth of the directories. [posix_fallocate] has filled the
    file with zeros. The size of the buffer is a parameter here; the code's is
    [BUFFER_SIZE]. *)
Definition do_mkroot_with (bufsz : nat) (V : mainenv) (fuel : nat) (dir : list Z) : outcome (option (list Z)) :=
  match (webroot_new (me_new V) dir).1 with
  | None => Ret None
  | Some r =>
    '(ok, r) ← scan_item (me_env V) fuel [] (Some []) r;
    if negb ok then _ ← webroot_free r; Ret None
    else
      '(ok, r) ← webroot_prep (me_env V) (me_trie_alloc V) (me_trie_calloc V) (me_trie_hgang V) r;
      if negb ok then _ ← webroot_free r; Ret None
      else if me_open V <? 0 then _ ← webroot_free r; Ret None
      else
        '(t, _) ← of_option OutOfBounds (r_trie r);
        if negb (me_fallocate V) then _ ← webroot_free r; Ret None
        else
          match fobuf_new (me_open V) bufsz (me_fobuf V) (me_buf V) with
          | None => _ ← webroot_free r; Ret None
          | Some b =>
            let k := Kernel (me_kernel V).1 (me_kernel V).2 [] in
            let zeros := replicate (Z.to_nat (webroot_output_size r t)) 0 in
            '(ok, r, w) ← webroot_write (me_write V) r (Outfile zeros 0 (b, k));
            if negb ok then Ret None
            else
              let (b, k) := o_stream w in
              '(ok, k) ← fobuf_close b (me_fsync V) (me_close V) k;
              _ ← webroot_free r;
              Ret (if (ok : bool) then Some (out_done w k) else None)
          end
  end.

Definition do_mkroot : mainenv -> nat -> list Z -> outcome (option (list Z)) := do_mkroot_with (Z.to_nat BUFFER_SIZE).

(** [rstrip_slashes(path)]: the loop from the last character on; [i] is one more
    than the code's. *)
Fixpoint rstrip_from (i : nat) (path : list Z) : list Z :=
  match i with
  | O => path
  | S i => if bool_decide (path !! i = Some 47) then rstrip_from i (<[i := 0]> path) else path
  end.

Definition rstrip_slashes (path : list Z) : list Z := cstr (rstrip_from (length path) path).

(** [main]: the exit status, and the output file. *)
Definition EXIT_SUCCESS : Z := 0.
Definition EXIT_FAILURE : Z := 1.

Definition mkroot_main (V : mainenv) (fuel : nat) (argv : list (list Z)) : outcome (Z * option (list Z)) :=
  match argv with
  | _ :: dir :: _ :: _ =>
    res ← do_mkroot V fuel (rstrip_slashes dir);
    Ret (match res with None => EXIT_FAILURE | Some _ => EXIT_SUCCESS end, res)
  | _ => Ret (EXIT_FAILURE, None)
  end.

(** ** The promise *)

(** What the proof relies on: allocations succeed, the file system reports sizes
    that are not negative and holds bytes, the buffers are as large as asked,
    and the temporary file is new. *)
Record env_ok (bufsz : nat) (V : mainenv) : Prop := {
  eo_alloc : forall i, e_alloc (me_env V) i = true;
  eo_trie : forall i, me_trie_alloc V i = true;
  eo_sizes : forall p st, e_lstat (me_env V) p = Some st \/ e_stat (me_env V) p = StatOk st -> 0 <= st_size st;
  eo_names : forall p names, e_readdir (me_env V) p = Some names -> Forall (fun s => bytes_ok s) names;
  eo_files : forall p s, we_open (me_write V) p = Some s -> bytes_ok s;
  eo_pad : length (we_pad (me_write V)) = 4%nat;
  eo_tmpbuf : forall m, ne_buf (me_new V) = Some m -> length m = bufsz_or_default 0;
  eo_tmpfile : k_file (ne_kernel (me_new V)) = [];
  eo_outbuf : forall m, me_buf V = Some m -> length m = bufsz_or_default bufsz;
}.

(** The state [webroot_new] gives. *)
Definition fresh (V : mainenv) (dir : list Z) : option mkroot := (webroot_new (me_new V) dir).1.

(** The values at the addresses of a list. *)
Definition members {A} (h : gmap nat A) (l : list nat) : list A := omap (fun a => h !! a) l.

(** What the format can express: distinct, non-empty, short URIs; numbers and
    strings within 32 bits, files within 62. *)
Record format_ok (V : mainenv) (r : mkroot) : Prop := {
  fo_some : r_uri r <> [];
  fo_uris : uris_ok (r_uri r);
  fo_count : Z.of_nat (length (r_uri r)) < 2 ^ 32 /\ Z.of_nat (length (r_redirect r) + length (r_file r)) < 2 ^ 32;
  fo_sizes : sizes_ok r (members (r_mimes r) (r_mime_type r)) (members (r_objs r) (r_redirect r)) (members (r_objs r) (r_file r))
    (me_trie_alloc V) (me_trie_calloc V) (me_trie_hgang V);
}.

Lemma members_of {A} (h : gmap nat A) l os : at_addrs h l os -> members h l = os.
Proof. unfold members. induction 1 as [|a o l os Ho _ IH]; [done|]. cbn. by rewrite Ho, IH. Qed.

Lemma fobuf_new_ok fdn bufsz ok buf b : fobuf_new fdn bufsz ok buf = Some b ->
  (forall m, buf = Some m -> length m = bufsz_or_default bufsz) -> fobuf_ok b /\ pending b = [] /\ fd b = fdn.
Proof.
  unfold fobuf_new. destruct ok, buf as [m|]; try done. intros [= <-] Hm. specialize (Hm m eq_refl).
  unfold fobuf_ok, pending. cbn. rewrite take_0. unfold bufsz_or_default in *. split_and!; try done; try lia.
  case_match eqn:E; [lia|]. apply Nat.eqb_neq in E. lia.
Qed.

Lemma fresh_webroot_ok bufsz V dir r : env_ok bufsz V -> fresh V dir = Some r -> scan_ok None r /\ r_base r = dir.
Proof.
  intros [_ _ _ _ _ _ Hbuf Hfile _]. unfold fresh, webroot_new. repeat case_match; try done. cbn [fst]. intros [= <-].
  split; [|done]. rename select (fobuf_new _ _ _ _ = _) into Hn. destruct (fobuf_new_ok _ _ _ _ _ Hn Hbuf) as (Hok & Hp & _).
  split; cbn [empty_webroot r_mimes r_mime_type r_redirect r_objs r_file r_num_redirect r_num_file r_num_uri r_uri r_next
      r_tmpchunks r_mimetab_sz app]; try done; try (by intros a Ha%elem_of_nil); try (by apply NoDup_nil_2);
    try (intros a [x Hx]; by rewrite lookup_empty in Hx).
  - intros s [= <-]. split; [exact Hok|]. change (bytes_ok (k_file (ne_kernel (me_new V)) ++ pending f)).
    by rewrite Hfile, Hp.
Qed.

(** Closing flushes the buffer. *)
Lemma close_contents (w : outfile) fsync close ok k : sink_ok w -> fd (o_stream w).1 <> -1 ->
  fobuf_close (o_stream w).1 fsync close (o_stream w).2 = Ret (ok, k) -> ok = true -> out_done w k = contents w.
Proof.
  destruct w as [dn base [b k0]]. cbn [o_stream fst snd]. intros Hw Hfd H ->. unfold fobuf_close in H.
  rewrite (proj2 (Z.eqb_neq _ _)) in H by done. apply outcome_bind_ret in H as ([[ok1 b1] k1] & Hf & [= Hok <-]).
  destruct ok1; [|done]. destruct (flush_spec b k0 true b1 k1 Hw Hf) as (_ & _ & _ & Hk & _).
  unfold out_done, contents. by rewrite Hk.
Qed.

(** A trie that was built: everything was allocated, it has a root, and its edges
    are the ones counted. *)
Lemma trie_new_built ta c h v t root order : v <> [] -> trie_new ta c h (Some v) = Ret (Some (t, root, order)) ->
  c = true /\ h = true /\ length order = r_num_edges t /\ (0 < length order)%nat /\ exists e, root = Some e.
Proof.
  intros Hv H. unfold trie_new in H. destruct c, h; try done. split_and!; [done|done|..];
    destruct (trie_new_ok ta v Hv) as (res & Hn & Hres); unfold trie_new in Hn; cbn [negb andb] in H, Hn; rewrite H in Hn;
    injection Hn as <-; destruct (Hres _ _ _ eq_refl) as (e & -> & -> & Hg & _);
    destruct (grown_order t e Hg) as (Ho & _ & Hl & _); [done| |eauto].
  rewrite Ho. cbn. lia.
Qed.

Lemma scan_contents V r : (forall p s, we_open (me_write V) p = Some s -> bytes_ok s) -> scan_ok None r -> contents_ok (me_write V) r.
Proof.
  intros Hf O f src. unfold content_of. destruct (f_content f) as [p|off]; [apply Hf|].
  destruct (r_tmpchunks r) as [s|] eqn:E; [|done]. intros [= <-]. apply Forall_drop. by apply (so_tmp _ _ O s E).
Qed.

Lemma output_size_ok r r' ms ros fos t order : site r ms ros fos -> prepped r r' ms ros fos t order -> total_size fos < 2 ^ 62 ->
  index_base ros fos t + bytes_in (m_type <$> ms) + bytes_in (target <$> ros) < WEBROOT_INVALID_REDIRECT ->
  webroot_output_size r' t = index_base ros fos t + bytes_in (m_type <$> ms) + bytes_in (target <$> ros) + total_size fos /\
  0 <= webroot_output_size r' t.
Proof.
  intros Hs [_ _ _ _ [Hnr Hnf] _ _ _ Hmt Hrt Hfs] Ht Hsz. pose proof (bytes_in_nonneg (m_type <$> ms)).
  pose proof (bytes_in_nonneg (target <$> ros)). pose proof (total_size_nonneg fos (si_are_files _ _ _ _ Hs)).
  unfold webroot_output_size. rewrite Hmt, Hrt, Hfs, Hnr, Hnf, (si_num_redirect _ _ _ _ Hs), (si_num_file _ _ _ _ Hs).
  unfold index_base, WEBROOT_INVALID_REDIRECT, trie_trie_size in *. rewrite uint_small by lia. lia.
Qed.

(** Everything [do_mkroot] has done when it succeeds. *)
Lemma do_mkroot_image bufsz V fuel dir r0 r file : env_ok bufsz V -> fresh V dir = Some r0 ->
  scan_item (me_env V) fuel [] (Some []) r0 = Ret (true, r) -> format_ok V r ->
  do_mkroot_with bufsz V fuel dir = Ret (Some file) ->
  exists r' ms ros fos t root order ds datas, site r ms ros fos /\ prepped r r' ms ros fos t order /\
    trie_new (me_trie_alloc V) true true (Some (site_entries r)) = Ret (Some (t, Some root, order)) /\
    sizes_ok r ms ros fos (me_trie_alloc V) true true /\
    Forall2 (record_of order) order ds /\ Forall2 (file_data (me_write V) r) fos datas /\
    length order = r_num_edges t /\ (0 < length order)%nat /\
    file = the_image (me_write V) r' ms ros fos t ds datas.
Proof.
  intros HV Hfresh Hscan [Hne Huris [Hc1 Hc2] Hsizes] H. destruct (fresh_webroot_ok bufsz V dir r0 HV Hfresh) as [O0 _].
  assert (scan_ok None r) as O.
  { eapply (wp_scan_item (me_env V) (eo_alloc _ _ HV) (eo_names _ _ HV) (eo_sizes _ _ HV) fuel [] [] r0 (scan_ok None)); [constructor|done| |exact Hscan|done].
    by intros r' [? _] _. }
  destruct (scan_site r O Hc1 Hc2) as (ms & ros & fos & Hsite & Hdg). 
  rewrite (members_of _ _ _ (si_mimes _ _ _ _ Hsite)), (members_of _ _ _ (si_redirects _ _ _ _ Hsite)),
    (members_of _ _ _ (si_files _ _ _ _ Hsite)) in Hsizes.
  unfold do_mkroot_with in H. unfold fresh in Hfresh. rewrite Hfresh, Hscan in H. run_in H.
  destruct (prep_ok (me_env V) (me_trie_alloc V) (me_trie_calloc V) (me_trie_hgang V) r ms ros fos Hsite Hne (so_mimetab _ _ O) Hsizes)
    as (b & r' & Ep & Hprep). rewrite Ep in H. run_in H.
  destruct b; cbn [negb] in H; [|by apply outcome_bind_ret in H as ([] & _ & ?)].
  destruct (Hprep eq_refl) as (t & root & order & Et & Hp).
  destruct (Z.ltb_spec (me_open V) 0); [by apply outcome_bind_ret in H as ([] & _ & ?)|].
  rewrite (pr_trie _ _ _ _ _ _ _ Hp) in H. run_in H.
  destruct (me_fallocate V); cbn [negb] in H; [|by apply outcome_bind_ret in H as ([] & _ & ?)].
  destruct (fobuf_new _ _ _ _) as [b|] eqn:Eb; [|by apply outcome_bind_ret in H as ([] & _ & ?)].
  destruct (fobuf_new_ok _ _ _ _ _ Eb (eo_outbuf _ _ HV)) as (Hbok & Hbp & Hbfd).
  set (w := Outfile _ _ _) in H. apply outcome_bind_ret in H as ([[okw r2] w'] & Hw & H).
  destruct okw; [|done]. cbn [negb] in H.
  assert (site_entries r <> []) as Hve.
  { unfold site_entries. intros E0%fmap_nil_inv. apply Hne, Permutation_nil_r. rewrite <- E0.
    by rewrite sorting.merge_sort_Permutation. }
  destruct (trie_new_built _ _ _ _ _ _ _ Hve Et) as (Ec & Eh & Hl & Hpos & e & ->). rewrite Ec, Eh in *.
  pose proof (proj1 (proj2 Hsizes)) as Htot. pose proof (proj2 (proj2 Hsizes) _ _ _ Et) as Hsz.
  destruct (output_size_ok r r' ms ros fos t order Hsite Hp Htot Hsz) as [Hout Hout0].
  destruct (webroot_write_ok (me_write V) r r' ms ros fos t order w r2 w' Hsite Hp Hdg) as
    (ds & datas & Hds & Hdata & Hok & Hfd & Hcont); try done.
  - apply scan_contents; [apply HV|done].
  - intros s Hs. by apply (so_tmp _ _ O).
  - apply HV.
  - unfold trie_trie_size. rewrite Hl. lia.
  - cbn [o_done w]. rewrite length_replicate, <- Hout. lia.
  - exists r', ms, ros, fos, t, e, order, ds, datas. split_and!; try done.
    destruct (o_stream w') as [b' k'] eqn:Ew. apply outcome_bind_ret in H as ([okc kc] & Hc & H).
    apply outcome_bind_ret in H as ([] & _ & [= H]). destruct okc; [|done]. injection H as <-.
    rewrite (close_contents w' (me_fsync V) (me_close V) true kc); rewrite ?Ew; try done. cbn [fst]; cbn [fst] in Hfd. rewrite Hfd. cbn [w o_stream fst]. lia.
Qed.

(** C1: the whole of mkroot against the server. When [do_mkroot] succeeds on a
    directory whose scan gave [r], the file it leaves opens, however its bytes
    arrive, and the webroot found in it answers every C string: a string linked
    by the scan with the object it was linked to (the status code, the target of
    the redirect, or the file's media type, size, bytes, date and SHA-1 digest,
    each read at the place the answer points to), and any other string with
    nothing. Holds for every size of the output buffer. *)
Theorem mkroot_roundtrip bufsz V fuel dir r0 r file : env_ok bufsz V -> fresh V dir = Some r0 ->
  scan_item (me_env V) fuel [] (Some []) r0 = Ret (true, r) -> format_ok V r ->
  do_mkroot_with bufsz V fuel dir = Ret (Some file) ->
  forall desc ios polls, 0 <= desc ->
  match fd_read ios polls file hdr_sz with
  | Fault f => f = Blocked
  | Ret (false, _, _, _, _) => webroot_open true desc ios polls true true file = Ret None
  | Ret (true, _, _, _, _) => exists wr, webroot_open true desc ios polls true true file = Ret (Some wr) /\
    forall s mem, Z.of_nat (length s) < 2 ^ 64 -> string_mem mem s ->
    let result := webroot_find (S (S (length s))) wr mem (Z.of_nat (length s)) in
    (forall u o, u ∈ r_uri r -> uri_str u = s -> r_objs r !! u_obj u = Some o ->
       exists n, result = Ret (Some n) /\ served file (me_write V) r o n) /\
    (s ∉ uri_str <$> r_uri r -> result = Ret None)
  end.
Proof.
  intros HV Hfresh Hscan Hfo H desc ios polls Hdesc.
  destruct (do_mkroot_image bufsz V fuel dir r0 r file HV Hfresh Hscan Hfo H) as
    (r' & ms & ros & fos & t & root & order & ds & datas & Hsite & Hp & Et & (Hcnt & Htot & Hsz) & Hds & Hdata & Hl & Hpos & ->).
  specialize (Hsz _ _ _ Et).
  pose proof (image_opens (me_write V) r r' ms ros fos t order ds datas Hsite Hp Hds Hdata (eo_pad _ _ HV) Hl Hsz Hpos
    desc ios polls Hdesc) as Hopen.
  destruct (fd_read ios polls _ hdr_sz) as [[[[[[] hdr] eof] ios'] polls']|f]; [|done|done].
  eexists. split; [exact Hopen|]. intros s mem H64 Hmem.
  by apply (image_finds (me_write V) r r' ms ros fos t order ds datas Hsite Hp Hds Hdata (eo_pad _ _ HV) Hl Hsz Hpos Htot
    (me_trie_alloc V) root); try apply Hfo; try apply HV.
Qed.

(** ** A small directory

    A file and a symbolic link to it; the index page is generated. *)

Definition sample_stat (k : fkind) (ino size : Z) : stat := Stat k 1 ino 1000 size.

Definition sample_lookup {A} (l : list (list Z * A)) (p : list Z) : option A :=
  match List.find (fun x => bool_decide (x.1 = p)) l with Some (_, a) => Some a | None => None end.

Definition sample_env : env := {|
  e_lstat := sample_lookup [(lit "w/", sample_stat S_DIR 1 0); (lit "w/a", sample_stat S_REG 2 2);
                            (lit "w/l", sample_stat S_LNK 3 0)];
  e_stat := fun p => StatNoent;
  e_readdir := sample_lookup [(lit "w/", [lit "."; lit ".."; lit "a"; lit "l"])];
  e_readlink := sample_lookup [(lit "w/l", lit "a")];
  e_stack := fun _ => [1; 0];
  e_magic := fun _ => Some (lit "text/plain");
  e_alloc := fun _ => true;
|}.

Definition sample_main : mainenv := {|
  me_new := NewEnv (fun _ => true) true 7 true (Some (replicate 4096 0)) (Kernel (replicate 4 (SysOk 5000)) [] []);
  me_env := sample_env;
  me_write := WEnv (sample_lookup [(lit "w/a", lit "hi")]) (fun _ => [SysOk 300; SysOk 300]) true true [0; 0; 0; 0];
  me_trie_alloc := fun _ => true;
  me_trie_calloc := true;
  me_trie_hgang := true;
  me_open := 3;
  me_fallocate := true;
  me_fobuf := true;
  me_buf := Some (replicate 64 0);
  me_kernel := (replicate 40 (SysOk 1000), []);
  me_fsync := SysOk 0;
  me_close := SysOk 0;
|}.

Definition sample_r0 : mkroot := default (empty_webroot [] (Fobuf 0 [] 0 0 0, Kernel [] [] [])) (fresh sample_main (lit "w")).
Definition sample_r : mkroot :=
  match scan_item sample_env 3 [] (Some []) sample_r0 with Ret (_, r) => r | Fault _ => sample_r0 end.
Definition sample_file : list Z :=
  match do_mkroot_with 64 sample_main 3 (lit "w") with Ret (Some file) => file | _ => [] end.

Lemma sample_lookup_in {A} (l : list (list Z * A)) p a : sample_lookup l p = Some a -> a ∈ l.*2.
Proof.
  unfold sample_lookup. destruct (List.find _ l) as [[q b]|] eqn:Ef; [|done]. intros [= <-].
  apply List.find_some in Ef as [Hin _]. apply list_elem_of_fmap. exists (q, b). split; [done|]. by apply list_elem_of_In.
Qed.

Lemma sample_env_ok : env_ok 64 sample_main.
Proof.
  split; try reflexivity.
  - intros p st [H|H]; [|discriminate H]. apply sample_lookup_in in H. cbn in H. set_unfold in H.
    destruct H as [->|[->|[->|[]]]]; cbn; lia.
  - intros p names H. apply sample_lookup_in in H. cbn [fmap list_fmap snd] in H. apply list_elem_of_singleton in H as ->. by_decide.
  - intros p s H. apply sample_lookup_in in H. cbn [fmap list_fmap snd] in H. apply list_elem_of_singleton in H as ->. by_decide.
  - intros m [= <-]. reflexivity.
  - intros m [= <-]. reflexivity.
Qed.

Lemma sample_scanned : scan_item (me_env sample_main) 3 [] (Some []) sample_r0 = Ret (true, sample_r).
Proof. vm_compute. reflexivity. Qed.

Definition built (ta : nat -> bool) (c h : bool) (v : list trie_entry) : trie :=
  match trie_new ta c h (Some v) with Ret (Some (t, _, _)) => t | _ => trie0 end.

Lemma built_is ta c h v t root order : trie_new ta c h (Some v) = Ret (Some (t, root, order)) -> t = built ta c h v.
Proof. intros H. unfold built. by rewrite H. Qed.

Lemma sample_format_ok : format_ok sample_main sample_r.
Proof.
  split.
  - by_decide.
  - split; by_decide.
  - by_decide.
  - unfold sizes_ok. split; [by_decide|]. split; [by_decide|]. intros t root order ->%built_is. vm_compute. reflexivity.
Qed.

Lemma mkroot_roundtrip_witness :
  do_mkroot_with 64 sample_main 3 (lit "w") = Ret (Some sample_file) /\
  exists wr, webroot_open true 5 [SysOk 500] [] true true sample_file = Ret (Some wr) /\
    exists n, webroot_find 4 wr (lit "/a" ++ replicate 8 0) 2 = Ret (Some n) /\
      webroot_find 4 wr (lit "/b" ++ replicate 8 0) 2 = Ret None.
Proof.
  assert (do_mkroot_with 64 sample_main 3 (lit "w") = Ret (Some sample_file)) as Hmk by (vm_compute; reflexivity).
  assert (fresh sample_main (lit "w") = Some sample_r0) as Hf by (vm_compute; reflexivity).
  split; [exact Hmk|].
  pose proof (mkroot_roundtrip 64 sample_main 3 (lit "w") sample_r0 sample_r sample_file sample_env_ok Hf sample_scanned
    sample_format_ok Hmk 5 [SysOk 500] [] ltac:(lia)) as H.
  destruct (fd_read [SysOk 500] [] sample_file hdr_sz) as [[[[[[] hdr] eof] ios'] polls']|f] eqn:E;
    [|vm_compute in E; discriminate E..].
  destruct H as (wr & Hwr & Hall). exists wr. split; [exact Hwr|].
  destruct (Hall (lit "/a") (lit "/a" ++ replicate 8 0)) as [Ha _];
    [reflexivity|exists (replicate 7 0); split; [reflexivity|cbn; unfold RE_EDGE_MAX; lia]|].
  destruct (Hall (lit "/b") (lit "/b" ++ replicate 8 0)) as [_ Hb];
    [reflexivity|exists (replicate 7 0); split; [reflexivity|cbn; unfold RE_EDGE_MAX; lia]|].
  destruct (Ha (Uri 2 (Some (lit "/a"))) (default (Obj 0 (OBJ_TYPE_REDIRECT None 0 0)) (r_objs sample_r !! 2%nat))) as (n & Hn & _);
    [by_decide|reflexivity|vm_compute; reflexivity|].
  exists n. split; [exact Hn|]. apply Hb. by_decide.
Defined.

(** C6: a scan that succeeds has linked everything. For every path reached from
    the directory through [readdir] (leaving out [.], [..] and dot files): a
    regular file is linked to a file object of the same device and inode; a
    symbolic link to a redirect to its text, taken from the link's directory; and
    a directory, under its name with a slash, to its index page or to the page
    generated for it, and, but for the root, under its name to a redirect to
    that. The state is well formed: every number and list agrees. *)
Theorem scan_links bufsz V fuel dir r0 r : env_ok bufsz V -> fresh V dir = Some r0 ->
  scan_item (me_env V) fuel [] (Some []) r0 = Ret (true, r) ->
  scan_ok None r /\ r_base r = dir /\ forall d u, under (me_env V) dir [] [] d u -> placed (me_env V) r d u.
Proof.
  intros HV Hf Hscan. destruct (fresh_webroot_ok bufsz V dir r0 HV Hf) as [O0 Eb].
  assert (step r0 None r /\ all_placed (me_env V) r [] []) as [[O X] Hall].
  { eapply (wp_scan_item (me_env V) (eo_alloc _ _ HV) (eo_names _ _ HV) (eo_sizes _ _ HV) fuel [] [] r0
      (fun r => step r0 None r /\ all_placed (me_env V) r [] [])); [constructor|done| |exact Hscan|done]. auto. }
  pose proof (ex_base _ _ X) as Eb'. rewrite Eb in Eb'. split_and!; [done|done|]. rewrite <- Eb'. exact Hall.
Qed.

Lemma scan_links_witness : linked sample_r (lit "/l") (is_the_redirect sample_r (lit "/a")).
Proof.
  assert (fresh sample_main (lit "w") = Some sample_r0) as Hf by (vm_compute; reflexivity).
  generalize (scan_links 64 sample_main 3 (lit "w") sample_r0 sample_r sample_env_ok Hf sample_scanned).
  generalize sample_r. intros r (_ & Eb & H).
  specialize (H [] (lit "/l")). unfold placed in H. rewrite Eb in H.
  destruct H as (t & Ht & H).
  - eapply (under_entry _ _ _ _ (sample_stat S_DIR 1 0) _ (lit "l"));
      [reflexivity|reflexivity|reflexivity|by_decide|reflexivity|apply under_here].
  - assert (t = lit "a") as -> by (vm_compute in Ht; injection Ht as <-; reflexivity). exact H.
Defined.

(** [webroot_new] either gives an empty webroot and holds everything it
    acquired, or gives nothing and holds nothing: the labels release each
    resource in turn whichever step fails. *)
Theorem webroot_new_releases N base : match webroot_new N base with
  | (Some r, held) => held = [ResTmpFd; ResMagic; ResStrMem; ResMimeMem; ResObjMem; ResUriMem; ResRoot] /\
      r_uri r = [] /\ r_redirect r = [] /\ r_file r = [] /\ r_base r = base
  | (None, held) => held = []
  end.
Proof.
  unfold webroot_new. repeat (case_match; simplify_eq); try done; split_and!; done.
Qed.

(** when a generated page cannot be written to the temporary file, its buffer
    is thrown away, the scan fails, and [webroot_free] then reads the descriptor
    out of the null pointer left in its place: [do_mkroot] crashes instead of
    failing. *)
Theorem mkroot_crash_on_full_tmp bufsz V fuel dir r0 r : fresh V dir = Some r0 ->
  scan_item (me_env V) fuel [] (Some []) r0 = Ret (false, r) -> r_tmpchunks r = None ->
  do_mkroot_with bufsz V fuel dir = Fault OutOfBounds.
Proof.
  intros Hf Hs Ht. unfold do_mkroot_with. unfold fresh in Hf. rewrite Hf, Hs. run. cbn [negb]. unfold webroot_free. by rewrite Ht.
Qed.

(** The sample directory with a temporary file system that is full: the buffer
    holds 4096 bytes, and the directory's page is longer. *)
Definition long_names : list (list Z) := replicate 12 (replicate 200 97).

Definition full_env : env := {|
  e_lstat := sample_lookup [(lit "w/", sample_stat S_DIR 1 0)];
  e_stat := fun p => StatNoent;
  e_readdir := sample_lookup [(lit "w/", long_names)];
  e_readlink := fun _ => None;
  e_stack := fun _ => [];
  e_magic := fun _ => None;
  e_alloc := fun _ => true;
|}.

Definition full_main : mainenv := {|
  me_new := NewEnv (fun _ => true) true 7 true (Some (replicate 4096 0)) (Kernel [SysErr EOTHER] [] []);
  me_env := full_env;
  me_write := me_write sample_main;
  me_trie_alloc := me_trie_alloc sample_main;
  me_trie_calloc := true;
  me_trie_hgang := true;
  me_open := 3;
  me_fallocate := true;
  me_fobuf := true;
  me_buf := None;
  me_kernel := ([], []);
  me_fsync := SysOk 0;
  me_close := SysOk 0;
|}.

Lemma mkroot_crash_on_full_tmp_witness : do_mkroot_with 64 full_main 3 (lit "w") = Fault OutOfBounds.
Proof.
  destruct (fresh full_main (lit "w")) as [r0|] eqn:Ef; [|vm_compute in Ef; discriminate Ef].
  destruct (scan_item full_env 3 [] (Some []) r0) as [[[] r]|f] eqn:Es.
  - vm_compute in Ef. injection Ef as <-. vm_compute in Es. discriminate Es.
  - apply (mkroot_crash_on_full_tmp 64 full_main 3 (lit "w") r0 r Ef Es).
    vm_compute in Ef. injection Ef as <-. vm_compute in Es. injection Es as <-. reflexivity.
  - vm_compute in Ef. injection Ef as <-. vm_compute in Es. discriminate Es.
Defined.

Lemma cstr_zeros p m : Forall (fun b => b <> 0) p -> cstr (p ++ replicate m 0) = p.
Proof.
  induction 1 as [|b p Hb _ IH]; [by destruct m|]. cbn. rewrite (proj2 (Z.eqb_neq _ _)) by done. by rewrite IH.
Qed.

Lemma rstrip_from_ok p m : Forall (fun b => b <> 0) p ->
  exists q k, cstr (rstrip_from (length p) (p ++ replicate m 0)) = q /\ ends_slash q = false /\ p = q ++ replicate k 47.
Proof.
  revert m. induction p as [|x p IH] using rev_ind; intros m Hp.
  { exists [], 0%nat. split_and!; [by destruct m|done|done]. }
  rewrite length_app, Nat.add_1_r. cbn [rstrip_from]. rewrite <- app_assoc, lookup_app_r, Nat.sub_diag by lia.
  cbn [app lookup list_lookup]. apply Forall_app in Hp as [Hp Hx]. apply Forall_cons in Hx as [Hx _]. case_bool_decide as E.
  - injection E as ->. rewrite insert_app_r_alt, Nat.sub_diag by lia. cbn [insert list_insert].
    change (0 :: replicate m 0) with (replicate (S m) 0).
    destruct (IH (S m) Hp) as (q & k & Hq & He & Ep). exists q, (S k). split_and!; [exact Hq|done|].
    rewrite Ep, <- app_assoc. f_equal. by rewrite replicate_S_end.
  - exists (p ++ [x]), 0%nat. split_and!.
    + change (x :: replicate m 0) with ([x] ++ replicate m 0). rewrite app_assoc. apply cstr_zeros, Forall_app. split; [done|]. by constructor.
    + unfold ends_slash. rewrite last_snoc. apply bool_decide_eq_false. congruence.
    + by rewrite app_nil_r.
Qed.

(** [rstrip_slashes] leaves the longest prefix of a path that does not end in
    a slash: only slashes follow it. *)
Theorem rstrip_slashes_spec path : Forall (fun b => b <> 0) path ->
  ends_slash (rstrip_slashes path) = false /\ exists k, path = rstrip_slashes path ++ replicate k 47.
Proof.
  intros Hp. destruct (rstrip_from_ok path 0 Hp) as (q & k & Hq & He & Ep). rewrite app_nil_r in Hq.
  unfold rstrip_slashes. rewrite Hq. eauto.
Qed.

Lemma rstrip_slashes_spec_witness : ends_slash (rstrip_slashes (lit "/srv//")) = false.
Proof. apply (rstrip_slashes_spec (lit "/srv//")). by_decide. Defined.
