(* ===== verification/HttpBuf.v ===== *)
(** * http_buf.c: the request, response and data buffers

    A buffer is a fixed piece of memory with a read and a write position; both
    are offsets from [b_base], and [b_end] is the memory's length. What the
    pools it comes from hand out is an input. *)

From S2P Require Import Prelude.

Definition HTTP_MAX_REQ : nat := 2048.
Definition HTTP_MAX_RESP : nat := 1024.
Definition HTTP_DATA_BUFFER : nat := 4096.

Record http_buf := HttpBuf { b_mem : list Z; b_read : nat; b_write : nat }.

Definition b_end (b : http_buf) : nat := length (b_mem b).

(** The object size of each pool, as the constructor sets them up: requests are
    given the size named for responses and the other way round. *)
Inductive pool := h_req_pool | h_res_pool | h_dat_pool.

Definition pool_size (p : pool) : nat :=
  match p with
  | h_res_pool => HTTP_MAX_REQ
  | h_req_pool => HTTP_MAX_RESP
  | h_dat_pool => HTTP_DATA_BUFFER
  end.

(** How many objects of each pool are in use. *)
Record pools := Pools { n_req : nat; n_res : nat; n_dat : nat }.

Definition in_use (ps : pools) (p : pool) : nat :=
  match p with h_req_pool => n_req ps | h_res_pool => n_res ps | h_dat_pool => n_dat ps end.

Definition set_use (ps : pools) (p : pool) (n : nat) : pools :=
  match p with
  | h_req_pool => Pools n (n_res ps) (n_dat ps)
  | h_res_pool => Pools (n_req ps) n (n_dat ps)
  | h_dat_pool => Pools (n_req ps) (n_res ps) n
  end.

(** The allocator's answers to one [do_alloc]: whether there is a descriptor, and
    the memory, with whatever was in it. *)
Record alloc_answer := AllocAnswer { ans_desc : bool; ans_mem : option (list Z) }.

Definition do_alloc (p : pool) (ans : alloc_answer) (ps : pools) : option http_buf * pools :=
  if negb (ans_desc ans) then (None, ps)
  else
    match ans_mem ans with
    | None => (None, ps)
    | Some garbage =>
      (Some (HttpBuf (resize (pool_size p) 0%Z garbage) 0 0), set_use ps p (S (in_use ps p)))
    end.

(** Returning an object to a pool that has none out is a double free. *)
Definition do_free (p : pool) (b : option http_buf) (ps : pools) : outcome pools :=
  match b with
  | None => Ret ps
  | Some _ =>
    match in_use ps p with
    | O => Fault OutOfBounds
    | S n => Ret (set_use ps p n)
    end
  end.

Definition buf_alloc_req := do_alloc h_req_pool.
Definition buf_free_req := do_free h_req_pool.
Definition buf_alloc_res := do_alloc h_res_pool.
Definition buf_free_res := do_free h_res_pool.
Definition buf_alloc_data := do_alloc h_dat_pool.
Definition buf_free_data := do_free h_dat_pool.

(** The pointer (as an offset) and the size. *)
Definition buf_read (b : http_buf) : outcome (nat * nat) :=
  assert! b_read b <=? b_write b ;;
  Ret (b_read b, b_write b - b_read b).

Definition buf_write (b : http_buf) : outcome (option nat * nat) :=
  assert! b_write b <=? b_end b ;;
  Ret (if b_write b <? b_end b then Some (b_write b) else None, b_end b - b_write b).

Definition buf_done_read (b : http_buf) (sz : nat) : outcome (http_buf * nat) :=
  assert! b_read b + sz <=? b_write b ;;
  assert! b_read b + sz <=? b_end b ;;
  Ret (HttpBuf (b_mem b) (b_read b + sz) (b_write b), b_write b - (b_read b + sz)).

Definition buf_done_write (b : http_buf) (sz : nat) : outcome (http_buf * nat) :=
  assert! b_write b + sz <=? b_end b ;;
  Ret (HttpBuf (b_mem b) (b_read b) (b_write b + sz), b_end b - (b_write b + sz)).

(** Stores through a pointer into the buffer. *)
Definition poke (b : http_buf) (off : nat) (l : list Z) : outcome http_buf :=
  if off + length l <=? b_end b
  then Ret (HttpBuf (take off (b_mem b) ++ l ++ drop (off + length l) (b_mem b)) (b_read b) (b_write b))
  else Fault OutOfBounds.

Definition bytes_at (b : http_buf) (off n : nat) : list Z := take n (drop off (b_mem b)).

Definition buf_reset (b : http_buf) : outcome http_buf :=
  assert! b_read b <=? b_write b ;;
  assert! b_read b <=? b_end b ;;
  if b_read b =? b_write b then Ret (HttpBuf (b_mem b) 0 0)
  else
    let res := b_write b - b_read b in
    b ← poke b 0 (bytes_at b (b_read b) res);
    Ret (HttpBuf (b_mem b) 0 res).

(** ** A buffer as a queue of bytes *)

Definition buf_ok (b : http_buf) : Prop := b_read b <= b_write b <= b_end b.

Definition unread (b : http_buf) : list Z := bytes_at b (b_read b) (b_write b - b_read b).

Definition room (b : http_buf) : nat := b_end b - b_write b.

Lemma length_bytes_at b off n : off + n <= b_end b -> length (bytes_at b off n) = n.
Proof. unfold bytes_at, b_end. intros. rewrite length_take, length_drop. lia. Qed.

Lemma length_unread b : buf_ok b -> length (unread b) = b_write b - b_read b.
Proof. intros [? ?]. apply length_bytes_at. lia. Qed.

Lemma read_ok b : buf_ok b -> buf_read b = Ret (b_read b, length (unread b)).
Proof.
  intros Hb. rewrite length_unread by done. destruct Hb. unfold buf_read.
  by rewrite (proj2 (Nat.leb_le _ _)) by lia.
Qed.

Lemma write_ok b : buf_ok b ->
  buf_write b = Ret (if room b =? 0 then None else Some (b_write b), room b).
Proof.
  intros [? ?]. unfold buf_write, room. rewrite (proj2 (Nat.leb_le _ _)) by lia. run.
  destruct (Nat.ltb_spec (b_write b) (b_end b)), (Nat.eqb_spec (b_end b - b_write b) 0); (done || lia).
Qed.

Lemma done_read_ok b sz : buf_ok b -> sz <= length (unread b) ->
  exists b', buf_done_read b sz = Ret (b', length (unread b')) /\ buf_ok b' /\
    unread b' = drop sz (unread b) /\ b_end b' = b_end b /\ b_write b' = b_write b.
Proof.
  intros Hb Hs. pose proof (length_unread b Hb) as Hl. rewrite Hl in Hs. destruct Hb as [H1 H2].
  set (b' := HttpBuf (b_mem b) (b_read b + sz) (b_write b)).
  assert (buf_ok b') as Hb' by (unfold b', buf_ok, b_end in *; cbn; lia).
  exists b'. unfold buf_done_read. rewrite !(proj2 (Nat.leb_le _ _)) by lia. run.
  rewrite length_unread by done. split_and!; [done|done| |done|done].
  unfold unread, bytes_at. cbn. rewrite skipn_firstn_comm, drop_drop. f_equal. lia.
Qed.

(** Writing at the write position and moving it: appending. *)
Lemma append_ok b l n : buf_ok b -> length l <= room b -> n <= length l ->
  exists b1 b2, poke b (b_write b) l = Ret b1 /\ buf_done_write b1 n = Ret (b2, room b2) /\
    buf_ok b1 /\ buf_ok b2 /\ unread b1 = unread b /\ unread b2 = unread b ++ take n l /\ b_end b1 = b_end b /\
    b_end b2 = b_end b /\ b_write b2 = b_write b + n /\ b_write b1 = b_write b.
Proof.
  intros Hok Hl Hn. pose proof Hok as [H1 H2]. unfold room in Hl. unfold poke.
  rewrite (proj2 (Nat.leb_le _ _)) by lia.
  set (m := take (b_write b) (b_mem b) ++ l ++ drop (b_write b + length l) (b_mem b)).
  assert (length m = b_end b) as Hm.
  { unfold m. rewrite !length_app, length_take, length_drop. fold (b_end b). lia. }
  exists (HttpBuf m (b_read b) (b_write b)), (HttpBuf m (b_read b) (b_write b + n)).
  split; [done|]. unfold buf_done_write, buf_ok, room.
  assert (forall r w, b_end (HttpBuf m r w) = b_end b) as He by done.
  rewrite !He. cbn [b_read b_write b_mem]. rewrite (proj2 (Nat.leb_le _ _)) by lia.
  assert (take (b_write b) m = take (b_write b) (b_mem b)) as Ht.
  { unfold m. rewrite take_app_le by (rewrite length_take; unfold b_end in *; lia).
    by rewrite take_take, Nat.min_id. }
  split_and!; try (done || lia).
  - unfold unread, bytes_at. cbn. rewrite !firstn_skipn_comm.
    replace (b_read b + (b_write b - b_read b)) with (b_write b) by lia. by rewrite Ht.
  - unfold unread, bytes_at. cbn. rewrite !firstn_skipn_comm.
    replace (b_read b + (b_write b - b_read b)) with (b_write b) by lia.
    replace (b_read b + (b_write b + n - b_read b)) with (b_write b + n) by lia.
    assert (take (b_write b + n) m = take (b_write b) (b_mem b) ++ take n l) as ->.
    { unfold m. rewrite take_app. rewrite length_take, Nat.min_l by (unfold b_end in *; lia).
      rewrite take_ge by (rewrite length_take; lia). f_equal.
      replace (b_write b + n - b_write b) with n by lia. by rewrite take_app_le by lia. }
    rewrite drop_app_le; [done|]. rewrite length_take. unfold b_end in *. lia.
Qed.

Lemma reset_ok b : buf_ok b -> exists b', buf_reset b = Ret b' /\ buf_ok b' /\ b_read b' = 0 /\
  unread b' = unread b /\ b_end b' = b_end b /\ b_write b' = length (unread b).
Proof.
  intros Hok. pose proof (length_unread b Hok) as Hlen. pose proof Hok as [H1 H2]. unfold buf_reset.
  rewrite !(proj2 (Nat.leb_le _ _)) by lia. run.
  destruct (Nat.eqb_spec (b_read b) (b_write b)) as [Heq|Hne].
  - eexists. split; [done|]. unfold buf_ok, unread, bytes_at in *. cbn. rewrite Heq, Nat.sub_diag in *.
    cbn. split_and!; (done || lia).
  - fold (unread b). unfold poke. rewrite Hlen. rewrite (proj2 (Nat.leb_le _ _)) by lia.
    cbn [mbind outcome_bind b_mem]. eexists. split; [done|]. cbn [take app].
    set (b' := HttpBuf _ _ _).
    assert (b_end b' = b_end b) as He.
    { unfold b', b_end in *. cbn [b_mem]. rewrite take_0, !length_app, length_drop, Hlen. cbn. lia. }
    split_and!; [|done| |exact He|done].
    + unfold buf_ok. rewrite He. unfold b'. cbn. lia.
    + unfold unread at 1, bytes_at, b'. cbn [b_mem b_read b_write]. rewrite drop_0, take_0, Nat.sub_0_r. cbn [app].
      rewrite take_app_le by lia. apply take_ge. lia.
Qed.

Lemma alloc_ok p ans ps b ps' : do_alloc p ans ps = (Some b, ps') ->
  buf_ok b /\ b_end b = pool_size p /\ unread b = [] /\ b_read b = 0 /\ b_write b = 0 /\
  ps' = set_use ps p (S (in_use ps p)).
Proof.
  unfold do_alloc. destruct (ans_desc ans); [|done]. destruct (ans_mem ans) as [g|]; [|done].
  cbn [negb]. intros [= <- <-]. unfold buf_ok, b_end. cbn [b_mem b_read b_write].
  split_and!; [lia|lia|by rewrite length_resize|done|done|done|done].
Qed.

Lemma alloc_none p ans ps ps' : do_alloc p ans ps = (None, ps') -> ps' = ps.
Proof. unfold do_alloc. destruct (ans_desc ans), (ans_mem ans); cbn; intros H; by simplify_eq. Qed.

(** A byte queue that a writer and a reader use: what the writer puts in, as it
    fits, and how much the reader takes. *)
Inductive buf_op := op_put (l : list Z) | op_get (n : nat) | op_reset.

Definition run_op (b : http_buf) (op : buf_op) : outcome http_buf :=
  match op with
  | op_put l =>
    '(_, sz) ← buf_write b;
    b ← poke b (b_write b) (take sz l);
    '(b, _) ← buf_done_write b (length (take sz l));
    Ret b
  | op_get n =>
    '(_, sz) ← buf_read b;
    '(b, _) ← buf_done_read b (min n sz);
    Ret b
  | op_reset => buf_reset b
  end.

(** a buffer is a queue of bytes: whatever the writer stores (as much of it as
    [buf_write] says fits) comes out at the reader's end in order; nothing is
    lost or repeated, no assertion fails and no store leaves the memory; and
    [buf_reset] moves the unread bytes to the front, giving the writer all the
    rest of the memory, without changing what is read. *)
Theorem http_buf_fifo b op : buf_ok b ->
  exists b', run_op b op = Ret b' /\ buf_ok b' /\ b_end b' = b_end b /\
    match op with
    | op_put l => unread b' = unread b ++ take (room b) l
    | op_get n => unread b = take n (unread b) ++ unread b'
    | op_reset => unread b' = unread b /\ room b' = b_end b - length (unread b)
    end.
Proof.
  intros Hb. destruct op as [l|n|]; cbn [run_op].
  - rewrite (write_ok b Hb). run.
    destruct (append_ok b (take (room b) l) (length (take (room b) l)) Hb) as
      (b1 & b2 & -> & H2 & _ & Hb2 & _ & Hu & He & Ht & Hw); [rewrite length_take; lia|lia|].
    run. rewrite H2. cbn. exists b2. split_and!; [done|done|done|].
    by rewrite Hu, firstn_all.
  - rewrite (read_ok b Hb). run.
    destruct (done_read_ok b (min n (length (unread b))) Hb ltac:(lia)) as (b' & -> & Hb' & Hu & He & _).
    cbn. exists b'. split_and!; [done|done|done|]. rewrite Hu.
    destruct (decide (n <= length (unread b))).
    + rewrite Nat.min_l by lia. by rewrite take_drop.
    + rewrite Nat.min_r, drop_ge, app_nil_r by lia. by rewrite take_ge by lia.
  - destruct (reset_ok b Hb) as (b' & -> & Hb' & _ & Hu & He & Hw). exists b'.
    split_and!; [done|done|done|done|]. unfold room. by rewrite He, Hw.
Qed.

Example http_buf_fifo_witness :
  let b := HttpBuf [1; 2; 3; 4; 5]%Z 2 4 in
  exists b', run_op b (op_put [7; 8; 9]%Z) = Ret b' /\ unread b' = [3; 4; 7]%Z.
Proof.
  cbn zeta. destruct (http_buf_fifo (HttpBuf [1; 2; 3; 4; 5]%Z 2 4) (op_put [7; 8; 9]%Z)) as (b' & H1 & _ & _ & H2);
    [unfold buf_ok, b_end; cbn; lia|]. exists b'. split; [exact H1|exact H2].
Defined.
