(* ===== verification/HttpHead.v ===== *)
(** * http_conn.c: composing response headers

    The canned responses, and the functions that print a header piece by piece
    into a response buffer. *)

From S2P Require Import Prelude Vec Webroot HttpBuf.
Local Open Scope Z_scope.

(** ** Numbers and times *)

Fixpoint dec_loop (fuel : nat) (u : Z) (acc : list Z) : list Z :=
  match fuel with
  | O => acc
  | S fuel =>
    let acc := 48 + u mod 10 :: acc in
    if u / 10 =? 0 then acc else dec_loop fuel (u / 10) acc
  end.

(** [%u] and its like, for numbers of at most 20 digits. *)
Definition dec (u : Z) : list Z := dec_loop 20 u [].

(** A field width [w], filled with [c] on the left. *)
Definition padded (w : nat) (c : Z) (l : list Z) : list Z := replicate (w - length l) c ++ l.

Definition hex_table : list Z := lit "01234567890abcdef".

Definition hexdig (n : Z) : Z := nth (Z.to_nat n) hex_table 0.

(** [print_etag(buf, etag)]: the string it stores, terminator included. *)
Definition print_etag (etag : list Z) : list Z :=
  flat_map (fun b => [hexdig (Z.shiftr b 4); hexdig (Z.land b 0xf)]) etag ++ [0].

Record tm := Tm {
  tm_sec : Z; tm_min : Z; tm_hour : Z; tm_mday : Z; tm_mon : Z; tm_year : Z; tm_wday : Z;
}.

(** The C library's [gmtime_r] for a time that is not negative: days since 1 March
    of the year 0 in 400-year eras, counted from 1970. *)
Definition gmtime (t : Z) : tm :=
  let days := t / 86400 in
  let secs := t mod 86400 in
  let z := days + 719468 in
  let era := z / 146097 in
  let doe := z mod 146097 in
  let yoe := (doe - doe / 1460 + doe / 36524 - doe / 146096) / 365 in
  let doy := doe - (365 * yoe + yoe / 4 - yoe / 100) in
  let mp := (5 * doy + 2) / 153 in
  let d := doy - (153 * mp + 2) / 5 + 1 in
  let mon := if mp <? 10 then mp + 3 else mp - 9 in
  let year := yoe + 400 * era + (if mon <=? 2 then 1 else 0) in
  Tm (secs mod 60) (secs / 60 mod 60) (secs / 3600) d (mon - 1) (year - 1900) ((4 + days) mod 7).

Definition dayofweek : list (list Z) :=
  lit <$> ["Sun"; "Mon"; "Tue"; "Wed"; "Thu"; "Fri"; "Sat"]%string.
Definition monthofyear : list (list Z) :=
  lit <$> ["Jan"; "Feb"; "Mar"; "Apr"; "May"; "Jun"; "Jul"; "Aug"; "Sep"; "Oct"; "Nov"; "Dec"]%string.

(** An array of strings indexed with an [int]. *)
Definition at_index (l : list (list Z)) (i : Z) : outcome (list Z) :=
  if 0 <=? i then of_option OutOfBounds (l !! Z.to_nat i) else Fault OutOfBounds.

Definition HTTP_TIME_BUF : nat := 44.

Definition two (z : Z) : list Z := padded 2 48 (dec z).

(** [print_time(buf, tm)]: the text it formats. *)
Definition print_time (t : tm) : outcome (list Z) :=
  d ← at_index dayofweek (tm_wday t);
  m ← at_index monthofyear (tm_mon t - 1);
  Ret (d ++ lit ", " ++ two (tm_mday t) ++ [SP] ++ m ++ [SP] ++ padded 4 SP (dec (tm_year t + 1900)) ++
       [SP] ++ two (tm_hour t) ++ lit ":" ++ two (tm_min t) ++ lit ":" ++ two (tm_sec t) ++ lit " GMT").

(** [snprintf(ptr, size, ...)]: what it stores of the text it formats. *)
Definition snprintf (size : nat) (text : list Z) : list Z :=
  match size with O => [] | S n => take n text ++ [0] end.

(** ** struct resp *)

Record resp := Resp { r_buf : http_buf; r_ptr : nat; r_end : nat; r_len : nat }.

(** A full buffer gives a null pointer, from which nothing fits: a position
    without room. *)
Definition resp_begin (h_res : http_buf) : outcome resp :=
  '(p, sz) ← buf_write h_res;
  let p := default (b_end h_res) p in
  Ret (Resp h_res p (p + sz) 0).

(** Storing [l] at [r_ptr] and moving on by [n]. *)
Definition resp_store (r : resp) (l : list Z) (n : nat) : outcome resp :=
  b ← poke (r_buf r) (r_ptr r) l;
  Ret (Resp b (r_ptr r + n) (r_end r) (r_len r + n)).

Definition resp_string (r : resp) (s : list Z) : outcome resp :=
  assert! (r_ptr r + length s <=? r_end r)%nat ;;
  resp_store r s (length s).

Definition resp_u64 (r : resp) (u : Z) : outcome resp :=
  let text := dec u in
  r' ← resp_store r (snprintf (r_end r - r_ptr r) text) (length text);
  assert! (r_ptr r + length text <=? r_end r)%nat ;;
  Ret r'.

Definition resp_etag (r : resp) (etag : list Z) : outcome resp :=
  assert! (r_ptr r + ETAG_SZ * 2 + 1 <=? r_end r)%nat ;;
  resp_store r (print_etag etag) (ETAG_SZ * 2).

Definition resp_time (r : resp) (t : tm) : outcome resp :=
  assert! (r_ptr r + HTTP_TIME_BUF <=? r_end r)%nat ;;
  text ← print_time t;
  resp_store r (snprintf (HTTP_TIME_BUF + 1) text) (length text).

Definition resp_http_code (r : resp) (code : Z) : outcome resp :=
  assert! (r_ptr r + 3 <=? r_end r)%nat ;;
  resp_store r [48 + (code / 100) mod 10; 48 + (code / 10) mod 10; 48 + code mod 10] 3.

(** ** The canned responses *)

Definition canned (status : string) (clen : string) (more : list Z) (body : string) : list Z :=
  lit "HTTP/1.1 " ++ lit status ++ crlf ++ lit "Content-Type: text/html" ++ crlf ++
  lit "Content-Length: " ++ lit clen ++ crlf ++ more ++ crlf ++ lit body.

Definition resp400 : list Z := canned "400 Bad Request" "82" (lit "Connection: Close" ++ crlf)
  "<html><head><title>Fuck Off</title></head><body><h1>Bad Request</h1></body></html>".
Definition resp500 : list Z := canned "500 Internal Server Error" "79" (lit "Connection: Close" ++ crlf)
  "<html><head><title>Fail Whale</title></head><body><h1>Sorry!</h1></body></html>".
Definition resp403 : list Z := canned "403 Forbidden" "84" []
  "<html><head><title>Fobidden</title></head><body><h1>Access denied</h1></body></html>".
Definition resp404 : list Z := canned "404 Object Not Found" "83" []
  "<html><head><title>Fuck Off</title></head><body><h1>y u no find?</h1></body></html>".
Definition resp501 : list Z := canned "501 Method Not Implemented" "87" []
  "<html><head><title>Fuck...</title></head><body><h1>y u no implement?</h1></body></html>".

(** [resp301] is a format with two strings in it. *)
Definition resp301 (host loc : list Z) : list Z := canned "301 Moved Permanently" "87"
  (lit "Location: http://" ++ host ++ loc ++ crlf)
  "<html><head><title>Object Moved</title></head><body><h1>Object Moved</h1></body></html>".
Definition resp301_format : list Z := resp301 (lit "%.*s") (lit "%.*s").

(** ** The header of a file

    The part of [handle_get] from [resp_begin] to [buf_done_write]. *)

Definition code_text (code : Z) : list Z :=
  if code =? 200 then lit " OK"
  else if code =? HTTP_NOT_MODIFIED then lit " Not Modified"
  else lit " Not Found".

Definition field (s : string) : list Z := crlf ++ lit s.

Definition server_line : list Z := field "Server: ashttpd" ++ crlf ++ crlf.

Definition get_response (h_res : http_buf) (code : Z) (mime : list Z) (data_len conn_close : Z)
    (etag : list Z) (mtime : Z) : outcome http_buf :=
  r ← resp_begin h_res;
  r ← resp_string r (lit "HTTP/1.1 ");
  r ← resp_http_code r code;
  r ← resp_string r (code_text code);
  r ← resp_string r (field "Content-Type: ");
  r ← resp_string r mime;
  r ← resp_string r (field "Content-Length: ");
  r ← resp_u64 r data_len;
  r ← resp_string r (field "Connection: ");
  r ← resp_string r (if negb (conn_close =? 0) then lit "Close" else lit "Keep-Alive");
  r ← resp_string r (field "ETag: ");
  r ← resp_etag r etag;
  r ← resp_string r (field "Last-Modified: ");
  r ← resp_time r (gmtime mtime);
  r ← resp_string r server_line;
  '(b, _) ← buf_done_write (r_buf r) (r_len r);
  Ret b.

(** What it amounts to. *)
Definition three (code : Z) : list Z := [48 + (code / 100) mod 10; 48 + (code / 10) mod 10; 48 + code mod 10].

Definition get_header (code : Z) (mime : list Z) (data_len conn_close : Z) (etag time : list Z) : list Z :=
  lit "HTTP/1.1 " ++ three code ++ code_text code ++
  field "Content-Type: " ++ mime ++
  field "Content-Length: " ++ dec data_len ++
  field "Connection: " ++ (if negb (conn_close =? 0) then lit "Close" else lit "Keep-Alive") ++
  field "ETag: " ++ take (ETAG_SZ * 2) (print_etag etag) ++
  field "Last-Modified: " ++ time ++ server_line.

(** ** Lemmas *)

Record resp_inv (b : http_buf) (r : resp) (t : list Z) : Prop := {
  inv_read : b_read (r_buf r) = b_read b;
  inv_write : b_write (r_buf r) = b_write b;
  inv_end : b_end (r_buf r) = b_end b;
  inv_rend : r_end r = b_end b;
  inv_len : r_len r = length t;
  inv_ptr : r_ptr r = (b_write b + length t)%nat;
  inv_room : (b_write b + length t <= b_end b)%nat;
  inv_mem : take (b_write b + length t) (b_mem (r_buf r)) = take (b_write b) (b_mem b) ++ t;
}.

Lemma begin_ok b : buf_ok b -> exists r, resp_begin b = Ret r /\ resp_inv b r [].
Proof.
  intros Hb. unfold resp_begin. rewrite (write_ok b Hb). run. eexists. split; [done|].
  destruct Hb as [H1 H2]. unfold room. destruct (Nat.eqb_spec (b_end b - b_write b) 0); cbn [default];
    constructor; cbn; rewrite ?Nat.add_0_r, ?app_nil_r; (done || lia).
Qed.

Lemma resp_store_ok b r t l n : buf_ok b -> resp_inv b r t -> (n <= length l)%nat ->
  (b_write b + length t + length l <= b_end b)%nat ->
  exists r', resp_store r l n = Ret r' /\ resp_inv b r' (t ++ take n l).
Proof.
  intros Hb [H1 H2 H3 H4 H5 H6 H7 H8] Hn Hl. unfold resp_store, poke. rewrite H6, H3.
  rewrite (proj2 (Nat.leb_le _ _)) by lia. run. eexists. split; [done|].
  set (m := b_mem (r_buf r)) in *. assert (length m = b_end b) as Hm by done.
  assert (length (take n l) = n) as Ht by (rewrite length_take; lia).
  constructor; cbn [r_buf r_ptr r_end r_len b_read b_write b_mem]; rewrite ?length_app, ?Ht; try (done || lia).
  - unfold b_end at 1. cbn [b_mem]. rewrite !length_app, length_take, length_drop. lia.
  - rewrite take_app, length_take, Nat.min_l by lia.
    rewrite take_ge by (rewrite length_take; lia). rewrite H8, <- app_assoc. do 2 f_equal.
    replace (b_write b + (length t + n) - (b_write b + length t))%nat with n by lia. by apply take_app_le.
Qed.

(** The pieces: each appends its text when there is room. *)
Section pieces.
Context (b : http_buf) (Hb : buf_ok b) (r : resp) (t : list Z) (Hr : resp_inv b r t).

Lemma string_ok s : (b_write b + length t + length s <= b_end b)%nat ->
  exists r', resp_string r s = Ret r' /\ resp_inv b r' (t ++ s).
Proof using Hb Hr.
  intros Hl. unfold resp_string. rewrite (inv_ptr _ _ _ Hr), (inv_rend _ _ _ Hr).
  rewrite (proj2 (Nat.leb_le _ _)) by lia. run.
  destruct (resp_store_ok b r t s (length s) Hb Hr ltac:(lia) Hl) as (r' & ? & H). exists r'.
  by rewrite firstn_all in H.
Qed.

Lemma code_ok code : (b_write b + length t + 3 <= b_end b)%nat ->
  exists r', resp_http_code r code = Ret r' /\ resp_inv b r' (t ++ three code).
Proof using Hb Hr.
  intros Hl. unfold resp_http_code. rewrite (inv_ptr _ _ _ Hr), (inv_rend _ _ _ Hr).
  rewrite (proj2 (Nat.leb_le _ _)) by lia. run.
  change [48 + (code / 100) mod 10; 48 + (code / 10) mod 10; 48 + code mod 10] with (three code).
  destruct (resp_store_ok b r t (three code) 3 Hb Hr) as (r' & ? & H); [done|exact Hl|]. by exists r'.
Qed.

Lemma length_snprintf size text : (length text < size)%nat ->
  length (snprintf size text) = S (length text) /\ take (length text) (snprintf size text) = text.
Proof using.
  intros H. unfold snprintf. destruct size as [|size]; [lia|]. rewrite take_ge by lia.
  rewrite length_app, take_app_length. cbn. split; [lia|done].
Qed.

Lemma u64_ok u : (b_write b + length t + length (dec u) < b_end b)%nat ->
  exists r', resp_u64 r u = Ret r' /\ resp_inv b r' (t ++ dec u).
Proof using Hb Hr.
  intros Hl. unfold resp_u64. rewrite (inv_ptr _ _ _ Hr), (inv_rend _ _ _ Hr).
  destruct (length_snprintf (b_end b - (b_write b + length t)) (dec u)) as [H1 H2]; [lia|].
  destruct (resp_store_ok b r t (snprintf (b_end b - (b_write b + length t)) (dec u)) (length (dec u)) Hb Hr)
    as (r' & -> & H); [lia|lia|].
  run. rewrite (proj2 (Nat.leb_le _ _)) by lia. cbn. exists r'. by rewrite H2 in H.
Qed.

Lemma length_print_etag e : length (print_etag e) = S (2 * length e).
Proof using.
  unfold print_etag. rewrite length_app. cbn [length]. rewrite Nat.add_1_r. f_equal.
  induction e as [|x e IH]; [done|]. cbn [flat_map app length]. rewrite IH. lia.
Qed.

Lemma etag_ok e : length e = ETAG_SZ -> (b_write b + length t + 41 <= b_end b)%nat ->
  exists r', resp_etag r e = Ret r' /\ resp_inv b r' (t ++ take (ETAG_SZ * 2) (print_etag e)).
Proof using Hb Hr.
  intros He Hl. unfold resp_etag. rewrite (inv_ptr _ _ _ Hr), (inv_rend _ _ _ Hr).
  assert (ETAG_SZ * 2 = 40)%nat as -> by done.
  rewrite (proj2 (Nat.leb_le _ _)) by lia. run.
  pose proof (length_print_etag e) as Hp. rewrite He in Hp. unfold ETAG_SZ in Hp.
  apply (resp_store_ok b r t _ 40 Hb Hr); lia.
Qed.

Lemma time_ok tm text : print_time tm = Ret text -> (length text <= 44)%nat ->
  (b_write b + length t + 45 <= b_end b)%nat ->
  exists r', resp_time r tm = Ret r' /\ resp_inv b r' (t ++ text).
Proof using Hb Hr.
  intros Ht Htl Hl. unfold resp_time. rewrite (inv_ptr _ _ _ Hr), (inv_rend _ _ _ Hr).
  unfold HTTP_TIME_BUF. rewrite (proj2 (Nat.leb_le _ _)) by lia. rewrite Ht. run.
  destruct (length_snprintf (44 + 1) text) as [H1 H2]; [lia|].
  destruct (resp_store_ok b r t (snprintf (44 + 1) text) (length text) Hb Hr) as (r' & -> & H); [lia|lia|].
  exists r'. by rewrite H2 in H.
Qed.
End pieces.

Lemma finish_ok b r t : buf_ok b -> resp_inv b r t ->
  exists b', buf_done_write (r_buf r) (r_len r) = Ret (b', room b') /\ buf_ok b' /\
    unread b' = unread b ++ t /\ b_end b' = b_end b.
Proof.
  intros [Hb1 Hb2] [H1 H2 H3 H4 H5 H6 H7 H8]. unfold buf_done_write.
  rewrite H2, H3, H5. rewrite (proj2 (Nat.leb_le _ _)) by lia. run.
  set (b' := HttpBuf _ _ _). assert (b_end b' = b_end b) as He by exact H3. exists b'.
  split_and!; [|unfold buf_ok; rewrite He; cbn; lia| |done].
  { unfold room. rewrite He. cbn. done. }
  unfold b'.
  unfold unread, bytes_at. cbn [b_mem b_read b_write]. rewrite H1, !firstn_skipn_comm.
  replace (b_read b + (b_write b + length t - b_read b))%nat with (b_write b + length t)%nat by lia.
  replace (b_read b + (b_write b - b_read b))%nat with (b_write b) by lia.
  rewrite H8, drop_app_le; [done|]. rewrite length_take. unfold b_end in *. lia.
Qed.

(** *** Dates *)

Definition tm_ok (t : tm) : Prop :=
  0 <= tm_sec t < 60 /\ 0 <= tm_min t < 60 /\ 0 <= tm_hour t < 24 /\ 1 <= tm_mday t <= 31 /\
  0 <= tm_mon t < 12 /\ 69 <= tm_year t < 8100 /\ 0 <= tm_wday t < 7.

(** Where a day of an era falls: the year of the era and the day of that year. *)
Definition era_year (doe : Z) : Z := (doe - doe / 1460 + doe / 36524 - doe / 146096) / 365.
Definition era_day (doe : Z) : Z := doe - (365 * era_year doe + era_year doe / 4 - era_year doe / 100).

Lemma era_ok doe : 0 <= doe < 146097 -> 0 <= era_year doe < 400 /\ 0 <= era_day doe <= 365.
Proof.
  intros H. unfold era_day.
  assert (0 <= era_year doe < 400 /\ 0 <= doe - (365 * era_year doe + era_year doe / 4 - era_year doe / 100) <= 365); [|lia].
  unfold era_year. Z.to_euclidean_division_equations. lia.
Qed.

Lemma month_ok doy (mp := (5 * doy + 2) / 153) : 0 <= doy <= 365 ->
  0 <= mp <= 11 /\ 1 <= doy - (153 * mp + 2) / 5 + 1 <= 31.
Proof. intros H. subst mp. Z.to_euclidean_division_equations. lia. Qed.

Lemma gmtime_ok t : 0 <= t < 2 ^ 32 -> tm_ok (gmtime t).
Proof.
  intros Ht. unfold gmtime. cbv zeta. fold (era_year ((t / 86400 + 719468) mod 146097)).
  fold (era_day ((t / 86400 + 719468) mod 146097)).
  set (z := t / 86400 + 719468). set (doe := z mod 146097).
  assert (719468 <= z < 719468 + 49711) as Hz by (subst z; Z.to_euclidean_division_equations; lia).
  assert (0 <= doe < 146097) as Hd by (apply Z.mod_pos_bound; lia).
  destruct (era_ok doe Hd) as [Hy Hdoy]. destruct (month_ok (era_day doe) Hdoy) as [Hm Hmd].
  assert (4 <= z / 146097 <= 5) as He by (Z.to_euclidean_division_equations; lia).
  assert (z / 146097 = 5 -> doe < 50000) as He5 by (subst doe; Z.to_euclidean_division_equations; lia).
  assert (z / 146097 = 4 -> 135000 <= doe) as He4 by (subst doe; Z.to_euclidean_division_equations; lia).
  assert (135000 <= doe -> 369 <= era_year doe) as Hy4 by
    (intros; unfold era_year; Z.to_euclidean_division_equations; lia).
  unfold tm_ok. cbn [tm_sec tm_min tm_hour tm_mday tm_mon tm_year tm_wday].
  generalize dependent (era_year doe). generalize dependent (era_day doe). intros doy Hdoy Hm Hmd y Hy Hy4.
  assert (0 <= t mod 86400 < 86400) as Hs by (apply Z.mod_pos_bound; lia).
  generalize dependent (t mod 86400). intros secs Hs.
  generalize dependent ((5 * doy + 2) / 153). intros mp Hm Hmd.
  split_and!; try apply Z.mod_pos_bound; try lia; try (Z.to_euclidean_division_equations; lia);
    destruct (Z.ltb_spec mp 10); destruct (Z.leb_spec (mp + 3) 2); destruct (Z.leb_spec (mp - 9) 2); lia.
Qed.

(** *** Decimal numbers *)

Lemma dec_loop_app fuel u acc : dec_loop fuel u acc = dec_loop fuel u [] ++ acc.
Proof.
  revert u acc. induction fuel as [|fuel IH]; intros u acc; cbn [dec_loop app]; [done|].
  destruct (u / 10 =? 0); [done|]. rewrite IH, (IH _ [_]). by rewrite <- app_assoc.
Qed.

Lemma dec_loop_step fuel u : u / 10 <> 0 ->
  dec_loop (S fuel) u [] = dec_loop fuel (u / 10) [] ++ [48 + u mod 10].
Proof. intros H. cbn [dec_loop]. rewrite (proj2 (Z.eqb_neq _ _)) by done. by rewrite dec_loop_app. Qed.

Lemma decimal_snoc l d : decimal (l ++ [48 + d]) = decimal l * 10 + d.
Proof. unfold decimal. rewrite foldl_app. cbn. lia. Qed.

Lemma dec_loop_spec n : forall fuel u, (n <= fuel)%nat -> (0 < n)%nat -> 0 <= u < 10 ^ Z.of_nat n ->
  let l := dec_loop fuel u [] in
  decimal l = u /\ Forall (fun c => is_digit c = true) l /\ (1 <= length l <= n)%nat /\
  (u <> 0 -> head l <> Some 48).
Proof.
  induction n as [|n IH]; intros fuel u Hn H0 Hu; [lia|]. cbv zeta. destruct fuel as [|fuel]; [lia|].
  assert (0 <= u mod 10 < 10) as Hmod by (apply Z.mod_pos_bound; lia).
  pose proof (Z.div_mod u 10 ltac:(lia)) as Hdm.
  assert (is_digit (48 + u mod 10) = true) as Hdig by (unfold is_digit; lia).
  destruct (decide (u / 10 = 0)) as [Hz|Hz].
  - cbn [dec_loop]. rewrite (proj2 (Z.eqb_eq _ _) Hz). rewrite Hz in Hdm.
    split_and!; [unfold decimal; cbn [foldl]; lia|by repeat constructor|cbn; lia|cbn; lia|].
    intros ? [= Heq]. lia.
  - rewrite dec_loop_step by done. rewrite Nat2Z.inj_succ, Z.pow_succ_r in Hu by lia.
    assert (n <> 0%nat) as Hn0.
    { intros ->. cbn in Hu. apply Hz. apply Z.div_small. lia. }
    destruct (IH fuel (u / 10) ltac:(lia) ltac:(lia)) as (H1 & H2 & H3 & H4).
    { split; [apply Z.div_pos; lia|apply Z.div_lt_upper_bound; lia]. }
    split_and!.
    + rewrite decimal_snoc, H1. lia.
    + apply Forall_app. split; [done|by constructor].
    + rewrite length_app. cbn. lia.
    + rewrite length_app. cbn. lia.
    + intros _. specialize (H4 Hz). by destruct (dec_loop fuel (u / 10) []).
Qed.

Lemma dec_spec n u : (0 < n <= 20)%nat -> 0 <= u < 10 ^ Z.of_nat n ->
  decimal (dec u) = u /\ Forall (fun c => is_digit c = true) (dec u) /\ (1 <= length (dec u) <= n)%nat /\
  (u <> 0 -> head (dec u) <> Some 48).
Proof. intros Hn Hu. apply dec_loop_spec; lia. Qed.

(** *** The time *)

Lemma at_index_ok (l : list (list Z)) i : 0 <= i < Z.of_nat (length l) -> exists x, at_index l i = Ret x /\ l !! Z.to_nat i = Some x.
Proof.
  intros Hi. unfold at_index. rewrite (proj2 (Z.leb_le _ _)) by lia.
  destruct (lookup_lt_is_Some_2 l (Z.to_nat i) ltac:(lia)) as [x Hx]. rewrite Hx. by exists x.
Qed.

Lemma name_length (l : list (list Z)) i x : Forall (fun s => length s = 3%nat) l -> l !! i = Some x -> length x = 3%nat.
Proof. intros H Hx. exact (Forall_lookup_1 _ _ _ _ H Hx). Qed.

Lemma length_two z : 0 <= z < 100 -> length (two z) = 2%nat.
Proof.
  intros Hz. destruct (dec_spec 2 z ltac:(lia) ltac:(lia)) as (_ & _ & H & _).
  unfold two, padded. rewrite length_app, length_replicate. lia.
Qed.

(** The text [print_time] should print, given the month's name. *)
Definition time_text (d m : list Z) (t : tm) : list Z :=
  d ++ lit ", " ++ two (tm_mday t) ++ [SP] ++ m ++ [SP] ++ padded 4 SP (dec (tm_year t + 1900)) ++
  [SP] ++ two (tm_hour t) ++ lit ":" ++ two (tm_min t) ++ lit ":" ++ two (tm_sec t) ++ lit " GMT".

Lemma print_time_cases t : tm_ok t ->
  (tm_mon t = 0 -> print_time t = Fault OutOfBounds) /\
  (tm_mon t <> 0 -> exists d m, dayofweek !! Z.to_nat (tm_wday t) = Some d /\
    monthofyear !! Z.to_nat (tm_mon t - 1) = Some m /\
    print_time t = Ret (time_text d m t) /\ length (time_text d m t) = 29%nat).
Proof.
  intros (Hs & Hmi & Hh & Hd & Hmo & Hy & Hw). unfold print_time.
  destruct (at_index_ok dayofweek (tm_wday t)) as (d & -> & Hd'); [cbn; lia|].
  run. split; intros Hm.
  - rewrite Hm. reflexivity.
  - destruct (at_index_ok monthofyear (tm_mon t - 1)) as (m & -> & Hm'); [cbn; lia|].
    run. exists d, m. split_and!; [done|done|done|].
    apply name_length in Hd'; [|by repeat constructor]. apply name_length in Hm'; [|by repeat constructor].
    destruct (dec_spec 4 (tm_year t + 1900) ltac:(lia) ltac:(lia)) as (_ & _ & Hdec & _).
    unfold time_text. rewrite !length_app, !length_two by lia. unfold padded.
    rewrite length_app, length_replicate, Hd', Hm'.
    change (length (lit ", ")) with 2%nat. change (length (lit ":")) with 1%nat.
    change (length (lit " GMT")) with 4%nat. change (length [SP]) with 1%nat. lia.
Qed.

(** *** The whole header *)

Lemma field_text s : field s = crlf ++ lit s.
Proof. done. Qed.

(** Run the next piece of [get_response]: [lem] says that it appends its text to
    what [H] says has been printed. *)
Ltac piece lem :=
  let r := fresh "r" in let E := fresh "E" in let H' := fresh "H" in
  destruct lem as (r & E & H'); [..|rewrite E; clear E; run];
  [try (rewrite ?length_app; cbn [length]; lia)..|].
Ltac pieces b Hb :=
  repeat match goal with
  | H : resp_inv b ?r ?t |- context [resp_string ?r ?s] => piece (string_ok b Hb r t H s); clear H
  | H : resp_inv b ?r ?t |- context [resp_http_code ?r ?c] => piece (code_ok b Hb r t H c); clear H
  | H : resp_inv b ?r ?t |- context [resp_u64 ?r ?u] => piece (u64_ok b Hb r t H u); clear H
  end.

Lemma get_response_ok b code mime data_len close etag mtime time :
  buf_ok b -> length etag = ETAG_SZ -> 0 <= data_len < 10 ^ 20 ->
  print_time (gmtime mtime) = Ret time -> length time = 29%nat ->
  (length (get_header code mime data_len close etag time) <= room b)%nat ->
  exists b', get_response b code mime data_len close etag mtime = Ret b' /\ buf_ok b' /\
    unread b' = unread b ++ get_header code mime data_len close etag time /\ b_end b' = b_end b.
Proof.
  intros Hb He Hd Ht Htl Hroom. unfold get_response, get_header in *. unfold room in Hroom.
  pose proof (length_print_etag etag) as Hpe. rewrite He in Hpe. 
  assert (length server_line = 21%nat) as Hsrv by reflexivity.
  assert (length (take (ETAG_SZ * 2) (print_etag etag)) = 40%nat) as Hte
    by (rewrite length_take, Hpe; reflexivity).
  assert (length (three code) = 3%nat) as H3 by reflexivity.
  rewrite !length_app in Hroom. pose proof (proj2 Hb) as Hend.
  destruct (begin_ok b Hb) as (r & -> & H). run.
  pieces b Hb.
  match goal with H : resp_inv b ?r ?t |- _ => piece (etag_ok b Hb r t H etag He); clear H end.
  pieces b Hb.
  match goal with H : resp_inv b ?r ?t |- _ => piece (time_ok b Hb r t H _ time Ht); clear H end.
  pieces b Hb.
  match goal with H : resp_inv b ?r ?t |- _ => destruct (finish_ok b r t Hb H) as (b' & -> & Hb' & Hu & He') end.
  run. exists b'. split_and!; [done|done| |done].
  rewrite Hu. f_equal. rewrite <- !app_assoc. done.
Qed.

(** ** Properties *)

(** the header of a file is composed exactly when there is room: for a response
    buffer with at least as much room as the header is long, the status line,
    the type, the length in decimal, the connection mode, the ETag and the
    date are appended to the buffer, in this order and nothing else, and no
    assertion fails. *)
Theorem get_response_text b code mime data_len close etag mtime d m :
  buf_ok b -> length etag = ETAG_SZ -> 0 <= data_len < 2 ^ 64 -> 0 <= mtime < 2 ^ 32 ->
  let t := gmtime mtime in
  dayofweek !! Z.to_nat (tm_wday t) = Some d -> tm_mon t <> 0 ->
  monthofyear !! Z.to_nat (tm_mon t - 1) = Some m ->
  let header := get_header code mime data_len close etag (time_text d m t) in
  (length header <= room b)%nat ->
  exists b', get_response b code mime data_len close etag mtime = Ret b' /\ buf_ok b' /\
    unread b' = unread b ++ header /\ b_end b' = b_end b.
Proof.
  intros Hb He Hl Hm t Hd Hmon Hmo header Hroom.
  destruct (print_time_cases t (gmtime_ok mtime Hm)) as [_ H].
  destruct (H Hmon) as (d' & m' & Hd' & Hm' & Hp & Hlen).
  assert (d' = d) as -> by congruence. assert (m' = m) as -> by congruence.
  by apply get_response_ok; [..|lia|exact Hp|exact Hlen|exact Hroom].
Qed.

Definition empty_res : http_buf := HttpBuf (replicate HTTP_MAX_REQ 0) 0 0.

Lemma empty_res_ok : buf_ok empty_res /\ room empty_res = HTTP_MAX_REQ /\ unread empty_res = [].
Proof. unfold buf_ok, room, b_end, empty_res. cbn [b_mem b_read b_write]. rewrite length_replicate. split_and!; (lia || done). Qed.

Lemma get_response_text_witness :
  exists b', get_response empty_res 200 (lit "text/html") 1234 0 (replicate 20 0x5a) 1700000000 = Ret b' /\
    unread b' = get_header 200 (lit "text/html") 1234 0 (replicate 20 0x5a) (lit "Tue, 14 Oct 2023 22:13:20 GMT").
Proof.
  destruct empty_res_ok as (Hb & Hr & Hu).
  destruct (get_response_text empty_res 200 (lit "text/html") 1234 0 (replicate 20 0x5a) 1700000000
    (lit "Tue") (lit "Oct") Hb) as (b' & H1 & _ & H2 & _);
    [reflexivity|lia|lia|reflexivity|by vm_compute|reflexivity|rewrite Hr; vm_compute; lia|].
  exists b'. split; [exact H1|]. rewrite H2, Hu. reflexivity.
Defined.

(** the [Last-Modified] date is wrong for every file: its month is the one
    before, and for a file last changed in January the name is read from in
    front of the table. *)
Theorem last_modified_month mtime : 0 <= mtime < 2 ^ 32 ->
  let t := gmtime mtime in
  (tm_mon t = 0 -> print_time t = Fault OutOfBounds) /\
  (tm_mon t <> 0 -> exists d m, dayofweek !! Z.to_nat (tm_wday t) = Some d /\
    monthofyear !! Z.to_nat (tm_mon t - 1) = Some m /\ monthofyear !! Z.to_nat (tm_mon t) <> Some m /\
    print_time t = Ret (time_text d m t)).
Proof.
  intros Hm t. destruct (print_time_cases t (gmtime_ok mtime Hm)) as [H0 H1]. split; [done|].
  intros Hne. destruct (H1 Hne) as (d & m & Hd & Hmo & Hp & _). exists d, m. split_and!; [done|done| |done].
  intros Hs. assert (NoDup monthofyear) as Hnd by by_decide.
  pose proof (NoDup_lookup _ _ _ _ Hnd Hmo Hs) as Heq.
  destruct (gmtime_ok mtime Hm) as (_ & _ & _ & _ & Hmon & _). fold t in Hmon. lia.
Qed.

Lemma last_modified_month_witness :
  print_time (gmtime 1705000000) = Fault OutOfBounds /\ tm_mon (gmtime 1705000000) = 0.
Proof.
  split; [|reflexivity]. destruct (last_modified_month 1705000000) as [H _]; [lia|]. apply H. reflexivity.
Defined.

(** The value of a nibble as the table prints it: ten is printed as nought. *)
Definition shown (n : Z) : Z := if n =? 10 then 0 else n.

Lemma hexdig_shown n k : 0 <= n < 16 -> 0 <= k < 16 -> hexdig n = hexdig k <-> shown n = shown k.
Proof.
  intros Hn Hk.
  assert (forallb (fun n => forallb (fun k => Bool.eqb (hexdig n =? hexdig k) (shown n =? shown k))
    (Z.of_nat <$> seq 0 16)) (Z.of_nat <$> seq 0 16) = true) as H by (vm_compute; reflexivity).
  rewrite forallb_forall in H. assert (forall x, 0 <= x < 16 -> In x (Z.of_nat <$> seq 0 16)) as Hin.
  { intros x Hx. replace x with (Z.of_nat (Z.to_nat x)) by lia. apply in_map, in_seq. lia. }
  specialize (H n (Hin n Hn)). rewrite forallb_forall in H. specialize (H k (Hin k Hk)).
  apply eqb_prop in H. rewrite <- Z.eqb_eq, H. apply Z.eqb_eq.
Qed.

Definition nibbles (e : list Z) : list Z := flat_map (fun b => [Z.shiftr b 4; Z.land b 0xf]) e.

Lemma nibble_bound b : 0 <= b < 256 -> 0 <= Z.shiftr b 4 < 16 /\ 0 <= Z.land b 0xf < 16.
Proof.
  intros Hb. rewrite Z.shiftr_div_pow2 by lia. change 0xf with (Z.ones 4). rewrite Z.land_ones by lia.
  split; [|apply Z.mod_pos_bound; lia]. split; [apply Z.div_pos; lia|apply Z.div_lt_upper_bound; lia].
Qed.

Lemma etag_nibbles e1 e2 : bytes_ok e1 -> bytes_ok e2 ->
  print_etag e1 = print_etag e2 <-> shown <$> nibbles e1 = shown <$> nibbles e2.
Proof.
  intros H1 H2. unfold print_etag. split; intros H.
  - apply (inj (fun l => l ++ [0])) in H. revert e2 H2 H.
    induction H1 as [|a e1 Ha H1 IH]; intros [|b e2] H2 H; unfold nibbles in *;
      cbn [flat_map app fmap list_fmap] in *; try done.
    apply Forall_cons in H2 as [Hb H2]. apply is_byte_spec, nibble_bound in Ha, Hb.
    injection H as E1 E2 H. apply hexdig_shown in E1; [|lia..]. apply hexdig_shown in E2; [|lia..].
    rewrite E1, E2. do 2 f_equal. by apply IH.
  - f_equal. revert e2 H2 H.
    induction H1 as [|a e1 Ha H1 IH]; intros [|b e2] H2 H; unfold nibbles in *;
      cbn [flat_map app fmap list_fmap] in *; try done.
    apply Forall_cons in H2 as [Hb H2]. apply is_byte_spec, nibble_bound in Ha, Hb.
    injection H as E1 E2 H. apply hexdig_shown in E1; [|lia..]. apply hexdig_shown in E2; [|lia..].
    rewrite E1, E2. do 2 f_equal. by apply IH.
Qed.

(** two digests have the same ETag exactly when they agree up to confusing the
    nibbles 0 and 10, which the table of hexadecimal digits prints alike; so
    a file can change without its ETag changing. *)
Theorem etag_collisions e1 e2 : bytes_ok e1 -> bytes_ok e2 ->
  print_etag e1 = print_etag e2 <-> shown <$> nibbles e1 = shown <$> nibbles e2.
Proof. apply etag_nibbles. Qed.

Lemma etag_collisions_witness :
  print_etag (replicate 20 0xaa) = print_etag (replicate 20 0x0a) /\
  print_etag (replicate 20 0xbb) <> print_etag (replicate 20 0x0b).
Proof.
  split; [apply etag_collisions; [by_decide|by_decide|reflexivity]|].
  intros H. apply etag_collisions in H; [discriminate|by_decide|by_decide].
Defined.
