(* ===== verification/Nbio.v ===== *)
(** * nbio.c: one descriptor under the event loop

    What the event loop knows of one descriptor: the events it waits for, the
    events reported and the list it is on. The calls it makes into its poll or
    epoll plugin on the way are left out. *)

From S2P Require Import Prelude.
Local Open Scope Z_scope.

Definition NBIO_READ : Z := 1.
Definition NBIO_WRITE : Z := 2.
Definition NBIO_ERROR : Z := 4.
Definition NBIO_WAIT : Z := Z.lor (Z.lor NBIO_READ NBIO_WRITE) NBIO_ERROR.
Definition NBIO_DELETED : Z := 0x80.

(** Where [n->list] is linked: the thread's lists, or a queue of the caller. *)
Inductive queue := Active | Inactive | Deleted | WaitQ.

Record nbio := Nbio { n_fd : Z; n_mask : Z; n_flags : Z; n_list : queue }.

Definition nbio_del (n : nbio) : nbio := Nbio (n_fd n) NBIO_DELETED 0 Deleted.

Definition nbio_inactive (n : nbio) (mask : Z) : nbio :=
  let flags := Z.land (n_flags n) (uint 8 (Z.lnot mask)) in
  Nbio (n_fd n) (n_mask n) flags (if Z.land (n_mask n) flags =? 0 then Inactive else n_list n).

Definition do_set_wait (n : nbio) (wait : Z) (q : option queue) : outcome nbio :=
  assert! negb (n_mask n =? NBIO_DELETED) ;;
  let wait := Z.land wait NBIO_WAIT in
  Ret (Nbio (n_fd n) wait wait (if wait =? 0 then default Inactive q else Active)).

Definition nbio_set_wait (n : nbio) (wait : Z) : outcome nbio := do_set_wait n wait None.
Definition nbio_to_waitq (n : nbio) (q : option queue) : outcome nbio := do_set_wait n 0 q.
Definition nbio_wake (n : nbio) (wait : Z) : outcome nbio := do_set_wait n wait None.

Definition nbio_wait_on (n : nbio) (wait : Z) : outcome nbio :=
  assert! negb (n_mask n =? NBIO_DELETED) ;;
  let wait := Z.land wait NBIO_WAIT in
  Ret (Nbio (n_fd n) wait wait Inactive).

Definition nbio_get_wait (n : nbio) : Z := Z.land (n_mask n) NBIO_WAIT.

(** A zeroed object with its descriptor set. *)
Definition nbio_new (fd : Z) : nbio := Nbio fd 0 0 Inactive.
Definition nbio_add (n : nbio) (wait : Z) : outcome nbio := do_set_wait n wait None.

(** What a plugin does with an event on an idle descriptor. *)
Definition deliver (n : nbio) (readable writable error : bool) : nbio :=
  Nbio (n_fd n) (n_mask n)
    (Z.lor (Z.lor (if readable then NBIO_READ else 0) (if writable then NBIO_WRITE else 0))
      (if error then NBIO_ERROR else 0)) Active.

(** The body of the loop of [nbio_pump] for one object on the active list, whose
    callbacks are [read] and [write]. *)
Section pump.
Context {C : Type} (io : C -> nbio) (set_io : C -> nbio -> C) (read write : C -> outcome C).

Definition ready (c : C) (what : Z) : bool :=
  negb (Z.land (Z.land (n_flags (io c)) (n_mask (io c))) what =? 0).

Definition pump_one (c : C) : outcome C :=
  if n_mask (io c) =? NBIO_DELETED then Ret c
  else
    c ← (if ready c NBIO_WRITE then write c else Ret c);
    c ← (if ready c NBIO_READ then read c else Ret c);
    if negb (Z.land (n_flags (io c)) NBIO_ERROR =? 0)
    then Ret (set_io c (nbio_del (io c)))
    else Ret c.
End pump.

Lemma set_wait_ok n wait : n_mask n <> NBIO_DELETED ->
  nbio_set_wait n wait = Ret (Nbio (n_fd n) (Z.land wait NBIO_WAIT) (Z.land wait NBIO_WAIT)
    (if Z.land wait NBIO_WAIT =? 0 then Inactive else Active)).
Proof. intros H. unfold nbio_set_wait, do_set_wait. rewrite (proj2 (Z.eqb_neq (n_mask n) NBIO_DELETED) H). done. Qed.
