(* ===== verification/NbioPump.v ===== *)
(** * nbio.c: nbio_pump

    [nbio_pump] calls the descriptors that are active until none is, destroys
    those that were deleted and then waits in the plugin. The callbacks are
    arbitrary code that calls back into the event loop; what they must promise
    for the loop to be safe and to end is the class [Callbacks]. *)

From S2P Require Import Prelude ListHead Nbio NbioLoop.
Local Open Scope Z_scope.

(** Every active descriptor has something to be called for. *)
Definition failed {K} (n : nb K) : bool := negb (Z.land (nb_flags n) NBIO_ERROR =? 0).
Definition lively {K} (n : nb K) : bool := is_ready n NBIO_WRITE || is_ready n NBIO_READ || failed n.
Definition awake {K A E} (t : iothread K A E) (L : lists) : Prop :=
  forall x n, on L active x -> r_io t.2 !! x = Some n -> lively n = true.

(** [t] without the descriptor that is being destroyed. *)
Definition forget {K A E} (x : nat) (t : iothread K A E) : iothread K A E :=
  (t.1, Rest (delete x (r_io t.2)) (r_priv t.2) (r_env t.2)).

Section contract.
Context {K A Pl X : Type}.
Abbreviation E := (Pl * X)%type.
Context (plugin : eventloop K A E) (ops : K -> nbio_ops K A E).
Context (J : iothread K A E -> lists -> Prop) (C : rest K A E -> Prop) (mu : iothread K A E -> nat).
Implicit Types (t : iothread K A E) (n : nb K) (L : lists) (x y : nat).

(** The invariant of the plugin, and what the callbacks rely on. *)
Definition both (J : iothread K A E -> lists -> Prop) (C : rest K A E -> Prop) t L : Prop := J t L /\ C t.2.
Abbreviation I := (both J C).

(** The state between two callbacks; nothing is destroyed or undeleted. *)
Record passed t L t' L' : Prop := {
  pa_wf : wf t' L';
  pa_inv : I t' L';
  pa_awake : awake t' L';
  pa_live : forall y, is_Some (r_io t.2 !! y) -> is_Some (r_io t'.2 !! y);
  pa_deleted : forall y, on L deleted y -> on L' deleted y;
  pa_listed : forall y, (exists q, on L q y) -> exists q, on L' q y
}.

(** A callback of [x] leaves the other active descriptors active, or deletes
    them: the walk over the active list holds a pointer to the next one. *)
Definition stays t L x t' L' : Prop := forall y, y <> x -> on L active y -> on L' active y \/ on L' deleted y.

Definition after t L x t' L' : Prop := passed t L t' L' /\ stays t L x t' L' /\ (mu t' < mu t)%nat.

Class Callbacks := {
  cb_read : forall t L x n, I t L -> wf t L -> awake t L -> r_io t.2 !! x = Some n -> (exists q, on L q x) -> is_ready n NBIO_READ = true ->
    exists t' L', io_read ops t x = Ret t' /\ after t L x t' L';
  cb_write : forall t L x n, I t L -> wf t L -> awake t L -> r_io t.2 !! x = Some n -> (exists q, on L q x) -> is_ready n NBIO_WRITE = true ->
    exists t' L', io_write ops t x = Ret t' /\ after t L x t' L';
  cb_fail : forall t L x n t', I t L -> wf t L -> r_io t.2 !! x = Some n -> failed n = true -> ~ on L deleted x ->
    r_io t'.2 = <[x := set_masks n NBIO_DELETED 0]> (r_io t.2) -> r_env t'.2 = r_env t.2 -> C t'.2 /\ (mu t' < mu t)%nat;
  cb_size : forall t L, I t L -> (size (r_io t.2) <= mu t)%nat;
  cb_dtor : forall t L l x, I t L -> wf (forget x t) L -> awake (forget x t) L -> is_Some (r_io t.2 !! x) ->
    L !! x = None -> L !! deleted = Some l ->
    exists t' L' k, io_dtor ops t x = Ret t' /\ wf t' L' /\ I t' L' /\ awake t' L' /\ L' !! deleted = Some (l ++ k) /\
      r_io t'.2 !! x = None /\ forall y, y <> x -> is_Some (r_io t'.2 !! y) <-> is_Some (r_io t.2 !! y)
}.
End contract.

Arguments cb_read {K A Pl X ops J C mu _}.
Arguments cb_write {K A Pl X ops J C mu _}.
Arguments cb_fail {K A Pl X ops J C mu _}.
Arguments cb_size {K A Pl X ops J C mu _}.
Arguments cb_dtor {K A Pl X ops J C mu _}.

Section still.
Context {K A E : Type} (plugin : eventloop K A E) (ops : K -> nbio_ops K A E).
Implicit Types (t : iothread K A E) (n : nb K) (L : lists) (x y : nat).

Lemma active_next t L x : wf t L -> on L active x -> exists y, next t.1 x = Some y /\ (y = active \/ (on L active y /\ y <> x)).
Proof.
  intros W (l & Hl & (l1 & l2 & ->)%list_elem_of_split). pose proof (re_ring _ _ (wf_repr _ _ W) _ _ Hl) as [Hnd Hs].
  apply seg_app in Hs as [_ Hs]. destruct l2 as [|y l2]; cbn in Hs.
  - exists active. split; [tauto|by left].
  - exists y. split; [tauto|right]. split; [exists (l1 ++ x :: y :: l2); set_solver|]. intros ->.
    apply NoDup_cons in Hnd as [_ Hnd]. apply NoDup_app in Hnd as (_ & _ & Hnd). apply NoDup_cons in Hnd as [Hx _]. set_solver.
Qed.

Lemma linked t L q x : wf t L -> on L q x \/ (q = x /\ is_Some (L !! q)) -> is_Some (next t.1 x).
Proof.
  intros W Hx. assert (exists q' l, L !! q' = Some l /\ x ∈ q' :: l) as (q' & l & Hl & Hin).
  { destruct Hx as [(l & Hl & Hin)|[<- [l Hl]]]; [exists q, l; set_solver|exists q, l; set_solver]. }
  destruct (ring_nodes _ _ _ x (re_ring _ _ (wf_repr _ _ W) _ _ Hl) Hin) as [[nx px] E1]. exists nx. unfold next. by rewrite E1.
Qed.

Lemma active_not_deleted t L x : wf t L -> on L active x -> ~ on L deleted x.
Proof. intros W Ha Hd. pose proof (on_unique _ _ x _ _ (wf_repr _ _ W) Ha Hd). done. Qed.

(** *** A loop that does not end *)

Definition idle_active t L : Prop := forall x n, on L active x -> r_io t.2 !! x = Some n -> lively n = false.

Lemma idle_io t L x : wf t L -> idle_active t L -> on L active x -> pump_io ops t x = Ret t.
Proof.
  intros W Hq Ha. destruct (wf_on _ _ W _ x Ha) as [n Hn]. pose proof (Hq x n Ha Hn) as Hl.
  unfold lively in Hl. apply orb_false_iff in Hl as [Hl Hf]. apply orb_false_iff in Hl as [Hw Hr]. unfold failed in Hf.
  unfold pump_io. rewrite (get_io_ok t x n Hn). run. rewrite Hw. run. rewrite (get_io_ok t x n Hn). run. rewrite Hr. run.
  rewrite (get_io_ok t x n Hn). run. by rewrite Hf.
Qed.

Lemma idle_walk t L fuel : wf t L -> idle_active t L -> forall x y, x = active \/ on L active x -> next t.1 x = Some y ->
  pump_walk ops fuel x y t = Ret t \/ pump_walk ops fuel x y t = Fault OutOfFuel.
Proof.
  intros W Hq. induction fuel as [|fuel IH]; intros x y Hx Hn; cbn [pump_walk]; destruct (Nat.eqb_spec x active) as [->|Hne]; try tauto.
  destruct Hx as [->|Ha]; [done|]. destruct (wf_on _ _ W _ x Ha) as [n Hn']. rewrite (get_io_ok t x n Hn'). run.
  pose proof (active_not_deleted t L x W Ha) as Hnd. rewrite (deleted_iff t L x n W Hn') in Hnd. rewrite (proj2 (Z.eqb_neq _ _) Hnd).
  rewrite (idle_io t L x W Hq Ha). run. destruct (active_next t L x W Ha) as (z & Hz & Hc). rewrite Hn in Hz. injection Hz as <-.
  assert (y = active \/ on L active y) as Hy by tauto.
  assert (is_Some (next t.1 y)) as [z Hz].
  { apply (linked t L active); [done|]. destruct Hy as [->|]; [right; split; [done|apply (wf_heads _ _ W), is_head; tauto]|by left]. }
  unfold get_next. rewrite Hz. run. by apply IH.
Qed.

(** active descriptors with no event to be called for stop the server. If what
    was reported for each active descriptor is nothing that it waits for and no
    error (say, a hang-up while it waits to write), the loop of nbio_pump walks
    over them again and again: no number of iterations is enough. *)
Theorem nbio_pump_spins fuel t L mto : wf t L -> idle_active t L -> L !! active <> Some [] ->
  nbio_pump plugin ops fuel t mto = Fault OutOfFuel.
Proof.
  intros W Hq Hne. destruct (wf_heads _ _ W active) as [l Hl]; [by apply is_head; tauto|]. destruct l as [|x l]; [done|].
  assert (pump_active ops fuel t = Fault OutOfFuel) as H; [|unfold nbio_pump; by rewrite H].
  assert (on L active x) as Ha by (exists (x :: l); set_solver). destruct (active_next t L x W Ha) as (y & Hy & _).
  destruct (ring_next _ _ _ (re_ring _ _ (wf_repr _ _ W) _ _ Hl)) as [Hx _].
  induction fuel as [|fuel IH]; cbn [pump_active]; rewrite (empty_iff _ L active (x :: l) (wf_repr _ _ W) Hl), bool_decide_eq_false_2 by done; run; [done|].
  unfold get_next. rewrite Hx. run. rewrite Hy. run.
  destruct (idle_walk t L (S fuel) W Hq x y (or_intror Ha) Hy) as [-> | ->]; run; [exact IH|done].
Qed.
End still.

Section pump.
Context {K A Pl X : Type}.
Abbreviation E := (Pl * X)%type.
Context (plugin : eventloop K A E) (ops : K -> nbio_ops K A E).
Context (J : iothread K A E -> lists -> Prop) (off : nb K -> Prop) (C : rest K A E -> Prop) (mu : iothread K A E -> nat).
Context `{!Plugin plugin J off} `{!Waiting plugin J off} `{!Callbacks ops J C mu}.
Abbreviation I := (both J C).
Abbreviation passed := (passed J C).
Implicit Types (t : iothread K A E) (n : nb K) (L : lists) (x y : nat).

Lemma passed_refl t L : I t L -> wf t L -> awake t L -> passed t L t L.
Proof. intros HI W Aw. split; try done. Qed.

Lemma passed_trans t L t1 L1 t2 L2 : passed t L t1 L1 -> passed t1 L1 t2 L2 -> passed t L t2 L2.
Proof. intros [W HI Aw Lv D Li] [W' HI' Aw' Lv' D' Li']. split; try done; intros y Hy; [by apply Lv', Lv|by apply D', D|by apply Li', Li]. Qed.

Lemma stays_trans t L x t1 L1 t2 L2 : stays t L x t1 L1 -> stays t1 L1 x t2 L2 -> passed t1 L1 t2 L2 -> stays t L x t2 L2.
Proof. intros S1 S2 P y Hy Ha. destruct (S1 y Hy Ha) as [Ha1|Hd]; [by apply S2|right; by apply (pa_deleted _ _ _ _ _ _ P)]. Qed.

(** The test of [pump_io] for the callbacks cannot succeed on a deleted descriptor. *)
Lemma ready_not_deleted t L x n w : wf t L -> r_io t.2 !! x = Some n -> is_ready n w = true -> ~ on L deleted x.
Proof.
  intros W Hn Hr Hd. destruct (masks_deleted L x n Hd (wf_masks _ _ W x n Hn)) as [_ Hf].
  unfold is_ready in Hr. rewrite Hf in Hr. by rewrite !Z.land_0_l in Hr.
Qed.

Lemma failed_not_deleted t L x n : wf t L -> r_io t.2 !! x = Some n -> failed n = true -> ~ on L deleted x.
Proof.
  intros W Hn Hf Hd. destruct (masks_deleted L x n Hd (wf_masks _ _ W x n Hn)) as [_ H0]. unfold failed in Hf. by rewrite H0 in Hf.
Qed.

(** One stage of [pump_io]: nothing, or a callback that counts. *)
Definition stage t L x (strict : bool) (r : outcome (iothread K A E)) : Prop :=
  exists t' L', r = Ret t' /\ passed t L t' L' /\ stays t L x t' L' /\ (mu t' <= mu t)%nat /\
    if strict then (mu t' < mu t)%nat else t' = t /\ L' = L.

Lemma stage_skip t L x : I t L -> wf t L -> awake t L -> stage t L x false (Ret t).
Proof. intros HI W Aw. exists t, L. split_and!; [done|by apply passed_refl|by intros y _ Hy; left|done|done|done]. Qed.

Lemma stage_after t L x r : (exists t' L', r = Ret t' /\ after J C mu t L x t' L') -> stage t L x true r.
Proof. intros (t' & L' & E1 & P & S & Hm). exists t', L'. split_and!; [done|done|done|lia|done]. Qed.

Lemma write_stage t L x n : I t L -> wf t L -> awake t L -> r_io t.2 !! x = Some n -> (exists q, on L q x) ->
  stage t L x (is_ready n NBIO_WRITE) (if is_ready n NBIO_WRITE then io_write ops t x else Ret t).
Proof.
  intros HI W Aw Hn Hq. destruct (is_ready n NBIO_WRITE) eqn:Hr; [|by apply stage_skip].
  apply stage_after. by apply (cb_write t L x n).
Qed.

Lemma read_stage t L x n : I t L -> wf t L -> awake t L -> r_io t.2 !! x = Some n -> (exists q, on L q x) ->
  stage t L x (is_ready n NBIO_READ) (if is_ready n NBIO_READ then io_read ops t x else Ret t).
Proof.
  intros HI W Aw Hn Hq. destruct (is_ready n NBIO_READ) eqn:Hr; [|by apply stage_skip].
  apply stage_after. by apply (cb_read t L x n).
Qed.

Lemma fail_stage t L x n : I t L -> wf t L -> awake t L -> r_io t.2 !! x = Some n ->
  stage t L x (failed n) (if failed n then on_heap (put_io t x (set_masks n NBIO_DELETED 0)) (fun h => list_move_tail h x deleted) else Ret t).
Proof.
  intros HI W Aw Hn. destruct (failed n) eqn:Hf; [|by apply stage_skip]. apply stage_after.
  pose proof HI as [HJ HC]. pose proof (failed_not_deleted t L x n W Hn Hf) as Hnd.
  destruct (move_ok plugin J off t L x n NBIO_DELETED 0 deleted HJ W Hn) as (t' & E1 & S & Ei & Ee & Hs & _); [by apply head_queue; [|apply is_head; tauto]|done|].
  destruct (cb_fail t L x n t' HI W Hn Hf Hnd Ei Ee) as [HC' Hm]. exists t', (moved x deleted L). split; [done|].
  destruct S as [W' V LV O ON Q LI]. pose proof (wf_node _ _ W x ltac:(by eexists)) as [Nx Hx].
  assert (on (moved x deleted L) deleted x) as Hdx.
  { apply moved_on; [intros <-; apply Hx, is_head; tauto|by apply (wf_heads _ _ W), is_head; tauto|done|by left]. }
  split_and!; [|intros y Hy Ha; left; by apply ON|done]. split; [done|split; [|done]| |intros y; apply LV| |done].
  - apply (pl_gone t L); [done|by apply same_all_plugin|]. intros b y m Hb Hy _. left. apply ON; [|done]. intros ->.
    by pose proof (on_unique _ _ x _ _ (wf_repr _ _ W') Hy Hdx).
  - intros y m Ha Hm'. destruct (decide (y = x)) as [->|Hy].
    + pose proof (on_unique _ _ x _ _ (wf_repr _ _ W') Ha Hdx). done.
    + pose proof (O y Hy) as Hv. unfold view in Hv. rewrite Hm' in Hv. cbn in Hv. symmetry in Hv. apply fmap_Some in Hv as (m0 & Hm0 & Hv).
      injection Hv as _ E2 E3 _. apply ON in Ha; [|done]. pose proof (Aw y m0 Ha Hm0) as Hl.
      unfold lively, is_ready, failed in *. by rewrite E2, E3.
  - intros y Hd. destruct (decide (y = x)) as [->|Hy]; [done|]. by apply ON.
Qed.

Lemma pump_io_ok t L x : I t L -> wf t L -> awake t L -> on L active x -> exists t' L', pump_io ops t x = Ret t' /\ after J C mu t L x t' L'.
Proof.
  intros HI W Aw Ha. destruct (wf_on _ _ W _ x Ha) as [n Hn]. pose proof (Aw x n Ha Hn) as Hl.
  unfold pump_io. rewrite (get_io_ok t x n Hn). run. destruct (write_stage t L x n HI W Aw Hn ltac:(by exists active)) as (t1 & L1 & -> & P1 & S1 & M1 & X1). run.
  destruct (pa_live _ _ _ _ _ _ P1 x ltac:(by eexists)) as [n1 Hn1]. rewrite (get_io_ok t1 x n1 Hn1). run.
  destruct (read_stage t1 L1 x n1 (pa_inv _ _ _ _ _ _ P1) (pa_wf _ _ _ _ _ _ P1) (pa_awake _ _ _ _ _ _ P1) Hn1 ltac:(apply (pa_listed _ _ _ _ _ _ P1); by exists active)) as (t2 & L2 & -> & P2 & S2 & M2 & X2). run.
  destruct (pa_live _ _ _ _ _ _ P2 x ltac:(by eexists)) as [n2 Hn2]. rewrite (get_io_ok t2 x n2 Hn2). run.
  destruct (fail_stage t2 L2 x n2 (pa_inv _ _ _ _ _ _ P2) (pa_wf _ _ _ _ _ _ P2) (pa_awake _ _ _ _ _ _ P2) Hn2) as (t3 & L3 & E3 & P3 & S3 & M3 & X3).
  unfold failed in E3 at 1. rewrite E3. exists t3, L3. pose proof (passed_trans _ _ _ _ _ _ P2 P3) as P23. split; [done|]. split_and!.
  - by apply (passed_trans t L t1 L1).
  - apply (stays_trans t L x t1 L1); [done| |done]. by apply (stays_trans t1 L1 x t2 L2).
  - unfold lively in Hl. destruct (is_ready n NBIO_WRITE); [lia|]. destruct X1 as [-> ->]. rewrite Hn in Hn1. injection Hn1 as <-.
      destruct (is_ready n NBIO_READ); [lia|]. destruct X2 as [-> ->]. rewrite Hn in Hn2. injection Hn2 as <-. cbn in Hl. rewrite Hl in X3. lia.
Qed.

(** *** The walk over the active list *)

(** The successor that the walk holds is the head, still active or deleted. *)
Definition walking L (n : nat) : Prop := n = active \/ on L active n \/ on L deleted n.

Lemma pump_walk_ok fuel : forall t L (n tmp : nat), I t L -> wf t L -> awake t L -> (mu t < fuel)%nat -> walking L n -> next t.1 n = Some tmp ->
  exists t' L', pump_walk ops fuel n tmp t = Ret t' /\ passed t L t' L' /\ (mu t' <= mu t)%nat /\ (on L active n -> (mu t' < mu t)%nat).
Proof.
  induction fuel as [|fuel IH]; intros t L n tmp HI W Aw Hf Hw Hn; [lia|]. cbn [pump_walk].
  destruct (Nat.eqb_spec n active) as [->|Hne].
  { exists t, L. split_and!; [done|by apply passed_refl|done|]. intros Ha. exfalso. apply (wf_on _ _ W) in Ha.
    apply (wf_node _ _ W) in Ha as [_ Ha]. apply Ha, is_head. tauto. }
  destruct Hw as [->|[Ha|Hd]]; [done| |].
  - destruct (wf_on _ _ W _ n Ha) as [io Hio]. rewrite (get_io_ok t n io Hio). run.
    pose proof (active_not_deleted t L n W Ha) as Hnd. rewrite (deleted_iff t L n io W Hio) in Hnd.
    rewrite (proj2 (Z.eqb_neq _ _) Hnd). destruct (pump_io_ok t L n HI W Aw Ha) as (t1 & L1 & -> & P1 & S1 & M1). run.
    pose proof (pa_wf _ _ _ _ _ _ P1) as W1. destruct (active_next t L n W Ha) as (y & Hy & Hc). rewrite Hn in Hy. injection Hy as <-.
    assert (walking L1 tmp) as Hw1 by (destruct Hc as [->|[Ha' Hne']]; [by left|right; by apply S1]).
    assert (is_Some (next t1.1 tmp)) as [tmp' Ht].
    { destruct Hw1 as [->|[H|H]]; [apply (linked t1 L1 active); [done|right; split; [done|by apply (wf_heads _ _ W1), is_head; tauto]]| |];
        eapply (linked t1 L1); eauto. }
    unfold get_next. rewrite Ht. run.
    destruct (IH t1 L1 tmp tmp' (pa_inv _ _ _ _ _ _ P1) W1 (pa_awake _ _ _ _ _ _ P1) ltac:(lia) Hw1 Ht) as (t2 & L2 & E2 & P2 & M2 & _).
    exists t2, L2. split_and!; [done|by apply (passed_trans t L t1 L1)|lia|lia].
  - destruct (wf_on _ _ W _ n Hd) as [io Hio]. rewrite (get_io_ok t n io Hio). run.
    rewrite (proj1 (deleted_iff t L n io W Hio) Hd). exists t, L. split_and!; [done|by apply passed_refl|done|].
    intros Ha. by destruct (active_not_deleted t L n W Ha).
Qed.

Lemma pump_active_ok fuel : forall t L, I t L -> wf t L -> awake t L -> (mu t < fuel)%nat ->
  exists t' L', pump_active ops fuel t = Ret t' /\ passed t L t' L' /\ (mu t' <= mu t)%nat /\ L' !! active = Some [].
Proof.
  induction fuel as [|fuel IH]; intros t L HI W Aw Hf; [lia|]. cbn [pump_active].
  destruct (wf_heads _ _ W active) as [l Hl]; [by apply is_head; tauto|].
  rewrite (empty_iff _ L active l (wf_repr _ _ W) Hl). run. destruct l as [|x l].
  { rewrite bool_decide_eq_true_2 by done. exists t, L. split_and!; [done|by apply passed_refl|done|done]. }
  rewrite bool_decide_eq_false_2 by done. pose proof (re_ring _ _ (wf_repr _ _ W) _ _ Hl) as Hr.
  destruct (ring_next _ _ _ Hr) as [Hx _]. assert (get_next t.1 active = Ret x) as -> by (unfold get_next; by rewrite Hx). run.
  assert (on L active x) as Ha by (exists (x :: l); set_solver). destruct (active_next t L x W Ha) as (tmp & Htmp & _).
  unfold get_next. rewrite Htmp. run.
  destruct (pump_walk_ok (S fuel) t L x tmp HI W Aw Hf ltac:(right; by left) Htmp) as (t1 & L1 & -> & P1 & _ & M1). run.
  specialize (M1 Ha). destruct (IH t1 L1 (pa_inv _ _ _ _ _ _ P1) (pa_wf _ _ _ _ _ _ P1) (pa_awake _ _ _ _ _ _ P1) ltac:(lia)) as (t2 & L2 & E2 & P2 & M2 & Hl2).
  exists t2, L2. split_and!; [done|by apply (passed_trans t L t1 L1)|lia|done].
Qed.

(** *** Destroying the deleted *)

(** The loop's state: [l] is the list of the deleted that is left. *)
Definition reaping (l : list nat) (t : iothread K A E) : Prop :=
  exists L, I t L /\ wf t L /\ awake t L /\ L !! deleted = Some l.

Lemma del_wf t L x h' l : wf t L -> L !! deleted = Some (x :: l) -> repr h' (<[x := []]> (without x L)) ->
  wf (forget x (h', t.2)) (without x L) /\ without x L !! deleted = Some l.
Proof.
  intros W Hl HR. pose proof W as [R H N O M]. assert (on L deleted x) as Hd by (exists (x :: l); set_solver).
  destruct (N x (O _ _ Hd)) as [Nx Hx]. pose proof (re_ring _ _ R _ _ Hl) as [Hnd _]. apply NoDup_cons in Hnd as [_ Hnd].
  apply NoDup_cons in Hnd as [Hxl _].
  assert (forall b, b <> x -> without x L !! b = filter (fun y => y <> x) <$> L !! b) as Hwo by (intros b Hb; by rewrite without_lookup, decide_False).
  assert (forall b y, on (without x L) b y <-> y <> x /\ on L b y) as Hon.
  { intros b y. unfold on. rewrite without_lookup. destruct (decide (b = x)) as [->|Hb].
    - split; [by intros (? & [=] & _)|]. intros (_ & k & Hk & Hy). destruct Nx as [E1|[E1 _]]; rewrite E1 in Hk; [injection Hk as <-; set_solver|done].
    - split.
      + intros (k & (k0 & Hk & ->)%fmap_Some & [? ?]%list_elem_of_filter). split; [done|by exists k0].
      + intros (Hne & k & -> & Hy). eexists. split; [done|]. by apply list_elem_of_filter. }
  split.
  - split; cbn.
    + destruct HR as [R1 D1]. assert (forall b k, without x L !! b = Some k -> <[x := []]> (without x L) !! b = Some k) as Hk.
      { intros b k Hb. rewrite lookup_insert_ne; [done|]. intros <-. by rewrite without_lookup, decide_True in Hb. }
      split; [intros b k Hb; by apply R1, Hk|]. intros b k b' k' a Hb Hb'. by apply D1; apply Hk.
    + intros b Hb. rewrite Hwo by (by intros ->). apply fmap_is_Some. by apply H.
    + intros y Hy. rewrite lookup_delete_is_Some in Hy. destruct Hy as [Hne Hy]. destruct (N y Hy) as [Ny Hyh]. split; [|done].
      unfold is_node. rewrite Hwo by done. destruct Ny as [->|[-> [b Hb]]]; [by left|right]. split; [done|]. exists b. by apply Hon.
    + intros b y [Hne Hy]%Hon. apply lookup_delete_is_Some. split; [done|by apply (O b)].
    + intros y n Hy. apply lookup_delete_Some in Hy as [Hne Hy]. apply (masks_ok_ext L); [|by apply M]. rewrite Hon. naive_solver.
  - rewrite Hwo by (intros <-; apply Hx, is_head; tauto). rewrite Hl.
    assert (filter (fun y => y <> x) (x :: l) = l) as Hfl by (rewrite filter_cons_False by (by intros ?); by apply filter_absent).
    transitivity (Some (filter (fun y : nat => y <> x) (x :: l))); [done|by rewrite Hfl].
Qed.

Lemma destroy_ok x l t : reaping (x :: l) t -> exists t' k, destroy ops x t = Ret t' /\
  (size (r_io t'.2) < size (r_io t.2))%nat /\ reaping (l ++ k) t' /\ r_io t'.2 !! x = None /\
  forall z, r_io t.2 !! z = None -> r_io t'.2 !! z = None.
Proof.
  intros (L & HI & W & Aw & Hl). assert (on L deleted x) as Hd by (exists (x :: l); set_solver).
  pose proof (wf_on _ _ W _ x Hd) as Hx. destruct (wf_node _ _ W x Hx) as [Nx _]. pose proof (wf_repr _ _ W) as R.
  destruct (op_refines t.1 L (ListHead.Del x) (<[x := []]> (without x L)) R) as (h' & E1 & R').
  { cbn. by rewrite (take_out_without t.1 L x R Nx). }
  destruct (del_wf t L x h' l W Hl R') as [W1 Hl1]. unfold destroy, on_heap. cbn [run_op] in E1. rewrite E1. run.
  assert (awake (forget x (h', t.2)) (without x L)) as Aw1.
  { intros y n Ha Hy. cbn in Hy. apply lookup_delete_Some in Hy as [Hne Hy]. apply (Aw y n); [|done].
    destruct Ha as (k & Hk & Hin). rewrite without_lookup in Hk. destruct (decide (active = x)); [done|].
    apply fmap_Some in Hk as (k0 & Hk & ->). apply list_elem_of_filter in Hin as [_ Hin]. by exists k0. }
  assert (I (h', t.2) (without x L)) as HI1.
  { destruct HI as [HJ HC]. split; [|done]. apply (pl_gone t L); [done|split; [|done]; intros q y n' _ Hn; by exists n'|]. intros q y n _ (k & Hk & Hin) _. left. rewrite without_lookup in Hk.
    destruct (decide (q = x)); [done|]. apply fmap_Some in Hk as (k0 & Hk & ->). apply list_elem_of_filter in Hin as [_ Hin]. by exists k0. }
  assert (without x L !! x = None) as Hxn by (by rewrite without_lookup, decide_True).
  destruct (cb_dtor (h', t.2) (without x L) l x HI1 W1 Aw1 Hx Hxn Hl1) as (t' & L' & k & E2 & W' & I' & Aw' & Hl' & Hgone & Hsame).
  exists t', k. split_and!; [done| |by exists L'|done|].
  - cbn in Hsame. assert (dom (r_io t'.2) ⊂ dom (r_io t.2)) as Hs.
    { split; [intros y; rewrite !elem_of_dom; intros Hy; destruct (decide (y = x)) as [->|Hne]; [done|by apply Hsame]|].
      intros Hs. assert (x ∈ dom (r_io t'.2)) as Hin by (apply Hs; by apply elem_of_dom). apply elem_of_dom in Hin. rewrite Hgone in Hin. by destruct Hin. }
    apply subset_size in Hs. by rewrite !size_dom in Hs.
  - intros z Hz. destruct (decide (z = x)) as [->|Hne]; [done|]. apply eq_None_not_Some. cbn in Hsame. rewrite (Hsame z Hne), Hz. by intros [? [=]].
Qed.

Lemma reap_ok fuel t L l : I t L -> wf t L -> awake t L -> L !! deleted = Some l -> (size (r_io t.2) <= fuel)%nat ->
  exists t' L', list_for_each_safe (destroy ops) fuel deleted t = Ret t' /\ I t' L' /\ wf t' L' /\ awake t' L' /\
    forall z, z ∈ l -> r_io t'.2 !! z = None.
Proof.
  intros HI W Aw Hl Hf.
  destruct (walking_rule (destroy ops) deleted (fun pre l t => pre = [] /\ reaping l t) (fun z t => r_io t.2 !! z = None)
    (fun _ t => size (r_io t.2)) (fun _ => True)) with (fuel := fuel) (l := l) (st := t)
    as (t' & pre & k & E1 & _ & (-> & L' & I' & W' & Aw' & _) & Hd); [done| | |split; [done|by exists L]|done|by exists t', L'].
  - intros pre l' st (-> & L' & _ & W' & _ & Hl'). by apply (re_ring _ _ (wf_repr _ _ W')).
  - intros pre x l' st [-> Hre]. destruct (destroy_ok x l' st Hre) as (st' & k & H1 & H2 & H3 & H4 & H5).
    exists st', [], k. done.
Qed.

(** C13: nbio_pump ends, and with nothing lost. For callbacks that keep their
    contract (each one uses up some of the work there is, and moves no other
    active descriptor except to delete it) and a thread whose active descriptors
    all have an event to be called for, the loop over the active list empties it,
    every descriptor that had been deleted or was deleted by then is destroyed
    and is gone, and the lists are well formed again when the plugin is entered,
    which is done exactly when some descriptor is idle; the plugin then blocks or
    returns with idle descriptors made active and the others as they were. An
    active descriptor without an event to be called for ([awake] excludes it)
    keeps the loop going for ever: see [nbio_pump_spins]. *)
Theorem nbio_pump_ok fuel t L mto : I t L -> wf t L -> awake t L -> (mu t < fuel)%nat ->
  exists t1 L1 t2 L2,
    pump_active ops fuel t = Ret t1 /\ passed t L t1 L1 /\ L1 !! active = Some [] /\
    list_for_each_safe (destroy ops) fuel deleted t1 = Ret t2 /\ wf t2 L2 /\ I t2 L2 /\ awake t2 L2 /\
    (forall x, on L1 deleted x -> r_io t2.2 !! x = None) /\
    if decide (L2 !! inactive = Some []) then nbio_pump plugin ops fuel t mto = Ret t2
    else nbio_pump plugin ops fuel t mto = Fault Blocked \/
      exists t' L', nbio_pump plugin ops fuel t mto = Ret t' /\ wf t' L' /\ J t' L' /\ client t' = client t2 /\ polled t2 L2 t' L'.
Proof.
  intros HI W Aw Hf. destruct (pump_active_ok fuel t L HI W Aw ltac:(lia)) as (t1 & L1 & E1 & P1 & M1 & Hl1).
  pose proof P1 as [W1 I1 Aw1 _ D1]. destruct (wf_heads _ _ W1 deleted) as [l Hl]; [by apply is_head; tauto|].
  assert (size (r_io t1.2) <= fuel)%nat as Hsz by (pose proof (cb_size t1 L1 I1); lia).
  destruct (reap_ok fuel t1 L1 l I1 W1 Aw1 Hl Hsz) as (t2 & L2 & E2 & I2 & W2 & Aw2 & Hd).
  exists t1, L1, t2, L2. do 7 (split; [done|]). split; [intros x (k & Hk & Hx); rewrite Hl in Hk; injection Hk as <-; by apply Hd|].
  unfold nbio_pump. rewrite E1. run. rewrite E2. run.
  destruct (wf_heads _ _ W2 inactive) as [k Hk]; [by apply is_head; tauto|]. rewrite (empty_iff _ L2 inactive k (wf_repr _ _ W2) Hk). run.
  destruct k as [|y k]; [by rewrite bool_decide_eq_true_2, decide_True|].
  rewrite bool_decide_eq_false_2, decide_False by (try rewrite Hk; done). destruct I2. by apply pl_pump.
Qed.
End pump.
