(* ===== verification/NbioPoll.v ===== *)
(** * nbio-poll.c: the poll plugin

    The plugin keeps an array of [struct pollfd]; each descriptor that is watched
    holds the index of its entry. An entry that [realloc] gave and nothing has
    written yet has no value. What poll(2) answers is an input, call by call, and
    so is the memory there is for each [realloc]. *)

From S2P Require Import Prelude ListHead Nbio NbioLoop NbioPump.
Local Open Scope Z_scope.

Definition POLLIN : Z := 1.
Definition POLLOUT : Z := 4.
Definition POLLERR : Z := 8.
Definition POLLHUP : Z := 16.

Record pollfd := PollFd { p_fd : option Z; p_events : option Z; p_revents : option Z }.
Record poll_priv := PollPriv { max_pfd : Z; num_pfd : Z; pfd : list pollfd }.

(** What the kernel says to a call: an error ([EINTR] or another), or the
    reported events of every entry, none for those past the end of the list. *)
Inductive poll_answer := PollIntr | PollErr | PollEvents (revents : list Z).

(** Answers to come, and the bytes available to each allocation. *)
Record poll_env := PollEnv { e_polls : list poll_answer; e_allocs : list Z }.

Definition sizeof_pollfd : Z := 8.
Definition sizeof_poll_priv : Z := 16.

Section poll.
Context {K X : Type}.
Abbreviation thread := (iothread K poll_priv (poll_env * X)).
Implicit Types (t : thread) (n : nb K) (x : nat) (p : poll_priv).

Definition set_env t (e : poll_env) : thread := (t.1, Rest (r_io t.2) (r_priv t.2) (e, snd (r_env t.2))).
Definition set_priv t (p : priv poll_priv) : thread := (t.1, Rest (r_io t.2) p (r_env t.2)).

Definition get_priv t : outcome poll_priv :=
  match r_priv t.2 with priv_ptr p => Ret p | priv_epoll _ => Fault OutOfBounds end.

(** One allocation of [sz] bytes. *)
Definition alloc t (sz : Z) : bool * thread :=
  let e := fst (r_env t.2) in
  match e_allocs e with
  | [] => (false, t)
  | avail :: allocs => (sz <=? avail, set_env t (PollEnv (e_polls e) allocs))
  end.

Definition empty_pfd : pollfd := PollFd None None None.

Definition upsize_pfdset t p : bool * poll_priv * thread :=
  let max := uint 32 (max_pfd p + 8) in
  let '(ok, t) := alloc t (max * sizeof_pollfd) in
  if (ok : bool) then
    let new := Z.to_nat max in
    (true, PollPriv (sint 32 max) (num_pfd p) (take new (pfd p) ++ replicate (new - length (pfd p)) empty_pfd), t)
  else (false, p, t).

Definition poll_init t : bool * thread :=
  let '(ok, t) := alloc t sizeof_poll_priv in
  if negb ok then (false, t)
  else
    let '(ok, p, t) := upsize_pfdset t (PollPriv 0 0 []) in
    if negb ok then (false, t) else (true, set_priv t (priv_ptr p)).

Definition poll_fini t : outcome thread :=
  _ ← get_priv t; Ret (set_priv t (priv_epoll 0)).

Definition at_pfd (l : list pollfd) (i : Z) : outcome pollfd :=
  if i <? 0 then Fault OutOfBounds else of_option OutOfBounds (l !! Z.to_nat i).

Definition put_pfd (l : list pollfd) (i : Z) (e : pollfd) : outcome (list pollfd) :=
  _ ← at_pfd l i; Ret (<[Z.to_nat i := e]> l).

(** The call: the kernel reads [fd] and [events] of the first [num] entries and
    writes their [revents]. *)
Definition reported (e : pollfd) (r : Z) : pollfd := PollFd (p_fd e) (p_events e) (Some r).

Definition poll_entries p (rs : list Z) : poll_priv :=
  let num := Z.to_nat (num_pfd p) in
  PollPriv (max_pfd p) (num_pfd p) (imap (fun i e => reported e (nth i rs 0)) (take num (pfd p)) ++ drop num (pfd p)).

(** A descriptor of the inactive list after the call. *)
Definition poll_flags (revents : Z) : Z :=
  Z.lor (Z.lor (if negb (Z.land revents (Z.lor POLLIN POLLHUP) =? 0) then NBIO_READ else 0)
    (if negb (Z.land revents POLLOUT =? 0) then NBIO_WRITE else 0))
    (if negb (Z.land revents POLLERR =? 0) then NBIO_ERROR else 0).

Definition poll_io x t : outcome thread :=
  n ← get_io t x;
  if ev_poll n <? 0 then Ret t
  else
    p ← get_priv t;
    e ← at_pfd (pfd p) (ev_poll n);
    r ← of_option OutOfBounds (p_revents e);
    if r =? 0 then
      old ← at_pfd (pfd p) (num_pfd p);
      l ← put_pfd (pfd p) (num_pfd p) (PollFd (p_fd e) (p_events e) (p_revents old));
      Ret (set_priv t (priv_ptr (PollPriv (max_pfd p) (num_pfd p + 1) l)))
    else
      let n := set_poll (set_masks n (nb_mask n) (poll_flags r)) (-1) in
      on_heap (put_io t x n) (fun h => list_move_tail h x active).

Fixpoint poll_call (answers : list poll_answer) : outcome (option (list Z) * list poll_answer) :=
  match answers with
  | [] => Fault Blocked
  | PollIntr :: answers => poll_call answers
  | PollErr :: answers => Ret (None, answers)
  | PollEvents rs :: answers => Ret (Some rs, answers)
  end.

Definition poll_pump t (mto : Z) : outcome thread :=
  p ← get_priv t;
  let e := fst (r_env t.2) in
  '(ans, polls) ← poll_call (e_polls e);
  let t := set_env t (PollEnv polls (e_allocs e)) in
  match ans with
  | None => Ret t
  | Some rs =>
      let p := poll_entries p rs in
      list_for_each_safe poll_io (size (r_io t.2)) inactive (set_priv t (priv_ptr (PollPriv (max_pfd p) 0 (pfd p))))
  end.

Definition poll_events n : Z :=
  Z.lor (Z.lor (Z.lor POLLERR POLLHUP) (if negb (Z.land (nb_mask n) NBIO_READ =? 0) then POLLIN else 0))
    (if negb (Z.land (nb_mask n) NBIO_WRITE =? 0) then POLLOUT else 0).

Definition poll_inactive t x : outcome thread :=
  p ← get_priv t;
  let '(ok, p, t) := if num_pfd p >=? max_pfd p then upsize_pfdset t p else (true, p, t) in
  let t := set_priv t (priv_ptr p) in
  if negb ok then Ret t
  else
    n ← get_io t x;
    old ← at_pfd (pfd p) (num_pfd p);
    l ← put_pfd (pfd p) (num_pfd p) (PollFd (Some (nb_fd n)) (Some (poll_events n)) (p_revents old));
    let t := set_priv t (priv_ptr (PollPriv (max_pfd p) (num_pfd p + 1) l)) in
    Ret (put_io t x (set_poll n (num_pfd p))).

Definition poll_active t x : outcome thread :=
  n ← get_io t x; Ret (put_io t x (set_poll n (-1))).

Definition eventloop_poll : eventloop K poll_priv (poll_env * X) :=
  Eventloop "poll" poll_init poll_fini poll_pump poll_inactive poll_active.

(** ** The invariant

    The array has [max_pfd] entries; a descriptor on the inactive list that is
    watched has an entry, which poll(2) will report on or has reported on; there
    are at most [num_pfd] of them; and what is on another list is not watched. *)
Definition poll_off n : Prop := ev_poll n < 0.

Definition is_watched t x : bool :=
  match r_io t.2 !! x with Some n => 0 <=? ev_poll n | None => false end.

Definition watched t (L : lists) : gset nat := filter (fun x => is_watched t x = true) (list_to_set (default [] (L !! inactive))).

Definition in_array p (i : Z) : Prop := exists e, pfd p !! Z.to_nat i = Some e /\ (i < num_pfd p \/ is_Some (p_revents e)).

Definition array_ok p : Prop := length (pfd p) = Z.to_nat (max_pfd p) /\ 0 <= num_pfd p <= max_pfd p /\ max_pfd p < 2 ^ 31.

(** No allocation of 16 gigabytes succeeds. *)
Definition allocs_ok t : Prop := Forall (fun a => a < 2 ^ 34) (e_allocs (fst (r_env t.2))).

Record poll_inv p t L : Prop := {
  pi_array : array_ok p;
  pi_allocs : allocs_ok t;
  pi_index : forall x n, on L inactive x -> r_io t.2 !! x = Some n -> 0 <= ev_poll n -> in_array p (ev_poll n);
  pi_count : Z.of_nat (size (watched t L)) <= num_pfd p;
  pi_off : forall q x n, q <> inactive -> q <> deleted -> on L q x -> r_io t.2 !! x = Some n -> poll_off n
}.

Definition poll_ok t L : Prop := exists p, r_priv t.2 = priv_ptr p /\ poll_inv p t L.

Lemma watched_in t L x : x ∈ watched t L <-> on L inactive x /\ exists n, r_io t.2 !! x = Some n /\ 0 <= ev_poll n.
Proof.
  unfold watched, is_watched. rewrite elem_of_filter, elem_of_list_to_set, on_default.
  destruct (r_io t.2 !! x) as [n|]; [|naive_solver]. rewrite Z.leb_le. naive_solver.
Qed.

Lemma poll_frame p t L t' L' : poll_inv p t L -> same_fields (r_io t.2) (r_io t'.2) L' -> allocs_ok t' ->
  (forall q y n, q <> deleted -> on L' q y -> r_io t'.2 !! y = Some n -> on L q y \/ poll_off n) -> poll_inv p t' L'.
Proof.
  intros [A Al Ix C O] Hf Hal H. split; [done|done| | |].
  - intros x n Hx Hn Hev. destruct (Hf inactive x n Hx Hn) as (n0 & Hn0 & _ & E0).
    destruct (H inactive x n ltac:(done) Hx Hn) as [Hi|Hi]; [|unfold poll_off in Hi; lia].
    rewrite <- E0. apply (Ix x n0); [done|done|lia].
  - etransitivity; [|exact C]. apply Nat2Z.inj_le, subseteq_size. intros x. rewrite !watched_in. intros (Hx & n & Hn & Hev).
    destruct (Hf inactive x n Hx Hn) as (n0 & Hn0 & _ & E0).
    destruct (H inactive x n ltac:(done) Hx Hn) as [Hi|Hi]; [|unfold poll_off in Hi; lia]. split; [done|]. exists n0. split; [done|lia].
  - intros q x n Hq Hd Hx Hn. destruct (H q x n Hd Hx Hn) as [Hi|]; [|done].
    destruct (Hf q x n Hx Hn) as (n0 & Hn0 & _ & E0). unfold poll_off. rewrite <- E0. by apply (O q x n0).
Qed.

Lemma get_priv_ok t p : r_priv t.2 = priv_ptr p -> get_priv t = Ret p.
Proof. unfold get_priv. by intros ->. Qed.

Lemma pfd_alloc_ok t sz ok t1 : alloc t sz = (ok, t1) -> t1.1 = t.1 /\ r_io t1.2 = r_io t.2 /\ r_priv t1.2 = r_priv t.2 /\ snd (r_env t1.2) = snd (r_env t.2) /\
  (allocs_ok t -> allocs_ok t1 /\ (ok = true -> sz < 2 ^ 34)).
Proof.
  unfold alloc, allocs_ok. destruct (e_allocs (fst (r_env t.2))) as [|a l] eqn:E0; intros [= <- <-].
  - split_and!; [done..|]. rewrite E0. done.
  - split_and!; [done..|]. cbn. intros [Ha Hl]%Forall_cons. split; [done|]. intros Hs%Z.leb_le. lia.
Qed.

Lemma upsize_ok t p ok p1 t1 : array_ok p -> allocs_ok t -> upsize_pfdset t p = (ok, p1, t1) ->
  t1.1 = t.1 /\ r_io t1.2 = r_io t.2 /\ snd (r_env t1.2) = snd (r_env t.2) /\ allocs_ok t1 /\ (if ok then
    length (pfd p1) = Z.to_nat (max_pfd p1) /\ max_pfd p1 = max_pfd p + 8 /\ max_pfd p1 < 2 ^ 31 /\ num_pfd p1 = num_pfd p /\
      forall i e, pfd p !! i = Some e -> pfd p1 !! i = Some e else p1 = p).
Proof.
  intros (Hl & Hn & Hm) Hal. unfold upsize_pfdset. rewrite (uint_small 32 (max_pfd p + 8)) by lia.
  destruct (alloc t ((max_pfd p + 8) * sizeof_pollfd)) as [ok' t'] eqn:E0. apply pfd_alloc_ok in E0 as (H1 & H2 & _ & H4 & H3).
  destruct (H3 Hal) as [Hal1 Hsz]. destruct ok'; intros [= <- <- <-]; (do 4 (split; [done|])); [|done].
  specialize (Hsz eq_refl). unfold sizeof_pollfd in Hsz. cbn [pfd max_pfd num_pfd]. rewrite (sint_small 32) by lia. split_and!; [|done|lia|done|].
  - rewrite length_app, length_take, length_replicate. lia.
  - intros i e Hi. rewrite take_ge by lia. by apply lookup_app_l_Some.
Qed.

Lemma put_poll_quiet t x n v : r_io t.2 !! x = Some n -> quiet t (put_io t x (set_poll n v)).
Proof.
  intros Hn. split; [done|]. apply map_eq. intros y. cbn. rewrite !lookup_fmap.
  destruct (decide (y = x)) as [->|Hy]; [by rewrite lookup_insert_eq, Hn|by rewrite lookup_insert_ne].
Qed.

Lemma poll_active_ok t L x : poll_ok t L -> is_Some (r_io t.2 !! x) ->
  exists t' n', poll_active t x = Ret t' /\ quiet t t' /\ client t' = client t /\ poll_ok t' L /\ r_io t'.2 !! x = Some n' /\ poll_off n'.
Proof.
  intros (p & Hp & [A Al Ix C O]) [n Hn]. unfold poll_active. rewrite (get_io_ok t x n Hn). run.
  exists (put_io t x (set_poll n (-1))), (set_poll n (-1)).
  split_and!; [done|by apply put_poll_quiet|by apply client_quiet; [apply put_poll_quiet|]| |cbn; by rewrite lookup_insert_eq|unfold poll_off; cbn; lia].
  exists p. split; [done|]. split; [done|done| | |].
  - intros y m Hy Hm. cbn in Hm. apply lookup_insert_Some in Hm as [[<- <-]|[Hne Hm]]; [cbn; lia|by apply (Ix y)].
  - etransitivity; [|exact C]. apply Nat2Z.inj_le, subseteq_size. intros y. rewrite !watched_in. intros (Hy & m & Hm & Hev).
    cbn in Hm. apply lookup_insert_Some in Hm as [[<- <-]|[Hne Hm]]; [cbn in Hev; lia|]. split; [done|by exists m].
  - intros q y m Hq Hd Hy Hm. cbn in Hm. apply lookup_insert_Some in Hm as [[<- <-]|[Hne Hm]]; [unfold poll_off; cbn; lia|by apply (O q y)].
Qed.

Lemma at_ok (l : list pollfd) i e : 0 <= i -> l !! Z.to_nat i = Some e -> at_pfd l i = Ret e.
Proof. intros Hi Hl. unfold at_pfd. rewrite (proj2 (Z.ltb_ge i 0)) by lia. by rewrite Hl. Qed.

Lemma put_ok (l : list pollfd) i e e' : 0 <= i -> l !! Z.to_nat i = Some e -> put_pfd l i e' = Ret (<[Z.to_nat i := e']> l).
Proof. intros Hi Hl. unfold put_pfd. by rewrite (at_ok l i e Hi Hl). Qed.

Lemma array_lookup p i : array_ok p -> 0 <= i < max_pfd p -> exists e, pfd p !! Z.to_nat i = Some e.
Proof. intros (Hl & _) Hi. destruct (lookup_lt_is_Some_2 (pfd p) (Z.to_nat i)) as [e He]; [lia|by exists e]. Qed.

(** Writing the [fd] and [events] of an entry. *)
Lemma in_array_put p i old fd ev num : array_ok p -> 0 <= i -> 0 <= num_pfd p -> pfd p !! Z.to_nat (num_pfd p) = Some old ->
  num_pfd p <= num -> in_array p i -> in_array (PollPriv (max_pfd p) num (<[Z.to_nat (num_pfd p) := PollFd fd ev (p_revents old)]> (pfd p))) i.
Proof.
  intros A Hi Hn Hold Hnum (e & He & Hc). unfold in_array. cbn. destruct (decide (i = num_pfd p)) as [->|Hne].
  - rewrite list_lookup_insert_eq by (by eapply lookup_lt_Some). eexists. split; [done|]. right. cbn.
    rewrite Hold in He. injection He as <-. destruct Hc; [lia|done].
  - rewrite list_lookup_insert_ne by lia. exists e. split; [done|]. destruct Hc; [left; lia|by right].
Qed.

Lemma array_put p e : array_ok p -> num_pfd p < max_pfd p ->
  array_ok (PollPriv (max_pfd p) (num_pfd p + 1) (<[Z.to_nat (num_pfd p) := e]> (pfd p))).
Proof. intros (Hl & Hn & Hm) Hlt. unfold array_ok. cbn. rewrite length_insert. lia. Qed.

(** A descriptor is given the next entry. *)
Lemma register_ok p t L x n old fd ev : poll_inv p t L -> r_io t.2 !! x = Some n -> num_pfd p < max_pfd p ->
  pfd p !! Z.to_nat (num_pfd p) = Some old -> (forall q, q <> deleted -> on L q x -> q = inactive) ->
  let p' := PollPriv (max_pfd p) (num_pfd p + 1) (<[Z.to_nat (num_pfd p) := PollFd fd ev (p_revents old)]> (pfd p)) in
  poll_inv p' (put_io (set_priv t (priv_ptr p')) x (set_poll n (num_pfd p))) L.
Proof.
  intros [A Al Ix C O] Hn Hlt Hold Hx p'. pose proof A as (Hl & Hnum & Hmax). split.
  - by apply array_put.
  - done.
  - intros y m Hy Hm Hev. cbn in Hm. apply lookup_insert_Some in Hm as [[<- <-]|[Hne Hm]].
    + cbn [ev_poll set_poll]. unfold in_array, p'. cbn [pfd num_pfd]. rewrite list_lookup_insert_eq by (by eapply lookup_lt_Some).
      eexists. split; [done|]. left. lia.
    + apply (in_array_put p); [done|done|lia|done|lia|by apply (Ix y)].
  - assert (watched (put_io (set_priv t (priv_ptr p')) x (set_poll n (num_pfd p))) L ⊆ {[x]} ∪ watched t L) as Hs.
    { intros y. rewrite elem_of_union, elem_of_singleton, !watched_in. intros (Hy & m & Hm & Hev).
      cbn in Hm. apply lookup_insert_Some in Hm as [[<- <-]|[Hne Hm]]; [by left|right]. split; [done|by exists m]. }
    apply subseteq_size in Hs. rewrite size_union_alt, size_singleton in Hs.
    assert (size (watched t L ∖ {[x]}) <= size (watched t L))%nat by (apply subseteq_size; set_solver). cbn. lia.
  - intros q y m Hq Hd Hy Hm. cbn in Hm. apply lookup_insert_Some in Hm as [[<- <-]|[Hne Hm]]; [by destruct (Hx q Hd Hy)|by apply (O q y)].
Qed.

Lemma poll_inactive_ok t L t' L' x : poll_ok t L -> same_plugin t t' L' -> is_Some (r_io t'.2 !! x) ->
  (exists q, q <> deleted /\ on L q x) -> (forall q y, on L' q y -> if decide (y = x) then q = inactive else on L q y) ->
  exists t2, poll_inactive t' x = Ret t2 /\ quiet t' t2 /\ client t2 = client t' /\ poll_ok t2 L'.
Proof.
  intros (p & Hp & Inv) (Hf & Hpr & Henv) [n Hn] (q0 & Hq0 & Hx) Hon. pose proof Inv as [A Al _ _ O].
  assert (forall t1, r_io t1.2 = r_io t'.2 -> allocs_ok t1 -> poll_inv p t1 L') as Hinv.
  { intros t1 Hio Hal. apply (poll_frame p t L); [done|by rewrite Hio|done|]. rewrite Hio.
    intros q y m Hq Hy Hm. specialize (Hon q y Hy). destruct (decide (y = x)) as [->|Hyx]; [|by left]. subst q.
    destruct (decide (q0 = inactive)) as [->|Hqi]; [by left|right]. rewrite Hn in Hm. injection Hm as <-.
    destruct (Hf inactive x n Hy Hn) as (n0 & Hn0 & _ & E0). unfold poll_off. rewrite <- E0. by apply (O q0 x n0). }
  assert (allocs_ok t') as Al' by (unfold allocs_ok; by rewrite Henv).
  unfold poll_inactive. rewrite (get_priv_ok t' p) by (by rewrite Hpr). run.
  destruct (if num_pfd p >=? max_pfd p then upsize_pfdset t' p else (true, p, t')) as [[ok p1] t1] eqn:E0.
  assert (t1.1 = t'.1 /\ r_io t1.2 = r_io t'.2 /\ snd (r_env t1.2) = snd (r_env t'.2) /\ allocs_ok t1 /\ (ok = false -> p1 = p) /\
    (ok = true -> poll_inv p1 (set_priv t1 (priv_ptr p1)) L' /\ num_pfd p1 < max_pfd p1)) as (H1 & H2 & H6 & H3 & H4 & H5).
  { destruct (Z.geb_spec (num_pfd p) (max_pfd p)) as [Hge|Hlt].
    - destruct (upsize_ok t' p ok p1 t1 A Al' E0) as (U1 & U2 & U5 & U3 & U4). split_and!; [done|done|done|done|by intros ->|]. intros ->.
      destruct U4 as (V1 & V2 & V3 & V4 & V5). destruct A as (A1 & A2 & A3). split; [|lia].
      destruct (Hinv (set_priv t1 (priv_ptr p1)) U2 U3) as [_ B2 B3 B4 B5]. split; [split_and!; [done|lia|lia|done]|done| |by rewrite V4|done].
      intros y m Hy Hm Hev. destruct (B3 y m Hy Hm Hev) as (e & He & Hc). exists e. rewrite V4. split; [by apply V5|done].
    - injection E0 as <- <- <-. split_and!; [done..|]. intros _. split; [by apply Hinv|lia]. }
  destruct ok; cbn [negb].
  - destruct (H5 eq_refl) as [Inv1 Hlt]. pose proof (pi_array _ _ _ Inv1) as A1. rewrite (get_io_ok _ x n) by (cbn; by rewrite H2). run.
    destruct (array_lookup p1 (num_pfd p1) A1) as [old Hold]; [destruct A1; lia|].
    rewrite (at_ok _ _ old) by (first [destruct A1; lia|done]). run. rewrite (put_ok _ _ old) by (first [destruct A1; lia|done]). run.
    set (p2 := PollPriv (max_pfd p1) (num_pfd p1 + 1) (<[Z.to_nat (num_pfd p1) := PollFd (Some (nb_fd n)) (Some (poll_events n)) (p_revents old)]> (pfd p1))).
    assert (quiet t' (put_io (set_priv (set_priv t1 (priv_ptr p1)) (priv_ptr p2)) x (set_poll n (num_pfd p1)))) as Q.
    { apply (quiet_trans _ (set_priv (set_priv t1 (priv_ptr p1)) (priv_ptr p2))); [split; [done|cbn; by rewrite H2]|].
      apply put_poll_quiet. cbn. by rewrite H2. }
    eexists. split; [done|]. split; [exact Q|]. split.
    + by apply client_quiet.
    + exists p2. split; [done|]. apply (register_ok p1 (set_priv t1 (priv_ptr p1)) L' x n old _ _ Inv1); [cbn; by rewrite H2|done|done|].
      intros q _ Hy. specialize (Hon q x Hy). by destruct (decide (x = x)).
  - rewrite (H4 eq_refl). eexists. split; [done|]. split; [split; [done|cbn; by rewrite H2]|].
    split; [apply client_quiet; [split; [done|cbn; by rewrite H2]|done]|]. exists p. split; [done|]. apply Hinv; [cbn; done|done].
Qed.

(** ** Pumping

    [t0] and [L0] are the state after poll(2) returned, [pe] the array it left,
    [l0] the inactive list. *)
Section pumping.
Context (t0 : thread) (L0 : lists) (pe : poll_priv) (l0 : list nat).

(** What becomes of a descriptor whose entry reports [r]. *)
Definition reports (r : Z) : Z :=
  Z.b2z (Z.testbit r 0 || Z.testbit r 4) + 2 * Z.b2z (Z.testbit r 2) + 4 * Z.b2z (Z.testbit r 3).

Definition answered (v : nbio) (r : Z) : nbio := if r =? 0 then v else Nbio (n_fd v) (n_mask v) (reports r) Active.

Lemma land_bit r k : 0 <= k -> negb (Z.land r (2 ^ k) =? 0) = Z.testbit r k.
Proof.
  intros Hk. destruct (Z.testbit r k) eqn:Hb.
  - apply negb_true_iff, Z.eqb_neq. intros H. assert (Z.testbit (Z.land r (2 ^ k)) k = true) as Ht; [|by rewrite H, Z.bits_0 in Ht].
    by rewrite Z.land_spec, Hb, Z.pow2_bits_true.
  - apply negb_false_iff, Z.eqb_eq. apply Z.bits_inj'. intros i Hi. rewrite Z.land_spec, Z.bits_0.
    destruct (Z.eqb_spec i k) as [->|Hne]; [by rewrite Hb|]. rewrite Z.pow2_bits_false by done. apply andb_false_r.
Qed.

Lemma poll_flags_reports r : poll_flags r = reports r.
Proof.
  unfold poll_flags, reports. change POLLOUT with (2 ^ 2). change POLLERR with (2 ^ 3). rewrite !land_bit by lia.
  assert (negb (Z.land r (Z.lor POLLIN POLLHUP) =? 0) = Z.testbit r 0 || Z.testbit r 4) as ->.
  { rewrite <- (land_bit r 0), <- (land_bit r 4) by lia. rewrite Z.land_lor_distr_r. change (2 ^ 0) with POLLIN. change (2 ^ 4) with POLLHUP.
    destruct (Z.eqb_spec (Z.land r POLLIN) 0) as [->|H1]; [by rewrite Z.lor_0_l|]. cbn. apply negb_true_iff, Z.eqb_neq.
    intros H. by apply Z.lor_eq_0_l in H. }
  destruct (Z.testbit r 0 || Z.testbit r 4), (Z.testbit r 2), (Z.testbit r 3); done.
Qed.

Definition revents_at p (i : Z) : option Z := e ← pfd p !! Z.to_nat i; p_revents e.

Record pumping (pre l : list nat) t p L : Prop := {
  pu_priv : r_priv t.2 = priv_ptr p;
  pu_wf : wf t L;
  pu_list : L !! inactive = Some (pre ++ l);
  pu_array : array_ok p;
  pu_allocs : allocs_ok t;
  pu_client : client t = client t0;
  pu_count : num_pfd p = Z.of_nat (length (filter (fun y => is_watched t y = true) pre));
  pu_room : Z.of_nat (length (filter (fun y => is_watched t y = true) (pre ++ l))) <= max_pfd p;
  pu_off : forall q x n, q <> inactive -> q <> deleted -> on L q x -> r_io t.2 !! x = Some n -> poll_off n;
  pu_revents : p_revents <$> pfd p = p_revents <$> pfd pe;
  pu_polled : polled t0 L0 t L;
  pu_todo : forall y, y ∈ l -> r_io t.2 !! y = r_io t0.2 !! y;
  pu_kept : forall y n, y ∈ pre -> r_io t.2 !! y = Some n -> r_io t0.2 !! y = Some n;
  pu_done : forall y n v r, y ∈ l0 -> y ∉ l -> r_io t0.2 !! y = Some n -> 0 <= ev_poll n -> revents_at pe (ev_poll n) = Some r ->
    view t0 L0 y = Some v -> view t L y = Some (answered v r)
}.

Context (Hwatched : forall y n, y ∈ l0 -> r_io t0.2 !! y = Some n -> 0 <= ev_poll n -> is_Some (revents_at pe (ev_poll n))).

Lemma revents_same p i : p_revents <$> pfd p = p_revents <$> pfd pe -> revents_at p i = revents_at pe i.
Proof.
  intros H. unfold revents_at. assert ((p_revents <$> pfd p) !! Z.to_nat i = (p_revents <$> pfd pe) !! Z.to_nat i) as Hi by (by rewrite H).
  rewrite !list_lookup_fmap in Hi. destruct (pfd p !! Z.to_nat i), (pfd pe !! Z.to_nat i); cbn in *; congruence.
Qed.

(** The descriptor stays on the list: it is not watched, or nothing is reported. *)
Lemma keep_step pre x l t p p' L : pumping pre (x :: l) t p L -> x ∈ l0 ->
  (forall n r, r_io t0.2 !! x = Some n -> 0 <= ev_poll n -> revents_at pe (ev_poll n) = Some r -> r = 0) ->
  array_ok p' -> max_pfd p' = max_pfd p -> num_pfd p' = num_pfd p + (if is_watched t x then 1 else 0) ->
  p_revents <$> pfd p' = p_revents <$> pfd p -> pumping (pre ++ [x]) l (set_priv t (priv_ptr p')) p' L.
Proof.
  intros [Hp W Hl A Al Cl C R O Rv P T Kp D] Hx Hq A' Hmax Hnum Hrv'.
  assert (quiet t (set_priv t (priv_ptr p'))) as Q by done. pose proof (quiet_wf _ _ L Q W) as W'. split; try done.
  - by rewrite <- app_assoc.
  - rewrite Hnum, C. change (is_watched (set_priv t (priv_ptr p'))) with (is_watched t). rewrite filter_app, length_app.
    destruct (is_watched t x) eqn:Ew; [rewrite filter_cons_True by done|rewrite filter_cons_False by congruence]; rewrite filter_nil; cbn [length]; lia.
  - change (is_watched (set_priv t (priv_ptr p'))) with (is_watched t). rewrite <- app_assoc. cbn [app]. lia.
  - by rewrite Hrv'.
  - intros y Hy. apply T. set_solver.
  - intros y n [Hy| ->%list_elem_of_singleton]%elem_of_app Hn; [by apply Kp|]. rewrite <- T by set_solver. done.
  - intros y n v r Hy Hnl Hn Hev Hr Hv. destruct (decide (y = x)) as [->|Hne].
    + assert (r = 0) as -> by (by apply (Hq n r)). unfold answered. cbn. destruct P as [_ P].
      change (view (set_priv t (priv_ptr p')) L x) with (view t L x). destruct (P x v Hv) as (v' & Hv' & Hc). rewrite Hv'. f_equal.
      destruct Hc as [|[Hi Ev]]; [done|exfalso]. unfold view in Hv'. apply fmap_Some in Hv' as (n' & Hn' & Hv').
      assert (on L inactive x) as Hix by (exists (pre ++ x :: l); set_solver).
      assert (on L active x) as Hax.
      { assert (queue_of L x = Active) as Hqa by (rewrite Ev in Hv'; by injection Hv'). unfold queue_of in Hqa. rewrite <- on_default.
        repeat case_bool_decide; done. }
      pose proof (on_unique _ _ x _ _ (wf_repr _ _ W) Hix Hax). done.
    + apply (D y n v r); [done|set_solver|done..].
Qed.

(** A descriptor with events is moved to the active list, no longer watched. *)
Lemma ready_moved t L x n r : wf t L -> r_io t.2 !! x = Some n -> on L inactive x ->
  exists t', on_heap (put_io t x (set_poll (set_masks n (nb_mask n) (poll_flags r)) (-1))) (fun h => list_move_tail h x active) = Ret t' /\
    shifted (put_io t x (set_poll n (-1))) L x t' (moved x active L) (Nbio (nb_fd n) (nb_mask n) (reports r) Active) /\
    r_io t'.2 = <[x := set_poll (set_masks n (nb_mask n) (reports r)) (-1)]> (r_io t.2) /\ r_priv t'.2 = r_priv t.2 /\
    r_env t'.2 = r_env t.2 /\ client t' = client t.
Proof.
  intros W Hn Hix. rewrite (poll_flags_reports r). set (fl := reports r).
  assert (~ on L deleted x) as Hnd by (intros H; pose proof (on_unique _ _ x _ _ (wf_repr _ _ W) Hix H); done).
  pose proof (put_poll_quiet t x n (-1) Hn) as Q. pose proof (quiet_wf _ _ L Q W) as W1.
  destruct (move_io_ok (put_io t x (set_poll n (-1))) L x (set_poll n (-1)) (nb_mask n) fl active W1) as (t' & E1 & S & Ei & Ep & Ee);
    [cbn; by rewrite lookup_insert_eq|by apply head_queue; [|apply is_head; tauto]|by apply (masks_live L x n Hnd), (wf_masks _ _ W)|].
  exists t'. split; [revert E1; unfold put_io; cbn; by rewrite insert_insert_eq|]. split; [exact S|].
  rewrite <- (client_quiet t _ Q) by done.
  pose proof (client_set (put_io t x (set_poll n (-1))) t' x (set_poll n (-1)) (nb_mask n) fl) as C.
  cbn [r_io put_io snd] in Ei, C. rewrite insert_insert_eq in Ei, C. split_and!; [exact Ei|done|done|].
  apply C; [by rewrite lookup_insert_eq|exact Ei|done].
Qed.

(** This is a step [poll] may make. *)
Lemma polled_ready t L x n r t' L' : wf t L -> polled t0 L0 t L -> r_io t.2 !! x = Some n -> on L inactive x ->
  shifted (put_io t x (set_poll n (-1))) L x t' L' (Nbio (nb_fd n) (nb_mask n) (reports r) Active) -> polled t0 L0 t' L'.
Proof.
  intros W [P0 P1] Hn Hix [W' V LV OT ON Qs]. pose proof (put_poll_quiet t x n (-1) Hn) as Q. split.
  - intros y Hy. destruct (decide (y = x)) as [->|Hne].
    + apply P0 in Hy. unfold view in Hy. rewrite Hn in Hy. done.
    + rewrite OT by done. rewrite (quiet_view _ _ L y Q). by apply P0.
  - intros y v Hy. destruct (P1 y v Hy) as (v1 & Hv1 & Hc). destruct (decide (y = x)) as [->|Hne].
    + eexists. split; [exact V|]. right. unfold view in Hv1. rewrite Hn in Hv1. cbn in Hv1. injection Hv1 as <-.
      assert (queue_of L x = Inactive) as Hqx.
      { unfold queue_of. rewrite (bool_decide_eq_false_2 (x ∈ default [] (L !! active))), (bool_decide_eq_true_2 (x ∈ default [] (L !! inactive)));
          [done|by apply on_default|]. rewrite on_default. intros H. pose proof (on_unique _ _ x _ _ (wf_repr _ _ W) Hix H). done. }
      rewrite Hqx in Hc. destruct Hc as [<-|[_ [=]]]. done.
    + exists v1. split; [|done]. rewrite OT by done. by rewrite (quiet_view _ _ L y Q).
Qed.

Lemma watched_but t t' x : (forall y, y <> x -> r_io t'.2 !! y = r_io t.2 !! y) -> forall k : list nat, x ∉ k ->
  filter (fun y => is_watched t' y = true) k = filter (fun y => is_watched t y = true) k.
Proof.
  intros Hsame. induction k as [|y k IH]; intros Hk; [done|]. assert (is_watched t' y = is_watched t y) as Ew by (unfold is_watched; by rewrite Hsame by set_solver).
  destruct (is_watched t y) eqn:Ey; [rewrite !filter_cons_True by congruence; f_equal|rewrite !filter_cons_False by congruence]; apply IH; set_solver.
Qed.

(** The descriptor has events and becomes active. *)
Lemma ready_step pre x l t p L n r : pumping pre (x :: l) t p L -> x ∈ l0 -> r_io t.2 !! x = Some n -> 0 <= ev_poll n ->
  revents_at pe (ev_poll n) = Some r -> r <> 0 ->
  exists t' L', on_heap (put_io t x (set_poll (set_masks n (nb_mask n) (poll_flags r)) (-1))) (fun h => list_move_tail h x active) = Ret t' /\
    pumping pre l t' p L'.
Proof.
  intros [Hp W Hl A Al Cl C R O Rv P T Kp D] Hx Hn Hev Hr Hr0.
  pose proof (re_ring _ _ (wf_repr _ _ W) _ _ Hl) as [Hnd _]. apply NoDup_cons in Hnd as [_ Hnd].
  apply NoDup_app in Hnd as (Hndp & Hdis & Hndl). apply NoDup_cons in Hndl as [Hxl Hndl].
  assert (x ∉ pre) as Hxp by (intros H; apply (Hdis x H); set_solver).
  assert (on L inactive x) as Hix by (exists (pre ++ x :: l); set_solver).
  destruct (ready_moved t L x n r W Hn Hix) as (t' & E1 & S & Ei & Ep & Ee & Ec). exists t', (moved x active L). split; [exact E1|].
  pose proof (polled_ready t L x n r t' _ W P Hn Hix S) as P'. pose proof (put_poll_quiet t x n (-1) Hn) as Q.
  assert (forall y, y <> x -> r_io t'.2 !! y = r_io t.2 !! y) as Hsame by (intros y Hy; by rewrite Ei, lookup_insert_ne).
  pose proof (watched_but t t' x Hsame) as Hflt. destruct (wf_node _ _ W x ltac:(by eexists)) as [Nx Hxh].
  destruct S as [W' V LV OT ON Qs]. split.
  - by rewrite Ep.
  - done.
  - unfold moved. rewrite lookup_alter_ne, without_lookup, decide_False by (first [done|intros <-; apply Hxh, is_head; tauto]).
    rewrite Hl. transitivity (Some (filter (fun y : nat => y <> x) (pre ++ x :: l))); [done|]. by rewrite filter_out.
  - done.
  - unfold allocs_ok. by rewrite Ee.
  - by rewrite Ec.
  - by rewrite Hflt.
  - rewrite Hflt by set_solver. rewrite filter_app in R |- *. rewrite length_app in *.
    assert (is_watched t x = true) as Ew by (unfold is_watched; rewrite Hn; by apply Z.leb_le).
    rewrite filter_cons_True in R by done. cbn [length] in R. lia.
  - intros q y m Hq Hd Hy Hm. destruct (decide (y = x)) as [->|Hne].
    + rewrite Ei, lookup_insert_eq in Hm. injection Hm as <-. unfold poll_off. cbn. lia.
    + apply (O q y); [done|done|by apply ON|by rewrite <- Hsame].
  - done.
  - done.
  - intros y Hy. rewrite Hsame by (intros ->; done). apply T. set_solver.
  - intros y m Hy Hm. apply Kp; [done|]. rewrite <- Hsame; [done|]. intros ->. done.
  - intros y m v r' Hy Hyl Hm Hev' Hr' Hv. destruct (decide (y = x)) as [->|Hne].
    + rewrite <- T, Hn in Hm by set_solver. injection Hm as <-. rewrite Hr in Hr'. injection Hr' as <-.
      unfold answered. rewrite (proj2 (Z.eqb_neq r 0) Hr0). rewrite V. unfold view in Hv. rewrite <- T, Hn in Hv by set_solver.
      cbn in Hv. injection Hv as <-. done.
    + rewrite OT by done. rewrite (quiet_view _ _ L y Q). apply (D y m v r'); [done|set_solver|done..].
Qed.

Lemma poll_io_step pre x l t p L : pumping pre (x :: l) t p L -> x ∈ l0 ->
  exists t' pre' p' L', poll_io x t = Ret t' /\ pumping pre' l t' p' L' /\ pre' ⊆ pre ++ [x].
Proof.
  intros Hpu Hx. pose proof Hpu as [Hp W Hl A Al Cl C R O Rv P T Kp D].
  destruct (wf_on _ _ W inactive x) as [n Hn]; [exists (pre ++ x :: l); set_solver|]. assert (r_io t0.2 !! x = Some n) as Hn0 by (rewrite <- T; set_solver).
  unfold poll_io. rewrite (get_io_ok t x n Hn). run. destruct (Z.ltb_spec (ev_poll n) 0) as [Hlt|Hev].
  - exists t, (pre ++ [x]), p, L. split; [done|]. split; [|done].
    assert (set_priv t (priv_ptr p) = t) as Et by (destruct t as [h [io pr e]]; cbn in *; by rewrite Hp). rewrite <- Et at 1.
    apply (keep_step pre x l t p p L); try done.
    + intros n' r Hn' Hev'. rewrite Hn0 in Hn'. injection Hn' as <-. lia.
    + unfold is_watched. rewrite Hn. rewrite (proj2 (Z.leb_gt 0 (ev_poll n))); lia.
  - rewrite (get_priv_ok t p Hp). run. destruct (Hwatched x n Hx Hn0 Hev) as [r Hr].
    pose proof (revents_same p (ev_poll n) Rv) as Hrs. rewrite Hr in Hrs. unfold revents_at in Hrs. apply bind_Some in Hrs as (e & He & Hre).
    rewrite (at_ok _ _ e Hev He). run. rewrite Hre. run. destruct (Z.eqb_spec r 0) as [->|Hr0].
    + pose proof A as (A1 & A2 & A3). assert (is_watched t x = true) as Ew by (unfold is_watched; rewrite Hn; by apply Z.leb_le).
      assert (num_pfd p < max_pfd p) as Hroom.
      { rewrite filter_app, length_app, filter_cons_True in R by done. cbn [length] in R. lia. }
      destruct (array_lookup p (num_pfd p) A ltac:(lia)) as [old Hold]. rewrite (at_ok _ _ old) by (first [lia|done]). run.
      rewrite (put_ok _ _ old) by (first [lia|done]). run. eexists _, (pre ++ [x]), _, L. split; [done|]. split; [|done].
      apply (keep_step pre x l t p); [done|done| |by apply array_put|done|by rewrite Ew|].
      * intros n' r' Hn' _ Hr'. rewrite Hn0 in Hn'. injection Hn' as <-. congruence.
      * cbn [pfd]. rewrite list_fmap_insert. cbn [p_revents]. apply list_insert_id. by rewrite list_lookup_fmap, Hold.
    + destruct (ready_step pre x l t p L n r Hpu Hx Hn Hev Hr Hr0) as (t' & L' & E1 & Hpu').
      exists t', pre, p, L'. split_and!; [done|done|set_solver].
Qed.

Lemma walk_ok fuel t p : pumping [] l0 t p L0 -> (length l0 <= fuel)%nat ->
  exists t' pre p' L', list_for_each_safe poll_io fuel inactive t = Ret t' /\ pumping pre [] t' p' L' /\ pre ⊆ l0.
Proof.
  intros Hpu Hfuel.
  destruct (walking_rule poll_io inactive (fun pre l t => pre ++ l ⊆ l0 /\ exists p L, pumping pre l t p L) (fun _ _ => True)
    (fun l _ => length l) (fun k => k = [])) with (fuel := fuel) (l := l0) (st := t)
    as (t' & pre & k & E1 & -> & (Hsub & p' & L' & Hpu') & _); [done| | |split; [done|by exists p, L0]|done|].
  - intros pre l st (_ & p1 & L1 & H). exact (re_ring _ _ (wf_repr _ _ (pu_wf _ _ _ _ _ H)) _ _ (pu_list _ _ _ _ _ H)).
  - intros pre x l st (Hsub & p1 & L1 & H). destruct (poll_io_step pre x l st p1 L1 H) as (st' & pre' & p2 & L2 & E1 & H2 & Hs2); [apply Hsub; set_solver|].
    exists st', pre', []. rewrite app_nil_r. split_and!; [done|done|cbn; lia| |by exists p2, L2|done|done]. set_solver.
  - rewrite app_nil_r in Hsub. by exists t', pre, p', L'.
Qed.
End pumping.

Lemma entries_revents p rs i : array_ok p -> 0 <= i -> is_Some (pfd p !! Z.to_nat i) ->
  revents_at (poll_entries p rs) i = if decide (i < num_pfd p) then Some (nth (Z.to_nat i) rs 0) else revents_at p i.
Proof.
  intros (Hl & Hn & _) Hi [e He]. unfold revents_at, poll_entries. cbn [pfd]. rewrite He. case_decide as Hlt.
  - rewrite lookup_app_l by (rewrite length_imap, length_take; lia). rewrite list_lookup_imap, lookup_take_lt by lia. by rewrite He.
  - rewrite lookup_app_r by (rewrite length_imap, length_take; lia). rewrite length_imap, length_take, lookup_drop.
    replace (Z.to_nat (num_pfd p) + (Z.to_nat i - Z.to_nat (num_pfd p) `min` length (pfd p)))%nat with (Z.to_nat i) by lia. by rewrite He.
Qed.

Lemma entries_array p rs : array_ok p -> length (pfd (poll_entries p rs)) = Z.to_nat (max_pfd p).
Proof. intros (Hl & Hn & _). unfold poll_entries. cbn [pfd]. rewrite length_app, length_imap, length_take, length_drop. lia. Qed.

Lemma polled_refl t L : polled t L t L.
Proof. split; [done|]. intros x v Hv. exists v. split; [done|by left]. Qed.

Lemma polled_quiet t0 t L t' L' : quiet t t0 -> polled t0 L t' L' -> polled t L t' L'.
Proof. intros Q [P0 P1]. split; intros x; rewrite <- (quiet_view t t0 L x Q); [apply P0|apply P1]. Qed.

(** What [poll_pump] does when poll(2) has reported [rs]. *)
Lemma pump_events t L p mto rs polls : wf t L -> r_priv t.2 = priv_ptr p -> poll_inv p t L ->
  poll_call (e_polls (fst (r_env t.2))) = Ret (Some rs, polls) ->
  exists t' L', poll_pump t mto = Ret t' /\ wf t' L' /\ poll_ok t' L' /\ client t' = client t /\ polled t L t' L' /\
    forall x n v r, on L inactive x -> r_io t.2 !! x = Some n -> 0 <= ev_poll n -> revents_at (poll_entries p rs) (ev_poll n) = Some r ->
      view t L x = Some v -> view t' L' x = Some (answered v r).
Proof.
  intros W Hp [A Al Ix C O] Hc. unfold poll_pump. rewrite (get_priv_ok t p Hp). run. rewrite Hc. run.
  set (t0 := set_env t (PollEnv polls (e_allocs (fst (r_env t.2))))).
  set (pe := poll_entries p rs). set (p1 := PollPriv (max_pfd pe) 0 (pfd pe)). set (t1 := set_priv t0 (priv_ptr p1)).
  assert (quiet t t1) as Q by done. destruct (wf_heads _ _ W inactive) as [l0 Hl0]; [apply is_head; tauto|].
  pose proof (re_ring _ _ (wf_repr _ _ W) _ _ Hl0) as [Hnd _]. apply NoDup_cons in Hnd as [_ Hnd].
  assert (forall x, x ∈ l0 <-> on L inactive x) as Hon by (intros x; rewrite <- on_default; by rewrite Hl0).
  assert (forall y n, y ∈ l0 -> r_io t1.2 !! y = Some n -> 0 <= ev_poll n -> is_Some (revents_at pe (ev_poll n))) as Hw.
  { intros y n Hy Hn Hev. destruct (Ix y n (proj1 (Hon y) Hy) Hn Hev) as (e & He & Hce).
    unfold pe. rewrite (entries_revents p rs _ A Hev) by (by eexists). case_decide; [by eexists|].
    unfold revents_at. rewrite He. destruct Hce as [|Hr]; [done|exact Hr]. }
  assert (length (filter (fun y => is_watched t1 y = true) l0) = size (watched t L)) as Hcnt.
  { unfold watched. rewrite Hl0. cbn [default]. rewrite <- (size_list_to_set (C := gset nat)) by (by apply NoDup_filter). f_equal.
    apply set_eq. intros y. rewrite elem_of_filter, !elem_of_list_to_set, list_elem_of_filter. done. }
  assert (pumping t1 L pe l0 [] l0 t1 p1 L) as Hpu.
  { split; try done.
    - by apply (quiet_wf t).
    - unfold array_ok. split_and!; cbn; [by apply entries_array|destruct A; lia|destruct A; lia|destruct A as (_ & _ & ?); done].
    - cbn [app]. rewrite Hcnt. cbn. destruct A as (_ & ? & _). lia.
    - apply polled_refl. }
  assert (length l0 <= size (r_io t0.2))%nat as Hsz.
  { rewrite <- (size_list_to_set (C := gset nat)) by done. rewrite <- size_dom. apply subseteq_size. intros x.
    rewrite elem_of_list_to_set, Hon, elem_of_dom. apply (wf_on _ _ W). }
  destruct (walk_ok t1 L pe l0 Hw (size (r_io t0.2)) t1 p1 Hpu Hsz) as (t' & pre & p' & L' & E1 & Hpu' & Hsub).
  exists t', L'. destruct Hpu' as [Hp' W' Hl' A' Al' Cl' C' R' O' Rv' P' T' Kp' D']. rewrite app_nil_r in Hl'. split_and!.
  - exact E1.
  - done.
  - exists p'. split; [done|]. assert (forall x, on L' inactive x <-> x ∈ pre) as Hon' by (intros x; rewrite <- on_default; by rewrite Hl'). split; try done.
    + intros x n Hx%Hon' Hn Hev. pose proof (Kp' x n Hx Hn) as Hn1. destruct (Hw x n (Hsub x Hx) Hn1 Hev) as [r Hr].
      rewrite <- (revents_same pe p' (ev_poll n) Rv') in Hr. unfold revents_at in Hr. apply bind_Some in Hr as (e & He & Hr).
      exists e. split; [done|]. right. by eexists.
    + pose proof (re_ring _ _ (wf_repr _ _ W') _ _ Hl') as [Hnd' _]. apply NoDup_cons in Hnd' as [_ Hnd'].
      rewrite C'. apply Nat2Z.inj_le. rewrite <- (size_list_to_set (C := gset nat)) by (by apply NoDup_filter).
      apply subseteq_size. intros x. unfold watched. rewrite elem_of_filter, !elem_of_list_to_set, list_elem_of_filter, Hl'. done.
  - done.
  - by apply (polled_quiet t1).
  - intros x n v r Hx Hn Hev Hr Hv. apply (D' x n v r); [by apply Hon|set_solver|done|done|done|done].
Qed.

Lemma poll_env_frame t L p polls : poll_inv p t L -> poll_inv p (set_env t (PollEnv polls (e_allocs (fst (r_env t.2))))) L.
Proof. intros Inv. pose proof (pi_allocs _ _ _ Inv). apply (poll_frame p t L); [done| |done|].
  - intros q y n' _ Hn. by exists n'.
  - intros q y n _ Hy _. by left. Qed.

Lemma poll_pump_law t L mto : poll_ok t L -> wf t L -> poll_pump t mto = Fault Blocked \/
  exists t' L', poll_pump t mto = Ret t' /\ wf t' L' /\ poll_ok t' L' /\ client t' = client t /\ polled t L t' L'.
Proof.
  intros (p & Hp & Inv) W. destruct (poll_call (e_polls (fst (r_env t.2)))) as [[ans polls]|f] eqn:Hc.
  - right. destruct ans as [rs|].
    + destruct (pump_events t L p mto rs polls W Hp Inv Hc) as (t' & L' & H1 & H2 & H3 & H4 & H5 & _). by exists t', L'.
    + unfold poll_pump. rewrite (get_priv_ok t p Hp). run. rewrite Hc. run. eexists _, L. split; [done|]. split; [by apply (quiet_wf t)|].
      split; [exists p; split; [done|by apply poll_env_frame]|]. split; [done|]. apply (polled_quiet (set_env t (PollEnv polls (e_allocs (fst (r_env t.2))))));  [done|]. apply polled_refl.
  - left. unfold poll_pump. rewrite (get_priv_ok t p Hp). run. rewrite Hc.
    assert (f = Blocked) as ->; [|done]. clear -Hc. induction (e_polls (fst (r_env t.2))) as [|[| |rs] l IH]; cbn in Hc; [by injection Hc|by apply IH|done|done].
Qed.

Lemma poll_gone t L t' L' : poll_ok t L -> same_plugin t t' L' ->
  (forall q y n, q <> deleted -> on L' q y -> r_io t'.2 !! y = Some n -> on L q y \/ poll_off n) -> poll_ok t' L'.
Proof.
  intros (p & Hp & Inv) (Hf & Hpr & He) Hon. exists p. split; [by rewrite Hpr|].
  apply (poll_frame p t L); [done|done| |done]. unfold allocs_ok. rewrite He. by apply (pi_allocs _ _ _ Inv).
Qed.

#[export] Instance poll_plugin : Plugin eventloop_poll poll_ok poll_off.
Proof.
  split.
  - intros n m f H; exact H.
  - intros t L x. apply poll_active_ok.
  - intros t L t' L' x HI Hs. apply (poll_inactive_ok t L); [done|by apply same_all_plugin].
  - intros t L t' L' Hok Hs Hon. apply (poll_gone t L); [done|by apply same_all_plugin|]. intros q y n _. apply Hon.
  - intros t L L' x n h (p & Hp & Inv) Hx Hon. exists p. split; [done|].
    apply (poll_frame p t L); [done| |apply (pi_allocs _ _ _ Inv)|intros q y m _ Hy _; left; by apply Hon].
    intros q y m Hy Hm. cbn in Hm. rewrite lookup_insert_ne in Hm by (by apply not_eq_sym, (Hon q)). by exists m.
Qed.

#[export] Instance poll_waiting : Waiting eventloop_poll poll_ok poll_off.
Proof. split; [intros t L mto; apply poll_pump_law|apply poll_gone]. Qed.

(** what poll(2) reports reaches the descriptor it is about. When the poll
    plugin has called poll(2), and the kernel (perhaps after some interrupted
    calls) has reported events for each entry of the array, a descriptor on the
    inactive list that holds one of those entries stays there if nothing was
    reported for it and is otherwise moved to the active list with exactly the
    flags of the events reported, its mask unchanged; the array is never read or
    written outside its bounds or before it is written, and the lists and the
    array are well formed again. *)
Theorem poll_pump_delivers t L p mto rs polls : wf t L -> r_priv t.2 = priv_ptr p -> poll_inv p t L ->
  poll_call (e_polls (fst (r_env t.2))) = Ret (Some rs, polls) ->
  exists t' L', poll_pump t mto = Ret t' /\ wf t' L' /\ poll_ok t' L' /\
    forall x n v, on L inactive x -> r_io t.2 !! x = Some n -> 0 <= ev_poll n < num_pfd p -> view t L x = Some v ->
      view t' L' x = Some (answered v (nth (Z.to_nat (ev_poll n)) rs 0)).
Proof.
  intros W Hp Inv Hc. destruct (pump_events t L p mto rs polls W Hp Inv Hc) as (t' & L' & H1 & H2 & H3 & _ & _ & H5).
  exists t', L'. split_and!; [done..|]. intros x n v Hx Hn Hev Hv. apply (H5 x n v); [done|done|lia| |done].
  destruct (pi_index _ _ _ Inv x n Hx Hn ltac:(lia)) as (e & He & _).
  rewrite (entries_revents p rs _ (pi_array _ _ _ Inv)) by (first [lia|by eexists]). by rewrite decide_True by lia.
Qed.
End poll.

(** ** Running it *)

(** A thread with the poll plugin, the memory of the nodes ready. *)
Definition poll_thread (ids : list nat) (fds : nat -> Z) (answers : list poll_answer) : iothread unit poll_priv (poll_env * unit) :=
  (nodes ([inactive; active; deleted] ++ ids),
   Rest (list_to_map ((fun x => (x, Nb (fds x) 0 0 tt 0)) <$> ids)) (priv_epoll 0) (PollEnv answers (replicate 8 65536), tt)).

(** Two descriptors start to wait for input; the first has some, is handled and
    waits again; then the second has some. *)
Definition two_waits (answers : list poll_answer) : outcome (iothread unit poll_priv (poll_env * unit)) :=
  '(_, t) ← nbio_init [eventloop_poll] (poll_thread [10; 11]%nat (fun x => Z.of_nat x - 3) answers) None;
  t ← nbio_add eventloop_poll t 10%nat NBIO_READ;
  t ← nbio_inactive eventloop_poll t 10%nat NBIO_READ;
  t ← nbio_add eventloop_poll t 11%nat NBIO_READ;
  t ← nbio_inactive eventloop_poll t 11%nat NBIO_READ;
  t ← poll_pump t (-1);
  nbio_inactive eventloop_poll t 10%nat NBIO_READ.

(** the poll plugin loses events. When some descriptors are ready and others
    not, [poll_pump] moves the entries of the others down in the array without
    telling them. Here two descriptors wait to read; the first becomes ready, is
    served and waits again. Now poll(2) is asked about descriptor 8 in entry 0
    and reports input on it, and yet its owner stays on the inactive list with
    no flags: it looks at entry 1, which is the other's. *)
Theorem poll_pump_misses :
  exists t p t', two_waits [PollEvents [POLLIN; 0]; PollEvents [POLLIN; 0]] = Ret t /\ r_priv t.2 = priv_ptr p /\
    pfd p !! 0%nat = Some (PollFd (Some 8) (Some (Z.lor (Z.lor POLLERR POLLHUP) POLLIN)) (Some POLLIN)) /\
    poll_pump t (-1) = Ret t' /\
    r_io t'.2 !! 11%nat = Some (Nb 8 NBIO_READ 0 tt 1) /\
    list_for_each_safe collect 2 inactive (t'.1, []) = Ret (t'.1, [11; 10]%nat).
Proof.
  eexists _, _, _. split; [vm_compute; reflexivity|]. split; [reflexivity|].
  split; [vm_compute; reflexivity|]. split; [vm_compute; reflexivity|]. split; vm_compute; reflexivity.
Qed.

(** One descriptor, waiting to read on the inactive list: reached by the calls. *)
Definition one_thread (answers : list poll_answer) : iothread unit poll_priv (poll_env * unit) :=
  (nodes (heads ++ [10]%nat),
   Rest {[10%nat := Nb 7 0 0 tt 0]} (priv_ptr (PollPriv 8 0 (replicate 8 empty_pfd))) (PollEnv answers [65536], tt)).

Lemma one_thread_ok answers : wf (one_thread answers) (singles (heads ++ [10]%nat)) /\ poll_ok (one_thread answers) (singles (heads ++ [10]%nat)).
Proof.
  assert (forall q y, on (singles (heads ++ [10]%nat)) q y -> False) as Hno by (intros q y (l & [_ ->]%singles_lookup & Hy); set_solver).
  split.
  - apply start_wf; [done|]. intros x n Hn. cbn in Hn. apply lookup_singleton_Some in Hn as [<- <-]. cbn. unfold heads. split_and!; [set_solver|set_solver|lia|lia].
  - eexists. split; [done|]. split.
    + unfold array_ok. cbn. lia.
    + by repeat constructor.
    + intros x n Hx _ _. by destruct (Hno _ _ Hx).
    + assert (watched (one_thread answers) (singles (heads ++ [10]%nat)) = ∅) as Hw; [|by rewrite Hw, size_empty].
      apply set_eq. intros y. rewrite watched_in. split; [intros (Hy & _); by destruct (Hno _ _ Hy)|set_solver].
    + intros q x n _ _ Hx _. by destruct (Hno _ _ Hx).
Qed.

Definition one_waits (wait : Z) (answers : list poll_answer) : outcome (iothread unit poll_priv (poll_env * unit)) :=
  t ← run_api eventloop_poll (one_thread answers) 10%nat (SetWait wait);
  run_api eventloop_poll t 10%nat (SetInactive wait).

Lemma one_waits_ok wait answers : wait = NBIO_READ \/ wait = NBIO_WRITE ->
  exists (t : iothread unit poll_priv (poll_env * unit)) L, one_waits wait answers = Ret t /\ wf t L /\ poll_ok t L /\
    view t L 10%nat = Some (Nbio 7 wait 0 Inactive) /\ forall y, is_Some (r_io t.2 !! y) -> y = 10%nat.
Proof.
  intros Hw. destruct (one_thread_ok answers) as [W I0].
  destruct (api_becomes eventloop_poll poll_ok poll_off (one_thread answers) (singles (heads ++ [10]%nat)) 10%nat (Nbio 7 0 0 WaitQ) (SetWait wait)
    (Nbio 7 wait wait Active) I0 W) as (t1 & L1 & E1 & S1 & I1 & _); [reflexivity|done|by destruct Hw as [-> | ->]|].
  destruct (api_becomes eventloop_poll poll_ok poll_off t1 L1 10%nat (Nbio 7 wait wait Active) (SetInactive wait) (Nbio 7 wait 0 Inactive)
    I1 (sh_wf _ _ _ _ _ _ S1) (sh_view _ _ _ _ _ _ S1)) as (t2 & L2 & E2 & S2 & I2 & _).
  { split; [by destruct Hw as [-> | ->]|exists active; by apply (view_active t1 L1 10%nat _ (sh_view _ _ _ _ _ _ S1))]. }
  { by destruct Hw as [-> | ->]. }
  exists t2, L2. unfold one_waits. rewrite E1. run. split_and!; [done|apply S2|done|apply S2|].
  intros y Hy. apply (sh_live _ _ _ _ _ _ S2), (sh_live _ _ _ _ _ _ S1) in Hy. cbn in Hy.
  destruct (decide (y = 10%nat)) as [|Hne]; [done|]. rewrite lookup_singleton_ne in Hy by done. by destruct Hy.
Qed.

(** The kernel reports [r] for the descriptor. *)
Lemma one_reported wait r : wait = NBIO_READ \/ wait = NBIO_WRITE -> exists (t : iothread unit poll_priv (poll_env * unit)) L p n,
  one_waits wait [PollIntr; PollEvents [r]] = Ret t /\ wf t L /\ r_priv t.2 = priv_ptr p /\ poll_inv p t L /\
  view t L 10%nat = Some (Nbio 7 wait 0 Inactive) /\ (forall y, is_Some (r_io t.2 !! y) -> y = 10%nat) /\
  r_io t.2 !! 10%nat = Some n /\ ev_poll n = 0 /\ num_pfd p = 1 /\ e_polls (fst (r_env t.2)) = [PollIntr; PollEvents [r]].
Proof.
  intros Hw. destruct (one_waits_ok wait [PollIntr; PollEvents [r]] Hw) as (t & L & E1 & W & (p & Hp & Inv) & V & Hy).
  assert (exists n, r_io t.2 !! 10%nat = Some n /\ ev_poll n = 0 /\ num_pfd p = 1 /\ e_polls (fst (r_env t.2)) = [PollIntr; PollEvents [r]]) as (n & H).
  { clear -Hp E1 Hw. destruct Hw as [-> | ->]; vm_compute in E1; injection E1 as <-; injection Hp as <-; by eexists. }
  by exists t, L, p, n.
Qed.

Example nbio_calls_refine_witness : exists t' L',
  run_api eventloop_poll (one_thread []) 10%nat (SetWait NBIO_READ) = Ret t' /\ view t' L' 10%nat = Some (Nbio 7 NBIO_READ NBIO_READ Active).
Proof.
  destruct (one_thread_ok []) as [W I0].
  destruct (nbio_calls_refine eventloop_poll poll_ok poll_off (one_thread []) (singles (heads ++ [10]%nat)) 10%nat (Nbio 7 0 0 WaitQ) (SetWait NBIO_READ)
    I0 W eq_refl I) as (t' & L' & E1 & _ & _ & V & _).
  exists t', L'. split; [exact E1|exact V].
Defined.

Example poll_pump_delivers_witness : exists (t : iothread unit poll_priv (poll_env * unit)) L t' L',
  view t L 10%nat = Some (Nbio 7 NBIO_READ 0 Inactive) /\
  poll_pump t (-1) = Ret t' /\ view t' L' 10%nat = Some (Nbio 7 NBIO_READ NBIO_READ Active).
Proof.
  destruct (one_reported NBIO_READ 17 (or_introl eq_refl)) as (t & L & p & n & _ & W & Hp & Inv & V & _ & Hn & Hev & Hnum & Hans).
  destruct (poll_pump_delivers t L p (-1) [17] [] W Hp Inv) as (t' & L' & E2 & _ & _ & Hd); [by rewrite Hans|].
  exists t, L, t', L'. split; [exact V|]. split; [exact E2|].
  specialize (Hd 10%nat n (Nbio 7 NBIO_READ 0 Inactive) (view_inactive t L 10%nat _ V eq_refl) Hn ltac:(lia) V).
  rewrite Hev in Hd. exact Hd.
Defined.

(** A hang-up (16) is reported for a descriptor that waits to write. *)
Example nbio_pump_spins_witness : exists (t t' : iothread unit poll_priv (poll_env * unit)),
  one_waits NBIO_WRITE [PollIntr; PollEvents [POLLHUP]] = Ret t /\ poll_pump t (-1) = Ret t' /\
  forall ops fuel, nbio_pump eventloop_poll ops fuel t' (-1) = Fault OutOfFuel.
Proof.
  destruct (one_reported NBIO_WRITE POLLHUP (or_intror eq_refl)) as (t & L & p & n & E1 & W & Hp & Inv & V & Hy & Hn & Hev & Hnum & Hans).
  destruct (pump_events t L p (-1) [POLLHUP] [] W Hp Inv ltac:(by rewrite Hans)) as (t' & L' & E2 & W' & _ & _ & [P0 _] & Hd).
  assert (view t' L' 10%nat = Some (Nbio 7 NBIO_WRITE NBIO_READ Active)) as V'.
  { refine (Hd 10%nat n (Nbio 7 NBIO_WRITE 0 Inactive) POLLHUP (view_inactive t L 10%nat _ V eq_refl) Hn ltac:(lia) _ V).
    rewrite (entries_revents p [POLLHUP] _ (pi_array _ _ _ Inv)); [by rewrite Hev, Hnum|lia|].
    destruct (pi_index _ _ _ Inv 10%nat n (view_inactive t L 10%nat _ V eq_refl) Hn ltac:(lia)) as (e & He & _). by eexists. }
  exists t, t'. split; [exact E1|]. split; [exact E2|]. intros ops fuel. apply (nbio_pump_spins eventloop_poll ops fuel t' L' (-1) W').
  - intros x m Ha Hm. destruct (decide (x = 10%nat)) as [->|Hne].
    + unfold view in V'. rewrite Hm in V'. injection V' as _ E3 E4 _. unfold lively, is_ready, failed. by rewrite E3, E4.
    + exfalso. assert (view t' L' x = None) as Hv; [|unfold view in Hv; by rewrite Hm in Hv].
      apply P0. unfold view. destruct (r_io t.2 !! x) eqn:Ex; [|done]. by destruct Hne, (Hy x ltac:(by eexists)).
  - intros Hl. destruct (view_active t' L' 10%nat _ V' eq_refl) as (l & Hl' & Hin). rewrite Hl in Hl'. injection Hl' as <-. set_solver.
Defined.
