(* ===== verification/NbioEventfd.v ===== *)
(** * nbio-eventfd.c: wake-ups from other threads

    A descriptor of the event loop around an eventfd. Its read callback takes the
    counter and hands it to the owner, or goes idle when there is nothing to
    take. What the kernel answers and where [calloc] finds memory are inputs. *)

From S2P Require Import Prelude ListHead Nbio NbioLoop NbioPump NbioPoll.
Local Open Scope Z_scope.

(** The fields of [struct nb_efd] after its [struct nbio]; the callback is named
    by a number. *)
Record nb_efd := NbEfd { e_cb : nat; e_priv : nat }.

Inductive efd_answer := EfdVal (v : Z) | EfdAgain | EfdErr.

(** Answers to come: to eventfd_read, none left meaning that the counter stays at
    zero; to [calloc]; to eventfd. And the descriptors closed. *)
Record efd_env := EfdEnv {
  f_reads : list efd_answer;
  f_callocs : list nat;
  f_eventfds : list Z;
  f_closed : list Z
}.

Section efd.
Context {A Pl Y : Type}.
Abbreviation E := (Pl * (efd_env * Y))%type.
Abbreviation thread := (iothread nb_efd A E).
Context (plugin : eventloop nb_efd A E) (callback : nat -> thread -> nat -> Z -> outcome thread).
Implicit Types (t : thread) (x : nat).

Definition get_efd t : efd_env := fst (snd (r_env t.2)).
Definition set_efd t (e : efd_env) : thread :=
  (t.1, Rest (r_io t.2) (r_priv t.2) (fst (r_env t.2), (e, snd (snd (r_env t.2))))).

Definition eventfd_read t : efd_answer * thread :=
  let e := get_efd t in
  match f_reads e with
  | [] => (EfdAgain, t)
  | a :: reads => (a, set_efd t (EfdEnv reads (f_callocs e) (f_eventfds e) (f_closed e)))
  end.

Definition efd_close t (fd : Z) : thread :=
  let e := get_efd t in set_efd t (EfdEnv (f_reads e) (f_callocs e) (f_eventfds e) (f_closed e ++ [fd])).

(** [free]: the descriptor and its list node are gone. *)
Definition efd_free t x : thread :=
  (delete x t.1, Rest (delete x (r_io t.2)) (r_priv t.2) (r_env t.2)).

Definition efd_read t x : outcome thread :=
  let '(a, t) := eventfd_read t in
  match a with
  | EfdAgain => nbio_inactive plugin t x NBIO_READ
  | EfdErr => Ret t
  | EfdVal v => n ← get_io t x; callback (e_cb (nb_ops n)) t (e_priv (nb_ops n)) v
  end.

Definition efd_dtor t x : outcome thread :=
  n ← get_io t x; Ret (efd_free (efd_close t (nb_fd n)) x).

Definition ops (_ : nb_efd) : nbio_ops nb_efd A E := NbioOps (Some efd_read) None (Some efd_dtor).

(** A new object: zeroed memory, with null list pointers. *)
Definition efd_calloc t : option nat * thread :=
  let e := get_efd t in
  match f_callocs e with
  | [] => (None, t)
  | x :: callocs =>
      let t := set_efd t (EfdEnv (f_reads e) callocs (f_eventfds e) (f_closed e)) in
      (Some x, (<[x := (0, 0)%nat]> t.1, Rest (<[x := Nb 0 0 0 (NbEfd 0 0) 0]> (r_io t.2)) (r_priv t.2) (r_env t.2)))
  end.

Definition eventfd t : Z * thread :=
  let e := get_efd t in
  match f_eventfds e with
  | [] => (-1, t)
  | fd :: fds => (fd, set_efd t (EfdEnv (f_reads e) (f_callocs e) fds (f_closed e)))
  end.

Definition nbio_eventfd_new t (cb priv : nat) : option nat * thread :=
  match efd_calloc t with
  | (None, t) => (None, t)
  | (Some x, t) =>
      let '(fd, t) := eventfd t in
      if fd <? 0 then (None, efd_free t x)
      else (Some x, put_io t x (Nb fd 0 0 (NbEfd cb priv) 0))
  end.

Definition nbio_eventfd_add t x : outcome thread := nbio_add plugin t x NBIO_READ.

(** ** The callbacks keep the contract of the loop *)

Context (J : thread -> lists -> Prop) (off : nb nb_efd -> Prop) `{!Plugin plugin J off} `{!Waiting plugin J off}.

(** What the owner of an eventfd is called for may change what is behind the
    event loop, but not the loop itself. *)
Hypothesis callback_law : forall c t p v, exists y, callback c t p v = Ret (t.1, Rest (r_io t.2) (r_priv t.2) (fst (r_env t.2), (get_efd t, y))).

(** Every descriptor is an eventfd: it waits to read. *)
Definition efds (r : rest nb_efd A E) : Prop := forall x n, r_io r !! x = Some n -> nb_mask n = NBIO_READ \/ nb_mask n = NBIO_DELETED.

(** What there is left to do. *)
Definition weight (n : nb nb_efd) : nat :=
  ((if is_ready n NBIO_WRITE then 1 else 0) + (if is_ready n NBIO_READ then 1 else 0) + (if failed n then 1 else 0) + 1)%nat.
Definition vals (m : gmap nat (nb nb_efd)) : gmap nat (Z * Z) := (fun n => (nb_mask n, nb_flags n)) <$> m.
Definition weight_of (v : Z * Z) : nat := weight (Nb 0 (fst v) (snd v) (NbEfd 0 0) 0).
Definition weigh (m : gmap nat (Z * Z)) : nat := map_fold (fun _ v acc => weight_of v + acc)%nat O m.
Definition work t : nat := (length (f_reads (get_efd t)) + weigh (vals (r_io t.2)))%nat.

Lemma weigh_delete (m : gmap nat (Z * Z)) x v : m !! x = Some v -> weigh m = (weight_of v + weigh (delete x m))%nat.
Proof. intros H. unfold weigh. rewrite (map_fold_delete_L (fun _ v acc => (weight_of v + acc)%nat) O x v m); [done| |done]. intros. lia. Qed.

Lemma weigh_put (m : gmap nat (Z * Z)) x v v' : m !! x = Some v -> (weigh (<[x := v']> m) + weight_of v = weigh m + weight_of v')%nat.
Proof.
  intros H. rewrite (weigh_delete (<[x := v']> m) x v') by (by rewrite lookup_insert_eq). rewrite delete_insert_eq.
  rewrite (weigh_delete m x v H). lia.
Qed.

Lemma weigh_size (m : gmap nat (Z * Z)) : (size m <= weigh m)%nat.
Proof.
  induction m as [|x v m Hx IH] using map_ind; [rewrite map_size_empty; lia|]. rewrite map_size_insert_None by done.
  rewrite (weigh_delete (<[x := v]> m) x v) by (by rewrite lookup_insert_eq). rewrite delete_insert_eq, delete_id by done.
  unfold weight_of, weight at 1. lia.
Qed.

Lemma shifted_vals t L x t' L' v : shifted t L x t' L' v -> vals (r_io t'.2) = <[x := (n_mask v, n_flags v)]> (vals (r_io t.2)).
Proof.
  intros S. apply map_eq. intros y. unfold vals. destruct (decide (y = x)) as [->|Hy].
  - rewrite lookup_insert_eq, lookup_fmap. destruct (view_of _ _ _ _ (sh_view _ _ _ _ _ _ S)) as (n & -> & ->). done.
  - rewrite lookup_insert_ne, !lookup_fmap by done. pose proof (sh_others _ _ _ _ _ _ S y Hy) as Hv. unfold view in Hv.
    destruct (r_io t'.2 !! y), (r_io t.2 !! y); cbn in *; congruence.
Qed.

Lemma efds_vals r : efds r <-> forall x v, vals (r_io r) !! x = Some v -> fst v = NBIO_READ \/ fst v = NBIO_DELETED.
Proof.
  unfold efds, vals. split.
  - intros H x v Hv. rewrite lookup_fmap in Hv. apply fmap_Some in Hv as (n & Hn & ->). by apply (H x).
  - intros H x n Hn. apply (H x (nb_mask n, nb_flags n)). by rewrite lookup_fmap, Hn.
Qed.

Lemma land_assoc_zero f m w : Z.land m w = 0 -> Z.land (Z.land f m) w = 0.
Proof. intros H. by rewrite <- Z.land_assoc, H, Z.land_0_r. Qed.

Lemma efd_never_writes r x n : efds r -> r_io r !! x = Some n -> is_ready n NBIO_WRITE = false.
Proof. intros H Hn. unfold is_ready. destruct (H x n Hn) as [-> | ->]; by rewrite land_assoc_zero. Qed.

Lemma efd_reading r x n : efds r -> r_io r !! x = Some n -> is_ready n NBIO_READ = true -> nb_mask n = NBIO_READ.
Proof. intros H Hn Hr. destruct (H x n Hn) as [|E1]; [done|]. unfold is_ready in Hr. rewrite E1, land_assoc_zero in Hr; done. Qed.

(** Going idle uses up the readiness to read. *)
Lemma idle_weight flags : is_ready (Nb 0 NBIO_READ flags (NbEfd 0 0) 0) NBIO_READ = true ->
  Z.land NBIO_READ (Z.land flags (uint 8 (Z.lnot NBIO_READ))) = 0 /\
  (weight_of (NBIO_READ, Z.land flags (uint 8 (Z.lnot NBIO_READ))) < weight_of (NBIO_READ, flags))%nat.
Proof.
  intros Hr. set (fl := Z.land flags (uint 8 (Z.lnot NBIO_READ))).
  assert (Z.land NBIO_READ fl = 0) as H0.
  { unfold fl. rewrite (Z.land_comm NBIO_READ), <- Z.land_assoc. change (Z.land (uint 8 (Z.lnot NBIO_READ)) NBIO_READ) with 0. apply Z.land_0_r. }
  split; [done|]. unfold weight_of, weight, fst, snd. rewrite Hr.
  assert (forall f w, Z.land NBIO_READ f = 0 -> is_ready (Nb 0 NBIO_READ f (NbEfd 0 0) 0) w = false) as Hf.
  { intros f w Hf. unfold is_ready. cbn [nb_flags nb_mask]. rewrite (Z.land_comm f), Hf. done. }
  rewrite !(Hf fl) by done.
  assert (failed (Nb 0 NBIO_READ fl (NbEfd 0 0) 0) = failed (Nb 0 NBIO_READ flags (NbEfd 0 0) 0)) as ->.
  { unfold failed. cbn [nb_flags]. unfold fl. rewrite <- Z.land_assoc. done. }
  destruct (is_ready _ NBIO_WRITE); lia.
Qed.

(** Only the part of the program behind the loop changes. *)
Lemma behind t L e y : both J efds t L -> wf t L -> awake t L ->
  let t' := (t.1, Rest (r_io t.2) (r_priv t.2) (fst (r_env t.2), (e, y))) : thread in
  passed J efds t L t' L /\ forall x, stays t L x t' L.
Proof.
  intros [HJ HC] W Aw t'. split; [|by intros x z _ Hz; left].
  split; try done; [by apply (quiet_wf t)|]. split; [|done]. apply (pl_gone t L); [done| |].
  - split; [|done]. intros q z n' _ Hn. by exists n'.
  - intros q z n _ Hz _. by left.
Qed.

Lemma efd_goes_idle t L x n : both J efds t L -> wf t L -> awake t L -> r_io t.2 !! x = Some n -> (exists q, on L q x) ->
  is_ready n NBIO_READ = true ->
  exists t' L', nbio_inactive plugin t x NBIO_READ = Ret t' /\ passed J efds t L t' L' /\ stays t L x t' L' /\
    get_efd t' = get_efd t /\ (weigh (vals (r_io t'.2)) < weigh (vals (r_io t.2)))%nat.
Proof.
  intros [HJ HC] W Aw Hn Hq Hr. pose proof (efd_reading t.2 x n HC Hn Hr) as Hm.
  assert (view t L x = Some (Nbio (nb_fd n) NBIO_READ (nb_flags n) (queue_of L x))) as V by (unfold view; rewrite Hn; cbn; by rewrite Hm).
  destruct (inactive_ok plugin J off t L x _ NBIO_READ HJ W V ltac:(done) Hq) as (t' & L' & E1 & S & J' & Cl).
  assert (is_ready (Nb 0 NBIO_READ (nb_flags n) (NbEfd 0 0) 0) NBIO_READ = true) as Hr' by (rewrite <- Hr; unfold is_ready; cbn; by rewrite Hm).
  destruct (idle_weight (nb_flags n) Hr') as [Hz Hw]. set (fl := Z.land (nb_flags n) (uint 8 (Z.lnot NBIO_READ))) in *.
  unfold Nbio.nbio_inactive in S. cbn [n_fd n_mask n_flags n_list] in S. fold fl in S. rewrite Hz in S. cbn [Z.eqb] in S.
  pose proof (shifted_vals _ _ _ _ _ _ S) as Hv. cbn [n_mask n_flags] in Hv.
  assert (vals (r_io t.2) !! x = Some (NBIO_READ, nb_flags n)) as Hvx by (unfold vals; by rewrite lookup_fmap, Hn, <- Hm).
  pose proof (ready_not_deleted t L x n NBIO_READ W Hn Hr) as Hnd.
  exists t', L'. split; [exact E1|]. pose proof S as [W' V' LV O ON Q LI]. split_and!.
  - split; [done|split; [done|]| |by intros y; apply LV| |done].
    + apply efds_vals. rewrite Hv. intros y v Hy. apply lookup_insert_Some in Hy as [[<- <-]|[_ Hy]]; [by left|]. by apply (proj1 (efds_vals t.2) HC y).
    + intros y m Ha Hy. destruct (decide (y = x)) as [->|Hne].
      * pose proof (view_inactive t' L' x _ V' eq_refl) as Hi. pose proof (on_unique _ _ x _ _ (wf_repr _ _ W') Ha Hi). done.
      * apply ON in Ha; [|done]. specialize (O y Hne). unfold view in O. rewrite Hy in O. cbn in O. symmetry in O.
        apply fmap_Some in O as (m0 & Hm0 & [= _ E2 E3 _]). pose proof (Aw y m0 Ha Hm0) as Hl.
        unfold lively, is_ready, failed in *. by rewrite E2, E3.
    + intros y Hd. apply ON; [by intros ->|done].
  - intros y Hne Ha. left. by apply ON.
  - unfold get_efd. unfold client in Cl. by injection Cl as _ ->.
  - rewrite Hv. pose proof (weigh_put (vals (r_io t.2)) x _ (NBIO_READ, fl) Hvx). lia.
Qed.

Lemma efd_read_ok t L x n : both J efds t L -> wf t L -> awake t L -> r_io t.2 !! x = Some n -> is_ready n NBIO_READ = true ->
  (exists q, on L q x) -> exists t' L', io_read ops t x = Ret t' /\ after J efds work t L x t' L'.
Proof.
  intros HI W Aw Hn Hr Hq. unfold io_read. rewrite (get_io_ok t x n Hn). run. cbn [op_read ops]. unfold call. run.
  unfold efd_read, eventfd_read. destruct (f_reads (get_efd t)) as [|a reads] eqn:Er.
  { destruct (efd_goes_idle t L x n HI W Aw Hn Hq Hr) as (t' & L' & E1 & P & S & Hg & Hw).
    exists t', L'. split; [exact E1|]. split_and!; [done|done|]. unfold work. rewrite Hg. lia. }
  set (t1 := set_efd t (EfdEnv reads (f_callocs (get_efd t)) (f_eventfds (get_efd t)) (f_closed (get_efd t)))).
  destruct (behind t L (EfdEnv reads (f_callocs (get_efd t)) (f_eventfds (get_efd t)) (f_closed (get_efd t))) (snd (snd (r_env t.2))) HI W Aw) as [P1 S1].
  change (passed J efds t L t1 L) in P1. assert (work t1 < work t)%nat as Hless by (unfold work; rewrite Er; change (f_reads (get_efd t1)) with reads; cbn [length]; change (r_io t1.2) with (r_io t.2); lia).
  destruct a as [v| |].
  - rewrite (get_io_ok t1 x n Hn). run. destruct (callback_law (e_cb (nb_ops n)) t1 (e_priv (nb_ops n)) v) as [y ->].
    destruct (behind t1 L (get_efd t1) y (pa_inv _ _ _ _ _ _ P1) (pa_wf _ _ _ _ _ _ P1) (pa_awake _ _ _ _ _ _ P1)) as [P2 S2].
    eexists _, L. split; [done|]. split_and!; [exact (passed_trans J efds _ _ _ _ _ _ P1 P2)|intros z _ Hz; by left|exact Hless].
  - destruct (efd_goes_idle t1 L x n (pa_inv _ _ _ _ _ _ P1) (pa_wf _ _ _ _ _ _ P1) (pa_awake _ _ _ _ _ _ P1) Hn Hq Hr) as (t' & L' & E1 & P & S & Hg & Hw).
    exists t', L'. split; [exact E1|]. split_and!; [exact (passed_trans J efds _ _ _ _ _ _ P1 P)|done|].
    etransitivity; [|exact Hless]. unfold work. rewrite Hg. lia.
  - exists t1, L. split; [done|]. split_and!; [done|apply S1|exact Hless].
Qed.

Lemma efd_fails t L x n t' : both J efds t L -> r_io t.2 !! x = Some n -> failed n = true ->
  r_io t'.2 = <[x := set_masks n NBIO_DELETED 0]> (r_io t.2) -> r_env t'.2 = r_env t.2 -> efds t'.2 /\ (work t' < work t)%nat.
Proof.
  intros [_ HC] Hn Hf Hi He. split.
  - intros y m. rewrite Hi. intros [[<- <-]|[_ Hy]]%lookup_insert_Some; [by right|by apply (HC y)].
  - unfold work, get_efd. rewrite He, Hi. unfold vals. rewrite fmap_insert. fold (vals (r_io t.2)).
    assert (vals (r_io t.2) !! x = Some (nb_mask n, nb_flags n)) as Hv by (unfold vals; by rewrite lookup_fmap, Hn).
    pose proof (weigh_put (vals (r_io t.2)) x _ (nb_mask (set_masks n NBIO_DELETED 0), nb_flags (set_masks n NBIO_DELETED 0)) Hv) as Hw.
    assert (weight_of (nb_mask (set_masks n NBIO_DELETED 0), nb_flags (set_masks n NBIO_DELETED 0)) = 1%nat) as H1 by done.
    assert (2 <= weight_of (nb_mask n, nb_flags n))%nat as H2.
    { unfold weight_of, weight, fst, snd. assert (failed (Nb 0 (nb_mask n) (nb_flags n) (NbEfd 0 0) 0) = true) as -> by (exact Hf). lia. }
    lia.
Qed.

Lemma free_repr h L x : repr h L -> fresh_in L x -> repr (delete x h) L.
Proof.
  intros [R D] Hx. split; [|done]. intros hd l Hl. apply (ring_frame h); [by apply R|]. intros a Ha.
  rewrite lookup_delete_ne; [done|]. intros <-. by apply (Hx hd l).
Qed.

Lemma efd_dtor_ok t L l x : both J efds t L -> wf (forget x t) L -> awake (forget x t) L -> is_Some (r_io t.2 !! x) -> L !! x = None ->
  L !! deleted = Some l ->
  exists t' L' k, io_dtor ops t x = Ret t' /\ wf t' L' /\ both J efds t' L' /\ awake t' L' /\ L' !! deleted = Some (l ++ k) /\
    r_io t'.2 !! x = None /\ forall y, y <> x -> is_Some (r_io t'.2 !! y) <-> is_Some (r_io t.2 !! y).
Proof.
  intros [HJ HC] W Aw [n Hn] Hx Hl. unfold io_dtor. rewrite (get_io_ok t x n Hn). run. cbn [op_dtor ops]. unfold call. run.
  unfold efd_dtor. rewrite (get_io_ok t x n Hn). run. set (t' := efd_free (efd_close t (nb_fd n)) x).
  assert (r_io t'.2 = delete x (r_io t.2)) as Hio by done.
  assert (fresh_in L x) as Hf.
  { intros hd k Hk Hin. apply elem_of_cons in Hin as [->|Hin]; [by rewrite Hx in Hk|].
    assert (is_Some (r_io (forget x t).2 !! x)) as [m Hm] by (apply (wf_on _ _ W hd); by exists k).
    cbn in Hm. by rewrite lookup_delete_eq in Hm. }
  exists t', L, []. rewrite app_nil_r, Hio, lookup_delete_eq. split_and!; try done.
  - destruct W as [R H N O M]. split; cbn; [by apply free_repr|done|done|done|done].
  - split.
    + apply (pl_gone t L); [done| |].
      * split; [|done]. intros q z n' _ Hz. rewrite Hio in Hz. apply lookup_delete_Some in Hz as [_ Hz]. by exists n'.
      * intros q z m _ Hz _. by left.
    + intros y m Hy. rewrite Hio in Hy. apply lookup_delete_Some in Hy as [_ Hy]. by apply (HC y).
  - intros y Hy. by rewrite lookup_delete_ne.
Qed.

(** Eventfds are descriptors that the loop can drive. *)
#[export] Instance efd_callbacks : Callbacks ops J efds work.
Proof.
  split.
  - intros t L x n HI W Aw Hn Hq Hr. by apply (efd_read_ok t L x n).
  - intros t L x n [_ HC] W Aw Hn Hq Hr. by rewrite (efd_never_writes t.2 x n HC Hn) in Hr.
  - intros t L x n t' HI _ Hn Hf _ Hi He. by apply (efd_fails t L x n t').
  - intros t L _. unfold work. pose proof (weigh_size (vals (r_io t.2))) as H. unfold vals in H. rewrite map_size_fmap in H. unfold vals. lia.
  - intros t L l x HI W Aw Hx Hxn Hl. by apply (efd_dtor_ok t L l x).
Qed.
End efd.

(** ** Running it *)

(** The owner notes the values it is given. *)
Definition note {A Pl} (c : nat) (t : iothread nb_efd A (Pl * (efd_env * list Z))) (p : nat) (v : Z) :
    outcome (iothread nb_efd A (Pl * (efd_env * list Z))) :=
  Ret (t.1, Rest (r_io t.2) (r_priv t.2) (fst (r_env t.2), (fst (snd (r_env t.2)), snd (snd (r_env t.2)) ++ [v]))).

Abbreviation noted := (iothread nb_efd poll_priv (poll_env * (efd_env * list Z))).

(** An eventfd that has been given values and is not yet on a list. *)
Definition one_efd (reads : list efd_answer) : noted :=
  (nodes (heads ++ [10]%nat),
   Rest {[10%nat := Nb 7 NBIO_READ 0 (NbEfd 0 0) 0]} (priv_ptr (PollPriv 8 0 (replicate 8 empty_pfd)))
     (PollEnv [] [], (EfdEnv reads [] [] [], []))).

Lemma one_efd_ok reads : exists (t : noted) L, nbio_set_wait eventloop_poll (one_efd reads) 10%nat NBIO_READ = Ret t /\
  both poll_ok efds t L /\ wf t L /\ awake t L /\ work t = (length reads + 2)%nat /\ view t L 10%nat = Some (Nbio 7 NBIO_READ NBIO_READ Active).
Proof.
  assert (forall q y, on (singles (heads ++ [10]%nat)) q y -> False) as Hno by (intros q y (l & [_ ->]%singles_lookup & Hy); set_solver).
  assert (wf (one_efd reads) (singles (heads ++ [10]%nat))) as W.
  { apply start_wf; [done|]. intros x n Hn. cbn in Hn. apply lookup_singleton_Some in Hn as [<- <-]. cbn. unfold heads. split_and!; [set_solver|set_solver|done|done]. }
  assert (poll_ok (one_efd reads) (singles (heads ++ [10]%nat))) as I0.
  { eexists. split; [done|]. split; [unfold array_ok; cbn; lia|constructor| | |].
    - intros x n Hx _ _. by destruct (Hno _ _ Hx).
    - assert (watched (one_efd reads) (singles (heads ++ [10]%nat)) = ∅) as Hw; [|by rewrite Hw, size_empty].
      apply set_eq. intros y. rewrite watched_in. split; [intros (Hy & _); by destruct (Hno _ _ Hy)|set_solver].
    - intros q x n _ _ Hx _. by destruct (Hno _ _ Hx). }
  destruct (set_wait_becomes eventloop_poll poll_ok poll_off (one_efd reads) _ 10%nat (Nbio 7 1 0 WaitQ) NBIO_READ None I0 W)
    as (v & Hv & t & L & E1 & S & I1 & Cl); [reflexivity|done|done|]. injection Hv as <-.
  pose proof (shifted_vals _ _ _ _ _ _ S) as Hvals. cbn [n_mask n_flags] in Hvals. unfold vals at 2 in Hvals. cbn [r_io one_efd snd] in Hvals.
  rewrite map_fmap_singleton, insert_singleton_eq in Hvals.
  exists t, L. split; [exact E1|]. split_and!; [|apply S| | |apply S].
  - split; [done|]. apply efds_vals. intros x v. rewrite Hvals. intros [<- <-]%lookup_singleton_Some. by left.
  - intros x n Ha Hn. assert (vals (r_io t.2) !! x = Some (nb_mask n, nb_flags n)) as Hx by (unfold vals; by rewrite lookup_fmap, Hn).
    rewrite Hvals in Hx. apply lookup_singleton_Some in Hx as [<- [= Em Ef]]. unfold lively, is_ready. rewrite <- Em, <- Ef. done.
  - unfold work. rewrite Hvals. assert (get_efd t = EfdEnv reads [] [] []) as -> by (unfold get_efd; injection Cl as _ ->; done).
    unfold weigh. rewrite map_fold_singleton. done.
Qed.

Example nbio_pump_ok_witness : exists (t : noted) (L : lists) (t1 : noted) (L1 : lists),
  nbio_set_wait eventloop_poll (one_efd [EfdVal 5; EfdVal 6]) 10%nat NBIO_READ = Ret t /\ on L active 10%nat /\
  pump_active (ops eventloop_poll note) 20 t = Ret t1 /\ L1 !! active = Some [] /\ snd (snd (r_env t1.2)) = [5; 6].
Proof.
  destruct (one_efd_ok [EfdVal 5; EfdVal 6]) as (t & L & E1 & HI & W & Aw & Hw & V).
  assert (forall (c : nat) (t : noted) (p : nat) (v : Z),
    exists y, note c t p v = Ret (t.1, Rest (r_io t.2) (r_priv t.2) (fst (r_env t.2), (get_efd t, y)))) as Hcb by (intros; by eexists).
  assert (work t < 20)%nat as Hf by (rewrite Hw; cbn; lia).
  pose proof (efd_callbacks eventloop_poll note poll_ok poll_off Hcb) as Hcalls.
  destruct (nbio_pump_ok eventloop_poll (ops eventloop_poll note) poll_ok poll_off efds work 20 t L (-1) HI W Aw Hf)
    as (t1 & L1 & t2 & L2 & E2 & _ & Hl & _).
  exists t, L, t1, L1. split; [exact E1|]. split; [exact (view_active t L 10%nat _ V eq_refl)|]. split; [exact E2|]. split; [exact Hl|].
  assert (match nbio_set_wait eventloop_poll (one_efd [EfdVal 5; EfdVal 6]) 10%nat NBIO_READ with
          | Ret t => match pump_active (ops eventloop_poll note) 20 t with Ret t1 => snd (snd (r_env t1.2)) | _ => [] end
          | _ => [] end = [5; 6]) as H by (vm_compute; reflexivity).
  rewrite E1, E2 in H. exact H.
Defined.
