(* ===== verification/NbioEpoll.v ===== *)
(** * nbio-epoll.c: the epoll plugin

    The kernel keeps, for an epoll descriptor, which descriptors are registered
    with which events and which user pointer. It is an argument here: the class
    [EpollKernel] has its calls and what epoll(7) says of them. *)

From S2P Require Import Prelude ListHead Nbio NbioLoop NbioPoll.
Local Open Scope Z_scope.

Definition EPOLLIN : Z := 1.
Definition EPOLLOUT : Z := 4.
Definition EPOLLERR : Z := 8.
Definition EPOLLHUP : Z := 16.
Definition EPOLLET : Z := 2 ^ 31.

(** Reported events come with the pointer that was registered. *)
Inductive epoll_answer := EpollIntr | EpollErr | EpollEvents (l : list (nat * Z)).

Class EpollKernel (Ep : Type) := {
  interest : Ep -> gmap Z (Z * nat);
  epoll_create : Ep -> Z * Ep;
  epoll_ctl_add : Ep -> Z -> Z -> Z -> nat -> bool * Ep;
  epoll_ctl_del : Ep -> Z -> Z -> Ep;
  epoll_wait : Ep -> Z -> Z -> epoll_answer * Ep;
  epoll_close : Ep -> Z -> option bool * Ep;
  (** Only an open descriptor can be registered, and once. *)
  ctl_add_law : forall e ep fd ev x ok e', epoll_ctl_add e ep fd ev x = (ok, e') ->
    if ok then 0 <= fd /\ interest e !! fd = None /\ interest e' = <[fd := (ev, x)]> (interest e) else interest e' = interest e;
  ctl_del_law : forall e ep fd, interest (epoll_ctl_del e ep fd) = delete fd (interest e);
  (** Each registered descriptor is reported at most once, 8 of them at a time. *)
  wait_law : forall e ep mto a e', epoll_wait e ep mto = (a, e') -> interest e' = interest e /\
    forall l, a = EpollEvents l -> (length l <= 8)%nat /\
      exists fds, NoDup fds /\ Forall2 (fun fd xr => exists ev, interest e !! fd = Some (ev, fst xr)) fds l
}.

Section epoll.
Context {K A Ep X : Type} `{!EpollKernel Ep} (retries : nat).
Abbreviation thread := (iothread K A (Ep * X)).
Implicit Types (t : thread) (n : nb K) (x : nat) (L : lists).

Definition get_ep t : Ep := fst (r_env t.2).
Definition set_ep t (e : Ep) : thread := (t.1, Rest (r_io t.2) (r_priv t.2) (e, snd (r_env t.2))).

Definition epfd t : outcome Z :=
  match r_priv t.2 with priv_epoll fd => Ret fd | priv_ptr _ => Fault OutOfBounds end.

Definition epoll_init t : bool * thread :=
  let '(fd, e) := epoll_create (get_ep t) in
  (negb (fd <? 0), (t.1, Rest (r_io t.2) (priv_epoll fd) (e, snd (r_env t.2)))).

(** [while ( close() && (errno == EINTR) )]: the answer is [None] for success and
    otherwise whether the call was interrupted. *)
Fixpoint close_loop (fuel : nat) (e : Ep) (fd : Z) : outcome Ep :=
  match fuel with
  | O => Fault OutOfFuel
  | S fuel =>
      match epoll_close e fd with
      | (Some true, e) => close_loop fuel e fd
      | (_, e) => Ret e
      end
  end.

Definition epoll_fini t : outcome thread :=
  fd ← epfd t; e ← close_loop retries (get_ep t) fd; Ret (set_ep t e).

Definition epoll_active t x : outcome thread :=
  n ← get_io t x;
  if ev_poll n =? 0 then Ret t
  else if nb_fd n <? 0 then Ret t
  else
    fd ← epfd t;
    let t := put_io t x (set_poll n 0) in
    Ret (set_ep t (epoll_ctl_del (get_ep t) fd (nb_fd n))).

Definition epoll_flags (events : Z) : Z :=
  Z.lor (Z.lor (if negb (Z.land events (Z.lor EPOLLIN EPOLLHUP) =? 0) then NBIO_READ else 0)
    (if negb (Z.land events EPOLLOUT =? 0) then NBIO_WRITE else 0))
    (if negb (Z.land events EPOLLERR =? 0) then NBIO_ERROR else 0).

Fixpoint epoll_deliver (l : list (nat * Z)) t : outcome thread :=
  match l with
  | [] => Ret t
  | (x, events) :: l =>
      n ← get_io t x;
      t ← on_heap (put_io t x (set_masks n (nb_mask n) (epoll_flags events))) (fun h => list_move_tail h x active);
      epoll_deliver l t
  end.

Fixpoint epoll_call (fuel : nat) (e : Ep) (fd mto : Z) : outcome (option (list (nat * Z)) * Ep) :=
  match fuel with
  | O => Fault OutOfFuel
  | S fuel =>
      match epoll_wait e fd mto with
      | (EpollIntr, e) => epoll_call fuel e fd mto
      | (EpollErr, e) => Ret (None, e)
      | (EpollEvents l, e) => Ret (Some l, e)
      end
  end.

Definition epoll_pump t (mto : Z) : outcome thread :=
  fd ← epfd t;
  '(r, e) ← epoll_call retries (get_ep t) fd mto;
  let t := set_ep t e in
  match r with
  | None => Ret t
  | Some l => epoll_deliver l t
  end.

Definition epoll_events n : Z :=
  Z.lor (Z.lor (Z.lor (Z.lor EPOLLERR EPOLLHUP) EPOLLET) (if negb (Z.land (nb_mask n) NBIO_READ =? 0) then EPOLLIN else 0))
    (if negb (Z.land (nb_mask n) NBIO_WRITE =? 0) then EPOLLOUT else 0).

Definition epoll_inactive t x : outcome thread :=
  n ← get_io t x;
  if ev_poll n =? 1 then Ret t
  else
    fd ← epfd t;
    let '(ok, e) := epoll_ctl_add (get_ep t) fd (nb_fd n) (epoll_events n) x in
    let t := set_ep t e in
    if (ok : bool) then Ret (put_io t x (set_poll n 1)) else Ret t.

Definition eventloop_epoll : eventloop K A (Ep * X) :=
  Eventloop "epoll" epoll_init epoll_fini epoll_pump epoll_inactive epoll_active.

(** ** What is registered

    Every registration is of a descriptor that is there, under its own number,
    that says so and that is not being deleted. *)
Definition epoll_off n : Prop := ev_poll n = 0 \/ nb_fd n < 0.

Definition registered t L (fd : Z) (x : nat) : Prop :=
  0 <= fd /\ (fields <$> r_io t.2 !! x) = Some (fd, 1) /\ ~ on L deleted x.

Definition epoll_ok t L : Prop := (exists fd, r_priv t.2 = priv_epoll fd) /\
  forall fd ev x, interest (get_ep t) !! fd = Some (ev, x) -> registered t L fd x.

Lemma registered_node t L fd x : registered t L fd x -> exists n, r_io t.2 !! x = Some n /\ nb_fd n = fd /\ ev_poll n = 1 /\ ~ epoll_off n.
Proof. intros (Hfd & (n & Hn & [= E1 E2])%fmap_Some & _). exists n. split_and!; [done..|]. unfold epoll_off. lia. Qed.

Lemma registered_frame t L t' L' fd x : registered t L fd x -> same_all t t' ->
  (forall n, on L' deleted x -> r_io t'.2 !! x = Some n -> on L deleted x \/ epoll_off n) -> registered t' L' fd x.
Proof.
  intros (H0 & Hf & Hd) (Ef & _) H. assert ((fields <$> r_io t'.2 !! x) = Some (fd, 1)) as Hf' by (rewrite <- lookup_fmap, Ef, lookup_fmap; done).
  split_and!; [done|done|]. intros Hx. apply fmap_Some in Hf' as (n & Hn & [= E1 E2]).
  destruct (H n Hx Hn) as [|[Ho|Ho]]; [done|lia|lia].
Qed.

Lemma epoll_frame t L t' L' : epoll_ok t L -> same_all t t' ->
  (forall y n, on L' deleted y -> r_io t'.2 !! y = Some n -> on L deleted y \/ epoll_off n) -> epoll_ok t' L'.
Proof.
  intros [[fd Hp] HR] Hs H. pose proof Hs as (_ & Hp' & He). split; [exists fd; congruence|].
  intros f ev x. unfold get_ep. rewrite He. intros Hx. apply (registered_frame t L); [by apply (HR f ev)|done|]. intros n. apply H.
Qed.

Lemma put_epoll_quiet t x n v e : r_io t.2 !! x = Some n -> quiet t (set_ep (put_io t x (set_poll n v)) e).
Proof. intros Hn. split; [done|]. cbn. rewrite fmap_insert. apply insert_id. by rewrite lookup_fmap, Hn. Qed.

Lemma epoll_active_ok t L x : epoll_ok t L -> is_Some (r_io t.2 !! x) ->
  exists t' n', epoll_active t x = Ret t' /\ quiet t t' /\ client t' = client t /\ epoll_ok t' L /\ r_io t'.2 !! x = Some n' /\ epoll_off n'.
Proof.
  intros [[fd Hp] HR] [n Hn]. unfold epoll_active. rewrite (get_io_ok t x n Hn). run.
  destruct (Z.eqb_spec (ev_poll n) 0) as [H0|H0]; [exists t, n; split_and!; [done|done|done|by split; [exists fd|]|done|by left]|].
  destruct (Z.ltb_spec (nb_fd n) 0) as [H1|H1]; [exists t, n; split_and!; [done|done|done|by split; [exists fd|]|done|by right]|].
  unfold epfd. rewrite Hp. run. eexists _, (set_poll n 0). split; [done|]. pose proof (put_epoll_quiet t x n 0 (epoll_ctl_del (get_ep t) fd (nb_fd n)) Hn) as Q.
  split; [done|]. split; [by apply client_quiet|]. split; [|split; [by cbn; rewrite lookup_insert_eq|by left]].
  split; [by exists fd|]. intros f ev y. cbn. rewrite ctl_del_law. intros [Hne Hy]%lookup_delete_Some. destruct (HR _ _ _ Hy) as (Hf & Hy' & Hd).
  split_and!; [done| |done]. cbn. rewrite lookup_insert_ne; [done|]. intros <-. rewrite Hn in Hy'. injection Hy' as E1 E2. done.
Qed.

Lemma epoll_inactive_ok t L t' L' x : epoll_ok t L -> same_all t t' -> is_Some (r_io t'.2 !! x) ->
  (forall q y, on L' q y -> if decide (y = x) then q = inactive else on L q y) ->
  exists t2, epoll_inactive t' x = Ret t2 /\ quiet t' t2 /\ client t2 = client t' /\ epoll_ok t2 L'.
Proof.
  intros HI Hs [n Hn] Hon. assert (~ on L' deleted x) as Hdx by (intros H; apply Hon in H; by rewrite decide_True in H).
  assert (epoll_ok t' L') as HI'.
  { apply (epoll_frame t L); [done|done|]. intros y m Hy _. left. pose proof (Hon _ _ Hy) as H. case_decide; [by subst|done]. }
  clear HI Hs. destruct HI' as [[fd Hp] HR]. unfold epoll_inactive. rewrite (get_io_ok t' x n Hn). run.
  destruct (Z.eqb_spec (ev_poll n) 1) as [H0|H0]; [exists t'; split_and!; [done|done|done|by split; [exists fd|]]|].
  unfold epfd. rewrite Hp. run. destruct (epoll_ctl_add (get_ep t') fd (nb_fd n) (epoll_events n) x) as [ok e] eqn:Ec. apply ctl_add_law in Ec. destruct ok.
  - eexists. split; [done|]. pose proof (put_epoll_quiet t' x n 1 e Hn) as Q. split; [exact Q|]. split; [by apply (client_quiet _ _ Q)|].
    split; [by exists fd|]. destruct Ec as (H1 & _ & Ei). intros f ev y. cbn. rewrite Ei.
    intros [[<- [= <- <-]]|[Hne Hy]]%lookup_insert_Some.
    + split_and!; [done| |done]. cbn. by rewrite lookup_insert_eq.
    + destruct (HR _ _ _ Hy) as (Hf & Hy' & Hd). split_and!; [done| |done]. cbn. rewrite lookup_insert_ne; [done|]. intros <-.
      rewrite Hn in Hy'. by injection Hy' as E1 E2.
  - exists (set_ep t' e). split_and!; [done|done|done|]. split; [by exists fd|]. intros f ev y. cbn. rewrite Ec. apply HR.
Qed.

(** The calls of the event loop can use this plugin. *)
#[export] Instance epoll_plugin : Plugin eventloop_epoll epoll_ok epoll_off.
Proof.
  split.
  - intros n m f H. exact H.
  - intros t L x. apply epoll_active_ok.
  - intros t L t' L' x HI Hs Hx _. by apply (epoll_inactive_ok t L).
  - intros t L t' L' HI Hs Hon. apply (epoll_frame t L); [done|done|]. intros y n. apply Hon.
  - intros t L L' x n h [Hp HR] Hx Hon. split; [done|]. intros f ev y Hi. destruct (HR f ev y Hi) as (H0 & Hf & Hd). split_and!; [done| |].
    + cbn. rewrite lookup_insert_ne; [done|]. intros <-. by rewrite Hx in Hf.
    + intros Hy. by apply Hd, (Hon deleted).
Qed.

(** ** What is reported *)

Lemma epoll_flags_reports r : epoll_flags r = reports r.
Proof. exact (poll_flags_reports r). Qed.

(** The descriptors reported, in turn. *)
Lemma deliver_ok l : forall t L, wf t L -> NoDup (l.*1) -> (forall x r, (x, r) ∈ l -> is_Some (r_io t.2 !! x) /\ ~ on L deleted x) ->
  exists t' L', epoll_deliver l t = Ret t' /\ wf t' L' /\ same_all t t' /\ r_env t'.2 = r_env t.2 /\ (forall y, on L' deleted y -> on L deleted y) /\
    (forall x, x ∉ l.*1 -> view t' L' x = view t L x) /\
    forall x r, (x, r) ∈ l -> forall v, view t L x = Some v -> view t' L' x = Some (Nbio (n_fd v) (n_mask v) (reports r) Active).
Proof.
  induction l as [|[x r] l IH]; intros t L W Hnd Hl; cbn [epoll_deliver].
  { exists t, L. split_and!; try done. set_solver. }
  cbn [fmap list_fmap fst] in Hnd. apply NoDup_cons in Hnd as [Hx Hnd].
  destruct (Hl x r ltac:(set_solver)) as [[n Hn] Hdel]. rewrite (get_io_ok t x n Hn). run.
  destruct (move_io_ok t L x n (nb_mask n) (epoll_flags r) active W Hn) as (t1 & E1 & S & Ei & Ep1 & Ee);
    [by apply head_queue; [|apply is_head; tauto]|by apply (masks_live L x n Hdel), (wf_masks _ _ W)|].
  rewrite E1. run. assert (forall y, on (moved x active L) deleted y -> on L deleted y) as Hdd.
  { intros y Hy. destruct (decide (y = x)) as [->|Hne]; [|by apply (sh_on _ _ _ _ _ _ S)].
    destruct (wf_node _ _ W x ltac:(by eexists)) as [Nx Hx']. apply moved_on in Hy; [naive_solver| |by apply (wf_heads _ _ W), is_head; tauto|done].
    intros <-. apply Hx', is_head. tauto. }
  destruct S as [W1 V1 LV1 O1 ON1 Q1 _].
  destruct (IH t1 (moved x active L) W1 Hnd) as (t2 & L2 & E2 & W2 & (Sa1 & Sa2 & _) & Ee2 & Hd2 & O2 & D2).
  { intros y s Hy. assert (y <> x) as Hne by (intros ->; apply Hx; by apply (list_elem_of_fmap_2' fst l (x, s))).
    destruct (Hl y s ltac:(set_solver)) as [Hly Hdy]. split; [by apply LV1|]. by rewrite ON1. }
  exists t2, L2. split_and!; [done|done| |congruence|by intros y Hy; apply Hdd, Hd2| |].
  - split_and!; [rewrite Sa1, Ei; by apply put_fields|congruence|congruence].
  - intros y Hy. cbn [fmap list_fmap fst] in Hy. apply not_elem_of_cons in Hy as [Hyx Hyl]. rewrite O2 by done. by apply O1.
  - intros y s Hy v Hv. apply elem_of_cons in Hy as [[= -> ->]|Hy].
    + rewrite O2 by done. rewrite V1, epoll_flags_reports. unfold view in Hv. rewrite Hn in Hv. injection Hv as <-. done.
    + assert (y <> x) as Hne by (intros ->; apply Hx; by apply (list_elem_of_fmap_2' fst l (x, s))).
      apply (D2 y s Hy v). by rewrite O1.
Qed.

(** [l] tells of registrations, each at most once. *)
Definition tells (m : gmap Z (Z * nat)) (l : list (nat * Z)) : Prop :=
  exists fds, NoDup fds /\ Forall2 (fun fd xr => exists ev, m !! fd = Some (ev, fst xr)) fds l.

Lemma call_law fuel : forall e fd mto r e', epoll_call fuel e fd mto = Ret (r, e') -> interest e' = interest e /\
  forall l, r = Some l -> (length l <= 8)%nat /\ tells (interest e) l.
Proof.
  induction fuel as [|fuel IH]; intros e fd mto r e' H; cbn in H; [done|]. destruct (epoll_wait e fd mto) as [a e1] eqn:Ew.
  apply wait_law in Ew as [Hi Hl]. destruct a as [| |l].
  - apply IH in H as [H1 H2]. rewrite Hi in H1, H2. done.
  - injection H as <- <-. by split.
  - injection H as <- <-. split; [done|]. intros l' [= <-]. by apply Hl.
Qed.

(** What is told is about different live descriptors. *)
Lemma tells_live t L l : epoll_ok t L -> tells (interest (get_ep t)) l ->
  NoDup (l.*1) /\ forall x r, (x, r) ∈ l -> exists fd, registered t L fd x.
Proof.
  intros [_ HR] (fds & Hnd & Hf).
  assert (NoDup (l.*1) /\ forall x r, (x, r) ∈ l -> exists fd, fd ∈ fds /\ registered t L fd x) as [H1 H2]; [|split; [done|naive_solver]].
  induction Hf as [|fd [x r] fds l (ev & Hi) Hf IH]; [split; [constructor|set_solver]|]. apply NoDup_cons in Hnd as [Hfd Hnd].
  destruct (IH Hnd) as [H1 H2]. pose proof (HR _ _ _ Hi) as Hr. cbn in Hr. split.
  - cbn [fmap list_fmap fst]. apply NoDup_cons. split; [|done]. intros ([y s] & -> & Hy)%list_elem_of_fmap. destruct (H2 _ _ Hy) as (fd2 & Hfd2 & Hr2).
    destruct Hr as (_ & E1 & _), Hr2 as (_ & E2 & _). cbn in E1. rewrite E1 in E2. injection E2 as ->. done.
  - intros y s [[= -> ->]|Hy]%elem_of_cons; [exists fd; split; [left|done]|]. destruct (H2 _ _ Hy) as (fd2 & ? & ?). exists fd2. by split; [right|].
Qed.

(** C40: what epoll_wait reports reaches the descriptor it is about. When the
    plugin's invariant holds (every registration is of a live descriptor, which
    every call to the event loop preserves), a call to
    epoll_wait that returns at most eight events, perhaps after interruptions,
    leaves each descriptor reported on the active list with exactly the flags of
    its events and its mask unchanged, every other descriptor as it was, and
    the invariant in place. *)
Theorem epoll_pump_delivers t L fd mto l e : wf t L -> epoll_ok t L -> r_priv t.2 = priv_epoll fd ->
  epoll_call retries (get_ep t) fd mto = Ret (Some l, e) ->
  exists t' L', epoll_pump t mto = Ret t' /\ wf t' L' /\ epoll_ok t' L' /\ (length l <= 8)%nat /\
    (forall x, x ∉ l.*1 -> view t' L' x = view t L x) /\
    forall x r, (x, r) ∈ l -> exists v, view t L x = Some v /\ view t' L' x = Some (Nbio (n_fd v) (n_mask v) (reports r) Active).
Proof.
  intros W HI Hp Hc. destruct (call_law _ _ _ _ _ _ Hc) as [Hi Hl]. destruct (Hl l eq_refl) as (H8 & Ht).
  destruct (tells_live t L l HI Ht) as [Hnd Hlive]. unfold epoll_pump, epfd. rewrite Hp. run. rewrite Hc. run.
  assert (wf (set_ep t e) L) as W1 by (by apply (quiet_wf t)).
  destruct (deliver_ok l (set_ep t e) L W1 Hnd) as (t' & L' & E1 & W' & Sa & Ee & Hd & O & D).
  { intros x r Hx. destruct (Hlive x r Hx) as (f & Hr). destruct (registered_node _ _ _ _ Hr) as (n & Hn & _). split; [by eexists|apply Hr]. }
  exists t', L'. split_and!; [exact E1|done| |done|exact O|].
  - apply (epoll_frame (set_ep t e) L); [|done|intros y n Hy _; left; by apply Hd].
    split; [by exists fd|]. unfold get_ep. cbn. rewrite Hi. apply HI.
  - intros x r Hx. destruct (Hlive x r Hx) as (f & Hr). destruct (registered_node _ _ _ _ Hr) as (n & Hn & _).
    assert (view t L x = Some (Nbio (nb_fd n) (nb_mask n) (nb_flags n) (queue_of L x))) as V by (unfold view; by rewrite Hn).
    eexists. split; [exact V|]. by apply (D x r Hx).
Qed.
End epoll.

(** ** Running it *)

(** A kernel that, for each call to epoll_wait, is interrupted or has something
    for one descriptor. *)
Record one_kernel := OneKernel { k_interest : gmap Z (Z * nat); k_waits : list (option (Z * Z)) }.

Definition k_wait (e : one_kernel) : epoll_answer * one_kernel :=
  match k_waits e with
  | [] => (EpollErr, e)
  | None :: w => (EpollIntr, OneKernel (k_interest e) w)
  | Some (fd, r) :: w =>
      (match k_interest e !! fd with Some (_, x) => EpollEvents [(x, r)] | None => EpollEvents [] end, OneKernel (k_interest e) w)
  end.

#[export] Program Instance one_epoll : EpollKernel one_kernel := {|
  interest := k_interest;
  epoll_create e := (3, e);
  epoll_ctl_add e ep fd ev x :=
    if (fd <? 0) || bool_decide (is_Some (k_interest e !! fd)) then (false, e) else (true, OneKernel (<[fd := (ev, x)]> (k_interest e)) (k_waits e));
  epoll_ctl_del e ep fd := OneKernel (delete fd (k_interest e)) (k_waits e);
  epoll_wait e ep mto := k_wait e;
  epoll_close e ep := (None, e)
|}.
Next Obligation.
  cbn. intros e _ fd ev x ok e' H. destruct (Z.ltb_spec fd 0) as [Hf|Hf]; cbn in H; [by injection H as <- <-|].
  case_bool_decide as Hd; injection H as <- <-; [done|]. split_and!; [done|by apply eq_None_not_Some|done].
Qed.
Next Obligation. done. Qed.
Next Obligation.
  cbn. intros e _ _ a e' H. unfold k_wait in H. destruct (k_waits e) as [|[[fd r]|] w]; injection H as <- <-; (split; [done|intros l Hl]); try done.
  destruct (k_interest e !! fd) as [[ev x]|] eqn:Hi; injection Hl as <-; (split; [cbn; lia|]).
  - exists [fd]. split; [apply NoDup_singleton|]. repeat constructor. by exists ev.
  - exists []. split; constructor.
Qed.

Definition epoll_thread (waits : list (option (Z * Z))) : iothread unit unit (one_kernel * unit) :=
  (nodes (heads ++ [10]%nat), Rest {[10%nat := Nb 7 0 0 tt 0]} (priv_epoll 3) (OneKernel ∅ waits, tt)).

Definition epoll_waits (waits : list (option (Z * Z))) : outcome (iothread unit unit (one_kernel * unit)) :=
  t ← run_api (eventloop_epoll 8) (epoll_thread waits) 10%nat (SetWait NBIO_READ);
  run_api (eventloop_epoll 8) t 10%nat (SetInactive NBIO_READ).

Lemma epoll_thread_ok waits : wf (epoll_thread waits) (singles (heads ++ [10]%nat)) /\ epoll_ok (epoll_thread waits) (singles (heads ++ [10]%nat)).
Proof.
  split; [|split; [by exists 3|done]].
  apply start_wf; [done|]. intros x n Hn. cbn in Hn. apply lookup_singleton_Some in Hn as [<- <-]. cbn. unfold heads. split_and!; [set_solver|set_solver|lia|lia].
Qed.

Lemma epoll_waits_ok waits :
  exists (t : iothread unit unit (one_kernel * unit)) L, epoll_waits waits = Ret t /\ wf t L /\ epoll_ok t L /\ view t L 10%nat = Some (Nbio 7 NBIO_READ 0 Inactive).
Proof.
  destruct (epoll_thread_ok waits) as [W I0].
  destruct (api_becomes (eventloop_epoll 8) epoll_ok epoll_off (epoll_thread waits) (singles (heads ++ [10]%nat)) 10%nat (Nbio 7 0 0 WaitQ) (SetWait NBIO_READ)
    (Nbio 7 1 1 Active) I0 W) as (t1 & L1 & E1 & S1 & I1 & _); [reflexivity|done|done|].
  destruct (api_becomes (eventloop_epoll 8) epoll_ok epoll_off t1 L1 10%nat (Nbio 7 1 1 Active) (SetInactive NBIO_READ) (Nbio 7 1 0 Inactive)
    I1 (sh_wf _ _ _ _ _ _ S1) (sh_view _ _ _ _ _ _ S1)) as (t2 & L2 & E2 & S2 & I2 & _); [|done|].
  { split; [done|exists active; by apply (view_active t1 L1 10%nat _ (sh_view _ _ _ _ _ _ S1))]. }
  exists t2, L2. unfold epoll_waits. rewrite E1. run. split_and!; [done|apply S2|done|apply S2].
Qed.

(** The first call to epoll_wait is interrupted, the second reports input (1). *)
Example epoll_pump_delivers_witness : exists (t : iothread unit unit (one_kernel * unit)) L t' L',
  epoll_waits [None; Some (7, 1)] = Ret t /\ epoll_pump 8 t (-1) = Ret t' /\ view t' L' 10%nat = Some (Nbio 7 NBIO_READ NBIO_READ Active) /\
  view t L 10%nat = Some (Nbio 7 NBIO_READ 0 Inactive).
Proof.
  destruct (epoll_waits_ok [None; Some (7, 1)]) as (t & L & E1 & W & I0 & V).
  assert (exists e, r_priv t.2 = priv_epoll 3 /\ epoll_call 8 (get_ep t) 3 (-1) = Ret (Some [(10%nat, 1)], e)) as (e & Hp & Hc).
  { clear -E1. vm_compute in E1. injection E1 as <-. eexists. split; [reflexivity|]. vm_compute. reflexivity. }
  destruct (epoll_pump_delivers 8 t L 3 (-1) [(10%nat, 1)] e W I0 Hp Hc) as (t' & L' & E2 & _ & _ & _ & _ & D).
  destruct (D 10%nat 1 ltac:(by left)) as (v & Hv & Hv'). rewrite V in Hv. injection Hv as <-.
  exists t, L, t', L'. split; [exact E1|]. split; [exact E2|]. split; [exact Hv'|exact V].
Defined.
