(* ===== verification/Sockets.v ===== *)
(** * The sockets the kernel gives

    What the listener and the connecter ask of the kernel, as an interface: the
    calls, and what their manual pages say of the descriptors that are open
    before and after each. [Y] is everything behind the event loop, the kernel
    included. *)

From S2P Require Import Prelude Os.
Local Open Scope Z_scope.

Definition PF_INET : Z := 2.
Definition SOL_SOCKET : Z := 1.
Definition SO_REUSEADDR : Z := 2.
Definition SOL_TCP : Z := 6.
Definition TCP_FASTOPEN : Z := 23.
Definition SOCK_NONBLOCK : Z := 2048.

(** [struct sockaddr_in]; port and address are bytes in network order. *)
Record sockaddr_in := SockaddrIn { sin_family : Z; sin_port : list Z; sin_addr : list Z }.

(** [htons] and [htonl] of a value, as the bytes that are stored. *)
Definition net_bytes (n : nat) (z : Z) : list Z := reverse (le_bytes n z).

Inductive accept_err := NoMem | Again | OtherErr.
Abbreviation accept_answer := (Z + accept_err)%type.
Inductive connect_answer := Connected | InProgress | ConnectErr.

Class Sockets (Y : Type) := {
  opened : Y -> gset Z;
  (** What waits behind a listening socket: connections and errors. *)
  backlog : Y -> Z -> list (option accept_err);
  sk_calloc : Y -> option nat * Y;
  sk_socket : Y -> Z -> Z -> Z * Y;
  sk_setsockopt : Y -> Z -> Z -> Z -> Z -> Y;
  sk_getfl : Y -> Z -> Z;
  sk_setfl : Y -> Z -> Z -> bool * Y;
  sk_bind : Y -> Z -> sockaddr_in -> bool * Y;
  sk_listen : Y -> Z -> Z -> bool * Y;
  sk_accept : Y -> Z -> accept_answer * Y;
  sk_connect : Y -> Z -> sockaddr_in -> connect_answer * Y;
  (** [getsockopt] of [SO_ERROR]: none if the call fails. *)
  sk_error : Y -> Z -> option Z * Y;
  sk_close : Y -> Z -> Y;
  calloc_law : forall y, opened (sk_calloc y).2 = opened y;
  socket_law : forall y type proto fd y', sk_socket y type proto = (fd, y') ->
    if fd <? 0 then opened y' = opened y else fd ∉ opened y /\ opened y' = {[fd]} ∪ opened y;
  setsockopt_law : forall y fd level name val, opened (sk_setsockopt y fd level name val) = opened y;
  setfl_law : forall y fd fl, opened (sk_setfl y fd fl).2 = opened y;
  bind_law : forall y fd sa, opened (sk_bind y fd sa).2 = opened y;
  listen_law : forall y fd n, opened (sk_listen y fd n).2 = opened y;
  connect_law : forall y fd sa, opened (sk_connect y fd sa).2 = opened y;
  error_law : forall y fd, opened (sk_error y fd).2 = opened y;
  close_law : forall y fd, opened (sk_close y fd) = opened y ∖ {[fd]};
  (** [accept4] takes what is in front, and would block when nothing is. *)
  accept_law : forall y fd a y', sk_accept y fd = (a, y') ->
    match backlog y fd with
    | [] => a = inr Again /\ backlog y' fd = []
    | None :: rest => (exists s, a = inl s) /\ backlog y' fd = rest
    | Some e :: rest => a = inr e /\ backlog y' fd = rest
    end;
  accepted_law : forall y fd a y', sk_accept y fd = (a, y') ->
    match a with
    | inl s => 0 <= s /\ s ∉ opened y /\ opened y' = {[s]} ∪ opened y
    | _ => opened y' = opened y
    end
}.

(** [fd_block] on a descriptor. *)
Definition sk_block {Y} `{Sockets Y} (y : Y) (fd : Z) (b : bool) : bool * Y :=
  let getfl := sk_getfl y fd in
  if getfl <? 0 then (false, y)
  else
    let '(ok, y) := sk_setfl y fd (fd_block getfl true b).2 in
    ((fd_block getfl ok b).1, y).

Lemma block_law {Y} `{Sockets Y} (y : Y) fd b : opened (sk_block y fd b).2 = opened y.
Proof.
  unfold sk_block. destruct (sk_getfl y fd <? 0); [done|]. pose proof (setfl_law y fd (fd_block (sk_getfl y fd) true b).2) as E.
  by destruct (sk_setfl y fd _).
Qed.

(** What the kernel knows of a socket: how it was made, the flags of its
    descriptor, the address it has been given and, if connections may arrive
    on it, how many may wait. *)
Record sock := Sock { so_type : Z; so_proto : Z; so_flags : Z; so_name : option sockaddr_in; so_queue : option Z }.

(** What the calls do to a socket, by their manual pages, and the number of calls
    that have failed. A call that fails leaves no promise but that. *)
Class SockStates (Y : Type) `{!Sockets Y} := {
  sock_of : Y -> Z -> option sock;
  failures : Y -> nat;
  calloc_state : forall y, failures (sk_calloc y).2 = match (sk_calloc y).1 with Some _ => failures y | None => S (failures y) end;
  socket_state : forall y type proto fd y', sk_socket y type proto = (fd, y') ->
    if fd <? 0 then failures y' = S (failures y)
    else failures y' = failures y /\ exists fl, 0 <= fl /\ sock_of y' fd = Some (Sock type proto fl None None);
  setsockopt_state : forall y fd level name val, failures (sk_setsockopt y fd level name val) = failures y /\
    sock_of (sk_setsockopt y fd level name val) fd = sock_of y fd;
  getfl_state : forall y fd s, sock_of y fd = Some s -> sk_getfl y fd = so_flags s;
  setfl_state : forall y fd fl s ok y', sock_of y fd = Some s -> sk_setfl y fd fl = (ok, y') ->
    if ok : bool then failures y' = failures y /\ sock_of y' fd = Some (Sock (so_type s) (so_proto s) fl (so_name s) (so_queue s))
    else failures y' = S (failures y);
  bind_state : forall y fd sa s ok y', sock_of y fd = Some s -> sk_bind y fd sa = (ok, y') ->
    if ok : bool then failures y' = failures y /\ sock_of y' fd = Some (Sock (so_type s) (so_proto s) (so_flags s) (Some sa) (so_queue s))
    else failures y' = S (failures y);
  listen_state : forall y fd n s ok y', sock_of y fd = Some s -> sk_listen y fd n = (ok, y') ->
    if ok : bool then failures y' = failures y /\ sock_of y' fd = Some (Sock (so_type s) (so_proto s) (so_flags s) (so_name s) (Some n))
    else failures y' = S (failures y);
  close_state : forall y fd, failures (sk_close y fd) = failures y
}.

(** ** A script of answers

    For running the clients: a process with its open descriptors, and what the
    calls that can fail will say; and the notes of its callbacks. *)
Record script := Script {
  s_opened : gset Z;
  s_backlog : list (option accept_err);
  s_callocs : list nat;
  s_oks : list bool;
  s_connects : list (connect_answer + option Z);
  s_log : list (nat * nat * Z)
}.

Definition s_ok (y : script) : bool * script :=
  match s_oks y with
  | [] => (true, y)
  | ok :: oks => (ok, Script (s_opened y) (s_backlog y) (s_callocs y) oks (s_connects y) (s_log y))
  end.

Definition s_open (y : script) (fds : gset Z) : script := Script fds (s_backlog y) (s_callocs y) (s_oks y) (s_connects y) (s_log y).

Definition fresh_fd (fds : gset Z) : Z := 1 + foldr Z.max 2 (elements fds).

Lemma fresh_fd_spec fds : 0 <= fresh_fd fds /\ fresh_fd fds ∉ fds.
Proof.
  unfold fresh_fd. assert (forall l : list Z, 2 <= foldr Z.max 2 l /\ forall z, z ∈ l -> z <= foldr Z.max 2 l) as H.
  { induction l as [|a l [H1 H2]]; cbn; [split; [lia|set_solver]|]. split; [lia|]. intros z [->|Hz]%elem_of_cons; [lia|]. specialize (H2 z Hz). lia. }
  destruct (H (elements fds)) as [H1 H2]. split; [lia|]. intros Hin. apply elem_of_elements in Hin. specialize (H2 _ Hin). lia.
Qed.

Definition s_connect (y : script) : connect_answer * script :=
  match s_connects y with
  | inl a :: l => (a, Script (s_opened y) (s_backlog y) (s_callocs y) (s_oks y) l (s_log y))
  | _ => (ConnectErr, y)
  end.

Definition s_error (y : script) : option Z * script :=
  match s_connects y with
  | inr a :: l => (a, Script (s_opened y) (s_backlog y) (s_callocs y) (s_oks y) l (s_log y))
  | _ => (None, y)
  end.

Lemma s_ok_opened y : s_opened (s_ok y).2 = s_opened y.
Proof. unfold s_ok. by destruct (s_oks y). Qed.

#[export] Program Instance script_sockets : Sockets script := {|
  opened := s_opened;
  backlog y _ := s_backlog y;
  sk_calloc y :=
    match s_callocs y with
    | [] => (None, y)
    | x :: l => (Some x, Script (s_opened y) (s_backlog y) l (s_oks y) (s_connects y) (s_log y))
    end;
  sk_socket y _ _ := let '(ok, y) := s_ok y in if ok : bool then (fresh_fd (s_opened y), s_open y ({[fresh_fd (s_opened y)]} ∪ s_opened y)) else (-1, y);
  sk_setsockopt y _ _ _ _ := y;
  sk_getfl _ _ := 2;
  sk_setfl y _ _ := s_ok y;
  sk_bind y _ _ := s_ok y;
  sk_listen y _ _ := s_ok y;
  sk_accept y _ :=
    match s_backlog y with
    | [] => (inr Again, y)
    | None :: l => (inl (fresh_fd (s_opened y)), Script ({[fresh_fd (s_opened y)]} ∪ s_opened y) l (s_callocs y) (s_oks y) (s_connects y) (s_log y))
    | Some e :: l => (inr e, Script (s_opened y) l (s_callocs y) (s_oks y) (s_connects y) (s_log y))
    end;
  sk_connect y _ _ := s_connect y;
  sk_error y _ := s_error y;
  sk_close y fd := s_open y (s_opened y ∖ {[fd]})
|}.
Next Obligation. intros y. cbn. by destruct (s_callocs y). Qed.
Next Obligation.
  cbn. intros y _ _ fd y' H. pose proof (s_ok_opened y) as Ho. destruct (s_ok y) as [[] y1]; injection H as <- <-; cbn in Ho.
  - destruct (fresh_fd_spec (s_opened y1)) as [H1 H2]. rewrite (proj2 (Z.ltb_ge _ _)) by done. cbn. by rewrite Ho in *.
  - done.
Qed.
Next Obligation. done. Qed.
Next Obligation. intros y fd fl. apply s_ok_opened. Qed.
Next Obligation. intros y fd sa. apply s_ok_opened. Qed.
Next Obligation. intros y fd n. apply s_ok_opened. Qed.
Next Obligation. intros y fd sa. cbn. unfold s_connect. by destruct (s_connects y) as [|[] l]. Qed.
Next Obligation. intros y fd. cbn. unfold s_error. by destruct (s_connects y) as [|[] l]. Qed.
Next Obligation. done. Qed.
Next Obligation. cbn. intros y fd a y' H. destruct (s_backlog y) as [|[e|] l] eqn:Hb; injection H as <- <-; cbn; naive_solver. Qed.
Next Obligation.
  cbn. intros y fd a y' H. destruct (s_backlog y) as [|[e|] l] eqn:Hb; injection H as <- <-; cbn; [done|done|].
  pose proof (fresh_fd_spec (s_opened y)). naive_solver.
Qed.

(** *** ... that remembers

    Any such process with the sockets' states beside it. *)
Section remembering.
Context {Y : Type} `{!Sockets Y}.

Record remembered := Remembered { re_sys : Y; re_socks : gmap Z sock; re_failures : nat }.

Definition blame (ok : bool) (n : nat) : nat := if ok then n else S n.

(** A call with the answer [ok], that changes the socket [fd] by [f]. *)
Definition note (r : remembered) (fd : Z) (f : sock -> sock) (a : bool * Y) : bool * remembered :=
  (a.1, Remembered a.2 (if a.1 then alter f fd (re_socks r) else re_socks r) (blame a.1 (re_failures r))).

Definition re_with (r : remembered) (y : Y) : remembered := Remembered y (re_socks r) (re_failures r).

#[export] Program Instance remembered_sockets : Sockets remembered := {|
  opened r := opened (re_sys r);
  backlog r fd := backlog (re_sys r) fd;
  sk_calloc r := let '(o, y) := sk_calloc (re_sys r) in (o, Remembered y (re_socks r) (blame (bool_decide (is_Some o)) (re_failures r)));
  sk_socket r type proto :=
    let '(fd, y) := sk_socket (re_sys r) type proto in
    (fd, if fd <? 0 then Remembered y (re_socks r) (S (re_failures r))
         else Remembered y (<[fd := Sock type proto 2 None None]> (re_socks r)) (re_failures r));
  sk_setsockopt r fd level name val := re_with r (sk_setsockopt (re_sys r) fd level name val);
  sk_getfl r fd := from_option so_flags (sk_getfl (re_sys r) fd) (re_socks r !! fd);
  sk_setfl r fd fl := note r fd (fun s => Sock (so_type s) (so_proto s) fl (so_name s) (so_queue s)) (sk_setfl (re_sys r) fd fl);
  sk_bind r fd sa := note r fd (fun s => Sock (so_type s) (so_proto s) (so_flags s) (Some sa) (so_queue s)) (sk_bind (re_sys r) fd sa);
  sk_listen r fd n := note r fd (fun s => Sock (so_type s) (so_proto s) (so_flags s) (so_name s) (Some n)) (sk_listen (re_sys r) fd n);
  sk_accept r fd := let '(a, y) := sk_accept (re_sys r) fd in (a, re_with r y);
  sk_connect r fd sa := let '(a, y) := sk_connect (re_sys r) fd sa in (a, re_with r y);
  sk_error r fd := let '(a, y) := sk_error (re_sys r) fd in (a, re_with r y);
  sk_close r fd := re_with r (sk_close (re_sys r) fd)
|}.
Next Obligation. intros r. cbn. pose proof (calloc_law (re_sys r)). by destruct (sk_calloc (re_sys r)). Qed.
Next Obligation.
  cbn. intros r type proto fd r' H. destruct (sk_socket (re_sys r) type proto) as [fd1 y] eqn:E. apply socket_law in E.
  injection H as <- <-. by destruct (fd1 <? 0).
Qed.
Next Obligation. intros. apply setsockopt_law. Qed.
Next Obligation. intros. apply setfl_law. Qed.
Next Obligation. intros. apply bind_law. Qed.
Next Obligation. intros. apply listen_law. Qed.
Next Obligation. intros r fd sa. cbn. pose proof (connect_law (re_sys r) fd sa). by destruct (sk_connect (re_sys r) fd sa). Qed.
Next Obligation. intros r fd. cbn. pose proof (error_law (re_sys r) fd). by destruct (sk_error (re_sys r) fd). Qed.
Next Obligation. intros. apply close_law. Qed.
Next Obligation.
  cbn. intros r fd a r' H. destruct (sk_accept (re_sys r) fd) as [b y] eqn:E. apply accept_law in E. by injection H as <- <-.
Qed.
Next Obligation.
  cbn. intros r fd a r' H. destruct (sk_accept (re_sys r) fd) as [b y] eqn:E. apply accepted_law in E. by injection H as <- <-.
Qed.

Lemma note_state r fd f s a ok r' : re_socks r !! fd = Some s -> note r fd f a = (ok, r') ->
  if ok then re_failures r' = re_failures r /\ re_socks r' !! fd = Some (f s) else re_failures r' = S (re_failures r).
Proof. unfold note. intros Hs [= <- <-]. destruct (a.1); cbn; [|done]. by rewrite lookup_alter_eq, Hs. Qed.

#[export] Program Instance remembered_states : SockStates remembered := {| sock_of r fd := re_socks r !! fd; failures := re_failures |}.
Next Obligation. intros r. cbn. by destruct (sk_calloc (re_sys r)) as [[]]. Qed.
Next Obligation.
  cbn. intros r type proto fd r' H. destruct (sk_socket (re_sys r) type proto) as [fd1 y]. injection H as <- <-.
  destruct (fd1 <? 0); [done|]. split; [done|]. exists 2. split; [lia|]. apply lookup_insert_eq.
Qed.
Next Obligation. done. Qed.
Next Obligation. cbn. by intros r fd s ->. Qed.
Next Obligation. cbn. intros r fd fl s ok r' Hs E. exact (note_state _ _ _ _ _ _ _ Hs E). Qed.
Next Obligation. cbn. intros r fd sa s ok r' Hs E. exact (note_state _ _ _ _ _ _ _ Hs E). Qed.
Next Obligation. cbn. intros r fd n s ok r' Hs E. exact (note_state _ _ _ _ _ _ _ Hs E). Qed.
Next Obligation. done. Qed.
End remembering.
Arguments remembered : clear implicits.
