(* ===== verification/NbioListener.v ===== *)
(** * nbio-listener.c: sockets that connections arrive on

    A descriptor of the event loop around a listening socket, next to others of
    any kind [D] (the connections, for instance). The owner's callbacks are
    arguments; what an arriving connection's callback must keep of the event loop
    is the law it is given with. *)

From S2P Require Import Prelude ListHead Os Nbio NbioLoop NbioPoll NbioEpoll Sockets.
Local Open Scope Z_scope.

(** The fields of [struct _listener] after its [struct nbio]. *)
Record listener := Listener { l_cbfn : nat; l_oom : nat; l_priv : nat }.

Section listen.
Context {D A Pl Y : Type} `{!Sockets Y}.
Abbreviation K := (listener + D)%type.
Abbreviation E := (Pl * Y)%type.
Abbreviation thread := (iothread K A E).
Context (plugin : eventloop K A E) (cbfn : nat -> thread -> Z -> nat -> outcome thread) (oom : nat -> thread -> nat -> outcome thread).
Implicit Types (t : thread) (x : nat) (L : lists).

Definition sys t : Y := snd (r_env t.2).
Definition set_sys t (y : Y) : thread := (t.1, Rest (r_io t.2) (r_priv t.2) (fst (r_env t.2), y)).

Definition listener_wake t x : outcome thread := nbio_wake plugin t x NBIO_READ.

Definition get_listener t x : outcome (Z * listener) :=
  n ← get_io t x;
  match nb_ops n with inl l => Ret (nb_fd n, l) | inr _ => Fault OutOfBounds end.

Fixpoint listener_read (fuel : nat) t x : outcome thread :=
  match fuel with
  | O => Fault OutOfFuel
  | S fuel =>
      '(lfd, l) ← get_listener t x;
      let '(a, y) := sk_accept (sys t) lfd in
      let t := set_sys t y in
      match a with
      | inr NoMem => oom (l_oom l) t x
      | inr Again => nbio_inactive plugin t x NBIO_READ
      | inr OtherErr => Ret t
      | inl fd =>
          t ← cbfn (l_cbfn l) t fd (l_priv l);
          t ← nbio_set_wait plugin t x NBIO_READ;
          listener_read fuel t x
      end
  end.

Definition free_listener t x : thread :=
  (delete x t.1, Rest (delete x (r_io t.2)) (r_priv t.2) (r_env t.2)).

Definition close_fd t (fd : Z) : thread := set_sys t (sk_close (sys t) fd).

Definition listener_dtor t x : outcome thread :=
  n ← get_io t x; Ret (free_listener (close_fd t (nb_fd n)) x).

Definition listener_ops (fuel : nat) : nbio_ops K A E :=
  NbioOps (Some (listener_read fuel)) None (Some listener_dtor).

(** The calls between [socket] and [listen], in turn until one fails. *)
Definition prepare (y : Y) (fd addr port : Z) : bool * Y :=
  let y := sk_setsockopt y fd SOL_SOCKET SO_REUSEADDR 1 in
  let y := sk_setsockopt y fd SOL_TCP TCP_FASTOPEN 64 in
  let '(ok, y) := sk_block y fd false in
  if negb ok then (false, y)
  else
    let sa := SockaddrIn PF_INET (net_bytes 2 port) (net_bytes 4 addr) in
    let '(ok, y) := sk_bind y fd sa in
    if negb ok then (false, y)
    else sk_listen y fd 64.

Definition listener_inet t (type proto addr port : Z) (cb priv oom : nat) : outcome (option nat * thread) :=
  let '(o, y) := sk_calloc (sys t) in
  let t := set_sys t y in
  match o with
  | None => Ret (None, t)
  | Some x =>
      let t : thread := (<[x := (0, 0)%nat]> t.1, Rest (<[x := Nb 0 0 0 (inl (Listener 0 0 0)) 0]> (r_io t.2)) (r_priv t.2) (r_env t.2)) in
      t ← on_heap t (fun h => INIT_LIST_HEAD h x);
      let '(fd, y) := sk_socket (sys t) type proto in
      let t := put_io (set_sys t y) x (Nb fd 0 0 (inl (Listener cb oom priv)) 0) in
      if fd <? 0 then Ret (None, free_listener t x)
      else
        let '(ok, y) := prepare (sys t) fd addr port in
        let t := set_sys t y in
        if negb ok then Ret (None, free_listener (close_fd t fd) x)
        else
          t ← nbio_add plugin t x NBIO_READ;
          Ret (Some x, t)
  end.

(** ** Lemmas *)

Context (J : thread -> lists -> Prop) (off : nb K -> Prop) `{!Plugin plugin J off}.

Lemma prepare_opened y fd addr port : opened (prepare y fd addr port).2 = opened y.
Proof.
  unfold prepare. set (y1 := sk_setsockopt y fd SOL_SOCKET SO_REUSEADDR 1). set (y2 := sk_setsockopt y1 fd SOL_TCP TCP_FASTOPEN 64).
  assert (opened y2 = opened y) as E2 by (unfold y2, y1; by rewrite !setsockopt_law).
  pose proof (block_law y2 fd false) as E3. destruct (sk_block y2 fd false) as [[] y3]; cbn in *; [|congruence].
  set (sa := SockaddrIn _ _ _). pose proof (bind_law y3 fd sa) as E4. destruct (sk_bind y3 fd sa) as [[] y4]; cbn in *; [|congruence].
  rewrite listen_law. congruence.
Qed.

(** Behind the loop things have changed; the plugin and the lists do not see it. *)
Lemma sys_frame t L y : J t L -> J (set_sys t y) L.
Proof. intros HJ. apply (pl_frame t L); [done|done|]. intros q z n Hz _. by left. Qed.

Lemma sys_wf t L y : wf t L -> wf (set_sys t y) L.
Proof. by apply quiet_wf. Qed.

(** Giving up leaves the thread as it was, but for the kernel. *)
Lemma undone t L x h n y : J t L -> wf t L -> t.1 !! x = None -> room t x h ->
  let t' := free_listener (set_sys (with_io t x n h) y) x in
  t'.1 = t.1 /\ r_io t'.2 = r_io t.2 /\ sys t' = y /\ wf t' L /\ J t' L.
Proof.
  intros HJ W Hx Hr t'. pose proof (fresh_not_live t L x W (fresh_none _ _ _ (wf_repr _ _ W) Hx)) as Hio.
  assert (t' = set_sys t y) as ->; [|split_and!; [done|done|done|by apply sys_wf|by apply sys_frame]].
  unfold t', free_listener, set_sys, with_io. cbn. by rewrite (heap_delete_room t x h Hx Hr), delete_insert_id.
Qed.

(** The calls up to a failure, which leaves [y']; and all of them. *)
Inductive gave_up (y : Y) (type proto addr port : Z) : Y -> Prop :=
| no_memory y' : sk_calloc y = (None, y') -> gave_up y type proto addr port y'
| no_socket x y1 fd y' : sk_calloc y = (Some x, y1) -> sk_socket y1 type proto = (fd, y') -> fd < 0 -> gave_up y type proto addr port y'
| not_prepared x y1 fd y2 y3 : sk_calloc y = (Some x, y1) -> sk_socket y1 type proto = (fd, y2) -> 0 <= fd ->
    prepare y2 fd addr port = (false, y3) -> gave_up y type proto addr port (sk_close y3 fd).

Definition went_through (y : Y) (type proto addr port : Z) (fd : Z) (y' : Y) : Prop :=
  exists x y1 y2, sk_calloc y = (Some x, y1) /\ sk_socket y1 type proto = (fd, y2) /\ prepare y2 fd addr port = (true, y').

(** How [listener_inet] ends. *)
Lemma listener_inet_ok t L type proto addr port cb priv oo : J t L -> wf t L ->
  (forall x y, sk_calloc (sys t) = (Some x, y) -> t.1 !! x = None) ->
  exists o t', listener_inet t type proto addr port cb priv oo = Ret (o, t') /\
    match o with
    | None => t'.1 = t.1 /\ r_io t'.2 = r_io t.2 /\ opened (sys t') = opened (sys t) /\ wf t' L /\ J t' L /\
        gave_up (sys t) type proto addr port (sys t')
    | Some x => exists L' fd, wf t' L' /\ J t' L' /\ 0 <= fd /\ fd ∉ opened (sys t) /\ opened (sys t') = {[fd]} ∪ opened (sys t) /\
        view t L x = None /\ view t' L' x = Some (Nbio fd NBIO_READ NBIO_READ Active) /\ get_listener t' x = Ret (fd, Listener cb oo priv) /\
        (forall y, y <> x -> view t' L' y = view t L y) /\ went_through (sys t) type proto addr port fd (sys t')
    end.
Proof.
  clear cbfn oom. intros HJ W Hfresh. unfold listener_inet. pose proof (calloc_law (sys t)) as O1. destruct (sk_calloc (sys t)) as [[x|] y1] eqn:Ec; cbn in O1.
  2: { eexists _, _. split; [done|]. split_and!; [done|done|done|by apply sys_wf|by apply sys_frame|by apply no_memory]. }
  specialize (Hfresh x y1 eq_refl). set (t1 := set_sys t y1). assert (wf t1 L) as W1 by (by apply sys_wf). assert (J t1 L) as J1 by (by apply sys_frame).
  assert (room t1 x (<[x := (0, 0)%nat]> t1.1)) as R0 by (split; [by rewrite lookup_insert_eq|intros a Ha; by rewrite lookup_insert_ne]).
  pose proof (fresh_none _ _ _ (wf_repr _ _ W1) Hfresh) as Hf1.
  set (n0 := Nb 0 0 0 (inl (Listener 0 0 0)) 0 : nb K). destruct (new_io_ok plugin J off t1 L x n0 _ J1 W1 Hf1 R0 ltac:(cbn; lia)) as (h & E1 & R1 & _).
  unfold on_heap at 1. cbn [fst]. rewrite E1. run. cbn [snd]. destruct (sk_socket _ type proto) as [fd y2] eqn:Es.
  pose proof Es as Esk. apply socket_law in Es. assert (if fd <? 0 then opened y2 = opened (sys t) else fd ∉ opened (sys t) /\ opened y2 = {[fd]} ∪ opened (sys t)) as Es' by (rewrite <- O1; exact Es).
  clear Es. rename Es' into Es. set (n1 := Nb fd 0 0 (inl (Listener cb oo priv)) 0 : nb K).
  assert (forall y, put_io (set_sys (h, Rest (<[x := n0]> (r_io t1.2)) (r_priv t1.2) (r_env t1.2)) y) x n1 = with_io (set_sys t1 y) x n1 h) as Ep.
  { intros y. unfold put_io, with_io, set_sys. cbn. by rewrite insert_insert_eq. }
  rewrite Ep. clear Ep. destruct (Z.ltb_spec fd 0) as [Hfd|Hfd].
  - eexists _, _. split; [done|]. destruct (undone t1 L x h n1 y2 J1 W1 Hfresh R1) as (H1 & H2 & H3 & H4 & H5).
    split_and!; [done|done| |done|done|]; [transitivity (opened y2); [exact (f_equal opened H3)|done]|].
    enough (gave_up (sys t) type proto addr port y2) as Hg by (rewrite <- H3 in Hg; exact Hg). by eapply no_socket.
  - destruct Es as [Hnew Eo]. pose proof (prepare_opened y2 fd addr port) as O2. unfold sys at 1. cbn [with_io snd r_env set_sys].
    destruct (prepare y2 fd addr port) as [ok y3] eqn:Ep. cbn [snd] in O2. destruct ok; cbn [negb].
    + destruct (add_ok plugin J off (set_sys t1 y3) L x n1 h NBIO_READ) as (t' & L' & E2 & W' & J' & V' & O' & C');
        [by apply sys_frame|by apply sys_wf|done|done|done|done|].
      assert (set_sys (with_io (set_sys t1 y2) x n1 h) y3 = with_io (set_sys t1 y3) x n1 h) as -> by done. rewrite E2. run.
      eexists _, _. split; [done|]. exists L', fd. injection C' as C1 C2. split_and!; [done|done|done|done| | |done| |done|].
      4: { exists x, y1, y2. unfold sys at 2. rewrite C2. by split_and!. }
      * unfold sys. rewrite C2. rewrite O2. exact Eo.
      * unfold view. by rewrite (fresh_not_live t L x W Hf1).
      * apply view_of in V' as (n' & Hn' & [= Ef _ _ _]). unfold get_listener. rewrite (get_io_ok t' x n' Hn'). run.
        apply (f_equal (fun m => m !! x)) in C1. rewrite lookup_fmap, lookup_insert_eq, Hn' in C1. injection C1 as ->. by rewrite Ef.
    + eexists _, _. split; [done|]. unfold close_fd. set (y4 := sk_close _ fd).
      destruct (undone t1 L x h n1 y4 J1 W1 Hfresh R1) as (H1 & H2 & H3 & H4 & H5). split_and!; [done|done| |done|done|].
      2: { enough (gave_up (sys t) type proto addr port y4) as Hg by (rewrite <- H3 in Hg; exact Hg). by eapply not_prepared. }
      transitivity (opened y4); [exact (f_equal opened H3)|]. unfold y4. rewrite close_law. unfold sys at 1. cbn. rewrite O2, Eo. set_solver.
Qed.

(** What has been made of the socket, if nothing failed. *)
Lemma prepare_state `{!SockStates Y} y fd addr port type proto fl ok y' : prepare y fd addr port = (ok, y') -> 0 <= fl ->
  sock_of y fd = Some (Sock type proto fl None None) ->
  if ok then failures y' = failures y /\
    sock_of y' fd = Some (Sock type proto (Z.lor fl O_NONBLOCK) (Some (SockaddrIn PF_INET (net_bytes 2 port) (net_bytes 4 addr))) (Some 64))
  else failures y' = S (failures y).
Proof.
  unfold prepare, sk_block. intros E Hfl Hs.
  destruct (setsockopt_state y fd SOL_SOCKET SO_REUSEADDR 1) as [F1 S1]. set (y1 := sk_setsockopt y fd SOL_SOCKET SO_REUSEADDR 1) in *.
  destruct (setsockopt_state y1 fd SOL_TCP TCP_FASTOPEN 64) as [F2 S2]. set (y2 := sk_setsockopt y1 fd SOL_TCP TCP_FASTOPEN 64) in *.
  rewrite S1, Hs in S2. rewrite F1 in F2. clearbody y2. clear y1 F1 S1 Hs.
  rewrite (getfl_state _ _ _ S2) in E. cbn [so_flags] in E. rewrite (proj2 (Z.ltb_ge _ _)) in E by done.
  assert ((fd_block fl true false).2 = Z.lor fl O_NONBLOCK) as Hset by (unfold fd_block; by rewrite (proj2 (Z.ltb_ge _ _))).
  rewrite Hset in E. destruct (sk_setfl y2 fd (Z.lor fl O_NONBLOCK)) as [ok3 y3] eqn:E3. apply (setfl_state _ _ _ _ _ _ S2) in E3. cbn [so_type so_proto so_name so_queue] in E3.
  assert ((fd_block fl ok3 false).1 = ok3) as Hb by (unfold fd_block; rewrite (proj2 (Z.ltb_ge _ _)) by done; by destruct ok3). rewrite Hb in E.
  destruct ok3; cbn [negb] in E; [|by injection E as <- <-; rewrite E3, F2]. destruct E3 as [F3 S3].
  set (sa := SockaddrIn _ _ _) in *. destruct (sk_bind y3 fd sa) as [ok4 y4] eqn:E4. apply (bind_state _ _ _ _ _ _ S3) in E4. cbn [so_type so_proto so_flags so_queue] in E4.
  destruct ok4; cbn [negb] in E; [|by injection E as <- <-; rewrite E4, F3, F2]. destruct E4 as [F4 S4].
  apply (listen_state _ _ _ _ _ _ S4) in E. cbn [so_type so_proto so_flags so_name] in E. rewrite F4, F3, F2 in E. exact E.
Qed.

Lemma went_through_state `{!SockStates Y} y type proto addr port fd y' : went_through y type proto addr port fd y' -> 0 <= fd ->
  failures y' = failures y /\ exists fl, sock_of y' fd =
    Some (Sock type proto (Z.lor fl O_NONBLOCK) (Some (SockaddrIn PF_INET (net_bytes 2 port) (net_bytes 4 addr))) (Some 64)).
Proof.
  intros (x & y1 & y2 & E1 & E2 & E3) Hfd. pose proof (calloc_state y) as F1. rewrite E1 in F1. cbn in F1.
  apply socket_state in E2. rewrite (proj2 (Z.ltb_ge _ _) Hfd) in E2. destruct E2 as [F2 (fl & Hfl & S2)].
  destruct (prepare_state _ _ _ _ _ _ _ _ _ E3 Hfl S2) as [F3 S3]. split; [congruence|]. by exists fl.
Qed.

Lemma gave_up_state `{!SockStates Y} y type proto addr port y' : gave_up y type proto addr port y' -> failures y' = S (failures y).
Proof.
  destruct 1 as [y' E1|x y1 fd y' E1 E2 Hfd|x y1 fd y2 y3 E1 E2 Hfd E3]; pose proof (calloc_state y) as F1; rewrite E1 in F1; cbn in F1.
  - done.
  - apply socket_state in E2. rewrite (proj2 (Z.ltb_lt _ _) Hfd) in E2. congruence.
  - apply socket_state in E2. rewrite (proj2 (Z.ltb_ge _ _) Hfd) in E2. destruct E2 as [F2 (fl & Hfl & S2)].
    pose proof (prepare_state _ _ _ _ _ _ _ _ _ E3 Hfl S2) as F3. rewrite close_state. cbn in F3. congruence.
Qed.

(** C38: listener_inet opens a listening socket, or one call has failed and
    nothing has changed. Whatever the system calls and calloc answer, it
    returns. When none of them fails it gives a listener: exactly one file
    descriptor is open that was not; it is a socket of the type and protocol
    asked for, it does not block, has the port and address asked for and
    listens, with room for 64 connections; and it belongs to a new descriptor of
    the event loop with the owner's callbacks, ready to read, all others being
    as they were. When a call fails it is the last but for the close, and
    memory, the descriptors of the event loop and the open file descriptors
    are what they were. *)
Theorem listener_inet_all_or_nothing `{!SockStates Y} t L type proto addr port cb priv oo : J t L -> wf t L ->
  (forall x y, sk_calloc (sys t) = (Some x, y) -> t.1 !! x = None) ->
  exists o t', listener_inet t type proto addr port cb priv oo = Ret (o, t') /\
    match o with
    | None => failures (sys t') = S (failures (sys t)) /\
        t'.1 = t.1 /\ r_io t'.2 = r_io t.2 /\ opened (sys t') = opened (sys t) /\ wf t' L /\ J t' L
    | Some x => failures (sys t') = failures (sys t) /\
        exists L' fd fl, wf t' L' /\ J t' L' /\ 0 <= fd /\ fd ∉ opened (sys t) /\ opened (sys t') = {[fd]} ∪ opened (sys t) /\
        sock_of (sys t') fd = Some (Sock type proto (Z.lor fl O_NONBLOCK) (Some (SockaddrIn PF_INET (net_bytes 2 port) (net_bytes 4 addr))) (Some 64)) /\
        view t L x = None /\ view t' L' x = Some (Nbio fd NBIO_READ NBIO_READ Active) /\ get_listener t' x = Ret (fd, Listener cb oo priv) /\
        forall y, y <> x -> view t' L' y = view t L y
    end.
Proof.
  intros HJ W Hfresh. destruct (listener_inet_ok t L type proto addr port cb priv oo HJ W Hfresh) as (o & t' & E & H).
  exists o, t'. split; [done|]. destruct o as [x|].
  - destruct H as (L' & fd & H1 & H2 & H3 & H4 & H5 & H6 & H7 & H8 & H9 & Hc). destruct (went_through_state _ _ _ _ _ _ _ Hc H3) as [F [fl S]].
    split; [done|]. exists L', fd, fl. by split_and!.
  - destruct H as (H1 & H2 & H3 & H4 & H5 & Hc). split; [by eapply gave_up_state|]. by split_and!.
Qed.

(** ** Accepting *)

(** What has been handed to the owners: callback, private pointer, descriptor. *)
Context (handed : Y -> list (nat * nat * Z)).

(** The other descriptors, and everybody's callbacks, are as they were. *)
Definition kept x t L t' L' : Prop :=
  (forall y k, nb_ops <$> r_io t.2 !! y = Some k -> nb_ops <$> r_io t'.2 !! y = Some k) /\
  forall y v, y <> x -> view t L y = Some v -> view t' L' y = Some v.

(** Accepting does not call the owner. A callback takes the connection, and may add
    descriptors to the event loop, but leaves those there are and the sockets
    alone. *)
Hypothesis handed_law : forall y fd, handed (sk_accept y fd).2 = handed y.
Hypothesis cbfn_law : forall c t L fd p, J t L -> wf t L -> exists t' L', cbfn c t fd p = Ret t' /\ wf t' L' /\ J t' L' /\
  (forall x, kept x t L t' L') /\ (forall s, backlog (sys t') s = backlog (sys t) s) /\ handed (sys t') = handed (sys t) ++ [(c, p, fd)].

Lemma kept_refl x t L : kept x t L t L.
Proof. by split. Qed.

Lemma kept_trans x t L t1 L1 t2 L2 : kept x t L t1 L1 -> kept x t1 L1 t2 L2 -> kept x t L t2 L2.
Proof. intros [A1 B1] [A2 B2]. split; [intros y k H; by apply A2, A1|intros y v Hy H; apply B2, B1; done]. Qed.

Lemma becomes_kept x t L r v : becomes J t L x r v -> exists t' L', r = Ret t' /\ wf t' L' /\ J t' L' /\ kept x t L t' L' /\ sys t' = sys t /\ view t' L' x = Some v.
Proof.
  intros (t' & L' & -> & [W V _ O _ _ _] & HJ & C). injection C as C1 C2. exists t', L'. split_and!; [done|done|done| |done|done]. split.
  - intros y k. by rewrite <- !lookup_fmap, C1.
  - intros y v' Hy. by rewrite O.
Qed.

(** [listener] of [x], which waits to read. *)
Definition listening t L x (fd f : Z) (q : queue) (l : listener) : Prop :=
  view t L x = Some (Nbio fd NBIO_READ f q) /\ nb_ops <$> r_io t.2 !! x = Some (inl l).

Lemma listening_get t L x fd f q l : listening t L x fd f q l -> get_listener t x = Ret (fd, l).
Proof.
  intros [(n & Hn & [= -> _ _ _])%view_of Ho]. unfold get_listener. rewrite (get_io_ok t x n Hn). run. rewrite Hn in Ho. by injection Ho as ->.
Qed.

Lemma listening_kept t L x fd f q l t' L' v : listening t L x fd f q l -> kept x t L t' L' -> view t' L' x = Some v -> n_fd v = fd -> n_mask v = NBIO_READ ->
  listening t' L' x fd (n_flags v) (n_list v) l.
Proof. intros [_ Ho] [Hk _] V E1 E2. split; [|by apply Hk]. rewrite V. by destruct v; cbn in *; subst. Qed.

(** One connection. *)
Lemma accept_one fuel t L x fd f l rest : J t L -> wf t L -> listening t L x fd f Active l -> backlog (sys t) fd = None :: rest ->
  exists t' L' s, listener_read (S fuel) t x = listener_read fuel t' x /\ J t' L' /\ wf t' L' /\ kept x t L t' L' /\
    listening t' L' x fd NBIO_READ Active l /\ backlog (sys t') fd = rest /\ handed (sys t') = handed (sys t) ++ [(l_cbfn l, l_priv l, s)].
Proof.
  intros HJ W Hl Hb. cbn [listener_read]. rewrite (listening_get _ _ _ _ _ _ _ Hl). run.
  pose proof (handed_law (sys t) fd) as Hh. destruct (sk_accept (sys t) fd) as [a y] eqn:Ea. apply accept_law in Ea. rewrite Hb in Ea. destruct Ea as [[s ->] Er].
  set (t0 := set_sys t y). destruct (cbfn_law (l_cbfn l) t0 L s (l_priv l)) as (t1 & L1 & E1 & W1 & J1 & K1 & B1 & H1); [by apply sys_frame|by apply sys_wf|].
  rewrite E1. run. assert (kept x t L t1 L1) as K1' by (apply (kept_trans x t L t0 L); [by split|apply K1]).
  assert (view t1 L1 x = Some (Nbio fd NBIO_READ f Active)) as V1 by (destruct (K1 (S x)) as [_ H]; apply H; [lia|apply Hl]).
  pose proof (listening_kept _ _ _ _ _ _ _ _ _ _ Hl K1' V1 eq_refl eq_refl) as Hl1.
  destruct (set_wait_becomes plugin J off t1 L1 x _ NBIO_READ None J1 W1 V1) as (v & Hv & B); [done|done|]. injection Hv as <-.
  apply becomes_kept in B as (t2 & L2 & E2 & W2 & J2 & K2 & S2 & V2). exists t2, L2, s. unfold nbio_set_wait. rewrite E2. run.
  split_and!; [done|done|done|by apply (kept_trans x t L t1 L1)|by apply (listening_kept _ _ _ _ _ _ _ _ _ _ Hl1 K2 V2)| |].
  - rewrite S2, B1. done.
  - rewrite S2, H1. cbn in Hh |- *. by rewrite Hh.
Qed.

(** one read callback of a listener takes every connection there is. With
    [n] connections and then an error or nothing behind the socket, each
    connection is handed to the owner, in order, with its own file descriptor, before the
    callback returns, and the descriptors the event loop had are as they were;
    then, if accept would block, the listener is idle until more arrive, out of
    resources the owner is asked to cope, and on another error the listener
    stays active. *)
Theorem listener_read_accepts fuel t L x fd f l n rest : J t L -> wf t L -> listening t L x fd f Active l ->
  backlog (sys t) fd = replicate n None ++ rest -> hd_error rest <> Some None -> (n < fuel)%nat ->
  exists t1 L1 ss f1, length ss = n /\ handed (sys t1) = handed (sys t) ++ ((fun s => (l_cbfn l, l_priv l, s)) <$> ss) /\
    J t1 L1 /\ wf t1 L1 /\ kept x t L t1 L1 /\
    match hd_error rest with
    | Some (Some NoMem) => listener_read fuel t x = oom (l_oom l) t1 x /\ listening t1 L1 x fd f1 Active l
    | Some (Some OtherErr) => listener_read fuel t x = Ret t1 /\ listening t1 L1 x fd f1 Active l
    | _ => listener_read fuel t x = Ret t1 /\ listening t1 L1 x fd f1 Inactive l
    end.
Proof.
  revert fuel t L f. induction n as [|n IH]; intros [|fuel] t L f HJ W Hl Hb Hr Hf; try lia; cbn [replicate app] in Hb.
  2: { destruct (accept_one fuel t L x fd f l _ HJ W Hl Hb) as (t0 & L0 & s & E0 & J0 & W0 & K0 & Hl0 & B0 & H0).
    destruct (IH fuel t0 L0 _ J0 W0 Hl0 B0 Hr ltac:(lia)) as (t1 & L1 & ss & f1 & E1 & H1 & J1 & W1 & K1 & R1). rewrite E0.
    exists t1, L1, (s :: ss), f1. split_and!; [cbn; by rewrite E1| |done|done|by apply (kept_trans x t L t0 L0)|done].
    rewrite H1, H0. cbn [fmap list_fmap]. by rewrite <- app_assoc. }
  cbn [listener_read]. rewrite (listening_get _ _ _ _ _ _ _ Hl). run.
  pose proof (handed_law (sys t) fd) as Hh. destruct (sk_accept (sys t) fd) as [a y] eqn:Ea. apply accept_law in Ea. rewrite Hb in Ea. cbn in Hh.
  set (t0 := set_sys t y). assert (J t0 L) as J0 by (by apply sys_frame). assert (wf t0 L) as W0 by (by apply sys_wf).
  assert (kept x t L t0 L) as K0 by (by split). assert (handed (sys t0) = handed (sys t) ++ []) as H0 by (by rewrite app_nil_r).
  assert (exists t1 L1 f1, nbio_inactive plugin t0 x NBIO_READ = Ret t1 /\ handed (sys t1) = handed (sys t) ++ [] /\ J t1 L1 /\ wf t1 L1 /\ kept x t L t1 L1 /\
    listening t1 L1 x fd f1 Inactive l) as Hidle.
  { destruct Hl as [V Ho]. assert (exists q, on L q x) as Hq by (exists active; by apply (view_active t L x _ V)).
    pose proof (inactive_ok plugin J off t0 L x _ NBIO_READ J0 W0 V ltac:(done) Hq) as B. unfold Nbio.nbio_inactive in B. cbn [n_mask n_flags n_fd n_list] in B.
    assert (Z.land NBIO_READ (Z.land f (uint 8 (Z.lnot NBIO_READ))) = 0) as E0 by (rewrite (Z.land_comm f), Z.land_assoc; done).
    rewrite E0 in B. cbn in B. apply becomes_kept in B as (t1 & L1 & E1 & W1 & J1 & K1 & S1 & V1). eexists t1, L1, _.
    split_and!; [done|by rewrite S1|done|done|by apply (kept_trans x t L t0 L)|]. split; [exact V1|]. apply K1. done. }
  destruct Hidle as (t1 & L1 & f1 & E1 & H1 & J1 & W1 & K1 & Hl1). destruct rest as [|[[| |]|] rest]; cbn [hd_error] in *.
  - destruct Ea as [-> _]. by exists t1, L1, [], f1.
  - destruct Ea as [-> _]. by exists t0, L, [], f.
  - destruct Ea as [-> _]. by exists t1, L1, [], f1.
  - destruct Ea as [-> _]. by exists t0, L, [], f.
  - done.
Qed.
End listen.

(** ** Running it

    Under epoll, with no other kind of descriptor; the callback takes a note. *)
Abbreviation listen_thread := (iothread (listener + unit) unit (one_kernel * script)).

Definition note_conn (c : nat) (t : listen_thread) (fd : Z) (p : nat) : outcome listen_thread :=
  let y := sys t in Ret (set_sys t (Script (s_opened y) (s_backlog y) (s_callocs y) (s_oks y) (s_connects y) (s_log y ++ [(c, p, fd)]))).

Definition no_oom (o : nat) (t : listen_thread) (x : nat) : outcome listen_thread := Ret t.

Definition idle_thread (y : script) : listen_thread := (nodes (heads ++ []), Rest ∅ (priv_epoll 3) (OneKernel ∅ [], y)).

Lemma idle_thread_ok y : wf (idle_thread y) (singles (heads ++ [])) /\ epoll_ok (idle_thread y) (singles (heads ++ [])).
Proof. split; [|by split; [exists 3|]]. by apply start_wf. Qed.

(** The same with memory of the sockets: the answers are for [socket], [fcntl], [bind] and [listen]. *)
Definition wary_thread (oks : list bool) : iothread (listener + unit) unit (one_kernel * remembered script) :=
  (nodes (heads ++ []), Rest ∅ (priv_epoll 3) (OneKernel ∅ [], Remembered (Script {[0]} [] [10%nat] oks [] []) ∅ 0)).

Lemma wary_thread_ok oks : wf (wary_thread oks) (singles (heads ++ [])) /\ epoll_ok (wary_thread oks) (singles (heads ++ [])).
Proof. split; [|by split; [exists 3|]]. by apply start_wf. Qed.

(** Here bind fails, and here nothing does. *)
Example listener_inet_all_or_nothing_witness :
  (exists t', listener_inet (eventloop_epoll 8) (wary_thread [true; true; false]) 1 6 0 80 4 5 6 = Ret (None, t') /\
    failures (sys t') = 1%nat /\ opened (sys t') = {[0]}) /\
  exists t' fd fl, listener_inet (eventloop_epoll 8) (wary_thread []) 1 6 0 80 4 5 6 = Ret (Some 10%nat, t') /\
    sock_of (sys t') fd = Some (Sock 1 6 (Z.lor fl O_NONBLOCK) (Some (SockaddrIn 2 [0; 80] [0; 0; 0; 0])) (Some 64)).
Proof.
  split.
  - destruct (wary_thread_ok [true; true; false]) as [W J].
    destruct (listener_inet_all_or_nothing (eventloop_epoll 8) epoll_ok epoll_off (wary_thread [true; true; false]) _ 1 6 0 80 4 5 6 J W) as (o & t' & E & H).
    { intros x y [= <- _]. done. }
    assert (match listener_inet (eventloop_epoll 8) (wary_thread [true; true; false]) 1 6 0 80 4 5 6 with Ret (o, _) => o | _ => Some 0%nat end = None) as Ho by (vm_compute; reflexivity).
    rewrite E in Ho. subst o. exists t'. destruct H as (H1 & _ & _ & H & _). split; [exact E|]. split; [exact H1|exact H].
  - destruct (wary_thread_ok []) as [W J].
    destruct (listener_inet_all_or_nothing (eventloop_epoll 8) epoll_ok epoll_off (wary_thread []) _ 1 6 0 80 4 5 6 J W) as (o & t' & E & H).
    { intros x y [= <- _]. done. }
    assert (match listener_inet (eventloop_epoll 8) (wary_thread []) 1 6 0 80 4 5 6 with Ret (o, _) => o | _ => None end = Some 10%nat) as Ho by (vm_compute; reflexivity).
    rewrite E in Ho. subst o. destruct H as (_ & L' & fd & fl & _ & _ & _ & _ & _ & H & _). exists t', fd, fl. split; [exact E|exact H].
Defined.

Lemma listening_ready : exists (t : listen_thread) L,
  listener_inet (eventloop_epoll 8) (idle_thread (Script {[0]} [None; None] [10%nat] [] [] [])) 1 6 0 80 4 5 6 = Ret (Some 10%nat, t) /\
  epoll_ok t L /\ wf t L /\ listening t L 10%nat 3 NBIO_READ Active (Listener 4 6 5) /\ sys t = Script {[0; 3]} [None; None] [] [] [] [].
Proof.
  set (y := Script {[0]} [None; None] [10%nat] [] [] []). destruct (idle_thread_ok y) as [W J].
  set (y2 := Script {[0; 3]} [None; None] [] [] [] [] : script).
  assert (room (set_sys (idle_thread y) y2) 10%nat (<[10%nat := (10, 10)%nat]> (idle_thread y).1)) as R.
  { split; [by rewrite lookup_insert_eq|]. intros a Ha. by rewrite lookup_insert_ne. }
  destruct (add_ok (eventloop_epoll 8) epoll_ok epoll_off (set_sys (idle_thread y) y2) (singles (heads ++ [])) 10%nat (Nb 3 0 0 (inl (Listener 4 6 5)) 0) (<[10%nat := (10, 10)%nat]> (idle_thread y).1) NBIO_READ)
    as (t & L & E & W' & J' & V & _ & C); [by apply (sys_frame (eventloop_epoll 8) epoll_ok epoll_off)|by apply sys_wf| |exact R|done|done|].
  { apply (fresh_none (nodes (heads ++ []))); [apply nodes_repr|by vm_compute]. }
  exists t, L. injection C as C1 C2. split_and!; [|done|done| |done].
  - transitivity (t0 ← nbio_add (eventloop_epoll 8) (with_io (set_sys (idle_thread y) y2) 10%nat (Nb 3 0 0 (inl (Listener 4 6 5)) 0) (<[10%nat := (10, 10)%nat]> (idle_thread y).1)) 10%nat NBIO_READ; Ret (Some 10%nat, t0)).
    + vm_compute. reflexivity.
    + by rewrite E.
  - split; [exact V|]. rewrite <- lookup_fmap, C1. by rewrite lookup_insert_eq.
Qed.

Example listener_read_accepts_witness : exists (t t' : listen_thread) L L' f,
  listener_inet (eventloop_epoll 8) (idle_thread (Script {[0]} [None; None] [10%nat] [] [] [])) 1 6 0 80 4 5 6 = Ret (Some 10%nat, t) /\
  listening t L 10%nat 3 NBIO_READ Active (Listener 4 6 5) /\ listener_read (eventloop_epoll 8) note_conn no_oom 3 t 10%nat = Ret t' /\
  listening t' L' 10%nat 3 f Inactive (Listener 4 6 5) /\ s_log (sys t') = [(4%nat, 5%nat, 4); (4%nat, 5%nat, 5)].
Proof.
  destruct listening_ready as (t & L & E & J & W & Hl & Hs).
  destruct (listener_read_accepts (eventloop_epoll 8) note_conn no_oom epoll_ok epoll_off s_log) with (fuel := 3%nat) (t := t) (L := L) (x := 10%nat)
    (fd := 3) (f := NBIO_READ) (l := Listener 4 6 5) (n := 2%nat) (rest := @nil (option accept_err)) as (t' & L' & ss & f & _ & _ & _ & _ & _ & E' & Hl').
  - intros y fd. cbn. by destruct (s_backlog y) as [|[e|] l].
  - intros c t0 L0 fd p J0 W0. eexists _, L0. split; [reflexivity|]. split_and!; [by apply sys_wf|by apply (sys_frame (eventloop_epoll 8) epoll_ok epoll_off)|by split|done|done].
  - exact J.
  - exact W.
  - exact Hl.
  - rewrite Hs. reflexivity.
  - discriminate.
  - lia.
  - exists t, t', L, L', f. split; [exact E|]. split; [exact Hl|]. split; [exact E'|]. split; [exact Hl'|].
    assert (match listener_inet (eventloop_epoll 8) (idle_thread (Script {[0]} [None; None] [10%nat] [] [] [])) 1 6 0 80 4 5 6 with
            | Ret (_, t) => match listener_read (eventloop_epoll 8) note_conn no_oom 3 t 10%nat with Ret t' => s_log (sys t') | _ => [] end
            | _ => [] end = [(4%nat, 5%nat, 4); (4%nat, 5%nat, 5)]) as H by (vm_compute; reflexivity).
    rewrite E, E' in H. exact H.
Defined.
