(* ===== verification/Waitq.v ===== *)
(** * http_conn.c: descriptors that wait for resources

    A listener that is out of resources goes on a queue of [http_conn.c], off the
    lists of the event loop; the death of a connection wakes the queue up. The
    I/O models may keep queues of connections of their own. [HttpConn] has
    the queue as a list of descriptors: here it is in the memory of the event
    loop. *)

From S2P Require Import Prelude Os ListHead Nbio NbioLoop NbioPoll NbioEpoll Sockets NbioListener.
Local Open Scope Z_scope.

Section waitq.
Context {K A Pl X : Type}.
Abbreviation E := (Pl * X)%type.
Abbreviation thread := (iothread K A E).
Context (plugin : eventloop K A E) (oomq : nat).
Implicit Types (t : thread) (L : lists) (x y : nat).

Definition http_oom t x : outcome thread := nbio_to_waitq plugin t x oomq.

(** [listener_wake] is [nbio_wake] for reading. *)
Definition wake_listeners (fuel : nat) t : outcome thread :=
  list_for_each_safe (fun x t => nbio_wake plugin t x NBIO_READ) fuel oomq t.

(** A connection is a descriptor here; [busy] tells whether its state is one of
    the two that transmit. *)
Context (busy : thread -> nat -> outcome bool).

Definition http_conn_wake_one t x : outcome thread :=
  b ← busy t x; assert! b ;; nbio_wake plugin t x NBIO_WRITE.

Definition http_conn_wake (wake_func : thread -> nat -> outcome thread) (fuel : nat) (waitq : nat) t : outcome thread :=
  list_for_each_safe (fun x t =>
    b ← busy t x; assert! b ;;
    t ← nbio_wake plugin t x NBIO_WRITE;
    wake_func t x) fuel waitq t.
End waitq.

(** ** What moving does to the lists *)

Lemma moved_to L x d a : d <> x -> L !! d = Some a -> x ∉ a -> moved x d L !! d = Some (a ++ [x]).
Proof. intros Hd Ha Hx. unfold moved. rewrite lookup_alter_eq, without_lookup, decide_False, Ha by done. cbn. by rewrite filter_absent. Qed.

Lemma moved_from L x d q l : q <> x -> q <> d -> L !! q = Some l -> moved x d L !! q = Some (filter (fun y => y <> x) l).
Proof. intros Hx Hd Hl. unfold moved. rewrite lookup_alter_ne, without_lookup, decide_False, Hl by done. done. Qed.

Lemma filter_nothing (a : list nat) : filter (fun y => y ∉ []) a = a.
Proof. induction a as [|x a IH]; [done|]. rewrite filter_cons_True by set_solver. by rewrite IH. Qed.

Section woken.
Context {K A Pl X : Type}.
Abbreviation E := (Pl * X)%type.
Abbreviation thread := (iothread K A E).
Context (plugin : eventloop K A E) (I : thread -> lists -> Prop) (off : nb K -> Prop) `{!Plugin plugin I off} (q : nat).
Implicit Types (t : thread) (L : lists) (x y : nat) (v : nbio).

(** A queue of a client of the loop. *)
Definition client_queue t L : Prop := is_queue t L q /\ q ∉ heads.

Lemma listed_once h L p x l : repr h L -> L !! p = Some l -> x ∈ l -> forall p', on L p' x -> p' = p.
Proof. intros R Hl Hx p' H. apply (on_unique h L x p' p R H). by exists l. Qed.

Lemma queue_live t L x : wf t L -> client_queue t L -> on L q x -> exists v, view t L x = Some v /\ n_mask v <> NBIO_DELETED /\ q <> x.
Proof.
  intros W [[Hq Hn] Hh] Hx. destruct (wf_on _ _ W q x Hx) as [n Hx']. eexists. split; [unfold view; by rewrite Hx'|].
  split; [|intros ->; congruence]. cbn. rewrite <- (deleted_iff t L x n W Hx'). intros Hd.
  pose proof (on_unique _ _ _ _ _ (wf_repr _ _ W) Hx Hd) as ->. apply Hh, is_head. tauto.
Qed.

(** One descriptor is taken off the front of the queue and woken. *)
Lemma wake_first t L x l a wait : I t L -> wf t L -> client_queue t L -> L !! q = Some (x :: l) -> L !! active = Some a -> Z.land wait NBIO_WAIT <> 0 ->
  exists v v' t' L', view t L x = Some v /\ Nbio.nbio_wake v wait = Ret v' /\ nbio_wake plugin t x wait = Ret t' /\ I t' L' /\ wf t' L' /\
    client_queue t' L' /\ L' !! q = Some l /\ L' !! active = Some (a ++ [x]) /\ client t' = client t /\ view t' L' x = Some v' /\
    forall y, y <> x -> view t' L' y = view t L y.
Proof.
  intros HI W Hq Hl Ha Hw. assert (on L q x) as Hx by (exists (x :: l); set_solver).
  destruct (queue_live t L x W Hq Hx) as (v & V & Hm & Hqx). destruct Hq as [Hq Hh].
  destruct (set_wait_moves plugin I off t L x v wait None HI W V Hm) as (v' & Ev & t' & Et & S & HI' & C); [done|].
  unfold wait_list in S, HI'. rewrite (proj2 (Z.eqb_neq _ _) Hw) in S, HI'. destruct S as [W' V' _ O _ Q _].
  pose proof (wf_repr _ _ W) as R. destruct (re_ring _ _ R q (x :: l) Hl) as [Hnd _]. apply NoDup_cons in Hnd as [_ [Hxl _]%NoDup_cons].
  assert (active <> x) as Hax. { intros <-. destruct (wf_node _ _ W active (wf_on _ _ W q active Hx)) as [_ H]. apply H, is_head. tauto. }
  assert (q <> active) as Hqa by (intros ->; apply Hh, is_head; tauto).
  assert (x ∉ a) as Hxa. { intros Hin. apply Hqa. symmetry. apply (listed_once _ L q x _ R Hl ltac:(left) active). by exists a. }
  exists v, v', t', (moved x active L). split_and!; [done|exact Ev|done|done|done|by split; [apply Q|]| |by apply moved_to|done|done|done].
  rewrite (moved_from L x active q (x :: l) Hqx Hqa Hl), filter_cons_False by (by intros ?). by rewrite filter_absent.
Qed.

(** [l] is still to be woken of [l0]. *)
Definition waking t0 L0 (l0 a0 : list nat) (wait : Z) (l : list nat) t : Prop :=
  exists L d, l0 = d ++ l /\ I t L /\ wf t L /\ client_queue t L /\ L !! q = Some l /\ L !! active = Some (a0 ++ d) /\ client t = client t0 /\
    (forall x v, x ∈ d -> view t0 L0 x = Some v -> view t L x = Some (Nbio (n_fd v) (Z.land wait NBIO_WAIT) (Z.land wait NBIO_WAIT) Active)) /\
    forall y, y ∉ d -> view t L y = view t0 L0 y.

Lemma waking_step t0 L0 l0 a0 wait x l t : NoDup l0 -> Z.land wait NBIO_WAIT <> 0 -> waking t0 L0 l0 a0 wait (x :: l) t ->
  exists t', nbio_wake plugin t x wait = Ret t' /\ waking t0 L0 l0 a0 wait l t'.
Proof.
  intros Hnd Hw (L & d & -> & HI & W & Hq & Hl & Ha & C & Hd & O).
  destruct (wake_first t L x l _ wait HI W Hq Hl Ha Hw) as (v & v' & t' & L' & V & Ev & Et & HI' & W' & Hq' & Hl' & Ha' & C' & V' & O').
  exists t'. split; [done|]. exists L', (d ++ [x]).
  apply NoDup_app in Hnd as (_ & Hdis & _). assert (x ∉ d) as Hxd by (intros H; apply (Hdis x H); left).
  split_and!; [by rewrite <- app_assoc|done|done|done|done|by rewrite app_assoc|by rewrite C'| |].
  - intros y u [Hy| ->%list_elem_of_singleton]%elem_of_app Hu.
    + rewrite O' by (by intros ->). by apply Hd.
    + rewrite O in V by done. rewrite V in Hu. injection Hu as <-. unfold Nbio.nbio_wake, Nbio.do_set_wait in Ev. rewrite V'.
      destruct (negb (n_mask v =? NBIO_DELETED)); [|done]. run_in Ev. rewrite (proj2 (Z.eqb_neq _ _) Hw) in Ev. by injection Ev as <-.
  - intros y [Hy1 Hy2]%not_elem_of_app. rewrite O' by set_solver. by apply O.
Qed.

(** The whole queue. *)
Lemma wake_all t L l a wait fuel : I t L -> wf t L -> client_queue t L -> L !! q = Some l -> L !! active = Some a -> Z.land wait NBIO_WAIT <> 0 ->
  (length l <= fuel)%nat ->
  exists t', list_for_each_safe (fun x t => nbio_wake plugin t x wait) fuel q t = Ret t' /\ waking t L l a wait [] t'.
Proof.
  intros HI W Hq Hl Ha Hw Hf. destruct (re_ring _ _ (wf_repr _ _ W) q l Hl) as [[_ Hnd]%NoDup_cons _].
  destruct (walking_rule (fun x t => nbio_wake plugin t x wait) q (fun pre k t' => pre = [] /\ waking t L l a wait k t') (fun _ _ => True)
    (fun k _ => length k) (fun k => k = [])) with (fuel := fuel) (l := l) (st := t) as (t' & pre & k & E & -> & (-> & H) & _); [done| | | |done|by exists t'].
  - intros pre k st (-> & L' & d & _ & _ & W' & _ & Hk & _). by apply (re_ring _ _ (wf_repr _ _ W')).
  - intros pre x k st [-> H]. destruct (waking_step t L l a wait x k st Hnd Hw H) as (st' & E & H').
    exists st', [], []. rewrite app_nil_r. cbn. split_and!; (done || lia).
  - split; [done|]. exists L, []. rewrite app_nil_r. split_and!; (done || (intros; set_solver)).
Qed.
End woken.

(** ** Running out and being woken *)

Section round.
Context {K A Pl X : Type}.
Abbreviation E := (Pl * X)%type.
Abbreviation thread := (iothread K A E).
Context (plugin : eventloop K A E) (I : thread -> lists -> Prop) (off : nb K -> Prop) `{!Plugin plugin I off} (oomq : nat).
Implicit Types (t : thread) (L : lists) (x y : nat) (v : nbio).

(** Listeners run out of resources one after the other. *)
Fixpoint run_out (xs : list nat) t : outcome thread :=
  match xs with
  | [] => Ret t
  | x :: xs => t ← http_oom plugin oomq t x; run_out xs t
  end.

Lemma oom_ok t L x v l a : I t L -> wf t L -> client_queue oomq t L -> view t L x = Some v -> n_mask v <> NBIO_DELETED ->
  L !! oomq = Some l -> x ∉ l -> L !! active = Some a ->
  exists t' L', http_oom plugin oomq t x = Ret t' /\ I t' L' /\ wf t' L' /\ client_queue oomq t' L' /\ L' !! oomq = Some (l ++ [x]) /\
    L' !! active = Some (filter (fun y => y <> x) a) /\ client t' = client t /\ view t' L' x = Some (Nbio (n_fd v) 0 0 WaitQ) /\
    forall y, y <> x -> view t' L' y = view t L y.
Proof.
  intros HI W [Hq Hh] V Hm Hl Hx Ha.
  destruct (set_wait_moves plugin I off t L x v 0 (Some oomq) HI W V Hm) as (v' & Ev & t' & Et & S & HI' & C); [by intros ? [= <-]|].
  cbn in S, HI'. destruct S as [W' V' _ O _ Q _]. unfold Nbio.do_set_wait in Ev. rewrite (proj2 (Z.eqb_neq _ _) Hm) in Ev. injection Ev as <-.
  apply view_of in V as (n & Hn & ->). destruct (wf_node _ _ W x ltac:(by eexists)) as [_ Hxh].
  assert (oomq <> x) as Hqx by (intros ->; destruct Hq; congruence).
  exists t', (moved x oomq L). split_and!; [exact Et|done|done|by split; [apply Q|]|by apply moved_to| |done|exact V'|done].
  apply moved_from; [| |done]; intros Heq; [apply Hxh|apply Hh]; rewrite <- Heq; apply is_head; tauto.
Qed.

(** [d] have run out so far. *)
Definition ran_out t0 L0 (a0 d : list nat) t L : Prop :=
  I t L /\ wf t L /\ client_queue oomq t L /\ L !! oomq = Some d /\ L !! active = Some (filter (fun y => y ∉ d) a0) /\ client t = client t0 /\
  (forall x v, x ∈ d -> view t0 L0 x = Some v -> view t L x = Some (Nbio (n_fd v) 0 0 WaitQ)) /\
  forall y, y ∉ d -> view t L y = view t0 L0 y.

Lemma run_out_from t0 L0 a0 xs : forall d t L, ran_out t0 L0 a0 d t L -> NoDup (d ++ xs) ->
  (forall x, x ∈ xs -> exists v, view t0 L0 x = Some v /\ n_mask v <> NBIO_DELETED) ->
  exists t' L', run_out xs t = Ret t' /\ ran_out t0 L0 a0 (d ++ xs) t' L'.
Proof.
  induction xs as [|x xs IH]; intros d t L H Hnd Hv; [exists t, L; by rewrite app_nil_r|].
  destruct H as (HI & W & Hq & Hl & Ha & C & Hd & O). destruct (Hv x ltac:(left)) as (v & V & Hm).
  apply NoDup_app in Hnd as (Hnd1 & Hdis & Hnd2). assert (x ∉ d) as Hxd by (intros H; apply (Hdis x H); left).
  destruct (oom_ok t L x v d _ HI W Hq ltac:(by rewrite O) Hm Hl Hxd Ha) as (t' & L' & E1 & HI' & W' & Hq' & Hl' & Ha' & C' & V' & O').
  cbn [run_out]. rewrite E1. run. replace (d ++ x :: xs) with ((d ++ [x]) ++ xs) by by rewrite <- app_assoc.
  apply (IH (d ++ [x]) t' L'); [|rewrite <- app_assoc; apply NoDup_app; split_and!; [done|exact Hdis|done]|intros y Hy; apply Hv; by right].
  split_and!; [done|done|done|done| |by rewrite C'| |].
  - rewrite Ha', list_filter_filter. f_equal. apply list_filter_iff. intros y. rewrite not_elem_of_app, not_elem_of_cons. set_solver.
  - intros y u [Hy| ->%list_elem_of_singleton]%elem_of_app Hu; [rewrite O' by (by intros ->); by apply Hd|]. rewrite V in Hu. by injection Hu as <-.
  - intros y [Hy1 Hy2]%not_elem_of_app. rewrite O' by set_solver. by apply O.
Qed.

(** C39: listeners that run out of resources sleep until they are woken, and all
    are. Whatever listeners run out one after the other, they are then off the
    event loop, waiting for nothing, on the queue in the order they came; waking
    the queue empties it and makes each of them active again, behind what
    was active and in the same order, to read; nothing else in the event loop
    is changed by either. *)
Theorem listeners_wait_and_wake t L xs a : I t L -> wf t L -> client_queue oomq t L -> L !! oomq = Some [] -> L !! active = Some a ->
  NoDup xs -> (forall x, x ∈ xs -> exists v, view t L x = Some v /\ n_mask v <> NBIO_DELETED) ->
  exists t1 L1 t2 L2, run_out xs t = Ret t1 /\ L1 !! oomq = Some xs /\
    (forall x v, x ∈ xs -> view t L x = Some v -> view t1 L1 x = Some (Nbio (n_fd v) 0 0 WaitQ)) /\
    wake_listeners plugin oomq (length xs) t1 = Ret t2 /\ I t2 L2 /\ wf t2 L2 /\ L2 !! oomq = Some [] /\
    L2 !! active = Some (filter (fun y => y ∉ xs) a ++ xs) /\ client t2 = client t /\
    (forall x v, x ∈ xs -> view t L x = Some v -> view t2 L2 x = Some (Nbio (n_fd v) NBIO_READ NBIO_READ Active)) /\
    forall y, y ∉ xs -> view t1 L1 y = view t L y /\ view t2 L2 y = view t L y.
Proof.
  intros HI W Hq Hl Ha Hnd Hv.
  destruct (run_out_from t L a xs [] t L) as (t1 & L1 & E1 & HI1 & W1 & Hq1 & Hl1 & Ha1 & C1 & D1 & O1); [|done|done|].
  { split_and!; [done|done|done|done| |done|set_solver|done]. rewrite Ha. by rewrite filter_nothing. }
  destruct (wake_all plugin I off oomq t1 L1 xs _ NBIO_READ (length xs) HI1 W1 Hq1 Hl1 Ha1) as (t2 & E2 & L2 & d & Hd & HI2 & W2 & Hq2 & Hl2 & Ha2 & C2 & D2 & O2);
    [done|done|]. rewrite app_nil_r in Hd. subst d.
  exists t1, L1, t2, L2. split_and!; [done|done|done|exact E2|done|done|done|done|congruence| |].
  - intros x v Hx V. apply (D2 x _ Hx (D1 x v Hx V)).
  - intros y Hy. split; [by apply O1|]. rewrite O2, O1; done.
Qed.
End round.

(** ** Running it

    Two descriptors under epoll, the second one active, and a queue at 50. *)
Definition two_listeners : iothread unit unit (one_kernel * unit) :=
  (nodes (heads ++ [10; 20; 50])%nat, Rest (<[10%nat := Nb 7 0 0 tt 0]> {[20%nat := Nb 8 0 0 tt 0]}) (priv_epoll 3) (OneKernel ∅ [], tt)).

Lemma two_listeners_ok : wf two_listeners (singles (heads ++ [10; 20; 50])%nat) /\ epoll_ok two_listeners (singles (heads ++ [10; 20; 50])%nat).
Proof.
  split; [|split; [by exists 3|done]]. apply start_wf; [done|]. intros x n Hn. cbn in Hn. unfold heads.
  apply lookup_insert_Some in Hn as [[<- <-]|[_ [<- <-]%lookup_singleton_Some]]; cbn; split_and!; (set_solver || lia).
Qed.

Lemma listeners_wait_and_wake_witness : exists t1 t2 L2,
  run_out (eventloop_epoll 8) 50 [20; 10]%nat two_listeners = Ret t1 /\ wake_listeners (eventloop_epoll 8) 50 2 t1 = Ret t2 /\
  L2 !! active = Some [20; 10]%nat /\ view t2 L2 10%nat = Some (Nbio 7 NBIO_READ NBIO_READ Active).
Proof.
  destruct two_listeners_ok as [W HI].
  destruct (listeners_wait_and_wake (eventloop_epoll 8) epoll_ok epoll_off 50 two_listeners (singles (heads ++ [10; 20; 50])%nat) [20; 10]%nat [] HI W)
    as (t1 & L1 & t2 & L2 & E1 & _ & _ & E2 & _ & _ & _ & Ha & _ & V & _).
  - split; [split; [by eexists|done]|unfold heads; set_solver].
  - reflexivity.
  - reflexivity.
  - apply (bool_decide_unpack _). vm_compute. exact Logic.I.
  - intros x [->|[->|[]%elem_of_nil]%elem_of_cons]%elem_of_cons; eexists; (split; [reflexivity|done]).
  - exists t1, t2, L2. split; [exact E1|]. split; [exact E2|]. split; [exact Ha|]. apply (V 10%nat (Nbio 7 0 0 WaitQ)); [by right; left|reflexivity].
Defined.
