(* ===== verification/Httpd.v ===== *)
(** * httpd.c: the server's main program

    Choosing the I/O model, opening the listeners and running the event loop. The
    thread is that of [NbioLoop] with listening sockets among its descriptors;
    setting up the connections' pool with the I/O model and reading the virtual
    hosts ([Vhosts]) are arguments of [main]. *)

From S2P Require Import Prelude ListHead Os Nbio NbioLoop NbioPump NbioEpoll Sockets NbioListener.
Local Open Scope Z_scope.

(** ** The I/O model *)

Inductive fio := fio_sync | fio_sendfile | fio_async | fio_async_sendfile.

Definition ionames (have_aio_sendfile : bool) : list (string * fio) :=
  [("sync", fio_sync); ("sendfile", fio_sendfile); ("aio", fio_async); ("async", fio_async)]%string ++
  if have_aio_sendfile then [("aio-sendfile", fio_async_sendfile); ("async-sendfile", fio_async_sendfile)]%string else [].

Fixpoint find_name (name : string) (l : list (string * fio)) : option fio :=
  match l with
  | [] => None
  | (n, f) :: l => if String.eqb name n then Some f else find_name name l
  end.

(** The program says so when the name is not there. *)
Definition io_model (have_aio_sendfile : bool) (name : option string) : fio :=
  match name with
  | None => fio_sync
  | Some name => default fio_sync (find_name name (ionames have_aio_sendfile))
  end.

(** ** Listeners *)

Definition SOCK_STREAM : Z := 1.
Definition IPPROTO_TCP : Z := 6.

Section httpd.
Context {D A Pl Y V : Type} `{!Sockets Y}.
Abbreviation K := (listener + D)%type.
Abbreviation E := (Pl * Y)%type.
Abbreviation thread := (iothread K A E).
Context (plugin : eventloop K A E).
Implicit Types (t : thread) (L : lists).

(** [struct http_listener], by address in [listeners], oldest first. *)
Record http_listener := HttpListener { l_listen : nat; l_vhosts : V }.
Abbreviation listeners := (list (nat * http_listener)).

(** [http_conn] and [http_oom], as the listener knows them. *)
Context (http_conn http_oom : nat).

Definition http_listen t (ls : listeners) (addr port : Z) (vhosts : V) : outcome (option nat * thread * listeners) :=
  let '(o, y) := sk_calloc (sys t) in
  let t := set_sys t y in
  match o with
  | None => Ret (None, t, ls)
  | Some hl =>
    '(listen, t) ← listener_inet plugin t SOCK_STREAM IPPROTO_TCP addr port http_conn hl http_oom;
    match listen with
    | None => Ret (None, t, ls)
    | Some x => Ret (Some hl, t, ls ++ [(hl, HttpListener x vhosts)])
    end
  end.

(** ** main *)

Context (ops : K -> nbio_ops K A E).
Context (http_proto_init : fio -> thread -> outcome (bool * thread)) (vhosts_new : string -> thread -> outcome (option V * thread)).

(** The loop, for at most [turns] turns of it. *)
Fixpoint main_loop (fuel turns : nat) t : outcome thread :=
  match turns with
  | O => Fault OutOfFuel
  | S turns =>
    t ← nbio_pump plugin ops fuel t (-1);
    empty ← list_empty t.1 active;
    if (empty : bool) then Ret t else main_loop fuel turns t
  end.

(** From [http_listen] on; neither call's result is looked at. *)
Definition serve (fuel turns : nat) t (vhosts : V) : outcome (thread * listeners) :=
  '(_, t, ls) ← http_listen t [] 0 80 vhosts;
  '(_, t, ls) ← http_listen t ls 0 1234 vhosts;
  t ← main_loop fuel turns t;
  t ← nbio_fini plugin ops fuel t;
  Ret (t, ls).
End httpd.

(** The exit status, [true] for success. *)
Definition main {D A Pl Y V} `{!Sockets Y} (ops : listener + D -> nbio_ops (listener + D) A (Pl * Y))
    (http_conn http_oom : nat) (http_proto_init : fio -> iothread (listener + D) A (Pl * Y) -> outcome (bool * iothread (listener + D) A (Pl * Y)))
    (vhosts_new : string -> iothread (listener + D) A (Pl * Y) -> outcome (option V * iothread (listener + D) A (Pl * Y)))
    (have_aio_sendfile : bool) (ev_list : list (eventloop (listener + D) A (Pl * Y))) (fuel turns : nat)
    (t : iothread (listener + D) A (Pl * Y)) (args : list string) : outcome (bool * iothread (listener + D) A (Pl * Y)) :=
  let vhosts_dir := default "./vhosts"%string (args !! 0%nat) in
  let fio_current := io_model have_aio_sendfile (args !! 1%nat) in
  '(plugin, t) ← nbio_init ev_list t None;
  match plugin with
  | None => Ret (false, t)
  | Some plugin =>
    '(ok, t) ← http_proto_init fio_current t;
    if negb ok then Ret (false, t)
    else
      '(vhosts, t) ← vhosts_new vhosts_dir t;
      match vhosts with
      | None => Ret (false, t)
      | Some vhosts =>
        '(t, _) ← serve plugin http_conn http_oom ops fuel turns t vhosts;
        Ret (true, t)
      end
  end.

(** ** Properties *)

(** every entry of the list of listeners is a socket the event loop listens on.
    Whatever memory and the sockets' calls answer, [http_listen] returns; when
    it fails, list, descriptors and open files are as they were; when it
    succeeds there is one entry more, for one more file descriptor, which waits
    for connections, hands them to [http_conn] and asks [http_oom] for help,
    with the new entry as their argument. *)
Theorem http_listen_all_or_nothing {D A Pl Y V} `{!Sockets Y} (plugin : eventloop (listener + D) A (Pl * Y))
    (J : iothread (listener + D) A (Pl * Y) -> lists -> Prop) (off : nb (listener + D) -> Prop) `{!Plugin plugin J off}
    (http_conn http_oom : nat) t L (ls : list (nat * @http_listener V)) addr port vhosts : J t L -> wf t L ->
  (forall x y, sk_calloc (sk_calloc (sys t)).2 = (Some x, y) -> t.1 !! x = None) ->
  exists o t' ls', http_listen plugin http_conn http_oom t ls addr port vhosts = Ret (o, t', ls') /\
    match o with
    | None => ls' = ls /\ t'.1 = t.1 /\ r_io t'.2 = r_io t.2 /\ opened (sys t') = opened (sys t) /\ wf t' L /\ J t' L
    | Some hl => exists x fd L', ls' = ls ++ [(hl, HttpListener x vhosts)] /\ wf t' L' /\ J t' L' /\
        fd ∉ opened (sys t) /\ opened (sys t') = {[fd]} ∪ opened (sys t) /\
        view t' L' x = Some (Nbio fd NBIO_READ NBIO_READ Active) /\ get_listener t' x = Ret (fd, Listener http_conn http_oom hl) /\
        forall y, y <> x -> view t' L' y = view t L y
    end.
Proof.
  intros HJ W Hfresh. unfold http_listen. pose proof (calloc_law (sys t)) as O1. destruct (sk_calloc (sys t)) as [[hl|] y1]; cbn in O1.
  2: { eexists _, _, _. split; [reflexivity|]. split_and!; [done|done|done|done|by apply sys_wf|by apply (sys_frame plugin J off)]. }
  destruct (listener_inet_ok plugin J off (set_sys t y1) L SOCK_STREAM IPPROTO_TCP addr port http_conn hl http_oom) as (o & t' & -> & H);
    [by apply (sys_frame plugin J off)|by apply sys_wf|exact Hfresh|]. run.
  assert (opened (sys (set_sys t y1)) = opened (sys t)) as Eo by exact O1. rewrite Eo in H.
  destruct o as [x|].
  - destruct H as (L' & fd & H1 & H2 & _ & H4 & H5 & _ & H7 & H8 & H9 & _). eexists (Some hl), t', _. split; [reflexivity|].
    exists x, fd, L'. by split_and!.
  - destruct H as (H1 & H2 & H3 & H4 & H5 & _). eexists None, t', _. split; [reflexivity|]. by split_and!.
Qed.

Example http_listen_all_or_nothing_witness : exists t' ls',
  http_listen (eventloop_epoll 8) 4 6 (idle_thread (Script {[0]} [] [20%nat; 10%nat] [] [] [])) ([] : list (nat * @http_listener unit)) 0 80 tt
    = Ret (Some 20%nat, t', ls') /\ ls' = [(20%nat, HttpListener 10 tt)] /\ opened (sys t') = {[3]} ∪ {[0]}.
Proof.
  set (y := Script {[0]} [] [20%nat; 10%nat] [] [] []). destruct (idle_thread_ok y) as [W J].
  destruct (http_listen_all_or_nothing (V := unit) (eventloop_epoll 8) epoll_ok epoll_off 4 6 (idle_thread y) _ [] 0 80 tt J W) as (o & t' & ls' & E & H).
  { intros x y'. cbn. intros [= <- _]. done. }
  assert (match http_listen (eventloop_epoll 8) 4 6 (idle_thread y) ([] : list (nat * @http_listener unit)) 0 80 tt with
    Ret (o, _, ls) => (o, ls) | _ => (None, []) end = (Some 20%nat, [(20%nat, HttpListener 10 tt)])) as Ho by (vm_compute; reflexivity).
  assert (match http_listen (eventloop_epoll 8) 4 6 (idle_thread y) ([] : list (nat * @http_listener unit)) 0 80 tt with
    Ret (_, t, _) => bool_decide (opened (sys t) = {[3]} ∪ {[0]}) | _ => false end = true) as Hd by (vm_compute; reflexivity).
  rewrite E in Ho, Hd. apply bool_decide_eq_true in Hd. injection Ho as -> ->. exists t', [(20%nat, HttpListener 10 tt)]. by split_and!.
Defined.
