(* ===== verification/Startup.v ===== *)
(** * http_conn.c and the I/O models: starting up

    [http_proto_init] makes the pool of connections and has the chosen I/O model
    start. The asynchronous ones make a queue in the kernel, a pool of request
    blocks and an eventfd, which joins the event loop. What libaio, [malloc]
    and [signal] answer is an input; the sizes of their structures are
    parameters. *)

From S2P Require Import Prelude Os ListHead Hgang Nbio NbioLoop NbioPump NbioPoll NbioEventfd Sockets NbioListener Httpd.
Local Open Scope Z_scope.

(** What [hgang_new] for connections, [signal], [io_queue_init] (0 or a negative
    error) and [hgang_new] for request blocks answer; and what is left in fresh
    memory. *)
Record answers := Answers { an_conns : bool; an_sigpipe : bool; an_queue : Z; an_iocbs : bool; an_junk : Z }.

(** The statics that are set: [conns], [aio_iocbs] and [efd]. *)
Record statics := Statics { st_conns : option hgang; st_iocbs : option hgang; st_efd : option nat }.

Definition os_sigpipe_ignore (signal_ok : bool) : bool := signal_ok.

Section startup.
Context {A Pl Y : Type}.
Abbreviation E := (Pl * (efd_env * Y))%type.
Abbreviation thread := (iothread nb_efd A E).
Context (plugin : eventloop nb_efd A E) (aio_event : nat) (sizeof_conn sizeof_iocb : Z).
Implicit Types (t : thread) (s : statics) (a : answers).

Definition io_sync_init s t : outcome (bool * statics * thread) := Ret (true, s, t).

Definition io_sendfile_init a s t : outcome (bool * statics * thread) := Ret (os_sigpipe_ignore (an_sigpipe a), s, t).

(** The pool, the eventfd and its place in the event loop: the end of both
    asynchronous models' functions. *)
Definition start_aio a s t : outcome (bool * statics * thread) :=
  let s := Statics (st_conns s) (hgang_new (an_iocbs a) (an_junk a) sizeof_iocb 0) (st_efd s) in
  match st_iocbs s with
  | None => Ret (false, s, t)
  | Some _ =>
    let '(efd, t) := nbio_eventfd_new t aio_event 0 in
    let s := Statics (st_conns s) (st_iocbs s) efd in
    match efd with
    | None => Ret (false, s, t)
    | Some x => t ← nbio_eventfd_add plugin t x; Ret (true, s, t)
    end
  end.

Definition io_async_init a s t : outcome (bool * statics * thread) :=
  if an_queue a <? 0 then Ret (false, s, t) else start_aio a s t.

Definition io_async_sendfile_init a s t : outcome (bool * statics * thread) :=
  if negb (an_queue a =? 0) then Ret (false, s, t) else start_aio a s t.

Definition io_init (f : fio) a s t : outcome (bool * statics * thread) :=
  match f with
  | fio_sync => io_sync_init s t
  | fio_sendfile => io_sendfile_init a s t
  | fio_async => io_async_init a s t
  | fio_async_sendfile => io_async_sendfile_init a s t
  end.

Definition http_proto_init (fio_current : fio) a s t : outcome (bool * statics * thread) :=
  let s := Statics (hgang_new (an_conns a) (an_junk a) sizeof_conn 0) (st_iocbs s) (st_efd s) in
  match st_conns s with
  | None => Ret (false, s, t)
  | Some _ => io_init fio_current a s t
  end.

(** ** Lemmas *)

Context (J : thread -> lists -> Prop) (off : nb nb_efd -> Prop) `{!Plugin plugin J off}.
Implicit Types (L : lists).

Lemma efd_frame t L e : J t L -> J (set_efd t e) L.
Proof. intros HJ. apply (pl_frame t L); [done|done|]. intros q z n Hz _. by left. Qed.

Lemma efd_wf t L e : wf t L -> wf (set_efd t e) L.
Proof. by apply quiet_wf. Qed.

(** The event loop as it was. *)
Definition untouched t L t' : Prop := t'.1 = t.1 /\ r_io t'.2 = r_io t.2 /\ r_priv t'.2 = r_priv t.2 /\ wf t' L /\ J t' L.

(** One descriptor more: an eventfd that calls [aio_event]. *)
Definition efd_added t L t' (x : nat) : Prop :=
  exists L' fd, wf t' L' /\ J t' L' /\ 0 <= fd /\ view t L x = None /\ view t' L' x = Some (Nbio fd NBIO_READ NBIO_READ Active) /\
    nb_ops <$> r_io t'.2 !! x = Some (NbEfd aio_event 0) /\ forall y, y <> x -> view t' L' y = view t L y.

(** [calloc] gives memory that is not in use. *)
Definition fresh_calloc t : Prop := match f_callocs (get_efd t) with [] => True | x :: _ => t.1 !! x = None end.

Lemma eventfd_new_add t L : J t L -> wf t L -> fresh_calloc t ->
  let '(o, t1) := nbio_eventfd_new t aio_event 0 in
  match o with
  | None => untouched t L t1
  | Some x => exists t', nbio_eventfd_add plugin t1 x = Ret t' /\ efd_added t L t' x
  end.
Proof.
  intros HJ W Hf. unfold nbio_eventfd_new, efd_calloc, fresh_calloc in *. destruct (f_callocs (get_efd t)) as [|x l] eqn:El.
  { split_and!; done. }
  set (e1 := EfdEnv (f_reads (get_efd t)) l (f_eventfds (get_efd t)) (f_closed (get_efd t))).
  set (h0 := <[x := (0, 0)%nat]> t.1). set (n0 := Nb 0 0 0 (NbEfd 0 0) 0 : nb nb_efd).
  pose proof (fresh_none _ _ _ (wf_repr _ _ W) Hf) as Hx. pose proof (fresh_not_live t L x W Hx) as Hio.
  assert (room t x h0) as Hr by (unfold h0; split; [by rewrite lookup_insert_eq|intros b Hb; by rewrite lookup_insert_ne]).
  change (eventfd _) with (eventfd (with_io (set_efd t e1) x n0 h0)). unfold eventfd.
  change (get_efd (with_io (set_efd t e1) x n0 h0)) with e1. cbn [f_eventfds e1].
  assert (untouched t L (efd_free (with_io (set_efd t e1) x n0 h0) x)) as Hundo.
  { assert (efd_free (with_io (set_efd t e1) x n0 h0) x = set_efd t e1) as ->.
    - unfold efd_free, with_io, set_efd. cbn. by rewrite (heap_delete_room t x h0 Hf Hr), delete_insert_id.
    - split_and!; [done|done|done|by apply efd_wf|by apply efd_frame]. }
  destruct (f_eventfds (get_efd t)) as [|fd fds]; [exact Hundo|].
  set (e2 := EfdEnv (f_reads e1) (f_callocs e1) fds (f_closed e1)). destruct (Z.ltb_spec fd 0) as [Hfd|Hfd].
  { destruct Hundo as (H1 & H2 & H3 & H4 & H5). split_and!; [exact H1|exact H2|exact H3| |].
    - exact (efd_wf _ L e2 H4).
    - exact (efd_frame _ L e2 H5). }
  set (n1 := Nb fd 0 0 (NbEfd aio_event 0) 0). unfold nbio_eventfd_add.
  assert (put_io (set_efd (with_io (set_efd t e1) x n0 h0) e2) x n1 = with_io (set_efd t e2) x n1 h0) as ->.
  { unfold put_io, with_io, set_efd. cbn. by rewrite insert_insert_eq. }
  destruct (add_ok plugin J off (set_efd t e2) L x n1 h0 NBIO_READ) as (t' & L' & E & W' & J' & V & O & C);
    [by apply efd_frame|by apply efd_wf|done|done|done|done|].
  exists t'. split; [exact E|]. exists L', fd. injection C as C1 C2. split_and!; [done|done|done| |exact V| |exact O].
  - unfold view. by rewrite Hio.
  - rewrite <- lookup_fmap, C1. by rewrite lookup_insert_eq.
Qed.

(** What starting has done when its result is [ok]. *)
Definition started (f : fio) t L (ok : bool) s t' : Prop :=
  if ok then
    match f with
    | fio_async | fio_async_sendfile => is_Some (st_iocbs s) /\ exists x, st_efd s = Some x /\ efd_added t L t' x
    | _ => t' = t
    end
  else untouched t L t'.

Lemma untouched_refl t L : J t L -> wf t L -> untouched t L t.
Proof. intros HJ W. unfold untouched. tauto. Qed.

Lemma start_aio_ok a s t L f : f = fio_async \/ f = fio_async_sendfile -> J t L -> wf t L -> fresh_calloc t ->
  exists ok s' t', start_aio a s t = Ret (ok, s', t') /\ st_conns s' = st_conns s /\ started f t L ok s' t'.
Proof.
  intros Hf HJ W Hc. unfold start_aio. cbn [st_iocbs]. destruct (hgang_new (an_iocbs a) (an_junk a) sizeof_iocb 0) as [g|].
  2: { eexists _, _, _. split; [done|split; [done|by apply untouched_refl]]. }
  pose proof (eventfd_new_add t L HJ W Hc) as H. destruct (nbio_eventfd_new t aio_event 0) as [[x|] t1].
  - destruct H as (t' & E & Ha). rewrite E. run. eexists _, _, _. split; [done|split; [done|]].
    destruct Hf as [-> | ->]; (split; [by eexists|by exists x]).
  - eexists _, _, _. split; [done|split; [done|exact H]].
Qed.

Lemma io_init_ok f a s t L : J t L -> wf t L -> fresh_calloc t ->
  exists ok s' t', io_init f a s t = Ret (ok, s', t') /\ st_conns s' = st_conns s /\ started f t L ok s' t'.
Proof.
  intros HJ W Hc. pose proof (untouched_refl t L HJ W) as Hu. destruct f; cbn [io_init].
  - by eexists _, _, _.
  - unfold io_sendfile_init. destruct (os_sigpipe_ignore (an_sigpipe a)); by eexists _, _, _.
  - unfold io_async_init. destruct (an_queue a <? 0); [by eexists _, _, _|]. apply start_aio_ok; tauto.
  - unfold io_async_sendfile_init. destruct (negb (an_queue a =? 0)); [by eexists _, _, _|]. apply start_aio_ok; tauto.
Qed.

(** the server starts as a whole or not at all, as far as the event loop can tell.
    Whatever the calls answer, [http_proto_init] returns; when it fails, no
    descriptor of the event loop has changed and none has been added; when it
    succeeds there is a pool of connections, and with an asynchronous model a
    pool of request blocks and exactly one descriptor more, an eventfd that is
    ready to read and calls [aio_event]. *)
Theorem http_proto_init_all_or_nothing f a s t L : J t L -> wf t L -> fresh_calloc t ->
  exists ok s' t', http_proto_init f a s t = Ret (ok, s', t') /\ started f t L ok s' t' /\ (ok = true -> is_Some (st_conns s')).
Proof.
  intros HJ W Hc. unfold http_proto_init. cbn [st_conns]. destruct (hgang_new (an_conns a) (an_junk a) sizeof_conn 0) as [g|] eqn:Eg.
  - destruct (io_init_ok f a (Statics (Some g) (st_iocbs s) (st_efd s)) t L HJ W Hc) as (ok & s' & t' & E & Es & H).
    exists ok, s', t'. split_and!; [exact E|exact H|]. intros _. rewrite Es. by eexists.
  - eexists _, _, _. split; [done|split; [by apply untouched_refl|done]].
Qed.
End startup.

(** ** Running it

    An event loop over [poll] without descriptors. *)
Definition empty_loop : noted :=
  (nodes (heads ++ []), Rest ∅ (priv_ptr (PollPriv 8 0 (replicate 8 empty_pfd))) (PollEnv [] [], (EfdEnv [] [10%nat] [6] [], []))).

Lemma empty_loop_ok : wf empty_loop (singles (heads ++ [])) /\ poll_ok empty_loop (singles (heads ++ [])).
Proof.
  assert (forall q y, on (singles (heads ++ [])) q y -> False) as Hno by (intros q y (l & [_ ->]%singles_lookup & Hy); set_solver).
  split; [by apply start_wf|]. eexists. split; [done|]. split; [unfold array_ok; cbn; lia|constructor| | |].
  - intros x n Hx _ _. by destruct (Hno _ _ Hx).
  - assert (watched empty_loop (singles (heads ++ [])) = ∅) as Hw; [|by rewrite Hw, size_empty].
    apply set_eq. intros y. rewrite watched_in. split; [intros (Hy & _); by destruct (Hno _ _ Hy)|set_solver].
  - intros q x n _ _ Hx _. by destruct (Hno _ _ Hx).
Qed.

Lemma http_proto_init_all_or_nothing_witness : exists s t L,
  http_proto_init eventloop_poll 3 400 64 fio_async (Answers true true 0 true 0) (Statics None None None) empty_loop = Ret (true, s, t) /\
  st_efd s = Some 10%nat /\ view t L 10%nat = Some (Nbio 6 NBIO_READ NBIO_READ Active).
Proof.
  destruct empty_loop_ok as [W J].
  destruct (http_proto_init_all_or_nothing eventloop_poll 3 400 64 poll_ok poll_off fio_async (Answers true true 0 true 0) (Statics None None None)
    empty_loop _ J W) as (ok & s & t & E & H & _); [reflexivity|].
  assert (match http_proto_init eventloop_poll 3 400 64 fio_async (Answers true true 0 true 0) (Statics None None None) empty_loop with
    | Ret (ok, s, t) => (ok, st_efd s, nb_fd <$> r_io t.2 !! 10%nat) | _ => (false, None, None) end = (true, Some 10%nat, Some 6)) as Hv by (vm_compute; reflexivity).
  rewrite E in Hv. injection Hv as -> He Hfd. destruct H as (_ & x & Hx & L & fd & _ & _ & _ & _ & V & _). rewrite He in Hx. injection Hx as <-.
  exists s, t, L. split; [exact E|]. split; [exact He|]. rewrite V. apply view_of in V as (n & Hn & [= Ef _ _ _]). rewrite Hn in Hfd. injection Hfd as Hfd.
  rewrite Ef. by rewrite Hfd.
Defined.
