(* ===== verification/NbioConnecter.v ===== *)
(** * nbio-connecter.c: connections to other servers

    A descriptor of the event loop around a socket that is being connected, next
    to others of any kind [D]. Its write callback hands the connected socket to
    the owner. The pool of connecters is the kernel's allocator here. *)

From S2P Require Import Prelude ListHead Os Nbio NbioLoop NbioPoll NbioEpoll Sockets.
Local Open Scope Z_scope.

(** The fields of [struct connecter] after its [struct nbio]. *)
Record conn_data := Connecter { c_cb : nat; c_priv : nat }.

Section connect.
Context {D A Pl Y : Type} `{!Sockets Y}.
Abbreviation K := (conn_data + D)%type.
Abbreviation E := (Pl * Y)%type.
Abbreviation thread := (iothread K A E).
Context (plugin : eventloop K A E) (cb : nat -> thread -> Z -> nat -> outcome thread).
Implicit Types (t : thread) (x : nat) (L : lists).

Definition get_sys t : Y := snd (r_env t.2).
Definition put_sys t (y : Y) : thread := (t.1, Rest (r_io t.2) (r_priv t.2) (fst (r_env t.2), y)).

Definition get_connecter t x : outcome (nb K * conn_data) :=
  n ← get_io t x;
  match nb_ops n with inl c => Ret (n, c) | inr _ => Fault OutOfBounds end.

Definition set_fd (n : nb K) (fd : Z) : nb K := Nb fd (nb_mask n) (nb_flags n) (nb_ops n) (ev_poll n).

Definition connect_write t x : outcome thread :=
  '(n, c) ← get_connecter t x;
  let '(err, y) := sk_error (get_sys t) (nb_fd n) in
  let t := put_sys t y in
  t ← (if decide (err = Some 0) then cb (c_cb c) t (nb_fd n) (c_priv c)
       else Ret (put_sys t (sk_close (get_sys t) (nb_fd n))));
  t ← update_io t x (fun n => set_fd n (-1));
  nbio_del plugin t x.

Definition connect_dtor t x : outcome thread :=
  n ← get_io t x;
  let t := if nb_fd n >=? 0 then put_sys t (sk_close (get_sys t) (nb_fd n)) else t in
  Ret (delete x t.1, Rest (delete x (r_io t.2)) (r_priv t.2) (r_env t.2)).

Definition c_ops : nbio_ops K A E := NbioOps None (Some connect_write) (Some connect_dtor).

(** [errno] is not written when [connect] succeeds at once: [stale] is whether it
    is [EINPROGRESS] after the callback. *)
Definition connecter (stale : bool) t (type proto addr port : Z) (c p : nat) : outcome (bool * thread) :=
  let '(s, y) := sk_socket (get_sys t) (Z.lor type SOCK_NONBLOCK) proto in
  let t := put_sys t y in
  if s <? 0 then Ret (false, t)
  else
    let sa := SockaddrIn PF_INET (net_bytes 2 port) (le_bytes 4 addr) in
    let '(a, y) := sk_connect (get_sys t) s sa in
    let t := put_sys t y in
    '(in_progress, t) ← match a with
      | Connected => t ← cb c t s p; Ret (stale, t)
      | InProgress => Ret (true, t)
      | ConnectErr => Ret (false, t)
      end;
    if negb in_progress then Ret (false, t)
    else
      let '(o, y) := sk_calloc (get_sys t) in
      let t := put_sys t y in
      match o with
      | None => Ret (false, t)
      | Some x =>
          let t : thread := (<[x := (0, 0)%nat]> t.1, Rest (<[x := Nb s 0 0 (inl (Connecter c p)) 0]> (r_io t.2)) (r_priv t.2) (r_env t.2)) in
          t ← nbio_add plugin t x NBIO_WRITE;
          t ← nbio_inactive plugin t x NBIO_WRITE;
          Ret (true, t)
      end.

Context (J : thread -> lists -> Prop) (off : nb K -> Prop) `{!Plugin plugin J off}.

(** a connection under way is waited for. When [connect] is in progress and
    there is memory, connecter succeeds: exactly one file descriptor is open that
    was not, and it belongs to a new descriptor of the event loop that is idle
    until the socket can be written, with the owner's callback; all others are
    as they were. *)
Theorem connecter_waits stale t L type proto addr port c p s y1 y2 x y3 : J t L -> wf t L -> t.1 !! x = None ->
  sk_socket (get_sys t) (Z.lor type SOCK_NONBLOCK) proto = (s, y1) -> 0 <= s ->
  sk_connect y1 s (SockaddrIn PF_INET (net_bytes 2 port) (le_bytes 4 addr)) = (InProgress, y2) -> sk_calloc y2 = (Some x, y3) ->
  exists t' L', connecter stale t type proto addr port c p = Ret (true, t') /\ wf t' L' /\ J t' L' /\
    s ∉ opened (get_sys t) /\ opened (get_sys t') = {[s]} ∪ opened (get_sys t) /\
    view t L x = None /\ view t' L' x = Some (Nbio s NBIO_WRITE 0 Inactive) /\
    nb_ops <$> r_io t'.2 !! x = Some (inl (Connecter c p)) /\ forall y, y <> x -> view t' L' y = view t L y.
Proof.
  intros HJ W Hx Es Hs Ec Ea. pose proof (socket_law _ _ _ _ _ Es) as Eo. rewrite (proj2 (Z.ltb_ge _ _) Hs) in Eo. destruct Eo as [Hnew Eo].
  pose proof (connect_law y1 s (SockaddrIn PF_INET (net_bytes 2 port) (le_bytes 4 addr))) as O2. rewrite Ec in O2.
  pose proof (calloc_law y2) as O3. rewrite Ea in O3. cbn in O2, O3.
  unfold connecter. rewrite Es, (proj2 (Z.ltb_ge _ _) Hs). change (get_sys (put_sys t y1)) with y1. rewrite Ec. run. cbn [negb].
  change (get_sys (put_sys (put_sys t y1) y2)) with y2. rewrite Ea.
  set (t3 := put_sys t y3). set (n := Nb s 0 0 (inl (Connecter c p)) 0 : nb K). assert (wf t3 L) as W3 by (by apply (quiet_wf t)).
  assert (J t3 L) as J3 by (apply (pl_frame t L); [done|done|]; intros q z m Hz _; by left).
  assert (room t3 x (<[x := (0, 0)%nat]> t3.1)) as R by (split; [by rewrite lookup_insert_eq|intros a Ha; by rewrite lookup_insert_ne]).
  pose proof (fresh_none _ _ _ (wf_repr _ _ W3) Hx) as Hf.
  destruct (add_ok plugin J off t3 L x n _ NBIO_WRITE J3 W3 Hf R) as (t4 & L4 & E4 & W4 & J4 & V4 & O4 & C4); [done|done|].
  change (_, Rest _ _ _) with (with_io t3 x n (<[x := (0, 0)%nat]> t3.1)). rewrite E4. run.
  destruct (inactive_ok plugin J off t4 L4 x _ NBIO_WRITE J4 W4 V4) as (t5 & L5 & E5 & [W5 V5 _ O5 _ _ _] & J5 & C5);
    [done|exists active; by apply (view_active t4 L4 x _ V4)|].
  rewrite E5. run. rewrite C4 in C5. injection C5 as C5 C6. exists t5, L5. split_and!; [done|done|done|done| | |exact V5| |].
  - unfold get_sys at 1. rewrite C6. cbn. congruence.
  - unfold view. by rewrite (fresh_not_live t L x W Hf).
  - rewrite <- lookup_fmap, C5. by rewrite lookup_insert_eq.
  - intros y Hy. rewrite O5, O4 by done. done.
Qed.

(** connecter loses sockets. When [connect] fails, or there is no memory for
    a connecter, it reports failure, the event loop is as it was, and one more
    file descriptor is open that nothing refers to. *)
Theorem connecter_leaks stale t type proto addr port c p s y1 a y2 : 
  sk_socket (get_sys t) (Z.lor type SOCK_NONBLOCK) proto = (s, y1) -> 0 <= s ->
  sk_connect y1 s (SockaddrIn PF_INET (net_bytes 2 port) (le_bytes 4 addr)) = (a, y2) ->
  a = ConnectErr \/ a = InProgress /\ (sk_calloc y2).1 = None ->
  exists t', connecter stale t type proto addr port c p = Ret (false, t') /\ t'.1 = t.1 /\ r_io t'.2 = r_io t.2 /\
    s ∉ opened (get_sys t) /\ opened (get_sys t') = {[s]} ∪ opened (get_sys t).
Proof.
  intros Es Hs Ec Ha. pose proof (socket_law _ _ _ _ _ Es) as Eo. rewrite (proj2 (Z.ltb_ge _ _) Hs) in Eo. destruct Eo as [Hnew Eo].
  pose proof (connect_law y1 s (SockaddrIn PF_INET (net_bytes 2 port) (le_bytes 4 addr))) as O2. rewrite Ec in O2. cbn in O2.
  pose proof (calloc_law y2) as O3. unfold connecter. rewrite Es, (proj2 (Z.ltb_ge _ _) Hs). change (get_sys (put_sys t y1)) with y1. rewrite Ec.
  destruct Ha as [->|[-> Hc]]; run; cbn [negb].
  - eexists. split; [done|]. split_and!; [done|done|done|]. change (opened y2 = {[s]} ∪ opened (get_sys t)). congruence.
  - change (get_sys (put_sys (put_sys t y1) y2)) with y2. destruct (sk_calloc y2) as [o y3]. cbn in Hc, O3. subst o.
    eexists. split; [done|]. split_and!; [done|done|done|]. change (opened y3 = {[s]} ∪ opened (get_sys t)). congruence.
Qed.
End connect.

(** ** Running it

    Under epoll; the owner takes a note of its socket. *)
Abbreviation conn_thread := (iothread (conn_data + unit) unit (one_kernel * script)).

Definition take_socket (c : nat) (t : conn_thread) (fd : Z) (p : nat) : outcome conn_thread :=
  let y := get_sys t in
  Ret (put_sys t (Script (s_opened y) (s_backlog y) (s_callocs y) (s_oks y) (s_connects y) (s_log y ++ [(c, p, fd)]))).

Definition conn_ops (k : conn_data + unit) : nbio_ops (conn_data + unit) unit (one_kernel * script) :=
  match k with inl _ => c_ops (eventloop_epoll 8) take_socket | inr _ => NbioOps None None None end.

Definition conn_start (connects : list (connect_answer + option Z)) (waits : list (option (Z * Z))) : conn_thread :=
  (nodes (heads ++ []), Rest ∅ (priv_epoll 3) (OneKernel ∅ waits, Script {[0]} [] [10%nat] [] connects [])).

Lemma conn_start_ok connects waits : wf (conn_start connects waits) (singles (heads ++ [])) /\ epoll_ok (conn_start connects waits) (singles (heads ++ [])).
Proof. split; [|by split; [exists 3|]]. by apply start_wf. Qed.

Definition get_server (t : conn_thread) : outcome (bool * conn_thread) := connecter (eventloop_epoll 8) take_socket false t 1 6 16777343 80 4 5.

(** A connection is made and the event loop is pumped: the socket becomes writable and is handed over. *)
Definition connected (waits : list (option (Z * Z))) : outcome conn_thread :=
  '(_, t) ← get_server (conn_start [inl InProgress; inr (Some 0)] (Some (3, EPOLLOUT) :: waits));
  t ← nbio_pump (eventloop_epoll 8) conn_ops 8 t (-1);
  nbio_pump (eventloop_epoll 8) conn_ops 8 t (-1).

(** a connecter stays registered after it is freed. Here a connection is
    made under epoll and its socket, descriptor 3, is handed to the owner.
    connect_write has replaced the descriptor's number by -1 before deleting it, so
    that the plugin does not remove the registration: epoll still has the
    address of the connecter for descriptor 3, the connecter has been freed, and
    the next event for the owner's socket makes the plugin follow the pointer. *)
Theorem connecter_dangles r : exists t, connected [Some (3, r)] = Ret t /\ s_log (get_sys t) = [(4%nat, 5%nat, 3)] /\ 3 ∈ s_opened (get_sys t) /\
  k_interest (get_ep t) !! 3 = Some (epoll_events (Nb 3 NBIO_WRITE 0 tt 0), 10%nat) /\ t.1 !! 10%nat = None /\ r_io t.2 !! 10%nat = None /\
  epoll_pump 8 t (-1) = Fault OutOfBounds.
Proof.
  eexists. split; [vm_compute; reflexivity|]. split; [reflexivity|]. split; [by_decide|]. split_and!; vm_compute; reflexivity.
Qed.

Example connecter_waits_witness : exists t' L', get_server (conn_start [inl InProgress] []) = Ret (true, t') /\
  view t' L' 10%nat = Some (Nbio 3 NBIO_WRITE 0 Inactive).
Proof.
  destruct (conn_start_ok [inl InProgress] []) as [W J].
  destruct (connecter_waits (eventloop_epoll 8) take_socket epoll_ok epoll_off false (conn_start [inl InProgress] []) (singles (heads ++ [])) 1 6 16777343 80 4 5
    3 (Script {[0; 3]} [] [10%nat] [] [inl InProgress] []) (Script {[0; 3]} [] [10%nat] [] [] []) 10%nat (Script {[0; 3]} [] [] [] [] []) J W)
    as (t' & L' & E & _ & _ & _ & _ & _ & V & _); [reflexivity|vm_compute; reflexivity|lia|reflexivity|reflexivity|].
  exists t', L'. split; [exact E|exact V].
Defined.

Example connecter_leaks_witness : exists t', get_server (conn_start [inl ConnectErr] []) = Ret (false, t') /\
  opened (get_sys t') = {[3]} ∪ {[0]}.
Proof.
  destruct (connecter_leaks (eventloop_epoll 8) take_socket false (conn_start [inl ConnectErr] []) 1 6 16777343 80 4 5 3
    (Script {[0; 3]} [] [10%nat] [] [inl ConnectErr] []) ConnectErr (Script {[0; 3]} [] [10%nat] [] [] [])) as (t' & E & _ & _ & _ & O);
    [vm_compute; reflexivity|lia|reflexivity|by left|].
  exists t'. split; [exact E|exact O].
Defined.
