(* ===== verification/NbioInotify.v ===== *)
(** * nbio-inotify.c: what happens in directories

    A descriptor of the event loop that reads the events of watched directories
    and calls the owners of the watches, next to descriptors of any other kind
    [D]. Events are parsed from the bytes the kernel gives; reading memory that
    nothing has written is a fault. *)

From S2P Require Import Prelude ListHead Os Nbio NbioLoop NbioPoll NbioEpoll.
Local Open Scope Z_scope.

Definition IN_ACCESS : Z := 0x1.
Definition IN_MODIFY : Z := 0x2.
Definition IN_ATTRIB : Z := 0x4.
Definition IN_CLOSE_WRITE : Z := 0x8.
Definition IN_CLOSE_NOWRITE : Z := 0x10.
Definition IN_OPEN : Z := 0x20.
Definition IN_MOVED_FROM : Z := 0x40.
Definition IN_MOVED_TO : Z := 0x80.
Definition IN_CREATE : Z := 0x100.
Definition IN_DELETE : Z := 0x200.
Definition IN_DELETE_SELF : Z := 0x400.
Definition IN_MOVE_SELF : Z := 0x800.
Definition IN_UNMOUNT : Z := 0x2000.
Definition IN_Q_OVERFLOW : Z := 0x4000.
Definition IN_IGNORED : Z := 0x8000.
Definition IN_ISDIR : Z := 0x40000000.

(** ** [mask2str] *)

Definition mask_names : list (Z * list Z) :=
  [(IN_ACCESS, lit "IN_ACCESS"); (IN_ATTRIB, lit "IN_ATTRIB"); (IN_CLOSE_WRITE, lit "IN_CLOSE_WRITE");
   (IN_CLOSE_NOWRITE, lit "IN_CLOSE_NOWRITE"); (IN_CREATE, lit "IN_CREATE"); (IN_DELETE, lit "IN_DELETE");
   (IN_DELETE_SELF, lit "IN_DELETE_SELF"); (IN_MODIFY, lit "IN_MODIFY"); (IN_MOVE_SELF, lit "IN_MOVE_SELF");
   (IN_MOVED_FROM, lit "IN_MOVED_FROM"); (IN_MOVED_TO, lit "IN_MOVED_TO"); (IN_OPEN, lit "IN_OPEN");
   (IN_IGNORED, lit "IN_IGNORED"); (IN_ISDIR, lit "IN_ISDIR"); (IN_Q_OVERFLOW, lit "IN_Q_OVERFLOW"); (IN_UNMOUNT, lit "IN_UNMOUNT")].

(** [snprintf] at offset [ptr] of the static buffer [buf]: what fits and a
    terminator; the return value is the length of the whole text. *)
Definition put_text (buf : list Z) (ptr : nat) (text : list Z) : list Z :=
  match (length buf - ptr)%nat with
  | O => buf
  | S room => take ptr buf ++ take room text ++ [0] ++ drop (S (ptr + min room (length text))) buf
  end.

Fixpoint mask_loop (names : list (Z * list Z)) (mask : Z) (done : bool) (buf : list Z) (ptr : nat) : list Z * nat :=
  match names with
  | [] => (buf, ptr)
  | (val, name) :: names =>
      if Z.land mask val =? 0 then mask_loop names mask done buf ptr
      else
        let text := (if done then lit ", " else []) ++ name in
        mask_loop names mask true (put_text buf ptr text) (ptr + length text)
  end.

Definition mask2str (buf : list Z) (mask : Z) : list Z * nat := mask_loop mask_names mask false buf 0.

(** ** Watches *)

(** [n_num_watch] entries; a field that nothing has written has no value. A watch
    names its owner and the owner's operations. *)
Record watch := Watch { w_d : option Z; w_priv : option nat; w_ops : option (option nat) }.
Record nbnotify := Nbnotify { n_num_watch : Z; n_watch : list watch }.

Record watch_ops (X : Type) := WatchOps {
  wo_create : option (nat -> option (list Z) -> bool -> X -> outcome X);
  wo_delete : option (nat -> option (list Z) -> bool -> X -> outcome X);
  wo_moved_from : option (nat -> option (list Z) -> bool -> X -> outcome X);
  wo_moved_to : option (nat -> option (list Z) -> bool -> X -> outcome X);
  wo_move_self : option (nat -> X -> outcome X);
  wo_delete_self : option (nat -> X -> outcome X);
  wo_dtor : option (nat -> X -> outcome X)
}.
Arguments WatchOps {X}.
Arguments wo_create {X}.
Arguments wo_delete {X}.
Arguments wo_moved_from {X}.
Arguments wo_moved_to {X}.
Arguments wo_move_self {X}.
Arguments wo_delete_self {X}.
Arguments wo_dtor {X}.

(** What [read] says: bytes, that it would block, or another error. *)
Inductive read_answer := RdBytes (l : list Z) | RdAgain | RdErr.

(** Answers to come: to [read], none left meaning that it would block; to
    [malloc], none left meaning success; to [calloc], [inotify_init1], [realloc] and
    [inotify_add_watch]. And the descriptors closed. *)
Record ino_env := InoEnv {
  i_reads : list read_answer;
  i_mallocs : list bool;
  i_callocs : list nat;
  i_inits : list Z;
  i_closed : list Z
}.

Definition no_watch : watch := Watch None None None.

(** [nbio_inotify_watch_dir], with the watch descriptor the kernel gives and
    whether [realloc] finds memory. *)
Definition nbio_inotify_watch_dir (n : nbnotify) (wd : Z) (realloc_ok : bool) (ops : option nat) (priv : nat) : outcome (bool * nbnotify) :=
  if wd <? 0 then Ret (false, n)
  else
    let grow := n_num_watch n <? uint 32 (wd + 1) in
    if grow && negb realloc_ok then Ret (false, n)
    else
      let i := Z.to_nat wd in
      let n :=
        if grow then
          let l := take (S i) (n_watch n) ++ replicate (S i - length (n_watch n)) no_watch in
          Nbnotify (uint 32 (wd + 1)) (alter (fun w => Watch (Some (-1)) (w_priv w) (w_ops w)) i l)
        else n in
      w ← of_option OutOfBounds (n_watch n !! i);
      d ← of_option OutOfBounds (w_d w);
      if d >=? 0 then Ret (false, n)
      else Ret (true, Nbnotify (n_num_watch n) (<[i := Watch (Some wd) (Some priv) (Some ops)]> (n_watch n))).

Section inotify.
Context {D A Pl X : Type}.
Abbreviation K := (nbnotify + D)%type.
Abbreviation E := (Pl * (ino_env * X))%type.
Abbreviation thread := (iothread K A E).
Context (plugin : eventloop K A E) (ops : nat -> watch_ops X).
Implicit Types (t : thread) (x : nat) (s : ino_env * X).

Definition ino_malloc s : bool * (ino_env * X) :=
  match i_mallocs s.1 with
  | [] => (true, s)
  | ok :: l => (ok, (InoEnv (i_reads s.1) l (i_callocs s.1) (i_inits s.1) (i_closed s.1), s.2))
  end.

Definition call_named (f : option (nat -> option (list Z) -> bool -> X -> outcome X)) (p : option nat) (nstr : option (list Z)) (isdir : bool) (c : X) : outcome X :=
  match f with Some f => p ← of_option OutOfBounds p; f p nstr isdir c | None => Ret c end.

Definition call_self (f : option (nat -> X -> outcome X)) (p : option nat) (c : X) : outcome X :=
  match f with Some f => p ← of_option OutOfBounds p; f p c | None => Ret c end.

(** Which callback an event is for. *)
Definition call_watch (o : watch_ops X) (p : option nat) (mask : Z) (nstr : option (list Z)) (c : X) : outcome X :=
  let isdir := negb (Z.land mask IN_ISDIR =? 0) in
  if negb (Z.land mask IN_IGNORED =? 0) then Ret c
  else if negb (Z.land mask IN_CREATE =? 0) then call_named (wo_create o) p nstr isdir c
  else if negb (Z.land mask IN_DELETE =? 0) then call_named (wo_delete o) p nstr isdir c
  else if negb (Z.land mask IN_MOVED_FROM =? 0) then call_named (wo_moved_from o) p nstr isdir c
  else if negb (Z.land mask IN_MOVED_TO =? 0) then call_named (wo_moved_to o) p nstr isdir c
  else if negb (Z.land mask IN_MOVE_SELF =? 0) then call_self (wo_move_self o) p c
  else if negb (Z.land mask (Z.lor IN_DELETE_SELF IN_UNMOUNT) =? 0) then call_self (wo_delete_self o) p c
  else Ret c.

(** [name] is the memory after the event's header. *)
Definition dispatch (n : nbnotify) (wd mask len : Z) (name : list Z) s : outcome (ino_env * X) :=
  if (wd <? 0) || (n_num_watch n <=? wd) then Ret s
  else
    w ← of_option OutOfBounds (n_watch n !! Z.to_nat wd);
    o ← of_option OutOfBounds (w_ops w);
    match o with
    | None => Ret s
    | Some o =>
        if len =? 0 then c ← call_watch (ops o) (w_priv w) mask None s.2; Ret (s.1, c)
        else
          let '(ok, s) := ino_malloc s in
          if negb ok then Ret s
          else if Z.of_nat (length name) <? len then Fault OutOfBounds
          else
            let nstr := cstr (take (Z.to_nat len) name ++ [0]) in
            c ← call_watch (ops o) (w_priv w) mask (Some nstr) s.2;
            Ret (s.1, c)
    end.

Fixpoint dispatch_all (fuel : nat) (n : nbnotify) (buf : list Z) s : outcome (ino_env * X) :=
  match buf with
  | [] => Ret s
  | _ =>
      match fuel with
      | O => Fault OutOfFuel
      | S fuel =>
          if (length buf <? 16)%nat then Fault OutOfBounds
          else
            let len := le_val (take 4 (drop 12 buf)) in
            s ← dispatch n (sint 32 (le_val (take 4 buf))) (le_val (take 4 (drop 4 buf))) len (drop 16 buf) s;
            dispatch_all fuel n (drop (16 + Z.to_nat len) buf) s
      end
  end.

Definition get_ino t : ino_env * X := snd (r_env t.2).
Definition set_ino t s : thread := (t.1, Rest (r_io t.2) (r_priv t.2) (fst (r_env t.2), s)).

Definition ino_read t : read_answer * thread :=
  let e := fst (get_ino t) in
  match i_reads e with
  | [] => (RdAgain, t)
  | a :: l => (a, set_ino t (InoEnv l (i_mallocs e) (i_callocs e) (i_inits e) (i_closed e), snd (get_ino t)))
  end.

Definition get_notify t x : outcome nbnotify :=
  n ← get_io t x; match nb_ops n with inl n => Ret n | inr _ => Fault OutOfBounds end.

Fixpoint ifd_read (fuel : nat) t x : outcome thread :=
  match fuel with
  | O => Fault OutOfFuel
  | S fuel =>
      n ← get_notify t x;
      let '(a, t) := ino_read t in
      match a with
      | RdAgain => nbio_inactive plugin t x NBIO_READ
      | RdErr | RdBytes [] => Ret t
      | RdBytes buf =>
          s ← dispatch_all (length buf) n buf (get_ino t);
          ifd_read fuel (set_ino t s) x
      end
  end.

Definition ino_close t (fd : Z) : thread :=
  let e := fst (get_ino t) in
  set_ino t (InoEnv (i_reads e) (i_mallocs e) (i_callocs e) (i_inits e) (i_closed e ++ [fd]), snd (get_ino t)).

(** The loop over the watches of [ifd_dtor]. *)
Fixpoint drop_watches (l : list watch) (c : X) : outcome X :=
  match l with
  | [] => Ret c
  | w :: l =>
      d ← of_option OutOfBounds (w_d w);
      if d <? 0 then drop_watches l c
      else
        o ← of_option OutOfBounds (w_ops w);
        c ← match o with Some o => call_self (wo_dtor (ops o)) (w_priv w) c | None => Ret c end;
        drop_watches l c
  end.

Definition ino_free t x : thread :=
  (delete x t.1, Rest (delete x (r_io t.2)) (r_priv t.2) (r_env t.2)).

Definition ifd_dtor t x : outcome thread :=
  io ← get_io t x;
  n ← get_notify t x;
  let t := ino_close t (nb_fd io) in
  c ← drop_watches (take (Z.to_nat (n_num_watch n)) (n_watch n)) (snd (get_ino t));
  Ret (ino_free (set_ino t (fst (get_ino t), c)) x).

Definition ino_ops (fuel : nat) : nbio_ops K A E := NbioOps (Some (ifd_read fuel)) None (Some ifd_dtor).

Definition nbio_inotify_new t : outcome (option nat * thread) :=
  let s := get_ino t in
  match i_callocs s.1 with
  | [] => Ret (None, t)
  | x :: callocs =>
      let '(fd, inits) := match i_inits s.1 with [] => (-1, []) | fd :: l => (fd, l) end in
      let t := set_ino t (InoEnv (i_reads s.1) (i_mallocs s.1) callocs inits (i_closed s.1), s.2) in
      let t : thread := (<[x := (0, 0)%nat]> t.1, Rest (<[x := Nb fd 0 0 (inl (Nbnotify 0 [])) 0]> (r_io t.2)) (r_priv t.2) (r_env t.2)) in
      if fd <? 0 then Ret (None, ino_free t x)
      else
        t ← nbio_add plugin t x NBIO_READ;
        Ret (Some x, t)
  end.

Definition nbio_notify_free t (x : option nat) : outcome thread :=
  match x with Some x => nbio_del plugin t x | None => Ret t end.

(** ** What the kernel reports

    Something that happens in a watched directory, as inotify(7) says it is
    encoded: a header, and the name padded with zeros. *)
Inductive happening :=
| Created (name : list Z) (isdir : bool)
| Deleted (name : list Z) (isdir : bool)
| MovedFrom (name : list Z) (isdir : bool)
| MovedTo (name : list Z) (isdir : bool)
| SelfMoved
| SelfDeleted
| Unmounted
| Ignored.

Definition happening_mask (h : happening) : Z :=
  match h with
  | Created _ isdir => IN_CREATE + (if isdir then IN_ISDIR else 0)
  | Deleted _ isdir => IN_DELETE + (if isdir then IN_ISDIR else 0)
  | MovedFrom _ isdir => IN_MOVED_FROM + (if isdir then IN_ISDIR else 0)
  | MovedTo _ isdir => IN_MOVED_TO + (if isdir then IN_ISDIR else 0)
  | SelfMoved => IN_MOVE_SELF
  | SelfDeleted => IN_DELETE_SELF
  | Unmounted => IN_UNMOUNT
  | Ignored => IN_IGNORED
  end.

Definition happening_name (h : happening) : option (list Z) :=
  match h with
  | Created name _ | Deleted name _ | MovedFrom name _ | MovedTo name _ => Some name
  | _ => None
  end.

(** An event: the watch, the cookie, the number of zeros more than one after the name. *)
Record event := Event { ev_wd : Z; ev_cookie : Z; ev_pad : nat; ev_what : happening }.

Definition padded (ev : event) : list Z :=
  match happening_name (ev_what ev) with Some name => name ++ replicate (S (ev_pad ev)) 0 | None => [] end.

Definition encode_event (ev : event) : list Z :=
  le_bytes 4 (ev_wd ev) ++ le_bytes 4 (happening_mask (ev_what ev)) ++ le_bytes 4 (ev_cookie ev) ++ le_bytes 4 (Z.of_nat (length (padded ev))) ++ padded ev.

Definition encode_events (evs : list event) : list Z := concat (encode_event <$> evs).

(** What the owner of a watch is told. *)
Definition told (o : watch_ops X) (p : nat) (h : happening) (c : X) : outcome X :=
  match h with
  | Created name isdir => call_named (wo_create o) (Some p) (Some name) isdir c
  | Deleted name isdir => call_named (wo_delete o) (Some p) (Some name) isdir c
  | MovedFrom name isdir => call_named (wo_moved_from o) (Some p) (Some name) isdir c
  | MovedTo name isdir => call_named (wo_moved_to o) (Some p) (Some name) isdir c
  | SelfMoved => call_self (wo_move_self o) (Some p) c
  | SelfDeleted | Unmounted => call_self (wo_delete_self o) (Some p) c
  | Ignored => Ret c
  end.

(** The watch [wd] belongs to the owner [p] with the operations [o]. *)
Definition watches (n : nbnotify) (wd : Z) (p o : nat) : Prop :=
  0 <= wd < n_num_watch n /\ exists d, n_watch n !! Z.to_nat wd = Some (Watch d (Some p) (Some (Some o))).

Inductive tell (n : nbnotify) : list event -> X -> X -> Prop :=
| tell_nil c : tell n [] c c
| tell_cons ev evs p o c c1 c2 : watches n (ev_wd ev) p o -> told (ops o) p (ev_what ev) c = Ret c1 -> tell n evs c1 c2 -> tell n (ev :: evs) c c2.

Definition event_ok (ev : event) : Prop :=
  0 <= ev_wd ev < 2 ^ 31 /\ Z.of_nat (length (padded ev)) < 2 ^ 32 /\
  match happening_name (ev_what ev) with Some name => Forall (fun b => b <> 0) name | None => True end.

(** ** Lemmas *)

Lemma cstr_name name k rest : Forall (fun b => b <> 0) name -> cstr (name ++ replicate (S k) 0 ++ rest) = name.
Proof.
  induction 1 as [|b name Hb _ IH]; [done|]. cbn [app cstr]. rewrite (proj2 (Z.eqb_neq _ _) Hb). f_equal. exact IH.
Qed.

Lemma mask_range h : 0 <= happening_mask h < 2 ^ 32.
Proof. destruct h as [? []|? []|? []|? []| | | |]; by vm_compute. Qed.

Lemma call_told o p h c : call_watch o (Some p) (happening_mask h) (happening_name h) c = told o p h c.
Proof. destruct h as [? []|? []|? []|? []| | | |]; reflexivity. Qed.

Lemma dispatch_told n ev p o s c rest : event_ok ev -> watches n (ev_wd ev) p o -> i_mallocs s.1 = [] -> told (ops o) p (ev_what ev) s.2 = Ret c ->
  dispatch n (ev_wd ev) (happening_mask (ev_what ev)) (Z.of_nat (length (padded ev))) (padded ev ++ rest) s = Ret (s.1, c).
Proof.
  intros (_ & _ & Hname) ([Hw0 Hw1] & d & Hw) Hm Ht. unfold dispatch. rewrite (proj2 (Z.ltb_ge _ _) Hw0), (proj2 (Z.leb_gt _ _) Hw1). cbn [orb].
  rewrite Hw. run. cbn [w_ops]. run. cbn [w_priv]. rewrite <- (call_told (ops o) p (ev_what ev)) in Ht. unfold padded.
  destruct (happening_name (ev_what ev)) as [name|] eqn:Hn; [|cbn [length Z.of_nat Z.eqb]; by rewrite Ht].
  set (l := name ++ replicate (S (ev_pad ev)) 0). assert (length l = length name + S (ev_pad ev))%nat as Hl by (unfold l; by rewrite length_app, length_replicate).
  destruct (Z.eqb_spec (Z.of_nat (length l)) 0) as [E0|_]; [lia|]. unfold ino_malloc. rewrite Hm. cbn [negb].
  destruct (Z.ltb_spec (Z.of_nat (length (l ++ rest))) (Z.of_nat (length l))) as [E0|_]; [rewrite length_app in E0; lia|].
  rewrite Nat2Z.id, take_app_length. unfold l. rewrite <- app_assoc, cstr_name by done. by rewrite Ht.
Qed.

(** The header of an event. *)
Lemma header_fields (a b c d : Z) rest : 0 <= a < 2 ^ 31 -> 0 <= b < 2 ^ 32 -> 0 <= d < 2 ^ 32 ->
  let buf := le_bytes 4 a ++ le_bytes 4 b ++ le_bytes 4 c ++ le_bytes 4 d ++ rest in
  sint 32 (le_val (take 4 buf)) = a /\ le_val (take 4 (drop 4 buf)) = b /\ le_val (take 4 (drop 12 buf)) = d /\ drop 16 buf = rest /\ (16 <= length buf)%nat.
Proof.
  intros Ha Hb Hd buf. pose proof (length_le_bytes 4) as Hl.
  assert (forall z l, take 4 (le_bytes 4 z ++ l) = le_bytes 4 z) as Ht by (intros z l; by rewrite take_app_le, take_ge by (rewrite Hl; lia)).
  assert (forall z l k, drop (4 + k) (le_bytes 4 z ++ l) = drop k l) as Hdr by (intros z l k; rewrite drop_app_ge by (rewrite Hl; lia); f_equal; rewrite Hl; lia).
  unfold buf. split_and!.
  - rewrite Ht, le_bytes_val by lia. apply sint_small; lia.
  - rewrite (Hdr _ _ 0%nat), drop_0, Ht. apply le_bytes_val. lia.
  - rewrite (Hdr _ _ 8%nat), (Hdr _ _ 4%nat), (Hdr _ _ 0%nat), drop_0, Ht. apply le_bytes_val. lia.
  - by rewrite (Hdr _ _ 12%nat), (Hdr _ _ 8%nat), (Hdr _ _ 4%nat), (Hdr _ _ 0%nat), drop_0.
  - rewrite !length_app, !Hl. lia.
Qed.

Lemma dispatch_all_told evs : forall fuel n s c, Forall event_ok evs -> i_mallocs s.1 = [] -> tell n evs s.2 c -> (length (encode_events evs) <= fuel)%nat ->
  dispatch_all fuel n (encode_events evs) s = Ret (s.1, c).
Proof.
  induction evs as [|ev evs IH]; intros fuel n s c Hok Hm Ht Hf; inversion Ht as [|? ? p o ? c1 ? Hw H1 H2]; subst; [by destruct s, fuel|].
  apply Forall_cons in Hok as [He Hok]. change (encode_events (ev :: evs)) with (encode_event ev ++ encode_events evs) in *.
  pose proof He as (Hwd & Hlen & _). destruct (header_fields (ev_wd ev) (happening_mask (ev_what ev)) (ev_cookie ev) (Z.of_nat (length (padded ev)))
    (padded ev ++ encode_events evs) Hwd (mask_range _) ltac:(lia)) as (F1 & F2 & F3 & F4 & F5).
  assert (encode_event ev ++ encode_events evs = le_bytes 4 (ev_wd ev) ++ le_bytes 4 (happening_mask (ev_what ev)) ++ le_bytes 4 (ev_cookie ev) ++
    le_bytes 4 (Z.of_nat (length (padded ev))) ++ padded ev ++ encode_events evs) as Eb by (unfold encode_event; by rewrite <- !app_assoc).
  rewrite Eb in Hf |- *. set (buf := le_bytes 4 (ev_wd ev) ++ _) in *. assert (exists b l, buf = b :: l) as (b & l & Hb) by (destruct buf; [cbn in F5; lia|by eexists _, _]).
  destruct fuel as [|fuel]; [lia|]. unfold dispatch_all. rewrite Hb. fold dispatch_all. rewrite <- Hb.
  destruct (Nat.ltb_spec (length buf) 16) as [|_]; [lia|]. rewrite F1, F2, F3, F4, Nat2Z.id.
  rewrite (dispatch_told n ev p o s c1) by done. run. rewrite <- drop_drop, F4, drop_app_length.
  apply (IH fuel n (s.1, c1) c); [done|done|done|]. assert (length (drop 16 buf) = length (padded ev ++ encode_events evs)) as Hd by (by rewrite F4).
  rewrite length_drop, length_app in Hd. lia.
Qed.

Context (J : thread -> lists -> Prop) (off : nb K -> Prop) `{!Plugin plugin J off}.

Lemma ino_frame t (L : lists) s : J t L -> J (set_ino t s) L.
Proof. intros HJ. apply (pl_frame t L); [done|done|]. intros q z n Hz _. by left. Qed.

Lemma ino_idle t L x n fd f : J t L -> wf t L -> view t L x = Some (Nbio fd NBIO_READ f Active) ->
  exists t' L', nbio_inactive plugin t x NBIO_READ = Ret t' /\ J t' L' /\ wf t' L' /\ get_ino t' = get_ino t /\
    (get_notify t x = Ret n -> get_notify t' x = Ret n) /\
    view t' L' x = Some (Nbio fd NBIO_READ (Z.land f (uint 8 (Z.lnot NBIO_READ))) Inactive) /\ forall y, y <> x -> view t' L' y = view t L y.
Proof.
  intros HJ W V. assert (exists q, on L q x) as Hq by (exists active; by apply (view_active t L x _ V)).
  destruct (inactive_ok plugin J off t L x _ NBIO_READ HJ W V ltac:(done) Hq) as (t' & L' & E & [W' V' _ O _ _ _] & J' & C).
  unfold Nbio.nbio_inactive in V'. cbn [n_mask n_flags n_fd n_list] in V'.
  assert (Z.land NBIO_READ (Z.land f (uint 8 (Z.lnot NBIO_READ))) = 0) as E0 by (rewrite (Z.land_comm f), Z.land_assoc; done).
  rewrite E0 in V'. cbn in V'. injection C as C1 C2. exists t', L'. split_and!; [done|done|done|exact C2| |done|done].
  intros Hn. unfold get_notify in *. apply view_of in V as (m & Hm & _). apply view_of in V' as (m' & Hm' & _).
  rewrite (get_io_ok t x m Hm) in Hn. rewrite (get_io_ok t' x m' Hm'). run_in Hn. run.
  apply (f_equal (fun g => g !! x)) in C1. rewrite !lookup_fmap, Hm, Hm' in C1. injection C1 as ->. exact Hn.
Qed.

Lemma ifd_read_run fuel t L x n fd f batches c : J t L -> wf t L -> view t L x = Some (Nbio fd NBIO_READ f Active) -> get_notify t x = Ret n ->
  i_reads (get_ino t).1 = (fun evs => RdBytes (encode_events evs)) <$> batches -> i_mallocs (get_ino t).1 = [] ->
  Forall (Forall event_ok) batches -> Forall (fun evs => evs <> []) batches -> tell n (concat batches) (get_ino t).2 c -> (length batches < fuel)%nat ->
  exists t' L' f', ifd_read fuel t x = Ret t' /\ J t' L' /\ wf t' L' /\ (get_ino t').2 = c /\ i_reads (get_ino t').1 = [] /\
    get_notify t' x = Ret n /\ view t' L' x = Some (Nbio fd NBIO_READ f' Inactive) /\ forall y, y <> x -> view t' L' y = view t L y.
Proof.
  revert fuel t. induction batches as [|evs batches IH]; intros [|fuel] t HJ W V Hn Hr Hm Hok Hne Ht Hf; try (cbn in Hf; lia).
  - cbn [concat] in Ht. inversion Ht. subst c. cbn [ifd_read]. rewrite Hn. run. unfold ino_read. rewrite Hr. cbn [fmap list_fmap].
    destruct (ino_idle t L x n fd f HJ W V) as (t' & L' & E & J' & W' & S & N & V' & O). eexists t', L', _.
    split_and!; [done|done|done|by rewrite S|by rewrite S|by apply N|exact V'|done].
  - apply Forall_cons in Hok as [Hev Hok]. apply Forall_cons in Hne as [Hne1 Hne]. cbn [concat] in Ht.
    assert (exists c1, tell n evs (get_ino t).2 c1 /\ tell n (concat batches) c1 c) as (c1 & T1 & T2).
    { clear -Ht. revert Ht. generalize (get_ino t).2. induction evs as [|ev evs IHe]; intros c0 Ht; [exists c0; by split; [constructor|]|].
      inversion Ht as [|? ? p o ? c1 ? Hw H1 H2]; subst. destruct (IHe _ H2) as (c2 & T1 & T2). exists c2. split; [by econstructor|done]. }
    cbn [ifd_read]. rewrite Hn. run. unfold ino_read. rewrite Hr. cbn [fmap list_fmap].
    set (s1 := (_, (get_ino t).2) : ino_env * X). change (get_ino (set_ino t s1)) with s1.
    assert (exists b l, encode_events evs = b :: l) as (b & l & Hb).
    { destruct evs as [|ev evs]; [done|]. unfold encode_events, encode_event. by eexists _, _. }
    rewrite Hb. rewrite <- Hb. rewrite (dispatch_all_told evs _ n s1 c1 Hev Hm T1) by done. run.
    destruct (IH fuel (set_ino (set_ino t s1) (s1.1, c1))) as (t' & L' & f' & H); [by apply ino_frame, ino_frame|by apply (quiet_wf t)|done|done|done|exact Hm|done|done|exact T2|cbn in Hf; lia|].
    exists t', L', f'. destruct H as (H1 & H2 & H3 & H4 & H5 & H6 & H7 & H8). split_and!; try done.
Qed.

(** C34: what happens in a watched directory is told to its owner. Whatever the
    kernel packs of a sequence of events, in however many reads, the read callback
    unpacks it: each owner's callback for the event is called, in order, with the
    name that was reported and whether it is a directory; no memory is read that
    the kernel has not written; then the descriptor is idle until there is more
    and the other descriptors are as they were. *)
Theorem ifd_read_tells fuel t L x n fd f batches c : J t L -> wf t L -> view t L x = Some (Nbio fd NBIO_READ f Active) -> get_notify t x = Ret n ->
  i_reads (get_ino t).1 = (fun evs => RdBytes (encode_events evs)) <$> batches -> i_mallocs (get_ino t).1 = [] ->
  Forall (Forall event_ok) batches -> Forall (fun evs => evs <> []) batches -> tell n (concat batches) (get_ino t).2 c -> (length batches < fuel)%nat ->
  exists t' L' f', ifd_read fuel t x = Ret t' /\ J t' L' /\ wf t' L' /\ (get_ino t').2 = c /\ i_reads (get_ino t').1 = [] /\
    get_notify t' x = Ret n /\ view t' L' x = Some (Nbio fd NBIO_READ f' Inactive) /\ forall y, y <> x -> view t' L' y = view t L y.
Proof. apply ifd_read_run. Qed.
End inotify.

(** ** Adding watches *)

(** The table of a descriptor whose watches so far are those of [m]: the kernel
    numbers watches from 1, one after the other. *)
Definition table_ok (n : nbnotify) : Prop := n_num_watch n = Z.of_nat (length (n_watch n)) /\ n_num_watch n <= 2 ^ 31.

(** a watch that is added is the owner's. When the kernel gives a new watch
    descriptor and there is memory, adding the watch succeeds, from then on events
    for it are told to its owner, and those of the other watches to theirs as
    before; when the kernel or [realloc] fails, nothing changes. *)
Theorem watch_dir_adds n wd ok o p : table_ok n -> wd < 2 ^ 31 - 1 -> wd < 0 \/ n_num_watch n <= wd ->
  exists n', nbio_inotify_watch_dir n wd ok (Some o) p = Ret (bool_decide (0 <= wd) && ok, n') /\
    if bool_decide (0 <= wd) && ok then
      table_ok n' /\ watches n' wd p o /\ forall wd' p' o', wd' <> wd -> watches n' wd' p' o' <-> watches n wd' p' o'
    else n' = n.
Proof.
  intros [Hl Hm] Hwd Hnew. unfold nbio_inotify_watch_dir. destruct (Z.ltb_spec wd 0) as [H0|H0].
  { rewrite bool_decide_eq_false_2 by lia. by exists n. }
  destruct Hnew as [|Hnew]; [lia|]. rewrite bool_decide_eq_true_2 by done. rewrite (uint_small 32 (wd + 1)) by lia. destruct (Z.ltb_spec (n_num_watch n) (wd + 1)) as [_|]; [|lia].
  destruct ok; cbn [andb negb]; [|by exists n]. set (i := Z.to_nat wd). set (l := take (S i) (n_watch n) ++ replicate (S i - length (n_watch n)) no_watch).
  assert (length l = S i) as Hll by (unfold l; rewrite length_app, length_take, length_replicate; lia).
  assert (forall j, (j < length (n_watch n))%nat -> l !! j = n_watch n !! j) as Hold.
  { intros j Hj. unfold l. rewrite lookup_app_l by (rewrite length_take; lia). by rewrite lookup_take_lt by lia. }
  assert (forall j, (length (n_watch n) <= j < S i)%nat -> l !! j = Some no_watch) as Hfill.
  { intros j Hj. unfold l. rewrite take_ge by lia. rewrite lookup_app_r by lia. apply lookup_replicate. split; [done|lia]. }
  cbn [n_watch]. rewrite list_lookup_alter_eq, (Hfill i) by lia. cbn [fmap option_fmap option_map]. run. cbn [w_d]. run.
  change (-1 >=? 0) with false. eexists. split; [done|]. cbn [n_watch n_num_watch]. split_and!.
  - unfold table_ok. cbn [n_watch n_num_watch]. rewrite length_insert, length_alter, Hll. lia.
  - split; [cbn; lia|]. exists (Some wd). cbn. rewrite list_lookup_insert_eq; [done|]. rewrite length_alter, Hll. lia.
  - intros wd' p' o' Hne. unfold watches. cbn [n_watch n_num_watch].
    assert (0 <= wd' -> Z.to_nat wd' <> i) as Hi by lia. split; intros ([H1 H2] & d & Hd).
    + rewrite list_lookup_insert_ne, list_lookup_alter_ne in Hd by (intros E; by apply (Hi H1)).
      destruct (decide (Z.to_nat wd' < length (n_watch n))%nat) as [Hlt|Hge].
      * rewrite Hold in Hd by done. split; [lia|by exists d].
      * rewrite Hfill in Hd by lia. done.
    + split; [lia|]. exists d. rewrite list_lookup_insert_ne, list_lookup_alter_ne by (intros E; by apply (Hi H1)). rewrite Hold by lia. done.
Qed.

(** a watched directory cannot be given up. The first watch the kernel gives
    is not number 0, and realloc does not clear the entries before it; the
    destructor then reads an entry that nothing has written, and takes
    what it finds there for a watch. *)
Theorem watch_gap_uninitialised {D A Pl X} (ops : nat -> watch_ops X) (t : iothread (nbnotify + D) A (Pl * (ino_env * X))) x wd o p n :
  0 < wd < 2 ^ 31 - 1 -> nbio_inotify_watch_dir (Nbnotify 0 []) wd true (Some o) p = Ret (true, n) -> get_notify t x = Ret n ->
  ifd_dtor ops t x = Fault OutOfBounds.
Proof.
  intros Hwd H Hn. unfold nbio_inotify_watch_dir in H. cbn [n_num_watch n_watch length] in H. rewrite (proj2 (Z.ltb_ge wd 0)) in H by lia.
  rewrite (uint_small 32 (wd + 1)) in H by lia. rewrite (proj2 (Z.ltb_lt 0 (wd + 1))) in H by lia. cbn [andb negb] in H.
  destruct (Z.to_nat wd) as [|i] eqn:Ei; [lia|]. cbn [take app n_watch n_num_watch] in H. rewrite Nat.sub_0_r, list_lookup_alter_eq in H.
  rewrite (proj2 (lookup_replicate (S (S i)) no_watch no_watch (S i))) in H by (split; [done|lia]). cbn [fmap option_fmap option_map] in H. run_in H. cbn [w_d] in H. run_in H.
  injection H as <-. unfold ifd_dtor. destruct (get_io t x) as [io|f] eqn:Eio; [|unfold get_notify in Hn; by rewrite Eio in Hn]. run. rewrite Hn. run.
  cbn [n_num_watch n_watch]. rewrite Z2Nat.inj_add, Ei by lia. done.
Qed.

(** ** mask2str *)

Fixpoint mask_text (names : list (Z * list Z)) (mask : Z) (done : bool) : list Z :=
  match names with
  | [] => []
  | (val, name) :: names =>
      if Z.land mask val =? 0 then mask_text names mask done
      else (if done then lit ", " else []) ++ name ++ mask_text names mask true
  end.

Definition room_for (names : list (Z * list Z)) : nat := sum_list ((fun vn : Z * list Z => length vn.2 + 2)%nat <$> names).

Lemma length_mask_text names mask : forall done, (length (mask_text names mask done) <= room_for names)%nat.
Proof.
  induction names as [|[val name] names IH]; intros done; [cbn; lia|]. unfold room_for in *. cbn [mask_text fmap list_fmap sum_list sum_list_with snd].
  destruct (Z.land mask val =? 0); [specialize (IH done); cbn in *; lia|]. rewrite !length_app. specialize (IH true). destruct done; cbn in *; lia.
Qed.

Lemma mask_loop_text names mask : Forall (fun vn => snd vn <> []) names -> forall done acc rest, (room_for names < length rest)%nat ->
  mask_loop names mask done (acc ++ rest) (length acc) =
    (match mask_text names mask done with [] => acc ++ rest | text => acc ++ text ++ [0] ++ drop (S (length text)) rest end,
     (length acc + length (mask_text names mask done))%nat).
Proof.
  induction 1 as [|[val name] names Hname _ IH]; intros done acc rest Hr; [cbn; by rewrite Nat.add_0_r|].
  assert (room_for ((val, name) :: names) = length name + 2 + room_for names)%nat as Hroom by done. rewrite Hroom in Hr.
  cbn [mask_loop mask_text]. destruct (Z.land mask val =? 0); [apply IH; lia|].
  set (text := (if done then lit ", " else []) ++ name). assert (length text <= length name + 2)%nat as Ht by (unfold text; rewrite length_app; destruct done; cbn; lia).
  assert (put_text (acc ++ rest) (length acc) text = (acc ++ text) ++ [0] ++ drop (S (length text)) rest) as ->.
  { unfold put_text. rewrite length_app. destruct (length acc + length rest - length acc)%nat as [|room] eqn:E; [lia|].
    rewrite take_app_length, take_ge by lia. rewrite Nat.min_r by lia. rewrite <- app_assoc. do 3 f_equal.
    rewrite drop_app_ge by lia. f_equal. lia. }
  rewrite <- length_app. rewrite IH by (cbn [length app]; rewrite length_drop; lia).
  assert ((if done then lit ", " else []) ++ name ++ mask_text names mask true = text ++ mask_text names mask true) as -> by (unfold text; by rewrite <- app_assoc).
  assert (text <> []) as Hne by (unfold text; intros [_ E]%app_eq_nil; done).
  f_equal; [|rewrite !length_app; lia]. destruct text as [|c l]; [done|]. cbn [app]. destruct (mask_text names mask true) as [|c' l'].
  - rewrite app_nil_r. by rewrite <- !app_assoc.
  - rewrite <- !app_assoc. cbn [app length]. do 6 f_equal. cbn [drop]. rewrite drop_drop, length_app. cbn [length]. f_equal.
Qed.

(** mask2str never runs out of its buffer: every mask's names fit,
    separated by commas. The empty mask leaves what was there. *)
Theorem mask2str_text buf mask : length buf = 256%nat ->
  mask2str buf mask = (match mask_text mask_names mask false with [] => buf | text => text ++ [0] ++ drop (S (length text)) buf end,
    length (mask_text mask_names mask false)) /\ (length (mask_text mask_names mask false) <= 205)%nat.
Proof.
  intros Hl. pose proof (length_mask_text mask_names mask false) as H. assert (room_for mask_names = 205)%nat as Hr by (vm_compute; reflexivity).
  rewrite Hr in H. split; [|done]. unfold mask2str. refine (mask_loop_text mask_names mask _ false [] buf _); [by repeat constructor|]. rewrite Hr, Hl. lia.
Qed.

(** ** Running it

    Under epoll; the owner notes the names created and deleted. *)
Abbreviation dir_thread X := (iothread (nbnotify + unit) unit (one_kernel * (ino_env * X))).

Definition note_ops (_ : nat) : watch_ops (list (list Z)) :=
  let note sign _ name (_ : bool) c := Ret (c ++ [sign ++ default [] name]) in
  WatchOps (Some (note (lit "+"))) (Some (note (lit "-"))) None None None None None.

Definition dir_start {X} (c : X) (reads : list read_answer) : dir_thread X :=
  (nodes (heads ++ []), Rest ∅ (priv_epoll 3) (OneKernel ∅ [], (InoEnv reads [] [10%nat] [5] [], c))).

Definition some_batches : list (list event) :=
  [[Event 1 0 2 (Created (lit "a") false); Event 1 0 0 (Deleted (lit "bc") true)]; [Event 1 0 5 (Created (lit "d") false); Event 1 0 0 SelfMoved]].

Lemma dir_ready {X} (c : X) (n : nbnotify) reads : exists (t : dir_thread X) L,
  nbio_add (eventloop_epoll 8) (with_io (set_ino (dir_start c reads) (InoEnv reads [] [] [] [], c)) 10%nat (Nb 5 0 0 (inl n) 0) (<[10%nat := (0, 0)%nat]> (dir_start c reads).1)) 10%nat NBIO_READ = Ret t /\
  epoll_ok t L /\ wf t L /\ view t L 10%nat = Some (Nbio 5 NBIO_READ NBIO_READ Active) /\ get_notify t 10%nat = Ret n /\ get_ino t = (InoEnv reads [] [] [] [], c).
Proof.
  assert (wf (dir_start c reads) (singles (heads ++ []))) as W by (by apply start_wf).
  assert (epoll_ok (dir_start c reads) (singles (heads ++ []))) as J by (by split; [exists 3|]).
  set (t0 := set_ino (dir_start c reads) (InoEnv reads [] [] [] [], c)).
  assert (room t0 10%nat (<[10%nat := (0, 0)%nat]> (dir_start c reads).1)) as R.
  { split; [by rewrite lookup_insert_eq|]. intros a Ha. by rewrite lookup_insert_ne. }
  destruct (add_ok (eventloop_epoll 8) epoll_ok epoll_off t0 (singles (heads ++ [])) 10%nat (Nb 5 0 0 (inl n) 0) (<[10%nat := (0, 0)%nat]> (dir_start c reads).1) NBIO_READ
    (ino_frame (eventloop_epoll 8) epoll_ok epoll_off _ _ _ J) (quiet_wf (dir_start c reads) t0 _ ltac:(done) W)) as (t & L & E & W' & J' & V & _ & C);
    [apply (fresh_none (nodes (heads ++ []))); [apply nodes_repr|by vm_compute]|exact R|done|done|].
  exists t, L. injection C as C1 C2. split_and!; [exact E|done|done|exact V| |exact C2].
  apply view_of in V as (m & Hm & _). unfold get_notify. rewrite (get_io_ok t 10%nat m Hm). run.
  apply (f_equal (fun g => g !! 10%nat)) in C1. rewrite lookup_fmap, lookup_insert_eq, Hm in C1. by injection C1 as ->.
Qed.

Example ifd_read_tells_witness : exists (t t' : dir_thread (list (list Z))) (n : nbnotify) (L' : lists) (f : Z),
  nbio_inotify_watch_dir (Nbnotify 0 []) 1 true (Some 0%nat) 7 = Ret (true, n) /\ get_notify t 10%nat = Ret n /\
  ifd_read (eventloop_epoll 8) note_ops 3 t 10%nat = Ret t' /\ snd (get_ino t') = [lit "+a"; lit "-bc"; lit "+d"] /\
  view t' L' 10%nat = Some (Nbio 5 NBIO_READ f Inactive).
Proof.
  set (n := Nbnotify 2 [no_watch; Watch (Some 1) (Some 7%nat) (Some (Some 0%nat))]).
  destruct (dir_ready ([] : list (list Z)) n ((fun evs => RdBytes (encode_events evs)) <$> some_batches)) as (t & L & E & J & W & V & Hn & Hs).
  assert (watches n 1 7 0) as Hw by (split; [cbn; lia|by exists (Some 1)]).
  destruct (ifd_read_tells (eventloop_epoll 8) note_ops epoll_ok epoll_off 3 t L 10%nat n 5 NBIO_READ some_batches [lit "+a"; lit "-bc"; lit "+d"] J W V Hn)
    as (t' & L' & f & E' & _ & _ & Hc & _ & _ & V' & _).
  - by rewrite Hs.
  - by rewrite Hs.
  - repeat constructor; cbn; by first [lia|done].
  - by repeat constructor.
  - rewrite Hs. cbn [snd some_batches concat app]. by repeat (econstructor; [exact Hw|reflexivity|]); constructor.
  - cbn. lia.
  - exists t, t', n, L', f. split; [reflexivity|]. split; [exact Hn|]. split; [exact E'|]. split; [exact Hc|exact V'].
Defined.

Example watch_dir_adds_witness : exists n', nbio_inotify_watch_dir (Nbnotify 0 []) 1 true (Some 3%nat) 7 = Ret (true, n') /\ watches n' 1 7 3.
Proof.
  destruct (watch_dir_adds (Nbnotify 0 []) 1 true 3 7) as (n' & E & _ & Hw & _); [by split|lia|right; cbn; lia|].
  exists n'. split; [exact E|exact Hw].
Defined.

Example watch_gap_uninitialised_witness : exists n, nbio_inotify_watch_dir (Nbnotify 0 []) 1 true (Some 0%nat) 7 = Ret (true, n) /\
  forall (t : dir_thread (list (list Z))), get_notify t 10%nat = Ret n -> ifd_dtor note_ops t 10%nat = Fault OutOfBounds.
Proof.
  eexists. split; [reflexivity|]. intros t Hn. refine (watch_gap_uninitialised note_ops t 10%nat 1 0 7 _ _ eq_refl Hn). lia.
Defined.
