(* ===== verification/VhostsWatch.v ===== *)
(** * From directory events to the table of virtual hosts

    The descriptor that [vhosts_new] watches its directory with calls the
    operations of the table; whatever bytes the kernel gives, the table follows
    the directory. *)

From S2P Require Import Prelude Vhosts ListHead Nbio NbioLoop NbioPoll NbioEpoll NbioInotify.
Local Open Scope Z_scope.

(** The table, the webroots, and what opening each file that is added will
    say. *)
Abbreviation hosts := (vhosts_t * Vhosts.heap * list add_env)%type.

Definition run_event (ev : watch_event) (c : hosts) (envs : list add_env) : outcome hosts :=
  '(v, hp) ← vhost_ops c.1.1 c.1.2 ev; Ret (v, hp, envs).

Definition host_add (moved : bool) (p : nat) (name : option (list Z)) (isdir : bool) (c : hosts) : outcome hosts :=
  name ← of_option OutOfBounds name;
  match c.2 with
  | [] => Fault Blocked
  | e :: envs => run_event (if moved then ev_moved_to e name isdir else ev_create e name isdir) c envs
  end.

Definition host_del (moved : bool) (p : nat) (name : option (list Z)) (isdir : bool) (c : hosts) : outcome hosts :=
  name ← of_option OutOfBounds name;
  run_event (if moved then ev_moved_from name isdir else ev_delete name isdir) c c.2.

Definition host_quit (ev : watch_event) (p : nat) (c : hosts) : outcome hosts := run_event ev c c.2.

(** The operations of the watch, [vhost_ops] of the code. *)
Definition host_ops (_ : nat) : watch_ops hosts :=
  WatchOps (Some (host_add false)) (Some (host_del false)) (Some (host_del true)) (Some (host_add true))
    (Some (host_quit ev_move_self)) (Some (host_quit ev_delete_self)) None.

(** ** What happens, as the table sees it *)

Definition host_event (h : happening) (envs : list add_env) : option (option watch_event * list add_env) :=
  match h, envs with
  | Created name isdir, e :: envs => Some (Some (ev_create e name isdir), envs)
  | MovedTo name isdir, e :: envs => Some (Some (ev_moved_to e name isdir), envs)
  | Created _ _, [] | MovedTo _ _, [] => None
  | Deleted name isdir, _ => Some (Some (ev_delete name isdir), envs)
  | MovedFrom name isdir, _ => Some (Some (ev_moved_from name isdir), envs)
  | SelfMoved, _ => Some (Some ev_move_self, envs)
  | SelfDeleted, _ | Unmounted, _ => Some (Some ev_delete_self, envs)
  | Ignored, _ => Some (None, envs)
  end.

Definition step_ok (v : vhosts_t) (hp : Vhosts.heap) (ext : list nat) (ev : option watch_event) : Prop :=
  match ev with Some ev => few (0%nat :: owned v ++ ext) /\ Vhosts.event_ok v hp ev | None => True end.

Definition stepped (v : vhosts_t) (hp : Vhosts.heap) (ev : option watch_event) : outcome (vhosts_t * Vhosts.heap) :=
  match ev with Some ev => vhost_ops v hp ev | None => Ret (v, hp) end.

(** Events that the table can follow, and the table after them. *)
Inductive follows (ext : list nat) : vhosts_t -> Vhosts.heap -> list add_env -> list event -> Prop :=
| follows_nil v hp envs : follows ext v hp envs []
| follows_cons v hp envs ev evs we envs1 : host_event (ev_what ev) envs = Some (we, envs1) -> step_ok v hp ext we ->
    (forall v1 hp1, stepped v hp we = Ret (v1, hp1) -> follows ext v1 hp1 envs1 evs) -> follows ext v hp envs (ev :: evs).

Fixpoint table_after (t : table) (envs : list add_env) (evs : list event) : table :=
  match evs with
  | [] => t
  | ev :: evs =>
      match host_event (ev_what ev) envs with
      | Some (we, envs) => table_after (from_option (table_event t) t we) envs evs
      | None => t
      end
  end.

Lemma told_host p v hp envs h we envs1 v1 hp1 : host_event h envs = Some (we, envs1) -> stepped v hp we = Ret (v1, hp1) ->
  told (host_ops 0%nat) p h (v, hp, envs) = Ret (v1, hp1, envs1).
Proof.
  intros He Hs. destruct h, envs as [|e envs]; try discriminate; injection He as <- <-; cbn [stepped] in Hs;
    unfold told, call_named, call_self, host_ops, wo_create, wo_delete, wo_moved_from, wo_moved_to, wo_move_self, wo_delete_self, host_add, host_del, host_quit, run_event;
    run; cbn [fst snd]; rewrite ?Hs; try done; by injection Hs as <- <-.
Qed.

Lemma step_refines v hp ext ev : vhosts_ok v hp ext -> step_ok v hp ext ev ->
  exists v1 hp1, stepped v hp ev = Ret (v1, hp1) /\ vhosts_ok v1 hp1 ext /\ table_of v1 = from_option (table_event (table_of v)) (table_of v) ev.
Proof.
  intros Hok Hs. destruct ev as [ev|]; cbn in *; [|by exists v, hp]. destruct Hs as [Hf Hev]. by apply event_refines.
Qed.

Lemma table_follows n ext o p evs : forall v hp envs, Forall (fun ev => watches n (ev_wd ev) p o) evs -> vhosts_ok v hp ext -> follows ext v hp envs evs ->
  exists v' hp' envs', tell host_ops n evs (v, hp, envs) (v', hp', envs') /\ vhosts_ok v' hp' ext /\ table_of v' = table_after (table_of v) envs evs.
Proof.
  induction evs as [|ev evs IH]; intros v hp envs Hw Hok Hf; [exists v, hp, envs; split_and!; [constructor|done|done]|].
  apply Forall_cons in Hw as [Hw1 Hw]. inversion Hf as [|? ? ? ? ? we envs1 He Hs Hn]; subst.
  destruct (step_refines v hp ext we Hok Hs) as (v1 & hp1 & E1 & Hok1 & T1).
  destruct (IH v1 hp1 envs1 Hw Hok1 (Hn _ _ E1)) as (v2 & hp2 & envs2 & T2 & Hok2 & E2). exists v2, hp2, envs2. split_and!; [|done|].
  - apply (tell_cons _ _ _ _ p o _ (v1, hp1, envs1)); [done| |done]. by apply (told_host p v hp envs _ we).
  - rewrite E2, T1. cbn [table_after]. by rewrite He.
Qed.

Section watching.
Context {D A Pl : Type}.
Abbreviation K := (nbnotify + D)%type.
Abbreviation thread := (iothread K A (Pl * (ino_env * hosts))).
Context (plugin : eventloop K A (Pl * (ino_env * hosts))) (J : thread -> lists -> Prop) (off : nb K -> Prop) `{!Plugin plugin J off}.

(** C22: the table of virtual hosts follows the directory. When the descriptor that
    watches the directory is ready, and the kernel has for it, in any number of
    reads, events that the table can follow (names are ASCII, only those that are
    served are deleted, and the memory is there: [follows]), one read callback
    leaves the table that those events describe, one after the other: a lookup of any host is the
    lookup in that table, of a webroot that is still open, with every reference
    accounted for; the descriptor is idle and the others are as they were. *)
Theorem vhosts_follow_directory fuel (t : thread) L x n fd f batches v hp ext envs o p : J t L -> wf t L ->
  view t L x = Some (Nbio fd NBIO_READ f Active) -> get_notify t x = Ret n -> Forall (fun ev => watches n (ev_wd ev) p o) (concat batches) ->
  i_reads (get_ino t).1 = (fun evs => RdBytes (encode_events evs)) <$> batches -> i_mallocs (get_ino t).1 = [] -> (get_ino t).2 = (v, hp, envs) ->
  Forall (Forall NbioInotify.event_ok) batches -> Forall (fun evs => evs <> []) batches -> (length batches < fuel)%nat ->
  vhosts_ok v hp ext -> follows ext v hp envs (concat batches) ->
  exists t' L' f' v' hp' envs', ifd_read plugin host_ops fuel t x = Ret t' /\ J t' L' /\ wf t' L' /\ (get_ino t').2 = (v', hp', envs') /\
    vhosts_ok v' hp' ext /\ view t' L' x = Some (Nbio fd NBIO_READ f' Inactive) /\ (forall y, y <> x -> view t' L' y = view t L y) /\
    forall host, vhosts_lookup v' host = table_lookup (table_after (table_of v) envs (concat batches)) host /\
      forall h, vhosts_lookup v' host = Some h -> is_Some (hp' !! h).
Proof.
  intros HJ W V Hn Hw Hr Hm Hs Hok Hne Hf Hv Hfol.
  destruct (table_follows n ext o p (concat batches) v hp envs Hw Hv Hfol) as (v' & hp' & envs' & T & Hv' & Et).
  assert (tell host_ops n (concat batches) (get_ino t).2 (v', hp', envs')) as T' by (by rewrite Hs).
  destruct (ifd_read_run plugin host_ops J off fuel t L x n fd f batches (v', hp', envs') HJ W V Hn Hr Hm Hok Hne T' Hf)
    as (t' & L' & f' & E & J' & W' & C & _ & _ & V' & O).
  exists t', L', f', v', hp', envs'. split_and!; [done|done|done|done|done|done|done|]. intros host. rewrite <- Et. by apply (ok_lookup v' hp' ext).
Qed.
End watching.

(** ** Running it

    A host is added and, in a second read, removed again. *)
Definition host_batches : list (list event) :=
  [[Event 1 0 3 (Created (lit "www.example.org") false)]; [Event 1 0 3 (Deleted (lit "www.example.org") false)]].

Lemma host_follows : follows [] (Vhosts None None) ∅ [sample_env 1] (concat host_batches).
Proof.
  eapply follows_cons; [reflexivity| |].
  { split; [by vm_compute|]. right. by apply sample_add_ok; [|by_decide]. }
  intros v1 hp1 E1. assert (is_Some (served (table_of v1) !! lit "www.example.org") /\ few (0%nat :: owned v1 ++ [])) as [Hs Hf].
  { vm_compute in E1. injection E1 as <- <-. split; [by_decide|by vm_compute]. }
  eapply follows_cons; [reflexivity| |].
  { split; [exact Hf|]. right. by right. }
  intros v2 hp2 _. apply follows_nil.
Qed.

Example vhosts_follow_directory_witness : exists (t t' : dir_thread hosts) v' hp' envs',
  ifd_read (eventloop_epoll 8) host_ops 3 t 10%nat = Ret t' /\ (get_ino t').2 = (v', hp', envs') /\ vhosts_lookup v' (Some (lit "www.example.org")) = None.
Proof.
  set (n := Nbnotify 2 [no_watch; Watch (Some 1) (Some 7%nat) (Some (Some 0%nat))]).
  destruct (dir_ready (Vhosts None None, ∅ : Vhosts.heap, [sample_env 1]) n ((fun evs => RdBytes (encode_events evs)) <$> host_batches)) as (t & L & E & J & W & V & Hn & Hs).
  assert (watches n 1 7 0) as Hw by (split; [cbn; lia|by exists (Some 1)]).
  destruct (vhosts_follow_directory (eventloop_epoll 8) epoll_ok epoll_off 3 t L 10%nat n 5 NBIO_READ host_batches (Vhosts None None) ∅ [] [sample_env 1] 0 7 J W V Hn)
    as (t' & L' & f & v' & hp' & envs' & E' & _ & _ & Hc & _ & _ & _ & Hl).
  - apply Forall_cons; split; [exact Hw|]. apply Forall_cons; split; [exact Hw|constructor].
  - by rewrite Hs.
  - by rewrite Hs.
  - by rewrite Hs.
  - repeat constructor; cbn; by first [lia|done].
  - by repeat constructor.
  - cbn. lia.
  - apply empty_ok. intros h. by rewrite lookup_empty.
  - apply host_follows.
  - exists t, t', v', hp', envs'. split; [exact E'|]. split; [exact Hc|]. destruct (Hl (Some (lit "www.example.org"))) as [-> _]. vm_compute. reflexivity.
Defined.
