(* ===== verification/Fsck.v ===== *)
(** * fsck.c: listing what is in a webroot

    The program walks the trie of a webroot three times: it draws it and finds
    the length of the longest path, it counts lengths and fan-outs, and it lists
    every object with its URI. What it prints is data here. *)

From Stdlib Require Import Sorted.
From stdpp Require Import sorting.
From S2P Require Import Prelude Os Fobuf Trie Webroot.
Local Open Scope nat_scope.

(** ** The program *)

(** [for(i = 0; i < num_edges; i++)] over the edges from index [i]. *)
Fixpoint for_edges {S} (f : nat -> S -> outcome S) (n i : nat) (s : S) : outcome S :=
  match n with
  | O => Ret s
  | Datatypes.S n => s ← f i s; for_edges f n (i + 1) s
  end.

(** An element of an array that is counted up. *)
Definition bump (h : list Z) (i : nat) : outcome (list Z) :=
  v ← of_option OutOfBounds (h !! i); Ret (<[i := uint 32 (v + 1)]> h).

(** What [printf("%.*s")] prints of memory: up to [n] bytes, or to a terminator. *)
Definition print_prec (mem : list Z) (n : nat) : outcome (list Z) :=
  if (n <=? length mem) || existsb (Z.eqb 0) mem then Ret (cstr (take n mem)) else Fault OutOfBounds.

(** The statements of the drawing. *)
Inductive dot := Node (i : nat) (label : list Z) | Arc (i j : nat).

(** What is printed of an object. *)
Inductive object := OCode (code : Z) | ORedirect (target : list Z) | OFile (mime : list Z) (off len : Z).

Abbreviation line := (list Z * Z * object)%type.

Section walk.
Context (r : webroot).
Abbreviation m := (r_map r).
Abbreviation edge_at := (edge_at (r_trie r)).

Fixpoint calc_hists (fuel re num_edges : nat) (hists : list Z * list Z) : outcome (list Z * list Z) :=
  match fuel with
  | O => Fault OutOfFuel
  | S fuel =>
      for_edges (fun i hists =>
        idx ← read_edges_idx m (edge_at i);
        k ← read_num_edges m (edge_at i);
        '(hist, hist2) ← calc_hists fuel (Z.to_nat idx) (Z.to_nat k) hists;
        n ← read_strlen m (edge_at i);
        hist ← bump hist (Z.to_nat n);
        hist2 ← bump hist2 (Z.to_nat k);
        Ret (hist, hist2)) num_edges re hists
  end.

Fixpoint do_dump (fuel re num_edges : nat) (out : list dot) : outcome (nat * list dot) :=
  match fuel with
  | O => Fault OutOfFuel
  | S fuel =>
      for_edges (fun i '(ret, out) =>
        idx ← read_edges_idx m (edge_at i);
        n ← read_strlen m (edge_at i);
        label ← print_prec (drop (edge_at i + 10) m) (Z.to_nat n);
        k ← read_num_edges m (edge_at i);
        '(below, out) ← do_dump fuel (Z.to_nat idx) (Z.to_nat k) (out ++ [Node i label]);
        let out := out ++ ((fun j => Arc i (Z.to_nat idx + j)) <$> seq 0 (Z.to_nat k)) in
        Ret (max ret (below + Z.to_nat n), out)) num_edges re (0, out)
  end.

Definition dump_root (fuel : nat) (fopen_ok : bool) : outcome (nat * list dot) :=
  if fopen_ok then do_dump fuel 0 1 [] else Fault OutOfBounds.

(** [print_obj], after the URI. *)
Definition print_obj (oid : Z) : outcome object :=
  if (oid <? r_num_redirect r)%Z then
    let p := r_redir r + redir_sz * Z.to_nat oid in
    off ← read_int m p 4;
    len ← read_int m (p + 4) 4;
    if (off =? WEBROOT_INVALID_REDIRECT)%Z then Ret (OCode (sint 32 len))
    else target ← print_prec (drop (Z.to_nat off) m) (Z.to_nat len); Ret (ORedirect target)
  else
    let p := r_file r + file_sz * Z.to_nat (oid - r_num_redirect r) in
    ty_len ← read_int m (p + 20) 4;
    ty ← read_int m (p + 16) 4;
    mime ← print_prec (drop (Z.to_nat ty) m) (Z.to_nat ty_len);
    off ← read_int m p 8;
    len ← read_int m (p + 8) 8;
    Ret (OFile mime off len).

(** [memcpy(uri + pos, re_str, n)] *)
Definition put_str (uri : list Z) (pos : nat) (src : list Z) (n : nat) : outcome (list Z) :=
  if (n <=? length src) && (pos + n <=? length uri) then Ret (take pos uri ++ take n src ++ drop (pos + n) uri) else Fault OutOfBounds.

(** [uri] is the buffer, [pos] the offset of [buf] in it. *)
Fixpoint do_deets (fuel re num_edges pos : nat) (s : list Z * list line) : outcome (list Z * list line) :=
  match fuel with
  | O => Fault OutOfFuel
  | S fuel =>
      for_edges (fun i '(uri, out) =>
        idx ← read_edges_idx m (edge_at i);
        n ← read_strlen m (edge_at i);
        uri ← put_str uri pos (drop (edge_at i + 10) m) (Z.to_nat n);
        oid ← read_oid m (edge_at i);
        out ← (if (oid =? GIDX_INVALID_OID)%Z then Ret out
               else
                 name ← print_prec uri (pos + Z.to_nat n);
                 o ← print_obj oid;
                 Ret (out ++ [(name, oid, o)]));
        k ← read_num_edges m (edge_at i);
        do_deets fuel (Z.to_nat idx) (Z.to_nat k) (pos + Z.to_nat n) (uri, out)) num_edges re s
  end.

Definition print_deets (fuel : nat) (buf : list Z) : outcome (list Z * list line) := do_deets fuel 0 1 0 (buf, []).

(** [dump_hist] and [dump_fanout_hist] are the same but for the text: the total,
    and each value that occurs with its count and the count so far. *)
Fixpoint hist_lines (hist : list Z) (i : nat) (sofar : Z) : list (nat * Z * Z) :=
  match hist with
  | [] => []
  | h :: hist =>
      if (h =? 0)%Z then hist_lines hist (S i) sofar
      else (i, h, uint 32 (sofar + h)) :: hist_lines hist (S i) (uint 32 (sofar + h))
  end.

Definition dump_hist (hist : list Z) : Z * list (nat * Z * Z) :=
  (foldl (fun total h => uint 32 (total + h)) 0%Z hist, hist_lines hist 0 0).

Record report := Report {
  f_dot : list dot;
  f_max_len : nat;
  f_lines : list line;
  f_hist : Z * list (nat * Z * Z);
  f_fanout : Z * list (nat * Z * Z)
}.

(** [do_fsck] of a webroot that has been opened. An allocation that fails gives a
    null pointer, through which nothing can be accessed; [garbage] is what the
    buffer for the URIs holds at first. *)
Definition do_fsck (fuel : nat) (fopen_ok hist_ok hist2_ok buf_ok : bool) (garbage : nat -> list Z) : outcome report :=
  '(max_len, out) ← dump_root fuel fopen_ok;
  let hist := if hist_ok then replicate max_len 0%Z else [] in
  let hist2 := if hist2_ok then replicate 256 0%Z else [] in
  '(hist, hist2) ← calc_hists fuel 0 1 (hist, hist2);
  '(_, lines) ← print_deets fuel (if buf_ok then take max_len (garbage max_len ++ replicate max_len 0%Z) else []);
  Ret (Report out max_len lines (dump_hist hist) (dump_hist hist2)).
End walk.

(** ** What it should list *)

(** The strings that a tree spells below [pre], in the order of its edges, with the
    identifiers stored for them. *)
Fixpoint spelled (pre : list Z) (e : edge) : list (list Z * Z) :=
  match e with
  | Edge _ c t ks =>
      (if (oid_of e =? GIDX_INVALID_OID)%Z then [] else [(pre ++ c, oid_of e)]) ++ concat (spelled (pre ++ c) <$> ks)
  end.

(** The length of the longest path. *)
Fixpoint longest (e : edge) : nat :=
  match e with Edge _ c _ ks => max_list (longest <$> ks) + length c end.

Fixpoint depth (e : edge) : nat :=
  match e with Edge _ _ _ ks => S (max_list (depth <$> ks)) end.

(** ** Lemmas *)

Lemma lex_lt_irrefl a : ~ lex_lt a a.
Proof. induction a as [|x a IH]; cbn; [tauto|]. intros [|[_ ?]]; [lia|tauto]. Qed.

Lemma lex_lt_asym a b : lex_lt a b -> lex_lt b a -> False.
Proof. revert b. induction a as [|x a IH]; intros [|y b]; cbn; try tauto. intros [|[-> ?]] [|[? ?]]; try lia. by apply (IH b). Qed.

Lemma elem_of_concat {A} (x : A) (ls : list (list A)) : x ∈ concat ls <-> exists l, x ∈ l /\ l ∈ ls.
Proof. rewrite list_elem_of_In, in_concat. setoid_rewrite list_elem_of_In. naive_solver. Qed.

Lemma concat_fmap {A B} (f : A -> list B) (x : B) (ks : list A) : x ∈ concat (f <$> ks) <-> exists k, k ∈ ks /\ x ∈ f k.
Proof. rewrite elem_of_concat. setoid_rewrite list_elem_of_fmap. naive_solver. Qed.

Lemma hits_one ks s x : hits ks s x <-> exists k, k ∈ ks /\ hits [k] s x.
Proof.
  split.
  - intros H. inversion H as [? a c ? sub Hin|? a c t sub s2 ? Hin Hne Hsub]; subst; (eexists; split; [exact Hin|]);
      [eapply hit_here; by left|eapply hit_below; [by left|done|done]].
  - intros (k & Hk & H). inversion H as [? a c ? sub Hin|? a c t sub s2 ? Hin Hne Hsub]; subst; apply list_elem_of_singleton in Hin; subst k;
      [by eapply hit_here|by eapply hit_below].
Qed.

Lemma max_list_le (l : list nat) x : x ∈ l -> x <= max_list l.
Proof. intros H. by apply max_list_elem_of_le. Qed.

(** What is spelled under some siblings begins with [pre]. *)
Lemma spelled_under e : forall pre s o, (s, o) ∈ spelled pre e -> exists s', s = pre ++ e_cmp e ++ s'.
Proof.
  induction e as [a c t ks IH] using edge_ind'. intros pre s o. cbn [spelled e_cmp]. rewrite elem_of_app. intros [H|H].
  - exists []. rewrite app_nil_r. destruct (oid_of _ =? _)%Z; [set_solver|]. apply list_elem_of_singleton in H. by injection H as -> _.
  - apply concat_fmap in H as (k & Hk & Hl). rewrite Forall_forall in IH.
    destruct (IH k Hk _ _ _ Hl) as (s' & ->). exists (e_cmp k ++ s'). by rewrite <- app_assoc.
Qed.

(** What is spelled is what the tree means. *)
Lemma spelled_hits ks : forall pre s o, Forall wf_edge ks ->
  (s, o) ∈ concat (spelled pre <$> ks) <-> exists s' x, s = pre ++ s' /\ hits ks s' x /\ o = uint 32 (t_oid x) /\ o <> GIDX_INVALID_OID.
Proof.
  assert (forall e pre s o, wf_edge e -> (s, o) ∈ spelled pre e <-> exists s' x, s = pre ++ s' /\ hits [e] s' x /\ o = uint 32 (t_oid x) /\ o <> GIDX_INVALID_OID) as Hone.
  2: { intros pre s o Hw. rewrite concat_fmap. rewrite Forall_forall in Hw. setoid_rewrite hits_one. split.
    - intros (k & Hk & Hl). apply (Hone k pre s o (Hw k Hk)) in Hl as (s' & x & -> & Hh & Ho). exists s', x. split; [done|]. split; [by exists k|done].
    - intros (s' & x & -> & (k & Hk & Hx) & Ho). exists k. split; [done|]. apply (Hone k pre); [by apply Hw|]. by exists s', x. }
  induction e as [a c t ks' IH] using edge_ind'. intros pre s o Hw. inversion Hw as [? ? ? ? [Hc _] _ _ Hks]; subst. cbn [spelled]. rewrite elem_of_app.
  rewrite Forall_forall in IH, Hks.
  assert ((s, o) ∈ concat (spelled (pre ++ c) <$> ks') <-> exists s' x, s = pre ++ c ++ s' /\ s' <> [] /\ hits ks' s' x /\ o = uint 32 (t_oid x) /\ o <> GIDX_INVALID_OID) as ->.
  { rewrite concat_fmap. setoid_rewrite (hits_one ks'). split.
    - intros (k & Hk & Hl). pose proof Hl as Hl'. apply (IH k Hk) in Hl as (s' & x & -> & Hh & Ho); [|by apply Hks].
      exists s', x. rewrite <- app_assoc. split_and!; [done| |by exists k|apply Ho|apply Ho].
      intros ->. pose proof (Hks k Hk) as Hwk. inversion Hwk as [a' c' t' ks2 [Hc' _]]; subst.
      destruct (spelled_under _ _ _ _ Hl') as (s2 & Es). apply (f_equal length) in Es. rewrite !length_app in Es. cbn in *. lia.
    - intros (s' & x & -> & Hne & (k & Hk & Hx) & Ho). exists k. split; [done|]. apply (IH k Hk); [by apply Hks|]. exists s', x. by rewrite <- app_assoc. }
  split.
  - intros [H|(s' & x & -> & Hne & Hh & Ho)].
    + unfold oid_of in H. destruct (Z.eqb_spec (uint 32 (match e_terminal (Edge a c t ks') with Some t => t_oid t | None => GIDX_INVALID_OID end)) GIDX_INVALID_OID) as [E|E]; [set_solver|].
      apply list_elem_of_singleton in H as [= -> ->]. cbn [e_terminal] in *. destruct t as [t|]; [|done].
      exists c, t. split_and!; [done|eapply hit_here; by left|done|done].
    + exists (c ++ s'), x. split_and!; [done|eapply hit_below; [by left|done|done]|apply Ho|apply Ho].
  - intros (s' & x & -> & Hh & -> & Ho). inversion Hh as [? a' c' ? sub Hin|? a' c' t' sub s2 ? Hin Hne Hsub]; subst; apply list_elem_of_singleton in Hin; injection Hin as -> -> <- ->.
    + left. unfold oid_of. cbn [e_terminal]. rewrite (proj2 (Z.eqb_neq _ _) Ho). by left.
    + right. by exists s2, x.
Qed.

Definition line_lt (a b : list Z * Z) : Prop := lex_lt a.1 b.1.

Lemma siblings_sorted ks pre : Forall wf_edge ks -> StronglySorted first_lt ks ->
  Forall (fun k => StronglySorted line_lt (spelled pre k)) ks -> StronglySorted line_lt (concat (spelled pre <$> ks)).
Proof.
  intros Hw Hs. induction Hs as [|k ks Hs IH Hk]; intros Hall; [constructor|]. apply Forall_cons in Hw as [Hwk Hw], Hall as [H1 Hall].
  cbn [fmap list_fmap concat]. apply StronglySorted_app_2; [|exact H1|exact (IH Hw Hall)]. intros [s1 o1] [s2 o2] (s1' & ->)%spelled_under H2.
  apply concat_fmap in H2 as (k2 & Hk2 & (s2' & ->)%spelled_under). rewrite Forall_forall in Hk, Hw. specialize (Hk k2 Hk2). specialize (Hw k2 Hk2).
  unfold line_lt. cbn [fst]. apply lex_lt_app. destruct Hwk as [a c t sub [Hc _]], Hw as [a2 c2 t2 sub2 [Hc2 _]]. unfold first_lt, first_byte in Hk. cbn [e_cmp] in *.
  destruct c as [|b c], c2 as [|b2 c2]; cbn in *; try lia.
Qed.

Lemma spelled_sorted e : wf_edge e -> forall pre, StronglySorted line_lt (spelled pre e).
Proof.
  induction e as [a c t ks IH] using edge_ind'. intros Hw pre. inversion Hw as [? ? ? ? _ _ Hs Hks]; subst. cbn [spelled].
  assert (StronglySorted line_lt (concat (spelled (pre ++ c) <$> ks))) as Hb.
  { apply siblings_sorted; [done|done|]. rewrite Forall_forall in *. intros k Hk. apply IH; [done|by apply Hks]. }
  destruct (oid_of _ =? _)%Z; [exact Hb|]. apply SSorted_cons; [exact Hb|]. apply Forall_forall. intros [s o] H.
  apply concat_fmap in H as (k & Hk & (s' & ->)%spelled_under). unfold line_lt. cbn [fst]. rewrite Forall_forall in Hks. specialize (Hks k Hk).
  destruct Hks as [a' c' t' ks' [Hc' _]]. cbn [e_cmp]. assert (pre ++ c = (pre ++ c) ++ []) as E by (by rewrite app_nil_r). rewrite E at 1. apply lex_lt_app.
  destruct c'; cbn in *; [lia|done].
Qed.

(** The whole tree spells the entries, in order. *)
Lemma spelled_entries v ks : radix_input v 0 -> built v 0 ks -> Forall (fun t => uint 32 (t_oid t) <> GIDX_INVALID_OID) v ->
  concat (spelled [] <$> ks) = (fun t => (t_str t, uint 32 (t_oid t))) <$> v.
Proof.
  intros (Hs & _ & _) [Hw Hso _ Hh] Ho. set (l2 := _ <$> v).
  assert (StronglySorted line_lt (concat (spelled [] <$> ks))) as S1.
  { apply siblings_sorted; [done|done|]. rewrite Forall_forall in *. intros k Hk. by apply spelled_sorted, Hw. }
  assert (StronglySorted line_lt l2) as S2.
  { unfold l2. clear -Hs. induction Hs as [|t v Hs IH Ht]; [constructor|]. cbn [fmap list_fmap]. apply SSorted_cons; [done|].
    apply Forall_forall. intros y (t' & -> & Ht')%list_elem_of_fmap. exact (proj1 (Forall_forall _ _) Ht t' Ht'). }
  assert (forall l, StronglySorted line_lt l -> NoDup l) as Hnd.
  { induction 1 as [|x l H IH Hx]; [constructor|]. apply NoDup_cons. split; [|done]. intros Hin. rewrite Forall_forall in Hx. by apply (lex_lt_irrefl x.1), (Hx x). }
  eapply StronglySorted_unique_strong; [|exact S1|exact S2|].
  - intros x y _ _ H1 H2. by destruct (lex_lt_asym x.1 y.1).
  - apply NoDup_Permutation; [by apply Hnd|by apply Hnd|]. intros [s o]. rewrite spelled_hits by done. unfold l2. rewrite list_elem_of_fmap. rewrite Forall_forall in Ho. split.
    + intros (s' & x & -> & Hx & -> & _). apply Hh in Hx as [Hx <-]. exists x. split; [done|done].
    + intros (t & [= -> ->] & Ht). exists (t_str t), t. split_and!; [done|by apply Hh; split; [|by apply drop_0]|done|by apply Ho].
Qed.

(** ** Walking what is stored *)

Lemma for_edges_ok {S A} (f : nat -> S -> outcome S) (Q : nat -> A -> Prop) (P : list A -> S -> Prop) (ks : list A) b s :
  (forall j k, ks !! j = Some k -> Q (b + j) k) -> P [] s ->
  (forall pre k post i s, ks = pre ++ k :: post -> Q i k -> P pre s -> exists s', f i s = Ret s' /\ P (pre ++ [k]) s') ->
  exists s', for_edges f (length ks) b s = Ret s' /\ P ks s'.
Proof.
  intros HQ HP Hstep. assert (forall post pre s, ks = pre ++ post -> P pre s -> exists s', for_edges f (length post) (b + length pre) s = Ret s' /\ P ks s') as H.
  { induction post as [|k post IH]; intros pre s0 Hks HP0; [exists s0; split; [done|]; by rewrite Hks, app_nil_r|]. cbn [length for_edges].
    destruct (Hstep pre k post (b + length pre) s0 Hks) as (s1 & E1 & HP1); [|done|].
    { apply HQ. rewrite Hks. by apply list_lookup_middle. }
    rewrite E1. run. destruct (IH (pre ++ [k]) s1) as (s2 & E2 & HP2); [by rewrite <- app_assoc|done|].
    exists s2. split; [|done]. rewrite length_app in E2. cbn in E2. by rewrite <- Nat.add_assoc. }
  destruct (H ks [] s eq_refl HP) as (s' & E & HP'). cbn in E. rewrite Nat.add_0_r in E. by exists s'.
Qed.

Lemma print_prec_fits mem n : n <= length mem -> print_prec mem n = Ret (cstr (take n mem)).
Proof. intros H. unfold print_prec. by rewrite (proj2 (Nat.leb_le _ _) H). Qed.

Lemma cstr_nonzero l : Forall (fun b => b <> 0%Z) l -> cstr l = l.
Proof. induction 1 as [|b l Hb _ IH]; [done|]. cbn. rewrite (proj2 (Z.eqb_neq _ _) Hb). by f_equal. Qed.

Lemma max_list_app l1 l2 : max_list (l1 ++ l2) = max (max_list l1) (max_list l2).
Proof. induction l1 as [|x l1 IH]; cbn; [done|]. rewrite IH. lia. Qed.

Lemma max_list_snoc {A} (f : A -> nat) pre k : max_list (f <$> pre ++ [k]) = max (max_list (f <$> pre)) (f k).
Proof. rewrite fmap_app, max_list_app. cbn. lia. Qed.

Lemma max_list_in {A} (f : A -> nat) pre k post : f k <= max_list (f <$> pre ++ k :: post).
Proof. apply max_list_le, list_elem_of_fmap_2. set_solver. Qed.

Section walks.
Context (r : webroot) (order : list edge) (root : edge) (ds : list trie_dedge).
Context (Horder : order = root :: concat (e_edges <$> order)).
Context (Hnodup : NoDup (e_addr <$> order)).
Context (Hds : Forall2 (record_of order) order ds).
Context (Himage : exists post, drop (r_trie r) (r_map r) = concat (encode_dedge <$> ds) ++ post).
Context (Hsize : (Z.of_nat (length order) < 2 ^ 32)%Z).
Abbreviation m := (r_map r).
Abbreviation off := (r_trie r).
Abbreviation placed := (placed order).

(** Everything about the record of an edge. *)
Lemma record_read i e : order !! i = Some e -> let p := edge_at off i in exists b post,
  read_oid m p = Ret (oid_of e) /\ read_edges_idx m p = Ret (Z.of_nat b) /\ placed b (e_edges e) /\
  read_num_edges m p = Ret (Z.of_nat (length (e_edges e))) /\ read_strlen m p = Ret (Z.of_nat (length (e_cmp e))) /\
  drop (p + 10) m = e_cmp e ++ post /\ fits e.
Proof.
  intros Hi. cbv zeta. destruct (read_stored order m off ds Hds Himage i e Hi) as (H1 & H2 & H3 & H4 & post & H5).
  destruct (child_index order root Horder Hnodup Hsize i e Hi) as (b & Eb & _ & Hp).
  destruct (stored_encoding order m off ds Hds Himage i e Hi) as [Hf _].
  exists b, (replicate (RE_EDGE_MAX - length (e_cmp e)) 0%Z ++ post). rewrite H2, Eb. split_and!; [done|done|done|done|done| |done].
  rewrite H5. by rewrite <- app_assoc.
Qed.

Lemma dump_placed fuel : forall ks b out, max_list (depth <$> ks) < fuel -> placed b ks ->
  exists out', do_dump r fuel b (length ks) out = Ret (max_list (longest <$> ks), out').
Proof.
  induction fuel as [|fuel IH]; intros ks b out Hf Hp; [lia|]. cbn [do_dump].
  match goal with |- context [for_edges ?f _ _ _] => destruct (for_edges_ok f (fun i k => order !! i = Some k) (fun pre s => s.1 = max_list (longest <$> pre)) ks b (0, out)) as ([ret out'] & E & HP) end.
  - exact Hp.
  - done.
  - intros pre k post i [ret out0] Hks Hi HP. cbn [fst] in HP. destruct (record_read i k Hi) as (b' & rest & _ & Hidx & Hpl & Hk & Hl & Hstr & _).
    cbv beta iota. rewrite Hidx. run. rewrite Hl. run. rewrite Hstr. rewrite print_prec_fits by (rewrite length_app, Nat2Z.id; lia). run. rewrite Hk. run. rewrite !Nat2Z.id.
    destruct (IH (e_edges k) b' (out0 ++ [Node i (cstr (take (length (e_cmp k)) (e_cmp k ++ rest)))])) as (out1 & E1); [|done|].
    { pose proof (max_list_in depth pre k post) as H. rewrite <- Hks in H. destruct k. cbn in H |- *. lia. }
    rewrite E1. run. eexists. split; [reflexivity|]. cbn [fst]. rewrite max_list_snoc, HP. by destruct k.
  - exists out'. by rewrite E, <- HP.
Qed.

(** The lines for what is spelled, with [desc] the description of each object. *)
Definition lines_of (desc : Z -> object) (l : list (list Z * Z)) : list line := (fun so => (so.1, so.2, desc so.2)) <$> l.

Lemma put_str_ok uri pos src n pre : take pos uri = pre -> length pre = pos -> n <= length src -> pos + n <= length uri ->
  exists uri', put_str uri pos src n = Ret uri' /\ length uri' = length uri /\ take pos uri' = pre /\ take (pos + n) uri' = pre ++ take n src.
Proof.
  intros Hpre Hl Hn Hu. unfold put_str. rewrite (proj2 (Nat.leb_le n _) Hn), (proj2 (Nat.leb_le (pos + n) _) Hu). cbn [andb].
  eexists. split; [reflexivity|]. rewrite Hpre. split_and!.
  - rewrite !length_app, length_take, length_drop. lia.
  - by rewrite take_app_le, take_ge by lia.
  - rewrite app_assoc. rewrite take_app_le by (rewrite length_app, length_take; lia). apply take_ge. rewrite length_app, length_take. lia.
Qed.

Lemma deets_placed desc fuel : forall ks b pos pre uri out, max_list (depth <$> ks) < fuel -> placed b ks ->
  Forall wf_edge ks -> Forall (fun c => c <> 0%Z) pre -> take pos uri = pre -> length pre = pos -> pos + max_list (longest <$> ks) <= length uri ->
  Forall (fun so => print_obj r so.2 = Ret (desc so.2)) (concat (spelled pre <$> ks)) ->
  exists uri', do_deets r fuel b (length ks) pos (uri, out) = Ret (uri', out ++ lines_of desc (concat (spelled pre <$> ks))) /\
    length uri' = length uri /\ take pos uri' = pre.
Proof.
  induction fuel as [|fuel IH]; intros ks b pos pre uri out Hf Hp Hw Hz Hpre Hlen Hu Hobj; [lia|]. cbn [do_deets].
  match goal with |- context [for_edges ?f _ _ _] => destruct (for_edges_ok f (fun i k => order !! i = Some k)
    (fun dn s => s.2 = out ++ lines_of desc (concat (spelled pre <$> dn)) /\ length s.1 = length uri /\ take pos s.1 = pre) ks b (uri, out))
    as ([uri' out'] & E & HP & HL & HT) end.
  - exact Hp.
  - cbn. by rewrite app_nil_r.
  - intros dn k post i [uri0 out0] Hks Hi (HP & HL & HT). cbn [fst snd] in HP, HL, HT.
    destruct (record_read i k Hi) as (b' & rest & Ho & Hidx & Hpl & Hk & Hl & Hstr & _).
    cbv beta iota. rewrite Hidx. run. rewrite Hl. run. rewrite Hstr, !Nat2Z.id. pose proof (max_list_in longest dn k post) as Hlk. rewrite <- Hks in Hlk.
    assert (length (e_cmp k) <= longest k) as Hck by (destruct k; cbn; lia).
    destruct (put_str_ok uri0 pos (e_cmp k ++ rest) (length (e_cmp k)) pre HT Hlen) as (uri1 & E1 & L1 & T1 & T2); [rewrite length_app; lia|lia|].
    rewrite E1. run. rewrite Ho. run. rewrite take_app_length in T2.
    assert (wf_edge k) as Hwk by (rewrite Hks in Hw; apply Forall_app in Hw as [_ Hw]; by apply Forall_cons in Hw as [Hw _]).
    destruct k as [a c t sub]. inversion Hwk as [? ? ? ? _ Hcz _ Hsub]; subst a0 c0 t0 ks0. cbn [e_cmp e_edges] in *.
    assert (Forall (fun x => x <> 0%Z) (pre ++ c)) as Hzz by (apply Forall_app; split; [done|]; eapply Forall_impl; [exact Hcz|]; cbn; lia).
    assert (Forall (fun so => print_obj r so.2 = Ret (desc so.2)) (spelled pre (Edge a c t sub))) as Hok.
    { rewrite Hks, fmap_app, concat_app in Hobj. apply Forall_app in Hobj as [_ Hobj]. cbn [fmap list_fmap concat] in Hobj. by apply Forall_app in Hobj as [Hobj _]. }
    cbn [spelled] in Hok. apply Forall_app in Hok as [Hok1 Hok2].
    set (own := if (oid_of (Edge a c t sub) =? GIDX_INVALID_OID)%Z then [] else [(pre ++ c, oid_of (Edge a c t sub))]) in *.
    assert ((if (oid_of (Edge a c t sub) =? GIDX_INVALID_OID)%Z then Ret out0
      else name ← print_prec uri1 (pos + length c); o ← print_obj r (oid_of (Edge a c t sub)); Ret (out0 ++ [(name, oid_of (Edge a c t sub), o)]))
      = Ret (out0 ++ lines_of desc own)) as ->.
    { unfold own in *. destruct (oid_of (Edge a c t sub) =? GIDX_INVALID_OID)%Z; [cbn; by rewrite app_nil_r|].
      rewrite print_prec_fits by lia. run. rewrite T2, cstr_nonzero by done. apply Forall_cons in Hok1 as [Hd _]. cbn [snd] in Hd. rewrite Hd. done. }
    run. rewrite Hk. run. rewrite Nat2Z.id.
    destruct (IH sub b' (pos + length c) (pre ++ c) uri1 (out0 ++ lines_of desc own)) as (uri2 & E2 & L2 & T3); [|done|done|done|done|by rewrite length_app, Hlen| |done|].
    { pose proof (max_list_in depth dn (Edge a c t sub) post) as H. rewrite <- Hks in H. cbn in H |- *. lia. }
    { cbn in Hlk |- *. lia. }
    rewrite E2. eexists. split; [reflexivity|]. cbn [fst snd]. split_and!; [|lia|].
    + rewrite HP, fmap_app, concat_app. cbn [fmap list_fmap concat spelled]. fold own. unfold lines_of. rewrite !fmap_app, !app_nil_r, !app_assoc. done.
    + apply (f_equal (take pos)) in T3. rewrite take_take, Nat.min_l in T3 by lia. rewrite T3. by rewrite take_app_le, take_ge by lia.
  - exists uri'. cbn [fst snd] in *. split_and!; [by rewrite E, HP|done|done].
Qed.

(** ** Counting *)

Definition count (P : edge -> nat) (ks : list edge) (j : nat) : Z := Z.of_nat (length (filter (fun e => P e = j) (flat ks))).

(** [h'] is [h] with [count P ks j] added to each element [j]. *)
Definition counted (P : edge -> nat) (ks : list edge) (h h' : list Z) : Prop :=
  forall j, h' !! j = (fun x => uint 32 (x + count P ks j)) <$> h !! j.

Lemma fs_uint_add a b : uint 32 (uint 32 a + b) = uint 32 (a + b).
Proof. unfold uint. by rewrite Zplus_mod_idemp_l. Qed.

Lemma count_snoc P ks k j : count P (ks ++ [k]) j = (count P ks j + (count P (e_edges k) j + if decide (P k = j) then 1 else 0))%Z.
Proof.
  unfold count, flat. rewrite fmap_app, concat_app, filter_app, length_app. cbn [fmap list_fmap concat]. rewrite app_nil_r. destruct k as [a c t sub]. cbn [flatten e_edges].
  rewrite filter_cons. case_decide; cbn [length]; lia.
Qed.

(** One edge after what is below it. *)
Lemma counted_step P ks k h h1 h2 h3 :
  counted P ks h h1 -> counted P (e_edges k) h1 h2 -> bump h2 (P k) = Ret h3 -> counted P (ks ++ [k]) h h3.
Proof.
  intros C1 C2 Hb j. unfold bump in Hb. destruct (h2 !! P k) as [v|] eqn:Hv; [|done]. run_in Hb. injection Hb as <-.
  destruct (decide (P k = j)) as [<-|Hne]; (rewrite count_snoc; first [rewrite decide_True by done|rewrite decide_False by done]).
  - rewrite list_lookup_insert_eq by (by eapply lookup_lt_Some). pose proof (C2 (P k)) as H. rewrite Hv, C1 in H. destruct (h !! P k) as [x|]; [|done].
    cbn in H |- *. injection H as ->. rewrite fs_uint_add, <- Z.add_assoc, fs_uint_add. do 2 f_equal. lia.
  - rewrite list_lookup_insert_ne by done. rewrite C2, C1. destruct (h !! j) as [x|]; [|done]. cbn. rewrite fs_uint_add. do 2 f_equal. lia.
Qed.

Lemma counted_length P ks h h' : counted P ks h h' -> length h' = length h.
Proof.
  intros H. apply Nat.le_antisymm; apply Nat.nlt_ge; intros Hlt.
  - apply lookup_lt_is_Some in Hlt as [x Hx]. rewrite H in Hx. rewrite (proj2 (lookup_ge_None h (length h))) in Hx by lia. done.
  - apply lookup_lt_is_Some in Hlt as [x Hx]. pose proof (H (length h')) as H'. rewrite Hx in H'. rewrite (proj2 (lookup_ge_None h' (length h'))) in H' by lia. done.
Qed.

Lemma counted_range P ks h h' : counted P ks h h' -> Forall (fun x => (0 <= x < 2 ^ 32)%Z) h'.
Proof.
  intros H. apply Forall_lookup. intros j x Hx. rewrite H in Hx. destruct (h !! j); [|done]. injection Hx as <-. by apply (uint_bound 32).
Qed.

Lemma counted_nil P h : Forall (fun x => (0 <= x < 2 ^ 32)%Z) h -> counted P [] h h.
Proof.
  intros Hh j. destruct (h !! j) as [x|] eqn:Hx; [|done]. cbn. rewrite Forall_lookup in Hh. specialize (Hh j x Hx).
  change (count P [] j) with 0%Z. rewrite Z.add_0_r. by rewrite uint_small.
Qed.

Lemma fs_bump_ok h i : i < length h -> exists h', bump h i = Ret h'.
Proof. intros Hi. apply lookup_lt_is_Some in Hi as [v Hv]. unfold bump. rewrite Hv. by eexists. Qed.

Definition cmp_len (e : edge) : nat := length (e_cmp e).
Definition fanout (e : edge) : nat := length (e_edges e).

Lemma hists_placed fuel : forall ks b h h2, max_list (depth <$> ks) < fuel -> placed b ks -> Forall (fun e => cmp_len e < length h) (flat ks) ->
  256 <= length h2 -> Forall (fun x => (0 <= x < 2 ^ 32)%Z) h -> Forall (fun x => (0 <= x < 2 ^ 32)%Z) h2 ->
  exists h' h2', calc_hists r fuel b (length ks) (h, h2) = Ret (h', h2') /\ counted cmp_len ks h h' /\ counted fanout ks h2 h2'.
Proof.
  induction fuel as [|fuel IH]; intros ks b h h2 Hf Hp Hlen H2 R1 R2; [lia|]. cbn [calc_hists].
  match goal with |- context [for_edges ?f _ _ _] => destruct (for_edges_ok f (fun i k => order !! i = Some k)
    (fun dn s => counted cmp_len dn h s.1 /\ counted fanout dn h2 s.2) ks b (h, h2)) as ([h' h2'] & E & C1 & C2) end.
  - exact Hp.
  - split; by apply counted_nil.
  - intros dn k post i [h0 h20] Hks Hi (C1 & C2). cbn [fst snd] in C1, C2. destruct (record_read i k Hi) as (b' & rest & _ & Hidx & Hpl & Hk & Hl & _ & Hfit).
    cbv beta iota. rewrite Hidx. run. rewrite Hk. run. rewrite !Nat2Z.id.
    assert (Forall (fun e => cmp_len e < length h) (flatten k)) as Hlk.
    { rewrite Hks in Hlen. unfold flat in Hlen. rewrite fmap_app, concat_app in Hlen. apply Forall_app in Hlen as [_ Hlen]. cbn [fmap list_fmap concat] in Hlen.
      by apply Forall_app in Hlen as [Hlen _]. }
    pose proof (counted_length _ _ _ _ C1) as L1. pose proof (counted_length _ _ _ _ C2) as L2.
    destruct (IH (e_edges k) b' h0 h20) as (h3 & h4 & E3 & C3 & C4); [|done| |lia|by eapply counted_range|by eapply counted_range|].
    { pose proof (max_list_in depth dn k post) as H. rewrite <- Hks in H. destruct k. cbn in H |- *. lia. }
    { rewrite L1. destruct k as [a c t sub]. cbn [flatten e_edges] in *. by apply Forall_cons in Hlk as [_ Hlk]. }
    rewrite E3. run. rewrite Hl. run. rewrite !Nat2Z.id. pose proof (counted_length _ _ _ _ C3) as L3. pose proof (counted_length _ _ _ _ C4) as L4.
    destruct (fs_bump_ok h3 (length (e_cmp k))) as [h5 E5]; [destruct k; apply Forall_cons in Hlk as [Hlk _]; unfold cmp_len in Hlk; lia|].
    destruct (fs_bump_ok h4 (length (e_edges k))) as [h6 E6]; [destruct Hfit; lia|].
    rewrite E5. run. rewrite E6. run. eexists. split; [reflexivity|]. split; [by apply (counted_step _ _ _ _ h0 h3)|by apply (counted_step _ _ _ _ h20 h4)].
  - by exists h', h2'.
Qed.
End walks.

Lemma flatten_cons a c t ks : flat [Edge a c t ks] = Edge a c t ks :: flat ks.
Proof. unfold flat. cbn. by rewrite app_nil_r. Qed.

Lemma depth_flat e : depth e <= length (flatten e).
Proof.
  induction e as [a c t ks IH] using edge_ind'. cbn [depth flatten e_edges length]. apply le_n_S.
  induction IH as [|k ks Hk _ IH]; [done|]. cbn [fmap list_fmap concat]. rewrite length_app. change (max_list (depth <$> k :: ks)) with (max (depth k) (max_list (depth <$> ks))). cbn in *. lia.
Qed.

Lemma spelled_longest e : forall pre s o, (s, o) ∈ spelled pre e -> length s <= length pre + longest e.
Proof.
  induction e as [a c t ks IH] using edge_ind'. intros pre s o. cbn [spelled longest]. rewrite elem_of_app. intros [H|H].
  - destruct (oid_of _ =? _)%Z; [set_solver|]. apply list_elem_of_singleton in H. injection H as -> _. rewrite length_app. lia.
  - apply concat_fmap in H as (k & Hk & H). rewrite Forall_forall in IH. apply (IH k Hk) in H. rewrite length_app in H.
    assert (longest k <= max_list (longest <$> ks)) by (by apply max_list_le, list_elem_of_fmap_2). lia.
Qed.

(** A webroot whose index is the trie of the entries [v]. *)
Definition indexed (r : webroot) (t : trie) (e : edge) (order : list edge) (v : list trie_entry) : Prop :=
  exists alloc ds post, v <> [] /\ (forall i, alloc i = true) /\ radix_input v 0 /\ trie_new alloc true true (Some v) = Ret (Some (t, Some e, order)) /\
    Forall2 (record_of order) order ds /\ drop (r_trie r) (r_map r) = concat (encode_dedge <$> ds) ++ post /\ (Z.of_nat (r_num_edges t) < 2 ^ 32)%Z.

(** What [trie_write_trie] writes makes such a webroot. *)
Lemma written_indexed {W} `{Sink W} alloc v t e order (w w' : W) bytes r post : v <> [] -> (forall i, alloc i = true) -> radix_input v 0 ->
  trie_new alloc true true (Some v) = Ret (Some (t, Some e, order)) -> sink_ok w -> trie_write_trie order w = Ret (true, w') ->
  accepted w' = accepted w ++ bytes -> drop (r_trie r) (r_map r) = bytes ++ post -> (Z.of_nat (r_num_edges t) < 2 ^ 32)%Z -> indexed r t e order v.
Proof.
  intros Hv Ha Hin Hn Hw Hwr Hacc Hm Hsz. destruct (write_edges_ok _ _ _ _ Hw Hwr) as (ds & Hds & Hacc' & _).
  rewrite Hacc in Hacc'. apply app_inv_head in Hacc' as ->. by exists alloc, ds, post.
Qed.

Lemma indexed_ok r t e order v : indexed r t e order v -> exists ds a sub, e = Edge a [] None sub /\ order = e :: concat (e_edges <$> order) /\
  NoDup (e_addr <$> order) /\ Forall2 (record_of order) order ds /\ (exists post, drop (r_trie r) (r_map r) = concat (encode_dedge <$> ds) ++ post) /\
  (Z.of_nat (length order) < 2 ^ 32)%Z /\ length (flat [e]) = r_num_edges t /\ order ≡ₚ flat [e] /\ radix_input v 0 /\ built v 0 sub.
Proof.
  intros (alloc & ds & post & Hv & Ha & Hin & Hn & Hds & Hm & Hsz). destruct (trie_new_ok alloc v Hv) as (res & Hn' & Hres). rewrite Hn in Hn'. injection Hn' as <-.
  destruct (Hres _ _ _ eq_refl) as (e' & [= <-] & -> & Hg & Hc & Ht & Hb). destruct (grown_order t e Hg) as (Ho & Hnd & Hl & Hp).
  specialize (Hb Ha Hin). destruct e as [a c x sub]. cbn [e_cmp e_terminal e_edges] in *. subst c x. exists ds, a, sub.
  split_and!; [done|done|done|done|by exists post|by rewrite Hl|by rewrite <- Hp|done|done|done].
Qed.

Section indexed.
Context (r : webroot) (t : trie) (e : edge) (order : list edge) (v : list trie_entry) (fuel : nat) (desc : Z -> object).
Context (Hi : indexed r t e order v) (Hfuel : r_num_edges t < fuel).
(** Every entry has a description. *)
Context (Hdesc : Forall (fun x => uint 32 (t_oid x) <> GIDX_INVALID_OID /\ print_obj r (uint 32 (t_oid x)) = Ret (desc (uint 32 (t_oid x)))) v).

Lemma dump_lists : exists out, dump_root r fuel true = Ret (longest e, out).
Proof using Hi Hfuel.
  destruct (indexed_ok r t e order v Hi) as (ds & a & sub & -> & Ho & Hnd & Hds & Him & Hsz & Hl & _).
  pose proof (depth_flat (Edge a [] None sub)) as Hd. unfold flat in Hl. cbn in Hl. rewrite app_nil_r in Hl.
  destruct (dump_placed r order (Edge a [] None sub) ds Ho Hnd Hds Him Hsz fuel [Edge a [] None sub] 0 []) as (out & E).
  - cbn in Hd |- *. cbn in Hl. lia.
  - intros [|j] k Hk; [|done]. injection Hk as <-. by rewrite Ho.
  - exists out. unfold dump_root. cbn [length] in E. rewrite E. cbn. by rewrite Nat.max_0_r.
Qed.

Lemma deets_lists buf : length buf = longest e ->
  exists buf', print_deets r fuel buf = Ret (buf', (fun x => (t_str x, uint 32 (t_oid x), desc (uint 32 (t_oid x)))) <$> v).
Proof using Hi Hfuel Hdesc.
  intros Hbuf. destruct (indexed_ok r t e order v Hi) as (ds & a & sub & -> & Ho & Hnd & Hds & Him & Hsz & Hl & _ & Hin & Hb).
  pose proof (depth_flat (Edge a [] None sub)) as Hd. unfold flat in Hl. cbn in Hl. rewrite app_nil_r in Hl.
  assert (Forall (fun x => uint 32 (t_oid x) <> GIDX_INVALID_OID) v) as Hoid by (eapply Forall_impl; [exact Hdesc|]; by intros x [? _]).
  pose proof (spelled_entries v sub Hin Hb Hoid) as Hsp. destruct fuel as [|fuel']; [lia|].
  assert (order !! 0 = Some (Edge a [] None sub)) as H0 by (by rewrite Ho).
  destruct (record_read r order _ ds Ho Hnd Hds Him Hsz 0 _ H0) as (b & rest & R1 & R2 & R3 & R4 & R5 & R6 & _). cbn [e_edges e_cmp length Z.of_nat app] in *.
  assert (put_str buf 0 rest 0 = Ret buf) as Hput.
  { by destruct buf, rest. }
  unfold print_deets. cbn [do_deets for_edges]. rewrite R2. run. rewrite R5. run. rewrite R6. change (Z.to_nat (Z.of_nat 0)) with 0. rewrite Hput. run.
  rewrite R1. run. change (oid_of (Edge a [] None sub)) with GIDX_INVALID_OID. rewrite Z.eqb_refl. run. rewrite R4. run. rewrite !Nat2Z.id.
  destruct (deets_placed r order _ ds Ho Hnd Hds Him Hsz desc fuel' sub b 0 [] buf []) as (buf' & E & _); [|exact R3|apply Hb|done|done|done| | |].
  - cbn in Hd, Hl. lia.
  - rewrite Hbuf. cbn. lia.
  - rewrite Hsp. apply Forall_fmap. eapply Forall_impl; [exact Hdesc|]. by intros x [_ ?].
  - exists buf'. cbn [Nat.add]. rewrite E. run. rewrite app_nil_l, Hsp. unfold lines_of. by rewrite <- list_fmap_compose.
Qed.
End indexed.

Lemma counted_zeros P ks n h' : counted P ks (replicate n 0%Z) h' -> h' = (fun j => uint 32 (count P ks j)) <$> seq 0 n.
Proof.
  intros H. apply list_eq. intros j. rewrite H, list_lookup_fmap. destruct (decide (j < n)) as [Hj|Hj].
  - rewrite lookup_seq_lt by done. by rewrite lookup_replicate_2 by done.
  - rewrite lookup_seq_ge by lia. by rewrite (proj2 (lookup_ge_None _ _)) by (rewrite length_replicate; lia).
Qed.

(** C36: fsck lists what is in a webroot. For a webroot whose index is the trie of
    some entries, whose objects can all be described, and in which no edge is as
    long as the longest path, the program ends and reports: one line for each
    entry, in order, with its URI, its identifier and its object; the buffer
    for the URIs is never overrun; and for every length (and every fan-out) the number of
    edges that have it. *)
Theorem fsck_reports r t e order v fuel desc garbage : indexed r t e order v -> r_num_edges t < fuel ->
  Forall (fun x => uint 32 (t_oid x) <> GIDX_INVALID_OID /\ print_obj r (uint 32 (t_oid x)) = Ret (desc (uint 32 (t_oid x)))) v ->
  Forall (fun k => length (e_cmp k) < longest e) (flat [e]) ->
  exists rep, do_fsck r fuel true true true true garbage = Ret rep /\
    f_lines rep = (fun x => (t_str x, uint 32 (t_oid x), desc (uint 32 (t_oid x)))) <$> v /\
    Forall (fun x => length (t_str x) <= f_max_len rep) v /\ f_max_len rep = longest e /\
    f_hist rep = dump_hist ((fun j => uint 32 (count cmp_len [e] j)) <$> seq 0 (longest e)) /\
    f_fanout rep = dump_hist ((fun j => uint 32 (count fanout [e] j)) <$> seq 0 256).
Proof.
  intros Hi Hf Hd Hlen. destruct (dump_lists r t e order v fuel Hi Hf) as (out & E1). unfold do_fsck. rewrite E1. run.
  destruct (indexed_ok r t e order v Hi) as (ds & a & sub & He & Ho & Hnd & Hds & Him & Hsz & Hl & _ & Hin & Hb).
  destruct (hists_placed r order e ds Ho Hnd Hds Him Hsz fuel [e] 0 (replicate (longest e) 0%Z) (replicate 256 0%Z)) as (h' & h2' & E2 & C1 & C2).
  - pose proof (depth_flat e) as Hde. unfold flat in Hl. cbn [fmap list_fmap concat] in Hl. rewrite app_nil_r in Hl. cbn. lia.
  - intros [|j] k Hk; [|done]. injection Hk as <-. by rewrite Ho.
  - eapply Forall_impl; [exact Hlen|]. intros k Hk. rewrite length_replicate. exact Hk.
  - by rewrite length_replicate.
  - by apply Forall_replicate.
  - by apply Forall_replicate.
  - cbn [length] in E2. rewrite E2. run. set (buf := take (longest e) (garbage (longest e) ++ replicate (longest e) 0%Z)).
    destruct (deets_lists r t e order v fuel desc Hi Hf Hd buf) as (buf' & E3).
    { unfold buf. rewrite length_take, length_app, length_replicate. lia. }
    rewrite E3. run. eexists. split; [reflexivity|]. cbn [f_lines f_max_len f_hist f_fanout].
    rewrite (counted_zeros _ _ _ _ C1), (counted_zeros _ _ _ _ C2). split_and!; [done| |done|done|done].
    assert (Forall (fun x => uint 32 (t_oid x) <> GIDX_INVALID_OID) v) as Hoid by (eapply Forall_impl; [exact Hd|]; by intros x [? _]).
    pose proof (spelled_entries v sub Hin Hb Hoid) as Hsp. apply Forall_forall. intros x Hx.
    assert ((t_str x, uint 32 (t_oid x)) ∈ concat (spelled [] <$> sub)) as Hs by (rewrite Hsp; apply list_elem_of_fmap; by exists x).
    apply concat_fmap in Hs as (k & Hk & Hs%spelled_longest). subst e. cbn in Hs |- *.
    assert (longest k <= max_list (longest <$> sub)) by (by apply max_list_le, list_elem_of_fmap_2). lia.
Qed.

(** ** Running it *)

(** A webroot with the index [index] and [n] objects, all of them bare status
    codes. *)
Definition code_webroot (index : list Z) (n : nat) : webroot :=
  Webroot 3 1 (replicate 32 0%Z ++ index ++ concat (replicate n (le_bytes 4 WEBROOT_INVALID_REDIRECT ++ le_bytes 4 404)))
    (Z.of_nat (length index / dedge_sz)) (Z.of_nat n) (Z.of_nat n) 32 (32 + length index) (32 + length index + 8 * n) (32 + length index + 8 * n).

Definition index_of (v : list trie_entry) : list Z :=
  match trie_new (fun _ => true) true true (Some v) with
  | Ret (Some (_, _, order)) => match trie_write_trie order sample_sink with Ret (_, w) => accepted w | Fault _ => [] end
  | _ => []
  end.

(** fsck overruns its histogram. The histogram of edge lengths has as many
    elements as the longest URI has bytes, and so none for an edge of that
    length: for the webroot whose only URI is "/a" the program counts outside
    the array. *)
Theorem fsck_overflows garbage :
  (exists out, dump_root (code_webroot (index_of [TrieEntry (lit "/a") 0]) 1) 4 true = Ret (2, out)) /\
  read_strlen (r_map (code_webroot (index_of [TrieEntry (lit "/a") 0]) 1)) (edge_at 32 1) = Ret 2%Z /\
  do_fsck (code_webroot (index_of [TrieEntry (lit "/a") 0]) 1) 4 true true true true garbage = Fault OutOfBounds.
Proof. split_and!; [eexists; vm_compute; reflexivity|vm_compute; reflexivity|vm_compute; reflexivity]. Qed.

Example fsck_reports_witness : exists rep,
  do_fsck (code_webroot (index_of sample_entries) 4) 7 true true true true (fun _ => []) = Ret rep /\
  f_lines rep = [(lit "/a", 3%Z, OCode 404); (lit "/abcdefghij", 1%Z, OCode 404); (lit "/b", 2%Z, OCode 404)].
Proof.
  destruct (trie_new (fun _ => true) true true (Some sample_entries)) as [[[[t [e|]] order]|]|] eqn:E;
    [|vm_compute in E; discriminate E..].
  destruct (trie_write_trie order sample_sink) as [[[] w']|] eqn:Ew;
    [|vm_compute in E; injection E as <- <- <-; vm_compute in Ew; discriminate Ew..].
  assert (accepted w' = accepted sample_sink ++ index_of sample_entries) as Hacc.
  { unfold index_of. rewrite E, Ew. reflexivity. }
  assert (r_num_edges t = 6 /\ Forall (fun k => length (e_cmp k) < longest e) (flat [e])) as [Ht Hlen].
  { vm_compute in E. injection E as <- <- _. split; [reflexivity|by_decide]. }
  assert (indexed (code_webroot (index_of sample_entries) 4) t e order sample_entries) as Hi.
  { refine (written_indexed (fun _ => true) sample_entries t e order sample_sink w' (index_of sample_entries) _
      (concat (replicate 4 (le_bytes 4 WEBROOT_INVALID_REDIRECT ++ le_bytes 4 404))) _ _ sample_input E sample_sink_ok Ew Hacc _ _);
      [discriminate|reflexivity| |rewrite Ht; reflexivity].
    exact (drop_app_length (replicate 32 0%Z) _). }
  destruct (fsck_reports (code_webroot (index_of sample_entries) 4) t e order sample_entries 7 (fun _ => OCode 404) (fun _ => []) Hi) as (rep & R & Hl & _).
  - rewrite Ht. lia.
  - repeat (constructor; [split; [by_decide|vm_compute; reflexivity]|]). constructor.
  - exact Hlen.
  - exists rep. split; [exact R|exact Hl].
Defined.
