(* ===== verification/Aio.v ===== *)
(** * The kernel's asynchronous I/O as the two aio models keep it

    [io_async.c] and [io_async_sendfile.c] have the same statics (the pool of
    request blocks and the count of requests in flight) and the same calls into
    libaio. A block is known by its address; what the allocator and
    [io_submit] will answer is an input. *)

From S2P Require Import Prelude Os.
Local Open Scope Z_scope.

(** What is asked: to read into a buffer at an offset, or to send to a socket. *)
Inductive aio_op := Pread (ptr : option nat) | Sendfile (sock : Z).

(** A filled-in [struct iocb]; [cb_data] is the connection it is for. *)
Record iocb := Iocb { cb_op : aio_op; cb_fd : Z; cb_off : Z; cb_len : Z; cb_data : nat }.

(** [a_out] are the blocks taken from [aio_iocbs], [a_kernel] those [io_submit] has
    accepted and whose completion has not been reported. *)
Record aio := Aio {
  a_out : gset nat;
  a_kernel : gmap nat iocb;
  in_flight : Z;
  a_allocs : list bool;
  a_submits : list Z;
}.

Definition no_aio : aio := Aio ∅ ∅ 0 [] [].

(** [hgang_alloc(aio_iocbs)], which has nothing when no answer is left. *)
Definition iocb_alloc (a : aio) : option nat * aio :=
  match a_allocs a with
  | true :: s =>
    let p := fresh (a_out a) in
    (Some p, Aio ({[p]} ∪ a_out a) (a_kernel a) (in_flight a) s (a_submits a))
  | false :: s => (None, Aio (a_out a) (a_kernel a) (in_flight a) s (a_submits a))
  | [] => (None, a)
  end.

(** [hgang_return(aio_iocbs, p)]. *)
Definition iocb_return (p : nat) (a : aio) : outcome aio :=
  if decide (p ∈ a_out a) then
    Ret (Aio (a_out a ∖ {[p]}) (a_kernel a) (in_flight a) (a_allocs a) (a_submits a))
  else Fault OutOfBounds.

(** [io_submit(aio_ctx, 1, &iocb)]: the number of requests taken, or a negative
    error ([-EAGAIN] when no answer is left). *)
Definition io_submit (p : nat) (cb : iocb) (a : aio) : Z * aio :=
  match a_submits a with
  | [] => (-11, a)
  | ret :: s =>
    (ret, Aio (a_out a) (if 0 <? ret then <[p := cb]> (a_kernel a) else a_kernel a) (in_flight a) (a_allocs a) s)
  end.

Definition add_flight (d : Z) (a : aio) : aio :=
  Aio (a_out a) (a_kernel a) (uint 32 (in_flight a + d)) (a_allocs a) (a_submits a).

(** The kernel reports [p] as completed. *)
Definition reported (p : nat) (a : aio) : aio :=
  Aio (a_out a) (delete p (a_kernel a)) (in_flight a) (a_allocs a) (a_submits a).

(** ** Invariant *)

Definition in_kernel (a : aio) : nat := size (a_kernel a).

(** What is in flight is what the kernel has, in blocks out of the pool, each for a
    connection of its own. *)
Record aio_ok (a : aio) : Prop := {
  flight_count : in_flight a = Z.of_nat (in_kernel a);
  flight_out : dom (a_kernel a) ⊆ a_out a;
  flight_alone : forall p q cb cb', a_kernel a !! p = Some cb -> a_kernel a !! q = Some cb' ->
    cb_data cb = cb_data cb' -> p = q;
}.

(** No request is outstanding for a connection. *)
Definition quiet (self : nat) (a : aio) : Prop := forall p cb, a_kernel a !! p = Some cb -> cb_data cb <> self.

(** A block that has been submitted and counted. *)
Definition launched (p : nat) (cb : iocb) (a : aio) : aio :=
  Aio ({[p]} ∪ a_out a) (<[p := cb]> (a_kernel a)) (in_flight a + 1) (tail (a_allocs a)) (tail (a_submits a)).

(** There is no block for the next request, or the kernel will not take it. *)
Definition aio_refused (a : aio) : Prop :=
  match a_allocs a, a_submits a with
  | true :: _, ret :: _ => ret <= 0
  | _, _ => True
  end.

(** Taking a block, filling it in and submitting it: the ways it goes. A block whose
    submission failed stays out of the pool. *)
Lemma launch_cases self cb a : aio_ok a -> quiet self a -> cb_data cb = self ->
  Z.of_nat (in_kernel a) < 2 ^ 32 - 1 ->
  let (iocb, a1) := iocb_alloc a in
  match iocb with
  | None => aio_ok a1 /\ a_kernel a1 = a_kernel a /\ a_out a1 = a_out a /\ aio_refused a
  | Some p =>
    p ∉ a_out a /\
    let (ret, a2) := io_submit p cb a1 in
    if 0 <? ret then
      add_flight 1 a2 = launched p cb a /\ aio_ok (launched p cb a)
    else aio_ok a2 /\ a_kernel a2 = a_kernel a /\ a_out a2 = {[p]} ∪ a_out a /\ aio_refused a
  end.
Proof.
  unfold in_kernel, aio_refused. intros [Hc Ho Ha] Hq Hcb Hsz. unfold in_kernel in Hc. unfold iocb_alloc. destruct (a_allocs a) as [|[] s] eqn:Es; [done| |done].
  pose proof (is_fresh (a_out a)) as Hf. set (p := fresh (a_out a)) in *. clearbody p. split; [done|].
  assert (a_kernel a !! p = None) as Hk.
  { apply not_elem_of_dom. set_solver. }
  unfold io_submit. cbn [a_submits]. destruct (a_submits a) as [|ret s'] eqn:Er; cbn [Z.ltb].
  { cbn. split; [|done]. constructor; cbn; [done|set_solver|done]. }
  destruct (Z.ltb_spec 0 ret) as [Hpos|Hneg].
  - unfold add_flight, launched. cbn [in_flight a_out a_kernel a_allocs a_submits].
    rewrite Es, Er. cbn [tail]. split; [by rewrite uint_small by lia|].
    constructor; unfold in_kernel; cbn.
    + rewrite map_size_insert_None by done. lia.
    + rewrite dom_insert. set_solver.
    + intros q r c c' Hq1 Hr1 E. rewrite lookup_insert_Some in Hq1, Hr1.
      destruct Hq1 as [[<- <-]|[N1 H1]], Hr1 as [[<- <-]|[N2 H2]]; [done| | |by eapply Ha].
      * exfalso. apply (Hq r c' H2). congruence.
      * exfalso. apply (Hq q c H1). congruence.
  - cbn. split; [|done]. constructor; cbn; [done|set_solver|done].
Qed.

(** A completion: the request leaves the kernel, its block goes back and the count
    follows. *)
Definition landed (p : nat) (a : aio) : aio :=
  Aio (a_out a ∖ {[p]}) (delete p (a_kernel a)) (in_flight a - 1) (a_allocs a) (a_submits a).

Lemma land_ok p cb a : aio_ok a -> a_kernel a !! p = Some cb -> Z.of_nat (in_kernel a) < 2 ^ 32 ->
  (a ← iocb_return p (reported p a); Ret (add_flight (-1) a)) = Ret (landed p a) /\ aio_ok (landed p a) /\
  quiet (cb_data cb) (landed p a).
Proof.
  unfold in_kernel. intros [Hc Ho Ha] Hp Hsz. unfold in_kernel in Hc. assert (p ∈ a_out a) as Hin by (apply Ho; by apply elem_of_dom).
  assert (0 < Z.of_nat (size (a_kernel a))) as Hpos.
  { rewrite <- (insert_delete_id (a_kernel a) p cb Hp), map_size_insert_None by apply lookup_delete_eq. lia. }
  unfold iocb_return, reported. cbn [a_out a_kernel in_flight a_allocs a_submits]. rewrite decide_True by done.
  split; [|split].
  - cbn. unfold add_flight. cbn. rewrite uint_small by lia. done.
  - constructor; unfold in_kernel; cbn.
    + rewrite map_size_delete_Some by (by eexists). lia.
    + rewrite dom_delete. set_solver.
    + intros q r c c' Hq1 Hr1. rewrite lookup_delete_Some in Hq1, Hr1. destruct Hq1, Hr1. by apply Ha.
  - intros q c Hq1 E. cbn in Hq1. apply lookup_delete_Some in Hq1 as [Hne Hq1]. apply Hne. by eapply Ha.
Qed.

(** One request more, or none. *)
Lemma in_kernel_launched p cb a : (in_kernel (launched p cb a) <= S (in_kernel a))%nat.
Proof. unfold in_kernel. cbn. rewrite map_size_insert. by case_match; cbn; lia. Qed.

Lemma in_kernel_landed p cb a : a_kernel a !! p = Some cb -> in_kernel a = S (in_kernel (landed p a)).
Proof.
  intros H. unfold in_kernel. cbn. rewrite <- (insert_delete_id (a_kernel a) p cb H) at 1.
  by rewrite map_size_insert_None by apply lookup_delete_eq.
Qed.

(** A request for another connection is not disturbed. *)
Lemma quiet_launched self p cb a : quiet self a -> cb_data cb <> self -> quiet self (launched p cb a).
Proof.
  intros Hq Hd q c H. cbn in H. apply lookup_insert_Some in H as [[_ <-]|[_ H]]; [done|by apply (Hq q)].
Qed.
