(* ===== verification/HttpConn.v ===== *)
(** * http_conn.c: the connection state machine

    One connection next to the part of the world it touches. [P] is the type of
    what a file I/O model keeps in [h_io_priv]. *)

From S2P Require Import Prelude Os Vec HttpParse HttpReq Normalize Webroot Critbit Vhosts Nbio HttpBuf HttpHead Aio.
Local Open Scope Z_scope.

Inductive conn_state := HTTP_CONN_REQUEST | HTTP_CONN_HEADER | HTTP_CONN_DATA | HTTP_CONN_DEAD.

#[export] Instance conn_state_eq_dec : EqDecision conn_state.
Proof. solve_decision. Defined.

Record http_conn (P : Type) := Conn {
  h_nbio : nbio;
  h_state : conn_state;
  h_rstate : rstate;
  h_io_state : Z;
  h_webroot : option nat;
  h_rptr : nat;  (* an offset into the request buffer *)
  h_req : option http_buf;
  h_res : option http_buf;
  h_io_priv : P;
  h_data_off : Z;
  h_data_len : Z;
  h_conn_close : Z;
}.
Arguments Conn {P}.
Arguments h_nbio {P}. Arguments h_state {P}. Arguments h_rstate {P}. Arguments h_io_state {P}.
Arguments h_webroot {P}. Arguments h_rptr {P}. Arguments h_req {P}. Arguments h_res {P}.
Arguments h_io_priv {P}. Arguments h_data_off {P}. Arguments h_data_len {P}. Arguments h_conn_close {P}.

(** What [recv] answers: bytes from the peer (none for the end of the stream), or
    an error. *)
Inductive recv_answer := RecvData (l : list Z) | RecvErr (e : errno).

(** The rest of the program and of the system: webroots, hosts, buffer pools,
    the counters, the normaliser's buffer, what [getsockname] prints as, the
    files behind descriptors, the listeners waiting for memory, the asynchronous
    reads; then the
    answers of the system still to come (a socket with none left answers
    [EAGAIN], an allocator none left fails) and what this connection has sent
    and closed. *)
Record world := World {
  w_heap : heap;
  w_vhosts : vhosts_t;
  w_pools : pools;
  w_concurrency : Z;
  w_reqs : Z;
  w_uribuf : list Z;
  w_sockname : list Z;
  w_files : gmap Z (list Z);
  w_oomq : list nbio;
  w_alloc : list alloc_answer;
  w_recv : list recv_answer;
  w_send : list sysres;
  w_ios : list sysres;
  w_polls : list sysres;
  w_sent : list Z;
  w_closed : list Z;
  w_aio : aio;
}.

Section updates.
Context {P : Type}.
Implicit Types (h : http_conn P) (w : world).

Definition set_nbio h x := Conn x (h_state h) (h_rstate h) (h_io_state h) (h_webroot h) (h_rptr h)
  (h_req h) (h_res h) (h_io_priv h) (h_data_off h) (h_data_len h) (h_conn_close h).
Definition set_state h x := Conn (h_nbio h) x (h_rstate h) (h_io_state h) (h_webroot h) (h_rptr h)
  (h_req h) (h_res h) (h_io_priv h) (h_data_off h) (h_data_len h) (h_conn_close h).
Definition set_parse h rs rp := Conn (h_nbio h) (h_state h) rs (h_io_state h) (h_webroot h) rp
  (h_req h) (h_res h) (h_io_priv h) (h_data_off h) (h_data_len h) (h_conn_close h).
Definition set_webroot h x := Conn (h_nbio h) (h_state h) (h_rstate h) (h_io_state h) x (h_rptr h)
  (h_req h) (h_res h) (h_io_priv h) (h_data_off h) (h_data_len h) (h_conn_close h).
Definition set_req h x := Conn (h_nbio h) (h_state h) (h_rstate h) (h_io_state h) (h_webroot h) (h_rptr h)
  x (h_res h) (h_io_priv h) (h_data_off h) (h_data_len h) (h_conn_close h).
Definition set_res h x := Conn (h_nbio h) (h_state h) (h_rstate h) (h_io_state h) (h_webroot h) (h_rptr h)
  (h_req h) x (h_io_priv h) (h_data_off h) (h_data_len h) (h_conn_close h).
Definition set_priv h (p : P) s : http_conn P := Conn (h_nbio h) (h_state h) (h_rstate h) s (h_webroot h) (h_rptr h)
  (h_req h) (h_res h) p (h_data_off h) (h_data_len h) (h_conn_close h).
Definition set_data h off len := Conn (h_nbio h) (h_state h) (h_rstate h) (h_io_state h) (h_webroot h) (h_rptr h)
  (h_req h) (h_res h) (h_io_priv h) off len (h_conn_close h).
Definition set_close h x := Conn (h_nbio h) (h_state h) (h_rstate h) (h_io_state h) (h_webroot h) (h_rptr h)
  (h_req h) (h_res h) (h_io_priv h) (h_data_off h) (h_data_len h) x.
End updates.

Definition with_heap w x := World x (w_vhosts w) (w_pools w) (w_concurrency w) (w_reqs w) (w_uribuf w)
  (w_sockname w) (w_files w) (w_oomq w) (w_alloc w) (w_recv w) (w_send w) (w_ios w) (w_polls w) (w_sent w) (w_closed w) (w_aio w).
Definition with_pools w x := World (w_heap w) (w_vhosts w) x (w_concurrency w) (w_reqs w) (w_uribuf w)
  (w_sockname w) (w_files w) (w_oomq w) (w_alloc w) (w_recv w) (w_send w) (w_ios w) (w_polls w) (w_sent w) (w_closed w) (w_aio w).
Definition with_counts w c r := World (w_heap w) (w_vhosts w) (w_pools w) c r (w_uribuf w)
  (w_sockname w) (w_files w) (w_oomq w) (w_alloc w) (w_recv w) (w_send w) (w_ios w) (w_polls w) (w_sent w) (w_closed w) (w_aio w).
Definition with_uribuf w x := World (w_heap w) (w_vhosts w) (w_pools w) (w_concurrency w) (w_reqs w) x
  (w_sockname w) (w_files w) (w_oomq w) (w_alloc w) (w_recv w) (w_send w) (w_ios w) (w_polls w) (w_sent w) (w_closed w) (w_aio w).
Definition with_oomq w x := World (w_heap w) (w_vhosts w) (w_pools w) (w_concurrency w) (w_reqs w) (w_uribuf w)
  (w_sockname w) (w_files w) x (w_alloc w) (w_recv w) (w_send w) (w_ios w) (w_polls w) (w_sent w) (w_closed w) (w_aio w).
Definition with_alloc w x := World (w_heap w) (w_vhosts w) (w_pools w) (w_concurrency w) (w_reqs w) (w_uribuf w)
  (w_sockname w) (w_files w) (w_oomq w) x (w_recv w) (w_send w) (w_ios w) (w_polls w) (w_sent w) (w_closed w) (w_aio w).
Definition with_recv w x := World (w_heap w) (w_vhosts w) (w_pools w) (w_concurrency w) (w_reqs w) (w_uribuf w)
  (w_sockname w) (w_files w) (w_oomq w) (w_alloc w) x (w_send w) (w_ios w) (w_polls w) (w_sent w) (w_closed w) (w_aio w).
Definition with_send w x s := World (w_heap w) (w_vhosts w) (w_pools w) (w_concurrency w) (w_reqs w) (w_uribuf w)
  (w_sockname w) (w_files w) (w_oomq w) (w_alloc w) (w_recv w) x (w_ios w) (w_polls w) s (w_closed w) (w_aio w).
Definition with_disk w i p := World (w_heap w) (w_vhosts w) (w_pools w) (w_concurrency w) (w_reqs w) (w_uribuf w)
  (w_sockname w) (w_files w) (w_oomq w) (w_alloc w) (w_recv w) (w_send w) i p (w_sent w) (w_closed w) (w_aio w).
Definition with_closed w x := World (w_heap w) (w_vhosts w) (w_pools w) (w_concurrency w) (w_reqs w) (w_uribuf w)
  (w_sockname w) (w_files w) (w_oomq w) (w_alloc w) (w_recv w) (w_send w) (w_ios w) (w_polls w) (w_sent w) x (w_aio w).
Definition with_aio w x := World (w_heap w) (w_vhosts w) (w_pools w) (w_concurrency w) (w_reqs w) (w_uribuf w)
  (w_sockname w) (w_files w) (w_oomq w) (w_alloc w) (w_recv w) (w_send w) (w_ios w) (w_polls w) (w_sent w) (w_closed w) x.


(** ** System calls and allocations *)

(** [send(fd, l)]: the count or the error. *)
Definition send (l : list Z) (w : world) : (nat + errno) * world :=
  match w_send w with
  | [] => (inr EAGAIN, w)
  | SysErr e :: s => (inr e, with_send w s (w_sent w))
  | SysOk n :: s => let n := moved n (length l) in (inl n, with_send w s (w_sent w ++ take n l))
  end.

(** [recv(fd, sz)]: the bytes, of which those that do not fit stay in the socket. *)
Definition recv (sz : nat) (w : world) : (list Z + errno) * world :=
  match w_recv w with
  | [] => (inr EAGAIN, w)
  | RecvErr e :: s => (inr e, with_recv w s)
  | RecvData l :: s =>
    if (length l <=? sz)%nat then (inl l, with_recv w s)
    else (inl (take sz l), with_recv w (RecvData (drop sz l) :: s))
  end.

Definition buf_alloc (p : pool) (w : world) : option http_buf * world :=
  match w_alloc w with
  | [] => (None, w)
  | a :: s => let (b, ps) := do_alloc p a (w_pools w) in (b, with_pools (with_alloc w s) ps)
  end.

Definition buf_free (p : pool) (b : option http_buf) (w : world) : outcome world :=
  ps ← do_free p b (w_pools w);
  Ret (with_pools w ps).

(** [wake_listeners]: [listener_wake] on everything in the wait queue. *)
Definition wake_listeners (w : world) : outcome world :=
  _ ← foldr (fun n r => _ ← nbio_wake n NBIO_READ; r) (Ret tt) (w_oomq w);
  Ret (with_oomq w []).

(** ** Killing a connection; what the I/O models are offered

    [io_abort] is the current model's [abort]. *)

Section core.
Context {P : Type}.
Abbreviation conn := (http_conn P).
Context (io_abort : conn -> world -> outcome (conn * world)).

Definition busy (h : conn) : bool :=
  bool_decide (h_state h = HTTP_CONN_DATA) || bool_decide (h_state h = HTTP_CONN_HEADER).

Definition set_fd (n : nbio) (fd : Z) : nbio := Nbio fd (n_mask n) (n_flags n) (n_list n).

Definition http_kill (h : conn) (w : world) : outcome (conn * world) :=
  if n_fd (h_nbio h) =? -1 then Ret (h, w)
  else
    let w := with_closed w (w_closed w ++ [n_fd (h_nbio h)]) in
    let h := set_nbio h (set_fd (h_nbio h) (-1)) in
    assert! negb (w_concurrency w =? 0) ;;
    let w := with_counts w (uint 32 (w_concurrency w - 1)) (w_reqs w) in
    w ← (match w_oomq w with [] => Ret w | _ => wake_listeners w end);
    w ← buf_free h_req_pool (h_req h) w;
    '(h, w) ← match h_state h with
      | HTTP_CONN_REQUEST => assert! bool_decide (h_res h = None) ;; Ret (h, w)
      | HTTP_CONN_HEADER => w ← buf_free h_res_pool (h_res h) w; io_abort h w
      | HTTP_CONN_DATA => io_abort h w
      | HTTP_CONN_DEAD => Fault AssertFailed
      end;
    let h := set_state h HTTP_CONN_DEAD in
    Ret (set_nbio h (nbio_del (h_nbio h)), w).

(** The descriptor of the webroot's file, the offset and the length. *)
Definition http_conn_data (h : conn) (w : world) : outcome (Z * Z * Z) :=
  assert! busy h ;;
  r ← of_option OutOfBounds (h_webroot h ≫= fun p => w_heap w !! p);
  Ret (webroot_get_fd r, h_data_off h, h_data_len h).

Definition http_conn_data_read (h : conn) (len : Z) : outcome (conn * Z) :=
  assert! busy h ;;
  assert! (len <=? h_data_len h) ;;
  let h := set_data h (h_data_off h + len) (h_data_len h - len) in
  Ret (h, h_data_len h).

Definition http_conn_data_complete (h : conn) (w : world) : outcome (conn * world) :=
  assert! bool_decide (h_state h = HTTP_CONN_DATA) ;;
  assert! (h_data_len h =? 0) ;;
  let h := set_state h HTTP_CONN_REQUEST in
  n ← nbio_set_wait (h_nbio h) NBIO_READ;
  let h := set_nbio h n in
  hp ← unref (w_heap w) (h_webroot h);
  let w := with_heap w hp in
  let h := set_webroot h None in
  if negb (h_conn_close h =? 0) then http_kill h w else Ret (h, w).

Definition http_conn_abort (h : conn) (w : world) : outcome (conn * world) :=
  assert! busy h ;; http_kill h w.

Definition http_conn_get_priv (h : conn) : outcome (P * Z) :=
  assert! busy h ;; Ret (h_io_priv h, h_io_state h).

Definition http_conn_set_priv (h : conn) (p : P) (state : Z) : outcome conn :=
  assert! busy h ;; Ret (set_priv h p state).

Definition http_conn_socket (h : conn) : outcome Z :=
  assert! busy h ;; Ret (n_fd (h_nbio h)).

Definition http_conn_inactive (h : conn) : outcome conn :=
  assert! busy h ;; Ret (set_nbio h (nbio_inactive (h_nbio h) NBIO_WRITE)).

Definition http_conn_wait_on (h : conn) (what : Z) : outcome conn :=
  assert! busy h ;; n ← nbio_wait_on (h_nbio h) what; Ret (set_nbio h n).

Definition http_conn_to_waitq (h : conn) (wq : option queue) : outcome conn :=
  assert! busy h ;; n ← nbio_to_waitq (h_nbio h) wq; Ret (set_nbio h n).

Definition http_conn_wake_one (h : conn) : outcome conn :=
  assert! busy h ;; n ← nbio_wake (h_nbio h) NBIO_WRITE; Ret (set_nbio h n).
End core.

(** ** What an I/O model provides *)

Class Fio (P : Type) := {
  io_prep : http_conn P -> world -> outcome (bool * http_conn P * world);
  io_write : http_conn P -> world -> outcome (bool * http_conn P * world);
  io_abort : http_conn P -> world -> outcome (http_conn P * world);
}.

(** ** Responses *)

Section handlers.
Context {P : Type} `{Fio P}.
Abbreviation conn := (http_conn P).

Definition http_write_hdr (h : conn) (w : world) : outcome (bool * conn * world) :=
  res ← of_option OutOfBounds (h_res h);
  '(p, sz) ← buf_read res;
  match send (bytes_at res p sz) w with
  | (inr EAGAIN, w) => Ret (true, set_nbio h (nbio_inactive (h_nbio h) NBIO_WRITE), w)
  | (inr _, w) => Ret (false, h, w)
  | (inl O, w) => Ret (false, h, w)
  | (inl ret, w) =>
    '(res, _) ← buf_done_read res ret;
    let h := set_res h (Some res) in
    '(_, sz) ← buf_read res;
    if (sz =? 0)%nat then
      w ← buf_free h_res_pool (h_res h) w;
      let h := set_res h None in
      if negb (h_data_len h =? 0) then Ret (true, set_state h HTTP_CONN_DATA, w)
      else if negb (h_conn_close h =? 0) then Ret (false, h, w)
      else
        n ← nbio_set_wait (h_nbio h) NBIO_READ;
        Ret (true, set_state (set_nbio h n) HTTP_CONN_REQUEST, w)
    else Ret (true, h, w)
  end.

Definition http_write (h : conn) (w : world) : outcome (conn * world) :=
  '(ret, h, w) ← match h_state h with
    | HTTP_CONN_HEADER => http_write_hdr h w
    | HTTP_CONN_DATA => io_write h w
    | _ => Fault AssertFailed
    end;
  if negb ret then http_kill io_abort h w else Ret (h, w).

(** The canned responses; [close] says whether [h_conn_close] is set. *)
Definition response_canned (text : list Z) (close : bool) (h : conn) : outcome conn :=
  res ← of_option OutOfBounds (h_res h);
  '(p, sz) ← buf_write res;
  assert! match p with Some _ => (length text <=? sz)%nat | None => false end ;;
  res ← poke res (b_write res) text;
  '(res, _) ← buf_done_write res (length text);
  let h := set_res h (Some res) in
  let h := set_data h (h_data_off h) 0 in
  Ret (if close then set_close h 1 else h).

Definition response_400 := response_canned resp400 true.
Definition response_403 := response_canned resp403 false.
Definition response_404 := response_canned resp404 false.
Definition response_500 := response_canned resp500 true.
Definition response_501 := response_canned resp501 true.

(** The strings are printed up to their length or their first null byte. *)
Definition response_301 (h : conn) (host loc : list Z) : outcome conn :=
  res ← of_option OutOfBounds (h_res h);
  '(p, sz) ← buf_write res;
  assert! match p with Some _ => (length resp301_format <=? sz)%nat | None => false end ;;
  res ← poke res (b_write res) resp301_format;
  let text := resp301 (cstr host) (cstr loc) in
  res ← poke res (b_write res) (snprintf sz text);
  '(res, _) ← buf_done_write res (length text);
  Ret (set_data (set_res h (Some res)) (h_data_off h) 0).

(** Bytes of the webroot's map behind a pointer into it. *)
Definition map_bytes (r : webroot) (ptr len : Z) : outcome (list Z) :=
  read_bytes (r_map r) (Z.to_nat ptr) (Z.to_nat len).

(** The end of [handle_get], once a file has been found. *)
Definition send_file (h : conn) (w : world) (rp : nat) (r : webroot) (n : webroot_name)
    (if_none_match : list Z) (head : bool) : outcome (bool * conn * world) :=
  match n with
  | NameData mime_ptr mime_len f_ofs f_len f_mtime f_etag =>
    let h := set_data h f_ofs f_len in
    let hit := (length if_none_match =? 40)%nat &&
               (vstrcmp if_none_match (take 40 (print_etag f_etag)) =? 0) in
    let head := head || hit in
    let code := if hit then HTTP_NOT_MODIFIED else HTTP_FOUND in
    '(ok, h, w) ← (if negb (h_data_len h =? 0) && negb head then io_prep h w else Ret (true, h, w));
    if negb ok then h ← response_500 h; Ret (true, h, w)
    else
      mime ← map_bytes r mime_ptr mime_len;
      res ← of_option OutOfBounds (h_res h);
      res ← get_response res code mime (h_data_len h) (h_conn_close h) f_etag f_mtime;
      let h := set_res h (Some res) in
      let w := with_counts w (w_concurrency w) (uint 64 (w_reqs w + 1)) in
      if head then Ret (true, set_data h (h_data_off h) 0, w)
      else
        let h := set_webroot h (Some rp) in
        hp ← ref (w_heap w) rp;
        Ret (true, h, with_heap w hp)
  | _ => Fault OutOfBounds
  end.

(** The first half of [handle_get]: normalising the URI in the static buffer, the
    host as a C string, the webroot that serves it and the object of that
    name. [mem] is the memory the request's vectors point into. The fuel of
    the lookup is the length of the path: every level of the trie takes at
    least a character. *)
Definition find_object (w : world) (mem : list Z) (r : http_request)
    : outcome (world * list Z * option (nat * webroot * option webroot_name)) :=
  u ← vec_bytes mem (uri r);
  n ← nads_normalize (w_uribuf w) u;
  let w := with_uribuf w (n_uribuf n) in
  host ← vec_bytes mem (host r);
  match vhosts_lookup (w_vhosts w) (Some (cstr host)) with
  | None => Ret (w, host, None)
  | Some rp =>
    root ← of_option OutOfBounds (w_heap w !! rp);
    let path := n_uri n in
    name ← webroot_find (S (length path)) root (n_uribuf n) (Z.of_nat (length path));
    Ret (w, host, Some (rp, root, name))
  end.

(** [handle_get(t, h, r, head)]. *)
Definition handle_get (h : conn) (w : world) (mem : list Z) (r : http_request) (head : bool)
    : outcome (bool * conn * world) :=
  '(w, host, found) ← find_object w mem r;
  match found with
  | None => h ← response_403 h; Ret (true, h, w)
  | Some (_, _, None) => h ← response_404 h; Ret (true, h, w)
  | Some (_, root, Some (NameMoved ptr len)) =>
    loc ← map_bytes root ptr len;
    h ← response_301 h host loc; Ret (true, h, w)
  | Some (_, _, Some (NameCode code)) =>
    if code =? HTTP_FORBIDDEN then h ← response_403 h; Ret (true, h, w)
    else Fault OutOfBounds
  | Some (rp, root, Some name) =>
    e ← (if (v_len (etag r) =? 40)%nat then vec_bytes mem (etag r) else Ret []);
    send_file h w rp root name e head
  end.

(** The host of a request without one is printed into an array of the block that
    sets it; it is used after the end of that block, when the pointer to the
    array has no value any more. *)
Definition handle_request (h : conn) (w : world) : outcome (conn * world) :=
  assert! bool_decide (h_state h = HTTP_CONN_REQUEST) ;;
  let (res, w) := buf_alloc h_res_pool w in
  let h := set_res h res in
  match res with
  | None => http_kill io_abort h w
  | Some _ =>
    let h := set_state h HTTP_CONN_HEADER in
    nb ← nbio_set_wait (h_nbio h) NBIO_WRITE;
    let h := set_nbio h nb in
    req ← of_option OutOfBounds (h_req h);
    '(p, sz) ← buf_read req;
    let mem := bytes_at req p sz in
    '(hlen, r) ← http_req mem;
    if (hlen =? 0)%nat then h ← response_400 h; Ret (h, w)
    else if negb (content_len r =? 0) then http_kill io_abort h w
    else
      let r := if (v_len (host r) =? 0)%nat
               then HttpRequest (method r) (RoVec Indet (length (w_sockname w)))
                      (uri r) (query r) (hostname r) (etag r) (content_len r) (port r) (proto_vers r) (conn_close r)
               else r in
      let h := set_close h (conn_close r) in
      m ← vec_bytes mem (method r);
      '(ret, h, w) ←
        (if vstrcmp_fast m (lit "GET") =? 0 then handle_get h w mem r false
         else if vstrcmp_fast m (lit "HEAD") =? 0 then handle_get h w mem r true
         else h ← response_501 h; Ret (true, h, w));
      if negb ret then http_kill io_abort h w
      else
        '(req, sz) ← buf_done_read req hlen;
        if negb (sz =? 0)%nat then
          req ← buf_reset req;
          Ret (set_parse (set_req h (Some req)) RSTATE_INITIAL 0, w)
        else
          w ← buf_free h_req_pool (Some req) w;
          Ret (set_req h None, w)
  end.

(** The call of [http_parse_incremental]. *)
Definition parse_more (h : conn) (req : http_buf) : outcome (bool * conn) :=
  '(found, rs, adv) ← http_parse_incremental (h_rstate h) 0
                        (bytes_at req (h_rptr h) (b_write req - h_rptr h));
  Ret (found, set_parse h rs (h_rptr h + adv)).

Definition http_read (h : conn) (w : world) : outcome (conn * world) :=
  assert! bool_decide (h_state h = HTTP_CONN_REQUEST) ;;
  let '(req, h, w) :=
    match h_req h with
    | Some b => (Some b, h, w)
    | None =>
      let (b, w) := buf_alloc h_req_pool w in
      (b, match b with Some _ => set_parse (set_req h b) RSTATE_INITIAL 0 | None => h end, w)
    end in
  match req with
  | None => http_kill io_abort h w
  | Some req =>
    '(p, sz) ← buf_write req;
    if (sz =? 0)%nat then http_kill io_abort h w
    else
      match recv sz w with
      | (inr EAGAIN, w) => Ret (set_nbio h (nbio_inactive (h_nbio h) NBIO_READ), w)
      | (inr _, w) => http_kill io_abort h w
      | (inl [], w) => http_kill io_abort h w
      | (inl l, w) =>
        req ← poke req (b_write req) l;
        '(req, _) ← buf_done_write req (length l);
        let h := set_req h (Some req) in
        '(found, h) ← parse_more h req;
        if (found : bool) then handle_request h w else Ret (h, w)
      end
  end.

(** The assertion of [http_dtor] is an assignment; the object goes back to its
    pool and is not used again. *)
Definition http_dtor (h : conn) (w : world) : outcome world :=
  hp ← unref (w_heap w) (h_webroot h);
  Ret (with_heap w hp).

(** [http_conn(t, s, priv)]: a zeroed object, or nothing if the pool is empty. *)
Definition http_conn_new (p0 : P) (alloc_ok : bool) (s : Z) (w : world) : outcome (option conn * world) :=
  if negb alloc_ok then Ret (None, with_closed w (w_closed w ++ [s]))
  else
    n ← nbio_add (nbio_new s) NBIO_READ;
    let h := Conn n HTTP_CONN_REQUEST RSTATE_INITIAL 0 None 0 None None p0 0 0 0 in
    Ret (Some h, with_counts w (uint 32 (w_concurrency w + 1)) (w_reqs w)).

(** [http_ops] under the event loop. *)
Definition pump (hw : conn * world) : outcome (conn * world) :=
  pump_one (fun hw => h_nbio hw.1) (fun hw n => (set_nbio hw.1 n, hw.2))
    (fun hw => http_read hw.1 hw.2) (fun hw => http_write hw.1 hw.2) hw.
End handlers.

(** ** Invariants

    What an I/O model holds for a connection: the bytes it has read from the
    file and not sent, the data buffers it has taken, the value that stands
    for nothing being in progress, those that can be written from, the grounds
    on which it gives a connection up in the middle of a file (its socket
    apart), and when it has to wait for the disk. *)

Class FioSpec (P : Type) := {
  held : P -> list Z;
  dat_bufs : P -> nat;
  priv_ok : P -> Prop;
  idle : P;
  prepared : P -> Prop;
  gives_up : http_conn P -> world -> Prop;
  blocks : http_conn P -> world -> Prop;
}.

Section invariants.
Context {P : Type} `{FioSpec P}.
Abbreviation conn := (http_conn P).

(** What is left of the response: the unsent header, what the I/O model holds and
    the rest of the file. *)
Definition file_slice (h : conn) (w : world) : list Z :=
  match h_webroot h ≫= fun p => w_heap w !! p with
  | Some r => take (Z.to_nat (h_data_len h)) (drop (Z.to_nat (h_data_off h)) (default [] (w_files w !! r_fd r)))
  | None => []
  end.

Definition pending (h : conn) (w : world) : list Z :=
  match h_state h with
  | HTTP_CONN_HEADER | HTTP_CONN_DATA =>
    from_option unread [] (h_res h) ++ held (h_io_priv h) ++ file_slice h w
  | HTTP_CONN_REQUEST | HTTP_CONN_DEAD => []
  end.

(** The request parser has read the request buffer up to [h_rptr] and has not seen
    the end of a header. *)
Definition parse_ok (h : conn) : Prop :=
  match h_req h with
  | None => True
  | Some b =>
    let parsed := bytes_at b 0 (h_rptr h) in
    b_read b = 0%nat /\ (h_rptr h <= b_write b)%nat /\
    h_rstate h = state_of (rev parsed) /\ incomplete (rev parsed)
  end.

Definition some_buf (b : option http_buf) : nat := match b with Some _ => 1 | None => 0 end.

(** The pools' counts: [base] is what everything else has in use. *)
Definition pools_with (base : pools) (req res : option http_buf) (dat : nat) : pools :=
  Pools (n_req base + some_buf req) (n_res base + some_buf res) (n_dat base + dat).

Definition buf_in (p : pool) (b : option http_buf) : Prop :=
  match b with Some b => buf_ok b /\ b_end b = pool_size p | None => True end.

(** The references [ext] and the buffers [base] belong to the rest of the program.
    Between two requests there can be a webroot: that of an empty file, whose
    reference is not released when its header has been sent. *)
Record shared_ok (base : pools) (ext : list nat) (h : conn) (w : world) : Prop := {
  sh_fd : n_fd (h_nbio h) <> -1;
  sh_conc : 0 < w_concurrency w < 2 ^ 32;
  sh_vhosts : vhosts_ok (w_vhosts w) (w_heap w) (option_list (h_webroot h) ++ ext);
  sh_few : Z.of_nat (length (owned (w_vhosts w) ++ ext)) < 2 ^ 32 - 4;
  sh_pools : w_pools w = pools_with base (h_req h) (h_res h) (dat_bufs (h_io_priv h));
  sh_oomq : Forall (fun n => n_mask n <> NBIO_DELETED) (w_oomq w);
  sh_priv : priv_ok (h_io_priv h);
  sh_req : buf_in h_req_pool (h_req h);
  sh_res : buf_in h_res_pool (h_res h);
}.

Record conn_ok (base : pools) (ext : list nat) (h : conn) (w : world) : Prop := {
  ok_shared : shared_ok base ext h w;
  ok_mask : n_mask (h_nbio h) <> NBIO_DELETED;
  ok_len : 0 <= h_data_off h /\ 0 <= h_data_len h;
  ok_state : match h_state h with
    | HTTP_CONN_REQUEST => h_res h = None /\ h_io_priv h = idle /\ parse_ok h
    | HTTP_CONN_HEADER =>
      (exists b, h_res h = Some b /\ unread b <> []) /\ held (h_io_priv h) = [] /\
      (if decide (h_data_len h = 0) then h_io_priv h = idle
       else is_Some (h_webroot h) /\ prepared (h_io_priv h)) /\
      (h_conn_close h = 0 -> parse_ok h)
    | HTTP_CONN_DATA => h_res h = None /\ (is_Some (h_webroot h) /\ prepared (h_io_priv h)) /\ (h_conn_close h = 0 -> parse_ok h)
    | HTTP_CONN_DEAD => False
    end;
}.

(** After [http_kill]: everything but the webroot, which [http_dtor] releases,
    has been given back. *)
Record dead_ok (base : pools) (ext : list nat) (h : conn) (w : world) : Prop := {
  dead_state : h_state h = HTTP_CONN_DEAD;
  dead_nbio : n_fd (h_nbio h) = -1 /\ n_mask (h_nbio h) = NBIO_DELETED /\ n_flags (h_nbio h) = 0 /\
              n_list (h_nbio h) = Deleted;
  dead_pools : w_pools w = base;
  dead_vhosts : vhosts_ok (w_vhosts w) (w_heap w) (option_list (h_webroot h) ++ ext);
  dead_few : Z.of_nat (length (owned (w_vhosts w) ++ ext)) < 2 ^ 32 - 4;
}.

(** What killing needs; weaker than [conn_ok], which is broken on the way. *)
Definition killable (base : pools) (ext : list nat) (h : conn) (w : world) : Prop :=
  shared_ok base ext h w /\
  match h_state h with
  | HTTP_CONN_REQUEST => h_res h = None /\ dat_bufs (h_io_priv h) = 0%nat
  | HTTP_CONN_HEADER => True
  | HTTP_CONN_DATA => h_res h = None
  | HTTP_CONN_DEAD => False
  end.
End invariants.

(** What a model's [abort] must do: give back its data buffers, nothing else. *)
Class FioAbort (P : Type) `{FioSpec P} (abort : http_conn P -> world -> outcome (http_conn P * world)) : Prop := {
  idle_none : dat_bufs idle = 0%nat /\ held idle = [] /\ priv_ok idle;
  abort_gives_back : forall h w, busy h = true -> priv_ok (h_io_priv h) ->
    (dat_bufs (h_io_priv h) <= n_dat (w_pools w))%nat ->
    abort h w = Ret (h, with_pools w (set_use (w_pools w) h_dat_pool (n_dat (w_pools w) - dat_bufs (h_io_priv h))));
}.

Section kill.
Context {P : Type} (io_abort : http_conn P -> world -> outcome (http_conn P * world)) `{FioAbort P io_abort}.
Implicit Types (h : http_conn P) (w : world).

Lemma conn_killable base ext h w : conn_ok base ext h w -> killable base ext h w.
Proof.
  intros [Hs _ _ Hst]. split; [done|]. destruct (h_state h); try tauto.
  destruct Hst as (? & -> & _). split; [done|apply idle_none].
Qed.

Lemma wake_ok w : Forall (fun n => n_mask n <> NBIO_DELETED) (w_oomq w) ->
  wake_listeners w = Ret (with_oomq w []).
Proof.
  unfold wake_listeners. intros Hq. assert (foldr (fun n r => _ ← nbio_wake n NBIO_READ; r) (Ret tt) (w_oomq w) = Ret tt) as ->;
    [|done].
  induction Hq as [|n q Hn _ IH]; cbn [foldr]; [done|]. change (nbio_wake n NBIO_READ) with (nbio_set_wait n NBIO_READ).
  rewrite set_wait_ok by done. run. exact IH.
Qed.

Lemma free_req base req res dat w : w_pools w = pools_with base req res dat ->
  buf_free h_req_pool req w = Ret (with_pools w (pools_with base None res dat)).
Proof.
  unfold buf_free. intros ->. destruct req; cbn [do_free]; [|done].
  unfold pools_with at 1. cbn [in_use n_req some_buf]. rewrite Nat.add_1_r. run.
  unfold pools_with, set_use. cbn. by rewrite Nat.add_0_r.
Qed.

Lemma free_res base req res dat w : w_pools w = pools_with base req res dat ->
  buf_free h_res_pool res w = Ret (with_pools w (pools_with base req None dat)).
Proof.
  unfold buf_free. intros ->. destruct res; cbn [do_free]; [|done].
  unfold pools_with at 1. cbn [in_use n_res some_buf]. rewrite Nat.add_1_r. run.
  unfold pools_with, set_use. cbn. by rewrite Nat.add_0_r.
Qed.

Lemma abort_ok base req res h w : w_pools w = pools_with base req res (dat_bufs (h_io_priv h)) ->
  busy h = true -> priv_ok (h_io_priv h) ->
  io_abort h w = Ret (h, with_pools w (pools_with base req res 0)).
Proof.
  intros Hp Hb Hpr. rewrite abort_gives_back; [|done|done|rewrite Hp; cbn; lia].
  rewrite Hp. unfold pools_with, set_use. cbn. do 4 f_equal. lia.
Qed.

Lemma pools_none base : pools_with base None None 0 = base.
Proof. destruct base. unfold pools_with. cbn. by rewrite !Nat.add_0_r. Qed.

(** [http_kill] closes the descriptor, gives the buffers back and leaves the
    connection on the deleted list. *)
Lemma kill_ok base ext h w : killable base ext h w ->
  exists h' w', http_kill io_abort h w = Ret (h', w') /\ dead_ok base ext h' w' /\
    w_sent w' = w_sent w /\ w_closed w' = w_closed w ++ [n_fd (h_nbio h)] /\
    w_concurrency w' = w_concurrency w - 1 /\ h_webroot h' = h_webroot h /\ w_heap w' = w_heap w /\
    w_vhosts w' = w_vhosts w /\ h_conn_close h' = h_conn_close h.
Proof.
  intros [[Hfd Hc Hv Hf Hp Hq Hpr _ _] Hst]. unfold http_kill.
  rewrite (proj2 (Z.eqb_neq _ _) Hfd). cbn [h_nbio set_nbio set_fd w_concurrency with_closed].
  rewrite (proj2 (Z.eqb_neq (w_concurrency w) 0)) by lia. cbn [negb c_assert mbind outcome_bind].
  rewrite uint_small by lia.
  set (w1 := with_counts (with_closed w (w_closed w ++ [n_fd (h_nbio h)])) (w_concurrency w - 1) (w_reqs (with_closed w (w_closed w ++ [n_fd (h_nbio h)])))).
  assert (exists w2, (match w_oomq w1 with [] => Ret w1 | _ => wake_listeners w1 end) = Ret w2 /\
    w_pools w2 = w_pools w /\ w_sent w2 = w_sent w /\ w_closed w2 = w_closed w ++ [n_fd (h_nbio h)] /\
    w_concurrency w2 = w_concurrency w - 1 /\ w_heap w2 = w_heap w /\ w_vhosts w2 = w_vhosts w)
    as (w2 & -> & Hp2 & Hs2 & Hc2 & Hn2 & Hh2 & Hv2).
  { rewrite wake_ok by exact Hq. destruct (w_oomq w1); eexists; split_and!; (reflexivity || done). }
  clearbody w1. cbn [mbind outcome_bind h_req set_nbio].
  assert (forall st w3, w_pools w3 = base -> w_sent w3 = w_sent w2 -> w_closed w3 = w_closed w2 ->
    w_concurrency w3 = w_concurrency w2 -> w_heap w3 = w_heap w2 -> w_vhosts w3 = w_vhosts w2 ->
    let h3 := set_state (set_nbio h (set_fd (h_nbio h) (-1))) st in
    let h4 := set_nbio (set_state h3 HTTP_CONN_DEAD) (nbio_del (h_nbio (set_state h3 HTTP_CONN_DEAD))) in
    dead_ok base ext h4 w3 /\ w_sent w3 = w_sent w /\ w_closed w3 = w_closed w ++ [n_fd (h_nbio h)] /\
    w_concurrency w3 = w_concurrency w - 1 /\ h_webroot h4 = h_webroot h /\ w_heap w3 = w_heap w /\
    w_vhosts w3 = w_vhosts w /\ h_conn_close h4 = h_conn_close h) as Hend.
  { intros st w3 H1 H2 H3 H4 H5 H6. cbv zeta.
    split; [|split_and!; [congruence..|done|congruence|congruence|done]].
    constructor; [done|by split_and!|done| |by rewrite H6, Hv2].
    by rewrite H5, H6, Hh2, Hv2. }
  clear Hq Hv Hf. rewrite Hp in Hp2.
  rewrite (free_req _ _ _ _ _ Hp2). cbn [mbind outcome_bind h_state set_nbio]. set (w3 := with_pools w2 _).
  set (h3 := set_nbio h (set_fd (h_nbio h) (-1))).
  destruct (h_state h) eqn:Est; [| | |done].
  - destruct Hst as [Hr Hd]. cbn [h_res h3 set_nbio]. rewrite Hr. cbn [c_assert mbind outcome_bind bool_decide decide].
    eexists _, _. split; [reflexivity|]. apply (Hend (h_state h)); [|done..].
    unfold w3. cbn [w_pools with_pools]. by rewrite Hr, Hd, pools_none.
  - change (h_res h3) with (h_res h). rewrite (free_res base None (h_res h) (dat_bufs (h_io_priv h))) by done.
    run. set (w4 := with_pools w3 _).
    rewrite (abort_ok base None None) by (try done; unfold busy; cbn; by rewrite Est).
    run. eexists _, _. split; [reflexivity|]. apply (Hend (h_state h)); [|done..].
    cbn [w_pools with_pools]. by rewrite pools_none.
  - rewrite (abort_ok base None (h_res h)) by (try done; unfold busy; cbn; by rewrite Est).
    run. eexists _, _. split; [reflexivity|]. apply (Hend (h_state h)); [|done..].
    cbn [w_pools with_pools]. by rewrite Hst, pools_none.
Qed.
End kill.

(** The socket's next answer is an error, or that nothing was taken. *)
Definition send_broken (w : world) : Prop :=
  match w_send w with
  | SysErr e :: _ => e <> EAGAIN
  | SysOk O :: _ => True
  | _ => False
  end.

(** There is something left to do in the middle of a file. *)
Definition unfinished {P} `{FioSpec P} (h : http_conn P) : Prop :=
  h_state h = HTTP_CONN_DATA -> 0 < h_data_len h \/ held (h_io_priv h) <> [].

(** What transmitting must do, of the result of one call. It sends a prefix of what
    is pending and keeps the rest, and it does not stay in the middle of a file
    of which it has sent everything. The connection ends here when all has been
    sent and it is not to be used again; it is given up when the socket is broken
    or the model has grounds to. *)
Definition write_spec_on {P} `{FioSpec P} (grounds awaited : Prop) (base : pools) (ext : list nat) (h : http_conn P) (w : world)
    (r : outcome (bool * http_conn P * world)) : Prop :=
  match r with
  | Fault f => f = Blocked /\ awaited
  | Ret (ok, h', w') =>
    exists x rest, w_sent w' = w_sent w ++ x /\ pending h w = x ++ rest /\
    if (ok : bool) then
      (conn_ok base ext h' w' /\ pending h' w' = rest /\ (unfinished h -> unfinished h') /\ h_conn_close h' = h_conn_close h) \/
      (dead_ok base ext h' w' /\ rest = [] /\ h_conn_close h <> 0)
    else killable base ext h' w' /\ (rest = [] /\ h_conn_close h <> 0 \/ send_broken w \/ grounds)
  end.

Definition write_spec {P} `{FioSpec P} base ext (h : http_conn P) w :=
  write_spec_on (h_state h = HTTP_CONN_DATA /\ gives_up h w) (h_state h = HTTP_CONN_DATA /\ blocks h w) base ext h w.

(** The next [n] answers of the allocator are memory. *)
Definition answers_memory (a : alloc_answer) : Prop := ans_desc a = true /\ is_Some (ans_mem a).
Definition plenty (n : nat) (al : list alloc_answer) : Prop := (n <= length al)%nat /\ Forall answers_memory (take n al).

Lemma plenty_le m n al : (m <= n)%nat -> plenty n al -> plenty m al.
Proof.
  intros Hle [Hl Hf]. split; [lia|]. replace (take m al) with (take m (take n al)) by (rewrite take_take; f_equal; lia). by apply Forall_take.
Qed.

(** An allocation takes one answer. *)
Lemma alloc_plenty p w b w1 : buf_alloc p w = (b, w1) ->
  match b with
  | Some _ => forall n, plenty (S n) (w_alloc w) -> plenty n (w_alloc w1)
  | None => ~ plenty 1 (w_alloc w)
  end.
Proof.
  unfold buf_alloc, plenty. destruct (w_alloc w) as [|a al] eqn:E; [intros [= <- <-] [Hl _]; cbn in Hl; lia|].
  unfold do_alloc. destruct (ans_desc a) eqn:Ed; cbn [negb]; [destruct (ans_mem a) eqn:Em|]; intros [= <- <-]; cbn [w_alloc with_pools with_alloc].
  - intros n [Hl Hf]. cbn in Hl, Hf. split; [lia|]. by apply Forall_cons in Hf as [_ Hf].
  - intros [_ Hf]. cbn in Hf. apply Forall_cons in Hf as [[_ [m Hm]] _]. congruence.
  - intros [_ Hf]. cbn in Hf. apply Forall_cons in Hf as [[Hd _] _]. congruence.
Qed.

(** What the connection relies on from an I/O model. *)
Class FioLaws (P : Type) `{Fio P} `{FioSpec P} : Prop := {
  abort_law :: FioAbort P io_abort;
  prep_law : forall base req res h w, busy h = true -> h_io_priv h = idle ->
    w_pools w = pools_with base req res 0 ->
    exists ok p s al, io_prep h w =
        Ret (ok, set_priv h p s, with_pools (with_alloc w al) (pools_with base req res (dat_bufs p))) /\
      priv_ok p /\ held p = [] /\ (if ok then prepared p else p = idle /\ ~ plenty 1 (w_alloc w));
  write_law : forall base ext h w, conn_ok base ext h w -> h_state h = HTTP_CONN_DATA ->
    write_spec base ext h w (io_write h w);
}.

(** *** Small steps that keep the invariants *)

Lemma set_wait_read n m : n_mask n <> NBIO_DELETED -> m = NBIO_READ \/ m = NBIO_WRITE ->
  exists n', nbio_set_wait n m = Ret n' /\ n_fd n' = n_fd n /\ n_mask n' = m /\ n_mask n' <> NBIO_DELETED.
Proof. intros Hn [-> | ->]; rewrite set_wait_ok by done; eexists; split_and!; (reflexivity || done). Qed.

Section frames.
Context {P : Type} `{FioSpec P}.
Implicit Types (h : http_conn P) (w : world).

Lemma shared_nbio base ext h w n s t : shared_ok base ext h w -> n_fd n = n_fd (h_nbio h) ->
  shared_ok base ext (set_nbio h n) (with_send w s t).
Proof. intros [] Hfd. constructor; try done. cbn. by rewrite Hfd. Qed.

Lemma conn_nbio base ext h w n s t : conn_ok base ext h w -> n_fd n = n_fd (h_nbio h) ->
  n_mask n <> NBIO_DELETED -> conn_ok base ext (set_nbio h n) (with_send w s t).
Proof.
  intros [Hs Hm Hl Hst] Hfd Hmask. constructor; [by apply shared_nbio|done|done|exact Hst].
Qed.

Lemma with_send_id w : with_send w (w_send w) (w_sent w) = w.
Proof. by destruct w. Qed.

(** The four outcomes of [send], and what the last two say of the socket. *)
Lemma send_cases l w : exists s r, send l w = (r, with_send w s (w_sent w ++ match r with inl n => take n l | inr _ => [] end)) /\
  match r with
  | inl n => (n <= length l)%nat /\ (n = 0%nat -> l <> [] -> send_broken w)
  | inr e => e <> EAGAIN -> send_broken w
  end.
Proof.
  unfold send, send_broken. destruct (w_send w) as [|[n|e] s] eqn:E.
  - exists (w_send w), (inr EAGAIN). by rewrite app_nil_r, with_send_id.
  - exists s, (inl (moved n (length l))). split; [done|]. split; [apply moved_le|]. intros Hz Hl.
    destruct n as [|n]; [done|]. destruct l as [|c l]; [done|]. pose proof (moved_pos n (length (c :: l)) ltac:(cbn; lia)). lia.
  - exists s, (inr e). by rewrite app_nil_r.
Qed.

Lemma pending_send h w s t n : pending (set_nbio h n) (with_send w s t) = pending h w.
Proof. done. Qed.

Lemma inactive_mask n m : n_mask (nbio_inactive n m) = n_mask n /\ n_fd (nbio_inactive n m) = n_fd n.
Proof. done. Qed.

Lemma parse_frame h h' : h_req h' = h_req h -> h_rptr h' = h_rptr h -> h_rstate h' = h_rstate h ->
  parse_ok h -> parse_ok h'.
Proof. unfold parse_ok. by intros -> -> ->. Qed.
Lemma busy_data h : h_state h = HTTP_CONN_DATA -> busy h = true.
Proof. intros E. unfold busy. by rewrite E. Qed.

(** The webroot a connection sends from. *)
Lemma webroot_live base ext h w rp : shared_ok base ext h w -> h_webroot h = Some rp ->
  exists r, w_heap w !! rp = Some r.
Proof.
  intros Hs Hw. destruct (sh_vhosts _ _ _ _ Hs) as [_ _ Hr]. rewrite Hw in Hr.
  destruct (refs_live _ _ rp Hr) as [r ->]; [|by eexists]. cbn. set_solver.
Qed.

(** A [send] or [sendfile] that fails: waiting, or giving up. *)
Lemma send_error grounds awaited base ext h w s e : conn_ok base ext h w -> killable base ext h w ->
  (e <> EAGAIN -> send_broken w \/ grounds) ->
  write_spec_on grounds awaited base ext h w (Ret (match e with EAGAIN => true | _ => false end,
    match e with EAGAIN => set_nbio h (nbio_inactive (h_nbio h) NBIO_WRITE) | _ => h end,
    with_send w s (w_sent w ++ []))).
Proof.
  intros Hok [Hs Hst] Hwhy. exists [], (pending h w). cbn [app].
  assert (killable base ext h (with_send w s (w_sent w ++ []))) as Hk.
  { split; [|exact Hst]. apply (shared_nbio _ _ _ _ (h_nbio h) s (w_sent w ++ [])) in Hs; [by destruct h|done]. }
  destruct e; (split; [done|]; split; [done|]); try (split; [exact Hk|right; by apply Hwhy]).
  left. split_and!; [|by rewrite pending_send|done|done]. apply conn_nbio; [done|done|]. exact (ok_mask _ _ _ _ Hok).
Qed.
End frames.


(** *** The end of a transmission *)

Section completing.
Context {P : Type} (abort : http_conn P -> world -> outcome (http_conn P * world)) `{FioAbort P abort}.
Implicit Types (h : http_conn P) (w : world).

(** [http_conn_data_complete] once everything has been sent. *)
Lemma complete_ok base ext h w : shared_ok base ext h w -> n_mask (h_nbio h) <> NBIO_DELETED ->
  h_state h = HTTP_CONN_DATA -> h_res h = None -> h_io_priv h = idle -> h_data_len h = 0 ->
  0 <= h_data_off h -> (h_conn_close h = 0 -> parse_ok h) ->
  exists h' w', http_conn_data_complete abort h w = Ret (h', w') /\ w_sent w' = w_sent w /\ h_conn_close h' = h_conn_close h /\
    ((conn_ok base ext h' w' /\ pending h' w' = [] /\ unfinished h') \/
     (dead_ok base ext h' w' /\ h_conn_close h <> 0)).
Proof.
  intros Hs Hm Hst Hres Hidle Hlen Hoff Hparse. unfold http_conn_data_complete.
  rewrite bool_decide_true by done. run. rewrite Hlen.
  cbn [Z.eqb c_assert mbind outcome_bind h_nbio set_state].
  destruct (set_wait_read (h_nbio h) NBIO_READ Hm ltac:(by left)) as (n & -> & Hfd & _ & Hm').
  run.
  destruct Hs as [Sfd Sc [V1 V2 V3] Sf Spl Sq Spr Srq Srs].
  assert (owned (w_vhosts w) ++ option_list (h_webroot h) ++ ext ≡ₚ
    option_list (h_webroot h) ++ owned (w_vhosts w) ++ ext) as Hperm by solve_Permutation.
  rewrite Hperm in V3. destruct (refs_unref_opt (w_heap w) (h_webroot h) _ V3) as (hp & Hun & V3').
  { unfold few. rewrite !length_app in *. destruct (h_webroot h); cbn; lia. }
  change (h_webroot (set_nbio (set_state h HTTP_CONN_REQUEST) n)) with (h_webroot h). rewrite Hun.
  cbn [mbind outcome_bind h_conn_close set_webroot set_nbio set_state].
  set (h1 := set_webroot (set_nbio (set_state h HTTP_CONN_REQUEST) n) None). set (w1 := with_heap w hp).
  assert (shared_ok base ext h1 w1) as Hs1.
  { constructor; try done; cbn; by rewrite Hfd. }
  destruct (Z.eqb_spec (h_conn_close h) 0) as [Hc|Hc]; cbn [negb].
  - exists h1, w1. split; [done|]. split; [done|]. split; [done|]. left. split; [|by split].
    constructor; [done|done|cbn; lia|]. cbn. split_and!; try done. apply (parse_frame h); auto.
  - destruct (kill_ok abort base ext h1 w1) as (h2 & w2 & E & Hd & Hs2 & _ & _ & _ & _ & _ & Hcl).
    { split; [done|]. cbn. rewrite Hidle. split; [done|apply idle_none]. }
    exists h2, w2. split; [exact E|]. split; [by rewrite Hs2|]. split; [done|right; by split].
Qed.
End completing.

(** *** The beginning and the end of a connection *)

Lemma new_ok {P} `{FioSpec P} base ext s w :
  dat_bufs idle = 0%nat -> priv_ok idle -> s <> -1 ->
  0 <= w_concurrency w < 2 ^ 32 - 1 -> vhosts_ok (w_vhosts w) (w_heap w) ext ->
  Z.of_nat (length (owned (w_vhosts w) ++ ext)) < 2 ^ 32 - 4 -> w_pools w = base ->
  Forall (fun n => n_mask n <> NBIO_DELETED) (w_oomq w) ->
  exists h w', http_conn_new idle true s w = Ret (Some h, w') /\ conn_ok base ext h w' /\
    h_state h = HTTP_CONN_REQUEST /\ h_req h = None /\ w' = with_counts w (w_concurrency w + 1) (w_reqs w).
Proof.
  intros Hd Hp Hs Hc Hv Hf Hpl Hq. unfold http_conn_new. cbn [negb].
  change (nbio_add (nbio_new s) NBIO_READ) with (nbio_set_wait (nbio_new s) NBIO_READ).
  destruct (set_wait_read (nbio_new s) NBIO_READ ltac:(done) ltac:(by left)) as (n & -> & Hfd & _ & Hm).
  run. rewrite uint_small by lia. eexists _, _. split; [reflexivity|].
  split; [|done]. constructor; [|done|done|done]. constructor; try done; cbn; [by rewrite Hfd|lia|].
  rewrite Hd. destruct (w_pools w), base; simplify_eq. unfold pools_with. cbn. by rewrite !Nat.add_0_r.
Qed.

Lemma dtor_ok {P} `{FioSpec P} base ext (h : http_conn P) w : dead_ok base ext h w ->
  exists w', http_dtor h w = Ret w' /\ vhosts_ok (w_vhosts w') (w_heap w') ext /\ w_pools w' = base.
Proof.
  intros [_ _ Hp [V1 V2 V3] Hf]. unfold http_dtor.
  assert (owned (w_vhosts w) ++ option_list (h_webroot h) ++ ext ≡ₚ
    option_list (h_webroot h) ++ owned (w_vhosts w) ++ ext) as Hperm by solve_Permutation.
  rewrite Hperm in V3. destruct (refs_unref_opt (w_heap w) (h_webroot h) _ V3) as (hp & -> & V3').
  { unfold few. rewrite !length_app in *. destruct (h_webroot h); cbn; lia. }
  run. eexists. split; [reflexivity|]. split; [by constructor|done].
Qed.

(** ** Properties *)

(** C20: whatever a connection was doing, giving it up releases what it holds, once:
    [http_kill] closes its descriptor, returns its request, response and data
    buffers, counts it out and leaves it on the event loop's list of the dead;
    killing it again does nothing; and its destructor then releases its
    webroot, so that buffers and reference counts are those of the rest of the
    program. *)
Theorem connection_released {P} (abort : http_conn P -> world -> outcome (http_conn P * world)) `{FioAbort P abort}
    base ext (h : http_conn P) w : conn_ok base ext h w ->
  exists h1 w1 w2, http_kill abort h w = Ret (h1, w1) /\ http_kill abort h1 w1 = Ret (h1, w1) /\
    http_dtor h1 w1 = Ret w2 /\ w_closed w1 = w_closed w ++ [n_fd (h_nbio h)] /\
    w_concurrency w1 = w_concurrency w - 1 /\ n_list (h_nbio h1) = Deleted /\
    w_pools w2 = base /\ vhosts_ok (w_vhosts w2) (w_heap w2) ext.
Proof.
  intros Hok. destruct (kill_ok abort base ext h w (conn_killable abort base ext h w Hok))
    as (h1 & w1 & E & Hd & _ & Hc & Hn & _). destruct (dtor_ok base ext h1 w1 Hd) as (w2 & E2 & Hv & Hp).
  destruct (dead_nbio _ _ _ _ Hd) as (Hfd & _ & _ & Hl).
  exists h1, w1, w2. split_and!; try done. unfold http_kill. by rewrite Hfd.
Qed.

(** An I/O model that sends nothing, and a connection that has received half a
    request. *)
Definition null_spec : FioSpec bool :=
  {| held := fun _ => []; dat_bufs := fun _ => 0%nat; priv_ok := fun _ => True; idle := false; prepared := fun _ => False;
     gives_up := fun _ _ => False; blocks := fun _ _ => False |}.

Definition null_abort (h : http_conn bool) (w : world) : outcome (http_conn bool * world) := Ret (h, w).

Lemma null_abort_law : @FioAbort bool null_spec null_abort.
Proof.
  constructor; [done|]. intros h w _ _ _. unfold null_abort. cbn. do 2 f_equal.
  rewrite Nat.sub_0_r. destruct w as [? ? [] ]; done.
Qed.

Definition empty_world (pools : pools) : world :=
  World ∅ (Vhosts None None) pools 0 0 (replicate 64 0) [] ∅ [] [] [] [] [] [] [] [] no_aio.

Lemma empty_vhosts_ok : vhosts_ok (Vhosts None None) ∅ [].
Proof. constructor; [done|apply map_Forall_empty|]. intros x. by rewrite lookup_empty. Qed.

Lemma connection_released_witness :
  match http_conn_new false true 7 (empty_world (Pools 3 2 1)) with
  | Ret (Some h, w) =>
    exists h1 w1 w2, http_kill null_abort h w = Ret (h1, w1) /\ http_dtor h1 w1 = Ret w2 /\
      w_closed w1 = [7] /\ w_pools w2 = Pools 3 2 1
  | _ => False
  end.
Proof.
  destruct (@new_ok bool null_spec (Pools 3 2 1) [] 7 (empty_world (Pools 3 2 1))) as (h & w & E & Hok & _ & _ & ->);
    [done|done|done|cbn; lia|exact empty_vhosts_ok|cbn; lia|done|constructor|].
  cbn [idle null_spec] in E. rewrite E.
  destruct (@connection_released bool null_abort null_spec null_abort_law (Pools 3 2 1) [] h _ Hok)
    as (h1 & w1 & w2 & H1 & _ & H2 & H3 & _ & _ & H4 & _).
  exists h1, w1, w2. split_and!; [exact H1|exact H2| |exact H4]. rewrite H3.
  vm_compute in E. injection E as <-. reflexivity.
Defined.
