(* ===== verification/IoModels.v ===== *)
(** * io_sync.c and io_sendfile.c: two ways of sending a file

    The I/O models behind [fio_current]: reading through a data buffer, and
    [sendfile]; both meet the contract the connection relies on. *)

From S2P Require Import Prelude Os HttpParse Webroot Critbit Vhosts Nbio HttpBuf Aio HttpConn.
Local Open Scope Z_scope.

(** ** sendfile *)

Definition SENDFILE_CHUNK : Z := Z.shiftl 1 16.

(** [sendfile(sock, fd, &off, len)]. *)
Definition sendfile (fd off len : Z) (w : world) : (nat + errno) * world :=
  match w_send w with
  | [] => (inr EAGAIN, w)
  | SysErr e :: s => (inr e, with_send w s (w_sent w))
  | SysOk n :: s =>
    let src := drop (Z.to_nat off) (default [] (w_files w !! fd)) in
    let data := take (moved n (Z.to_nat len)) src in
    (inl (length data), with_send w s (w_sent w ++ data))
  end.

Definition io_sendfile_write (h : http_conn unit) (w : world) : outcome (bool * http_conn unit * world) :=
  '(fd, off, len) ← http_conn_data h w;
  let len := if SENDFILE_CHUNK <? len then SENDFILE_CHUNK else len in
  _ ← http_conn_socket h;
  match sendfile fd off len w with
  | (inr EAGAIN, w) => h ← http_conn_inactive h; Ret (true, h, w)
  | (inr _, w) => Ret (false, h, w)
  | (inl O, w) => Ret (false, h, w)
  | (inl ret, w) =>
    '(h, left_over) ← http_conn_data_read h (Z.of_nat ret);
    if left_over =? 0 then
      '(h, w) ← http_conn_data_complete (fun h w => Ret (h, w)) h w;
      Ret (true, h, w)
    else Ret (true, h, w)
  end.

Definition fio_sendfile : Fio unit := {|
  io_prep h w := Ret (true, h, w);
  io_write := io_sendfile_write;
  io_abort h w := Ret (h, w);
|}.
#[export] Existing Instance fio_sendfile.

(** ** Reading into a data buffer *)

Abbreviation sync_priv := (option http_buf).

Definition io_sync_prep (h : http_conn sync_priv) (w : world) : outcome (bool * http_conn sync_priv * world) :=
  let (data_buf, w) := buf_alloc h_dat_pool w in
  match data_buf with
  | None => Ret (false, h, w)
  | Some _ => h ← http_conn_set_priv h data_buf 0; Ret (true, h, w)
  end.

Definition io_sync_abort (h : http_conn sync_priv) (w : world) : outcome (http_conn sync_priv * world) :=
  '(data_buf, _) ← http_conn_get_priv h;
  w ← buf_free h_dat_pool data_buf w;
  Ret (h, w).

(** Topping up the buffer; [data_buf] is the object [h_io_priv] points to, so that
    what is done to it is seen there. The result is nothing for [return 0]. *)
Definition top_up (fd : Z) (data_buf : http_buf) (h : http_conn sync_priv) (w : world)
    : outcome (option http_buf * http_conn sync_priv * world) :=
  '(_, wsz) ← buf_write data_buf;
  if (wsz =? 0)%nat then Ret (Some data_buf, h, w)
  else
    let sz := if h_data_len h <? Z.of_nat wsz then Z.to_nat (h_data_len h) else wsz in
    '(ok, got, eof, ios, polls) ← fd_pread (w_ios w) (w_polls w) (default [] (w_files w !! fd))
                                    (Z.to_nat (h_data_off h)) sz false;
    let w := with_disk w ios polls in
    data_buf ← poke data_buf (b_write data_buf) got;
    let h := set_priv h (Some data_buf) (h_io_state h) in
    if negb ok || eof then Ret (None, h, w)
    else
      '(data_buf, _) ← buf_done_write data_buf (length got);
      let h := set_priv h (Some data_buf) (h_io_state h) in
      '(h, _) ← http_conn_data_read h (Z.of_nat (length got));
      Ret (Some data_buf, h, w).

Definition io_sync_write (h : http_conn sync_priv) (w : world) : outcome (bool * http_conn sync_priv * world) :=
  '(priv, _) ← http_conn_get_priv h;
  data_buf ← of_option OutOfBounds priv;
  '(fd, _, _) ← http_conn_data h w;
  '(topped, h, w) ← top_up fd data_buf h w;
  match topped with
  | None => Ret (false, h, w)
  | Some data_buf =>
    let data_len := h_data_len h in
    '(p, rsz) ← buf_read data_buf;
    _ ← http_conn_socket h;
    match send (bytes_at data_buf p rsz) w with
    | (inr EAGAIN, w) => h ← http_conn_inactive h; Ret (true, h, w)
    | (inr _, w) => Ret (false, h, w)
    | (inl O, w) => Ret (false, h, w)
    | (inl ret, w) =>
      '(data_buf, _) ← buf_done_read data_buf ret;
      let h := set_priv h (Some data_buf) (h_io_state h) in
      '(_, rsz) ← buf_read data_buf;
      if Z.of_nat rsz + data_len =? 0 then
        h ← http_conn_set_priv h None 0;
        w ← buf_free h_dat_pool (Some data_buf) w;
        '(h, w) ← http_conn_data_complete io_sync_abort h w;
        Ret (true, h, w)
      else
        '(_, wsz) ← buf_write data_buf;
        if Z.of_nat wsz <? data_len then
          data_buf ← buf_reset data_buf;
          Ret (true, set_priv h (Some data_buf) (h_io_state h), w)
        else Ret (true, h, w)
    end
  end.

Definition fio_sync : Fio sync_priv := {|
  io_prep := io_sync_prep;
  io_write := io_sync_write;
  io_abort := io_sync_abort;
|}.
#[export] Existing Instance fio_sync.

(** ** The contract

    [sendfile] gives up when there is nothing to send: the file ended early. *)

#[export] Instance sendfile_spec : FioSpec unit := {
  held _ := [];
  dat_bufs _ := 0%nat;
  priv_ok _ := True;
  idle := tt;
  prepared _ := True;
  gives_up h w := file_slice h w = [];
  blocks _ _ := False;
}.

(** Reading into a buffer gives up when it asks for nothing (the file having been
    read to its end, with room in the buffer, which is a fault of the model: see
    [io_sync_truncates]), on an error of the disk, when the file ended early, or
    when its buffer has been used up. *)

#[export] Instance sync_spec : FioSpec sync_priv := {
  held := from_option unread [];
  dat_bufs := some_buf;
  priv_ok := buf_in h_dat_pool;
  idle := None;
  prepared := is_Some;
  gives_up h w := exists b, h_io_priv h = Some b /\
    (h_data_len h = 0 /\ room b <> 0%nat \/ unread b = [] /\ room b = 0%nat \/ disk_error (w_ios w) (w_polls w) \/
     Z.of_nat (length (file_slice h w)) < h_data_len h);
  blocks _ w := disk_awaited HTTP_DATA_BUFFER (w_ios w) (w_polls w);
}.

#[export] Instance sendfile_abort_law : FioAbort unit io_abort.
Proof.
  constructor; [done|]. intros h w _ _ _. cbn. do 2 f_equal.
  rewrite Nat.sub_0_r. destruct w as [? ? [] ]; done.
Qed.

#[export] Instance sync_abort_law : FioAbort sync_priv io_abort.
Proof.
  constructor; [done|]. intros h w Hb _ Hle. cbn. unfold io_sync_abort, http_conn_get_priv. rewrite Hb.
  run. cbn in Hle. unfold buf_free, do_free. cbn [in_use].
  destruct (h_io_priv h) as [b|]; cbn [some_buf] in *.
  - destruct (n_dat (w_pools w)) as [|n]; [lia|]. cbn. by rewrite Nat.sub_0_r.
  - cbn. rewrite Nat.sub_0_r. do 2 f_equal. by destruct w as [? ? [] ].
Qed.

Section sendfile_laws.
Implicit Types (h : http_conn unit) (w : world).

Lemma sendfile_prep base req res h w : busy h = true -> h_io_priv h = idle ->
  w_pools w = pools_with base req res 0 ->
  exists ok p s al, io_prep h w =
      Ret (ok, set_priv h p s, with_pools (with_alloc w al) (pools_with base req res (dat_bufs p))) /\
    priv_ok p /\ held p = [] /\ (if ok then prepared p else p = idle /\ ~ plenty 1 (w_alloc w)).
Proof.
  intros _ _ Hp. exists true, tt, (h_io_state h), (w_alloc w). cbn. rewrite <- Hp. split; [|done].
  do 2 f_equal; [f_equal; by destruct h as [? ? ? ? ? ? ? ? [] ]|by destruct w].
Qed.

(** The part of the file still to be sent, from a webroot that is alive. *)
Lemma file_slice_at {P} (h : http_conn P) w rp r : h_webroot h = Some rp -> w_heap w !! rp = Some r ->
  file_slice h w = take (Z.to_nat (h_data_len h)) (drop (Z.to_nat (h_data_off h)) (default [] (w_files w !! r_fd r))).
Proof. intros E1 E2. unfold file_slice. rewrite E1. cbn. by rewrite E2. Qed.

(** Taking [n] bytes off the front of a slice of a file. *)
Lemma slice_advance (f : list Z) off len n : 0 <= off -> 0 <= len -> (n <= Z.to_nat len)%nat ->
  take (Z.to_nat len) (drop (Z.to_nat off) f) =
  take n (drop (Z.to_nat off) f) ++ take (Z.to_nat (len - Z.of_nat n)) (drop (Z.to_nat (off + Z.of_nat n)) f).
Proof.
  intros Ho Hl Hn. replace (Z.to_nat len) with (n + Z.to_nat (len - Z.of_nat n))%nat by lia.
  rewrite <- take_take_drop, drop_drop. do 3 f_equal. lia.
Qed.

(** Once [pre] has been sent and the position moved over it, the rest is left. *)
Lemma slice_rest {P Q} (h : http_conn P) w (h1 : http_conn Q) w1 rp r pre rest : h_webroot h = Some rp -> w_heap w !! rp = Some r ->
  h_webroot h1 = h_webroot h -> w_heap w1 = w_heap w -> w_files w1 = w_files w -> 0 <= h_data_off h -> 0 <= h_data_len h ->
  h_data_off h1 = h_data_off h + Z.of_nat (length pre) -> h_data_len h1 = h_data_len h - Z.of_nat (length pre) ->
  file_slice h w = pre ++ rest -> file_slice h1 w1 = rest.
Proof.
  intros Hw Hr E1 E2 E3 Ho Hl Eo El Hs. rewrite (file_slice_at h1 w1 rp r) by congruence. rewrite (file_slice_at h w rp r Hw Hr) in Hs.
  pose proof (f_equal length Hs) as Hlen. rewrite length_take, length_app in Hlen.
  rewrite (slice_advance _ _ _ (length pre)) in Hs by lia. apply app_inj_1 in Hs as [_ Hs]; [by rewrite E3, Eo, El|].
  rewrite length_take. rewrite length_drop in *. lia.
Qed.
End sendfile_laws.

(** *** sendfile meets it *)

Lemma sendfile_cases fd off len w : exists s r data,
  sendfile fd off len w = (r, with_send w s (w_sent w ++ data)) /\
  match r with
  | inl n => n = length data /\
      data = take n (drop (Z.to_nat off) (default [] (w_files w !! fd))) /\ (n <= Z.to_nat len)%nat /\
      (n = 0%nat -> send_broken w \/ Z.to_nat len = 0%nat \/ drop (Z.to_nat off) (default [] (w_files w !! fd)) = [])
  | inr e => data = [] /\ (e <> EAGAIN -> send_broken w)
  end.
Proof.
  unfold sendfile, send_broken. destruct (w_send w) as [|[n|e] s] eqn:E.
  - exists (w_send w), (inr EAGAIN), []. by rewrite app_nil_r, with_send_id.
  - eexists s, (inl _), _. split; [reflexivity|]. split; [done|].
    set (src := drop _ _). pose proof (moved_le n (Z.to_nat len)) as Hm. split_and!.
    + rewrite length_take. symmetry. destruct (decide (moved n (Z.to_nat len) <= length src)%nat).
      * by rewrite Nat.min_l by lia.
      * rewrite Nat.min_r by lia. by rewrite !take_ge by lia.
    + rewrite length_take. lia.
    + rewrite length_take. intros Hz. destruct n as [|n]; [by left|right]. destruct src as [|c src]; [by right|left]. cbn [length] in Hz.
      destruct (Z.to_nat len) as [|k] eqn:Ek; [done|]. pose proof (moved_pos n (S k) ltac:(lia)). lia.
  - exists s, (inr e), []. by rewrite app_nil_r.
Qed.

(** A connection in the middle of a file. *)
Lemma data_conn {P} `{FioSpec P} base ext (h : http_conn P) w : conn_ok base ext h w -> h_state h = HTTP_CONN_DATA ->
  shared_ok base ext h w /\ n_mask (h_nbio h) <> NBIO_DELETED /\ 0 <= h_data_off h /\ 0 <= h_data_len h /\
  h_res h = None /\ prepared (h_io_priv h) /\ (h_conn_close h = 0 -> parse_ok h) /\
  exists rp r, h_webroot h = Some rp /\ w_heap w !! rp = Some r.
Proof.
  intros [Hs Hm [Ho Hl] Hst] E. rewrite E in Hst. destruct Hst as (Hr & ([rp Hw] & Hp) & Hparse).
  split_and!; try done. destruct (webroot_live base ext h w rp Hs Hw) as [r Hr']. by exists rp, r.
Qed.

Lemma data_ok {P} `{FioSpec P} base ext (h : http_conn P) w : shared_ok base ext h w ->
  n_mask (h_nbio h) <> NBIO_DELETED -> h_state h = HTTP_CONN_DATA -> 0 <= h_data_off h /\ 0 <= h_data_len h ->
  h_res h = None -> is_Some (h_webroot h) -> prepared (h_io_priv h) -> (h_conn_close h = 0 -> parse_ok h) ->
  conn_ok base ext h w.
Proof. intros. constructor; try done. by rewrite H2. Qed.

Section sendfile_write.
Implicit Types (h : http_conn unit) (w : world).

Lemma sendfile_write base ext h w : conn_ok base ext h w -> h_state h = HTTP_CONN_DATA ->
  write_spec base ext h w (io_write h w).
Proof.
  intros Hok Hst. destruct (data_conn base ext h w Hok Hst) as (Hs & Hm & Ho & Hl & Hres & Hp & Hparse & rp & r & Hw & Hr).
  cbn [io_write fio_sendfile]. unfold io_sendfile_write, http_conn_data, http_conn_socket, http_conn_inactive.
  rewrite (busy_data h Hst), Hw. cbn [c_assert mbind outcome_bind option_bind]. rewrite Hr. run.
  set (len := if SENDFILE_CHUNK <? h_data_len h then _ else _).
  assert (0 <= len <= h_data_len h) as Hlen by (pose proof (eq_refl : SENDFILE_CHUNK = 65536); subst len; destruct (Z.ltb_spec SENDFILE_CHUNK (h_data_len h)); lia).
  assert (pending h w = file_slice h w) as Hpend by (unfold pending; rewrite Hst, Hres; done).
  rewrite (file_slice_at h w rp r Hw Hr) in Hpend.
  destruct (sendfile_cases (webroot_get_fd r) (h_data_off h) len w) as (s & res & data & -> & Hdata).
  unfold webroot_get_fd in Hdata.
  assert (killable base ext h w) as Hk by (split; [done|by rewrite Hst]).
  pose proof (fun e => send_error (h_state h = HTTP_CONN_DATA /\ gives_up h w) (h_state h = HTTP_CONN_DATA /\ blocks h w) base ext h w s e Hok Hk) as Herr.
  destruct res as [n|e]; [|destruct Hdata as [-> Hwhy]; specialize (Herr e (fun He => or_introl (Hwhy He))); destruct e; exact Herr].
  destruct Hdata as (Hn & Hdata & Hle & Hwhy). destruct n as [|n].
  { destruct data; [|done]. apply (Herr EINTR). intros _. destruct (Hwhy eq_refl) as [?|Hend]; [by left|right]. split; [done|]. cbn.
    rewrite (file_slice_at h w rp r Hw Hr). destruct Hend as [Hz|Hnil]; [|by rewrite Hnil, take_nil].
    assert (h_data_len h = 0) as -> by (pose proof (eq_refl : SENDFILE_CHUNK = 65536); subst len; destruct (Z.ltb_spec SENDFILE_CHUNK (h_data_len h)); lia). done. }
  unfold http_conn_data_read. rewrite (busy_data h Hst). run.
  rewrite (proj2 (Z.leb_le _ _)) by lia. run.
  change (h_data_len (set_data h (h_data_off h + Z.of_nat (S n)) (h_data_len h - Z.of_nat (S n))))
    with (h_data_len h - Z.of_nat (S n)).
  set (h1 := set_data h _ _). set (w1 := with_send w s _).
  assert (pending h w = data ++ file_slice h1 w1) as Hsplit.
  { rewrite (file_slice_at h1 w1 rp r Hw Hr), Hpend, Hdata. by apply slice_advance; lia. }
  assert (shared_ok base ext h1 w1) as Hs1 by by destruct Hs; constructor.
  destruct (Z.eqb_spec (h_data_len h - Z.of_nat (S n)) 0) as [Hz|Hz].
  - destruct (complete_ok (fun h w => Ret (h, w)) base ext h1 w1) as (h2 & w2 & -> & Hs2 & Hcl & Hend);
      [done|done|done|done|by destruct (h_io_priv h1)|done|cbn; lia|exact Hparse|].
    run. exists data, (file_slice h1 w1). split_and!; [done|done|].
    assert (file_slice h1 w1 = []) as Hnil.
    { rewrite (file_slice_at h1 w1 rp r Hw Hr). cbn [h_data_len h1 set_data]. by rewrite Hz. }
    rewrite Hnil. destruct Hend as [(? & ? & ?)|[? ?]]; [left|right]; by split_and!.
  - exists data, (file_slice h1 w1). split_and!; [done|done|]. left. split_and!.
    + apply data_ok; try done. cbn. lia.
    + unfold pending. cbn [h_state h1 set_data]. rewrite Hst. cbn. by rewrite Hres.
    + intros _ _. left. cbn. lia.
    + done.
Qed.
End sendfile_write.

#[export] Instance sendfile_laws : FioLaws unit.
Proof. constructor; [apply _|apply sendfile_prep|apply sendfile_write]. Qed.

(** *** The data buffer meets it *)

Section sync_write.
Implicit Types (h : http_conn sync_priv) (w : world).

Lemma sync_prep base req res h w : busy h = true -> h_io_priv h = idle ->
  w_pools w = pools_with base req res 0 ->
  exists ok p s al, io_prep h w =
      Ret (ok, set_priv h p s, with_pools (with_alloc w al) (pools_with base req res (dat_bufs p))) /\
    priv_ok p /\ held p = [] /\ (if ok then prepared p else p = idle /\ ~ plenty 1 (w_alloc w)).
Proof.
  intros Hb Hidle Hp. cbn [io_prep fio_sync]. unfold io_sync_prep, buf_alloc.
  assert (set_priv h None (h_io_state h) = h) as Hh.
  { cbn in Hidle. destruct h. cbn in *. by rewrite Hidle. }
  assert (forall al, with_pools (with_alloc w al) (pools_with base req res 0) = with_alloc w al) as Hw.
  { intros al. rewrite <- Hp. by destruct w. }
  destruct (w_alloc w) as [|a al] eqn:Ea.
  { exists false, None, (h_io_state h), []. cbn [dat_bufs sync_spec some_buf]. rewrite Hh, Hw, <- Ea.
    split; [by destruct w|]. split_and!; [done|done|done|]. intros [Hl _]. rewrite Ea in Hl. cbn in Hl. lia. }
  destruct (do_alloc h_dat_pool a (w_pools w)) as [[b|] ps] eqn:Ed.
  - apply alloc_ok in Ed as (A1 & A2 & A3 & A4 & A5 & ->).
    unfold http_conn_set_priv. rewrite Hb. run.
    exists true, (Some b), 0, al. split; [|split; [done|split; [done|by eexists]]].
    do 2 f_equal. rewrite Hp. unfold pools_with, set_use. cbn. do 2 f_equal. lia.
  - assert (~ plenty 1 (w_alloc w)) as Hpl.
    { apply (alloc_plenty h_dat_pool w None (with_pools (with_alloc w al) ps)). unfold buf_alloc. by rewrite Ea, Ed. }
    rewrite Ea in Hpl. apply alloc_none in Ed as ->. exists false, None, (h_io_state h), al.
    cbn [dat_bufs sync_spec some_buf]. rewrite Hh, Hw. split; [by destruct w|]. by split_and!.
Qed.

Lemma read_nothing ios : forall polls src eof ok got e ios' polls',
  read_loop ios polls src [] 0 eof = Ret (ok, got, e, ios', polls') -> got = [] /\ (ok = true -> e = true).
Proof.
  induction ios as [|[n|er] ios IH]; intros polls src eof ok got e ios' polls' E; cbn [read_loop] in E; cbv zeta in E; [done| |].
  - assert (min (moved (S n) 0) (length src) = 0)%nat as Hz by (pose proof (moved_le (S n) 0); lia).
    rewrite Hz in E. cbn in E. by simplify_eq.
  - destruct er; try (by eapply IH); try (by simplify_eq).
    destruct (fd_wait_single polls) as [[[] p]|]; [by eapply IH| |done]. by simplify_eq.
Qed.

(** What [fd_pread] gives: at most what was asked for, and if it says so all of it. *)
Lemma pread_cases ios polls file off sz :
  match fd_pread ios polls file off sz false with
  | Fault f => f = Blocked /\ disk_awaited (max 1 sz) ios polls
  | Ret (ok, got, eof, _, _) =>
    (length got <= sz)%nat /\
    if negb ok || eof then sz = 0%nat \/ disk_error ios polls \/ (length (drop off file) < sz)%nat
    else got = take sz (drop off file) /\ length got = sz /\ sz <> 0%nat
  end.
Proof.
  unfold fd_pread. destruct (read_loop ios polls (drop off file) [] sz false) as [[[[[ok got] eof] ios'] polls']|f] eqn:E;
    [|split; [by eapply read_loop_fault|by eapply read_loop_blocked]].
  destruct (decide (sz = 0%nat)) as [->|Hz].
  - apply read_nothing in E as [-> He]. split; [cbn; lia|]. destruct ok; [rewrite (He eq_refl)|]; by left.
  - pose proof (read_loop_short _ _ _ _ _ _ _ _ _ _ _ E ltac:(lia)) as Hwhy.
    apply read_loop_spec in E as (r & -> & [t Ht] & Hl & Hok); [|lia]. cbn [app]. split; [done|].
    destruct (negb ok || eof) eqn:Ef; [right; destruct Hwhy as [[-> ->]|?]; done|].
    apply orb_false_iff in Ef as [H1 ->]. apply negb_false_iff in H1. destruct (Hok H1) as [[Hr _]|[_ ?]]; [|done].
    split_and!; [|done|done]. rewrite Ht. by rewrite <- Hr, take_app_length.
Qed.

(** A buffer and a position in the file. *)
Lemma sync_frame base ext h w h' w' b : shared_ok base ext h w -> n_mask (h_nbio h) <> NBIO_DELETED ->
  is_Some (h_io_priv h) -> buf_ok b -> b_end b = HTTP_DATA_BUFFER ->
  h_nbio h' = h_nbio h -> h_res h' = h_res h -> h_req h' = h_req h -> h_io_priv h' = Some b ->
  h_webroot h' = h_webroot h -> w_concurrency w' = w_concurrency w -> w_vhosts w' = w_vhosts w ->
  w_heap w' = w_heap w -> w_pools w' = w_pools w -> w_oomq w' = w_oomq w -> shared_ok base ext h' w'.
Proof.
  intros [Sfd Sc Sv Sf Spl Sq Spr Srq Srs] Hm [b0 Hb0] Hok He E1 E2 E3 E4 E5 E6 E7 E8 E9 E10.
  constructor; rewrite ?E1, ?E2, ?E3, ?E4, ?E5, ?E6, ?E7, ?E8, ?E9, ?E10; try done.
  by rewrite Spl, Hb0.
Qed.

Lemma top_up_ok base ext h w b rp r : conn_ok base ext h w -> h_state h = HTTP_CONN_DATA -> h_io_priv h = Some b ->
  h_webroot h = Some rp -> w_heap w !! rp = Some r ->
  match top_up (r_fd r) b h w with
  | Fault f => f = Blocked /\ blocks h w
  | Ret (None, h', w') => killable base ext h' w' /\ w_sent w' = w_sent w /\ gives_up h w
  | Ret (Some b', h', w') =>
    (conn_ok base ext h' w' /\ h_state h' = HTTP_CONN_DATA /\ h_io_priv h' = Some b' /\
     pending h' w' = pending h w /\ w_sent w' = w_sent w /\ h_webroot h' = Some rp /\ w_heap w' !! rp = Some r) /\
    w_send w' = w_send w /\ h_conn_close h' = h_conn_close h /\ (unfinished h -> unfinished h') /\ (unread b' = [] -> gives_up h w)
  end.
Proof.
  intros Hok Hst Hb Hw Hr. destruct (data_conn base ext h w Hok Hst) as (Hs & Hm & Ho & Hl & Hres & Hp & Hparse & _).
  pose proof (sh_priv _ _ _ _ Hs) as Hbuf. cbn in Hbuf. rewrite Hb in Hbuf. destruct Hbuf as [Hbok Hbend].
  unfold top_up. rewrite (write_ok b Hbok). run.
  destruct (Nat.eqb_spec (room b) 0) as [Hfull|Hfull].
  { split; [by split_and!|]. split_and!; [done|done|done|]. intros Hu. exists b. split; [done|]. by right; left. }
  set (sz := if h_data_len h <? Z.of_nat (room b) then _ else _).
  assert (sz <= room b /\ sz <= Z.to_nat (h_data_len h))%nat as [Hsz Hszl]
    by (subst sz; destruct (Z.ltb_spec (h_data_len h) (Z.of_nat (room b))); lia).
  pose proof (pread_cases (w_ios w) (w_polls w) (default [] (w_files w !! r_fd r)) (Z.to_nat (h_data_off h)) sz) as Hpr.
  destruct (fd_pread _ _ _ _ sz false) as [[[[[ok got] eof] ios'] polls']|f].
  2:{ destruct Hpr as [-> Hpr]. split; [done|]. apply (disk_awaited_le (max 1 sz)); [|exact Hpr].
      assert (1 <= HTTP_DATA_BUFFER)%nat by by apply Nat.leb_le. assert (b_end b = HTTP_DATA_BUFFER) as He by exact Hbend.
      unfold room in Hsz. lia. }
  run. destruct Hpr as [Hgl Hgot].
  destruct (append_ok b got (length got) Hbok) as (b1 & b2 & -> & E2 & Hok1 & Hok2 & Hu1 & Hu2 & He1 & He2 & _); [lia|lia|].
  run. rewrite firstn_all in Hu2. set (h1 := set_priv h (Some b1) _). set (w1 := with_disk w ios' polls').
  assert (is_Some (h_io_priv h)) as Hpriv by by rewrite Hb.
  destruct (negb ok || eof).
  { split; [split; [by apply (sync_frame base ext h w h1 w1 b1); try done; rewrite He1|change (h_state h1) with (h_state h); by rewrite Hst]|].
    split; [done|]. exists b. split; [done|]. rewrite (file_slice_at h w rp r Hw Hr), length_take.
    destruct Hgot as [Hz|[?|Hshort]]; [left|by right; right; left|right; right; right; lia].
    revert Hz. subst sz. destruct (Z.ltb_spec (h_data_len h) (Z.of_nat (room b))); intros Hz; split; lia. }
  destruct Hgot as (Hg & Hglen & Hnz). rewrite E2. run.
  set (h2 := set_priv h1 (Some b2) _). unfold http_conn_data_read.
  change (busy h2) with (busy h). rewrite (busy_data h Hst). run.
  change (h_data_len h2) with (h_data_len h). rewrite (proj2 (Z.leb_le _ _)) by lia. run.
  set (h3 := set_data h2 _ _).
  assert (shared_ok base ext h3 w1) as Hs3 by by apply (sync_frame base ext h w h3 w1 b2); try done; rewrite He2.
  assert (unread b2 <> []) as Hne by (rewrite Hu2; intros [_ ->]%app_eq_nil; done).
  split; [split_and!; try done|split_and!; [done|done|intros _ _; right; exact Hne|done] ].
  - apply data_ok; try done; [cbn; lia|by eexists].
  - unfold pending. change (h_state h3) with (h_state h). rewrite Hst.
    change (h_res h3) with (h_res h). rewrite Hres. cbn [from_option app held sync_spec].
    rewrite (file_slice_at h w rp r Hw Hr), (file_slice_at h3 w1 rp r Hw Hr).
    change (h_io_priv h3) with (Some b2). rewrite Hb. cbn [from_option]. rewrite Hu2, <- app_assoc. f_equal.
    rewrite (slice_advance _ (h_data_off h) (h_data_len h) (length got)) by lia.
    rewrite Hglen, <- Hg, <- Hglen. done.
Qed.

Lemma write_spec_from grounds awaited base ext h w h1 w1 r : pending h1 w1 = pending h w -> w_sent w1 = w_sent w ->
  w_send w1 = w_send w -> h_conn_close h1 = h_conn_close h -> (unfinished h -> unfinished h1) ->
  write_spec_on grounds awaited base ext h1 w1 r -> write_spec_on grounds awaited base ext h w r.
Proof.
  intros E1 E2 E3 E4 Hun. unfold write_spec_on, send_broken. rewrite E1, E2, E3, E4. destruct r as [[[ok h'] w']|]; [|done].
  intros (x & rest & ? & ? & Hend). exists x, rest. split_and!; [done|done|]. destruct ok; [|done].
  destruct Hend as [(? & ? & ? & ?)|?]; [left|by right]. split_and!; auto.
Qed.

Lemma free_dat base req res b w : w_pools w = pools_with base req res 1 ->
  buf_free h_dat_pool (Some b) w = Ret (with_pools w (pools_with base req res 0)).
Proof.
  unfold buf_free. intros ->. cbn [do_free]. unfold pools_with at 1. cbn [in_use n_dat]. rewrite Nat.add_1_r.
  run. unfold pools_with, set_use. cbn. by rewrite Nat.add_0_r.
Qed.

(** Leaving [b2] in the data buffer between two writes. *)
Lemma sync_keep base ext h w b2 s t : conn_ok base ext h w -> h_state h = HTTP_CONN_DATA ->
  buf_ok b2 -> b_end b2 = HTTP_DATA_BUFFER ->
  let h' := set_priv h (Some b2) (h_io_state h) in let w' := with_send w s t in
  conn_ok base ext h' w' /\ pending h' w' = unread b2 ++ file_slice h w.
Proof.
  intros Hok Hst Hb He h' w'. destruct (data_conn base ext h w Hok Hst) as (Hs & Hm & Ho & Hl & Hres & Hp & Hparse & rp & r & Hw & Hr).
  split.
  - apply data_ok; try done; [|by eexists]. by apply (sync_frame base ext h w h' w' b2).
  - unfold pending. cbn [h_state h' set_priv]. rewrite Hst. cbn. by rewrite Hres.
Qed.

(** What follows a successful [send]: [b2] is the rest of the buffer. *)
Lemma sync_sent base ext h w b b2 s n : conn_ok base ext h w -> h_state h = HTTP_CONN_DATA -> h_io_priv h = Some b ->
  unread b2 = drop n (unread b) -> buf_ok b2 -> b_end b2 = HTTP_DATA_BUFFER ->
  let h1 := set_priv h (Some b2) (h_io_state h) in
  let w1 := with_send w s (w_sent w ++ take n (unread b)) in
  forall grounds awaited, write_spec_on grounds awaited base ext h w
    (if Z.of_nat (length (unread b2)) + h_data_len h =? 0 then
       h ← http_conn_set_priv h1 None 0;
       w ← buf_free h_dat_pool (Some b2) w1;
       '(h, w) ← http_conn_data_complete io_sync_abort h w;
       Ret (true, h, w)
     else if Z.of_nat (room b2) <? h_data_len h then
       b ← buf_reset b2;
       Ret (true, set_priv h1 (Some b) (h_io_state h1), w1)
     else Ret (true, h1, w1)).
Proof.
  intros Hok Hst Hb Hu2 Hok2 He2 h1 w1 grounds awaited. destruct (data_conn base ext h w Hok Hst) as (Hs & Hm & Ho & Hl & Hres & Hp & Hparse & rp & r & Hw & Hr).
  assert (pending h w = take n (unread b) ++ unread b2 ++ file_slice h w) as Hsplit.
  { unfold pending. rewrite Hst, Hres, Hb. cbn. rewrite Hu2, app_assoc. by rewrite (take_drop n (unread b)). }
  destruct (Z.eqb_spec (Z.of_nat (length (unread b2)) + h_data_len h) 0) as [Hz|Hz].
  - assert (unread b2 = []) as Hnil by (apply length_zero_iff_nil; lia). assert (h_data_len h = 0) as Hlen by lia.
    unfold http_conn_set_priv. change (busy h1) with (busy h). rewrite (busy_data h Hst). run.
    rewrite (free_dat base (h_req h) (h_res h) b2 w1) by (cbn; rewrite (sh_pools _ _ _ _ Hs), Hb; done).
    run. set (h2 := set_priv _ None 0). set (w2 := with_pools w1 _).
    destruct (complete_ok io_sync_abort base ext h2 w2) as (h3 & w3 & -> & Hs3 & Hcl & Hend); try done.
    { destruct Hs as [Sfd Sc Sv Sf Spl Sq Spr Srq Srs]. by constructor. }
    run. exists (take n (unread b)), []. split_and!; [by rewrite Hs3| |].
    { rewrite Hsplit, Hnil. rewrite (file_slice_at h w rp r Hw Hr), Hlen. done. }
    destruct Hend as [(? & ? & ?)|[? ?]]; [left|right]; by split_and!.
  - assert (forall b3, buf_ok b3 -> b_end b3 = HTTP_DATA_BUFFER -> unread b3 = unread b2 ->
      write_spec_on grounds awaited base ext h w (Ret (true, set_priv h (Some b3) (h_io_state h), w1))) as Hkeep.
    { intros b3 Hok3 He3 Hu3. destruct (sync_keep base ext h w b3 s (w_sent w ++ take n (unread b)) Hok Hst Hok3 He3) as [Hc Hpe].
      exists (take n (unread b)), (unread b2 ++ file_slice h w). split_and!; [done|done|]. left.
      split_and!; [exact Hc|etransitivity; [exact Hpe|by rewrite Hu3]| |done].
      intros _ _. cbn. rewrite Hu3. destruct (unread b2); [left; cbn in Hz; lia|by right]. }
    destruct (Z.ltb_spec (Z.of_nat (room b2)) (h_data_len h)); [|by apply Hkeep].
    destruct (reset_ok b2 Hok2) as (b3 & -> & Hok3 & _ & Hu3 & He3 & _). run. apply Hkeep; [done|by rewrite He3, He2|done].
Qed.

Lemma sync_write base ext h w : conn_ok base ext h w -> h_state h = HTTP_CONN_DATA ->
  write_spec base ext h w (io_write h w).
Proof.
  intros Hok Hst. destruct (data_conn base ext h w Hok Hst) as (_ & _ & _ & _ & _ & [b Hb] & _ & rp & r & Hw & Hr).
  cbn [io_write fio_sync]. unfold io_sync_write, http_conn_get_priv, http_conn_data.
  rewrite (busy_data h Hst), Hb, Hw. cbn [c_assert mbind outcome_bind of_option option_bind]. rewrite Hr.
  run. unfold webroot_get_fd. pose proof (top_up_ok base ext h w b rp r Hok Hst Hb Hw Hr) as Htop.
  destruct (top_up (r_fd r) b h w) as [[[[b1|] h1] w1]|f]; run.
  3:{ destruct Htop as [-> ?]. by split. }
  2:{ destruct Htop as (Hk & Hs & Hgu). exists [], (pending h w). rewrite app_nil_r. split_and!; [done|done|done|]. right. by right. }
  destruct Htop as ((Hok1 & Hst1 & Hb1 & Hpend & Hsent & Hw1 & Hr1) & Hsend & Hcl & Hun & Hnil).
  assert (unread b1 = [] -> h_state h = HTTP_CONN_DATA /\ gives_up h w) as Hgu by (intros Hu; split; [done|by apply Hnil]).
  unfold write_spec. revert Hgu. generalize (h_state h = HTTP_CONN_DATA /\ gives_up h w) (h_state h = HTTP_CONN_DATA /\ blocks h w).
  intros grounds awaited Hgu. apply (write_spec_from _ _ _ _ _ _ h1 w1); [done..|].
  clear Hnil. clear dependent h w b. rename h1 into h, w1 into w, b1 into b, Hok1 into Hok, Hst1 into Hst, Hb1 into Hb.
  destruct (data_conn base ext h w Hok Hst) as (Hs & _). pose proof (sh_priv _ _ _ _ Hs) as Hbuf. cbn in Hbuf. rewrite Hb in Hbuf. destruct Hbuf as [Hbok Hbend].
  rewrite (read_ok b Hbok). run. unfold http_conn_socket, http_conn_inactive. rewrite (busy_data h Hst). run.
  assert (bytes_at b (b_read b) (length (unread b)) = unread b) as -> by (rewrite length_unread by done; done).
  destruct (send_cases (unread b) w) as (s & res & -> & Hres').
  pose proof (fun e => send_error grounds awaited base ext h w s e Hok (conn_killable _ _ _ _ _ Hok)) as Herr.
  destruct res as [[|n]|e]; [| |specialize (Herr e (fun He => or_introl (Hres' He))); destruct e; exact Herr].
  { apply (Herr EINTR). intros _. destruct (decide (unread b = [])) as [Hu|Hu]; [right; by apply Hgu|left; by apply Hres']. }
  destruct Hres' as [Hres' _].
  destruct (done_read_ok b (S n) Hbok Hres') as (b2 & -> & Hok2 & Hu2 & He2 & _). run.
  rewrite (read_ok b2 Hok2). run. rewrite (write_ok b2 Hok2). run.
  exact (sync_sent base ext h w b b2 s (S n) Hok Hst Hb Hu2 Hok2 (eq_trans He2 Hbend) grounds awaited).
Qed.
End sync_write.

#[export] Instance sync_laws : FioLaws sync_priv.
Proof. constructor; [apply _|apply sync_prep|apply sync_write]. Qed.

(** ** Properties *)

(** C17: sending a file with [sendfile] meets the contract of an I/O model. One call
    on a connection in the middle of a file returns, without failing an
    assertion; it puts a prefix of what is left of the file on the wire and keeps
    exactly the rest to send; once everything has been sent it is no longer in the
    middle of the file: it has handed the connection back for the next request,
    releasing the webroot, or ended it if it was to be closed. It gives up only if
    the socket is broken or nothing is left of the file, and then all it leaves to
    do is to kill the connection. *)
Theorem io_sendfile_contract base ext h w :
  conn_ok base ext h w -> h_state h = HTTP_CONN_DATA -> write_spec base ext h w (io_sendfile_write h w).
Proof. apply sendfile_write. Qed.

(** A webroot of one file, ["/a"], five bytes at offset 2 of descriptor 9. *)
Definition tiny_map : list Z :=
  le_bytes 4 0 ++ le_bytes 4 0 ++ [0; 2] ++ lit "/a" ++ replicate 10 0 ++
  le_bytes 8 2 ++ le_bytes 8 5 ++ le_bytes 4 70 ++ le_bytes 4 9 ++ le_bytes 4 1700000000 ++ replicate 20 0x5a ++
  lit "text/html".
Definition tiny_root (refs : Z) : webroot := Webroot 9 refs tiny_map 1 0 1 0 22 22 70.

Definition tiny_world (heap : gmap nat webroot) (pools : pools) (alloc : list alloc_answer) (rcv : list recv_answer)
    (snd ios : list sysres) : world :=
  World heap (Vhosts None (Some 1%nat)) pools 1 0 (replicate 64 0) (lit "10.0.0.1:80") {[ 9 := lit "..hello.." ]}
    [] alloc rcv snd ios [] [] [] no_aio.

Definition sending_conn {P} (p : P) (buffered : nat) : http_conn P :=
  Conn (Nbio 7 NBIO_WRITE NBIO_WRITE Active) HTTP_CONN_DATA RSTATE_INITIAL 0 (Some 1%nat) 0 None None p
    (2 + Z.of_nat buffered) (5 - Z.of_nat buffered) 0.

Definition sending_world (dat : nat) (snd ios : list sysres) : world :=
  tiny_world {[ 1%nat := tiny_root 2 ]} (Pools 0 0 dat) [] [] snd ios.

Lemma tiny_refs k l : l = List.repeat 1%nat k -> (0 < k)%nat -> refs_ok {[ 1%nat := tiny_root (Z.of_nat k) ]} l.
Proof.
  intros -> Hk x. destruct (decide (x = 1%nat)) as [->|Hne].
  - rewrite lookup_singleton_eq. rewrite count_occ_repeat_eq by done. by split.
  - rewrite lookup_singleton_ne by done. by rewrite count_occ_repeat_neq by done.
Qed.

Lemma sending_ok {P} `{FioSpec P} (p : P) k snd ios : (k <= 5)%nat -> priv_ok p -> prepared p ->
  conn_ok (Pools 0 0 0) [] (sending_conn p k) (sending_world (dat_bufs p) snd ios).
Proof.
  intros Hk Hp Hpr. apply data_ok; try done; [|cbn; lia].
  constructor; try done; cbn; try lia. constructor; [done|apply map_Forall_empty|].
  change (refs_ok {[ 1%nat := tiny_root 2 ]} [1; 1]%nat).
  by apply (tiny_refs 2); [|lia].
Qed.

Lemma io_sendfile_contract_witness :
  match io_sendfile_write (sending_conn tt 0) (sending_world 0 [SysOk 3] []) with
  | Ret (ok, h', w') => ok = true /\ w_sent w' = lit "hel" /\ pending h' w' = lit "lo"
  | Fault _ => False
  end /\
  write_spec (Pools 0 0 0) [] (sending_conn tt 0) (sending_world 0 [SysOk 3] [])
    (io_sendfile_write (sending_conn tt 0) (sending_world 0 [SysOk 3] [])).
Proof.
  split; [vm_compute; done|].
  apply io_sendfile_contract; [|done]. exact (sending_ok tt 0 [SysOk 3] [] ltac:(lia) I I).
Defined.

(** C16: reading a file through a data buffer meets the same contract, whatever
    [pread] and the socket answer. What is pending is then the unsent part of the
    buffer and the unread part of the file; once both are empty the buffer has
    gone back to its pool and the connection on to the next request, or ended. A
    call can wait for the disk, and gives up only if the socket is broken, the
    disk reports an error, the file ends early, the buffer is used up, or the file
    has been read to its end while there is room in the buffer: see
    [io_sync_truncates]. *)
Theorem io_sync_contract base ext h w :
  conn_ok base ext h w -> h_state h = HTTP_CONN_DATA -> write_spec base ext h w (io_sync_write h w).
Proof. apply sync_write. Qed.

Definition data_buffer (l : list Z) : http_buf := HttpBuf (resize HTTP_DATA_BUFFER 0 l) 0 (length l).

Lemma data_buffer_ok l : (length l <= HTTP_DATA_BUFFER)%nat -> buf_in h_dat_pool (Some (data_buffer l)).
Proof. intros Hl. unfold buf_in, buf_ok, b_end. cbn [b_mem b_read b_write data_buffer]. rewrite length_resize. cbn. lia. Qed.

Lemma io_sync_contract_witness :
  match io_sync_write (sending_conn (Some (data_buffer [])) 0) (sending_world 1 [SysOk 9] [SysOk 8]) with
  | Ret (ok, h', w') => ok = true /\ w_sent w' = lit "hello" /\ h_state h' = HTTP_CONN_REQUEST /\ w_pools w' = Pools 0 0 0
  | Fault _ => False
  end /\
  write_spec (Pools 0 0 0) [] (sending_conn (Some (data_buffer [])) 0) (sending_world 1 [SysOk 9] [SysOk 8])
    (io_sync_write (sending_conn (Some (data_buffer [])) 0) (sending_world 1 [SysOk 9] [SysOk 8])).
Proof.
  split; [vm_compute; done|].
  apply io_sync_contract; [|done].
  exact (sending_ok (Some (data_buffer [])) 0 [SysOk 9] [SysOk 8] ltac:(lia)
    (data_buffer_ok [] ltac:(cbn; lia)) (ex_intro _ _ eq_refl)).
Defined.

Lemma pread_zero n ios polls f off : fd_pread (SysOk n :: ios) polls f off (Z.to_nat 0) false = Ret (true, [], true, ios, polls).
Proof.
  unfold fd_pread. change (Z.to_nat 0) with 0%nat. cbn [read_loop]. cbv zeta.
  assert ((moved (S n) 0 `min` length (drop off f)) = 0)%nat as Hz by (pose proof (moved_le (S n) 0); lia).
  revert Hz. generalize (moved (S n) 0 `min` length (drop off f))%nat. by intros ? ->.
Qed.

(** the synchronous model drops the end of a file whenever the socket does not
    take all of it at once: when the file has been read to its end, there is
    room in the buffer and bytes in it are still to be sent, the next call
    reads nothing, takes that for the end of the file, sends nothing and has
    the connection killed. *)
Theorem io_sync_truncates base ext h w b n ios :
  conn_ok base ext h w -> h_state h = HTTP_CONN_DATA -> h_io_priv h = Some b -> h_data_len h = 0 ->
  room b <> 0%nat -> w_ios w = SysOk n :: ios ->
  exists h' w', io_sync_write h w = Ret (false, h', w') /\ w_sent w' = w_sent w /\ pending h w = unread b.
Proof.
  intros Hok Hst Hb Hlen Hroom Hios.
  destruct (data_conn base ext h w Hok Hst) as (Hs & _ & _ & _ & Hres & _ & _ & rp & r & Hw & Hr).
  unfold io_sync_write, http_conn_get_priv, http_conn_data.
  rewrite (busy_data h Hst), Hb, Hw. cbn [c_assert mbind outcome_bind of_option option_bind]. rewrite Hr.
  run. unfold top_up.
  pose proof (sh_priv _ _ _ _ Hs) as Hbuf. cbn in Hbuf. rewrite Hb in Hbuf. destruct Hbuf as [Hbok _].
  rewrite (write_ok b Hbok). run. rewrite (proj2 (Nat.eqb_neq _ _) Hroom), Hlen.
  rewrite (proj2 (Z.ltb_lt 0 _)) by lia. rewrite Hios, pread_zero. run.
  destruct (append_ok b [] 0 Hbok) as (b1 & _ & -> & _); [cbn; lia|done|]. cbn [mbind outcome_bind negb orb].
  eexists _, _. split; [reflexivity|]. split; [done|]. unfold pending. rewrite Hst, Hres, Hb. cbn.
  by rewrite (file_slice_at h w rp r Hw Hr), Hlen, app_nil_r.
Qed.

Lemma io_sync_truncates_witness :
  let h := sending_conn (Some (data_buffer (lit "hello"))) 5 in
  let w := sending_world 1 [SysOk 9] [SysOk 8] in
  exists h' w', io_sync_write h w = Ret (false, h', w') /\ w_sent w' = [] /\ pending h w = lit "hello".
Proof.
  cbv zeta. destruct (io_sync_truncates (Pools 0 0 0) [] (sending_conn (Some (data_buffer (lit "hello"))) 5)
    (sending_world 1 [SysOk 9] [SysOk 8]) (data_buffer (lit "hello")) 8 []) as (h' & w' & H1 & H2 & H3);
    [exact (sending_ok (Some (data_buffer (lit "hello"))) 5 [SysOk 9] [SysOk 8] ltac:(lia)
       (data_buffer_ok (lit "hello") ltac:(by apply Nat.leb_le)) (ex_intro _ _ eq_refl))
    |done|done|done|by vm_compute|done|].
  exists h', w'. split; [exact H1|]. split; [exact H2|]. rewrite H3. by vm_compute.
Defined.
