(* ===== verification/Transmit.v ===== *)
(** * http_conn.c: transmitting a response

    What a client receives over any number of write callbacks, whatever the
    socket takes of each [send], and whichever I/O model sends the file. *)

From S2P Require Import Prelude Os HttpParse Webroot Vhosts Nbio HttpBuf HttpConn IoModels.
Local Open Scope Z_scope.

Section sending.
Context {P : Type} `{FioLaws P}.
Implicit Types (h : http_conn P) (w : world).

Lemma file_slice_none h w : h_data_len h = 0 -> file_slice h w = [].
Proof. unfold file_slice. intros ->. by destruct (h_webroot h ≫= _). Qed.

(** Once the header has been sent: its buffer goes back, and the file is next, if
    there is one, or the next request, or the end. *)
Lemma header_sent base ext h w b b' x s : conn_ok base ext h w -> h_state h = HTTP_CONN_HEADER -> h_res h = Some b ->
  pending h w = x ++ file_slice h w ->
  write_spec base ext h w (w ← buf_free h_res_pool (Some b') (with_send w s (w_sent w ++ x));
    let h := set_res (set_res h (Some b')) None in
    if negb (h_data_len h =? 0) then Ret (true, set_state h HTTP_CONN_DATA, w)
    else if negb (h_conn_close h =? 0) then Ret (false, h, w)
    else n ← nbio_set_wait (h_nbio h) NBIO_READ; Ret (true, set_state (set_nbio h n) HTTP_CONN_REQUEST, w)).
Proof.
  intros Hok Hst Hb Hsplit. pose proof Hok as [Hs Hm Hl Hstate]. rewrite Hst in Hstate.
  destruct Hstate as (_ & Hheld & Hdata & Hparse). assert (h_data_len h = 0 -> file_slice h w = []) as Hslice by apply file_slice_none. destruct Hs as [Hfd Hc Hv Hf Hp Hq Hpr Hrq Hrs]. rewrite Hb in Hp.
  set (w1 := with_send w s _). rewrite (free_res base (h_req h) (Some b') (dat_bufs (h_io_priv h))) by exact Hp.
  run. set (w2 := with_pools w1 _). set (h1 := set_res (set_res h (Some b')) None).
  assert (shared_ok base ext h1 w2) as Hs1 by by constructor.
  change (h_data_len h1) with (h_data_len h). change (h_conn_close h1) with (h_conn_close h). change (h_nbio h1) with (h_nbio h).
  destruct (Z.eqb_spec (h_data_len h) 0) as [Hd0|Hd0]; cbn [negb].
  - rewrite decide_True in Hdata by done. rewrite (Hslice Hd0) in Hsplit.
    destruct (Z.eqb_spec (h_conn_close h) 0) as [Hcl|Hcl]; cbn [negb].
    + destruct (set_wait_read (h_nbio h) NBIO_READ Hm ltac:(by left)) as (n' & -> & Hfd' & _ & Hm').
      cbn [mbind outcome_bind write_spec write_spec_on]. exists x, []. split_and!; [done|done|]. left. split_and!; [|done|done|done].
      constructor; [|done|done|].
      * constructor; try done. cbn. by rewrite Hfd'.
      * cbn. split_and!; [done|done|]. by apply (parse_frame h); [..|apply Hparse].
    + exists x, []. split_and!; [done|done| |by left]. split; [done|]. change (h_state h1) with (h_state h). by rewrite Hst.
  - rewrite decide_False in Hdata by done. exists x, (file_slice h w). split_and!; [done|done|]. left. split_and!.
    + constructor; [by constructor|done|done|]. cbn. destruct Hdata. by split_and!.
    + unfold pending. cbn. by rewrite Hheld.
    + intros _ _. left. cbn. lia.
    + done.
Qed.

Lemma write_hdr_ok base ext h w : conn_ok base ext h w -> h_state h = HTTP_CONN_HEADER ->
  write_spec base ext h w (http_write_hdr h w).
Proof.
  intros Hok Hst. pose proof Hok as [Hs Hm Hl Hstate]. rewrite Hst in Hstate.
  destruct Hstate as ((b & Hb & Hne) & Hheld & Hdata & Hparse). unfold http_write_hdr. rewrite Hb. run.
  pose proof (sh_res _ _ _ _ Hs) as Hres. rewrite Hb in Hres. destruct Hres as [Hbok Hbend]. rewrite (read_ok b Hbok). run.
  assert (bytes_at b (b_read b) (length (unread b)) = unread b) as -> by (rewrite length_unread by done; done).
  destruct (send_cases (unread b) w) as (s & r & -> & Hr).
  assert (pending h w = unread b ++ file_slice h w) as Hpend by (unfold pending; by rewrite Hst, Hb, Hheld).
  pose proof (fun e => send_error (h_state h = HTTP_CONN_DATA /\ gives_up h w) (h_state h = HTTP_CONN_DATA /\ blocks h w)
    base ext h w s e Hok (conn_killable _ _ _ _ _ Hok)) as Herr.
  destruct r as [[|n]|e]; [| |specialize (Herr e (fun He => or_introl (Hr He))); destruct e; exact Herr].
  { apply (Herr EINTR). intros _. left. by apply Hr. }
  destruct Hr as [Hr _].
  destruct (done_read_ok b (S n) Hbok Hr) as (b' & -> & Hbok' & Hu & He & _). run. rewrite (read_ok b' Hbok'). run.
  assert (pending h w = take (S n) (unread b) ++ unread b' ++ file_slice h w) as Hsplit by (by rewrite Hpend, Hu, app_assoc, take_drop).
  destruct (Nat.eqb_spec (length (unread b')) 0) as [Hz|Hz].
  - apply length_zero_iff_nil in Hz. rewrite Hz in Hsplit. by apply (header_sent base ext h w b).
  - exists (take (S n) (unread b)), (unread b' ++ file_slice h w). split_and!; [done|done|]. left.
    assert (unread b' <> []) as Hne' by (by intros E; rewrite E in Hz).
    destruct Hs as [Hfd Hc Hv Hf Hp Hq Hpr Hrq Hrs]. rewrite Hb in Hp. split_and!.
    + constructor; [constructor; try done|done|done|].
      * rewrite Hb in Hrs. cbn in Hrs |- *. destruct Hrs as [_ Hrs]. by rewrite He.
      * change (h_state (set_res h (Some b'))) with (h_state h). rewrite Hst. split_and!; [by exists b'|done|done|done].
    + unfold pending. change (h_state (set_res h (Some b'))) with (h_state h). rewrite Hst. cbn. by rewrite Hheld.
    + done.
    + done.
Qed.
End sending.

Section transmission.
Context {P : Type} `{FioLaws P}.
Implicit Types (h : http_conn P) (w : world).

Definition sending (h : http_conn P) : Prop := h_state h = HTTP_CONN_HEADER \/ h_state h = HTTP_CONN_DATA.

(** Why a connection in the middle of a response was given up. *)
Definition broken h w : Prop := send_broken w \/ h_state h = HTTP_CONN_DATA /\ gives_up h w.

Lemma http_write_ok base ext h w : conn_ok base ext h w -> sending h ->
  match http_write h w with
  | Fault f => f = Blocked /\ h_state h = HTTP_CONN_DATA /\ blocks h w
  | Ret (h', w') =>
    exists x rest, w_sent w' = w_sent w ++ x /\ pending h w = x ++ rest /\
      ((conn_ok base ext h' w' /\ pending h' w' = rest /\ (unfinished h -> unfinished h') /\ h_conn_close h' = h_conn_close h) \/
       (dead_ok base ext h' w' /\ (rest = [] /\ h_conn_close h <> 0 \/ broken h w)))
  end.
Proof.
  intros Hok Hst. unfold http_write.
  assert (write_spec base ext h w (match h_state h with HTTP_CONN_HEADER => http_write_hdr h w
    | HTTP_CONN_DATA => io_write h w | _ => Fault AssertFailed end)) as Hw.
  { destruct Hst as [E|E]; rewrite E; [by apply write_hdr_ok|by apply write_law]. }
  destruct (match h_state h with HTTP_CONN_HEADER => http_write_hdr h w
    | HTTP_CONN_DATA => io_write h w | _ => Fault AssertFailed end) as [[[ok h1] w1]|f]; [|exact Hw].
  cbn [mbind outcome_bind write_spec write_spec_on] in *. destruct Hw as (x & rest & Hs & Hp & Hk).
  destruct ok; cbn [negb].
  - exists x, rest. split_and!; [done|done|]. destruct Hk as [?|(? & ? & ?)]; [by left|right; split; [done|by left]].
  - destruct Hk as [Hk Hwhy]. destruct (kill_ok io_abort base ext h1 w1 Hk) as (h2 & w2 & -> & Hd & Hs2 & _).
    exists x, rest. split_and!; [by rewrite Hs2|done|by right].
Qed.

(** Write callbacks, with the event loop touching the descriptor in between. *)
Inductive transmits : http_conn P * world -> http_conn P * world -> Prop :=
| tx_stop c : transmits c c
| tx_write h w h' w' c : sending h -> http_write h w = Ret (h', w') -> transmits (h', w') c ->
    transmits (h, w) c
| tx_event h w n c : sending h -> n_fd n = n_fd (h_nbio h) -> n_mask n = n_mask (h_nbio h) ->
    transmits (set_nbio h n, w) c -> transmits (h, w) c.

(** On the way from [c], a callback on a connection whose socket was broken, or that
    the model had grounds to give up. *)
Definition cut_short (c : http_conn P * world) : Prop :=
  exists c0, transmits c c0 /\ sending c0.1 /\ broken c0.1 c0.2.

(** What a response has come to: it goes on, with what is left of it still pending,
    or the connection has ended, everything having been sent unless something
    was broken. *)
Definition transmitted (base : pools) (ext : list nat) (c c' : http_conn P * world) (rest : list Z) : Prop :=
  (conn_ok base ext c'.1 c'.2 /\ pending c'.1 c'.2 = rest /\ (unfinished c.1 -> unfinished c'.1)) \/
  (dead_ok base ext c'.1 c'.2 /\ (rest = [] /\ h_conn_close c.1 <> 0 \/ cut_short c)).

Lemma transmits_ok base ext c c' : transmits c c' -> conn_ok base ext c.1 c.2 ->
  exists x rest, w_sent c'.2 = w_sent c.2 ++ x /\ pending c.1 c.2 = x ++ rest /\ transmitted base ext c c' rest.
Proof.
  induction 1 as [c|h w h' w' c Hst Hw Htx IH|h w n c Hst Hfd Hm Htx IH]; intros Hok.
  - exists [], (pending c.1 c.2). rewrite app_nil_r. split_and!; [done|done|by left].
  - pose proof (http_write_ok base ext h w Hok Hst) as Hone. rewrite Hw in Hone.
    destruct Hone as (x & rest & Hs & Hp & [(Hok' & Hr & Hun & Hcl)|[Hd Hwhy]]).
    + destruct (IH Hok') as (x' & rest' & Hs' & Hp' & Hend). cbn [fst snd] in *. exists (x ++ x'), rest'.
      split_and!; [by rewrite Hs', Hs, app_assoc|by rewrite Hp, <- Hr, Hp', app_assoc|].
      destruct Hend as [(? & ? & ?)|[? Hwhy]]; [left; cbn in *; by split_and!; auto|right]. split; [done|]. cbn [fst] in *. rewrite <- Hcl.
      destruct Hwhy as [?|(c0 & ? & ?)]; [by left|right]. exists c0. split; [by eapply tx_write|done].
    + inversion Htx as [|? ? ? ? ? Hs'|? ? ? ? Hs']; subst; [|destruct Hs' as [E|E]; by rewrite (dead_state _ _ _ _ Hd) in E..].
      exists x, rest. split_and!; [done|done|]. right. split; [done|]. destruct Hwhy as [?|?]; [by left|right].
      exists (h, w). by split_and!; [apply tx_stop|..].
  - destruct IH as (x & rest & Hs & Hp & Hend).
    + cbn. pose proof (conn_nbio base ext h w n (w_send w) (w_sent w) Hok Hfd) as Hn. rewrite with_send_id in Hn.
      apply Hn. rewrite Hm. apply (ok_mask _ _ _ _ Hok).
    + exists x, rest. split_and!; [done|done|]. destruct Hend as [?|[? Hwhy]]; [by left|right]. split; [done|].
      destruct Hwhy as [?|(c0 & ? & ?)]; [by left|right]. exists c0. split; [by eapply tx_event|done].
Qed.
End transmission.

(** ** Properties *)



(** one write callback on a connection that has something to send cannot fail
    an assertion; the only thing that can hold it up is the disk. *)
Theorem http_write_safe {P} `{FioLaws P} base ext (h : http_conn P) w :
  conn_ok base ext h w -> sending h ->
  (exists h' w', http_write h w = Ret (h', w') /\ (conn_ok base ext h' w' \/ dead_ok base ext h' w')) \/
  http_write h w = Fault Blocked /\ h_state h = HTTP_CONN_DATA /\ blocks h w.
Proof.
  intros Hok Hst. pose proof (http_write_ok base ext h w Hok Hst) as Hw.
  destruct (http_write h w) as [[h' w']|f]; [left|right; destruct Hw as [-> ?]; done].
  exists h', w'. split; [done|]. destruct Hw as (x & rest & _ & _ & [[? _]|[? _]]); auto.
Qed.

Lemma http_write_safe_witness :
  sending (sending_conn tt 0) /\
  (http_write (sending_conn tt 0) (sending_world 0 [SysErr EOTHER] []) = Fault Blocked \/
   exists h' w', http_write (sending_conn tt 0) (sending_world 0 [SysErr EOTHER] []) = Ret (h', w') /\
     (conn_ok (Pools 0 0 0) [] h' w' \/ dead_ok (Pools 0 0 0) [] h' w')).
Proof.
  split; [by right|]. destruct (http_write_safe (Pools 0 0 0) [] (sending_conn tt 0) (sending_world 0 [SysErr EOTHER] []))
    as [H|[H _]]; [exact (sending_ok tt 0 _ [] ltac:(lia) I I)|by right|by right|by left].
Defined.
