(* ===== verification/Serve.v ===== *)
(** * http_conn.c: answering requests

    What [handle_request] owes the client for a request, as an executable
    specification, and that the connection gets exactly that to send. *)

From S2P Require Import Prelude Os Vec HttpParse HttpReq Normalize Webroot Critbit Vhosts.
From S2P Require Import Nbio HttpBuf HttpHead HttpConn IoModels Transmit.
Local Open Scope Z_scope.

(** ** What a request is answered

    The specification of [handle_request]: the bytes the client is owed for the
    request in [mem], header and body, nothing when the connection is dropped
    without an answer, and a fault where the code has none to give (a status
    code without an object, a header that does not fit, a date in January, a
    request without a host). [ready] says whether the I/O model could prepare to
    send a file; it is only asked for the contents of one that has some. With the
    bytes goes whether the connection is to be closed after them (0 for no). *)

Abbreviation answer := (list Z * Z)%type.

Definition body_of (w : world) (root : webroot) (off len : Z) : list Z :=
  take (Z.to_nat len) (drop (Z.to_nat off) (default [] (w_files w !! r_fd root))).

Definition file_reply (ready : bool) (w : world) (root : webroot) (n : webroot_name) (e : list Z) (head : bool) (close : Z)
    : option answer :=
  match n with
  | NameData mime_ptr mime_len off len mtime tag =>
    let hit := (length e =? 40)%nat && (vstrcmp e (take 40 (print_etag tag)) =? 0) in
    if negb ((0 <=? off) && (0 <=? len)) then None
    else if negb (len =? 0) && negb (head || hit) && negb ready then Some (resp500, 1)
    else
      match map_bytes root mime_ptr mime_len, print_time (gmtime mtime) with
      | Ret mime, Ret time =>
        let header := get_header (if hit then HTTP_NOT_MODIFIED else HTTP_FOUND) mime len close tag time in
        if (length header <=? HTTP_MAX_REQ)%nat && (length tag =? ETAG_SZ)%nat && (length time =? 29)%nat && (len <? 10 ^ 20)
        then Some (header ++ (if head || hit then [] else body_of w root off len), close)
        else None
      | _, _ => None
      end
  | _ => None
  end.

Definition reply (ready : bool) (w : world) (host : list Z) (found : option (nat * webroot * option webroot_name))
    (e : list Z) (head : bool) (close : Z) : option answer :=
  match found with
  | None => Some (resp403, close)
  | Some (_, _, None) => Some (resp404, close)
  | Some (_, root, Some (NameMoved ptr len)) =>
    match map_bytes root ptr len with
    | Ret loc =>
      let text := resp301 (cstr host) (cstr loc) in
      if (length text <? HTTP_MAX_REQ)%nat then Some (text, close) else None
    | Fault _ => None
    end
  | Some (_, _, Some (NameCode code)) => if code =? HTTP_FORBIDDEN then Some (resp403, close) else None
  | Some (_, root, Some n) => file_reply ready w root n e head close
  end.

Definition get_reply (ready : bool) (w : world) (mem : list Z) (r : http_request) (head : bool) : outcome (option answer) :=
  '(w1, hst, found) ← find_object w mem r;
  e ← (if (v_len (etag r) =? 40)%nat then vec_bytes mem (etag r) else Ret []);
  t ← of_option OutOfBounds (reply ready w1 hst found e head (conn_close r));
  Ret (Some t).

Definition with_sockname (w : world) (r : http_request) : http_request :=
  if (v_len (host r) =? 0)%nat
  then HttpRequest (method r) (RoVec Indet (length (w_sockname w)))
         (uri r) (query r) (hostname r) (etag r) (content_len r) (port r) (proto_vers r) (conn_close r)
  else r.

Definition request_reply (ready : bool) (w : world) (mem : list Z) : outcome (option answer) :=
  '(hlen, r) ← http_req mem;
  if (hlen =? 0)%nat then Ret (Some (resp400, 1))
  else if negb (content_len r =? 0) then Ret None
  else
    let r := with_sockname w r in
    m ← vec_bytes mem (method r);
    if vstrcmp_fast m (lit "GET") =? 0 then get_reply ready w mem r false
    else if vstrcmp_fast m (lit "HEAD") =? 0 then get_reply ready w mem r true
    else Ret (Some (resp501, 1)).

Section requests.
Context {P : Type} `{FioLaws P}.
Implicit Types (h : http_conn P) (w : world).

(** A connection whose request is being answered. *)
Record handling (base : pools) (ext : list nat) (h : http_conn P) (w : world) : Prop := {
  hd_shared : shared_ok base ext h w;
  hd_mask : n_mask (h_nbio h) <> NBIO_DELETED;
  hd_state : h_state h = HTTP_CONN_HEADER;
  hd_res : exists b, h_res h = Some b /\ buf_ok b /\ unread b = [] /\ room b = HTTP_MAX_REQ /\ b_end b = HTTP_MAX_REQ;
  hd_priv : h_io_priv h = idle;
  hd_few : Z.of_nat (length (owned (w_vhosts w) ++ option_list (h_webroot h) ++ ext)) < 2 ^ 32 - 4;
}.

(** ... and has been: [t] is the reply; the request side is as it was. *)
Record answered (base : pools) (ext : list nat) (h h' : http_conn P) (w' : world) (t : list Z) : Prop := {
  an_shared : shared_ok base ext h' w';
  an_nbio : h_nbio h' = h_nbio h;
  an_state : h_state h' = HTTP_CONN_HEADER;
  an_res : exists b, h_res h' = Some b /\ unread b <> [];
  an_held : held (h_io_priv h') = [];
  an_len : 0 <= h_data_off h' /\ 0 <= h_data_len h';
  an_data : if decide (h_data_len h' = 0) then h_io_priv h' = idle
            else is_Some (h_webroot h') /\ prepared (h_io_priv h');
  an_pending : pending h' w' = t;
  an_req : h_req h' = h_req h;
}.

(** Any way of leaving [b2] in the response buffer without data to follow. *)
Lemma answered_text base ext h w b2 text : handling base ext h w -> 0 <= h_data_off h ->
  buf_ok b2 -> b_end b2 = HTTP_MAX_REQ -> unread b2 = text -> text <> [] ->
  let h2 := set_data (set_res h (Some b2)) (h_data_off h) 0 in
  answered base ext h h2 w text /\ answered base ext h (set_close h2 1) w text.
Proof.
  intros [Hs Hm Hst (b & Hb & Hok & Hu & Hr & He) Hp Hw] Hoff Hok2 He2 Hu2 Hne h2.
  assert (shared_ok base ext h2 w) as Hs2.
  { destruct Hs as [Hfd Hc Hv Hf Hpl Hq Hpr Hrq Hrs]. constructor; try done.
    cbn. rewrite Hpl. by rewrite Hb. }
  assert (pending h2 w = text) as Hpend.
  { unfold pending. rewrite (file_slice_none h2 w eq_refl). cbn. rewrite Hst, Hp. cbn. by rewrite (proj1 (proj2 idle_none)), Hu2, app_nil_r. }
  assert (exists b, h_res h2 = Some b /\ unread b <> []) as Hres by (exists b2; split; [done|by rewrite Hu2]).
  split.
  - constructor; try done; cbn. rewrite Hp. apply idle_none.
  - constructor; try done; cbn; [by destruct Hs2; constructor|]. rewrite Hp. apply idle_none.
Qed.

Lemma canned_ok base ext h w text close : handling base ext h w -> (length text <= HTTP_MAX_REQ)%nat -> 0 <= h_data_off h ->
  (0 < length text)%nat ->
  exists h', response_canned text close h = Ret h' /\ answered base ext h h' w text /\
    h_conn_close h' = (if close then 1 else h_conn_close h).
Proof.
  intros Hh Ht Hoff Hpos. pose proof Hh as [Hs Hm Hst (b & Hb & Hok & Hu & Hr & He) Hp Hw]. unfold response_canned.
  rewrite Hb. run. rewrite (write_ok b Hok), Hr. run.
  change (HTTP_MAX_REQ =? 0)%nat with false. cbn iota.
  rewrite (proj2 (Nat.leb_le _ _)) by done. run.
  destruct (append_ok b text (length text) Hok) as (b1 & b2 & -> & H2 & _ & Hok2 & _ & Hu2 & _ & He2 & _); [lia|lia|].
  run. rewrite H2. run.
  rewrite Hu, firstn_all in Hu2. cbn [app] in Hu2.
  destruct (answered_text base ext h w b2 text Hh Hoff Hok2) as [Ha Hc]; [by rewrite He2|done|by destruct text; [cbn in Hpos; lia|]|].
  eexists. split; [reflexivity|]. by destruct close.
Qed.

Lemma moved_ok base ext h w hst loc : handling base ext h w -> 0 <= h_data_off h ->
  (length (resp301 (cstr hst) (cstr loc)) < HTTP_MAX_REQ)%nat ->
  exists h', response_301 h hst loc = Ret h' /\
    answered base ext h h' w (resp301 (cstr hst) (cstr loc)) /\ h_conn_close h' = h_conn_close h.
Proof.
  intros Hh Hoff Ht. pose proof Hh as [Hs Hm Hst (b & Hb & Hok & Hu & Hr & He) Hp Hw]. unfold response_301.
  assert (resp301 (cstr hst) (cstr loc) <> []) as Hne by done.
  set (text := resp301 (cstr hst) (cstr loc)) in *. clearbody text.
  rewrite Hb. run. rewrite (write_ok b Hok), Hr. run.
  change (HTTP_MAX_REQ =? 0)%nat with false. cbn iota.
  change (length resp301_format <=? HTTP_MAX_REQ)%nat with true. run.
  destruct (append_ok b resp301_format 0 Hok) as (b1 & _ & -> & _ & Hok1 & _ & Hu1 & _ & He1 & _ & _ & Hw1);
    [rewrite Hr; by apply Nat.leb_le|lia|].
  run.
  destruct (length_snprintf HTTP_MAX_REQ text Ht) as [Hl Htake].
  assert (room b1 = HTTP_MAX_REQ) as Hr1 by (unfold room in *; rewrite He1, Hw1; exact Hr).
  destruct (append_ok b1 (snprintf HTTP_MAX_REQ text) (length text) Hok1)
    as (b2 & b3 & -> & H3 & _ & Hok3 & _ & Hu3 & _ & He3 & _); [lia|lia|].
  run. rewrite H3. run.
  rewrite Hu1, Hu, Htake in Hu3.
  destruct (answered_text base ext h w b3 text Hh Hoff Hok3) as [Ha _]; [by rewrite He3, He1|done|done|].
  eexists. split; [reflexivity|]. by split.
Qed.

Lemma ref_ok hp l rp root : refs_ok hp l -> rp ∈ l -> few l -> hp !! rp = Some root ->
  ref hp rp = Ret (<[rp := webroot_ref root]> hp) /\ refs_ok (<[rp := webroot_ref root]> hp) (rp :: l).
Proof.
  intros Hr Hin Hf Hl. destruct (refs_ref hp rp l Hr Hin Hf) as (hp' & E & Hr').
  unfold ref in *. rewrite Hl in *. cbn in E |- *. injection E as <-. by split.
Qed.
End requests.

Section answering.
Context {P : Type} `{FioLaws P}.
Implicit Types (h : http_conn P) (w : world).

(** The parts of the world a connection can change while it keeps its invariant. *)
Lemma handling_frame base ext h w h' w' : handling base ext h w ->
  h_nbio h' = h_nbio h -> h_state h' = h_state h -> h_res h' = h_res h -> h_req h' = h_req h ->
  h_io_priv h' = h_io_priv h -> h_webroot h' = h_webroot h ->
  w_concurrency w' = w_concurrency w -> w_vhosts w' = w_vhosts w -> w_heap w' = w_heap w ->
  w_pools w' = w_pools w -> w_oomq w' = w_oomq w -> handling base ext h' w'.
Proof.
  intros [[Hfd Hc Hv Hf Hpl Hq Hpr Hrq Hrs] Hm Hst Hr Hp Hw] E1 E2 E3 E4 E5 E6 E7 E8 E9 E10 E11.
  constructor; [constructor|..]; by rewrite ?E1, ?E2, ?E3, ?E4, ?E5, ?E6, ?E7, ?E8, ?E9, ?E10, ?E11.
Qed.

Lemma file_reply_inv ready w root mp ml off len mt tag e head close t :
  file_reply ready w root (NameData mp ml off len mt tag) e head close = Some t ->
  let hit := (length e =? 40)%nat && (vstrcmp e (take 40 (print_etag tag)) =? 0) in
  0 <= off /\ 0 <= len /\
  if negb (len =? 0) && negb (head || hit) && negb ready then t = (resp500, 1)
  else exists mime time, map_bytes root mp ml = Ret mime /\ print_time (gmtime mt) = Ret time /\
    let header := get_header (if hit then HTTP_NOT_MODIFIED else HTTP_FOUND) mime len close tag time in
    (length header <= HTTP_MAX_REQ)%nat /\ length tag = ETAG_SZ /\ length time = 29%nat /\ 0 <= len < 10 ^ 20 /\
    t = (header ++ (if head || hit then [] else body_of w root off len), close).
Proof.
  intros Hr hit. unfold file_reply in Hr. fold hit in Hr.
  destruct (Z.leb_spec 0 off); [|done]. destruct (Z.leb_spec 0 len); [|done]. cbn [andb negb] in Hr.
  split; [done|]. split; [done|]. destruct (negb (len =? 0) && _ && _); [congruence|].
  destruct (map_bytes root mp ml) as [mime|]; [|done].
  destruct (print_time (gmtime mt)) as [time|]; [|done]. exists mime, time.
  split; [done|]. split; [done|]. intros header. fold header in Hr.
  match type of Hr with (if ?c then _ else _) = _ => destruct c eqn:Hcond end; [|done].
  injection Hr as <-. rewrite !andb_true_iff, !Nat.leb_le, !Nat.eqb_eq, Z.ltb_lt in Hcond.
  destruct Hcond as (((C1 & C2) & C3) & C4). by split_and!.
Qed.

(** The header goes into the response buffer. *)
Lemma header_ok base ext h w (hit : bool) mime len tag mt time : handling base ext h w -> 0 <= len < 10 ^ 20 -> print_time (gmtime mt) = Ret time ->
  let header := get_header (if hit then HTTP_NOT_MODIFIED else HTTP_FOUND) mime len (h_conn_close h) tag time in
  (length header <= HTTP_MAX_REQ)%nat -> length tag = ETAG_SZ -> length time = 29%nat ->
  exists b b2, h_res h = Some b /\
    get_response b (if hit then HTTP_NOT_MODIFIED else HTTP_FOUND) mime len (h_conn_close h) tag mt = Ret b2 /\
    buf_ok b2 /\ unread b2 = header /\ b_end b2 = HTTP_MAX_REQ.
Proof.
  intros [_ _ _ (b & Hb & Hok & Hu & Hr & He) _ _] Hl Htime header Hlen Htag Htl.
  destruct (get_response_ok b (if hit then HTTP_NOT_MODIFIED else HTTP_FOUND) mime len (h_conn_close h) tag mt time)
    as (b2 & Hgr & Hok2 & Hu2 & He2); [done|done|lia|done|done|by rewrite Hr|].
  exists b, b2. rewrite Hu in Hu2. split_and!; [done|done|done|done|by rewrite He2].
Qed.

(** The I/O model would not prepare: the connection is as it was, and gets the
    response that says so. *)
Lemma refused_ok base ext h w s al : handling base ext h w -> 0 <= h_data_off h ->
  let h1 := set_priv h (idle : P) s in
  let w1 := with_pools (with_alloc w al) (pools_with base (h_req h) (h_res h) (dat_bufs (idle : P))) in
  priv_ok (idle : P) -> exists h2, response_500 h1 = Ret h2 /\ answered base ext h h2 w1 resp500 /\ h_conn_close h2 = 1.
Proof.
  intros [Hs Hm Hst Hr Hp Hw] Hoff h1 w1 Hpok. assert (handling base ext h1 w1) as Hh1.
  { destruct Hs as [Hfd Hc Hv Hf Hpl Hq Hpr Hrq Hrs]. constructor; [constructor; try done|done|done|done|done|done]. }
  destruct (canned_ok base ext h1 w1 resp500 true Hh1) as (h2 & E & Ha & Hcl); [by apply Nat.leb_le|done|by apply Nat.ltb_lt|].
  exists h2. split; [exact E|]. split; [|done]. by destruct Ha; constructor.
Qed.

(** What a handler leaves: the connection with the reply [rep] gives to send. It is
    the reply of a model that was not ready only when the allocator had nothing.
    The reference to an earlier webroot can have been dropped on the way. *)
Definition gets (base : pools) (ext : list nat) h w (rep : bool -> outcome (option answer))
    (r : outcome (bool * http_conn P * world)) : Prop :=
  exists h' w' ready t lost, r = Ret (true, h', w') /\ rep ready = Ret (Some (t, h_conn_close h')) /\
    (ready = false -> ~ plenty 1 (w_alloc w)) /\ (lost = [] \/ lost = option_list (h_webroot h)) /\
    answered base (lost ++ ext) h h' w' t /\ w_sent w' = w_sent w.

(** The webroot is taken for the file to be sent from, over any that was there. *)
Lemma webroot_taken base ext h h1 w1 rp root b b2 : shared_ok base ext h1 w1 ->
  Z.of_nat (length (owned (w_vhosts w1) ++ option_list (h_webroot h1) ++ ext)) < 2 ^ 32 - 4 ->
  rp ∈ owned (w_vhosts w1) -> w_heap w1 !! rp = Some root -> h_nbio h1 = h_nbio h -> h_state h1 = HTTP_CONN_HEADER ->
  h_res h1 = Some b -> h_req h1 = h_req h -> buf_ok b2 -> b_end b2 = HTTP_MAX_REQ -> unread b2 <> [] -> held (h_io_priv h1) = [] ->
  0 <= h_data_off h1 -> 0 <= h_data_len h1 ->
  (if decide (h_data_len h1 = 0) then h_io_priv h1 = idle else prepared (h_io_priv h1)) ->
  exists hp, ref (w_heap w1) rp = Ret hp /\
    answered base (option_list (h_webroot h1) ++ ext) h (set_webroot (set_res h1 (Some b2)) (Some rp)) (with_heap w1 hp)
      (unread b2 ++ body_of w1 root (h_data_off h1) (h_data_len h1)).
Proof.
  intros [Sfd Sc [V1 V2 V3] Sf Spl Sq Spr Srq Srs] Hfew Hin Hroot En Est Er Eq Hok2 He2 Hne Hheld Hoff Hlen Hdata.
  destruct (ref_ok (w_heap w1) (owned (w_vhosts w1) ++ option_list (h_webroot h1) ++ ext) rp root) as [-> Hrefs];
    [done|set_solver|unfold few; lia|done|].
  eexists. split; [reflexivity|]. constructor; try done.
  - constructor; try done; [|cbn; by rewrite Spl, Er].
    constructor; [done|done|]. cbn. by rewrite <- Permutation_middle.
  - by exists b2.
  - change (h_data_len _) with (h_data_len h1). destruct (decide _); [done|]. split; [by eexists|done].
  - unfold pending, file_slice, body_of. cbn [h_state h_res h_io_priv h_webroot set_webroot set_res].
    rewrite Est. cbn [from_option]. rewrite Hheld. cbn [app]. f_equal.
    cbn [mbind option_bind w_heap with_heap]. by rewrite lookup_insert_eq.
Qed.

Lemma shared_counts base ext h w c r : shared_ok base ext h w -> w_concurrency w = c -> shared_ok base ext h (with_counts w c r).
Proof. intros [] <-. by constructor. Qed.

Lemma header_nonempty code mime len close tag time : get_header code mime len close tag time <> [].
Proof. done. Qed.

Lemma send_file_ok base ext h w rp root mp ml off len mt tag e head :
  handling base ext h w -> rp ∈ owned (w_vhosts w) -> w_heap w !! rp = Some root ->
  let rep ready := file_reply ready w root (NameData mp ml off len mt tag) e head (h_conn_close h) in
  (forall ready, exists t, rep ready = Some t) ->
  gets base ext h w (fun ready => Ret (rep ready)) (send_file h w rp root (NameData mp ml off len mt tag) e head).
Proof.
  intros Hh Hrp Hroot rep Hrep. destruct (Hrep true) as [t Ht]. pose proof (file_reply_inv _ _ _ _ _ _ _ _ _ _ _ _ _ Ht) as (Hoff & Hl0 & Hinv).
  rewrite andb_false_r in Hinv. destruct Hinv as (mime & time & Hmime & Htime & Hlen & Htag & Htl & Hl & Et).
  unfold send_file. set (hit := _ && _) in *. set (h0 := set_data h off len).
  assert (handling base ext h0 w) as Hh0 by by apply (handling_frame base ext h w).
  destruct (header_ok base ext h0 w hit mime len tag mt time Hh0 Hl Htime Hlen Htag Htl) as (b & b2 & Hb & Hgr & Hok2 & Hu2 & He2).
  change (h_conn_close h0) with (h_conn_close h) in *. pose proof (header_nonempty (if hit then HTTP_NOT_MODIFIED else HTTP_FOUND) mime len (h_conn_close h) tag time) as Hne.
  set (header := get_header _ _ _ _ _ _) in *. change (h_data_len h0) with len. destruct (head || hit) eqn:Ehead.
  { rewrite andb_false_r. cbn [mbind outcome_bind negb]. rewrite Hmime. run. rewrite Hb. run.
    change (h_data_len h0) with len. change (h_conn_close h0) with (h_conn_close h). rewrite Hgr.
    run. set (w1 := with_counts w _ _).
    destruct (answered_text base ext h0 w1 b2 header) as [Ha _]; [by apply (handling_frame base ext h w)|done|done|done|done|done|].
    eexists _, _, true, header, []. split; [reflexivity|]. rewrite Ht, Et, app_nil_r. cbn [h_conn_close set_data set_res h0]. split_and!; [done|done|by left| |done]. by destruct Ha; constructor. }
  rewrite andb_true_r. pose proof Hh0 as [Hs Hm Hst _ Hp Hfew].
  destruct (Z.eqb_spec len 0) as [Hz|Hz]; cbn [negb].
  - cbn [mbind outcome_bind negb]. rewrite Hmime. run. rewrite Hb. run.
    change (h_data_len h0) with len. change (h_conn_close h0) with (h_conn_close h). rewrite Hgr. run. set (w1 := with_counts w _ _).
    destruct (webroot_taken base ext h h0 w1 rp root b b2) as (hp & E & Ha); try done;
      [by apply shared_counts|by rewrite Hu2|rewrite Hp; apply idle_none|by rewrite decide_True|].
    change (w_heap w1) with (w_heap w) in E |- *. rewrite E. run. rewrite Hu2 in Ha.
    eexists _, _, true, t.1, (option_list (h_webroot h)). split; [reflexivity|]. rewrite Ht, Et. split_and!; [done|done|by right|exact Ha|done].
  - destruct (prep_law base (h_req h0) (h_res h0) h0 w) as (ok & p & s & al & -> & Hpok & Hheld & Hidle);
      [unfold busy; by rewrite Hst|done|rewrite (sh_pools _ _ _ _ Hs), Hp; by rewrite (proj1 idle_none)|].
    run. set (h1 := set_priv h0 p s). set (w1 := with_pools (with_alloc w al) _). destruct ok; cbn [negb].
    2:{ destruct Hidle as [-> Hno]. destruct (refused_ok base ext h0 w s al Hh0 Hoff Hpok) as (h2 & E & Ha & Hcl). fold h1 w1 in E, Ha. rewrite E. run.
        destruct (Hrep false) as [t' Ht']. pose proof (file_reply_inv _ _ _ _ _ _ _ _ _ _ _ _ _ Ht') as (_ & _ & Hinv).
        fold hit in Hinv. rewrite Ehead, (proj2 (Z.eqb_neq len 0) Hz) in Hinv. cbn [negb andb] in Hinv. subst t'.
        exists h2, w1, false, resp500, []. rewrite Ht', Hcl. split_and!; [done|done|done|by left| |done]. by destruct Ha; constructor. }
    rewrite Hmime. run. change (h_res h1) with (h_res h0). rewrite Hb. run.
    change (h_data_len h1) with len. change (h_conn_close h1) with (h_conn_close h). rewrite Hgr. run. set (w2 := with_counts w1 _ _).
    destruct (webroot_taken base ext h h1 w2 rp root b b2) as (hp & E & Ha); try done;
      [|by rewrite Hu2|by rewrite decide_False|].
    { destruct Hs. by constructor. }
    change (w_heap w2) with (w_heap w) in E |- *. rewrite E. run. rewrite Hu2 in Ha.
    eexists _, _, true, t.1, (option_list (h_webroot h)). split; [reflexivity|]. rewrite Ht, Et. split_and!; [done|done|by right|exact Ha|done].
Qed.
End answering.

Section replying.
Context {P : Type} `{FioLaws P}.
Implicit Types (h : http_conn P) (w : world).

Lemma find_object_inv w mem r w1 hst found : find_object w mem r = Ret (w1, hst, found) ->
  (exists ub, w1 = with_uribuf w ub) /\
  match found with
  | Some (rp, root, _) => vhosts_lookup (w_vhosts w) (Some (cstr hst)) = Some rp /\ w_heap w !! rp = Some root
  | None => True
  end.
Proof.
  unfold find_object. intros E. apply outcome_bind_ret in E as (u & _ & E).
  apply outcome_bind_ret in E as (n & _ & E). cbv zeta in E. apply outcome_bind_ret in E as (hb & _ & E).
  cbn [w_vhosts with_uribuf w_heap] in E.
  destruct (vhosts_lookup (w_vhosts w) (Some (cstr hb))) as [rp|] eqn:El.
  - apply outcome_bind_ret in E as (root & Hr & E). apply of_option_ret in Hr.
    apply outcome_bind_ret in E as (name & _ & [= <- <- <-]). split; [by eexists|]. by split.
  - injection E as <- <- <-. split; [by eexists|done].
Qed.

(** A reply depends on the world only through the parts a request reads. *)
Lemma get_reply_frame ready w w' mem r head : w_uribuf w' = w_uribuf w -> w_vhosts w' = w_vhosts w ->
  w_heap w' = w_heap w -> w_files w' = w_files w -> get_reply ready w' mem r head = get_reply ready w mem r head.
Proof.
  intros E1 E2 E3 E4. unfold get_reply, find_object. rewrite E1.
  destruct (vec_bytes mem (uri r)) as [u|]; [|done]. run.
  destruct (nads_normalize _ u) as [n|]; [|done]. run.
  destruct (vec_bytes mem (host r)) as [hb|]; [|done]. cbn [mbind outcome_bind w_vhosts w_heap with_uribuf].
  rewrite E2, E3. destruct (vhosts_lookup _ _) as [rp|]; [|done].
  destruct (w_heap w !! rp) as [root|]; [|done]. run.
  destruct (webroot_find _ _ _ _) as [name|]; [|done]. run.
  destruct (if (v_len (etag r) =? 40)%nat then _ else _) as [e|]; [|done]. run.
  unfold reply, file_reply, body_of. cbn [w_files with_uribuf]. by rewrite E4.
Qed.

Lemma canned_reply base ext h w text close : handling base ext h w -> 0 <= h_data_off h ->
  (0 <? length text)%nat && (length text <=? HTTP_MAX_REQ)%nat = true ->
  exists h', (h' ← response_canned text close h; Ret (true, h', w)) = Ret (true, h', w) /\
    answered base ext h h' w text /\ h_conn_close h' = (if close then 1 else h_conn_close h).
Proof.
  intros Hh Hoff [L1 L2]%andb_true_iff. apply Nat.leb_le in L2. apply Nat.ltb_lt in L1.
  destruct (canned_ok base ext h w text close Hh L2 Hoff L1) as (h' & E & Ha & Hc). exists h'. by rewrite E.
Qed.

Lemma gets_from base ext h w w1 rep1 rep r : gets base ext h w1 rep1 r -> w_alloc w1 = w_alloc w -> w_sent w1 = w_sent w ->
  (forall ready t, rep1 ready = Ret (Some t) -> rep ready = Ret (Some t)) -> gets base ext h w rep r.
Proof.
  intros (h' & w' & ready & t & lost & E1 & E2 & E3 & E4 & E5 & E6) Ha Hs Hrep.
  exists h', w', ready, t, lost. rewrite <- Ha, <- Hs. split_and!; auto.
Qed.

Lemma handle_get_ok base ext h w mem r head : handling base ext h w -> 0 <= h_data_off h -> h_conn_close h = conn_close r ->
  (forall ready, exists t, get_reply ready w mem r head = Ret (Some t)) ->
  gets base ext h w (fun ready => get_reply ready w mem r head) (handle_get h w mem r head).
Proof.
  intros Hh Hoff Hcl Hrep. unfold get_reply in Hrep |- *. unfold handle_get.
  destruct (find_object w mem r) as [[[w1 hst] found]|] eqn:Hf; [|by destruct (Hrep true)]. run.
  destruct (if (v_len (etag r) =? 40)%nat then _ else _) as [e|] eqn:He; [|by destruct (Hrep true)].
  destruct (find_object_inv _ _ _ _ _ _ Hf) as ((ub & ->) & Hfound). run.
  assert (forall ready, exists t, reply ready (with_uribuf w ub) hst found e head (conn_close r) = Some t) as Hr.
  { intros ready. destruct (Hrep ready) as [t Ht]. run_in Ht. destruct (reply ready _ _ _ _ _ _) as [t'|]; [by exists t'|done]. }
  rewrite <- Hcl in Hr |- *. assert (forall ready t, Ret (reply ready (with_uribuf w ub) hst found e head (h_conn_close h)) = Ret (Some t) ->
    (t ← of_option OutOfBounds (reply ready (with_uribuf w ub) hst found e head (h_conn_close h)); Ret (Some t)) = Ret (Some t)) as Hback.
  { intros ready t E. destruct (reply ready _ _ _ _ _ _); [|done]. run. congruence. }
  eapply (gets_from _ _ _ _ (with_uribuf w ub)); [|reflexivity|reflexivity|intros ready t E; apply Hback, E]. clear Hback Hrep.
  assert (handling base ext h (with_uribuf w ub)) as Hh1 by by apply (handling_frame base ext h w).
  assert (forall text rep, (0 <? length text)%nat && (length text <=? HTTP_MAX_REQ)%nat = true -> rep true = Ret (Some (text, h_conn_close h)) ->
    gets base ext h (with_uribuf w ub) rep (h' ← response_canned text false h; Ret (true, h', with_uribuf w ub))) as Hcanned.
  { intros text rep Hl Et. destruct (canned_reply base ext h _ text false Hh1 Hoff Hl) as (h' & E & Ha & Hc).
    exists h', (with_uribuf w ub), true, text, []. rewrite Hc. by split_and!; try by left. }
  destruct found as [[[rp root] [name|]]|]; cbn [reply] in Hr |- *; [|by apply Hcanned..].
  destruct Hfound as [Hl Hroot]. destruct name as [code|ptr len|mp ml off len mt tag].
  - destruct (code =? HTTP_FORBIDDEN); [by apply Hcanned|by destruct (Hr true)].
  - destruct (map_bytes root ptr len) as [loc|]; [|by destruct (Hr true)]. run.
    destruct (Nat.ltb_spec (length (resp301 (cstr hst) (cstr loc))) HTTP_MAX_REQ) as [Hlt|]; [|by destruct (Hr true)].
    destruct (moved_ok base ext h (with_uribuf w ub) hst loc Hh1 Hoff Hlt) as (h' & E & Ha & Hc). rewrite E. run.
    exists h', (with_uribuf w ub), true, (resp301 (cstr hst) (cstr loc)), []. rewrite Hc. by split_and!; try by left.
  - apply send_file_ok; [done| |done|done].
    apply (lookup_owned _ (Some (cstr hst))); [|done]. exact (ok_tree _ _ _ (sh_vhosts _ _ _ _ (hd_shared _ _ _ _ Hh))).
Qed.
End replying.

Section receiving.
Context {P : Type} `{FioLaws P}.
Implicit Types (h : http_conn P) (w : world).

Lemma answered_conn base ext h h' w t : answered base ext h h' w t -> n_mask (h_nbio h) <> NBIO_DELETED ->
  (h_conn_close h' = 0 -> parse_ok h') -> conn_ok base ext h' w.
Proof.
  intros [Hs Hn Hst Hr Hh Hl Hd Hp Hq] Hm Hparse. constructor; [done|by rewrite Hn|done|].
  rewrite Hst. by split_and!.
Qed.

Lemma pending_req h w b ps rs rp :
  pending (set_parse (set_req h b) rs rp) (with_pools w ps) = pending h w /\
  pending (set_req h b) (with_pools w ps) = pending h w.
Proof. done. Qed.

Lemma get_reply_some ready w mem r head o : get_reply ready w mem r head = Ret o -> exists t, o = Some t.
Proof.
  unfold get_reply. intros E. apply outcome_bind_ret in E as ([[w1 hst] found] & _ & E).
  apply outcome_bind_ret in E as (e & _ & E). apply outcome_bind_ret in E as (t & _ & [= <-]). by eexists.
Qed.

Lemma alloc_pools base req dat b w : w_pools w = pools_with base req None dat ->
  set_use (w_pools w) h_res_pool (S (in_use (w_pools w) h_res_pool)) = pools_with base req (Some b) dat.
Proof. intros ->. unfold pools_with, set_use. cbn. f_equal. lia. Qed.

(** What is in the request buffer. *)
Definition unasked h : list Z := from_option unread [] (h_req h).

(** The request buffer once the header has been taken from it. *)
Lemma after_request base ext h0 h w t b hlen : answered base ext h0 h w t ->
  n_mask (h_nbio h0) <> NBIO_DELETED -> h_req h0 = Some b -> (hlen <= length (unread b))%nat ->
  exists h' w', ('(req, sz) ← buf_done_read b hlen;
        if negb (sz =? 0)%nat then
          req ← buf_reset req;
          Ret (set_parse (set_req h (Some req)) RSTATE_INITIAL 0, w)
        else
          w ← buf_free h_req_pool (Some req) w;
          Ret (set_req h None, w)) = Ret (h', w') /\
    conn_ok base ext h' w' /\ h_state h' = HTTP_CONN_HEADER /\ pending h' w' = t /\ w_sent w' = w_sent w /\
    unasked h' = drop hlen (unread b) /\ h_conn_close h' = h_conn_close h.
Proof.
  intros Ha Hm Hb Hlen. pose proof (an_shared _ _ _ _ _ _ Ha) as Hs. rewrite <- (an_req _ _ _ _ _ _ Ha) in Hb.
  pose proof (sh_req _ _ _ _ Hs) as Hreq. rewrite Hb in Hreq. destruct Hreq as [Hok Hend].
  destruct (done_read_ok b hlen Hok Hlen) as (b1 & -> & Hok1 & Hu1 & He1 & _). run.
  destruct (Nat.eqb_spec (length (unread b1)) 0) as [Hz|Hz]; cbn [negb].
  - destruct Hs as [Hfd Hc Hv Hf Hpl Hq Hpr Hrq Hrs]. rewrite Hb in Hpl.
    rewrite (free_req base (Some b1) (h_res h) (dat_bufs (h_io_priv h)) w) by exact Hpl.
    run. eexists _, _. split; [reflexivity|]. split.
    + destruct Ha as [_ An Ast Ar Ah Al Ad Ap Aq]. constructor; [by constructor|cbn; by rewrite An|done|].
      cbn. rewrite Ast. by split_and!.
    + split; [exact (an_state _ _ _ _ _ _ Ha)|]. split; [exact (an_pending _ _ _ _ _ _ Ha)|]. split; [done|].
      split; [|done]. rewrite <- Hu1. cbn. symmetry. by apply length_zero_iff_nil.
  - destruct (reset_ok b1 Hok1) as (b2 & -> & Hok2 & Hr2 & Hu2 & He2 & Hw2). run.
    eexists _, _. split; [reflexivity|]. split.
    + destruct Hs as [Hfd Hc Hv Hf Hpl Hq Hpr Hrq Hrs]. rewrite Hb in Hpl.
      destruct Ha as [_ An Ast Ar Ah Al Ad Ap Aq].
      constructor; [constructor; try done|cbn; by rewrite An|done|].
      * split; [done|]. by rewrite He2, He1.
      * cbn. rewrite Ast. split_and!; try done. intros _. unfold parse_ok. cbn. split_and!; (done || lia).
    + split; [exact (an_state _ _ _ _ _ _ Ha)|]. split; [exact (an_pending _ _ _ _ _ _ Ha)|]. split; [done|]. split; [|done]. cbn. by rewrite Hu2.
Qed.

(** The reply to [mem] is ready to be sent and the bytes of the request gone. *)
Definition replying (base : pools) (ext : list nat) (n : nat) h w (mem : list Z) h' w' : Prop :=
  exists ready lost k r, request_reply ready w mem = Ret (Some (pending h' w', h_conn_close h')) /\
    (ready = false -> ~ plenty n (w_alloc w)) /\ (lost = [] \/ lost = option_list (h_webroot h)) /\
    conn_ok base (lost ++ ext) h' w' /\ h_state h' = HTTP_CONN_HEADER /\
    http_req mem = Ret (k, r) /\ unasked h' = drop k mem.

(** What [handle_request] leaves: a connection with the reply to send, or a dead one,
    for want of memory or because there is no reply. *)
Definition replied (base : pools) (ext : list nat) h w (mem : list Z) (r : outcome (http_conn P * world)) : Prop :=
  exists h' w', r = Ret (h', w') /\ w_sent w' = w_sent w /\
    (replying base ext 2 h w mem h' w' \/
     dead_ok base ext h' w' /\ (~ plenty 2 (w_alloc w) \/ exists ready, request_reply ready w mem = Ret None)).

Lemma kill_replied base ext h h0 w w0 mem : killable base ext h w -> w_sent w = w_sent w0 ->
  ~ plenty 2 (w_alloc w0) \/ (exists ready, request_reply ready w0 mem = Ret None) ->
  replied base ext h0 w0 mem (http_kill io_abort h w).
Proof.
  intros Hk Hs Hwhy. destruct (kill_ok io_abort base ext h w Hk) as (h' & w' & -> & Hd & Hs' & _).
  exists h', w'. split; [done|]. split; [by rewrite Hs'|by right].
Qed.

(** A connection that may handle a request. *)
Record requesting (base : pools) (ext : list nat) (h : http_conn P) (w : world) : Prop := {
  rq_shared : shared_ok base ext h w;
  rq_mask : n_mask (h_nbio h) <> NBIO_DELETED;
  rq_off : 0 <= h_data_off h;
  rq_state : h_state h = HTTP_CONN_REQUEST;
  rq_res : h_res h = None;
  rq_priv : h_io_priv h = idle;
  rq_few : Z.of_nat (length (owned (w_vhosts w) ++ option_list (h_webroot h) ++ ext)) < 2 ^ 32 - 4;
  rq_len : 0 <= h_data_len h;
}.

Lemma requesting_killable base ext h w : requesting base ext h w -> killable base ext h w.
Proof. intros [Hs _ _ Hst Hr Hp _]. split; [done|]. rewrite Hst, Hp. split; [done|apply idle_none]. Qed.

(** Allocating the response buffer and turning to writing. *)
Lemma begin_response base ext h w : requesting base ext h w ->
  exists w1 res, buf_alloc h_res_pool w = (res, w1) /\ w_sent w1 = w_sent w /\
    (forall ready mem r head, get_reply ready w1 mem r head = get_reply ready w mem r head) /\ w_sockname w1 = w_sockname w /\
    let h1 := set_state (set_res h res) HTTP_CONN_HEADER in
    match res with
    | None => killable base ext (set_res h None) w1
    | Some _ => exists nb, nbio_set_wait (h_nbio h1) NBIO_WRITE = Ret nb /\ handling base ext (set_nbio h1 nb) w1
    end.
Proof.
  intros Hreq. pose proof Hreq as [Hs Hm Hoff Hst Hres Hidle Hfew]. unfold buf_alloc.
  assert (forall al, killable base ext (set_res h None) (with_alloc w al)) as Hk.
  { intros al. apply requesting_killable. destruct Hs. constructor; try done. constructor; try done; cbn; by rewrite <- Hres. }
  destruct (w_alloc w) as [|a al] eqn:Ea.
  { exists w, None. split_and!; try done. specialize (Hk []). rewrite <- Ea in Hk. by destruct w. }
  destruct (do_alloc h_res_pool a (w_pools w)) as [[b0|] ps] eqn:Ed.
  - apply alloc_ok in Ed as (A1 & A2 & A3 & A4 & A5 & ->).
    eexists _, (Some b0). split; [reflexivity|]. split; [done|].
    split; [intros; by apply get_reply_frame|]. split; [done|]. cbv zeta.
    destruct (set_wait_read (h_nbio h) NBIO_WRITE Hm ltac:(by right)) as (nb & Hnb & Hfd & Hmask & Hm').
    exists nb. split; [exact Hnb|]. destruct Hs as [Sfd Sc Sv Sf Spl Sq Spr Srq Srs]. rewrite Hres in Spl.
    constructor; [constructor; try done; cbn; [by rewrite Hfd|exact (alloc_pools base _ _ b0 w Spl)]|done|done| |done|done].
    exists b0. split_and!; [done|done|done|unfold room; rewrite A2, A5; done|done].
  - apply alloc_none in Ed as ->. eexists _, None. split; [reflexivity|].
    specialize (Hk al). split; [done|]. split; [intros; by apply get_reply_frame|]. split; [done|].
    cbv zeta. by destruct w.
Qed.

(** Answering a request of a known method. *)
Lemma respond_ok base ext h w mem r m : handling base ext h w -> 0 <= h_data_off h -> h_conn_close h = conn_close r ->
  let rep ready := if vstrcmp_fast m (lit "GET") =? 0 then get_reply ready w mem r false
    else if vstrcmp_fast m (lit "HEAD") =? 0 then get_reply ready w mem r true
    else Ret (Some (resp501, 1)) in
  (forall ready, exists o, rep ready = Ret o) ->
  gets base ext h w rep
    (if vstrcmp_fast m (lit "GET") =? 0 then handle_get h w mem r false
     else if vstrcmp_fast m (lit "HEAD") =? 0 then handle_get h w mem r true
     else h ← response_501 h; Ret (true, h, w)).
Proof.
  intros Hh Hoff Hcl rep Hrep.
  assert (forall head, (forall ready, exists o, get_reply ready w mem r head = Ret o) ->
    forall ready, exists t, get_reply ready w mem r head = Ret (Some t)) as Hsome.
  { intros head Hg ready. destruct (Hg ready) as [o Ho]. destruct (get_reply_some _ _ _ _ _ _ Ho) as [t ->]. by exists t. }
  subst rep. destruct (vstrcmp_fast m (lit "GET") =? 0); [by apply handle_get_ok; auto|].
  destruct (vstrcmp_fast m (lit "HEAD") =? 0); [by apply handle_get_ok; auto|].
  destruct (canned_reply base ext h w resp501 true Hh Hoff eq_refl) as (h' & E & Ha & Hc).
  exists h', w, true, resp501, []. rewrite Hc. split_and!; try done. by left.
Qed.

Lemma request_reply_eq ready w mem n r : http_req mem = Ret (n, r) -> request_reply ready w mem =
  if (n =? 0)%nat then Ret (Some (resp400, 1)) else if negb (content_len r =? 0) then Ret None
  else m ← vec_bytes mem (method (with_sockname w r));
    if vstrcmp_fast m (lit "GET") =? 0 then get_reply ready w mem (with_sockname w r) false
    else if vstrcmp_fast m (lit "HEAD") =? 0 then get_reply ready w mem (with_sockname w r) true
    else Ret (Some (resp501, 1)).
Proof. unfold request_reply. by intros ->. Qed.

(** A request that cannot be parsed stays in the buffer of a connection that is to be
    closed. *)
Lemma bad_request base ext h w h1 w1 b r : handling base ext h1 w1 -> 0 <= h_data_off h1 -> h_req h1 = Some b ->
  http_req (unread b) = Ret (0%nat, r) -> w_sent w1 = w_sent w ->
  replied base ext h w (unread b) (h ← response_400 h1; Ret (h, w1)).
Proof.
  intros Hh Hoff Hb Hr Hs. destruct (canned_ok base ext h1 w1 resp400 true Hh) as (h2 & E & Ha & Hc);
    [by apply Nat.leb_le|done|by apply Nat.ltb_lt|]. unfold response_400. rewrite E. run.
  exists h2, w1. split; [done|]. split; [done|]. left. exists true, [], 0%nat, r.
  rewrite (request_reply_eq _ _ _ _ _ Hr), (an_pending _ _ _ _ _ _ Ha), Hc.
  split_and!; [done|done|by left| |exact (an_state _ _ _ _ _ _ Ha)|done|].
  - eapply answered_conn; [done|exact (hd_mask _ _ _ _ Hh)|by rewrite Hc].
  - unfold unasked. by rewrite (an_req _ _ _ _ _ _ Ha), Hb.
Qed.

Lemma handle_request_ok base ext h w b : requesting base ext h w -> h_req h = Some b ->
  (forall ready, exists o, request_reply ready w (unread b) = Ret o) -> replied base ext h w (unread b) (handle_request h w).
Proof.
  intros Hreq Hb Hrep. pose proof Hreq as [Hs Hm Hoff Hst Hres Hidle Hfew]. unfold handle_request.
  rewrite bool_decide_true by done. run.
  destruct (begin_response base ext h w Hreq) as (w1 & res & Hal & Hsent & Hframe & Hsock & Hw1).
  pose proof (alloc_plenty _ _ _ _ Hal) as Hpl. rewrite Hal.
  destruct res as [b0|]; [|apply kill_replied; [done|done|left; intros Hp; apply Hpl; by apply (plenty_le 1 2); [lia|] ] ].
  destruct Hw1 as (nb & -> & Hh). run. set (h1 := set_nbio _ nb) in *.
  change (h_req h1) with (h_req h). rewrite Hb. run.
  pose proof (sh_req _ _ _ _ Hs) as Hbuf. rewrite Hb in Hbuf. destruct Hbuf as [Hbok Hbend].
  rewrite (read_ok b Hbok). run.
  assert (bytes_at b (b_read b) (length (unread b)) = unread b) as -> by (rewrite length_unread by done; done).
  assert (short (unread b)) as Hshort.
  { unfold short. rewrite length_unread by done. destruct Hbok as [_ Hw]. rewrite Hbend in Hw.
    unfold pool_size, HTTP_MAX_RESP in Hw. lia. }
  destruct (http_req_fits (unread b) Hshort) as (n & r & Hr & Hn & _).
  pose proof (fun ready => request_reply_eq ready w _ _ _ Hr) as Hreply.
  rewrite Hr. run_all. destruct (Nat.eqb_spec n 0) as [->|Hn0]; [by apply bad_request with r|].
  destruct (content_len r =? 0); cbn [negb] in *.
  2:{ apply kill_replied; [|done|right; exists true; apply Hreply]. split; [exact (hd_shared _ _ _ _ Hh)|by rewrite (hd_state _ _ _ _ Hh)]. }
  assert (with_sockname w r = with_sockname w1 r) as Hr1 by (unfold with_sockname; by rewrite Hsock).
  rewrite Hr1 in Hreply. fold (with_sockname w1 r).
  set (r1 := with_sockname w1 r) in *. set (h2 := set_close h1 (conn_close r1)).
  assert (handling base ext h2 w1) as Hh2 by by apply (handling_frame base ext h1 w1).
  destruct (vec_bytes (unread b) (method r1)) as [m|] eqn:Hmeth; [|destruct (Hrep true) as [o Ho]; by rewrite Hreply in Ho].
  run. destruct (respond_ok base ext h2 w1 (unread b) r1 m Hh2 Hoff eq_refl) as (h' & w' & ready & t & lost & E & Et & Hready & Hlost & Ha & Hs').
  { intros ready. destruct (Hrep ready) as [o Ho]. exists o. rewrite <- Ho, Hreply. run. by rewrite !Hframe. }
  rewrite E. cbn [mbind outcome_bind negb].
  destruct (after_request base (lost ++ ext) h2 h' w' t b n Ha) as (h3 & w3 & E3 & Hc3 & Hst3 & Hp3 & Hs3 & Hu3 & Hcl3); [exact (hd_mask _ _ _ _ Hh2)|done|done|].
  exists h3, w3. split; [exact E3|]. split; [congruence|]. left. exists ready, lost, n, r. rewrite Hreply, Hp3, Hcl3.
  split_and!; try done; [|intros Hno Hp; by apply (Hready Hno), Hpl]. run_in Et. run. by rewrite !Hframe in Et.
Qed.
End receiving.

Section reading.
Context {P : Type} `{FioLaws P}.
Implicit Types (h : http_conn P) (w : world).

(** What the request buffer holds after the next [recv], and whether that ends a
    header. *)
Definition arrived h w : list Z :=
  let free := match h_req h with Some b => room b | None => HTTP_MAX_RESP end in
  from_option unread [] (h_req h) ++ match w_recv w with RecvData l :: _ => take free l | _ => [] end.

Definition complete (mem : list Z) : Prop :=
  exists k, (k <= length mem)%nat /\ header_complete (rev (take k mem)) = true.

Lemma incomplete_none mem : incomplete (rev mem) -> ~ complete mem.
Proof.
  intros Hi (k & Hk & Hc). assert (exists l, rev mem = l ++ rev (take k mem)) as [l Hl].
  { exists (rev (drop k mem)). by rewrite <- rev_app_distr, take_drop. }
  rewrite Hl in Hi. clear Hl Hk. revert Hi. generalize dependent (rev (take k mem)). intros m Hc. induction l as [|c l IH]; cbn [app].
  - destruct m; [done|]. cbn [incomplete]. intros [Hn _]. congruence.
  - cbn [incomplete]. intros [_ Hi]. by apply IH.
Qed.

(** A connection with a request buffer, ready to receive. *)
Record receiving (base : pools) (ext : list nat) h w (b : http_buf) : Prop := {
  rc_req : requesting base ext h w;
  rc_buf : h_req h = Some b;
  rc_parse : parse_ok h;
}.

Lemma request_reply_frame ready w w' mem : w_uribuf w' = w_uribuf w -> w_vhosts w' = w_vhosts w ->
  w_heap w' = w_heap w -> w_files w' = w_files w -> w_sockname w' = w_sockname w ->
  request_reply ready w' mem = request_reply ready w mem.
Proof.
  intros E1 E2 E3 E4 E5. unfold request_reply, with_sockname. rewrite E5.
  destruct (http_req mem) as [[n r]|]; [|done]. run.
  destruct (_ =? _)%nat; [done|]. destruct (negb _); [done|].
  destruct (vec_bytes mem _) as [m|]; [|done]. run. by rewrite !(get_reply_frame ready w w').
Qed.

(** Taking a request buffer if there is none. *)
Lemma ensure_req base ext h w : requesting base ext h w -> parse_ok h ->
  exists req h1 w1, (match h_req h with
      | Some b => (Some b, h, w)
      | None =>
        let (b, w) := buf_alloc h_req_pool w in
        (b, match b with Some _ => set_parse (set_req h b) RSTATE_INITIAL 0 | None => h end, w)
      end) = (req, h1, w1) /\ w_sent w1 = w_sent w /\ w_recv w1 = w_recv w /\
    (forall ready mem, request_reply ready w1 mem = request_reply ready w mem) /\ requesting base ext h1 w1 /\
    h_webroot h1 = h_webroot h /\
    match req with
    | Some b => receiving base ext h1 w1 b /\ from_option unread [] (h_req h) = unread b /\
        match h_req h with Some b => room b | None => HTTP_MAX_RESP end = room b /\
        (forall n, plenty (S n) (w_alloc w) -> plenty n (w_alloc w1)) /\
        (room b = 0%nat -> h_req h = Some b)
    | None => ~ plenty 1 (w_alloc w)
    end.
Proof.
  intros Hreq Hparse. destruct (h_req h) as [b|] eqn:Hb.
  { eexists _, _, _. split; [reflexivity|]. split_and!; try done. intros n. apply plenty_le. lia. }
  pose proof Hreq as [Hs Hm Hoff Hst Hres Hidle Hfew]. destruct (buf_alloc h_req_pool w) as [bo w2] eqn:Eal.
  pose proof (alloc_plenty _ _ _ _ Eal) as Hpl. unfold buf_alloc in Eal.
  destruct (w_alloc w) as [|a al] eqn:Ea; [injection Eal as <- <-; by eexists None, h, w|].
  destruct (do_alloc h_req_pool a (w_pools w)) as [[b0|] ps] eqn:Ed; injection Eal as <- <-.
  - apply alloc_ok in Ed as (A1 & A2 & A3 & A4 & A5 & ->).
    set (h1 := set_parse (set_req h (Some b0)) RSTATE_INITIAL 0). set (w1 := with_pools (with_alloc w al) _).
    assert (requesting base ext h1 w1) as Hreq1.
    { destruct Hs as [Sfd Sc Sv Sf Spl Sq Spr Srq Srs]. constructor; try done. constructor; try done.
      cbn. rewrite Spl, Hb. unfold pools_with, set_use. cbn. f_equal. lia. }
    assert (room b0 = HTTP_MAX_RESP) as Hroom by (unfold room; rewrite A2, A5; done).
    exists (Some b0), h1, w1. split; [done|]. split; [done|]. split; [done|].
    split; [intros; by apply request_reply_frame|]. split; [done|]. split; [done|].
    split_and!; [|by rewrite A3|done|exact Hpl|by rewrite Hroom].
    constructor; [done|done|]. unfold parse_ok. cbn. split_and!; (done || lia).
  - apply alloc_none in Ed as ->. set (w1 := with_pools (with_alloc w al) _).
    exists None, h, w1. split; [done|]. split; [done|]. split; [done|].
    split; [intros; by apply request_reply_frame|]. split; [|by split].
    destruct Hs. by constructor; [constructor|..].
Qed.

(** Looking for the end of the header in what has been appended. *)
Lemma parse_more_ok h b b2 l : parse_ok h -> h_req h = Some b -> buf_ok b -> buf_ok b2 ->
  unread b2 = unread b ++ l -> b_read b2 = 0%nat -> b_write b2 = (b_write b + length l)%nat ->
  exists found h', parse_more (set_req h (Some b2)) b2 = Ret (found, h') /\
    (exists rs rp, h' = set_parse (set_req h (Some b2)) rs rp) /\
    if (found : bool) then complete (unread b2) else parse_ok h' /\ ~ complete (unread b2).
Proof.
  intros Hparse Hb Hok Hok2 Hu Hr Hw. unfold parse_ok in Hparse. rewrite Hb in Hparse.
  destruct Hparse as (Hr0 & Hrp & Hrs & Hinc). unfold parse_more.
  change (h_rstate (set_req h (Some b2))) with (h_rstate h). change (h_rptr (set_req h (Some b2))) with (h_rptr h).
  assert (unread b2 = bytes_at b2 0 (b_write b2)) as Hmem by (unfold unread; by rewrite Hr, Nat.sub_0_r).
  assert (length (unread b2) = b_write b2) as Hlen by (rewrite length_unread by done; lia).
  assert (unread b = bytes_at b 0 (b_write b)) as Hmem0 by (unfold unread; by rewrite Hr0, Nat.sub_0_r).
  assert (length (unread b) = b_write b) as Hlen0 by (rewrite length_unread by done; lia).
  assert (bytes_at b 0 (h_rptr h) = take (h_rptr h) (unread b2)) as Hpre.
  { rewrite Hu, take_app_le by lia. rewrite Hmem0. unfold bytes_at. rewrite take_take. f_equal. lia. }
  assert (bytes_at b2 (h_rptr h) (b_write b2 - h_rptr h) = drop (h_rptr h) (unread b2)) as Hrest.
  { rewrite Hmem. unfold bytes_at. rewrite drop_0, skipn_firstn_comm. done. }
  rewrite Hrest, Hrs. set (parsed := take (h_rptr h) (unread b2)) in *. set (inp := drop (h_rptr h) (unread b2)).
  rewrite Hpre in Hinc |- *.
  assert (unread b2 = parsed ++ inp) as Hsplit by (subst parsed inp; by rewrite take_drop).
  assert (length parsed = h_rptr h) as Hpl by (subst parsed; rewrite length_take; lia).
  destruct (incremental_correct inp (rev parsed) 0 Hinc) as (found & s & k & -> & _ & Hf).
  run. eexists found, _. split; [reflexivity|]. split; [by eexists _, _|].
  destruct found.
  - destruct Hf as [Hk Hc]. exists (h_rptr h + S k)%nat. rewrite Hsplit, length_app, Hpl.
    split; [lia|]. rewrite <- Hpl, take_app_add. by rewrite rev_app_distr.
  - destruct Hf as (Hk & -> & Hinc'). unfold parse_ok. cbn [h_req h_rptr h_rstate set_parse set_req].
    assert (bytes_at b2 0 (h_rptr h + (0 + k)) = parsed ++ inp) as ->.
    { rewrite <- Hsplit, Hmem. f_equal. rewrite <- Hlen, Hsplit, length_app, Hpl. lia. }
    rewrite rev_app_distr. split; [split_and!; [done| |done|done]|].
    + rewrite <- Hlen, Hsplit, length_app, Hpl. lia.
    + rewrite Hsplit. apply incomplete_none. by rewrite rev_app_distr.
Qed.

(** There is room for a reference more. *)
Definition ref_room (ext : list nat) h w : Prop :=
  Z.of_nat (length (owned (w_vhosts w) ++ option_list (h_webroot h) ++ ext)) < 2 ^ 32 - 4.

Lemma conn_requesting base ext h w : conn_ok base ext h w -> h_state h = HTTP_CONN_REQUEST -> ref_room ext h w ->
  requesting base ext h w /\ parse_ok h.
Proof.
  intros [Hs Hm [Hoff Hlen] Hst] E Hroom. rewrite E in Hst. destruct Hst as (? & ? & ?). split; [by constructor|done].
Qed.

Lemma waiting_conn base ext h w : requesting base ext h w -> parse_ok h -> conn_ok base ext h w.
Proof. intros [Hs Hm Hoff Hst Hr Hp Hw Hl] Hparse. constructor; try done. rewrite Hst. by split_and!. Qed.

Lemma requesting_frame base ext h w n r : requesting base ext h w -> n_fd n = n_fd (h_nbio h) ->
  n_mask n <> NBIO_DELETED -> requesting base ext (set_nbio h n) (with_recv w r).
Proof.
  intros [[Sfd Sc Sv Sf Spl Sq Spr Srq Srs] Hm Hoff Hst Hr Hp Hw] Hfd Hm'.
  constructor; try done. constructor; try done. cbn. by rewrite Hfd.
Qed.

Lemma set_nbio_id h : set_nbio h (h_nbio h) = h.
Proof. by destruct h. Qed.

(** Storing [l] in the request buffer. *)
Lemma store_request base ext h w b l r : receiving base ext h w b -> (length l <= room b)%nat ->
  exists b1 b2, poke b (b_write b) l = Ret b1 /\ buf_done_write b1 (length l) = Ret (b2, room b2) /\
    unread b2 = unread b ++ l /\ buf_ok b2 /\ b_write b2 = (b_write b + length l)%nat /\ b_read b2 = 0%nat /\
    requesting base ext (set_req h (Some b2)) (with_recv w r).
Proof.
  intros [Hreq Hb Hparse] Hl. pose proof (sh_req _ _ _ _ (rq_shared _ _ _ _ Hreq)) as Hbuf. rewrite Hb in Hbuf.
  destruct Hbuf as [Hok Hend].
  assert (b_read b = 0%nat) as Hr0 by (unfold parse_ok in Hparse; rewrite Hb in Hparse; apply Hparse).
  destruct (append_ok b l (length l) Hok Hl ltac:(lia)) as (b1 & b2 & E1 & E2 & _ & Hok2 & _ & Hu2 & _ & He2 & Hw2 & _).
  exists b1, b2. rewrite firstn_all in Hu2. split_and!; try done.
  - unfold poke in E1. destruct (_ <=? _)%nat; [|done]. injection E1 as <-.
    unfold buf_done_write in E2. destruct (_ <=? _)%nat; [|done]. by injection E2 as <- _.
  - destruct Hreq as [[Sfd Sc Sv Sf Spl Sq Spr Srq Srs] Hm Hoff Hst Hr Hp Hw].
    constructor; try done. constructor; try done.
    + cbn. by rewrite Spl, Hb.
    + split; [done|by rewrite He2].
Qed.

(** Why a connection ends while it waits for a request: no memory, a full buffer,
    the end of the stream or an error, or a request without a reply. *)
Definition read_ends h w (mem : list Z) : Prop :=
  ~ plenty 3 (w_alloc w) \/ (exists b, h_req h = Some b /\ room b = 0%nat) \/
  match w_recv w with RecvErr e :: _ => e <> EAGAIN | RecvData [] :: _ => True | _ => False end \/
  (complete mem /\ exists ready, request_reply ready w mem = Ret None).

(** What a read callback leaves: a connection with the reply to send, one still
    waiting for the end of a header, with all that has been received kept, or a
    dead one. *)
Definition read_result (base : pools) (ext : list nat) h w (mem : list Z) (r : outcome (http_conn P * world)) : Prop :=
  exists h' w', r = Ret (h', w') /\ w_sent w' = w_sent w /\
    (complete mem /\ replying base ext 3 h w mem h' w' \/
     conn_ok base ext h' w' /\ h_state h' = HTTP_CONN_REQUEST /\ unasked h' = mem /\
       match w_recv w with RecvData _ :: _ => ~ complete mem | _ => True end \/
     dead_ok base ext h' w' /\ read_ends h w mem).

Lemma killed base ext h h0 w w0 mem : requesting base ext h w -> w_sent w = w_sent w0 -> read_ends h0 w0 mem ->
  read_result base ext h0 w0 mem (http_kill io_abort h w).
Proof.
  intros Hreq Hs Hwhy. destruct (kill_ok io_abort base ext h w (requesting_killable _ _ _ _ Hreq)) as (h' & w' & -> & Hd & Hs' & _).
  exists h', w'. split; [done|]. split; [congruence|by right; right].
Qed.

(** What [http_read] does with bytes that fit into the buffer. *)
Lemma bytes_received base ext h w b l r h0 w0 : receiving base ext h w b -> (length l <= room b)%nat ->
  w_sent w = w_sent w0 -> (forall ready mem, request_reply ready w mem = request_reply ready w0 mem) ->
  h_webroot h = h_webroot h0 -> (forall n, plenty (S n) (w_alloc w0) -> plenty n (w_alloc w)) ->
  (complete (unread b ++ l) -> forall ready, exists o, request_reply ready w0 (unread b ++ l) = Ret o) ->
  read_result base ext h0 w0 (unread b ++ l)
    (req ← poke b (b_write b) l;
     '(req, _) ← buf_done_write req (length l);
     let h := set_req h (Some req) in
     '(found, h) ← parse_more h req;
     if (found : bool) then handle_request h (with_recv w r) else Ret (h, with_recv w r)).
Proof.
  intros Hrc Hl Hsent Hframe Hwr Hpl Hserve. pose proof (rc_buf _ _ _ _ _ Hrc) as Hb.
  pose proof (sh_req _ _ _ _ (rq_shared _ _ _ _ (rc_req _ _ _ _ _ Hrc))) as Hbuf. rewrite Hb in Hbuf. destruct Hbuf as [Hbok _].
  destruct (store_request base ext h w b l r Hrc Hl) as (b1 & b2 & -> & E2 & Hu2 & Hok2 & Hw2 & Hr2 & Hreq2).
  run. rewrite E2. run.
  destruct (parse_more_ok h b b2 l (rc_parse _ _ _ _ _ Hrc) Hb Hbok Hok2 Hu2 Hr2 Hw2) as (found & h3 & -> & (s & p & ->) & Hfound).
  run. rewrite Hu2 in Hfound.
  assert (requesting base ext (set_parse (set_req h (Some b2)) s p) (with_recv w r)) as Hreq3.
  { destruct Hreq2 as [[Sfd Sc Sv Sf Spl Sq Spr Srq Srs] Hm Hoff Hst' Hr' Hp' Hw' Hlen']. by constructor; [constructor|..]. }
  destruct found.
  - assert (forall ready, request_reply ready (with_recv w r) (unread b2) = request_reply ready w0 (unread b ++ l)) as Hrr
      by (intros ready; rewrite Hu2, <- Hframe; by apply request_reply_frame).
    destruct (handle_request_ok base ext _ _ b2 Hreq3 eq_refl) as (h4 & w4 & E4 & Hs4 & Hend).
    { intros ready. rewrite Hrr. by apply Hserve. }
    exists h4, w4. split; [exact E4|]. split; [by rewrite Hs4|]. destruct Hend as [(ready & lost & k & rq & E1 & E3 & E5 & E6)|[Hd Hwhy]].
    + left. split; [done|]. rewrite Hrr in E1. rewrite Hu2 in E6. exists ready, lost, k, rq. split; [done|].
      split; [intros Hno Hp; by apply (E3 Hno), (Hpl 2%nat)|]. rewrite <- Hwr. by split.
    + right. right. split; [done|]. destruct Hwhy as [Hno|[ready E]]; [left; intros Hp; by apply Hno, (Hpl 2%nat)|].
      rewrite Hrr in E. right. right. right. split; [done|by exists ready].
  - destruct Hfound as [Hp3 Hnc]. eexists _, _. split; [reflexivity|]. split; [done|]. right. left. split; [by apply waiting_conn|].
    split; [exact (rq_state _ _ _ _ Hreq3)|]. split; [exact Hu2|]. by destruct (w_recv w0) as [|[]].
Qed.

(** ... and when there is nothing to receive. *)
Lemma nothing_received base ext h w b r h0 w0 : receiving base ext h w b -> w_sent w = w_sent w0 ->
  match w_recv w0 with RecvData _ :: _ => False | _ => True end ->
  read_result base ext h0 w0 (unread b) (Ret (set_nbio h (nbio_inactive (h_nbio h) NBIO_READ), with_recv w r)).
Proof.
  intros [Hreq Hb Hparse] Hsent Hno. eexists _, _. split; [reflexivity|]. split; [done|]. right. left.
  split; [|split; [exact (rq_state _ _ _ _ Hreq)|]].
  - apply waiting_conn; [apply requesting_frame; [done|done|exact (rq_mask _ _ _ _ Hreq)]|]. by apply (parse_frame h).
  - split; [unfold unasked; cbn; by rewrite Hb|]. by destruct (w_recv w0) as [|[]].
Qed.

Lemma http_read_ok base ext h w : conn_ok base ext h w -> h_state h = HTTP_CONN_REQUEST -> ref_room ext h w ->
  (complete (arrived h w) -> forall ready, exists o, request_reply ready w (arrived h w) = Ret o) ->
  read_result base ext h w (arrived h w) (http_read h w).
Proof.
  intros Hok Hst Hroom1 Hserve. destruct (conn_requesting _ _ _ _ Hok Hst Hroom1) as [Hreq Hparse]. unfold http_read.
  rewrite bool_decide_true by done. run.
  destruct (ensure_req base ext h w Hreq Hparse) as (req & h1 & w1 & -> & Hsent & Hrecv & Hframe & Hreq1 & Hwr & Hb).
  destruct req as [b|]; [|apply killed; [done|done|left; intros Hp; apply Hb; by apply (plenty_le 1 3); [lia|] ] ].
  destruct Hb as (Hrc & Hu & Hroom & Hpl & Hsame).
  assert (room b = 0%nat -> read_ends h w (arrived h w)) as Hfull' by (intros Hz; right; left; exists b; split; [by apply Hsame|done]).
  unfold arrived in *. rewrite Hu, Hroom in *. clear Hu Hroom.
  pose proof (sh_req _ _ _ _ (rq_shared _ _ _ _ Hreq1)) as Hbuf. rewrite (rc_buf _ _ _ _ _ Hrc) in Hbuf. destruct Hbuf as [Hbok _].
  rewrite (write_ok b Hbok). run. destruct (Nat.eqb_spec (room b) 0) as [Hfull|Hfull]; [apply killed; auto|].
  assert (forall r, requesting base ext h1 (with_recv w1 r)) as Hrecv1.
  { intros r. pose proof (requesting_frame base ext h1 w1 (h_nbio h1) r Hreq1 eq_refl (rq_mask _ _ _ _ Hreq1)) as Hf.
    by rewrite set_nbio_id in Hf. }
  pose proof (fun r => nothing_received base ext h1 w1 b r h w Hrc Hsent) as Hagain.
  unfold recv. rewrite Hrecv. destruct (w_recv w) as [|[l|e] rs] eqn:Er.
  - assert (with_recv w1 [] = w1) as E by (rewrite <- Hrecv; by destruct w1). specialize (Hagain []). rewrite E in Hagain.
    rewrite app_nil_r. by apply Hagain.
  - assert (exists l' r, (if (length l <=? room b)%nat then (inl l, with_recv w1 rs)
        else (inl (take (room b) l), with_recv w1 (RecvData (drop (room b) l) :: rs))) = (inl l' : list Z + errno, with_recv w1 r) /\
      l' = take (room b) l /\ (length l' <= room b)%nat) as (l' & r & -> & El' & Hl').
    { destruct (Nat.leb_spec (length l) (room b)); eexists _, _; (split; [reflexivity|]);
        [rewrite take_ge by lia; split; [done|lia]|split; [done|rewrite length_take; lia]]. }
    rewrite <- El' in *. destruct l' as [|c l'].
    + apply killed; [done|done|]. right. right. left. rewrite Er. destruct l as [|c l]; [done|]. destruct (room b); [lia|done].
    + by apply bytes_received.
  - rewrite app_nil_r in *. assert (e <> EAGAIN -> read_ends h w (unread b)) as Hend by (intros He; right; right; left; by rewrite Er).
    destruct e; first [by apply Hagain|apply killed; [done|done|by apply Hend]].
Qed.
End reading.

(** ** Properties *)

(** C5: a read callback does what the specification of requests says. On a
    connection waiting for a request it takes what the socket has (as much as
    fits) and leaves one of three things: a connection that has the reply
    [request_reply] gives for the bytes received ready to send, and is marked for
    closing as that says, the bytes of the request gone from its buffer and those
    of the next kept; one that goes on waiting, all that has come being kept and,
    if something came, no header being complete; or a dead one, for want of
    memory, of room in the buffer, of a peer or of a reply. Nothing is sent yet,
    no assertion fails and no access leaves an object. The specification must
    have an answer for the request if it is complete (it has none where the code
    faults: a host that is missing, a URI that [n_utf8_faults], a file dated in
    January), and the references counted must leave room for one more. The answer
    is that of an I/O model that is not ready, a 500 for the contents of a file,
    only if the next three allocations do not all succeed. *)
Theorem http_read_serves {P} `{FioLaws P} base ext (h : http_conn P) w :
  conn_ok base ext h w -> h_state h = HTTP_CONN_REQUEST -> ref_room ext h w ->
  (complete (arrived h w) -> forall ready, exists o, request_reply ready w (arrived h w) = Ret o) ->
  read_result base ext h w (arrived h w) (http_read h w).
Proof. apply http_read_ok. Qed.

Definition get_a : list Z := lit "GET /a HTTP/1.1" ++ crlf ++ lit "Host: example.org" ++ crlf ++ crlf.

(** A new connection on a server with the one-file webroot as its default. *)
Definition fresh_world (rcv : list Z) (snd : list sysres) : world :=
  tiny_world {[ 1%nat := tiny_root 1 ]} (Pools 0 0 0) (replicate 4 (AllocAnswer true (Some [])))
    [RecvData rcv] snd [].

Definition fresh_conn : http_conn unit :=
  Conn (Nbio 7 NBIO_READ NBIO_READ Active) HTTP_CONN_REQUEST RSTATE_INITIAL 0 None 0 None None tt 0 0 0.

Lemma fresh_ok rcv snd : conn_ok (Pools 0 0 0) [] fresh_conn (fresh_world rcv snd).
Proof.
  constructor; try done. constructor; try done. constructor; [done|apply map_Forall_empty|].
  change (refs_ok {[ 1%nat := tiny_root 1 ]} [1%nat]). by apply (tiny_refs 1); [|lia].
Qed.

Definition the_reply : list Z :=
  get_header 200 (lit "text/html") 5 0 (replicate 20 0x5a) (lit "Tue, 14 Oct 2023 22:13:20 GMT") ++ lit "hello".

Lemma the_request_reply snd ready : request_reply ready (fresh_world get_a snd) (arrived fresh_conn (fresh_world get_a snd)) =
  Ret (Some (if ready then (the_reply, 0) else (resp500, 1))).
Proof. destruct ready; vm_compute; reflexivity. Qed.

Lemma fresh_plenty rcv snd : plenty 3 (w_alloc (fresh_world rcv snd)).
Proof. split; [cbn; lia|]. cbn [fresh_world tiny_world w_alloc replicate take]. by repeat constructor. Qed.

Lemma http_read_serves_witness :
  request_reply true (fresh_world get_a []) (arrived fresh_conn (fresh_world get_a [])) = Ret (Some (the_reply, 0)) /\
  read_result (Pools 0 0 0) [] fresh_conn (fresh_world get_a []) (arrived fresh_conn (fresh_world get_a []))
    (http_read fresh_conn (fresh_world get_a [])).
Proof.
  split; [apply (the_request_reply [] true)|]. apply http_read_serves; [apply fresh_ok|done|done|].
  intros _ ready. eexists. apply the_request_reply.
Defined.

(** A request with a host that is missing: the reply would depend on what is left of
    an array that no longer exists. *)
Example no_host_faults :
  http_read fresh_conn (fresh_world (lit "GET /a HTTP/1.0" ++ crlf ++ crlf) []) = Fault OutOfBounds.
Proof. vm_compute. reflexivity. Qed.

(** An empty file has a reply, and leaves the reference to its webroot behind: that
    of the first of two requests for it is lost when the second takes its own
    (the table of hosts holds one, the connection one). *)
Definition empty_root (refs : Z) : webroot :=
  Webroot 9 refs (take 30 tiny_map ++ le_bytes 8 0 ++ drop 38 tiny_map) 1 0 1 0 22 22 70.

Definition empty_file_world : world :=
  tiny_world {[ 1%nat := empty_root 1 ]} (Pools 0 0 0) (replicate 4 (AllocAnswer true (Some [])))
    [RecvData get_a; RecvData get_a] [SysOk 500; SysOk 500] [].

Example empty_file_leaks :
  match ('(h, w) ← http_read fresh_conn empty_file_world; '(h, w) ← http_write h w;
         '(h, w) ← http_read h w; http_write h w) with
  | Ret (h, w) => h_state h = HTTP_CONN_REQUEST /\ h_webroot h = Some 1%nat /\ r_ref <$> (w_heap w !! 1%nat) = Some 3
  | Fault _ => False
  end.
Proof. vm_compute. by split_and!. Qed.

(** C3: a whole exchange: if the read callback answers a request and the write
    callbacks run until the connection waits for the next one, then what has
    been sent in between is the reply of the specification, in full and nothing
    else, and the connection is as good as new: its buffers have been given
    back, whatever model sends the file, and at most the reference of an empty
    file asked for before has been lost. As for a single callback, the request
    must have an answer in the specification, whose 500 for want of memory is
    only possible if one of the next three allocations fails. *)
Theorem exchange {P} `{FioLaws P} base ext (h h1 : http_conn P) w w1 c :
  conn_ok base ext h w -> h_state h = HTTP_CONN_REQUEST -> ref_room ext h w ->
  (complete (arrived h w) -> forall ready, exists o, request_reply ready w (arrived h w) = Ret o) ->
  http_read h w = Ret (h1, w1) -> h_state h1 = HTTP_CONN_HEADER -> transmits (h1, w1) c ->
  h_state c.1 = HTTP_CONN_REQUEST ->
  exists ready t close lost, request_reply ready w (arrived h w) = Ret (Some (t, close)) /\ (ready = false -> ~ plenty 3 (w_alloc w)) /\
    w_sent c.2 = w_sent w ++ t /\ conn_ok base (lost ++ ext) c.1 c.2 /\ (lost = [] \/ lost = option_list (h_webroot h)).
Proof.
  intros Hok Hst Hroom Hserve Hread Hst1 Htx Hstc.
  destruct (http_read_ok base ext h w Hok Hst Hroom Hserve) as (h' & w' & E & Hs & Hend).
  rewrite Hread in E. injection E as <- <-.
  destruct Hend as [(_ & ready & lost & k & r & Hrep & Hready & Hlost & Hok1 & _)|[(_ & E & _)|[Hd _]]];
    [|congruence|by rewrite (dead_state _ _ _ _ Hd) in Hst1].
  destruct (transmits_ok base (lost ++ ext) (h1, w1) c Htx Hok1) as (x & rest & Hsent & Hp & Hend).
  destruct Hend as [(Hokc & Hpc & _)|[Hd _]]; [|by rewrite (dead_state _ _ _ _ Hd) in Hstc].
  exists ready, (pending h1 w1), (h_conn_close h1), lost. split_and!; [done|done| |done|done]. cbn [fst snd] in *.
  rewrite Hsent, Hs, Hp. unfold pending in Hpc at 1. rewrite Hstc in Hpc. by rewrite <- Hpc, app_nil_r.
Qed.

Definition exchange_world : world := fresh_world get_a [SysOk 100; SysErr EAGAIN; SysOk 500; SysOk 2; SysOk 9].

Lemma exchange_witness :
  exists c : http_conn unit * world, w_sent c.2 = the_reply /\ conn_ok (Pools 0 0 0) [] c.1 c.2 /\ c.1 = set_webroot c.1 None.
Proof.
  assert (exists h1 w1 c, http_read fresh_conn exchange_world = Ret (h1, w1) /\ h_state h1 = HTTP_CONN_HEADER /\
    transmits (h1, w1) c /\ h_state c.1 = HTTP_CONN_REQUEST /\ c.1 = set_webroot c.1 None)
    as (h1 & w1 & c & Hread & Hst1 & Htx & Hstc & Hw).
  { do 3 eexists. split; [vm_compute; reflexivity|]. split; [reflexivity|]. split.
    - do 4 (eapply tx_write; [by (left + right)|vm_compute; reflexivity|]).
      eapply tx_write; [by (left + right)|vm_compute; reflexivity|]. apply tx_stop.
    - split; reflexivity. }
  exists c. destruct (exchange (Pools 0 0 0) [] fresh_conn h1 exchange_world w1 c) as (ready & t & close & lost & Ht & Hready & Hs & Hok & Hlost);
    [apply fresh_ok|done|done|intros _ ready; eexists; apply the_request_reply|done..|].
  assert (lost = []) as -> by by destruct Hlost.
  split; [|split; [exact Hok|exact Hw]]. cbn [w_sent exchange_world fresh_world tiny_world app] in Hs.
  unfold exchange_world in Ht. rewrite the_request_reply in Ht.
  destruct ready; [rewrite Hs; congruence|]. by destruct (Hready eq_refl (fresh_plenty _ _)).
Defined.
