(* ===== verification/HttpPump.v ===== *)
(** * http_conn.c under nbio.c: what a connection waits for

    The callbacks of a connection assume its state: [http_read] asserts that it
    waits for a request, [http_write] aborts unless there is something to send.
    The loop calls them by the events the connection waits for; here is that the
    two agree at all times. *)

From S2P Require Import Prelude Os Vec HttpParse HttpReq Normalize Webroot Critbit Vhosts.
From S2P Require Import Nbio HttpBuf HttpHead HttpConn IoModels Transmit Serve.
Local Open Scope Z_scope.

(** The events a connection waits for, by its state. *)
Definition awaits (st : conn_state) : Z :=
  match st with
  | HTTP_CONN_REQUEST => NBIO_READ
  | HTTP_CONN_HEADER | HTTP_CONN_DATA => NBIO_WRITE
  | HTTP_CONN_DEAD => NBIO_DELETED
  end.

Lemma set_wait_mask n wait n' : nbio_set_wait n wait = Ret n' -> n_mask n' = Z.land wait NBIO_WAIT.
Proof. unfold nbio_set_wait, do_set_wait. intros E. by ret_inv. Qed.

Ltac by_wait := match goal with H : nbio_set_wait _ _ = _ |- _ => apply set_wait_mask in H; exact H end.

Section masks.
Context {P : Type}.
Implicit Types (h : http_conn P) (w : world).

Definition mask_ok h : Prop := n_mask (h_nbio h) = awaits (h_state h).

(** Neither what it waits for nor its state has changed. *)
Definition same_wait h h' : Prop := n_mask (h_nbio h') = n_mask (h_nbio h) /\ h_state h' = h_state h.

Lemma same_refl h : same_wait h h.
Proof. done. Qed.

Lemma same_trans h1 h2 h3 : same_wait h1 h2 -> same_wait h2 h3 -> same_wait h1 h3.
Proof. intros [E1 E2] [E3 E4]. split; congruence. Qed.

Lemma same_mask h h' : same_wait h h' -> mask_ok h -> mask_ok h'.
Proof. unfold mask_ok. by intros [-> ->]. Qed.

Lemma kill_mask abort h w h' w' : http_kill abort h w = Ret (h', w') -> mask_ok h -> mask_ok h'.
Proof. unfold http_kill. intros E Hm. by ret_inv. Qed.

Lemma canned_same text close h h' : response_canned text close h = Ret h' -> same_wait h h'.
Proof. unfold response_canned. intros E. ret_inv; by destruct close. Qed.

Lemma complete_mask abort h w h' w' : http_conn_data_complete abort h w = Ret (h', w') -> mask_ok h'.
Proof.
  unfold http_conn_data_complete. intros E. ret_inv; [eapply kill_mask; [done|]|]; by_wait.
Qed.
End masks.

(** What this needs of an I/O model: preparing leaves the connection waiting for what
    it waits for, and sending keeps the two in step. *)
Class FioMask (P : Type) `{Fio P} : Prop := {
  prep_same : forall h w ok h' w', io_prep h w = Ret (ok, h', w') -> same_wait h h';
  write_mask : forall h w ok h' w', io_write h w = Ret (ok, h', w') -> mask_ok h -> mask_ok h';
}.

Section callbacks.
Context {P : Type} `{FioMask P}.
Implicit Types (h : http_conn P) (w : world).

Lemma write_hdr_mask h w ok h' w' : http_write_hdr h w = Ret (ok, h', w') ->
  h_state h = HTTP_CONN_HEADER -> mask_ok h -> mask_ok h'.
Proof.
  unfold http_write_hdr, mask_ok. intros E Hst Hm. rewrite Hst in Hm. cbn [awaits] in Hm. ret_inv; cbn; try by rewrite ?Hst. all: by_wait.
Qed.

Lemma write_cb_mask h w h' w' : http_write h w = Ret (h', w') -> sending h -> mask_ok h -> mask_ok h'.
Proof.
  unfold http_write. intros E [Hst|Hst] Hm; rewrite Hst in E; ret_inv.
  all: try (eapply kill_mask; [done|]).
  all: first [by eapply write_hdr_mask|by eapply write_mask].
Qed.

Lemma send_file_same h w rp r n e head ok h' w' : send_file h w rp r n e head = Ret (ok, h', w') -> same_wait h h'.
Proof.
  unfold send_file, response_500. intros E. ret_inv; try done.
  all: try (match goal with H : io_prep _ _ = _ |- _ => apply prep_same in H end).
  - apply (same_trans h h0); [done|by eapply canned_same].
  - done.
  - done.
Qed.

Lemma handle_get_same h w mem r head ok h' w' : handle_get h w mem r head = Ret (ok, h', w') -> same_wait h h'.
Proof.
  unfold handle_get, response_403, response_404, response_301. intros E. ret_inv; try done.
  all: try by eapply canned_same.
  all: by eapply send_file_same.
Qed.

Lemma handle_request_mask h w h' w' : handle_request h w = Ret (h', w') -> mask_ok h -> mask_ok h'.
Proof.
  unfold handle_request. intros E Hm. apply outcome_bind_ret in E as ([] & _ & E).
  destruct (buf_alloc h_res_pool w) as [[b|] w1]; [|by eapply kill_mask].
  apply outcome_bind_ret in E as (nb & Hnb & E). cbv zeta in E.
  set (h1 := set_nbio _ nb) in *. assert (mask_ok h1) as H1 by exact (set_wait_mask _ _ _ Hnb). clearbody h1.
  unfold response_400, response_501 in E. ret_inv.
  all: try (eapply kill_mask; [done|]); try done.
  all: repeat match goal with
    | H : handle_get _ _ _ _ _ = _ |- _ => apply handle_get_same in H
    | H : response_canned _ _ _ = _ |- _ => apply canned_same in H
    end.
  all: eapply same_mask; [|exact H1]; done.
Qed.

Lemma http_read_mask h w h' w' : http_read h w = Ret (h', w') -> mask_ok h -> mask_ok h'.
Proof.
  unfold http_read. intros E Hm. apply outcome_bind_ret in E as ([] & _ & E).
  assert (exists req h1 w1, match h_req h with
      | Some b => (Some b, h, w)
      | None => let (b, w) := buf_alloc h_req_pool w in
        (b, match b with Some _ => set_parse (set_req h b) RSTATE_INITIAL 0 | None => h end, w)
      end = (req, h1, w1) /\ mask_ok h1) as (req & h1 & w1 & E1 & H1).
  { destruct (h_req h); [by do 3 eexists|]. destruct (buf_alloc h_req_pool w) as [[b|] w1]; by do 3 eexists. }
  rewrite E1 in E. clear E1 Hm. unfold parse_more in E. ret_inv.
  all: try (by eapply kill_mask); try (eapply handle_request_mask; [done|]).
  all: done.
Qed.
End callbacks.

#[export] Instance sendfile_mask : FioMask unit.
Proof.
  constructor; cbn; intros h w ok h' w' E; [by ret_inv|].
  unfold io_sendfile_write, http_conn_inactive, http_conn_data_read in E. intros Hm. ret_inv; try done.
  all: by eapply complete_mask.
Qed.

#[export] Instance sync_mask : FioMask sync_priv.
Proof.
  constructor; cbn; intros h w ok h' w' E.
  - unfold io_sync_prep, http_conn_set_priv in E. by ret_inv.
  - unfold io_sync_write, top_up, http_conn_inactive, http_conn_data_read, http_conn_set_priv in E. intros Hm. ret_inv; try done.
    all: by eapply complete_mask.
Qed.

(** ** The loop *)

Section looping.
Context {P : Type} `{FioLaws P, !FioMask P}.
Implicit Types (h : http_conn P) (w : world).

(** A connection the loop has. *)
Record live (base : pools) (ext : list nat) h w : Prop := {
  live_ok : conn_ok base ext h w;
  live_mask : mask_ok h;
}.

(** The specification of requests answers a complete one, and references can be
    counted. *)
Definition servable (ext : list nat) h w : Prop :=
  h_state h = HTTP_CONN_REQUEST -> ref_room ext h w /\
    (complete (arrived h w) -> forall ready, exists o, request_reply ready w (arrived h w) = Ret o).

(** What there can be after a step of the loop: the connection alive or properly
    dead, or, an error having been reported that its callbacks did not meet,
    unlinked with everything it holds. *)
Definition after_pump (base : pools) (ext : list nat) h w : Prop :=
  live base ext h w \/ dead_ok base ext h w \/
  exists h1, live base ext h1 w /\ h = set_nbio h1 (nbio_del (h_nbio h1)) /\ Z.land (n_flags (h_nbio h1)) NBIO_ERROR <> 0.

Lemma read_cb_ok base ext h w : live base ext h w -> h_state h = HTTP_CONN_REQUEST -> servable ext h w ->
  exists h' w' lost, http_read h w = Ret (h', w') /\ (lost = [] \/ lost = option_list (h_webroot h)) /\
    (live base (lost ++ ext) h' w' \/ dead_ok base (lost ++ ext) h' w').
Proof.
  intros [Hok Hm] Hst Hserve. destruct (Hserve Hst) as [Hroom Hans].
  destruct (http_read_ok base ext h w Hok Hst Hroom Hans) as (h' & w' & E & _ & Hend).
  pose proof (http_read_mask h w h' w' E Hm) as Hm'. exists h', w'.
  destruct Hend as [(_ & ready & lost & k & r & _ & _ & Hlost & ? & _)|[(? & _)|[? _]]]; [exists lost|exists []..];
    (split_and!; [done|auto|]); [left..|by right]; by constructor.
Qed.

Lemma write_cb_live base ext h w : live base ext h w -> sending h ->
  match http_write h w with
  | Fault f => f = Blocked /\ blocks h w
  | Ret (h', w') => live base ext h' w' \/ dead_ok base ext h' w'
  end.
Proof.
  intros [Hok Hm] Hst. pose proof (http_write_ok base ext h w Hok Hst) as Hw.
  destruct (http_write h w) as [[h' w']|f] eqn:E; [|by destruct Hw as (-> & _ & ?)].
  pose proof (write_cb_mask h w h' w' E Hst Hm) as Hm'.
  destruct Hw as (x & rest & _ & _ & [[? _]|[? _]]); [left; by constructor|by right].
Qed.

Abbreviation event := (fun hw : http_conn P * world => h_nbio hw.1).

(** The event says which state it is for. *)
Lemma ready_state base ext hw what : live base ext hw.1 hw.2 -> ready event hw what = true ->
  (what = NBIO_WRITE -> sending hw.1) /\ (what = NBIO_READ -> h_state hw.1 = HTTP_CONN_REQUEST).
Proof.
  intros [[_ _ _ Hst] Hm]. unfold ready, mask_ok in *. rewrite Hm. unfold sending.
  intros Hr. destruct (h_state hw.1); cbn [awaits] in Hr; (split; intros ->); auto;
    rewrite <- Z.land_assoc in Hr; by rewrite Z.land_0_r in Hr || rewrite (Z.land_0_r (n_flags _)) in Hr.
Qed.

Lemma dead_idle base ext hw what : dead_ok base ext hw.1 hw.2 -> ready event hw what = false.
Proof. intros Hd. destruct (dead_nbio _ _ _ _ Hd) as (_ & _ & Hf & _). unfold ready. by rewrite Hf. Qed.

Lemma pump_live base ext h w : live base ext h w ->
  (forall h' w', (h', w') = (h, w) \/ http_write h w = Ret (h', w') -> servable ext h' w') ->
  match pump (h, w) with
  | Fault f => f = Blocked /\ blocks h w
  | Ret (h', w') => exists lost, (length lost <= 1)%nat /\ after_pump base (lost ++ ext) h' w'
  end.
Proof.
  intros Hl Hserve. unfold pump, pump_one. pose proof (ok_mask _ _ _ _ (live_ok _ _ _ _ Hl)) as Hm.
  cbn [fst snd]. rewrite (proj2 (Z.eqb_neq _ _) Hm).
  assert (match (if ready event (h, w) NBIO_WRITE then http_write h w else Ret (h, w)) with
    | Fault f => f = Blocked /\ blocks h w
    | Ret c => (live base ext c.1 c.2 \/ dead_ok base ext c.1 c.2) /\ servable ext c.1 c.2
    end) as Hwr.
  { destruct (ready event (h, w) NBIO_WRITE) eqn:Er.
    - pose proof (proj1 (ready_state base ext (h, w) _ Hl Er) eq_refl) as Hs.
      pose proof (write_cb_live base ext h w Hl Hs) as Hw. destruct (http_write h w) as [[h' w']|] eqn:E; [|done].
      split; [done|]. apply Hserve. by right.
    - split; [by left|]. apply Hserve. by left. }
  destruct (if ready event (h, w) NBIO_WRITE then _ else _) as [c|f]; [|exact Hwr]. run.
  destruct Hwr as [Hc Hs]. clear Hl Hm Hserve.
  assert (exists c' lost, (if ready event c NBIO_READ then http_read c.1 c.2 else Ret c) = Ret c' /\ (length lost <= 1)%nat /\
    (live base (lost ++ ext) c'.1 c'.2 \/ dead_ok base (lost ++ ext) c'.1 c'.2)) as (c' & lost & -> & Hlost & Hc').
  { destruct (ready event c NBIO_READ) eqn:Er; [|exists c, []; split_and!; [done|cbn; lia|exact Hc]].
    destruct Hc as [Hl|Hd]; [|by rewrite (dead_idle base ext c _ Hd) in Er].
    destruct (read_cb_ok base ext c.1 c.2 Hl (proj2 (ready_state base ext c _ Hl Er) eq_refl) Hs) as (h' & w' & lost & E & Hlost & Hend).
    exists (h', w'), lost. split_and!; [done| |done]. by destruct Hlost as [-> | ->]; [cbn; lia|destruct (h_webroot c.1); cbn; lia]. }
  run. destruct c' as [h' w']. cbn [fst snd] in *.
  destruct (Z.eqb_spec (Z.land (n_flags (h_nbio h')) NBIO_ERROR) 0) as [He|He]; cbn [negb]; exists lost; (split; [done|]).
  - unfold after_pump. tauto.
  - destruct Hc' as [Hl|Hd].
    + right. right. by exists h'.
    + destruct (dead_nbio _ _ _ _ Hd) as (_ & _ & Hf & _). by rewrite Hf in He.
Qed.
End looping.

Lemma deliver_live {P} `{FioSpec P} base ext (h : http_conn P) w r wr e : live base ext h w ->
  live base ext (set_nbio h (deliver (h_nbio h) r wr e)) w.
Proof.
  intros [Hok Hm]. constructor; [|exact Hm].
  pose proof (conn_nbio base ext h w (deliver (h_nbio h) r wr e) (w_send w) (w_sent w) Hok eq_refl (ok_mask _ _ _ _ Hok)) as Hn.
  by rewrite with_send_id in Hn.
Qed.

(** ** Properties *)

(** C8: a connection is well-formed whenever the event loop has it: it waits for a
    request and for its socket to be readable, or has something to send and
    waits for it to be writable, with the buffers, the webroot and the I/O
    model's data that go with its state. Whatever events are reported for it,
    one turn of [nbio_pump] on it makes only the callbacks its state is ready
    for, so the assertion of [http_read] and the [abort] of [http_write] are
    never reached, and leaves it well-formed again or dead with all it had given
    back, but for the reference of an empty file, of which one can be lost; the
    one exception is an error its callbacks did not meet, on which the loop
    unlinks it as it is. The turn ends unless the disk does not answer. All of
    this is for requests the specification has an answer for, before and after
    the write callback ([servable]): a request without a host, a URI that
    [n_utf8_faults] and the like do bring the server down. *)
Theorem pump_keeps {P} `{FioLaws P, !FioMask P} base ext (h : http_conn P) w : live base ext h w ->
  (forall h' w', (h', w') = (h, w) \/ http_write h w = Ret (h', w') -> servable ext h' w') ->
  (forall r wr e, live base ext (set_nbio h (deliver (h_nbio h) r wr e)) w) /\
  match pump (h, w) with
  | Fault f => f = Blocked /\ blocks h w
  | Ret (h', w') => exists lost, (length lost <= 1)%nat /\ after_pump base (lost ++ ext) h' w'
  end.
Proof. intros Hl Hs. split; [intros; by apply deliver_live|by apply pump_live]. Qed.

Lemma pump_keeps_witness :
  exists h' w' lost, pump (fresh_conn, fresh_world get_a []) = Ret (h', w') /\ h_state h' = HTTP_CONN_HEADER /\
    after_pump (Pools 0 0 0) (lost ++ []) h' w'.
Proof.
  destruct (pump_keeps (Pools 0 0 0) [] fresh_conn (fresh_world get_a [])) as [_ Hp].
  - constructor; [apply fresh_ok|done].
  - intros h' w' [E|E]; [|discriminate E].
    assert (h' = fresh_conn /\ w' = fresh_world get_a []) as [-> ->] by (split; congruence).
    intros _. split; [done|]. intros _ ready. eexists. exact (the_request_reply [] ready).
  - assert (exists h' w', pump (fresh_conn, fresh_world get_a []) = Ret (h', w') /\ h_state h' = HTTP_CONN_HEADER)
      as (h' & w' & E & Hst) by (do 2 eexists; split; vm_compute; reflexivity).
    rewrite E in Hp. destruct Hp as (lost & _ & Hp). exists h', w', lost. split; [exact E|]. split; [exact Hst|exact Hp].
Defined.
