(* ===== verification/Async.v ===== *)
(** * I/O models that wait for the kernel: what the two have in common

    A connection asks the kernel for the next piece of its file and is left alone
    by the event loop until an eventfd reports the request as done. What a model
    must do on each side, and that a file is then sent exactly. *)

From S2P Require Import Prelude Os HttpParse Webroot Critbit Vhosts Nbio HttpBuf Aio HttpConn.
Local Open Scope Z_scope.

(** ** aio_event *)

Section events.
Context {P : Type}.
Abbreviation conns := (gmap nat (http_conn P)).
Implicit Types (h : http_conn P) (w : world).

(** What the kernel does for a request, with [ev.res], and what the model does
    then; both of the connection the request is for. *)
Context (kernel_do : iocb -> sysres -> http_conn P -> world -> outcome (Z * http_conn P * world)).
Context (handle_completion : nat -> http_conn P -> Z -> world -> outcome (http_conn P * world)).

(** One event: the kernel has done the request of block [p]. A connection that is
    no longer in the table has been freed. *)
Definition one_event (st : conns * world) (ev : nat * sysres) : outcome (conns * world) :=
  let (hs, w) := st in
  let (p, ans) := ev in
  match a_kernel (w_aio w) !! p with
  | None => Ret st
  | Some cb =>
    h ← of_option OutOfBounds (hs !! cb_data cb);
    '(res, h, w) ← kernel_do cb ans h w;
    '(h, w) ← handle_completion p h res (with_aio w (reported p (w_aio w)));
    Ret (<[cb_data cb := h]> hs, w)
  end.

Fixpoint all_events (st : conns * world) (evs : list (nat * sysres)) : outcome (conns * world) :=
  match evs with
  | [] => Ret st
  | ev :: evs => st ← one_event st ev; all_events st evs
  end.

(** What [io_getevents] answers, an error or the requests done, of which it reports
    at most [in_flight]. *)
Definition reap (st : conns * world) (evs : errno + list (nat * sysres)) : outcome (conns * world) :=
  match evs with
  | inl _ => Ret st
  | inr evs => all_events st (take (Z.to_nat (in_flight (w_aio st.2))) evs)
  end.
End events.

(** ** Lemmas the models share *)

Lemma take_length_take {A} k (l : list A) : take (length (take k l)) l = take k l.
Proof.
  rewrite length_take. destruct (decide (k <= length l)%nat); [by rewrite Nat.min_l by lia|].
  rewrite Nat.min_r by lia. by rewrite !take_ge by lia.
Qed.

Section shared.
Context {P : Type} `{!FioSpec P}.
Implicit Types (h : http_conn P) (w : world).

Lemma conn_aio base ext h w a : conn_ok base ext h w -> conn_ok base ext h (with_aio w a).
Proof. intros [[] ? ? ?]. constructor; [by constructor|done..]. Qed.

Lemma conn_deliver base ext h w r wr e : conn_ok base ext h w -> conn_ok base ext (set_nbio h (deliver (h_nbio h) r wr e)) w.
Proof.
  intros Hok. pose proof (conn_nbio base ext h w (deliver (h_nbio h) r wr e) (w_send w) (w_sent w) Hok eq_refl (ok_mask _ _ _ _ Hok)) as Hn.
  by rewrite with_send_id in Hn.
Qed.

Lemma conn_asleep base ext h w : conn_ok base ext h w ->
  conn_ok base ext (set_nbio h (Nbio (n_fd (h_nbio h)) 0 0 Inactive)) w.
Proof. intros [[] ? ? ?]. constructor; [by constructor|done..]. Qed.
End shared.

Section ends.
Context {P : Type}.
Implicit Types (h : http_conn P) (w : world).

Lemma kill_state (abort : http_conn P -> world -> outcome (http_conn P * world)) h w h' w' :
  http_kill abort h w = Ret (h', w') -> h_state h = HTTP_CONN_REQUEST ->
  h_state h' = HTTP_CONN_REQUEST \/ h_state h' = HTTP_CONN_DEAD.
Proof.
  unfold http_kill. destruct (_ =? -1); [intros [= <- <-]; by left|]. intros E _.
  run_in E. destruct (w_concurrency _ =? 0); [done|]. run_in E.
  destruct (match w_oomq _ with [] => _ | _ => _ end); [|done]. run_in E.
  destruct (buf_free _ _ _); [|done]. run_in E.
  destruct (match h_state _ with HTTP_CONN_REQUEST => _ | _ => _ end) as [[h1 w1]|]; [|done]. run_in E.
  injection E as <- <-. by right.
Qed.

Lemma complete_state (abort : http_conn P -> world -> outcome (http_conn P * world)) h w h' w' :
  http_conn_data_complete abort h w = Ret (h', w') ->
  h_state h' = HTTP_CONN_REQUEST \/ h_state h' = HTTP_CONN_DEAD.
Proof.
  unfold http_conn_data_complete. intros E. destruct (bool_decide _); [|done]. run_in E.
  destruct (h_data_len h =? 0); [|done]. run_in E.
  destruct (nbio_set_wait _ _) as [n|]; [|done]. run_in E.
  destruct (unref _ _) as [hp|]; [|done]. run_in E.
  destruct (negb _); [by eapply kill_state|]. injection E as <- <-. by left.
Qed.
End ends.

(** ** What a model provides

    [af_fails] are the grounds on which it ends a connection in the middle of its
    file: in a write callback, or when a completion has that answer. *)

Class AsyncFio (P : Type) (self : nat) := {
  af_fio :: Fio P;
  af_kernel : iocb -> sysres -> http_conn P -> world -> outcome (Z * http_conn P * world);
  af_completion : nat -> http_conn P -> Z -> world -> outcome (http_conn P * world);
  af_ready : pools -> list nat -> http_conn P -> world -> Prop;
  af_waiting : nat -> iocb -> pools -> list nat -> http_conn P -> world -> Prop;
  af_fails : option sysres -> http_conn P -> world -> Prop;
}.

Section steps.
Context {P : Type} (self : nat) `{!FioSpec P, !AsyncFio P self}.
Implicit Types (h : http_conn P) (w : world).

(** Where a connection that is sending a file can be. *)
Inductive phase (base : pools) (ext : list nat) h w : Prop :=
| Ready : af_ready base ext h w -> phase base ext h w
| Waiting p cb : af_waiting p cb base ext h w -> phase base ext h w.

(** Where one step can lead: on with the file, to the next request, or to the end
    of the connection, when it is not to be used again or because of [why];
    [slice] is what there was to send and [x] what has been sent. *)
Definition streamed (why : Prop) (base : pools) (ext : list nat) (slice x : list Z) h w : Prop :=
  (phase base ext h w /\ slice = x ++ file_slice h w) \/
  (conn_ok base ext h w /\ h_state h = HTTP_CONN_REQUEST /\ slice = x) \/
  (dead_ok base ext h w /\ (slice = x /\ h_conn_close h <> 0 \/ why /\ exists rest, slice = x ++ rest)).

Abbreviation event := (one_event af_kernel af_completion).

Definition writable h : bool := ready h_nbio h NBIO_WRITE.

(** A write callback, when the loop makes one; the completion of the connection's
    request; or an event reported for its descriptor, which the loop's plugins do
    for those that wait for one. *)
Inductive async_step : http_conn P * world -> http_conn P * world -> Prop :=
| step_write h w h' w' : h_state h = HTTP_CONN_DATA -> writable h = true -> http_write h w = Ret (h', w') ->
    async_step (h, w) (h', w')
| step_event h w p cb ans h' w' : h_state h = HTTP_CONN_DATA -> a_kernel (w_aio w) !! p = Some cb -> cb_data cb = self ->
    event ({[self := h]}, w) (p, ans) = Ret ({[self := h']}, w') -> async_step (h, w) (h', w')
| step_deliver h w r wr e : h_state h = HTTP_CONN_DATA -> n_mask (h_nbio h) <> 0 ->
    async_step (h, w) (set_nbio h (deliver (h_nbio h) r wr e), w).

(** Neither of the first two fails, and one of them is always to come: a request is
    outstanding, or the loop will make the callback as soon as the socket is
    reported writable. *)
Definition steps_safe h w : Prop :=
  (writable h = true -> exists c, http_write h w = Ret c) /\
  (forall p cb ans, a_kernel (w_aio w) !! p = Some cb -> cb_data cb = self ->
    exists h' w', event ({[self := h]}, w) (p, ans) = Ret ({[self := h']}, w')) /\
  ((forall r e, writable (set_nbio h (deliver (h_nbio h) r true e)) = true) \/
   exists p cb, a_kernel (w_aio w) !! p = Some cb /\ cb_data cb = self).

(** One call on a connection that is sending; giving it up is because of [why]. *)
Definition async_result (why : Prop) (base : pools) (ext : list nat) h w (r : outcome (bool * http_conn P * world)) : Prop :=
  exists ok h' w' (x : list Z), r = Ret (ok, h', w') /\ w_sent w' = w_sent w ++ x /\
    if (ok : bool) then streamed False base ext (file_slice h w) x h' w'
    else (exists rest, file_slice h w = x ++ rest) /\ killable base ext h' w' /\ why.

(** After [pre] has been sent already. *)
Lemma streamed_after (why : Prop) base ext pre slice x h w : streamed why base ext slice x h w ->
  streamed why base ext (pre ++ slice) (pre ++ x) h w.
Proof.
  intros [[? ->]|[(? & ? & ->)|(? & [[-> ?]|(? & rest & ->)])]]; [left|right; left|right; right..]; rewrite ?app_assoc; split_and!; try done;
    [by left|right]. split; [done|by exists rest].
Qed.

Lemma streamed_why (why why' : Prop) base ext slice x h w : (why -> why') -> streamed why base ext slice x h w ->
  streamed why' base ext slice x h w.
Proof. intros Hw [?|[?|(? & [?|(? & ?)])]]; [by left|by right; left|right; right..]; (split; [done|]); [by left|right; auto]. Qed.

Lemma result_after why base ext h w h1 w1 pre r : file_slice h w = pre ++ file_slice h1 w1 -> w_sent w1 = w_sent w ++ pre ->
  async_result why base ext h1 w1 r -> async_result why base ext h w r.
Proof.
  intros Hs Hw (ok & h' & w' & x & E1 & E2 & E3). exists ok, h', w', (pre ++ x). split; [done|].
  rewrite E2, Hw, <- app_assoc. split; [done|]. rewrite Hs. destruct ok; [by apply streamed_after|].
  destruct E3 as ([rest ->] & ? & ?). rewrite app_assoc. by split_and!; [exists rest|..].
Qed.

(** The step that ends a connection, and why. *)
Inductive fails : http_conn P * world -> http_conn P * world -> Prop :=
| fails_write h w c : http_write h w = Ret c -> af_fails None h w -> fails (h, w) c
| fails_event h w p cb ans h' w' : a_kernel (w_aio w) !! p = Some cb -> cb_data cb = self ->
    event ({[self := h]}, w) (p, ans) = Ret ({[self := h']}, w') -> af_fails (Some ans) h w -> fails (h, w) (h', w').

(** From [c] it came to such a step. *)
Definition failed c c' : Prop := exists c0, rtc async_step c c0 /\ fails c0 c'.
End steps.

(** What it must keep to. While a request is outstanding the event loop has nothing
    to do for the connection. *)
Class AsyncLaws (P : Type) (self : nat) `{!FioSpec P, !AsyncFio P self} : Prop := {
  af_abort :: FioAbort P io_abort;
  ready_quiet : forall base ext h w, af_ready base ext h w -> h_state h = HTTP_CONN_DATA /\ quiet self (w_aio w);
  ready_mask : forall base ext h w, af_ready base ext h w -> n_mask (h_nbio h) = NBIO_WRITE;
  ready_deliver : forall base ext h w r wr e, af_ready base ext h w ->
    af_ready base ext (set_nbio h (deliver (h_nbio h) r wr e)) w;
  ready_write : forall base ext h w, af_ready base ext h w ->
    async_result self (af_fails None h w) base ext h w (io_write h w);
  waiting_asleep : forall p cb base ext h w, af_waiting p cb base ext h w ->
    h_state h = HTTP_CONN_DATA /\ n_mask (h_nbio h) = 0;
  waiting_req : forall p cb base ext h w, af_waiting p cb base ext h w ->
    a_kernel (w_aio w) !! p = Some cb /\ cb_data cb = self /\ aio_ok (w_aio w);
  waiting_done : forall p cb base ext h w ans, af_waiting p cb base ext h w ->
    exists res h1 w1 h' w' x, af_kernel cb ans h w = Ret (res, h1, w1) /\
      af_completion p h1 res (with_aio w1 (reported p (w_aio w1))) = Ret (h', w') /\ w_sent w' = w_sent w ++ x /\
      streamed self (af_fails (Some ans) h w) base ext (file_slice h w) x h' w';
}.

(** ** Every file is sent exactly *)

Section streams.
Context {P : Type} (self : nat) `{AsyncLaws P self}.
Implicit Types (h : http_conn P) (w : world).

Lemma write_cb_ok base ext h w : af_ready base ext h w ->
  exists h' w' x, http_write h w = Ret (h', w') /\ w_sent w' = w_sent w ++ x /\
    streamed self (af_fails None h w) base ext (file_slice h w) x h' w'.
Proof.
  intros HR. unfold http_write. destruct (ready_quiet base ext h w HR) as [-> _].
  destruct (ready_write base ext h w HR) as (ok & h1 & w1 & x & -> & E1 & E2). run.
  destruct ok; cbn [negb]; [exists h1, w1, x; split_and!; [done|done|by eapply streamed_why, E2]|]. destruct E2 as (Hx & E2 & Hf).
  destruct (kill_ok io_abort base ext h1 w1 E2) as (h' & w' & E & Hd & Hs & _).
  exists h', w', x. split; [exact E|]. split; [by rewrite Hs|]. right. right. split; [done|]. by right.
Qed.

Lemma event_ok base ext h w p cb ans : af_waiting p cb base ext h w ->
  exists h' w' x, one_event af_kernel af_completion ({[self := h]}, w) (p, ans) = Ret ({[self := h']}, w') /\
    w_sent w' = w_sent w ++ x /\ streamed self (af_fails (Some ans) h w) base ext (file_slice h w) x h' w'.
Proof.
  intros HW. destruct (waiting_req p cb base ext h w HW) as (Hreq & Hd & _).
  destruct (waiting_done p cb base ext h w ans HW) as (res & h1 & w1 & h' & w' & x & E1 & E2 & E3 & E4).
  exists h', w', x. unfold one_event. rewrite Hreq, Hd.
  rewrite lookup_singleton_eq. run. rewrite E1. run. rewrite E2. run. by rewrite insert_singleton_eq.
Qed.

Lemma asleep_unwritable p cb base ext h w : af_waiting p cb base ext h w -> writable h = false.
Proof.
  intros HW. destruct (waiting_asleep p cb base ext h w HW) as [_ Hm].
  unfold writable, ready. by rewrite Hm, Z.land_0_r.
Qed.

Lemma waiting_only p cb q cb' base ext h w : af_waiting p cb base ext h w -> a_kernel (w_aio w) !! q = Some cb' ->
  cb_data cb' = self -> q = p /\ cb' = cb.
Proof.
  intros HW Hq Hd. destruct (waiting_req p cb base ext h w HW) as (Hreq & Hd' & Ha).
  assert (q = p) as -> by (eapply (flight_alone _ Ha); [exact Hq|exact Hreq|by rewrite Hd]).
  split; [done|]. congruence.
Qed.

Lemma phase_data base ext h w : phase self base ext h w -> h_state h = HTTP_CONN_DATA.
Proof. intros [HR|p cb HW]; [apply (ready_quiet _ _ _ _ HR)|apply (waiting_asleep _ _ _ _ _ _ HW)]. Qed.

Lemma phase_safe base ext h w : phase self base ext h w -> steps_safe self h w.
Proof.
  intros [HR|p cb HW]; split.
  - intros _. destruct (write_cb_ok base ext h w HR) as (h' & w' & x & E & _). by exists (h', w').
  - split; [intros p cb ans Hp Hd; by destruct (proj2 (ready_quiet _ _ _ _ HR) p cb Hp)|]. left. intros r e.
    unfold writable, ready, deliver. cbn [h_nbio set_nbio n_flags n_mask]. rewrite (ready_mask _ _ _ _ HR). by destruct r, e.
  - by rewrite (asleep_unwritable _ _ _ _ _ _ HW).
  - destruct (waiting_req p cb base ext h w HW) as (Hreq & Hd & _). split; [|right; by exists p, cb].
    intros q cb' ans Hq Hd'. destruct (waiting_only p cb q cb' base ext h w HW Hq Hd') as [-> ->].
    destruct (event_ok base ext h w p cb ans HW) as (h' & w' & x & E & _). by exists h', w'.
Qed.

Lemma singleton_ret (k : nat) h1 h2 w1 w2 :
  Ret (({[k := h1]} : gmap nat (http_conn P)), w1) = Ret ({[k := h2]}, w2) -> h1 = h2 /\ w1 = w2.
Proof.
  intros E. assert (({[k := h1]} : gmap nat (http_conn P)) = {[k := h2]} /\ w1 = w2) as [Em Ew] by (split; congruence).
  split; [|done]. assert (({[k := h1]} : gmap nat (http_conn P)) !! k = ({[k := h2]} : gmap nat (http_conn P)) !! k) as El by by rewrite Em.
  rewrite !lookup_singleton_eq in El. congruence.
Qed.

Lemma async_step_ok base ext c c' : async_step self c c' -> phase self base ext c.1 c.2 ->
  exists x, w_sent c'.2 = w_sent c.2 ++ x /\ streamed self (fails self c c') base ext (file_slice c.1 c.2) x c'.1 c'.2.
Proof.
  intros Hstep Hp. destruct Hstep as [h w h' w' Hst Hwr E|h w p cb ans h' w' Hst Hp' Hd E|h w r wr e Hst Hm]; cbn [fst snd] in *; destruct Hp as [HR|q cb' HW].
  - destruct (write_cb_ok base ext h w HR) as (h2 & w2 & x & E2 & ? & Hs). pose proof E as E'. rewrite E in E2. injection E2 as <- <-. exists x.
    split; [done|]. eapply streamed_why, Hs. by apply fails_write.
  - by rewrite (asleep_unwritable _ _ _ _ _ _ HW) in Hwr.
  - by destruct (proj2 (ready_quiet _ _ _ _ HR) p cb Hp').
  - destruct (waiting_only q cb' p cb base ext h w HW Hp' Hd) as [-> ->].
    destruct (event_ok base ext h w q cb' ans HW) as (h2 & w2 & x & E2 & ? & Hs). pose proof E as E'. rewrite E in E2.
    destruct (singleton_ret _ _ _ _ _ E2) as [<- <-]. exists x. split; [done|]. eapply streamed_why, Hs. by eapply fails_event.
  - exists []. rewrite app_nil_r. split; [done|]. left. split; [|done]. by apply Ready, ready_deliver.
  - by destruct (waiting_asleep _ _ _ _ _ _ HW).
Qed.

Lemma async_steps_ok base ext c c' : rtc (async_step self) c c' -> phase self base ext c.1 c.2 ->
  exists x, w_sent c'.2 = w_sent c.2 ++ x /\ streamed self (failed self c c') base ext (file_slice c.1 c.2) x c'.1 c'.2.
Proof.
  induction 1 as [c|c c1 c' Hstep Hrest IH]; intros Hp.
  { exists []. rewrite app_nil_r. split; [done|]. by left. }
  destruct (async_step_ok base ext c c1 Hstep Hp) as (x & Hs & Hend).
  assert (h_state c1.1 <> HTTP_CONN_DATA -> c' = c1) as Hstop.
  { intros Hne. inversion Hrest as [|? ? ? Hs1]; [done|]. subst. by inversion Hs1; subst. }
  destruct Hend as [[Hp1 Hsl]|[(Hok & Hst & Hsl)|(Hd & Hwhy)]].
  - destruct (IH Hp1) as (y & Hs' & Hend). exists (x ++ y). split; [by rewrite Hs', Hs, app_assoc|].
    rewrite Hsl. apply streamed_after. eapply streamed_why, Hend. intros (c0 & Hc0 & Hf). exists c0. split; [by eapply rtc_l|done].
  - rewrite Hstop by (by rewrite Hst). exists x. split; [done|]. right. by left.
  - rewrite Hstop by (by rewrite (dead_state _ _ _ _ Hd)). exists x. split; [done|]. right. right. split; [done|].
    destruct Hwhy as [?|[Hf ?]]; [by left|right]. split; [by exists c|done].
Qed.

(** What both models promise: see their properties. *)
Lemma streams base ext h w h' w' : phase self base ext h w -> rtc (async_step self) (h, w) (h', w') ->
  exists x, w_sent w' = w_sent w ++ x /\ streamed self (failed self (h, w) (h', w')) base ext (file_slice h w) x h' w' /\
    (h_state h' = HTTP_CONN_DATA -> steps_safe self h' w') /\
    (h_state h' = HTTP_CONN_REQUEST -> x = file_slice h w).
Proof.
  intros Hp Hs. destruct (async_steps_ok base ext (h, w) (h', w') Hs Hp) as (x & E & Hend). exists x.
  split; [done|]. split; [done|]. cbn [fst snd] in Hend.
  destruct Hend as [[Hp' _]|[(_ & Hst & Hx)|(Hd & _)]].
  - split; [by intros _; eapply phase_safe|]. by rewrite (phase_data _ _ _ _ Hp').
  - by rewrite Hst.
  - by rewrite (dead_state _ _ _ _ Hd).
Qed.
End streams.
