(* ===== verification/IoAsync.v ===== *)
(** * io_async.c: reading a file with asynchronous I/O

    A connection, known by its address [self], reads a piece of its file into a
    data buffer in the background and sends it when it has arrived. *)

From S2P Require Import Prelude Os Vec HttpParse HttpReq Normalize Webroot Critbit Vhosts Nbio HttpBuf HttpHead Aio HttpConn Async IoModels Transmit Serve.
Local Open Scope Z_scope.

Definition io_async_abort : http_conn sync_priv -> world -> outcome (http_conn sync_priv * world) := io_sync_abort.

Section async.
Context (self : nat).
Abbreviation conn := (http_conn sync_priv).

(** The block is filled in after it has been taken; if the kernel does not take it
    the code returns without giving it back. *)
Definition aio_submit (h : conn) (w : world) : outcome (bool * conn * world) :=
  '(fd, data_off, data_len) ← http_conn_data h w;
  assert! negb (data_len =? 0) ;;
  let (iocb, a) := iocb_alloc (w_aio w) in
  let w := with_aio w a in
  match iocb with
  | None => Ret (false, h, w)
  | Some iocb =>
    '(priv, _) ← http_conn_get_priv h;
    data_buf ← of_option OutOfBounds priv;
    '(ptr, sz) ← buf_write data_buf;
    let sz := if data_len <? Z.of_nat sz then data_len else Z.of_nat sz in
    let (ret, a) := io_submit iocb (Iocb (Pread ptr) fd data_off sz self) (w_aio w) in
    let w := with_aio w a in
    if ret <=? 0 then Ret (false, h, w)
    else
      h ← http_conn_to_waitq h None;
      Ret (true, h, with_aio w (add_flight 1 (w_aio w)))
  end.

Definition io_async_write (h : conn) (w : world) : outcome (bool * conn * world) :=
  '(priv, _) ← http_conn_get_priv h;
  data_buf ← of_option OutOfBounds priv;
  '(p, sz) ← buf_read data_buf;
  assert! busy h ;;
  _ ← http_conn_socket h;
  match send (bytes_at data_buf p sz) w with
  | (inr EAGAIN, w) => h ← http_conn_inactive h; Ret (true, h, w)
  | (inr _, w) => Ret (false, h, w)
  | (inl O, w) => Ret (false, h, w)
  | (inl ret, w) =>
    '(data_buf, sz) ← buf_done_read data_buf ret;
    let h := set_priv h (Some data_buf) (h_io_state h) in
    '(h, data_len) ← http_conn_data_read h (Z.of_nat ret);
    if negb (sz =? 0)%nat then Ret (true, h, w)
    else if negb (data_len =? 0) then
      data_buf ← buf_reset data_buf;
      aio_submit (set_priv h (Some data_buf) (h_io_state h)) w
    else
      w ← buf_free h_dat_pool (Some data_buf) w;
      h ← http_conn_set_priv h None 0;
      '(h, w) ← http_conn_data_complete io_async_abort h w;
      Ret (true, h, w)
  end.

Definition io_async_prep (h : conn) (w : world) : outcome (bool * conn * world) :=
  let (data_buf, w) := buf_alloc h_dat_pool w in
  match data_buf with
  | None => Ret (false, h, w)
  | Some _ =>
    h ← http_conn_set_priv h data_buf 0;
    '(ok, h, w) ← aio_submit h w;
    if (ok : bool) then Ret (true, h, w)
    else
      w ← buf_free h_dat_pool data_buf w;
      h ← http_conn_set_priv h None 0;
      Ret (false, h, w)
  end.

Definition fio_async : Fio sync_priv := {|
  io_prep := io_async_prep;
  io_write := io_async_write;
  io_abort := io_async_abort;
|}.

(** [handle_completion(t, iocb, h, ret)]. *)
Definition handle_completion (iocb : nat) (h : conn) (ret : Z) (w : world) : outcome (conn * world) :=
  a ← iocb_return iocb (w_aio w);
  let w := with_aio w (add_flight (-1) a) in
  if ret <=? 0 then http_conn_abort io_async_abort h w
  else
    '(priv, _) ← http_conn_get_priv h;
    data_buf ← of_option OutOfBounds priv;
    '(data_buf, _) ← buf_done_write data_buf (Z.to_nat ret);
    h ← http_conn_wake_one (set_priv h (Some data_buf) (h_io_state h));
    Ret (h, w).
End async.

(** What the kernel does for a request, of the answer [ans]: it reads into the
    connection's buffer (a store that must not leave it) and has [ev.res] to
    report. *)
Definition kernel_pread (cb : iocb) (ans : sysres) (h : http_conn sync_priv) (w : world)
    : outcome (Z * http_conn sync_priv * world) :=
  match ans, cb_op cb with
  | SysOk n, Pread (Some ptr) =>
    let got := take (moved n (Z.to_nat (cb_len cb))) (drop (Z.to_nat (cb_off cb)) (default [] (w_files w !! cb_fd cb))) in
    b ← of_option OutOfBounds (h_io_priv h);
    b ← poke b ptr got;
    Ret (Z.of_nat (length got), set_priv h (Some b) (h_io_state h), w)
  | _, _ => Ret (-1, h, w)
  end.

(** [aio_event]: [evs] is what [io_getevents] answers. *)
Definition aio_event (st : gmap nat (http_conn sync_priv) * world) (evs : errno + list (nat * sysres)) :=
  if in_flight (w_aio st.2) =? 0 then Ret st else reap kernel_pread handle_completion st evs.

(** ** Invariants *)

Section streaming.
Context (self : nat).
Implicit Types (h : http_conn sync_priv) (w : world).

(** Between requests: the buffer holds the next bytes of the file. *)
Record streaming (base : pools) (ext : list nat) h w : Prop := {
  so_conn : conn_ok base ext h w;
  so_state : h_state h = HTTP_CONN_DATA;
  so_aio : aio_ok (w_aio w);
  so_room : Z.of_nat (in_kernel (w_aio w)) < 2 ^ 32 - 1;
  so_quiet : quiet self (w_aio w);
  so_mask : n_mask (h_nbio h) = NBIO_WRITE;
  so_len : 0 < h_data_len h;
  so_buf : exists b tl, h_io_priv h = Some b /\ unread b <> [] /\ file_slice h w = unread b ++ tl;
}.

(** While a request is outstanding: the event loop leaves the connection alone, the
    buffer is empty and the request is for the next bytes of the file, as many
    as fit. *)
Record waiting_for (p : nat) (cb : iocb) (base : pools) (ext : list nat) h w : Prop := {
  wt_conn : conn_ok base ext h w;
  wt_state : h_state h = HTTP_CONN_DATA;
  wt_aio : aio_ok (w_aio w);
  wt_room : Z.of_nat (in_kernel (w_aio w)) < 2 ^ 32;
  wt_req : a_kernel (w_aio w) !! p = Some cb;
  wt_asleep : n_mask (h_nbio h) = 0 /\ n_flags (h_nbio h) = 0 /\ n_list (h_nbio h) = Inactive;
  wt_len : 0 < h_data_len h;
  wt_buf : exists b rp r, h_io_priv h = Some b /\ unread b = [] /\ h_webroot h = Some rp /\ w_heap w !! rp = Some r /\
    0 < cb_len cb <= Z.of_nat (room b) /\ cb_len cb <= h_data_len h /\
    cb = Iocb (Pread (Some (b_write b))) (r_fd r) (h_data_off h) (cb_len cb) self;
}.

(** Submitting the next read from an empty buffer. *)
Lemma aio_submit_ok base ext h w b : conn_ok base ext h w -> h_state h = HTTP_CONN_DATA -> aio_ok (w_aio w) ->
  Z.of_nat (in_kernel (w_aio w)) < 2 ^ 32 - 1 -> quiet self (w_aio w) -> 0 < h_data_len h ->
  h_io_priv h = Some b -> unread b = [] -> (0 < room b)%nat ->
  exists ok h' w', aio_submit self h w = Ret (ok, h', w') /\ w_sent w' = w_sent w /\
    file_slice h' w' = file_slice h w /\
    if (ok : bool) then exists p cb, waiting_for p cb base ext h' w'
    else h' = h /\ killable base ext h w' /\ aio_refused (w_aio w).
Proof.
  intros Hok Hst Ha Hsz Hq Hlen Hb Hu Hroom. pose proof (busy_data h Hst) as Hbusy.
  destruct (data_conn base ext h w Hok Hst) as (Hs & Hm & _ & _ & Hres & _ & _ & rp & r & Hw & Hr).
  pose proof (sh_priv _ _ _ _ Hs) as Hbuf. cbn in Hbuf. rewrite Hb in Hbuf. destruct Hbuf as [Hbok Hbend].
  unfold aio_submit, http_conn_data, http_conn_get_priv, http_conn_to_waitq. rewrite Hbusy, Hw. cbn [c_assert mbind outcome_bind option_bind]. rewrite Hr.
  run. rewrite (proj2 (Z.eqb_neq (h_data_len h) 0)) by lia. run.
  set (sz := if h_data_len h <? Z.of_nat (room b) then h_data_len h else Z.of_nat (room b)).
  set (cb := Iocb (Pread (Some (b_write b))) (webroot_get_fd r) (h_data_off h) sz self).
  pose proof (launch_cases self cb (w_aio w) Ha Hq eq_refl Hsz) as Hl.
  assert (forall a, killable base ext h (with_aio w a)) as Hfail.
  { intros a. split; [exact (ok_shared _ _ _ _ (conn_aio _ _ _ _ a Hok))|]. by rewrite Hst. }
  destruct (iocb_alloc (w_aio w)) as [[p|] a1]; cbn [with_aio w_aio].
  2:{ destruct Hl as (_ & _ & _ & Hno). eexists false, h, _. split; [reflexivity|]. split; [done|]. split; [done|]. split; [done|]. split; [apply Hfail|done]. }
  destruct Hl as [_ Hl]. rewrite Hb. run. rewrite (write_ok b Hbok). run.
  rewrite (proj2 (Nat.eqb_neq (room b) 0)) by lia. fold sz cb.
  destruct (io_submit p cb a1) as [ret a2]. rewrite Z.ltb_antisym in Hl. destruct (ret <=? 0); cbn [negb] in Hl.
  { destruct Hl as (_ & _ & _ & Hno). eexists false, h, _. split; [reflexivity|]. split; [done|]. split; [done|]. split; [done|]. split; [apply Hfail|done]. }
  destruct Hl as [E Ha2]. unfold nbio_to_waitq, do_set_wait. rewrite (proj2 (Z.eqb_neq _ NBIO_DELETED) Hm). run.
  cbn [with_aio w_aio]. rewrite E. eexists true, _, _. split; [reflexivity|]. split; [done|]. split; [done|].
  exists p, cb. constructor; try done.
  - apply conn_aio, conn_aio, conn_aio. by apply conn_asleep.
  - pose proof (in_kernel_launched p cb (w_aio w)). cbn [w_aio with_aio]. lia.
  - cbn. by rewrite lookup_insert_eq.
  - exists b, rp, r. split_and!; try done; subst sz; cbn; destruct (Z.ltb_spec (h_data_len h) (Z.of_nat (room b))); lia.
Qed.

(** The grounds for ending a connection: its socket is broken or the next read cannot
    be asked for; the kernel has read nothing. *)
Definition async_fails (ans : option sysres) h w : Prop :=
  match ans with
  | None => send_broken w \/ aio_refused (w_aio w)
  | Some (SysOk (S _)) => file_slice h w = []
  | Some _ => True
  end.

#[export] Instance async_fio : AsyncFio sync_priv self := {|
  af_fio := fio_async self;
  af_kernel := kernel_pread;
  af_completion := handle_completion;
  af_ready := streaming;
  af_waiting := waiting_for;
  af_fails := async_fails;
|}.

(** The last of the file has been sent: the buffer goes back. *)
Lemma async_finish_ok base ext h w b : conn_ok base ext h w -> h_state h = HTTP_CONN_DATA ->
  h_io_priv h = Some b -> h_data_len h = 0 ->
  exists h' w', (w ← buf_free h_dat_pool (Some b) w; h ← http_conn_set_priv h None 0;
      '(h, w) ← http_conn_data_complete io_async_abort h w; Ret (true, h, w)) = Ret (true, h', w') /\
    w_sent w' = w_sent w /\
    ((conn_ok base ext h' w' /\ h_state h' = HTTP_CONN_REQUEST) \/ (dead_ok base ext h' w' /\ h_conn_close h' <> 0)).
Proof.
  intros Hok Hst Hb Hlen. destruct (data_conn base ext h w Hok Hst) as (Hs & Hm & Ho & _ & Hres & _ & Hparse & _).
  rewrite (free_dat base (h_req h) (h_res h) b w) by (rewrite (sh_pools _ _ _ _ Hs), Hb; done).
  run. unfold http_conn_set_priv. rewrite (busy_data h Hst). run.
  set (h2 := set_priv _ None 0). set (w2 := with_pools w _).
  destruct (complete_ok io_sync_abort base ext h2 w2) as (h3 & w3 & E & Hs3 & Hcl & Hend); try done.
  { destruct Hs as [Sfd Sc Sv Sf Spl Sq Spr Srq Srs]. by constructor. }
  unfold io_async_abort. rewrite E. run. exists h3, w3. split; [done|]. split; [by rewrite Hs3|].
  destruct Hend as [[Hc _]|[Hd Hne]]; [left; split; [done|]|right; split; [done|by rewrite Hcl]].
  destruct (complete_state _ _ _ _ _ E) as [?|Hx]; [done|].
  destruct Hc as [_ _ _ Hc]. by rewrite Hx in Hc.
Qed.

(** A buffer [b2] after some of it has been sent, with the file position moved on. *)
Lemma sent_ok base ext h w b2 s t n : conn_ok base ext h w -> h_state h = HTTP_CONN_DATA ->
  buf_ok b2 -> b_end b2 = HTTP_DATA_BUFFER -> 0 <= n <= h_data_len h ->
  conn_ok base ext (set_data (set_priv h (Some b2) (h_io_state h)) (h_data_off h + n) (h_data_len h - n))
    (with_send w s t).
Proof.
  intros Hok Hst Hb He Hn. destruct (data_conn base ext h w Hok Hst) as (Hs & Hm & Ho & Hl & Hres & [b Hp] & Hparse & rp & r & Hw & Hr).
  apply data_ok; try done; [|cbn; lia|by eexists].
  by apply (sync_frame base ext h w _ _ b2).
Qed.

(** A stopped connection is given up; the ways [send] can fail. *)
Lemma async_stuck base ext h w s e : streaming base ext h w -> (e <> EAGAIN -> async_fails None h w) ->
  async_result self (async_fails None h w) base ext h w (Ret (match e with EAGAIN => true | _ => false end,
    match e with EAGAIN => set_nbio h (nbio_inactive (h_nbio h) NBIO_WRITE) | _ => h end,
    with_send w s (w_sent w ++ []))).
Proof.
  intros [Hok Hst Ha Hsz Hq Hwm Hlen (b & tl & Hb & Hbne & Hf)] Hwhy.
  destruct (data_conn base ext h w Hok Hst) as (Hs & Hm & _ & _ & Hres & _ & _ & _).
  eexists _, _, _, []. split; [reflexivity|]. split; [done|].
  assert (killable base ext h (with_send w s (w_sent w ++ []))) as Hk.
  { split; [|by rewrite Hst]. apply (shared_nbio _ _ _ _ (h_nbio h) s (w_sent w ++ [])) in Hs; [by destruct h|done]. }
  destruct e; try (split; [by exists (file_slice h w)|split; [exact Hk|by apply Hwhy]]). left. split; [|done]. apply Ready. constructor; try done; [by apply conn_nbio|].
  by exists b, tl.
Qed.

(** [n] bytes of the buffer have been sent, the position has moved on, and the
    buffer with the rest is [b2]. *)
Record some_sent (base : pools) (ext : list nat) (n : nat) (b b2 : http_buf) tl h w h1 w1 : Prop := {
  ss_conn : forall b3, b_end b3 = HTTP_DATA_BUFFER -> buf_ok b3 -> conn_ok base ext (set_priv h1 (Some b3) (h_io_state h)) w1;
  ss_rest : forall b3, file_slice (set_priv h1 (Some b3) (h_io_state h)) w1 = unread b2 ++ tl;
  ss_split : file_slice h w = take n (unread b) ++ unread b2 ++ tl;
  ss_len : 0 <= h_data_len h1;
  ss_state : h_state h1 = HTTP_CONN_DATA;
  ss_priv : h_io_priv h1 = Some b2;
  ss_io : h_io_state h1 = h_io_state h;
  ss_nbio : h_nbio h1 = h_nbio h;
  ss_ok : buf_ok b2 /\ b_end b2 = HTTP_DATA_BUFFER;
  ss_sent : w_sent w1 = w_sent w ++ take n (unread b);
  ss_aio : w_aio w1 = w_aio w;
}.

Lemma some_sent_ok base ext h w b b2 tl s n : streaming base ext h w -> h_io_priv h = Some b -> file_slice h w = unread b ++ tl ->
  (n <= length (unread b))%nat -> unread b2 = drop n (unread b) -> buf_ok b2 -> b_end b2 = HTTP_DATA_BUFFER ->
  Z.of_nat n <= h_data_len h /\
  some_sent base ext n b b2 tl h w
    (set_data (set_priv h (Some b2) (h_io_state h)) (h_data_off h + Z.of_nat n) (h_data_len h - Z.of_nat n))
    (with_send w s (w_sent w ++ take n (unread b))).
Proof.
  intros [Hok Hst Ha Hsz Hq Hwm Hlen _] Hb Hf Hn Hu2 Hok2 He2.
  destruct (data_conn base ext h w Hok Hst) as (Hs & Hm & Ho & Hl & Hres & Hp & Hparse & rp & r & Hw & Hr).
  assert (Z.of_nat n <= h_data_len h) as Hle.
  { apply (f_equal length) in Hf. rewrite (file_slice_at h w rp r Hw Hr), length_take, length_app in Hf. lia. }
  assert (file_slice h w = take n (unread b) ++ unread b2 ++ tl) as Hsplit by (rewrite Hf, Hu2, app_assoc; by rewrite (take_drop n (unread b))).
  split; [done|]. split; try done.
  - intros b3 He3 Hok3. exact (sent_ok base ext h w b3 s _ (Z.of_nat n) Hok Hst Hok3 He3 ltac:(lia)).
  - intros b3. assert (length (take n (unread b)) = n) as Hln by (rewrite length_take; lia).
    apply (slice_rest h w _ _ rp r (take n (unread b))); try done; (lia || by rewrite Hln).
  - cbn. lia.
Qed.

(** What follows a successful [send]: a part of the buffer is left, or the file is
    finished, or the next part of it is asked for. *)
Lemma async_sent_ok base ext h w b b2 tl n h1 w1 : streaming base ext h w -> some_sent base ext n b b2 tl h w h1 w1 ->
  async_result self (async_fails None h w) base ext h w
    (if negb (length (unread b2) =? 0)%nat then Ret (true, h1, w1)
     else if negb (h_data_len h1 =? 0) then
       data_buf ← buf_reset b2;
       aio_submit self (set_priv h1 (Some data_buf) (h_io_state h1)) w1
     else
       w ← buf_free h_dat_pool (Some b2) w1;
       h ← http_conn_set_priv h1 None 0;
       '(h, w) ← http_conn_data_complete io_async_abort h w;
       Ret (true, h, w)).
Proof.
  intros [Hok Hst Ha Hsz Hq Hwm Hlen _] [Sc Sr Ss Sl Sst Sp Sio Snb [Hok2 He2] Sw Saio].
  assert (set_priv h1 (Some b2) (h_io_state h) = h1) as Eh by (clear -Sp Sio; destruct h1; cbn in Sp, Sio |- *; by rewrite Sp, Sio).
  pose proof (Sr b2) as Hsl1. pose proof (Sc b2 He2 Hok2) as Hok1. rewrite Eh in Hsl1, Hok1. rewrite <- Hsl1 in Ss.
  apply (result_after self _ base ext h w h1 w1 (take n (unread b)) _ Ss Sw).
  destruct (data_conn base ext h1 w1 Hok1 Sst) as (_ & _ & _ & _ & _ & _ & _ & rp & r & Hw & Hr).
  pose proof (file_slice_at h1 w1 rp r Hw Hr) as Hat. destruct (Nat.eqb_spec (length (unread b2)) 0) as [Hz|Hz]; cbn [negb].
  2:{ exists true, h1, w1, []. rewrite app_nil_r. split_and!; [done..|]. left. split; [|done]. apply Ready. constructor; rewrite ?Saio, ?Snb; try done; [|exists b2, tl; split_and!; [done|by intros E0; rewrite E0 in Hz|done] ].
      apply (f_equal length) in Hsl1. rewrite Hat, length_take, length_app in Hsl1. lia. }
  apply length_zero_iff_nil in Hz. destruct (Z.eqb_spec (h_data_len h1) 0) as [Hd|Hd]; cbn [negb].
  - destruct (async_finish_ok base ext h1 w1 b2 Hok1 Sst Sp Hd) as (h' & w' & -> & Es & Hend).
    exists true, h', w', []. rewrite app_nil_r. split_and!; [done|done|]. assert (file_slice h1 w1 = []) as -> by (by rewrite Hat, Hd).
    right. destruct Hend as [[? ?]|[? ?]]; [left; by split_and!|right; split; [done|by left] ].
  - destruct (reset_ok b2 Hok2) as (b3 & -> & Hok3 & _ & Hu3 & He3 & Hw3). run. rewrite He2 in He3. rewrite Sio.
    destruct (aio_submit_ok base ext (set_priv h1 (Some b3) (h_io_state h)) w1 b3) as (ok & h' & w' & E & E1 & E2 & E3); rewrite ?Saio; try done.
    { by apply Sc. } { cbn. lia. } { by rewrite Hu3. } { unfold room. rewrite He3, Hw3, Hz. cbn. unfold HTTP_DATA_BUFFER. lia. }
    rewrite E. exists ok, h', w', []. rewrite app_nil_r. split; [done|]. split; [done|].
    destruct ok; [|destruct E3 as (-> & ? & Href); split; [by eexists|split; [done|right; by rewrite Saio in Href] ] ].
    destruct E3 as (p & cb & Hwt). left. split; [by eapply Waiting|]. rewrite E2, Hsl1. symmetry. apply Sr.
Qed.

Lemma async_write_ok base ext h w : streaming base ext h w ->
  async_result self (async_fails None h w) base ext h w (io_async_write self h w).
Proof.
  intros HS. pose proof HS as [Hok Hst Ha Hsz Hq Hwm Hlen (b & tl & Hb & Hbne & Hf)].
  destruct (data_conn base ext h w Hok Hst) as (Hs & _). pose proof (sh_priv _ _ _ _ Hs) as Hbuf. cbn in Hbuf. rewrite Hb in Hbuf. destruct Hbuf as [Hbok Hbend].
  unfold io_async_write, http_conn_get_priv, http_conn_socket, http_conn_inactive. rewrite (busy_data h Hst), Hb. run.
  rewrite (read_ok b Hbok). run.
  assert (bytes_at b (b_read b) (length (unread b)) = unread b) as -> by (rewrite length_unread by done; done).
  destruct (send_cases (unread b) w) as (s & res & -> & Hres').
  pose proof (fun e => async_stuck base ext h w s e HS) as Herr.
  destruct res as [[|n]|e]; [| |specialize (Herr e (fun He => or_introl (Hres' He))); destruct e; exact Herr].
  { apply (Herr EINTR). intros _. left. apply Hres'; [done|exact Hbne]. }
  destruct Hres' as [Hres' _].
  destruct (done_read_ok b (S n) Hbok Hres') as (b2 & -> & Hok2 & Hu2 & He2 & _). run. rewrite Hbend in He2.
  destruct (some_sent_ok base ext h w b b2 tl s (S n) HS Hb Hf Hres' Hu2 Hok2 He2) as [Hle Hss].
  unfold http_conn_data_read. change (busy (set_priv h (Some b2) (h_io_state h))) with (busy h).
  rewrite (busy_data h Hst). run. change (h_data_len (set_priv h (Some b2) (h_io_state h))) with (h_data_len h).
  rewrite (proj2 (Z.leb_le _ _) Hle). run. exact (async_sent_ok base ext h w b b2 tl (S n) _ _ HS Hss).
Qed.

(** The connection of a request keeps its invariant whatever its buffer holds past
    the write position. *)
Lemma waiting_frame base ext h w b1 a : conn_ok base ext h w -> h_state h = HTTP_CONN_DATA ->
  is_Some (h_io_priv h) -> buf_ok b1 -> b_end b1 = HTTP_DATA_BUFFER ->
  conn_ok base ext (set_priv h (Some b1) (h_io_state h)) (with_aio w a).
Proof.
  intros Hok Hst Hp Hb He. destruct (data_conn base ext h w Hok Hst) as (Hs & Hm & Ho & Hl & Hres & _ & Hparse & rp & r & Hw & Hr).
  apply data_ok; try done; [|by eexists]. by apply (sync_frame base ext h w _ _ b1).
Qed.

(** The abort of a request that failed. *)
Lemma aio_failed_ok base ext h w a : conn_ok base ext h (with_aio w a) -> h_state h = HTTP_CONN_DATA ->
  exists h' w', http_conn_abort io_async_abort h (with_aio w a) = Ret (h', w') /\ w_sent w' = w_sent w /\ dead_ok base ext h' w'.
Proof.
  intros Hok Hst. unfold http_conn_abort. rewrite (busy_data h Hst). run.
  destruct (kill_ok io_sync_abort base ext h (with_aio w a)) as (h' & w' & E & Hd & Hs & _).
  { by apply (conn_killable io_sync_abort). }
  exists h', w'. split_and!; [exact E|by rewrite Hs|done].
Qed.

(** What the kernel reads is nothing only for want of bytes, its own or the file's. *)
Lemma pread_nothing base ext h w rp r n len : conn_ok base ext h w -> h_webroot h = Some rp -> w_heap w !! rp = Some r ->
  0 < len <= h_data_len h -> (length (take (moved n (Z.to_nat len)) (drop (Z.to_nat (h_data_off h)) (default [] (w_files w !! r_fd r)))) = 0)%nat ->
  async_fails (Some (SysOk n)) h w.
Proof.
  intros Hok Hw Hr Hl. destruct n as [|n]; [done|]. cbn [async_fails]. pose proof (moved_pos n (Z.to_nat len) ltac:(lia)).
  rewrite (file_slice_at h w rp r Hw Hr), length_take. destruct (drop _ _) as [|c l]; [by rewrite take_nil|cbn [length]; lia].
Qed.

(** The completion of a connection's request, of what the kernel answers: either its
    buffer has the bytes it was waiting for and it is awake, or it is dead. *)
Lemma completion_ok p cb base ext h w ans : waiting_for p cb base ext h w ->
  exists res h1 h' w', kernel_pread cb ans h w = Ret (res, h1, w) /\
    handle_completion p h1 res (with_aio w (reported p (w_aio w))) = Ret (h', w') /\ w_sent w' = w_sent w /\
    if 0 <? res then streaming base ext h' w' /\ file_slice h' w' = file_slice h w
    else dead_ok base ext h' w' /\ async_fails (Some ans) h w.
Proof.
  intros [Hok Hst Ha Hsz Hreq (Hmask & Hflags & Hlist) Hlen (b & rp & r & Hb & Hu & Hw & Hr & Hcl & Hcd & Ecb)].
  destruct (data_conn base ext h w Hok Hst) as (Hs & Hm & Ho & Hl & Hres & Hp & Hparse & _).
  pose proof (sh_priv _ _ _ _ Hs) as Hbuf. cbn in Hbuf. rewrite Hb in Hbuf. destruct Hbuf as [Hbok Hbend].
  destruct (land_ok p cb (w_aio w) Ha Hreq Hsz) as (El & Ha' & Hq').
  assert (forall h1 res, res <= 0 -> conn_ok base ext h1 (with_aio w (landed p (w_aio w))) -> h_state h1 = HTTP_CONN_DATA ->
    exists h' w', handle_completion p h1 res (with_aio w (reported p (w_aio w))) = Ret (h', w') /\ w_sent w' = w_sent w /\ dead_ok base ext h' w') as Hfail.
  { intros h1 res Hle Hok1 Hst1. unfold handle_completion. cbn [w_aio with_aio].
    destruct (iocb_return p (reported p (w_aio w))) as [a2|]; [|done]. run_in El. assert (add_flight (-1) a2 = landed p (w_aio w)) as El2 by congruence. run.
    cbn [w_aio with_aio]. rewrite El2, (proj2 (Z.leb_le _ _) Hle). by apply (aio_failed_ok base ext h1 w (landed p (w_aio w))). }
  destruct ans as [n|e].
  2:{ exists (-1), h. destruct (Hfail h (-1) ltac:(lia) (conn_aio _ _ _ _ _ Hok) Hst) as (h' & w' & E & E2 & E3).
      exists h', w'. by split_and!. }
  unfold kernel_pread. rewrite Ecb. cbn [cb_op cb_len cb_off cb_fd]. rewrite Hb. run.
  set (k := moved n (Z.to_nat (cb_len cb))). set (got := take k _).
  pose proof (moved_le n (Z.to_nat (cb_len cb))) as Hk. fold k in Hk.
  assert (length got <= k)%nat as Hgl by (subst got; rewrite length_take; lia).
  destruct (append_ok b got (length got) Hbok) as (b1 & b2 & -> & E2 & Hok1 & Hok2 & _ & Hu2 & He1 & He2 & _); [lia|lia|].
  run. rewrite Hbend in He1, He2. rewrite firstn_all, Hu in Hu2. exists (Z.of_nat (length got)), (set_priv h (Some b1) (h_io_state h)).
  destruct (Z.ltb_spec 0 (Z.of_nat (length got))) as [Hpos|Hneg].
  2:{ destruct (Hfail (set_priv h (Some b1) (h_io_state h)) (Z.of_nat (length got)) Hneg) as (h' & w' & E & E3 & E4);
        [by apply waiting_frame|done|]. exists h', w'. split_and!; [done|exact E|done|done|].
      apply (pread_nothing base ext h w rp r n (cb_len cb)); [done|done|done|lia|]. change (length got = 0)%nat. lia. }
  unfold handle_completion. cbn [w_aio with_aio].
  destruct (iocb_return p (reported p (w_aio w))) as [a2|]; [|done]. run_in El. assert (add_flight (-1) a2 = landed p (w_aio w)) as El2 by congruence. run. rewrite El2.
  rewrite (proj2 (Z.leb_gt _ _) Hpos). unfold http_conn_get_priv, http_conn_wake_one, nbio_wake, do_set_wait.
  change (busy (set_priv h (Some b1) (h_io_state h))) with (busy h). rewrite (busy_data h Hst). run.
  rewrite Nat2Z.id. cbn [h_io_priv set_priv of_option mbind outcome_bind]. rewrite E2. run. change (busy _) with (busy h). rewrite (busy_data h Hst). run.
  change (n_mask _) with (n_mask (h_nbio h)). rewrite Hmask. run.
  eexists _, _. split; [reflexivity|]. split; [reflexivity|]. split; [done|].
  assert (conn_ok base ext (set_priv h (Some b2) (h_io_state h)) (with_aio w (landed p (w_aio w)))) as Hok3 by by apply waiting_frame.
  split; [|done].
  constructor; try done.
  - by apply (conn_nbio base ext _ _ _ (w_send w) (w_sent w) Hok3).
  - pose proof (in_kernel_landed p cb (w_aio w) Hreq). change (Z.of_nat (in_kernel (landed p (w_aio w))) < 2 ^ 32 - 1). lia.
  - cbn [w_aio with_aio]. by rewrite Ecb in Hq'.
  - exists b2, (drop k (file_slice h w)). split; [done|]. rewrite Hu2, app_nil_l. split; [by destruct got|].
    assert (got = take k (file_slice h w)) as ->.
    { rewrite (file_slice_at h w rp r Hw Hr), take_take, Nat.min_l by lia. done. }
    by rewrite take_drop.
Qed.


#[export] Instance async_laws : AsyncLaws sync_priv self.
Proof.
  constructor.
  - apply sync_abort_law.
  - intros base ext h w [_ Hst _ _ Hq _ _ _]. by split.
  - intros base ext h w [_ _ _ _ _ Hm _ _]. done.
  - intros base ext h w r wr e []. constructor; try done. by apply conn_deliver.
  - apply async_write_ok.
  - intros p cb base ext h w [_ Hst _ _ _ (Hm & _) _ _]. by split.
  - intros p cb base ext h w [_ _ Ha _ Hreq _ _ (b & rp & r & _ & _ & _ & _ & _ & _ & Ecb)].
    split_and!; [done|by rewrite Ecb|done].
  - intros p cb base ext h w ans HW.
    destruct (completion_ok p cb base ext h w ans HW) as (res & h1 & h' & w' & E1 & E2 & E3 & E4).
    exists res, h1, w, h', w', []. split_and!; [done|done|by rewrite app_nil_r|].
    destruct (0 <? res).
    + left. destruct E4 as [? ->]. split; [by apply Ready|done].
    + right. right. destruct E4. split; [done|]. right. split; [done|by eexists].
Qed.
End streaming.

(** *** Before the first request *)

(** The connection has no webroot yet when [handle_get] has the model prepared. *)
Lemma prep_crashes self (h : http_conn sync_priv) w : busy h = true -> h_webroot h = None ->
  io_async_prep self h w =
    let (b, w) := buf_alloc h_dat_pool w in
    match b with None => Ret (false, h, w) | Some _ => Fault OutOfBounds end.
Proof.
  intros Hb Hw. unfold io_async_prep. destruct (buf_alloc h_dat_pool w) as [[b|] w1]; [|done].
  unfold http_conn_set_priv. rewrite Hb. run. unfold aio_submit, http_conn_data.
  change (busy (set_priv h (Some b) 0)) with (busy h). rewrite Hb. cbn [c_assert mbind outcome_bind].
  change (h_webroot (set_priv h (Some b) 0)) with (h_webroot h). by rewrite Hw.
Qed.

(** ** Properties *)

(** C23: once a transfer is under way, with bytes of the file in the data buffer or a
    read outstanding, the asynchronous model sends the file exactly: over any
    interleaving of write callbacks, completions and events the loop reports (a
    full socket that becomes writable again included), whatever the socket, the
    kernel and [io_submit] answer, the bytes sent are a prefix of the file's and
    the rest is still to come; when the connection is back at waiting for a
    request, the file has been sent once, in full and in order. At every
    moment there is at most one read outstanding, into room the buffer has, the
    count of requests in flight is right, the event loop leaves a connection
    whose read is outstanding alone and calls any other back once its socket is
    writable; a connection ends with part of the file unsent only when its
    socket is broken, a read cannot be asked for or has brought nothing; and no
    step fails an assertion, touches a freed object or writes outside the buffer.
    The first transfer of a connection never gets under way:
    see [async_get_crashes]. *)
Theorem async_streams self base ext h w h' w' : phase self base ext h w -> rtc (async_step self) (h, w) (h', w') ->
  exists x, w_sent w' = w_sent w ++ x /\
    streamed self (failed self (h, w) (h', w')) base ext (file_slice h w) x h' w' /\
    (h_state h' = HTTP_CONN_DATA -> steps_safe self h' w') /\
    (h_state h' = HTTP_CONN_REQUEST -> x = file_slice h w).
Proof. apply (streams self base ext h w h' w'). Qed.

(** Three bytes are in the buffer, two more in the file; the socket is full at first. *)
Definition async_world : world := with_aio (sending_world 1 [SysErr EAGAIN; SysOk 9; SysOk 2] []) (Aio ∅ ∅ 0 [true] [1]).
Definition async_conn : http_conn sync_priv := sending_conn (Some (data_buffer (lit "hel"))) 0.

Lemma async_start : phase 10 (Pools 0 0 0) [] async_conn async_world.
Proof.
  apply Ready. constructor; try done.
  - apply conn_aio. exact (sending_ok (Some (data_buffer (lit "hel"))) 0 _ [] ltac:(lia)
      (data_buffer_ok (lit "hel") ltac:(by apply Nat.leb_le)) (ex_intro _ _ eq_refl)).
  - exists (data_buffer (lit "hel")), (lit "lo"). split; [done|]. by vm_compute.
Qed.

Lemma async_streams_witness :
  exists h' w', rtc (async_step 10) (async_conn, async_world) (h', w') /\ h_state h' = HTTP_CONN_REQUEST /\
    w_sent w' = lit "hello".
Proof.
  assert (exists h' w', rtc (async_step 10) (async_conn, async_world) (h', w') /\ h_state h' = HTTP_CONN_REQUEST)
    as (h' & w' & Hs & Hst).
  { do 2 eexists. split.
    - eapply rtc_l; [apply step_write; [reflexivity|reflexivity|vm_compute; reflexivity]|].
      eapply rtc_l; [apply (step_deliver 10 _ _ false true false); [reflexivity|by vm_compute]|].
      eapply rtc_l; [apply step_write; [reflexivity|reflexivity|vm_compute; reflexivity]|].
      eapply rtc_l; [eapply (step_event 10 _ _ 0 _ (SysOk 9)); [reflexivity|reflexivity|reflexivity|vm_compute; reflexivity]|].
      eapply rtc_l; [apply step_write; [reflexivity|reflexivity|vm_compute; reflexivity]|]. apply rtc_refl.
    - reflexivity. }
  exists h', w'. split; [exact Hs|]. split; [exact Hst|].
  destruct (async_streams 10 (Pools 0 0 0) [] async_conn async_world h' w' async_start Hs) as (x & E & _ & _ & Hx).
  rewrite E, (Hx Hst). by vm_compute.
Defined.

(** but it never gets under way: with the asynchronous model a request for a file
    brings the server down. [handle_get] has the model prepared before it sets
    [h_webroot], and the model's first request asks for that webroot's
    descriptor: on a connection without a webroot of an earlier request, a GET
    for an object that is a file with contents, and for which there is a data
    buffer, follows a null pointer. *)
Theorem async_get_crashes self (h : http_conn sync_priv) w mem r w1 hst rp root mp ml off len mt tag e b w2 :
  h_state h = HTTP_CONN_HEADER -> h_webroot h = None ->
  find_object w mem r = Ret (w1, hst, Some (rp, root, Some (NameData mp ml off len mt tag))) ->
  (if (v_len (etag r) =? 40)%nat then vec_bytes mem (etag r) else Ret []) = Ret e ->
  (length e =? 40)%nat && (vstrcmp e (take 40 (print_etag tag)) =? 0) = false ->
  len <> 0 -> buf_alloc h_dat_pool w1 = (Some b, w2) ->
  @handle_get sync_priv (fio_async self) h w mem r false = Fault OutOfBounds.
Proof.
  intros Hst Hw Hfind He Hhit Hlen Hbuf. unfold handle_get. rewrite Hfind. run. rewrite He. run.
  unfold send_file. rewrite Hhit. cbn [h_data_len set_data orb negb andb].
  rewrite (proj2 (Z.eqb_neq _ _) Hlen). cbn [io_prep fio_async negb andb].
  rewrite prep_crashes; [by rewrite Hbuf|unfold busy; cbn; by rewrite Hst|done].
Qed.

Definition async_fresh : http_conn sync_priv :=
  Conn (Nbio 7 NBIO_READ NBIO_READ Active) HTTP_CONN_REQUEST RSTATE_INITIAL 0 None 0 None None None 0 0 0.

(** A GET for the file of the one-file webroot, and the callback that reads it. *)
Lemma async_get_crashes_witness :
  @http_read sync_priv (fio_async 10) async_fresh (fresh_world get_a []) = Fault OutOfBounds /\
  exists n r, http_req get_a = Ret (n, r) /\
    @handle_get sync_priv (fio_async 10) (set_state async_fresh HTTP_CONN_HEADER) (fresh_world [] []) get_a r false = Fault OutOfBounds.
Proof.
  split; [vm_compute; reflexivity|]. eexists _, _. split; [vm_compute; reflexivity|].
  eapply async_get_crashes; [reflexivity|reflexivity|vm_compute; reflexivity|reflexivity|vm_compute; reflexivity|done|vm_compute; reflexivity].
Defined.
