(* ===== verification/IoAsyncSendfile.v ===== *)
(** * io_async_sendfile.c: having the kernel send a file in the background

    A connection whose socket has room is put to sleep and the kernel is asked to
    send the rest of its file; what it has sent is known when it reports. *)

From S2P Require Import Prelude Os Vec HttpParse HttpReq Normalize Webroot Critbit Vhosts Nbio HttpBuf HttpHead Aio HttpConn Async IoModels Transmit Serve.
Local Open Scope Z_scope.

Definition io_async_sendfile_abort (h : http_conn unit) (w : world) : outcome (http_conn unit * world) := Ret (h, w).

Section async_sendfile.
Context (self : nat).
Abbreviation conn := (http_conn unit).

Definition aio_submit (h : conn) (w : world) : outcome (bool * conn * world) :=
  '(fd, data_off, data_len) ← http_conn_data h w;
  assert! negb (data_len =? 0) ;;
  let (iocb, a) := iocb_alloc (w_aio w) in
  let w := with_aio w a in
  match iocb with
  | None => Ret (false, h, w)
  | Some iocb =>
    sock ← http_conn_socket h;
    let (ret, a) := io_submit iocb (Iocb (Sendfile sock) fd data_off data_len self) (w_aio w) in
    let w := with_aio w a in
    if ret <=? 0 then Ret (false, h, w)
    else Ret (true, h, with_aio w (add_flight 1 (w_aio w)))
  end.

Definition io_async_sendfile_write (h : conn) (w : world) : outcome (bool * conn * world) :=
  h ← http_conn_to_waitq h None;
  aio_submit h w.

Definition fio_async_sendfile : Fio unit := {|
  io_prep h w := Ret (true, h, w);
  io_write := io_async_sendfile_write;
  io_abort := io_async_sendfile_abort;
|}.

Definition handle_completion (iocb : nat) (h : conn) (ret : Z) (w : world) : outcome (conn * world) :=
  a ← iocb_return iocb (w_aio w);
  let w := with_aio w (add_flight (-1) a) in
  if 0 <? ret then
    '(h, data_len) ← http_conn_data_read h ret;
    if negb (data_len =? 0) then
      '(ok, h, w) ← aio_submit h w;
      if (ok : bool) then Ret (h, w) else http_conn_abort io_async_sendfile_abort h w
    else http_conn_data_complete io_async_sendfile_abort h w
  else if ret =? -11 then
    h ← http_conn_wait_on h NBIO_WRITE;
    Ret (h, w)
  else http_conn_abort io_async_sendfile_abort h w.
End async_sendfile.

(** What the kernel does for a request, of the answer [ans]: it sends bytes of the
    file on the socket the request names ([-11] is [-EAGAIN]). *)
Definition kernel_sendfile (cb : iocb) (ans : sysres) (h : http_conn unit) (w : world) : outcome (Z * http_conn unit * world) :=
  match ans, cb_op cb with
  | SysErr EAGAIN, _ => Ret (-11, h, w)
  | SysOk n, Sendfile sock =>
    if sock =? n_fd (h_nbio h) then
      let got := take (moved n (Z.to_nat (cb_len cb))) (drop (Z.to_nat (cb_off cb)) (default [] (w_files w !! cb_fd cb))) in
      Ret (Z.of_nat (length got), h, with_send w (w_send w) (w_sent w ++ got))
    else Ret (-1, h, w)
  | _, _ => Ret (-1, h, w)
  end.

(** [aio_event]: unlike [io_async.c]'s, it asks for events when none is in flight. *)
Definition aio_event (self : nat) : gmap nat (http_conn unit) * world -> errno + list (nat * sysres) ->
    outcome (gmap nat (http_conn unit) * world) :=
  reap kernel_sendfile (handle_completion self).

(** ** Invariants *)

Section streaming.
Context (self : nat).
Implicit Types (h : http_conn unit) (w : world).

(** With something to send and no request outstanding. *)
Record streaming (base : pools) (ext : list nat) h w : Prop := {
  so_conn : conn_ok base ext h w;
  so_state : h_state h = HTTP_CONN_DATA;
  so_aio : aio_ok (w_aio w);
  so_room : Z.of_nat (in_kernel (w_aio w)) < 2 ^ 32 - 1;
  so_quiet : quiet self (w_aio w);
  so_mask : n_mask (h_nbio h) = NBIO_WRITE;
  so_len : 0 < h_data_len h;
}.

(** The request is for all of what is left of the file, on the connection's socket. *)
Record waiting_for (p : nat) (cb : iocb) (base : pools) (ext : list nat) h w : Prop := {
  wt_conn : conn_ok base ext h w;
  wt_state : h_state h = HTTP_CONN_DATA;
  wt_aio : aio_ok (w_aio w);
  wt_room : Z.of_nat (in_kernel (w_aio w)) < 2 ^ 32;
  wt_req : a_kernel (w_aio w) !! p = Some cb;
  wt_asleep : n_mask (h_nbio h) = 0;
  wt_len : 0 < h_data_len h;
  wt_cb : exists rp r, h_webroot h = Some rp /\ w_heap w !! rp = Some r /\
    cb = Iocb (Sendfile (n_fd (h_nbio h))) (r_fd r) (h_data_off h) (h_data_len h) self;
}.

(** The grounds for ending a connection: the kernel cannot be asked, or has answered
    with an error that is not [EAGAIN] or sent nothing, or cannot be asked for the
    rest. *)
Definition async_sendfile_fails (ans : option sysres) h w : Prop :=
  aio_refused (w_aio w) \/
  match ans with
  | None | Some (SysErr EAGAIN) => False
  | Some (SysErr _) | Some (SysOk O) => True
  | Some (SysOk (S _)) => file_slice h w = []
  end.

#[export] Instance async_sendfile_fio : AsyncFio unit self := {|
  af_fio := fio_async_sendfile self;
  af_kernel := kernel_sendfile;
  af_completion := handle_completion self;
  af_ready := streaming;
  af_waiting := waiting_for;
  af_fails := async_sendfile_fails;
|}.

(** Asking for the rest of the file, for a connection that is asleep. *)
Lemma asf_submit_ok base ext h w : conn_ok base ext h w -> h_state h = HTTP_CONN_DATA -> aio_ok (w_aio w) ->
  Z.of_nat (in_kernel (w_aio w)) < 2 ^ 32 - 1 -> quiet self (w_aio w) -> 0 < h_data_len h -> n_mask (h_nbio h) = 0 ->
  exists ok w', aio_submit self h w = Ret (ok, h, w') /\ w_sent w' = w_sent w /\ file_slice h w' = file_slice h w /\
    if (ok : bool) then exists p cb, waiting_for p cb base ext h w' else conn_ok base ext h w' /\ aio_refused (w_aio w).
Proof.
  intros Hok Hst Ha Hsz Hq Hlen Hmask. pose proof (busy_data h Hst) as Hbusy.
  destruct (data_conn base ext h w Hok Hst) as (_ & _ & _ & _ & _ & _ & _ & rp & r & Hw & Hr).
  unfold aio_submit, http_conn_data, http_conn_socket. rewrite Hbusy, Hw. cbn [c_assert mbind outcome_bind option_bind]. rewrite Hr.
  run. rewrite (proj2 (Z.eqb_neq (h_data_len h) 0)) by lia. run.
  set (cb := Iocb (Sendfile (n_fd (h_nbio h))) (webroot_get_fd r) (h_data_off h) (h_data_len h) self).
  pose proof (launch_cases self cb (w_aio w) Ha Hq eq_refl Hsz) as Hl.
  destruct (iocb_alloc (w_aio w)) as [[p|] a1]; cbn [with_aio w_aio].
  2:{ eexists false, _. split; [reflexivity|]. split_and!; [done|done|by apply conn_aio|apply Hl]. }
  destruct Hl as [_ Hl]. destruct (io_submit p cb a1) as [ret a2]. rewrite Z.ltb_antisym in Hl.
  destruct (ret <=? 0); cbn [negb] in Hl.
  { eexists false, _. split; [reflexivity|]. split_and!; [done|done|by apply conn_aio, conn_aio|apply Hl]. }
  destruct Hl as [E Ha2]. cbn [with_aio w_aio]. rewrite E. eexists true, _. split; [reflexivity|].
  split; [done|]. split; [done|]. exists p, cb. constructor; try done.
  - by apply conn_aio, conn_aio, conn_aio.
  - pose proof (in_kernel_launched p cb (w_aio w)). cbn [w_aio with_aio]. lia.
  - cbn. by rewrite lookup_insert_eq.
  - by exists rp, r.
Qed.

Lemma asf_write_ok base ext h w : streaming base ext h w ->
  async_result self (async_sendfile_fails None h w) base ext h w (io_async_sendfile_write self h w).
Proof.
  intros HS. pose proof (ok_mask _ _ _ _ (so_conn _ _ _ _ HS)) as Hm.
  unfold io_async_sendfile_write, http_conn_to_waitq, nbio_to_waitq, do_set_wait.
  rewrite (busy_data h (so_state _ _ _ _ HS)). run. rewrite (proj2 (Z.eqb_neq _ NBIO_DELETED) Hm). run.
  pose (h1 := set_nbio h (Nbio (n_fd (h_nbio h)) 0 0 Inactive)). destruct HS as [Hok Hst Ha Hsz Hq _ Hlen].
  destruct (asf_submit_ok base ext h1 w) as (ok & w' & E & E1 & E2 & E3); try done; [by apply conn_asleep|].
  exists ok, h1, w', []. rewrite app_nil_r. split; [exact E|]. split; [done|]. destruct ok.
  - destruct E3 as (p & cb & HW). left. split; [by eapply Waiting|]. rewrite E2. done.
  - destruct E3. split; [by eexists|]. split; [by apply (conn_killable io_async_sendfile_abort)|by left].
Qed.

(** A connection that has been given up on, after [x] has been sent. *)
Lemma asf_abort_ok base ext h w : conn_ok base ext h w -> h_state h = HTTP_CONN_DATA ->
  exists h' w', http_conn_abort io_async_sendfile_abort h w = Ret (h', w') /\ w_sent w' = w_sent w /\ dead_ok base ext h' w'.
Proof.
  intros Hok Hst. unfold http_conn_abort. rewrite (busy_data h Hst). run.
  destruct (kill_ok io_async_sendfile_abort base ext h w) as (h' & w' & E & Hd & Hs & _).
  { by apply (conn_killable io_async_sendfile_abort). }
  by exists h', w'.
Qed.

(** After a completion, [m] bytes further on. *)
Lemma advanced base ext h w s t m : conn_ok base ext h w -> h_state h = HTTP_CONN_DATA -> 0 <= m <= h_data_len h ->
  conn_ok base ext (set_data h (h_data_off h + m) (h_data_len h - m)) (with_send w s t).
Proof.
  intros Hok Hst Hm. destruct (data_conn base ext h w Hok Hst) as (Hs & Hmask & Ho & Hl & Hres & Hp & Hparse & rp & r & Hw & Hr).
  apply data_ok; try done; [|cbn; lia]. by destruct Hs; constructor.
Qed.

(** The end of [handle_completion] when bytes have been sent. *)
Lemma progress_ok why base ext h w : conn_ok base ext h w -> h_state h = HTTP_CONN_DATA -> aio_ok (w_aio w) ->
  Z.of_nat (in_kernel (w_aio w)) < 2 ^ 32 - 1 -> quiet self (w_aio w) -> n_mask (h_nbio h) = 0 ->
  (aio_refused (w_aio w) -> why) -> exists h' w', (if negb (h_data_len h =? 0) then
      '(ok, h, w) ← aio_submit self h w;
      if (ok : bool) then Ret (h, w) else http_conn_abort io_async_sendfile_abort h w
    else http_conn_data_complete io_async_sendfile_abort h w) = Ret (h', w') /\ w_sent w' = w_sent w /\
    streamed self why base ext (file_slice h w) [] h' w'.
Proof.
  intros Hok Hst Ha Hsz Hq Hmask Hwhy. destruct (data_conn base ext h w Hok Hst) as (Hs & Hm & Ho & Hl & Hres & Hp & Hparse & rp & r & Hw & Hr).
  destruct (Z.eqb_spec (h_data_len h) 0) as [Hz|Hz]; cbn [negb].
  - destruct (complete_ok io_async_sendfile_abort base ext h w) as (h' & w' & E & Hs' & Hcl & Hend); try done; [by destruct (h_io_priv h)|].
    exists h', w'. split; [done|]. split; [done|].
    assert (file_slice h w = []) as -> by (rewrite (file_slice_at h w rp r Hw Hr), Hz; done).
    destruct (complete_state _ _ _ _ _ E) as [Hst'|Hst']; destruct Hend as [[Hc _]|[Hd Hne]].
    + right. by left.
    + right. right. split; [done|left; by rewrite Hcl].
    + destruct Hc as [_ _ _ Hc]. by rewrite Hst' in Hc.
    + right. right. split; [done|left; by rewrite Hcl].
  - destruct (asf_submit_ok base ext h w) as (ok & w' & E & E1 & E2 & E3); try done; [lia|].
    rewrite E. run. destruct ok.
    + exists h, w'. split; [done|]. split; [done|]. destruct E3 as (p & cb & HW). left. split; [by eapply Waiting|by rewrite E2].
    + destruct E3 as [E3 Href]. destruct (asf_abort_ok base ext h w' E3 Hst) as (h' & w2 & -> & Hs' & Hd). exists h', w2.
      split; [done|]. split; [by rewrite Hs'|]. right. right. split; [done|]. right. split; [auto|by eexists].
Qed.

(** A completion with nothing sent. *)
Lemma asf_failed_ok why base ext h w ret : conn_ok base ext h w -> h_state h = HTTP_CONN_DATA -> aio_ok (w_aio w) ->
  Z.of_nat (in_kernel (w_aio w)) < 2 ^ 32 - 1 -> quiet self (w_aio w) -> 0 < h_data_len h ->
  (ret <> -11 -> why) -> exists h' w', (if ret =? -11 then h ← http_conn_wait_on h NBIO_WRITE; Ret (h, w)
    else http_conn_abort io_async_sendfile_abort h w) = Ret (h', w') /\ w_sent w' = w_sent w /\
    streamed self why base ext (file_slice h w) [] h' w'.
Proof.
  intros Hok Hst Ha Hsz Hq Hlen Hwhy. pose proof (ok_mask _ _ _ _ Hok) as Hm. destruct (Z.eqb_spec ret (-11)) as [Hr|Hr].
  - unfold http_conn_wait_on, nbio_wait_on. rewrite (busy_data h Hst). run.
    rewrite (proj2 (Z.eqb_neq _ NBIO_DELETED) Hm). run. eexists _, _. split; [reflexivity|]. split; [done|].
    left. split; [|done]. apply Ready. constructor; try done.
    pose proof (conn_nbio base ext h w (Nbio (n_fd (h_nbio h)) 2 2 Inactive) (w_send w) (w_sent w) Hok) as Hn.
    rewrite with_send_id in Hn. by apply Hn.
  - destruct (asf_abort_ok base ext h w Hok Hst) as (h' & w2 & -> & Hs' & Hd). exists h', w2.
    split; [done|]. split; [done|]. right. right. split; [done|]. right. split; [auto|by eexists].
Qed.

(** [handle_completion] once the block is back in its pool. *)
Lemma completion_eq p cb base ext h w w1 res : waiting_for p cb base ext h w -> w_aio w1 = w_aio w ->
  handle_completion self p h res (with_aio w1 (reported p (w_aio w1))) =
    let w2 := with_aio w1 (landed p (w_aio w)) in
    if 0 <? res then
      '(h, data_len) ← http_conn_data_read h res;
      if negb (data_len =? 0) then
        '(ok, h, w) ← aio_submit self h w2;
        if (ok : bool) then Ret (h, w) else http_conn_abort io_async_sendfile_abort h w
      else http_conn_data_complete io_async_sendfile_abort h w2
    else if res =? -11 then h ← http_conn_wait_on h NBIO_WRITE; Ret (h, w2)
    else http_conn_abort io_async_sendfile_abort h w2.
Proof.
  intros [_ _ Ha Hsz Hreq _ _ _] E. destruct (land_ok p cb (w_aio w) Ha Hreq Hsz) as (El & _). unfold handle_completion. cbn [w_aio with_aio]. rewrite E.
  destruct (iocb_return p (reported p (w_aio w))) as [a2|]; [|done]. run_in El.
  assert (add_flight (-1) a2 = landed p (w_aio w)) as El2 by congruence. run. by rewrite El2.
Qed.

Lemma landed_quiet p cb base ext h w : waiting_for p cb base ext h w ->
  aio_ok (landed p (w_aio w)) /\ quiet self (landed p (w_aio w)) /\ Z.of_nat (in_kernel (landed p (w_aio w))) < 2 ^ 32 - 1.
Proof.
  intros [_ _ Ha Hsz Hreq _ _ (rp & r & _ & _ & Ecb)]. destruct (land_ok p cb (w_aio w) Ha Hreq Hsz) as (_ & Ha' & Hq').
  pose proof (in_kernel_landed p cb (w_aio w) Hreq). rewrite Ecb in Hq'. cbn [cb_data] in Hq'. split_and!; [done|done|lia].
Qed.

Lemma done_failed (why : Prop) p cb base ext h w res : waiting_for p cb base ext h w -> res <= 0 -> (res <> -11 -> why) ->
  exists h' w' x, handle_completion self p h res (with_aio w (reported p (w_aio w))) = Ret (h', w') /\
    w_sent w' = w_sent w ++ x /\ streamed self why base ext (file_slice h w) x h' w'.
Proof.
  intros HW Hle Hwhy. destruct (landed_quiet p cb base ext h w HW) as (Ha' & Hq' & Hsz').
  rewrite (completion_eq p cb base ext h w w res HW eq_refl). cbv zeta. rewrite (proj2 (Z.ltb_ge _ _) Hle). destruct HW as [Hok Hst _ _ _ _ Hlen _].
  destruct (asf_failed_ok why base ext h (with_aio w (landed p (w_aio w))) res) as (h' & w' & E1 & E2 & E3); try done; [by apply conn_aio|].
  exists h', w', []. rewrite app_nil_r. by split_and!.
Qed.

Lemma done_ok p cb base ext h w ans : waiting_for p cb base ext h w ->
  exists res h1 w1 h' w' x, kernel_sendfile cb ans h w = Ret (res, h1, w1) /\
    handle_completion self p h1 res (with_aio w1 (reported p (w_aio w1))) = Ret (h', w') /\ w_sent w' = w_sent w ++ x /\
    streamed self (async_sendfile_fails (Some ans) h w) base ext (file_slice h w) x h' w'.
Proof.
  intros HW. pose proof HW as [Hok Hst _ _ _ _ Hlen (rp & r & Hw & Hr & Ecb)]. destruct ans as [n|e].
  2:{ assert (exists res, res <= 0 /\ (res <> -11 -> async_sendfile_fails (Some (SysErr e)) h w) /\ kernel_sendfile cb (SysErr e) h w = Ret (res, h, w))
        as (res & Hle & Hwhy & Ek) by (destruct e; eexists; (split; [|split; [|reflexivity]]); (lia || intros ?; by right)).
      destruct (done_failed _ p cb base ext h w res HW Hle Hwhy) as (h' & w' & x & E). by exists res, h, w, h', w', x. }
  destruct (data_conn base ext h w Hok Hst) as (_ & _ & Ho & _). destruct (landed_quiet p cb base ext h w HW) as (Ha' & Hq' & Hsz').
  unfold kernel_sendfile. rewrite Ecb. cbn [cb_op cb_len cb_off cb_fd]. rewrite Z.eqb_refl.
  set (k := moved n (Z.to_nat (h_data_len h))). set (got := take k (drop _ _)).
  pose proof (moved_le n (Z.to_nat (h_data_len h))) as Hk. fold k in Hk.
  assert (length got <= k)%nat as Hgl by (subst got; rewrite length_take; lia).
  exists (Z.of_nat (length got)), h, (with_send w (w_send w) (w_sent w ++ got)).
  destruct (Z.ltb_spec 0 (Z.of_nat (length got))) as [Hpos|Hneg].
  2:{ assert (0 <> -11 -> async_sendfile_fails (Some (SysOk n)) h w) as Hwhy.
      { intros _. right. destruct n as [|n]; [done|]. pose proof (moved_pos n (Z.to_nat (h_data_len h)) ltac:(lia)). rewrite (file_slice_at h w rp r Hw Hr).
        revert Hneg. subst got. rewrite length_take. destruct (drop _ _) as [|c l]; [by rewrite take_nil|]. subst k. cbn [length]. lia. }
      destruct got; [|cbn in Hneg; lia]. rewrite app_nil_r, with_send_id.
      destruct (done_failed _ p cb base ext h w 0 HW ltac:(lia) Hwhy) as (h' & w' & x & E). by exists h', w', x. }
  rewrite (completion_eq p cb base ext h w) by done. cbv zeta. rewrite (proj2 (Z.ltb_lt _ _) Hpos). unfold http_conn_data_read.
  rewrite (busy_data h Hst). run. rewrite (proj2 (Z.leb_le _ _)) by lia. run.
  set (h1 := set_data h _ _). set (w1 := with_aio _ _).
  assert (file_slice h w = got ++ file_slice h1 w1) as Hsplit.
  { rewrite (file_slice_at h w rp r Hw Hr), (file_slice_at h1 w1 rp r Hw Hr).
    pose proof (take_length_take k (drop (Z.to_nat (h_data_off h)) (default [] (w_files w !! r_fd r)))) as Hg. fold got in Hg. rewrite <- Hg at 1.
    by apply slice_advance; lia. }
  destruct (progress_ok (async_sendfile_fails (Some (SysOk n)) h w) base ext h1 w1) as (h' & w' & E1 & E2 & E3); try done.
  - apply conn_aio. apply advanced; [done|done|lia].
  - exact (wt_asleep _ _ _ _ _ _ HW).
  - intros Hr'. by left.
  - exists h', w', got. split; [done|]. split; [exact E1|]. split; [by rewrite E2|].
    rewrite Hsplit. pose proof (streamed_after self _ base ext got _ [] h' w' E3) as Hd. by rewrite app_nil_r in Hd.
Qed.

#[export] Instance async_sendfile_laws : AsyncLaws unit self.
Proof.
  constructor.
  - apply sendfile_abort_law.
  - intros base ext h w [_ Hst _ _ Hq _ _]. by split.
  - intros base ext h w [_ _ _ _ _ Hm _]. done.
  - intros base ext h w r wr e []. constructor; try done. by apply conn_deliver.
  - apply asf_write_ok.
  - intros p cb base ext h w [_ Hst _ _ _ Hm _ _]. by split.
  - intros p cb base ext h w [_ _ Ha _ Hreq _ _ (rp & r & _ & _ & Ecb)]. split_and!; [done|by rewrite Ecb|done].
  - apply done_ok.
Qed.
End streaming.

(** ** Properties *)

(** C24: the asynchronous sendfile model sends a file exactly: over any interleaving of
    write callbacks and completions, whatever the kernel and [io_submit]
    answer, what the kernel has sent is a prefix of the file and the rest is
    still asked for; partial completions, a full socket ([EAGAIN], after which
    the connection waits to be writable again) and refused requests included.
    When the connection is back at waiting for a request, the file has been
    sent once, in full and in order; it ends with part of the file unsent only
    when a request is refused or answered with another error or with nothing.
    There is at most one request outstanding
    for a connection, and no step fails an assertion or touches a freed
    object. *)
Theorem async_sendfile_streams self base ext h w h' w' : phase self base ext h w -> rtc (async_step self) (h, w) (h', w') ->
  exists x, w_sent w' = w_sent w ++ x /\
    streamed self (failed self (h, w) (h', w')) base ext (file_slice h w) x h' w' /\
    (h_state h' = HTTP_CONN_DATA -> steps_safe self h' w') /\
    (h_state h' = HTTP_CONN_REQUEST -> x = file_slice h w).
Proof. apply (streams self base ext h w h' w'). Qed.

(** Two requests: the first is answered with three bytes, then the socket is full. *)
Definition async_sendfile_world : world :=
  with_aio (sending_world 0 [] []) (Aio ∅ ∅ 0 [true; true; true] [1; 1; 1]).

Lemma async_sendfile_start : phase 10 (Pools 0 0 0) [] (sending_conn tt 0) async_sendfile_world.
Proof.
  apply Ready. constructor; try done. apply conn_aio. exact (sending_ok tt 0 _ [] ltac:(lia) I I).
Qed.

Lemma async_sendfile_streams_witness :
  exists h' w', rtc (async_step 10) (sending_conn tt 0, async_sendfile_world) (h', w') /\
    h_state h' = HTTP_CONN_REQUEST /\ w_sent w' = lit "hello".
Proof.
  assert (exists h' w', rtc (async_step 10) (sending_conn tt 0, async_sendfile_world) (h', w') /\ h_state h' = HTTP_CONN_REQUEST)
    as (h' & w' & Hs & Hst).
  { do 2 eexists. split.
    - eapply rtc_l; [apply step_write; [reflexivity|reflexivity|vm_compute; reflexivity]|].
      eapply rtc_l; [eapply (step_event 10 _ _ 0 _ (SysOk 3)); [reflexivity|reflexivity|reflexivity|vm_compute; reflexivity]|].
      eapply rtc_l; [eapply (step_event 10 _ _ 0 _ (SysErr EAGAIN)); [reflexivity|reflexivity|reflexivity|vm_compute; reflexivity]|].
      eapply rtc_l; [apply step_write; [reflexivity|reflexivity|vm_compute; reflexivity]|].
      eapply rtc_l; [eapply (step_event 10 _ _ 0 _ (SysOk 9)); [reflexivity|reflexivity|reflexivity|vm_compute; reflexivity]|].
      apply rtc_refl.
    - reflexivity. }
  exists h', w'. split; [exact Hs|]. split; [exact Hst|].
  destruct (async_sendfile_streams 10 (Pools 0 0 0) [] _ async_sendfile_world h' w' async_sendfile_start Hs) as (x & E & _ & _ & Hx).
  rewrite E, (Hx Hst). by vm_compute.
Defined.

(** a request block is lost every time the kernel does not take a request (its
    queue being full, for example): [aio_submit] has taken the block from its
    pool and returns without giving it back, and with no request outstanding
    for it no completion ever will. *)
Theorem aio_submit_leaks self base ext h w s ret rs : streaming self base ext h w ->
  a_allocs (w_aio w) = true :: s -> a_submits (w_aio w) = ret :: rs -> ret <= 0 ->
  exists w' p, aio_submit self h w = Ret (false, h, w') /\ p ∉ a_out (w_aio w) /\
    a_out (w_aio w') = {[p]} ∪ a_out (w_aio w) /\ a_kernel (w_aio w') = a_kernel (w_aio w) /\ a_kernel (w_aio w') !! p = None.
Proof.
  intros [Hok Hst [_ Ho _] _ _ _ Hlen] Eal Esub Hret. pose proof (busy_data h Hst) as Hbusy.
  destruct (data_conn base ext h w Hok Hst) as (_ & _ & _ & _ & _ & _ & _ & rp & r & Hw & Hr).
  unfold aio_submit, http_conn_data, http_conn_socket. rewrite Hbusy, Hw. cbn [c_assert mbind outcome_bind option_bind]. rewrite Hr.
  run. rewrite (proj2 (Z.eqb_neq (h_data_len h) 0)) by lia. run.
  unfold iocb_alloc. rewrite Eal. pose proof (is_fresh (a_out (w_aio w))) as Hf. set (p := fresh (a_out (w_aio w))) in *. clearbody p.
  unfold io_submit. cbn [w_aio with_aio a_submits]. rewrite Esub.
  rewrite (proj2 (Z.leb_le _ _) Hret), (proj2 (Z.ltb_ge _ _) Hret).
  eexists _, p. split; [reflexivity|]. split_and!; try done. apply not_elem_of_dom. set_solver.
Qed.

Lemma aio_submit_leaks_witness :
  let w := with_aio (sending_world 0 [] []) (Aio ∅ ∅ 0 [true] [-11]) in
  exists w' p, aio_submit 10 (sending_conn tt 0) w = Ret (false, sending_conn tt 0, w') /\ a_out (w_aio w') = {[p]} ∪ ∅.
Proof.
  cbv zeta. destruct (aio_submit_leaks 10 (Pools 0 0 0) [] (sending_conn tt 0)
    (with_aio (sending_world 0 [] []) (Aio ∅ ∅ 0 [true] [-11])) [] (-11) []) as (w' & p & E & _ & Ho & _);
    [|done|done|done|by exists w', p].
  constructor; try done. apply conn_aio. exact (sending_ok tt 0 _ [] ltac:(lia) I I).
Defined.
