(* ===== verification/Httprape.v ===== *)
(** * httprape.c: the load generator

    A client walks a Markov chain of pages at random: it asks for a page and what
    is on it, waits for the responses and goes on to the next page. The chain is
    made by a script from a record of visits ([markov.c], generated): its nodes,
    by address, are an argument here. The system calls, the buffers and the
    event loop are those of [HttpConn]. *)

From S2P Require Import Prelude Os Vec HttpParse Nbio HttpBuf HttpHead Aio HttpConn.
Local Open Scope Z_scope.

(** ** The random walk *)

Record medge := MEdge { e_prob_max : Z; e_node : nat }.

Record mnode := MNode {
  n_uri : list Z;
  n_ancillary : list (list Z);
  n_edge_prob_bits : Z;
  n_edge_prob_max : Z;
  n_edges : list medge;
}.

Definition n_num_sub (n : mnode) : nat := length (n_ancillary n).

(** The statics of [get_random_bits], and what [rand] will return. *)
Record prng := Prng { cached_bits : Z; rbits : Z; rands : list Z }.

Definition ASSUME_RAND_MAX_BITS : Z := 31.

Definition get_random_bits (bits : Z) (g : prng) : outcome (Z * prng) :=
  assert! (bits <=? ASSUME_RAND_MAX_BITS) ;;
  '(ret, bits, g) ←
    (if cached_bits g <? bits then
       match rands g with
       | [] => Fault Blocked
       | r :: rs =>
         Ret (uint 32 (Z.shiftl (Z.land (rbits g) (uint 32 (cached_bits g - 1))) (cached_bits g)), bits - cached_bits g,
              Prng ASSUME_RAND_MAX_BITS r rs)
       end
     else Ret (0, bits, g));
  Ret (Z.lor ret (Z.land (rbits g) (Z.shiftl 1 bits - 1)),
       Prng (cached_bits g - bits) (Z.shiftr (rbits g) bits) (rands g)).

(** The edge [rb] falls in; no edge is the [abort]. *)
Fixpoint pick (rb pmin : Z) (edges : list medge) : outcome nat :=
  match edges with
  | [] => Fault AssertFailed
  | e :: edges =>
    if (pmin <=? rb) && (rb <? e_prob_max e) then Ret (e_node e) else pick rb (e_prob_max e) edges
  end.

Section walk.
Context (nodes : gmap nat mnode) (markov_root : nat).

(** The result is a node, or nothing where the walk ends. *)
Definition markov_step (n : option nat) (g : prng) : outcome (option nat * prng) :=
  node ← of_option OutOfBounds (nodes !! default markov_root n);
  match n_edges node with
  | [] => Ret (None, g)
  | edges =>
    '(rb, g) ← get_random_bits (n_edge_prob_bits node) g;
    if n_edge_prob_max node =? 0 then Fault OutOfBounds
    else
      e ← pick (rb mod n_edge_prob_max node) 0 edges;
      Ret (Some e, g)
  end.
End walk.

(** ** A client *)

Inductive tx_state := CLIENT_TX_THINK | CLIENT_TX_PAGE_IMPRESS | CLIENT_TX_ANCILLARY | CLIENT_TX_FINAL_FLUSH.

(** The fields of [struct http_client] that are used. *)
Record http_client := HttpClient {
  c_nbio : nbio;
  c_tx_state : tx_state;
  c_markov : option nat;
  c_inpipe : Z;
  c_tx_total : Z;
  c_tx_buf : option http_buf;
  c_rx_rptr : nat;
  c_rx_buf : option http_buf;
  c_rx_rstate : rstate;
}.

Definition set_io c x := HttpClient x (c_tx_state c) (c_markov c) (c_inpipe c) (c_tx_total c) (c_tx_buf c)
  (c_rx_rptr c) (c_rx_buf c) (c_rx_rstate c).
Definition set_tx c st total inpipe buf := HttpClient (c_nbio c) st (c_markov c) inpipe total buf
  (c_rx_rptr c) (c_rx_buf c) (c_rx_rstate c).
Definition set_page c n := HttpClient (c_nbio c) (c_tx_state c) n (c_inpipe c) (c_tx_total c) (c_tx_buf c)
  (c_rx_rptr c) (c_rx_buf c) (c_rx_rstate c).
Definition set_rx c buf rptr rs := HttpClient (c_nbio c) (c_tx_state c) (c_markov c) (c_inpipe c) (c_tx_total c) (c_tx_buf c)
  rptr buf rs.

(** The buffers are left alone. *)
Definition abort_client (c : http_client) (w : world) : http_client * world :=
  (set_io c (nbio_del (set_fd (c_nbio c) (-1))), with_closed w (w_closed w ++ [n_fd (c_nbio c)])).

Section client.
Context (nodes : gmap nat mnode) (markov_root : nat) (host_addr : list Z) (svr_port : Z).

Definition client_read (c : http_client) (w : world) : outcome (http_client * world) :=
  let '(rx, c, w) :=
    match c_rx_buf c with
    | Some b => (Some b, c, w)
    | None =>
      let (b, w) := buf_alloc h_res_pool w in
      (b, match b with Some _ => set_rx c b 0 RSTATE_INITIAL | None => c end, w)
    end in
  match rx with
  | None => Ret (abort_client c w)
  | Some rx =>
    '(_, wsz) ← buf_write rx;
    if (wsz =? 0)%nat then Ret (abort_client c w)
    else
      match recv wsz w with
      | (inr EAGAIN, w) => Ret (set_io c (nbio_inactive (c_nbio c) NBIO_READ), w)
      | (inr _, w) => Ret (abort_client c w)
      | (inl [], w) => Ret (abort_client c w)
      | (inl l, w) =>
        rx ← poke rx (b_write rx) l;
        '(rx, _) ← buf_done_write rx (length l);
        '(found, rs, adv) ← http_parse_incremental (c_rx_rstate c) 0 (bytes_at rx (c_rx_rptr c) (b_write rx - c_rx_rptr c));
        let c := set_rx c (Some rx) (c_rx_rptr c + adv) rs in
        if negb found then Ret (c, w)
        else
          n ← nbio_set_wait (c_nbio c) NBIO_WRITE;
          Ret (set_io (set_tx c CLIENT_TX_THINK (c_tx_total c) (c_inpipe c) (c_tx_buf c)) n, w)
      end
  end.

Definition request (uri : list Z) : list Z :=
  lit "GET " ++ cstr uri ++ lit " HTTP/1.1" ++ crlf ++
  lit "Host: " ++ host_addr ++ lit ":" ++ dec svr_port ++ crlf ++
  lit "Connection: Keep-Alive" ++ crlf ++
  lit "User-Agent: httprape" ++ crlf ++ crlf.

(** [snprintf] stores as much as fits; the result is nothing when not all did. *)
Definition do_http_req (b : http_buf) (uri : list Z) : outcome (option http_buf) :=
  '(wptr, wsz) ← buf_write b;
  match wptr with
  | None => Ret None
  | Some p =>
    b ← poke b p (snprintf wsz (request uri));
    if (wsz <=? length (request uri))%nat then Ret None
    else
      '(b, _) ← buf_done_write b (length (request uri));
      Ret (Some b)
  end.

(** [buf_done_read(b, -1)]: the size wraps around and takes the position back by
    one; out of the buffer, when it is at its start. *)
Definition done_read_back (b : http_buf) : outcome (http_buf * nat) :=
  match b_read b with
  | O => Fault OutOfBounds
  | S r => Ret (HttpBuf (b_mem b) r (b_write b), b_write b - r)%nat
  end.

(** The [switch] of [client_write]: the client with the requests it is to send, or
    nothing to have it killed. *)
Definition next_request (c : http_client) (g : prng) (w : world) : outcome (bool * http_client * prng * world) :=
  let impress c g w :=
    node ← of_option OutOfBounds (c_markov c ≫= fun n => nodes !! n);
    b ← of_option OutOfBounds (c_tx_buf c);
    b' ← do_http_req b (n_uri node);
    match b' with
    | None => Ret (false, c, g, w)
    | Some b => Ret (true, set_tx c (c_tx_state c) (c_tx_total c) (c_inpipe c) (Some b), g, w)
    end in
  match c_tx_state c with
  | CLIENT_TX_THINK =>
    '(n, g) ← markov_step nodes markov_root (c_markov c) g;
    let c := set_page c n in
    match n with
    | None => Ret (false, c, g, w)
    | Some _ =>
      let (b, w) := buf_alloc h_req_pool w in
      let c := set_tx c (c_tx_state c) 0 (c_inpipe c) b in
      match b with
      | None => Ret (false, c, g, w)
      | Some _ => impress (set_tx c CLIENT_TX_PAGE_IMPRESS (c_tx_total c) (c_inpipe c) (c_tx_buf c)) g w
      end
    end
  | CLIENT_TX_PAGE_IMPRESS => impress c g w
  | CLIENT_TX_ANCILLARY =>
    node ← of_option OutOfBounds (c_markov c ≫= fun n => nodes !! n);
    assert! (c_tx_total c <=? Z.of_nat (n_num_sub node) + 1) ;;
    sub_uri ← of_option OutOfBounds (n_ancillary node !! Z.to_nat (c_tx_total c - 1));
    b ← of_option OutOfBounds (c_tx_buf c);
    b' ← do_http_req b sub_uri;
    match b' with
    | None => Ret (false, c, g, w)
    | Some b => Ret (true, set_tx c (c_tx_state c) (c_tx_total c) (c_inpipe c) (Some b), g, w)
    end
  | CLIENT_TX_FINAL_FLUSH => Ret (true, c, g, w)
  end.

(** Once a request has been sent. *)
Definition request_sent (c : http_client) (b : http_buf) (w : world) : outcome (http_client * world) :=
  node ← of_option OutOfBounds (c_markov c ≫= fun n => nodes !! n);
  let total := uint 16 (c_tx_total c + 1) in
  let inpipe := uint 16 (c_inpipe c + 1) in
  let st := if (total =? 1) && negb (n_num_sub node =? 0)%nat then CLIENT_TX_ANCILLARY else c_tx_state c in
  let c := set_tx c st total inpipe (Some b) in
  assert! (total <=? Z.of_nat (n_num_sub node) + 1) ;;
  if (total =? Z.of_nat (n_num_sub node) + 1) && negb (inpipe =? 0) then
    n ← nbio_set_wait (c_nbio c) NBIO_READ;
    Ret (set_io (set_tx c CLIENT_TX_THINK total inpipe (Some b)) n, w)
  else Ret (c, w).

(** The end of [client_write], with [rsz] bytes left in the buffer. *)
Definition after_send (c : http_client) (b : http_buf) (rsz : nat) (w : world) : outcome (http_client * world) :=
  if negb (rsz =? 0)%nat then Ret (set_tx c (c_tx_state c) (c_tx_total c) (c_inpipe c) (Some b), w)
  else
    b ← buf_reset b;
    request_sent c b w.

(** When the socket is full the client is made inactive and goes on all the same. *)
Definition client_write (c : http_client) (g : prng) (w : world) : outcome (http_client * prng * world) :=
  '(ok, c, g, w) ← next_request c g w;
  if negb ok then let (c, w) := abort_client c w in Ret (c, g, w)
  else
    b ← of_option OutOfBounds (c_tx_buf c);
    '(p, rsz) ← buf_read b;
    match send (bytes_at b p rsz) w with
    | (inr EAGAIN, w) =>
      let c := set_io c (nbio_inactive (c_nbio c) NBIO_WRITE) in
      '(b, rsz) ← done_read_back b;
      '(c, w) ← after_send c b rsz w;
      Ret (c, g, w)
    | (inr _, w) | (inl O, w) => let (c, w) := abort_client c w in Ret (c, g, w)
    | (inl ret, w) =>
      '(b, rsz) ← buf_done_read b ret;
      '(c, w) ← after_send c b rsz w;
      Ret (c, g, w)
    end.
End client.

(** The rest of a client's life. The pool of clients gives one or not; when it does
    not, the connection stays open. *)
Definition handle_connect (alloc_ok : bool) (s : Z) (concurrency : Z) : outcome (option http_client * Z) :=
  if negb alloc_ok then Ret (None, concurrency)
  else
    n ← nbio_add (nbio_new s) NBIO_WRITE;
    Ret (Some (HttpClient n CLIENT_TX_THINK None 0 0 None 0 None RSTATE_INITIAL), uint 32 (concurrency + 1)).

Definition client_dtor (c : http_client) (concurrency : Z) : Z := uint 32 (concurrency - 1).

(** [connecter] says whether it could start connecting; the result is
    [max_concurrency]. *)
Fixpoint ramp_up {S} (connecter : S -> outcome (bool * S)) (n : nat) (i target : Z) (s : S) : outcome (Z * S) :=
  match n with
  | O => Ret (i, s)
  | Datatypes.S n =>
    if target <=? i then Ret (i, s)
    else
      '(ok, s) ← connecter s;
      if (ok : bool) then ramp_up connecter n (uint 32 (i + 1)) target s else Ret (i, s)
  end.

(** ** The random walk *)

Record prng_ok (g : prng) : Prop := {
  pg_bits : 0 <= cached_bits g <= ASSUME_RAND_MAX_BITS;
  pg_cache : 0 <= rbits g < 2 ^ cached_bits g;
  pg_rands : Forall (fun r => 0 <= r < 2 ^ ASSUME_RAND_MAX_BITS) (rands g);
}.

Lemma land_ones_mod a n : 0 <= n -> Z.land a (Z.shiftl 1 n - 1) = a mod 2 ^ n.
Proof. intros Hn. rewrite Z.shiftl_1_l, <- Z.land_ones by done. by rewrite Z.ones_equiv, Z.sub_1_r. Qed.

(** The tail of [get_random_bits]: taking [bits] from the cache. *)
Lemma take_bits g bits : prng_ok g -> 0 <= bits <= cached_bits g ->
  0 <= rbits g mod 2 ^ bits < 2 ^ bits /\ prng_ok (Prng (cached_bits g - bits) (Z.shiftr (rbits g) bits) (rands g)).
Proof.
  intros [Hb Hc Hr] Hbits. split; [apply Z.mod_pos_bound; lia|]. constructor; cbn; [lia| |done].
  rewrite Z.shiftr_div_pow2 by lia. split; [apply Z.div_pos; lia|]. apply Z.div_lt_upper_bound; [lia|].
  rewrite <- Z.pow_add_r by lia. replace (bits + (cached_bits g - bits)) with (cached_bits g) by lia. apply Hc.
Qed.

Lemma random_bits_ok bits g : prng_ok g -> 0 <= bits <= ASSUME_RAND_MAX_BITS -> rands g <> [] ->
  exists ret g', get_random_bits bits g = Ret (ret, g') /\ prng_ok g' /\ 0 <= ret /\
    (bits <= cached_bits g -> ret = rbits g mod 2 ^ bits /\ rbits g' = Z.shiftr (rbits g) bits).
Proof.
  intros Hg Hb Hr. pose proof Hg as [Hcb Hrb Hrs]. unfold get_random_bits. rewrite (proj2 (Z.leb_le _ _)) by lia. run.
  destruct (Z.ltb_spec (cached_bits g) bits) as [Hlt|Hge].
  - destruct (rands g) as [|r rs]; [done|]. apply Forall_cons in Hrs as [Hr1 Hrs]. run.
    cbn [rbits cached_bits rands]. rewrite land_ones_mod by lia.
    assert (prng_ok (Prng ASSUME_RAND_MAX_BITS r rs)) as Hg1 by (constructor; cbn; [unfold ASSUME_RAND_MAX_BITS; lia|done|done]).
    destruct (take_bits _ (bits - cached_bits g) Hg1) as [Ht Hg2]; [cbn; lia|].
    eexists _, _. split; [reflexivity|]. split; [exact Hg2|]. split; [|lia].
    apply Z.lor_nonneg. split; [by apply uint_bound|cbn in Ht; lia].
  - run. rewrite land_ones_mod by lia. rewrite Z.lor_0_l.
    destruct (take_bits g bits Hg) as [Ht Hg2]; [lia|]. eexists _, _. split; [reflexivity|]. split; [exact Hg2|]. split; [lia|done].
Qed.

(** A node as the script makes it: the edges cut [0, n_edge_prob_max) up. *)
Fixpoint edges_ok (pmin pmax : Z) (edges : list medge) : Prop :=
  match edges with
  | [] => pmin = pmax
  | e :: edges => pmin <= e_prob_max e /\ edges_ok (e_prob_max e) pmax edges
  end.

Record mnode_ok (n : mnode) : Prop := {
  mn_edges : edges_ok 0 (n_edge_prob_max n) (n_edges n);
  mn_max : n_edges n <> [] -> 0 < n_edge_prob_max n;
  mn_bits : 0 <= n_edge_prob_bits n <= ASSUME_RAND_MAX_BITS;
}.

(** [e] is the edge of [rb]. *)
Definition edge_of (rb pmin : Z) (edges : list medge) (e : nat) : Prop :=
  exists l1 l2 m, edges = l1 ++ MEdge m e :: l2 /\ default pmin (e_prob_max <$> last l1) <= rb < m.

Lemma pick_ok rb pmax edges : forall pmin, edges_ok pmin pmax edges -> pmin <= rb < pmax ->
  exists e, pick rb pmin edges = Ret e /\ edge_of rb pmin edges e.
Proof.
  induction edges as [|[m e] edges IH]; cbn [edges_ok pick e_prob_max e_node]; intros pmin Hok Hrb; [lia|].
  destruct Hok as [Hm Hok]. rewrite (proj2 (Z.leb_le _ _)) by lia. cbn [andb].
  destruct (Z.ltb_spec rb m) as [Hlt|Hge].
  - exists e. split; [done|]. exists [], edges, m. split; [done|]. cbn. lia.
  - destruct (IH m Hok ltac:(lia)) as (e' & E & l1 & l2 & m' & -> & Hl). exists e'. split; [done|].
    exists (MEdge m e :: l1), l2, m'. split; [done|]. destruct (last l1) as [x|] eqn:El; cbn [fmap option_fmap option_map from_option default] in *.
    + rewrite last_cons, El. exact Hl.
    + rewrite last_cons, El. exact Hl.
Qed.

(** ** A page *)

Section pages.
Context (nodes : gmap nat mnode) (markov_root : nat) (host_addr : list Z) (svr_port : Z).
Abbreviation request := (request host_addr svr_port).
Abbreviation client_write := (client_write nodes markov_root host_addr svr_port).
Implicit Types (c : http_client) (w : world) (b : http_buf).

(** A transmit buffer between two requests. *)
Definition fresh_tx b : Prop := buf_ok b /\ b_end b = HTTP_MAX_RESP /\ b_read b = 0%nat /\ b_write b = 0%nat.

Definition fits (uri : list Z) : Prop := (length (request uri) < HTTP_MAX_RESP)%nat.

Lemma do_req_ok b uri : fresh_tx b -> fits uri ->
  exists b', do_http_req host_addr svr_port b uri = Ret (Some b') /\ buf_ok b' /\ b_end b' = HTTP_MAX_RESP /\
    b_read b' = 0%nat /\ unread b' = request uri.
Proof.
  intros (Hb & He & Hr & Hw) Hf. unfold fits in Hf. unfold do_http_req. rewrite (write_ok b Hb). run.
  assert (room b = HTTP_MAX_RESP) as Hroom by (unfold room; rewrite He, Hw; done). rewrite Hroom.
  change (HTTP_MAX_RESP =? 0)%nat with false. cbv iota.
  assert (snprintf HTTP_MAX_RESP (request uri) = request uri ++ [0]) as ->.
  { change HTTP_MAX_RESP with (S 1023) at 1. unfold snprintf. rewrite take_ge by (unfold HTTP_MAX_RESP in Hf; lia). done. }
  destruct (append_ok b (request uri ++ [0]) (length (request uri)) Hb) as (b1 & b2 & -> & E2 & _ & Hb2 & _ & Hu2 & _ & He2 & Hw2 & _);
    [rewrite length_app, Hroom; cbn [length]; lia|rewrite length_app; lia|].
  run. rewrite (proj2 (Nat.leb_gt _ _) Hf). rewrite E2. run. exists b2. split; [done|]. split; [done|]. split; [by rewrite He2|].
  assert (unread b2 = request uri) as Hu.
  { rewrite Hu2, take_app_le, take_ge by done. assert (unread b = []) as -> by (unfold unread, bytes_at; by rewrite Hr, Hw). done. }
  split; [|exact Hu]. pose proof (length_unread b2 Hb2) as Hl. rewrite Hu in Hl. destruct Hb2. lia.
Qed.

(** The socket takes all of it. *)
Lemma send_all l w n s : w_send w = SysOk n :: s -> (length l <= n)%nat -> Z.of_nat (length l) < SSIZE_MAX ->
  send l w = (inl (length l), with_send w s (w_sent w ++ l)).
Proof.
  intros E Hn Hl. unfold send. rewrite E. assert (moved n (length l) = length l) as ->.
  { unfold moved, clamp. rewrite (proj2 (Z.ltb_lt _ _) Hl). lia. }
  by rewrite take_ge.
Qed.

Definition sent_all (w : world) (s : list sysres) (l : list Z) : world := with_send w s (w_sent w ++ l).

Lemma send_request c g w c1 g1 w1 b uri n s : next_request nodes markov_root host_addr svr_port c g w = Ret (true, c1, g1, w1) ->
  c_tx_buf c1 = Some b -> buf_ok b -> b_end b = HTTP_MAX_RESP -> b_read b = 0%nat -> unread b = request uri -> fits uri ->
  w_send w1 = SysOk n :: s -> (HTTP_MAX_RESP <= n)%nat ->
  exists b', fresh_tx b' /\ client_write c g w = '(c, w) ← request_sent nodes c1 b' (sent_all w1 s (request uri)); Ret (c, g1, w).
Proof.
  intros E Hc Hb He Hr Hu Hf Hs Hn. unfold client_write. rewrite E. run. cbn [negb]. rewrite Hc. run.
  rewrite (read_ok b Hb). run. assert (bytes_at b (b_read b) (length (unread b)) = request uri) as ->.
  { rewrite length_unread by done. exact Hu. }
  unfold fits in Hf. rewrite (send_all _ w1 n s Hs) by (unfold HTTP_MAX_RESP, SSIZE_MAX in *; lia).
  destruct (length (request uri)) as [|k] eqn:Ek; [done|]. rewrite <- Ek in *. clear k Ek.
  destruct (done_read_ok b (length (request uri)) Hb ltac:(by rewrite Hu)) as (b2 & -> & Hb2 & Hu2 & He2 & _).
  rewrite Hu, drop_ge in Hu2 by done. run. unfold after_send. rewrite Hu2. cbn [length Nat.eqb negb].
  destruct (reset_ok b2 Hb2) as (b3 & -> & Hb3 & Hr3 & Hu3 & He3 & Hw3). run. exists b3. split; [|done].
  split_and!; [done|by rewrite He3, He2|done|by rewrite Hw3, Hu2].
Qed.

(** What [client_write] does at most [n] times. *)
Fixpoint client_writes (n : nat) c (g : prng) w : outcome (http_client * prng * world) :=
  match n with
  | O => Ret (c, g, w)
  | S n => '(c, g, w) ← client_write c g w; client_writes n c g w
  end.

(** [k] requests of the page have been sent, of [1 + n_num_sub] there are. *)
Record on_page (nid : nat) (node : mnode) (k : nat) (inpipe : Z) c : Prop := {
  op_node : c_markov c = Some nid /\ nodes !! nid = Some node;
  op_live : n_mask (c_nbio c) <> NBIO_DELETED;
  op_inpipe : c_inpipe c = inpipe;
  op_buf : exists b, c_tx_buf c = Some b /\ fresh_tx b;
  op_state : c_tx_total c = Z.of_nat k /\
    if (k <=? n_num_sub node)%nat then c_tx_state c = CLIENT_TX_ANCILLARY
    else c_tx_state c = CLIENT_TX_THINK /\ n_mask (c_nbio c) = NBIO_READ;
}.

(** Counting a request of the page as sent. *)
Lemma request_sent_ok nid node k inpipe c b w : c_markov c = Some nid -> nodes !! nid = Some node ->
  n_mask (c_nbio c) <> NBIO_DELETED -> c_inpipe c = inpipe -> c_tx_total c = Z.of_nat k -> fresh_tx b ->
  (k <= n_num_sub node)%nat -> Z.of_nat (n_num_sub node) < 2 ^ 16 - 1 -> 0 <= inpipe < 2 ^ 16 - 1 ->
  (k <> 0%nat -> c_tx_state c = CLIENT_TX_ANCILLARY) ->
  exists c', request_sent nodes c b w = Ret (c', w) /\ on_page nid node (S k) (inpipe + 1) c'.
Proof.
  intros Hm Hn Hl Hi Ht Hb Hk Hsub Hpipe Hst. unfold request_sent. rewrite Hm. cbn [option_bind mbind]. rewrite Hn. run.
  rewrite Hi, Ht. rewrite !uint_small by lia. rewrite (proj2 (Z.leb_le _ _)) by lia. run.
  rewrite (proj2 (Z.eqb_neq (inpipe + 1) 0)) by lia. cbn [negb]. rewrite andb_true_r.
  destruct (Z.eqb_spec (Z.of_nat k + 1) (Z.of_nat (n_num_sub node) + 1)) as [He|He].
  - rewrite set_wait_ok by done. run. eexists. split; [reflexivity|]. constructor; try done; [by exists b|].
    cbn [c_tx_total set_io set_tx]. split; [lia|]. rewrite (proj2 (Nat.leb_gt _ _)) by lia. done.
  - eexists. split; [reflexivity|]. constructor; try done; [by exists b|].
    cbn [c_tx_total set_io set_tx c_tx_state]. split; [lia|]. rewrite (proj2 (Nat.leb_le _ _)) by lia.
    destruct k as [|k].
    + rewrite (proj2 (Nat.eqb_neq (n_num_sub node) 0)) by lia. done.
    + rewrite (proj2 (Z.eqb_neq (Z.of_nat (S k) + 1) 1)) by lia. by apply Hst.
Qed.

(** The socket takes whatever it is given. *)
Definition wide (a : sysres) : Prop := exists n, a = SysOk n /\ (HTTP_MAX_RESP <= n)%nat.

Lemma ancillary_ok nid node k inpipe c g w uri a s : on_page nid node k inpipe c -> (1 <= k <= n_num_sub node)%nat ->
  Z.of_nat (n_num_sub node) < 2 ^ 16 - 1 -> 0 <= inpipe < 2 ^ 16 - 1 ->
  n_ancillary node !! (k - 1)%nat = Some uri -> fits uri -> w_send w = a :: s -> wide a ->
  exists c', client_write c g w = Ret (c', g, sent_all w s (request uri)) /\ on_page nid node (S k) (inpipe + 1) c'.
Proof.
  intros [(Hm & Hn) Hl Hi (b & Hb & Hf) (Ht & Hst)] Hk Hsub Hpipe Hu Hfit Hs (n & -> & Hwide).
  rewrite (proj2 (Nat.leb_le _ _)) in Hst by lia.
  destruct (do_req_ok b uri Hf Hfit) as (b' & Eb & Hb' & He' & Hr' & Hu').
  destruct (send_request c g w (set_tx c (c_tx_state c) (c_tx_total c) (c_inpipe c) (Some b')) g w b' uri n s) as (b2 & Hf2 & E); try done.
  { unfold next_request. rewrite Hst, Hm. cbn [option_bind mbind]. rewrite Hn. run. rewrite Ht.
    rewrite (proj2 (Z.leb_le _ _)) by lia. run. replace (Z.to_nat (Z.of_nat k - 1)) with (k - 1)%nat by lia.
    rewrite Hu, Hb. run. rewrite Eb. run. done. }
  rewrite E. clear E.
  destruct (request_sent_ok nid node k inpipe (set_tx c (c_tx_state c) (c_tx_total c) (c_inpipe c) (Some b')) b2 (sent_all w s (request uri)))
    as (c' & -> & Hc'); try done; [lia|]. run. by exists c'.
Qed.

Lemma ancillaries_ok nid node uris : forall k inpipe c g w ss rest, on_page nid node k inpipe c -> (1 <= k)%nat ->
  drop (k - 1) (n_ancillary node) = uris -> Z.of_nat (n_num_sub node) < 2 ^ 16 - 1 -> 0 <= inpipe ->
  inpipe + Z.of_nat (length uris) < 2 ^ 16 -> Forall fits uris -> w_send w = ss ++ rest -> Forall wide ss -> length ss = length uris ->
  exists c' w', client_writes (length uris) c g w = Ret (c', g, w') /\ on_page nid node (k + length uris) (inpipe + Z.of_nat (length uris)) c' /\
    w_sent w' = w_sent w ++ concat (request <$> uris).
Proof.
  induction uris as [|uri uris IH]; intros k inpipe c g w ss rest Hp Hk Hd Hsub Hi Hpipe Hfit Hs Hw Hlen.
  { exists c, w. cbn. rewrite app_nil_r, Nat.add_0_r, Z.add_0_r. by split_and!. }
  destruct ss as [|a ss]; [done|]. apply Forall_cons in Hfit as [Hf Hfit]. apply Forall_cons in Hw as [Ha Hw].
  injection Hlen as Hlen. cbn [length] in Hpipe.
  assert (n_ancillary node !! (k - 1)%nat = Some uri) as Hu.
  { rewrite <- (Nat.add_0_r (k - 1)), <- lookup_drop, Hd. done. }
  pose proof (lookup_lt_Some _ _ _ Hu) as Hlt. fold (n_num_sub node) in Hlt.
  destruct (ancillary_ok nid node k inpipe c g w uri a (ss ++ rest) Hp) as (c1 & E & Hp1); try done; try lia.
  destruct (IH (S k) (inpipe + 1) c1 g (sent_all w (ss ++ rest) (request uri)) ss rest Hp1) as (c' & w' & E' & Hp' & Hsent); try done; try lia.
  { replace (S k - 1)%nat with (S (k - 1)) by lia.
    rewrite <- Nat.add_1_r, <- drop_drop, Hd. done. }
  exists c', w'. cbn [length client_writes]. rewrite E. run. split; [exact E'|]. split.
  - replace (k + S (length uris))%nat with (S k + length uris)%nat by lia.
    by replace (inpipe + Z.of_nat (S (length uris))) with (inpipe + 1 + Z.of_nat (length uris)) by lia.
  - rewrite Hsent. unfold sent_all. cbn [w_sent with_send fmap list_fmap concat]. by rewrite <- app_assoc.
Qed.

(** Choosing the next page. *)
Lemma walk_step_ok n nid0 g : nodes !! nid0 = Some n -> mnode_ok n -> prng_ok g -> rands g <> [] -> n_edges n <> [] ->
  exists rb g' e, markov_step nodes markov_root (Some nid0) g = Ret (Some e, g') /\ prng_ok g' /\
    get_random_bits (n_edge_prob_bits n) g = Ret (rb, g') /\ edge_of (rb mod n_edge_prob_max n) 0 (n_edges n) e.
Proof.
  intros Hn [He Hmax Hbits] Hg Hr Hne. specialize (Hmax Hne).
  destruct (random_bits_ok (n_edge_prob_bits n) g Hg Hbits Hr) as (rb & g' & E & Hg' & _).
  destruct (pick_ok (rb mod n_edge_prob_max n) (n_edge_prob_max n) (n_edges n) 0 He) as (e & Ep & Hedge); [by apply Z.mod_pos_bound|].
  exists rb, g', e. unfold markov_step. cbn [default from_option id]. rewrite Hn. run.
  destruct (n_edges n) as [|ed eds]; [done|]. rewrite E. run. rewrite (proj2 (Z.eqb_neq _ _)) by lia. rewrite Ep. run. by split.
Qed.

(** A client about to ask for a page. *)
Record thinking (inpipe : Z) c : Prop := {
  th_state : c_tx_state c = CLIENT_TX_THINK;
  th_live : n_mask (c_nbio c) <> NBIO_DELETED;
  th_inpipe : c_inpipe c = inpipe;
}.

(** The page itself is asked for, in a buffer newly taken. *)
Lemma impress_ok nid node inpipe c g g' w m al a s : thinking inpipe c ->
  markov_step nodes markov_root (c_markov c) g = Ret (Some nid, g') -> nodes !! nid = Some node ->
  w_alloc w = AllocAnswer true (Some m) :: al -> fits (n_uri node) -> w_send w = a :: s -> wide a ->
  Z.of_nat (n_num_sub node) < 2 ^ 16 - 1 -> 0 <= inpipe < 2 ^ 16 - 1 ->
  exists c' w', client_write c g w = Ret (c', g', w') /\ on_page nid node 1 (inpipe + 1) c' /\
    w_sent w' = w_sent w ++ request (n_uri node) /\ w_send w' = s /\ n_req (w_pools w') = S (n_req (w_pools w)).
Proof.
  intros [Hst Hl Hi] Hstep Hn Hal Hfit Hs (n & -> & Hwide) Hsub Hpipe.
  set (b := HttpBuf (resize (pool_size h_req_pool) 0 m) 0 0). set (w1 := with_pools (with_alloc w al) (set_use (w_pools w) h_req_pool (S (n_req (w_pools w))))).
  assert (buf_alloc h_req_pool w = (Some b, w1)) as Ea by (unfold buf_alloc; by rewrite Hal).
  assert (fresh_tx b) as Hf.
  { unfold fresh_tx, buf_ok, b_end, b. cbn [b_mem b_read b_write]. rewrite length_resize. unfold pool_size. split_and!; (done || lia). }
  destruct (do_req_ok b (n_uri node) Hf Hfit) as (b' & Eb & Hb' & He' & Hr' & Hu').
  set (c1 := HttpClient (c_nbio c) CLIENT_TX_PAGE_IMPRESS (Some nid) (c_inpipe c) 0 (Some b') (c_rx_rptr c) (c_rx_buf c) (c_rx_rstate c)).
  destruct (send_request c g w c1 g' w1 b' (n_uri node) n s) as (b2 & Hf2 & E); try done.
  { unfold next_request. rewrite Hst, Hstep. run. rewrite Ea. cbn [c_markov set_tx set_page option_bind mbind]. rewrite Hn. run.
    cbn [c_tx_buf set_tx of_option]. run. by rewrite Eb. }
  rewrite E. destruct (request_sent_ok nid node 0 inpipe c1 b2 (sent_all w1 s (request (n_uri node)))) as (c' & -> & Hc'); try done; [lia|].
  run. eexists c', _. by split_and!.
Qed.

Lemma page_ok nid node inpipe c g g' w m al ss rest : thinking inpipe c ->
  markov_step nodes markov_root (c_markov c) g = Ret (Some nid, g') -> nodes !! nid = Some node ->
  w_alloc w = AllocAnswer true (Some m) :: al -> Forall fits (n_uri node :: n_ancillary node) ->
  w_send w = ss ++ rest -> Forall wide ss -> length ss = S (n_num_sub node) ->
  0 <= inpipe -> inpipe + Z.of_nat (n_num_sub node) < 2 ^ 16 - 1 ->
  exists c' w', client_writes (S (n_num_sub node)) c g w = Ret (c', g', w') /\
    on_page nid node (S (n_num_sub node)) (inpipe + 1 + Z.of_nat (n_num_sub node)) c' /\
    w_sent w' = w_sent w ++ concat (request <$> n_uri node :: n_ancillary node).
Proof.
  intros Hth Hstep Hn Hal [Hf Hfit]%Forall_cons Hs Hw Hlen Hi Hpipe.
  destruct ss as [|a ss]; [done|]. apply Forall_cons in Hw as [Ha Hw]. injection Hlen as Hlen.
  destruct (impress_ok nid node inpipe c g g' w m al a (ss ++ rest) Hth Hstep Hn Hal Hf Hs Ha) as (c1 & w1 & E1 & Hp1 & Hs1 & Hss1 & _); [lia|lia|].
  destruct (ancillaries_ok nid node (n_ancillary node) 1 (inpipe + 1) c1 g' w1 ss rest Hp1) as (c' & w' & E & Hp & Hsent); try done; try lia.
  { fold (n_num_sub node). lia. }
  exists c', w'. cbn [client_writes]. rewrite E1. run. split; [exact E|]. split; [exact Hp|].
  rewrite Hsent, Hs1, <- app_assoc. done.
Qed.
End pages.

(** ** Properties *)

(** C37: the load generator asks for what its model of visitors says. A client that is
    to go on takes a step of the Markov chain and, given a free buffer that the
    requests fit into and a socket that takes each of them whole, its write
    callbacks then send a GET for the page and one for
    each object on it, in order and once each, complete, with nothing in
    between; after the last one the client is waiting to read, ready for
    the next page. *)
Theorem client_asks_for_page nodes root host port nid node inpipe (c : http_client) (g g' : prng) w m al ss rest :
  thinking inpipe c -> markov_step nodes root (c_markov c) g = Ret (Some nid, g') -> nodes !! nid = Some node ->
  w_alloc w = AllocAnswer true (Some m) :: al -> Forall (fits host port) (n_uri node :: n_ancillary node) ->
  w_send w = ss ++ rest -> Forall wide ss -> length ss = S (n_num_sub node) ->
  0 <= inpipe -> inpipe + Z.of_nat (n_num_sub node) < 2 ^ 16 - 1 ->
  exists c' w', client_writes nodes root host port (S (n_num_sub node)) c g w = Ret (c', g', w') /\
    w_sent w' = w_sent w ++ concat (request host port <$> n_uri node :: n_ancillary node) /\
    c_tx_state c' = CLIENT_TX_THINK /\ n_mask (c_nbio c') = NBIO_READ /\ c_markov c' = Some nid.
Proof.
  intros. destruct (page_ok nodes root host port nid node inpipe c g g' w m al ss rest) as (c' & w' & E & Hp & Hs); try done.
  exists c', w'. destruct Hp as [[Hm _] _ _ _ [_ Hst]]. rewrite (proj2 (Nat.leb_gt _ _)) in Hst by lia. destruct Hst. by split_and!.
Qed.

(** An entry with two pages behind it, one of them with two objects on it. *)
Definition visits : gmap nat mnode :=
  <[0%nat := MNode [] [] 1 2 [MEdge 1 1; MEdge 2 2]]>
  (<[1%nat := MNode (lit "/a") [lit "/b.png"; lit "/c.css"] 0 1 [MEdge 1 0]]>
  {[2%nat := MNode (lit "/d") [] 0 0 []]}).

Definition local : list Z := lit "127.0.0.1".

Definition new_client : http_client :=
  HttpClient (Nbio 4 NBIO_WRITE NBIO_WRITE Active) CLIENT_TX_THINK None 0 0 None 0 None RSTATE_INITIAL.

Definition rape_world (rcv : list recv_answer) (snd : list sysres) : world :=
  with_recv (with_send (with_alloc (empty_world (Pools 0 0 0)) (replicate 4 (AllocAnswer true (Some [])))) snd []) rcv.

Definition dice : prng := Prng 0 0 [4; 7].

Lemma client_asks_for_page_witness : exists c' g' w',
  client_writes visits 0 local 80 3 new_client dice (rape_world [] (replicate 3 (SysOk 2000))) = Ret (c', g', w') /\
  w_sent w' = request local 80 (lit "/a") ++ request local 80 (lit "/b.png") ++ request local 80 (lit "/c.css") /\
  c_tx_state c' = CLIENT_TX_THINK.
Proof.
  assert (markov_step visits 0 None dice = Ret (Some 1%nat, Prng 30 2 [7])) as Hm by (vm_compute; reflexivity).
  destruct (client_asks_for_page visits 0 local 80 1 (MNode (lit "/a") [lit "/b.png"; lit "/c.css"] 0 1 [MEdge 1 0]) 0
    new_client dice (Prng 30 2 [7]) (rape_world [] (replicate 3 (SysOk 2000))) [] (replicate 3 (AllocAnswer true (Some []))) (replicate 3 (SysOk 2000)) [])
    as (c' & w' & E & Hs & Hst & _).
  - by constructor.
  - exact Hm.
  - reflexivity.
  - reflexivity.
  - repeat constructor; unfold fits, HTTP_MAX_RESP; apply Nat.ltb_lt; vm_compute; reflexivity.
  - reflexivity.
  - repeat constructor; exists 2000%nat; (split; [done|apply Nat.leb_le; vm_compute; reflexivity]).
  - reflexivity.
  - lia.
  - cbn. lia.
  - exists c', (Prng 30 2 [7]), w'. split; [exact E|]. split; [|exact Hst]. rewrite Hs. vm_compute. reflexivity.
Defined.


(** a step of the walk ends on an edge: on a node as the script writes it,
    [markov_step] never reaches its [abort] and never divides by zero; the edge
    it takes is the one whose share of the weights the random number falls
    into. *)
Theorem markov_step_total nodes root n nid g : nodes !! nid = Some n -> mnode_ok n -> prng_ok g -> rands g <> [] -> n_edges n <> [] ->
  exists rb g' e, markov_step nodes root (Some nid) g = Ret (Some e, g') /\ prng_ok g' /\
    get_random_bits (n_edge_prob_bits n) g = Ret (rb, g') /\ edge_of (rb mod n_edge_prob_max n) 0 (n_edges n) e.
Proof. apply walk_step_ok. Qed.

Lemma markov_step_total_witness : exists g', markov_step visits 0 (Some 0%nat) dice = Ret (Some 1%nat, g') /\ prng_ok g'.
Proof.
  destruct (markov_step_total visits 0 (MNode [] [] 1 2 [MEdge 1 1; MEdge 2 2]) 0 dice) as (rb & g' & e & E & Hg & _).
  - reflexivity.
  - constructor; cbn; [lia|lia|unfold ASSUME_RAND_MAX_BITS; lia].
  - constructor; [cbn; unfold ASSUME_RAND_MAX_BITS; lia|cbn; lia|]. unfold ASSUME_RAND_MAX_BITS. repeat constructor; lia.
  - discriminate.
  - discriminate.
  - exists g'. assert (match markov_step visits 0 (Some 0%nat) dice with Ret (e, _) => e | _ => None end = Some 1%nat) as He
      by (vm_compute; reflexivity). rewrite E in He. rewrite E, He. by split.
Defined.

(** [get_random_bits] gives the next bits of the cache, as many as asked for and no
    more, as long as the cache has that many; and the cache never holds more
    than it says. *)
Theorem get_random_bits_bound bits g : prng_ok g -> 0 <= bits <= cached_bits g -> rands g <> [] ->
  exists ret g', get_random_bits bits g = Ret (ret, g') /\ prng_ok g' /\ 0 <= ret < 2 ^ bits /\
    rbits g = ret + 2 ^ bits * rbits g'.
Proof.
  intros Hg Hb Hr. pose proof (pg_bits g Hg). destruct (random_bits_ok bits g Hg ltac:(lia) Hr) as (ret & g' & E & Hg' & _ & H2).
  destruct (H2 ltac:(lia)) as [-> E2]. exists (rbits g mod 2 ^ bits), g'. split; [exact E|]. split; [done|].
  split; [apply Z.mod_pos_bound; lia|]. rewrite E2, Z.shiftr_div_pow2 by lia. rewrite Z.add_comm. by apply Z.div_mod; lia.
Qed.

Lemma get_random_bits_bound_witness : exists g', get_random_bits 3 (Prng 5 22 [9]) = Ret (6, g') /\ rbits g' = 2.
Proof.
  destruct (get_random_bits_bound 3 (Prng 5 22 [9])) as (ret & g' & E & _ & _ & Hs).
  - constructor; [cbn; unfold ASSUME_RAND_MAX_BITS; lia|cbn; lia|]. unfold ASSUME_RAND_MAX_BITS. repeat constructor; lia.
  - cbn. lia.
  - discriminate.
  - assert (match get_random_bits 3 (Prng 5 22 [9]) with Ret (r, _) => r | _ => 0 end = 6) as Hr by (vm_compute; reflexivity).
    rewrite E in Hr. subst ret. exists g'. split; [exact E|]. cbn in Hs. lia.
Defined.

(** but when the cache runs out it gives more bits than asked for: what is left of
    the cache is masked with its size instead of its bits and shifted by its
    size instead of by the bits still missing. Asked for four bits with three
    in the cache, the answer can be 17. *)
Theorem get_random_bits_overflows : exists g g', prng_ok g /\ get_random_bits 4 g = Ret (17, g') /\ ~ 17 < 2 ^ 4.
Proof.
  exists (Prng 3 2 [1]), (Prng 30 0 []). split; [|split; [reflexivity|lia]].
  constructor; [cbn; unfold ASSUME_RAND_MAX_BITS; lia|cbn; lia|]. constructor; [|constructor]. unfold ASSUME_RAND_MAX_BITS. lia.
Qed.

(** a socket that is full makes the client fall out of its buffer: when the first
    [send] of a page would block, [client_write] goes on as if it had sent [-1]
    bytes and moves the buffer's read position to before its first byte. *)
Theorem client_write_again nodes root host port nid node inpipe (c : http_client) (g g' : prng) w m al :
  thinking inpipe c -> markov_step nodes root (c_markov c) g = Ret (Some nid, g') -> nodes !! nid = Some node ->
  w_alloc w = AllocAnswer true (Some m) :: al -> fits host port (n_uri node) ->
  match w_send w with [] => True | a :: _ => a = SysErr EAGAIN end ->
  client_write nodes root host port c g w = Fault OutOfBounds.
Proof.
  intros [Hst Hl Hi] Hstep Hn Hal Hfit Hs.
  set (b := HttpBuf (resize (pool_size h_req_pool) 0 m) 0 0). set (w1 := with_pools (with_alloc w al) (set_use (w_pools w) h_req_pool (S (n_req (w_pools w))))).
  assert (buf_alloc h_req_pool w = (Some b, w1)) as Ea by (unfold buf_alloc; by rewrite Hal).
  assert (fresh_tx b) as Hf.
  { unfold fresh_tx, buf_ok, b_end, b. cbn [b_mem b_read b_write]. rewrite length_resize. unfold pool_size. split_and!; (done || lia). }
  destruct (do_req_ok host port b (n_uri node) Hf Hfit) as (b' & Eb & Hb' & _ & Hr' & Hu').
  unfold client_write, next_request. rewrite Hst, Hstep. run. rewrite Ea. cbn [c_markov set_tx set_page option_bind mbind]. rewrite Hn. run.
  cbn [c_tx_buf set_tx of_option]. run. rewrite Eb. run. cbn [negb c_tx_buf set_tx of_option]. run.
  rewrite (read_ok b' Hb'). run. unfold send. cbn [w_send with_pools with_alloc w1].
  unfold done_read_back. destruct (w_send w) as [|a l]; [by rewrite Hr'|]. subst a. by rewrite Hr'.
Qed.

Lemma client_write_again_witness :
  client_write visits 0 local 80 new_client dice (rape_world [] [SysErr EAGAIN]) = Fault OutOfBounds.
Proof.
  apply (client_write_again visits 0 local 80 1 (MNode (lit "/a") [lit "/b.png"; lit "/c.css"] 0 1 [MEdge 1 0]) 0
    new_client dice (Prng 30 2 [7]) _ [] (replicate 3 (AllocAnswer true (Some [])))).
  - by constructor.
  - vm_compute. reflexivity.
  - reflexivity.
  - reflexivity.
  - unfold fits, HTTP_MAX_RESP. apply Nat.ltb_lt. vm_compute. reflexivity.
  - reflexivity.
Defined.

(** Where the recogniser stops. *)
Lemma stops_at inp : forall st n st' n', http_parse_incremental st n inp = Ret (true, st', n') ->
  RSTATE_TERMINAL st' = true /\ (n <= n')%nat /\ exists ch rest, drop (n' - n) inp = ch :: rest /\ (ch = CR \/ ch = LF).
Proof.
  induction inp as [|ch inp IH]; intros st n st' n' E; cbn [http_parse_incremental] in E; [done|].
  assert (forall s, http_parse_incremental s (S n) inp = Ret (true, st', n') -> RSTATE_TERMINAL st' = true /\ (n <= n')%nat /\
    exists ch' rest, drop (n' - n) (ch :: inp) = ch' :: rest /\ (ch' = CR \/ ch' = LF)) as Hgo.
  { intros s Hs. destruct (IH s (S n) st' n' Hs) as (H1 & H2 & ch' & rest & H3 & H4). split; [done|]. split; [lia|].
    exists ch', rest. replace (n' - n)%nat with (S (n' - S n)) by lia. by split. }
  assert (forall s, (if RSTATE_TERMINAL s then Ret (true, s, n) else http_parse_incremental s (S n) inp) = Ret (true, st', n') ->
    (ch = CR \/ ch = LF) -> RSTATE_TERMINAL st' = true /\ (n <= n')%nat /\
    exists ch' rest, drop (n' - n) (ch :: inp) = ch' :: rest /\ (ch' = CR \/ ch' = LF)) as Hend.
  { intros s Hs Hch. destruct (RSTATE_TERMINAL s) eqn:Et; [|by eapply Hgo]. injection Hs as <- <-.
    split; [done|]. split; [lia|]. exists ch, inp. by rewrite Nat.sub_diag. }
  destruct (Z.eqb_spec ch CR) as [->|]; [apply outcome_bind_ret in E as (s & _ & E); apply (Hend s E); by left|].
  destruct (Z.eqb_spec ch LF) as [->|]; [apply outcome_bind_ret in E as (s & _ & E); apply (Hend s E); by right|].
  by eapply Hgo.
Qed.

(** In a terminal state it fails on the next end of line. *)
Lemma terminal_fails st n ch inp : RSTATE_TERMINAL st = true -> ch = CR \/ ch = LF ->
  http_parse_incremental st n (ch :: inp) = Fault AssertFailed.
Proof. intros Ht [-> | ->]; cbn; by destruct st. Qed.

(** A receive buffer whose header has been recognised and whose parser is as the
    recogniser left it. *)
Record answered_client (c : http_client) (b : http_buf) : Prop := {
  ac_buf : c_rx_buf c = Some b;
  ac_ok : buf_ok b;
  ac_state : RSTATE_TERMINAL (c_rx_rstate c) = true;
  ac_at : exists ch rest, bytes_at b (c_rx_rptr c) (b_write b - c_rx_rptr c) = ch :: rest /\ (ch = CR \/ ch = LF);
}.

Definition rx_ok (c : http_client) : Prop :=
  match c_rx_buf c with None => True | Some b => buf_ok b /\ (c_rx_rptr c <= b_write b)%nat end.

(** The receive buffer of [client_read], as it begins. *)
Lemma rx_buffer c w : rx_ok c -> exists o c1 w1,
  match c_rx_buf c with
  | Some b => (Some b, c, w)
  | None => let (b, w) := buf_alloc h_res_pool w in (b, match b with Some _ => set_rx c b 0 RSTATE_INITIAL | None => c end, w)
  end = (o, c1, w1) /\ c_nbio c1 = c_nbio c /\
  match o with None => True | Some b => buf_ok b /\ (c_rx_rptr c1 <= b_write b)%nat end.
Proof.
  unfold rx_ok. destruct (c_rx_buf c) as [b|]; [by eexists _, _, _|]. intros _. unfold buf_alloc.
  destruct (w_alloc w) as [|a al]; [by eexists _, _, _|]. destruct (do_alloc h_res_pool a (w_pools w)) as [[b|] ps] eqn:E.
  - apply alloc_ok in E as (Hb & _ & _ & _ & Hw & _). eexists _, _, _. split; [reflexivity|]. cbn. split_and!; [done|done|lia].
  - by eexists _, _, _.
Qed.

(** A client that turns to writing has recognised a header. *)
Lemma read_answers c w c' w' : rx_ok c -> n_mask (c_nbio c) = NBIO_READ -> client_read c w = Ret (c', w') ->
  n_mask (c_nbio c') = NBIO_WRITE -> exists b, answered_client c' b.
Proof.
  intros Hrx Hm E Hw. unfold client_read in E. destruct (rx_buffer c w Hrx) as (o & c1 & w1 & E1 & En & Ho). rewrite E1 in E. clear E1.
  destruct o as [b|]; [|injection E as <- <-; done]. destruct Ho as [Hb Hp].
  rewrite (write_ok b Hb) in E. run_in E. destruct (room b =? 0)%nat; [injection E as <- <-; done|].
  destruct (recv (room b) w1) as [[l|e] w2] eqn:Er.
  2:{ destruct e; injection E as <- <-; cbn in Hw; rewrite ?En, ?Hm in Hw; done. }
  destruct l as [|ch l]; [injection E as <- <-; done|].
  apply outcome_bind_ret in E as (b1 & Ep & E). apply outcome_bind_ret in E as ([b2 sz] & Ed & E).
  apply outcome_bind_ret in E as ([[found rs] adv] & Ei & E).
  destruct found; cbn [negb] in E; [|injection E as <- <-; cbn in Hw; rewrite En, Hm in Hw; done].
  apply outcome_bind_ret in E as (n & _ & [= <- <-]). apply stops_at in Ei as (Ht & Hle & ch' & rest & Hd & Hch).
  exists b2. constructor; [done| |done|].
  - unfold poke in Ep. destruct (Nat.leb_spec (b_write b + length (ch :: l)) (b_end b)) as [Hfit|]; [|done]. injection Ep as <-.
    unfold buf_done_write in Ed. ret_inv. unfold buf_ok in *. cbn [b_read b_write]. split; [destruct Hb; lia|].
    match goal with H : c_assert _ = _ |- _ => apply c_assert_ret, Nat.leb_le in H; exact H end.
  - exists ch', rest. split; [|done]. cbn [c_rx_rptr set_io set_tx set_rx]. rewrite Nat.sub_0_r in Hd.
    rewrite <- Hd. unfold bytes_at. rewrite skipn_firstn_comm, drop_drop. f_equal. lia.
Qed.

(** Storing at the write position does not touch what is before it. *)
Lemma poke_before b l b1 i : poke b (b_write b) l = Ret b1 -> (i < b_write b)%nat -> b_mem b1 !! i = b_mem b !! i.
Proof.
  unfold poke. destruct (Nat.leb_spec (b_write b + length l) (b_end b)) as [Hf|]; [|done]. intros [= <-] Hi. cbn [b_mem].
  unfold b_end in Hf. rewrite lookup_app_l by (rewrite length_take; lia). by apply lookup_take_lt.
Qed.

Lemma bytes_at_head b p n ch rest : bytes_at b p n = ch :: rest <->
  b_mem b !! p = Some ch /\ (0 < n)%nat /\ rest = take (n - 1) (drop (S p) (b_mem b)).
Proof.
  unfold bytes_at. destruct n as [|n]; [split; [done|lia]|]. replace (S n - 1)%nat with n by lia.
  destruct (b_mem b !! p) as [x|] eqn:E.
  - rewrite (drop_S _ x) by done. cbn. split; [intros [= -> ->]; split_and!; (done || lia)|intros ([= ->] & _ & ->); done].
  - rewrite drop_ge by (by apply lookup_ge_None). split; [done|by intros [? _]].
Qed.

(** Whatever arrives next fails an assertion. *)
Lemma next_read_fails c b w l s : answered_client c b -> room b <> 0%nat -> w_recv w = RecvData l :: s -> l <> [] ->
  client_read c w = Fault AssertFailed.
Proof.
  intros [Hb Hok Ht (ch & rest & Hat & Hch)] Hroom Hr Hl. unfold client_read. rewrite Hb. rewrite (write_ok b Hok). run.
  rewrite (proj2 (Nat.eqb_neq _ _) Hroom).
  assert (exists l' w', recv (room b) w = (inl l', w') /\ l' <> [] /\ (length l' <= room b)%nat) as (l' & w' & -> & Hne & Hle).
  { unfold recv. rewrite Hr. destruct (Nat.leb_spec (length l) (room b)); eexists _, _; (split; [reflexivity|]); [done|].
    rewrite length_take. split; [|lia]. destruct l, (room b); done. }
  destruct l' as [|x l']; [done|]. destruct (append_ok b (x :: l') (length (x :: l')) Hok Hle) as
    (b1 & b2 & Ep & E2 & _ & Hok2 & _ & _ & _ & He2 & Hw2 & _); [done|]. rewrite Ep. run. rewrite E2. run.
  apply bytes_at_head in Hat as (Hm & Hlt & _).
  assert (b_mem b2 !! c_rx_rptr c = Some ch) as Hm2.
  { rewrite <- Hm, <- (poke_before b (x :: l') b1) by (done || lia). unfold buf_done_write in E2. by ret_inv. }
  destruct (bytes_at b2 (c_rx_rptr c) (b_write b2 - c_rx_rptr c)) as [|ch' rest'] eqn:Eb.
  { assert (bytes_at b2 (c_rx_rptr c) (b_write b2 - c_rx_rptr c) = ch :: take (b_write b2 - c_rx_rptr c - 1) (drop (S (c_rx_rptr c)) (b_mem b2))) as Eb'
      by (apply bytes_at_head; split_and!; [done|lia|done]). by rewrite Eb in Eb'. }
  apply bytes_at_head in Eb as (Hm' & _). rewrite Hm2 in Hm'. injection Hm' as <-. by rewrite terminal_fails.
Qed.

(** a client survives one response. When [client_read] has recognised the end of
    a response's header it turns to writing and leaves the recogniser in its
    final state, at the end of the line it stopped at; so the first byte that
    arrives after that, be it of the body or of the next response, makes the
    next call fail an assertion, unless the buffer is full. *)
Theorem client_second_read (c : http_client) w c' w' c2 w2 l s : rx_ok c -> n_mask (c_nbio c) = NBIO_READ ->
  client_read c w = Ret (c', w') -> n_mask (c_nbio c') = NBIO_WRITE ->
  c_rx_buf c2 = c_rx_buf c' -> c_rx_rptr c2 = c_rx_rptr c' -> c_rx_rstate c2 = c_rx_rstate c' ->
  w_recv w2 = RecvData l :: s -> l <> [] ->
  exists b, c_rx_buf c' = Some b /\ (room b <> 0%nat -> client_read c2 w2 = Fault AssertFailed).
Proof.
  intros Hrx Hm E Hw E1 E2 E3 Hr Hl. destruct (read_answers c w c' w' Hrx Hm E Hw) as (b & [Hb Hok Ht Hat]).
  exists b. split; [done|]. intros Hroom. apply (next_read_fails c2 b w2 l s); try done.
  constructor; [congruence|done|by rewrite E3|by rewrite E2].
Qed.

Definition waiting_client : http_client :=
  HttpClient (Nbio 4 NBIO_READ NBIO_READ Active) CLIENT_TX_THINK (Some 1%nat) 3 3 None 0 None RSTATE_INITIAL.

Lemma client_second_read_witness : exists c' w',
  client_read waiting_client (rape_world [RecvData (lit "HTTP/1.1 200 OK" ++ crlf ++ crlf)] []) = Ret (c', w') /\
  client_read c' (rape_world [RecvData (lit "HTTP/1.1 200 OK" ++ crlf ++ crlf)] []) = Fault AssertFailed.
Proof.
  assert (exists c' w', client_read waiting_client (rape_world [RecvData (lit "HTTP/1.1 200 OK" ++ crlf ++ crlf)] []) = Ret (c', w') /\
    n_mask (c_nbio c') = NBIO_WRITE /\ match c_rx_buf c' with Some b => (room b =? 0)%nat = false | None => False end)
    as (c' & w' & E & Hm & Hroom) by (do 2 eexists; split; [vm_compute; reflexivity|split; vm_compute; reflexivity]).
  exists c', w'. split; [exact E|].
  destruct (client_second_read waiting_client _ c' w' c' (rape_world [RecvData (lit "HTTP/1.1 200 OK" ++ crlf ++ crlf)] [])
    (lit "HTTP/1.1 200 OK" ++ crlf ++ crlf) [] I eq_refl E Hm eq_refl eq_refl eq_refl eq_refl) as (b & Hb & H); [discriminate|].
  rewrite Hb in Hroom. apply H. by apply Nat.eqb_neq.
Defined.
