(* ===== verification/RapeMain.v ===== *)
(** * httprape.c: the program

    [main] of the load generator over the event loop: its arguments, the first
    connections and the loop. The callbacks of its clients are in [Httprape];
    here the owner of a connection is the argument [cb]. *)

From S2P Require Import Prelude ListHead Os Nbio NbioLoop NbioPoll NbioEpoll Sockets NbioConnecter Httpd Httprape.
Local Open Scope Z_scope.

(** ** The arguments *)

Definition isspace (c : Z) : bool := (c =? 32) || ((9 <=? c) && (c <=? 13)).
Definition isdigit (c : Z) : bool := (48 <=? c) && (c <=? 57).

Fixpoint digits_value (acc : Z) (s : list Z) : Z :=
  match s with
  | c :: s => if isdigit c then digits_value (10 * acc + (c - 48)) s else acc
  | [] => acc
  end.

Fixpoint skip_spaces (s : list Z) : list Z :=
  match s with c :: s' => if isspace c then skip_spaces s' else s | [] => [] end.

(** [atoi] of the C library: a value that is no [int] is undefined behaviour. *)
Definition atoi (s : list Z) : outcome Z :=
  let n := match skip_spaces s with
    | 45 :: s => - digits_value 0 s
    | 43 :: s => digits_value 0 s
    | s => digits_value 0 s
    end in
  if (- 2 ^ 31 <=? n) && (n <? 2 ^ 31) then Ret n else Fault OutOfBounds.

(** [svr_addr] and [svr_port], from the arguments after the program's name. When
    [inet_aton] does not understand the address, nothing has been stored where
    the result is read from. *)
Definition client_args (inet_aton : list Z -> option Z) (args : list (list Z)) : outcome (Z * Z) :=
  let host_addr := default (lit "127.0.0.1") (args !! 0%nat) in
  svr_port ← match args !! 1%nat with Some a => n ← atoi a; Ret (uint 16 n) | None => Ret 80 end;
  svr_addr ← of_option OutOfBounds (inet_aton host_addr);
  Ret (svr_addr, svr_port).

(** ** The loop *)

Section rape.
Context {D A Pl Y : Type} `{!Sockets Y}.
Abbreviation K := (conn_data + D)%type.
Abbreviation E := (Pl * Y)%type.
Abbreviation thread := (iothread K A E).
Context (ops : K -> nbio_ops K A E) (cb : nat -> thread -> Z -> nat -> outcome thread) (handle_connect : nat) (stale : bool).
Implicit Types (t : thread) (L : lists) (plugin : eventloop K A E).

Definition target_concurrency : Z := 1.

(** The loop, for at most [turns] turns of it. *)
Fixpoint client_loop plugin (fuel turns : nat) t : outcome thread :=
  match turns with
  | O => Fault OutOfFuel
  | S turns =>
    t ← nbio_pump plugin ops fuel t (-1);
    empty ← list_empty t.1 active;
    if (empty : bool) then Ret t else client_loop plugin fuel turns t
  end.

(** From [ramp_up] on, with no connection so far. The result is [max_concurrency]. *)
Definition run_clients plugin (fuel turns : nat) (svr_addr svr_port : Z) t : outcome (Z * thread) :=
  '(max_concurrency, t) ← ramp_up (fun t => connecter plugin cb stale t SOCK_STREAM IPPROTO_TCP svr_addr svr_port handle_connect 0)
    (Z.to_nat target_concurrency) 0 target_concurrency t;
  t ← client_loop plugin fuel turns t;
  t ← nbio_fini plugin ops fuel t;
  Ret (max_concurrency, t).

(** The exit status, [true] for success. [clients] is whether the pool of clients could be made. *)
Definition rape_main (inet_aton : list Z -> option Z) (clients : bool) (ev_list : list (eventloop K A E)) (fuel turns : nat) t (args : list (list Z)) : outcome (bool * thread) :=
  '(svr_addr, svr_port) ← client_args inet_aton args;
  if negb clients then Ret (false, t)
  else
    '(plugin, t) ← nbio_init ev_list t None;
    match plugin with
    | None => Ret (false, t)
    | Some plugin => '(_, t) ← run_clients plugin fuel turns svr_addr svr_port t; Ret (true, t)
    end.
End rape.

(** ** Properties *)

Lemma walk_empty {K A E} (body : nat -> iothread K A E -> outcome (iothread K A E)) fuel hd (t : iothread K A E) L :
  repr t.1 L -> L !! hd = Some [] -> list_for_each_safe body fuel hd t = Ret t.
Proof.
  intros HR Hl. destruct (ring_next _ _ _ (re_ring _ _ HR _ _ Hl)) as [Hn _]. unfold list_for_each_safe, get_next. rewrite Hn. run. rewrite Hn. run.
  destruct fuel; cbn [for_each_safe]; by rewrite Nat.eqb_refl.
Qed.

Lemma pump_empty {K A E} (plugin : eventloop K A E) ops fuel t L mto : repr t.1 L -> L !! active = Some [] -> L !! deleted = Some [] ->
  L !! inactive = Some [] -> nbio_pump plugin ops fuel t mto = Ret t.
Proof.
  intros HR Ha Hd Hi. unfold nbio_pump. replace (pump_active ops fuel t) with (Ret t : outcome (iothread K A E))
    by (destruct fuel; cbn [pump_active]; by rewrite (empty_iff _ L _ [] HR Ha)).
  run. rewrite (walk_empty _ _ _ _ L HR Hd). run. by rewrite (empty_iff _ L _ [] HR Hi).
Qed.

Section refused.
Context {D A Pl Y : Type} `{!Sockets Y} (plugin : eventloop (conn_data + D) A (Pl * Y)) (cb : nat -> iothread (conn_data + D) A (Pl * Y) -> Z -> nat -> outcome (iothread (conn_data + D) A (Pl * Y))).

(** There is no socket, or [connect] fails at once. *)
Lemma connecter_refused stale t type proto addr port c p s y1 : sk_socket (get_sys t) (Z.lor type SOCK_NONBLOCK) proto = (s, y1) ->
  (0 <= s -> (sk_connect y1 s (SockaddrIn PF_INET (net_bytes 2 port) (le_bytes 4 addr))).1 = ConnectErr) ->
  exists y', connecter plugin cb stale t type proto addr port c p = Ret (false, put_sys t y') /\
    opened y' = if s <? 0 then opened (get_sys t) else {[s]} ∪ opened (get_sys t).
Proof.
  intros Es Hc. pose proof (socket_law _ _ _ _ _ Es) as Eo. unfold connecter. rewrite Es. destruct (Z.ltb_spec s 0) as [Hs|Hs]; [by exists y1|].
  destruct Eo as [_ Eo]. specialize (Hc Hs). pose proof (connect_law y1 s (SockaddrIn PF_INET (net_bytes 2 port) (le_bytes 4 addr))) as O2.
  change (get_sys (put_sys t y1)) with y1. destruct (sk_connect _ _ _) as [a y2]. cbn in Hc, O2. subst a. exists y2. split; [done|congruence].
Qed.
End refused.

(** a client whose connection cannot be started (there is no socket, or [connect] fails at once) ends after one turn of a
    loop that has nothing to do, with 0 as [max_concurrency], and [main] says that it has succeeded; the socket that was not
    connected stays open. *)
Theorem client_gives_up {D A Pl Y} `{!Sockets Y} (plugin : eventloop (conn_data + D) A (Pl * Y)) ops cb handle_connect stale fuel turns addr port t L s y1 :
  repr t.1 L -> L !! active = Some [] -> L !! deleted = Some [] -> L !! inactive = Some [] ->
  sk_socket (get_sys t) (Z.lor SOCK_STREAM SOCK_NONBLOCK) IPPROTO_TCP = (s, y1) ->
  (0 <= s -> (sk_connect y1 s (SockaddrIn PF_INET (net_bytes 2 port) (le_bytes 4 addr))).1 = ConnectErr) ->
  exists y', opened y' = (if s <? 0 then opened (get_sys t) else {[s]} ∪ opened (get_sys t)) /\
    run_clients ops cb handle_connect stale plugin fuel (S turns) addr port t = (t2 ← ev_fini plugin (put_sys t y'); Ret (0, t2)).
Proof.
  intros HR Ha Hd Hi Es Hc. destruct (connecter_refused plugin cb stale t SOCK_STREAM IPPROTO_TCP addr port handle_connect 0 s y1 Es Hc) as (y' & Ec & Ho).
  exists y'. split; [done|]. unfold run_clients. change (Z.to_nat target_concurrency) with 1%nat. cbn [ramp_up]. change (target_concurrency <=? 0) with false. cbn iota.
  rewrite Ec. run. set (t1 := put_sys t y'). change (repr t1.1 L) in HR. clearbody t1. cbn [client_loop]. rewrite (pump_empty _ _ _ _ L) by done. run.
  rewrite (empty_iff _ L _ [] HR Ha), bool_decide_eq_true_2 by done. run.
  unfold nbio_fini. rewrite (walk_empty _ _ _ _ L HR Hi). run. rewrite (walk_empty _ _ _ _ L HR Hd). run. by rewrite (walk_empty _ _ _ _ L HR Ha).
Qed.

Example client_gives_up_witness : exists y', opened y' = {[3]} ∪ {[0]} /\
  run_clients conn_ops take_socket 7 false (eventloop_epoll 8) 0 1 16777343 80 (conn_start [inl ConnectErr] []) =
  (t2 ← ev_fini (eventloop_epoll 8) (put_sys (conn_start [inl ConnectErr] []) y'); Ret (0, t2)).
Proof.
  destruct (conn_start_ok [inl ConnectErr] []) as [W _].
  destruct (client_gives_up (eventloop_epoll 8) conn_ops take_socket 7 false 0 0 16777343 80 (conn_start [inl ConnectErr] []) (singles (heads ++ []))
    3 (Script {[0; 3]} [] [10%nat] [] [inl ConnectErr] [])) as (y' & O & E); [apply (wf_repr _ _ W)|reflexivity|reflexivity|reflexivity|vm_compute; reflexivity|reflexivity|].
  exists y'. split; [exact O|exact E].
Defined.

(** The arguments, tried out. *)
Example client_args_default : client_args (fun _ => Some 16777343) [] = Ret (16777343, 80).
Proof. reflexivity. Qed.
Example client_args_port : client_args (fun _ => Some 16777343) [lit "127.0.0.1"; lit " 65617x"] = Ret (16777343, 81).
Proof. vm_compute. reflexivity. Qed.
Example client_args_name : client_args (fun _ => None) [lit "localhost"] = Fault OutOfBounds.
Proof. reflexivity. Qed.
